(* ===== verification/_CoqProject ===== *)
-Q . S2P
Prelude.v
CMem.v
CString.v
MsgFormat.v
ShowFormat.v
State.v
Machine.v
Frame.v
IccpMsg.v
IccpQueue.v
SyncPrepare.v
Port.v
Show.v
Lookup.v
Syncd.v
Standby.v
MacTable.v
MacUpdate.v
LinkHandler.v
NeighUpdate.v
NeighLearn.v
SyncUpdate.v
AppCsm.v
IccpCsm.v
Ifm.v
Netlink.v
Cli.v
SyncdCfg.v
MlacpFsm.v
Scheduler.v
Control.v
SyncdRecv.v
EventLoop.v
Boot.v
Ctl.v
RbTree.v
RbRep.v
RbInsert.v
RbRemove.v
RbOps.v
RbRefine.v
RbContract.v
SyncdStream.v
Inputs.v
SyncdSend.v
Agreement.v
Pending.v
ConfigFile.v
Findings.v
MacTree.v
RbMac.v
MacLearn.v
FrameSend.v
FrameSteps.v
Batches.v
RoundTrip.v
Vlans.v
Connection.v
FrameFsm.v
Session.v
FrameIo.v
ShowFacts.v
ShowReply.v
CtlFacts.v
VlanShow.v
ShowTrip.v
Handshake.v
Daemon.v
Config.v
PacState.v
PacPort.v
PacClient.v
PacSm.v
PacEvents.v
PacConfig.v
PacFrame.v
PacSafety.v
PacTotal.v
PacSpec.v
PacCount.v
