(* ===== verification/Prelude.v ===== *)
(** * Verification of two SONiC daemons, iccpd and authmgrd: prelude and overview

    [iccpd] ([src/src/iccpd]) runs on each of two switches that present their port
    channels as one to their neighbours.  The two daemons keep a TCP session, agree on
    a redundancy group with the Inter-Chassis Communication Protocol, and announce to
    each other their configuration, port channels, MAC addresses and neighbours with
    mLACP messages.  They learn of links, addresses and neighbours from the kernel,
    receive their configuration and the MAC addresses of the switch from [mclagsyncd],
    and program the switch through [mclagsyncd] and the kernel.  [mclagdctl] connects to
    a local socket of the daemon and shows its tables.

    [authmgrd] ([src/src/sonic-pac/authmgr]) controls who may use a port.  Every client
    that is seen on a controlled port is authenticated by the methods enabled there
    (802.1X through hostapd, MAC authentication bypass), one after the other in the
    configured order, by a state machine of its own; an authorized client is entered in
    the hardware and in a VLAN, and a port is open while it has an authorized client.
    The two daemons do not interact; the two halves of the development share this
    prelude and the treatment of memory.

    ** How the program is modelled

    A C function is a computation in the monad [M] of this file, [W A] for the state
    [World] ([State.v]): it returns [Ok] with a value and a new state, or [Fault] with
    what the C code would have done wrong (a null or dangling pointer, an access
    outside an array) or with [OutOfFuel].  The [World] holds the objects of each type
    as a finite map from pointers, the system record, the global message buffer and a
    trace of the system calls; the environment [w_env] answers a system call, depending
    on the whole trace, so theorems that do not constrain it hold for every kernel,
    peer and switch.  Buffers are lists of bytes, structures have the C layout
    ([MsgFormat.v]), integers keep their width ([CMem.v], [CString.v]).  In the daemon's
    components a red-black tree is the list of its nodes in key order and a queue the
    list of its elements; the tree itself is modelled and verified on its links
    ([RbTree.v]), and [RbMac.v] shows that the list is what the links hold.
    Definitions carry the names of the functions of the source.

    ** Files that model the program

    - [CMem], [CString]: bytes, integers, structures in memory, C strings and their
      formatting and parsing.
    - [MsgFormat], [ShowFormat]: message formats and constants ([msg_format.h],
      [mlacp_tlv.h], [mclagdctl.h]) and the formatting of numbers and addresses.
    - [State], [Machine]: the records of the headers, the world, reading and writing
      objects, system calls.
    - [IccpMsg], [IccpQueue]: messages of the connection, built, sent and received
      ([iccp_csm.c], [app_csm.c]).
    - [SyncPrepare]: builders of mLACP messages ([mlacp_sync_prepare.c]).
    - [Port], [Ifm]: interfaces, VLANs, port-channel members ([port.c], [iccp_ifm.c],
      [system.c]).
    - [Syncd]: messages to mclagsyncd; [Standby]: MAC addresses on the standby node;
      [MacTable]: MAC entries; [LinkHandler]: link and session events
      ([mlacp_link_handler.c], [iccp_netlink.c]).
    - [MacUpdate], [NeighUpdate], [SyncUpdate]: what the peer announces and the
      consistency check ([mlacp_sync_update.c], [iccp_consistency_check.c]).
    - [SyncdCfg], [SyncdRecv]: what mclagsyncd sends
      ([mlacp_link_handler.c]).
    - [NeighLearn], [Netlink]: what the kernel and the wire report
      ([iccp_ifm.c], [iccp_netlink.c]).
    - [AppCsm], [IccpCsm], [MlacpFsm]: the three state machines ([app_csm.c],
      [iccp_csm.c], [mlacp_fsm.c]).
    - [Cli]: configuration commands and file ([iccp_cli.c], [iccp_cmd.c]).
    - [Scheduler], [EventLoop], [Boot]: reception, sessions, the events and rounds of
      the loop, the initial state ([scheduler.c], [iccp_netlink.c], [system.c]).
    - [Show], [Control]: the show commands, the configuration of the logger, and the
      control socket with its requests and replies ([iccp_cmd_show.c], [logger.c],
      [mlacp_link_handler.c]); [Ctl]: the program [mclagdctl] ([mclagdctl.c]), with a
      state of its own: its socket, what it printed, its environment.
    - [RbTree]: the red-black tree on parent, left and right links in memory, with the
      rotations and recolouring of insertion and removal ([openbsd_tree.c]).

    The authentication manager has a state of its own, [authmgrCB_t], with the logical
    ports in the slots of a pool and an environment that answers the calls to other
    components (interface manager, drivers, methods, data base) depending on all calls
    before:

    - [PacState]: the structures and enumerations of the headers, the keys of logical
      ports, the database of logical ports and addresses ([auth_mgr_db.c],
      [auth_mgr_mac_db.c]); the AVL tree is the map it implements, and a removed node
      reads as zeros, as [avl_util.c] leaves it.  Constants of headers that are not in the
      repository are the fields of the class [Headers].
    - [PacPort]: learning and violation policy of a port, VLANs, timers, canned EAP
      frames, statistics ([auth_mgr_utils.c], [auth_mgr_vlan_db.c], [auth_mgr_timer.c],
      [auth_mgr_txrx.c], [auth_mgr_ih.c]).
    - [PacClient]: the hardware entries, the status, the publication and the removal of a
      client ([auth_mgr_client.c], [auth_mgr_vlan.c]).
    - [PacSm]: the methods of a port, the table of the state machine, its actions and
      [authmgrGenerateEvents] ([auth_mgr_sm.c], [auth_mgr_control.c]).
    - [PacEvents]: new addresses, the results of the methods, changes of the methods and
      of VLANs, timers, commands about clients ([auth_mgr_control.c],
      [auth_mgr_radius.c], [auth_mgr_vlan.c], [auth_mgr_api.c]).
    - [PacConfig]: the control and host modes of a port and its configuration, the life of
      interfaces, the administrative mode ([auth_mgr_control.c], [auth_mgr_ih.c],
      [auth_mgr_cfg.c], [auth_mgr_dot1x.c], [nim_intf_map_api.c]), and the dispatch of the three
      queues with every case of it; [pac_handle] is a turn of the loop of [authmgrTask], and
      [pac_run] handles a list of messages.

    ** What is proved

    - Two nodes ([Connection], [Handshake], [Session]): one
      transition of the connection machine is a function of a small state; any number
      of transitions refines an abstract contract with the same bytes on the wire; two
      nodes of one group become operational under every fair schedule; nodes of
      different groups never do, refusals included; the roles of a pair are complementary; the end of a
      session resets the machine.
    - The protocol's data ([FrameSteps], [Batches], [RoundTrip], [Vlans]): the queues
      are sent completely, in order, in the TLV layout; the receiver handles exactly
      what the sender put in; the VLANs of a peer's port channel are those announced
      last.
    - Tables ([MacTree], [MacLearn], [Pending], [Agreement]): the MAC tree stays well
      formed, ageing is told to the peer once, a learned address is stored and queued;
      VLANs reported before their interface exist are kept and moved; the consistency
      check decides agreement of the two ends.
    - Red-black trees ([RbRep] to [RbContract], [RbMac]): links in memory represent a
      tree ([RbRep]); insertion and removal restore the colours ([RbInsert],
      [RbRemove]) and the walks give the order ([RbOps]); every sequence of
      operations refines the sorted list ([RbRefine], [RbContract]), a search
      follows at most twice the logarithm of the size many links, and the MAC tree of a
      machine is such a tree ([RbMac]).
    - Inputs and outputs ([SyncdStream], [SyncdSend], [Inputs], [Config], [ConfigFile]): the stream
      of mclagsyncd is handled message by message, and within the bounds of a message that
      gives its length and is terminated; sending is
      exact or reported; notifications and packets are parsed within their bounds and
      inverse to their encoding; commands for unknown domains are errors, the others
      do what they say, and a configuration file means its lines, lists of interfaces
      with the lengths of names the code compares.
    - Show commands ([ShowFacts], [ShowReply], [CtlFacts], [VlanShow], [ShowTrip]): the
      reply is the structures of the objects asked for, as long as it is shorter than [2^31]
      bytes (the code counts them in an [int], and [Show] has this width), written inside
      buffers that grow; VLANs are shown as ranges; the words of a command line
      select the command of the table; from the tables of the daemon to the screen
      [mclagdctl dump mac] shows every MAC entry once and in order, however the sockets
      split the bytes.
    - The daemon ([Frame] and the other [Frame] files, [Daemon]): every event handler,
      the control socket included, terminates from every memory; in every reachable state the message buffer and
      the rings of sent messages have their sizes, and sending is safe.
    - [Findings]: theorems about places where the code does not do what it means to.

    - The authentication manager: [PacFrame] has the rules for pre- and postconditions of
      its computations and the arithmetic of keys.  [PacSafety]: a client is authorized only
      if a success of a method named its address on its port, or the port was forced open.
      [PacTotal]: every message is handled to its end, unless a method is enabled twice, in
      which case the recursion is shown not to end.  [PacCount]: the count of authorized
      clients of a port is exact until a message sets the port up again, which is shown to
      lose it.
      [PacSpec]: methods are tried in order, precedence is decided by the lists, keys
      pack and unpack; and lemmas about places where the code does not do what it means to.

    [Machine] also has equality of computations from every state, with rewriting under binds;
    [Lookup] gives the lookups as functions of the memory.

    ** Bounds and fuel

    Loops of the C code that are not over a list carry fuel that the caller computes
    from the data: the length to receive plus the number of retries, the number of bytes
    to read or write on the control socket, the length of a reply for the structures in
    it, the length of a
    message for its attributes or options, the number of queued messages for the mLACP
    machine, eight rounds for the stages of a synchronisation, the number of entries in
    memory for the loops of a tree (the theorems of [RbContract.v] give the results
    outright, so it is enough).  [Daemon.v] proves that
    no handler runs out of it, whatever the memory and the environment, except for the
    reception from mclagsyncd, whose loop makes no progress when mclagsyncd completes
    a message with length 0; for messages of a positive length [SyncdStream.v] proves
    that it ends with all messages handled.
    The mutual recursion of [authmgrGenerateEvents] has the fuel [gen_fuel], four calls for
    every method and twelve more; [PacTotal.v] proves it enough (a call for every method
    that is still to come and five more are needed), and the loops over the clients of a port
    carry the number of logical ports a port may have, those over the interfaces the number of
    interfaces.
    [PacCount.v] takes the interface manager to give the same configuration identity of an
    interface each time, and the theorems on keys that the ports and users of [Headers]
    fit the fields of a key ([HeadersOk]).

    ** Not modelled

    The text that is logged, the command-line options of the daemon and the start of its
    process are input and output without protocol state.  What [getopt_long] prints itself
    is left out.  The construction of netlink requests
    with libnl, epoll and the creation of sockets are calls to the environment, and
    what libnl parses in a notification is an argument of the handlers.  The logging of
    functions is left out where it does not dereference memory that the function itself does not.
    Of [authmgrd] the start of the task, the management functions that other threads run
    (but for the order of the methods), [authmgrVlanConfChangeCallback], sockets and debugging
    texts are left out, and so are the processes around it (MAB, hostapd, the managers of the
    data base), which it calls.  The stored configuration is that of the start of a run but for
    what the task itself writes.  Locks have no effect on the model: one task handles the messages.
    The other programs of the repository (platform drivers, authentication clients) do
    not interact with these daemons. *)

From stdpp Require Export base tactics list gmap.
From Stdlib Require Export ZArith Lia Btauto.

#[global] Open Scope Z_scope.

(** Linear arithmetic with division and modulo by constants. *)
Ltac zdiv := cbn [Z.pow Z.pow_pos Pos.iter Z.mul Pos.mul] in *; Z.to_euclidean_division_equations; lia.

(** ** Record update

    [Settable proj] provides the update of one field of a record: [set proj f r]
    is [r] with [proj r] replaced by [f (proj r)].  Every record of the
    development gives its eta expansion once, and [make_setter] derives the
    setter of a field from it. *)

Class Settable {R E : Type} (proj : R → E) : Type := set : (E → E) → R → R.
Arguments set {R E} proj {_} f r : assert.

(** [make_setter eta proj] builds the setter of [proj] from the eta expansion
    [eta : R → R] of its record. *)
Ltac make_setter eta proj :=
  let f := fresh "f" in
  let r := fresh "r" in
  intros f r;
  let t := eval cbv beta delta [eta] in (eta r) in
  match (eval pattern (proj r) in t) with
  | ?g _ => exact (g (f (proj r)))
  end.

Declare Scope record_scope.
Delimit Scope record_scope with record.
Open Scope record_scope.

Notation "r <| p ::= f |>" := (set p f r)
  (at level 12, left associativity, p at level 9, f at level 200) : record_scope.
Notation "r <| p := v |>" := (set p (λ _, v) r)
  (at level 12, left associativity, p at level 9, v at level 200) : record_scope.

(** ** A fault-aware state monad

    A C function is a state transformer that either returns a value and a new
    state, or performs an undefined access.  The faults are values, so that
    memory safety is a theorem about a computation and not an assumption. *)

Inductive fault : Type :=
| NullDeref        (** a null pointer is dereferenced *)
| DanglingDeref    (** a pointer to no live object is dereferenced *)
| OutOfBounds      (** a read or write outside an array *)
| OutOfFuel.       (** a loop exceeded the bound given to it *)

#[global] Instance fault_eq_dec : EqDecision fault.
Proof. solve_decision. Defined.

Inductive outcome (S A : Type) : Type :=
| Ok (a : A) (s : S)
| Fault (f : fault).
Arguments Ok {S A} a s.
Arguments Fault {S A} f.

Definition M (S A : Type) : Type := S → outcome S A.

#[global] Instance M_ret S : MRet (M S) := λ A a s, Ok a s.
#[global] Instance M_bind S : MBind (M S) := λ A B k m s,
  match m s with
  | Ok a s' => k a s'
  | Fault f => Fault f
  end.

Definition fail {S A} (f : fault) : M S A := λ _, Fault f.
Definition gets {S A} (g : S → A) : M S A := λ s, Ok (g s) s.
Definition modify {S} (g : S → S) : M S unit := λ s, Ok tt (g s).

Definition from_option_or {S A} (f : fault) (o : option A) : M S A :=
  match o with
  | Some a => mret a
  | None => fail f
  end.

(** [when b m] is [if (b) m;]. *)
Definition when {S} (b : bool) (m : M S unit) : M S unit :=
  if b then m else mret tt.

(** [LIST_FOREACH], with a body that does not leave the loop. *)
Fixpoint mforeach {S A} (l : list A) (f : A → M S unit) : M S unit :=
  match l with
  | [] => mret tt
  | x :: l' => f x;; mforeach l' f
  end.

(** [LIST_FOREACH] with a body that may [break]: it returns whether it did. *)
Fixpoint mforeach_break {S A} (l : list A) (f : A → M S bool) : M S bool :=
  match l with
  | [] => mret false
  | x :: l' => b ← f x; if (b : bool) then mret true else mforeach_break l' f
  end.

(** [while (body ());] with an explicit bound on the number of rounds. *)
Fixpoint mwhile {S} (fuel : nat) (body : M S bool) : M S unit :=
  match fuel with
  | O => fail OutOfFuel
  | S n => b ← body; if (b : bool) then mwhile n body else mret tt
  end.

(** ** Weakest preconditions

    [wp m Q s]: run from [s], [m] returns without a fault, and [Q] holds of its
    result and of the final state. *)

Definition wp {S A} (m : M S A) (Q : A → S → Prop) (s : S) : Prop :=
  match m s with
  | Ok a s' => Q a s'
  | Fault _ => False
  end.

Section wp.
Context {S : Type}.

Lemma wp_ret {A} (a : A) (Q : A → S → Prop) s : Q a s → wp (mret a) Q s.
Proof. done. Qed.

Lemma wp_bind {A B} (m : M S A) (k : A → M S B) (Q : B → S → Prop) s :
  wp m (λ a, wp (k a) Q) s → wp (m ≫= k) Q s.
Proof. unfold wp, mbind, M_bind. by destruct (m s). Qed.

Lemma wp_bind_inv {A B} (m : M S A) (k : A → M S B) (Q : B → S → Prop) s :
  wp (m ≫= k) Q s → wp m (λ a, wp (k a) Q) s.
Proof. unfold wp, mbind, M_bind. by destruct (m s). Qed.

Lemma wp_mono {A} (m : M S A) (P Q : A → S → Prop) s :
  wp m P s → (∀ a s', P a s' → Q a s') → wp m Q s.
Proof. unfold wp. destruct (m s); auto. Qed.

Lemma wp_gets {A} (g : S → A) (Q : A → S → Prop) s : Q (g s) s → wp (gets g) Q s.
Proof. done. Qed.

Lemma wp_modify (g : S → S) (Q : unit → S → Prop) s : Q tt (g s) → wp (modify g) Q s.
Proof. done. Qed.

Lemma wp_when (b : bool) m (Q : unit → S → Prop) s :
  (if b then wp m Q s else Q tt s) → wp (when b m) Q s.
Proof. by destruct b. Qed.

Lemma wp_ok {A} (m : M S A) (Q : A → S → Prop) s :
  wp m Q s ↔ ∃ a s', m s = Ok a s' ∧ Q a s'.
Proof. unfold wp. destruct (m s); naive_solver. Qed.

(** The loop rule of [mforeach]: an invariant indexed by what is done. *)
Lemma wp_mforeach {A} (I : list A → S → Prop) (l : list A) f s :
  I [] s →
  (∀ done x todo s', l = done ++ x :: todo → I done s' →
     wp (f x) (λ _, I (done ++ [x])) s') →
  wp (mforeach l f) (λ _, I l) s.
Proof.
  intros HI Hstep.
  enough (∀ todo done s', l = done ++ todo → I done s' →
    wp (mforeach todo f) (λ _, I l) s') as H by by apply (H l []).
  induction todo as [|x todo IH]; intros done s' Hl Hd; simpl.
  - rewrite app_nil_r in Hl. by subst.
  - apply wp_bind. eapply wp_mono; [by eapply Hstep|]. intros [] s'' Hs''.
    apply (IH (done ++ [x])); [|done]. by rewrite <-app_assoc.
Qed.

(** The special case of an invariant that does not depend on the position. *)
Lemma wp_mforeach_inv {A} (I : S → Prop) (l : list A) f s :
  I s → (∀ x s', x ∈ l → I s' → wp (f x) (λ _, I) s') →
  wp (mforeach l f) (λ _, I) s.
Proof.
  intros HI Hstep. apply (wp_mforeach (λ _, I)); [done|].
  intros d x t s' -> Hs. apply Hstep; [|done]. set_solver.
Qed.

Lemma mforeach_app {A} (l1 l2 : list A) (f : A → M S unit) s :
  mforeach (l1 ++ l2) f s = (mforeach l1 f ;; mforeach l2 f) s.
Proof.
  revert s. induction l1 as [|x l1 IH]; intros s; simpl; [done|].
  unfold mbind, M_bind. destruct (f x s); [|done]. apply IH.
Qed.

(** The loop rule of [mwhile]: a variant that decreases on every round that
    continues bounds the fuel. *)
Lemma wp_mwhile (I : S → Prop) (variant : S → nat) body (Q : unit → S → Prop) fuel s :
  I s →
  (∀ s', I s' → wp body (λ b s'', if b : bool
                                  then I s'' ∧ (variant s'' < variant s')%nat
                                  else Q tt s'') s') →
  (variant s < fuel)%nat →
  wp (mwhile fuel body) Q s.
Proof.
  intros HI Hbody. revert s HI. induction fuel as [|n IH]; intros s HI Hv; [lia|].
  simpl. apply wp_bind. eapply wp_mono; [by apply Hbody|].
  intros [] s'; [|done]. intros [HI' Hv']. apply IH; [done|lia].
Qed.
End wp.

Lemma bind_ok {S A B} (m : M S A) (k : A → M S B) s a s' :
  m s = Ok a s' → (m ≫= k) s = k a s'.
Proof. unfold mbind, M_bind. by intros ->. Qed.
