(* ===== verification/CMem.v ===== *)
(** * C data: machine integers, byte buffers, packed structures, C strings

    The memory model shared by every component.  An integer of [w] bits is a [Z]
    reduced modulo [2^w]; a buffer is the list of its bytes; a packed C
    structure is a range of a buffer at a fixed offset, read and written through
    the accessors below.  The host is little-endian (the [__LITTLE_ENDIAN] branch
    of the bit-field layouts in [msg_format.h]), so [htons] swaps bytes. *)

From S2P Require Import Prelude.
#[local] Open Scope Z_scope.

(** ** Machine integers *)

Definition u8 (v : Z) : Z := v mod 2 ^ 8.
Definition u16 (v : Z) : Z := v mod 2 ^ 16.
Definition u32 (v : Z) : Z := v mod 2 ^ 32.
Definition u64 (v : Z) : Z := v mod 2 ^ 64.

(** [htons] and [ntohs] are the same byte swap, as are [htonl] and [ntohl]. *)
Definition htons (v : Z) : Z := (v mod 256) * 256 + (v / 256) mod 256.
Definition ntohs : Z → Z := htons.
Definition htonl (v : Z) : Z :=
  (v mod 256) * 2 ^ 24 + (v / 2 ^ 8) mod 256 * 2 ^ 16
  + (v / 2 ^ 16) mod 256 * 2 ^ 8 + (v / 2 ^ 24) mod 256.
Definition ntohl : Z → Z := htonl.

(** A bit field of [width] bits at bit [lo] of a 16-bit unit. *)
Definition bits_get (w lo width : Z) : Z := Z.land (Z.shiftr w lo) (Z.ones width).
Definition bits_set (w lo width v : Z) : Z :=
  Z.lor (Z.ldiff w (Z.shiftl (Z.ones width) lo)) (Z.shiftl (Z.land v (Z.ones width)) lo).

(** The bytes of an integer in memory, least significant byte first. *)
Definition le16 (v : Z) : list Z := [v mod 256; (v / 256) mod 256].
Definition le32 (v : Z) : list Z :=
  [v mod 256; (v / 2 ^ 8) mod 256; (v / 2 ^ 16) mod 256; (v / 2 ^ 24) mod 256].

(** ** Buffers *)

Definition rd8 (off : nat) (buf : list Z) : option Z := buf !! off.

Definition rd16 (off : nat) (buf : list Z) : option Z :=
  a ← rd8 off buf; b ← rd8 (off + 1) buf; Some (a + b * 256).

Definition rd32 (off : nat) (buf : list Z) : option Z :=
  a ← rd16 off buf; b ← rd16 (off + 2) buf; Some (a + b * 2 ^ 16).

Definition rd_bytes (off n : nat) (buf : list Z) : option (list Z) :=
  if (off + n <=? length buf)%nat then Some (take n (drop off buf)) else None.

Definition put (off : nat) (bs buf : list Z) : option (list Z) :=
  if (off + length bs <=? length buf)%nat
  then Some (take off buf ++ bs ++ drop (off + length bs) buf)
  else None.

(** One assignment to a field of a structure laid over a buffer. *)
Inductive store : Type :=
| W8 (off : nat) (v : Z)
| W16 (off : nat) (v : Z)
| W32 (off : nat) (v : Z)
| WB (off : nat) (bs : list Z)            (** [memcpy] *)
| WBits (off : nat) (lo width v : Z)      (** a bit field of a [uint16_t] unit *)
| WSwap16 (off : nat).                    (** byte swap of the [uint16_t] at [off], in place *)

Definition apply_store (s : store) (buf : list Z) : option (list Z) :=
  match s with
  | W8 off v => put off [u8 v] buf
  | W16 off v => put off (le16 v) buf
  | W32 off v => put off (le32 v) buf
  | WB off bs => put off bs buf
  | WBits off lo width v => w ← rd16 off buf; put off (le16 (bits_set w lo width v)) buf
  | WSwap16 off => w ← rd16 off buf; put off (le16 (htons w)) buf
  end.

Fixpoint apply_stores (ss : list store) (buf : list Z) : option (list Z) :=
  match ss with
  | [] => Some buf
  | s :: ss' => buf' ← apply_store s buf; apply_stores ss' buf'
  end.

(** [memset(buf, 0, n)] *)
Definition memset0 (n : nat) (buf : list Z) : option (list Z) :=
  put 0 (replicate n 0) buf.

(** The bytes a store touches. *)
Definition store_end (s : store) : nat :=
  match s with
  | W8 off _ => off + 1
  | W16 off _ | WBits off _ _ _ | WSwap16 off => off + 2
  | W32 off _ => off + 4
  | WB off bs => off + length bs
  end.

(** ** C strings

    A [char name[n]] array is the list of its bytes; its string is what precedes
    the first null byte ([strlen] of an array without one stops at its end). *)

Fixpoint cstr (l : list Z) : list Z :=
  match l with
  | [] => []
  | c :: l' => if c =? 0 then [] else c :: cstr l'
  end.

Definition strlen (l : list Z) : Z := Z.of_nat (length (cstr l)).

(** [strcmp(a, b) == 0] *)
Definition str_eqb (a b : list Z) : bool := bool_decide (cstr a = cstr b).

(** The sign of [memcmp(a, b, n)] on arrays of the same length. *)
Fixpoint memcmp (a b : list Z) : Z :=
  match a, b with
  | x :: a', y :: b' => if x <? y then -1 else if y <? x then 1 else memcmp a' b'
  | _, _ => 0
  end.

(** [sprintf(dst, "%s", src)] into the array [dst]. *)
Definition sprintf_s (dst src : list Z) : option (list Z) := put 0 (cstr src ++ [0]) dst.

(** ** Lemmas *)

Lemma htons_range v : 0 ≤ htons v < 2 ^ 16.
Proof.
  unfold htons. pose proof (Z.mod_pos_bound v 256). pose proof (Z.mod_pos_bound (v / 256) 256). lia.
Qed.

Lemma htons_swap v : 0 ≤ v < 2 ^ 16 → ntohs (htons v) = v.
Proof. unfold ntohs, htons. intros Hv. zdiv. Qed.

Lemma ntohs_u16 v : htons (u16 v) = htons v.
Proof. unfold htons, u16. zdiv. Qed.

Lemma htonl_range v : 0 ≤ htonl v < 2 ^ 32.
Proof.
  unfold htonl. pose proof (Z.mod_pos_bound v 256). pose proof (Z.mod_pos_bound (v / 2 ^ 8) 256).
  pose proof (Z.mod_pos_bound (v / 2 ^ 16) 256). pose proof (Z.mod_pos_bound (v / 2 ^ 24) 256). lia.
Qed.

Lemma le16_htons v : le16 (htons v) = [(v / 256) mod 256; v mod 256].
Proof. unfold le16, htons. f_equal; [zdiv|]. f_equal. zdiv. Qed.

Lemma le32_htonl v :
  le32 (htonl v) = [(v / 2 ^ 24) mod 256; (v / 2 ^ 16) mod 256; (v / 2 ^ 8) mod 256; v mod 256].
Proof. unfold le32, htonl. repeat (f_equal; [zdiv|]). f_equal. zdiv. Qed.

Lemma put_length off bs buf buf' : put off bs buf = Some buf' → length buf' = length buf.
Proof.
  unfold put. destruct (Nat.leb_spec (off + length bs) (length buf)); [|done].
  intros [= <-]. rewrite !length_app, length_take, length_drop. lia.
Qed.

Lemma apply_store_length s buf buf' :
  apply_store s buf = Some buf' → length buf' = length buf.
Proof.
  destruct s; simpl; try apply put_length;
    (destruct (rd16 off buf); simpl; [apply put_length|done]).
Qed.

Lemma apply_stores_length ss buf buf' :
  apply_stores ss buf = Some buf' → length buf' = length buf.
Proof.
  revert buf. induction ss as [|s ss IH]; intros buf; simpl; [by intros [= ->]|].
  destruct (apply_store s buf) as [b|] eqn:E; simpl; [|done].
  intros H. rewrite (IH _ H). by eapply apply_store_length.
Qed.

Lemma apply_stores_app ss1 ss2 buf :
  apply_stores (ss1 ++ ss2) buf = (b ← apply_stores ss1 buf; apply_stores ss2 b).
Proof.
  revert buf. induction ss1 as [|s ss1 IH]; intros buf; simpl; [done|].
  destruct (apply_store s buf); simpl; [apply IH|done].
Qed.

(** A store that stays inside a prefix of the buffer acts on the prefix alone.
    A message is computed on the bytes it occupies, whatever the buffer holds
    behind them. *)
Lemma put_prefix off bs pre rest :
  (off + length bs ≤ length pre)%nat →
  put off bs (pre ++ rest) = (λ p, p ++ rest) <$> put off bs pre.
Proof.
  intros H. unfold put. rewrite length_app.
  rewrite !leb_correct by lia. simpl. f_equal.
  rewrite take_app_le, drop_app_le by lia. by rewrite <-!app_assoc.
Qed.

Lemma rd8_prefix off pre rest : (off < length pre)%nat → rd8 off (pre ++ rest) = rd8 off pre.
Proof. intros H. unfold rd8. by apply lookup_app_l. Qed.

Lemma rd16_prefix off pre rest :
  (off + 2 ≤ length pre)%nat → rd16 off (pre ++ rest) = rd16 off pre.
Proof. intros H. unfold rd16. rewrite !rd8_prefix by lia. done. Qed.

Lemma rd32_prefix off pre rest :
  (off + 4 ≤ length pre)%nat → rd32 off (pre ++ rest) = rd32 off pre.
Proof. intros H. unfold rd32. rewrite !rd16_prefix by lia. done. Qed.

Lemma apply_store_prefix s pre rest :
  (store_end s ≤ length pre)%nat →
  apply_store s (pre ++ rest) = (λ p, p ++ rest) <$> apply_store s pre.
Proof.
  intros H. destruct s; simpl in *; try (apply put_prefix; simpl; lia).
  all: rewrite rd16_prefix by lia; destruct (rd16 off pre); simpl; [|done].
  all: apply put_prefix; simpl; lia.
Qed.

Lemma apply_stores_prefix ss pre rest :
  Forall (λ s, store_end s ≤ length pre)%nat ss →
  apply_stores ss (pre ++ rest) = (λ p, p ++ rest) <$> apply_stores ss pre.
Proof.
  intros H. revert pre H. induction ss as [|s ss IH]; intros pre H; simpl; [done|].
  inversion H as [|?? Hs Hss]; subst. rewrite apply_store_prefix by done.
  destruct (apply_store s pre) as [p|] eqn:E; simpl; [|done].
  apply IH. by rewrite (apply_store_length _ _ _ E).
Qed.

Lemma memset0_all n buf : length buf = n → memset0 n buf = Some (replicate n 0).
Proof.
  intros <-. unfold memset0, put. rewrite length_replicate, leb_correct by lia.
  simpl. rewrite drop_ge by lia. by rewrite app_nil_r.
Qed.

Lemma cstr_app_nul s rest : Forall (λ c, c ≠ 0) s → cstr (s ++ 0 :: rest) = s.
Proof.
  induction 1 as [|c s Hc Hs IH]; simpl; [done|].
  destruct (Z.eqb_spec c 0); [done|]. by rewrite IH.
Qed.

Lemma cstr_id l : Forall (λ c, c ≠ 0) l → cstr l = l.
Proof. induction 1 as [|c l Hc _ IH]; [done|]. simpl. by rewrite (proj2 (Z.eqb_neq _ _) Hc), IH. Qed.

Lemma cstr_length l : (length (cstr l) ≤ length l)%nat.
Proof. induction l as [|c l IH]; simpl; [lia|]. destruct (c =? 0); simpl; lia. Qed.

Lemma cstr_nonzero l : Forall (λ c, c ≠ 0) (cstr l).
Proof.
  induction l as [|c l IH]; simpl; [constructor|].
  destruct (Z.eqb_spec c 0); [constructor|by constructor].
Qed.

Lemma cstr_Forall (P : Z → Prop) l : Forall P l → Forall P (cstr l).
Proof. induction 1 as [|c l Hc Hl IH]; simpl; [constructor|]. destruct (c =? 0); by constructor. Qed.

Lemma str_eqb_refl a : str_eqb a a = true.
Proof. unfold str_eqb. by apply bool_decide_eq_true_2. Qed.

Lemma memcmp_refl a : memcmp a a = 0.
Proof. induction a as [|x a IH]; simpl; [done|]. by rewrite Z.ltb_irrefl. Qed.

Lemma memcmp_eq a b : length a = length b → memcmp a b = 0 → a = b.
Proof.
  revert b. induction a as [|x a IH]; intros [|y b]; simpl; try done.
  intros [= Hl]. destruct (Z.ltb_spec x y), (Z.ltb_spec y x); try done.
  intros H'. rewrite (IH b) by done. f_equal. lia.
Qed.

Lemma memcmp_antisym a b : memcmp b a = - memcmp a b.
Proof.
  revert b. induction a as [|x a IH]; intros [|y b]; simpl; try done.
  destruct (Z.ltb_spec x y), (Z.ltb_spec y x); try lia; apply IH.
Qed.

(** The bit field of [width] bits keeps [v] when it fits. *)
Lemma bits_get_set w lo width v :
  0 ≤ lo → 0 ≤ width → bits_get (bits_set w lo width v) lo width = v mod 2 ^ width.
Proof.
  intros Hlo Hw. rewrite <-Z.land_ones by lia. unfold bits_get, bits_set.
  apply Z.bits_inj'. intros i Hi.
  rewrite !Z.land_spec, Z.shiftr_spec, Z.lor_spec, Z.ldiff_spec, !Z.shiftl_spec by lia.
  rewrite Z.add_simpl_r, Z.land_spec. rewrite (Z.testbit_ones width i) by lia.
  destruct (Z.leb_spec 0 i), (Z.ltb_spec i width); simpl; try lia; btauto.
Qed.

(** ** Big-endian fields

    What the byte-swapped stores leave in the buffer. *)

Definition be16 (v : Z) : list Z := [(v / 256) mod 256; v mod 256].
Definition be32 (v : Z) : list Z :=
  [(v / 2 ^ 24) mod 256; (v / 2 ^ 16) mod 256; (v / 2 ^ 8) mod 256; v mod 256].

Definition is_byte (b : Z) : Prop := 0 ≤ b < 256.

Lemma le16_be16 v : le16 (htons v) = be16 v.
Proof. apply le16_htons. Qed.

Lemma le32_be32 v : le32 (htonl v) = be32 v.
Proof. apply le32_htonl. Qed.

Lemma le16_mod v : le16 (v mod 2 ^ 16) = le16 v.
Proof. unfold le16. f_equal; [zdiv|]. f_equal. zdiv. Qed.

(** A 16-bit unit all of whose bit fields have been assigned holds no trace of
    what it held before. *)
Lemma testbit_u16_high w i : 0 ≤ w < 2 ^ 16 → 16 ≤ i → Z.testbit w i = false.
Proof.
  intros Hw Hi. rewrite <-(Z.mod_small w (2 ^ 16)) by lia. apply Z.mod_pow2_bits_high. lia.
Qed.

Ltac bits_cases :=
  repeat match goal with
  | |- context [?a <=? ?b] => destruct (Z.leb_spec a b)
  | |- context [?a <? ?b] => destruct (Z.ltb_spec a b)
  end; try lia.

Lemma bits_set_1_15 w v :
  0 ≤ w < 2 ^ 16 → bits_set (bits_set w 15 1 0) 0 15 v = v mod 2 ^ 15.
Proof.
  intros Hw. apply Z.bits_inj'. intros i Hi. unfold bits_set.
  rewrite !Z.shiftl_0_r, !Z.land_0_l, !Z.shiftl_0_l, !Z.lor_0_r, <-Z.land_ones by lia.
  rewrite Z.lor_spec, !Z.ldiff_spec, !Z.land_spec, !Z.shiftl_spec, !Z.testbit_ones by lia.
  destruct (decide (i < 16)); [|rewrite (testbit_u16_high w i) by lia];
    bits_cases; btauto.
Qed.

Lemma bits_set_1_1_14 w v :
  0 ≤ w < 2 ^ 16 → bits_set (bits_set (bits_set w 15 1 0) 14 1 0) 0 14 v = v mod 2 ^ 14.
Proof.
  intros Hw. apply Z.bits_inj'. intros i Hi. unfold bits_set.
  rewrite !Z.shiftl_0_r, !Z.land_0_l, !Z.shiftl_0_l, !Z.lor_0_r, <-Z.land_ones by lia.
  rewrite Z.lor_spec, !Z.ldiff_spec, !Z.land_spec, !Z.shiftl_spec, !Z.testbit_ones by lia.
  destruct (decide (i < 16)); [|rewrite (testbit_u16_high w i) by lia];
    bits_cases; btauto.
Qed.

(** The byte-swapped type survives the narrower bit field exactly when its low
    byte leaves the top bits of the unit free. *)
Lemma be16_type15 t : t mod 256 < 128 → le16 (htons t mod 2 ^ 15) = be16 t.
Proof.
  intros H. rewrite <-le16_be16, Z.mod_small; [done|].
  pose proof (Z.mod_pos_bound t 256). pose proof (Z.mod_pos_bound (t / 256) 256).
  unfold htons. lia.
Qed.

Lemma be16_type14 t : t mod 256 < 64 → le16 (htons t mod 2 ^ 14) = be16 t.
Proof.
  intros H. rewrite <-le16_be16, Z.mod_small; [done|].
  pose proof (Z.mod_pos_bound t 256). pose proof (Z.mod_pos_bound (t / 256) 256).
  unfold htons. lia.
Qed.

Lemma rd16_bytes a b : is_byte a → is_byte b → 0 ≤ a + b * 256 < 2 ^ 16.
Proof. unfold is_byte. lia. Qed.

Lemma le16_bytes a b : is_byte a → is_byte b → le16 (a + b * 256) = [a; b].
Proof. unfold is_byte, le16. intros. f_equal; [zdiv|]. f_equal. zdiv. Qed.

Lemma mod256_byte v : is_byte (v mod 256).
Proof. unfold is_byte. pose proof (Z.mod_pos_bound v 256). lia. Qed.

Lemma be16_byte v : Forall is_byte (be16 v).
Proof. repeat constructor; apply mod256_byte. Qed.

Lemma be32_byte v : Forall is_byte (be32 v).
Proof. repeat constructor; apply mod256_byte. Qed.

(** Reading a big-endian field back. *)
Lemma be16_read v : ntohs ((v / 256) mod 256 + v mod 256 * 256) = v mod 2 ^ 16.
Proof. unfold ntohs, htons. zdiv. Qed.

Lemma ntohl_bytes a b c d :
  is_byte a → is_byte b → is_byte c → is_byte d →
  ntohl (a + b * 256 + (c + d * 256) * 2 ^ 16) = a * 2 ^ 24 + b * 2 ^ 16 + c * 2 ^ 8 + d.
Proof.
  unfold is_byte, ntohl, htonl. intros.
  set (x := a + b * 256 + (c + d * 256) * 2 ^ 16).
  assert (x mod 256 = a) as -> by (unfold x; zdiv).
  assert ((x / 2 ^ 8) mod 256 = b) as -> by (unfold x; zdiv).
  assert ((x / 2 ^ 16) mod 256 = c) as -> by (unfold x; zdiv).
  assert ((x / 2 ^ 24) mod 256 = d) as -> by (unfold x; zdiv). lia.
Qed.

Lemma be32_read v :
  ntohl ((v / 2 ^ 24) mod 256 + (v / 2 ^ 16) mod 256 * 256
         + ((v / 2 ^ 8) mod 256 + v mod 256 * 256) * 2 ^ 16) = v mod 2 ^ 32.
Proof.
  rewrite ntohl_bytes by apply mod256_byte. clear.
  assert (v / 2 ^ 16 = v / 2 ^ 8 / 256) as -> by (rewrite Z.div_div by lia; done).
  assert (v / 2 ^ 24 = v / 2 ^ 8 / 256 / 256) as -> by (rewrite !Z.div_div by lia; done).
  zdiv.
Qed.

(** ** Stores in sequence *)

Lemma put_ok off bs buf :
  (off + length bs ≤ length buf)%nat →
  put off bs buf = Some (take off buf ++ bs ++ drop (off + length bs) buf).
Proof. intros H. unfold put. by rewrite leb_correct. Qed.

(** The last of two stores to the same place wins. *)
Lemma put_put off bs1 bs2 buf b1 :
  length bs1 = length bs2 → put off bs1 buf = Some b1 → put off bs2 b1 = put off bs2 buf.
Proof.
  intros Hl. unfold put. destruct (Nat.leb_spec (off + length bs1) (length buf)); [|done].
  intros [= <-]. rewrite !length_app, length_take, length_drop.
  rewrite !leb_correct by lia. f_equal.
  assert (length (take off buf) = off) as Ht by (rewrite length_take; lia).
  rewrite take_app_le, take_ge by lia. f_equal. f_equal.
  rewrite drop_app_ge, drop_app_ge by lia. rewrite drop_drop. f_equal. lia.
Qed.

Lemma rd16_put off w buf b1 :
  0 ≤ w < 2 ^ 16 → put off (le16 w) buf = Some b1 → rd16 off b1 = Some w.
Proof.
  intros Hw. unfold put. destruct (Nat.leb_spec (off + length (le16 w)) (length buf)) as [H|]; [|done].
  intros [= <-]. simpl in H. unfold rd16, rd8.
  assert (length (take off buf) = off) as Ht by (rewrite length_take; lia).
  rewrite !lookup_app_r by lia. rewrite Ht.
  replace (off - off)%nat with 0%nat by lia. replace (off + 1 - off)%nat with 1%nat by lia.
  simpl. f_equal. zdiv.
Qed.

Lemma rd16_ok off buf :
  (off + 2 ≤ length buf)%nat → Forall is_byte buf → ∃ w, rd16 off buf = Some w ∧ 0 ≤ w < 2 ^ 16.
Proof.
  intros Hl Hb. unfold rd16, rd8.
  destruct (lookup_lt_is_Some_2 buf off) as [a Ha]; [lia|].
  destruct (lookup_lt_is_Some_2 buf (off + 1)) as [b Hb']; [lia|].
  rewrite Ha, Hb'. simpl. eexists; split; [done|].
  rewrite Forall_lookup in Hb. apply rd16_bytes; eauto.
Qed.

Lemma bits_set_range w lo width v :
  0 ≤ w < 2 ^ 16 → 0 ≤ lo → 0 ≤ width → lo + width ≤ 16 → 0 ≤ bits_set w lo width v < 2 ^ 16.
Proof.
  intros Hw Hlo Hwd Hs.
  assert (bits_set w lo width v = bits_set w lo width v mod 2 ^ 16) as ->;
    [|by apply Z.mod_pos_bound].
  apply Z.bits_inj'. intros i Hi. destruct (decide (i < 16)).
  - by rewrite Z.mod_pow2_bits_low by lia.
  - rewrite Z.mod_pow2_bits_high by lia. unfold bits_set.
    rewrite Z.lor_spec, Z.ldiff_spec, !Z.shiftl_spec, Z.land_spec by lia.
    rewrite (testbit_u16_high w i), !Z.testbit_ones by lia. bits_cases; btauto.
Qed.

(** All bit fields of the first unit of [LDPHdr]. *)
Lemma stores_1_15 off v buf ss :
  (off + 2 ≤ length buf)%nat → Forall is_byte buf →
  apply_stores (WBits off 15 1 0 :: WBits off 0 15 v :: ss) buf
  = (b ← put off (le16 (v mod 2 ^ 15)) buf; apply_stores ss b).
Proof.
  intros Hl Hb. destruct (rd16_ok off buf Hl Hb) as (w & Hw & Hr).
  assert (0 ≤ bits_set w 15 1 0 < 2 ^ 16) by (apply bits_set_range; lia).
  cbn [apply_stores apply_store]. rewrite Hw. cbn [mbind option_bind].
  destruct (put off (le16 (bits_set w 15 1 0)) buf) as [b1|] eqn:E1.
  2:{ rewrite put_ok in E1 by (simpl; lia). done. }
  cbn [mbind option_bind]. rewrite (rd16_put _ _ _ _ H E1). cbn [mbind option_bind].
  by rewrite bits_set_1_15, (put_put off (le16 (bits_set w 15 1 0)) (le16 (v mod 2 ^ 15)) buf b1 eq_refl E1).
Qed.

(** All bit fields of the first unit of [ICCParameter]. *)
Lemma stores_1_1_14 off v buf ss :
  (off + 2 ≤ length buf)%nat → Forall is_byte buf →
  apply_stores (WBits off 15 1 0 :: WBits off 14 1 0 :: WBits off 0 14 v :: ss) buf
  = (b ← put off (le16 (v mod 2 ^ 14)) buf; apply_stores ss b).
Proof.
  intros Hl Hb. destruct (rd16_ok off buf Hl Hb) as (w & Hw & Hr).
  assert (0 ≤ bits_set w 15 1 0 < 2 ^ 16) as H1 by (apply bits_set_range; lia).
  assert (0 ≤ bits_set (bits_set w 15 1 0) 14 1 0 < 2 ^ 16) as H2 by (apply bits_set_range; lia).
  cbn [apply_stores apply_store]. rewrite Hw. cbn [mbind option_bind].
  destruct (put off (le16 (bits_set w 15 1 0)) buf) as [b1|] eqn:E1.
  2:{ rewrite put_ok in E1 by (simpl; lia). done. }
  cbn [mbind option_bind]. rewrite (rd16_put _ _ _ _ H1 E1). cbn [mbind option_bind].
  rewrite (put_put off (le16 (bits_set w 15 1 0)) (le16 (bits_set (bits_set w 15 1 0) 14 1 0)) buf b1 eq_refl E1).
  destruct (put off (le16 (bits_set (bits_set w 15 1 0) 14 1 0)) buf) as [b2|] eqn:E2.
  2:{ rewrite put_ok in E2 by (simpl; lia). done. }
  cbn [mbind option_bind]. rewrite (rd16_put _ _ _ _ H2 E2). cbn [mbind option_bind].
  by rewrite bits_set_1_1_14, (put_put off (le16 (bits_set (bits_set w 15 1 0) 14 1 0)) (le16 (v mod 2 ^ 14)) buf b2 eq_refl E2).
Qed.

Lemma replicate_bytes n : Forall is_byte (replicate n 0).
Proof. apply Forall_replicate. unfold is_byte. lia. Qed.

Lemma replicate_split n m : (n ≤ m)%nat → replicate m 0 = replicate n 0 ++ replicate (m - n) 0.
Proof. intros H. rewrite <-replicate_add. f_equal. lia. Qed.

(** Stores behind a header act on what follows it. *)
Definition store_off (s : store) : nat :=
  match s with
  | W8 off _ | W16 off _ | W32 off _ | WB off _ | WBits off _ _ _ | WSwap16 off => off
  end.

Definition shift_store (n : nat) (s : store) : store :=
  match s with
  | W8 off v => W8 (off - n) v
  | W16 off v => W16 (off - n) v
  | W32 off v => W32 (off - n) v
  | WB off bs => WB (off - n) bs
  | WBits off lo width v => WBits (off - n) lo width v
  | WSwap16 off => WSwap16 (off - n)
  end.

Lemma put_suffix off bs hdr buf :
  (length hdr ≤ off)%nat →
  put off bs (hdr ++ buf) = (λ b, hdr ++ b) <$> put (off - length hdr) bs buf.
Proof.
  intros H. unfold put. rewrite length_app.
  destruct (Nat.leb_spec (off + length bs) (length hdr + length buf)),
    (Nat.leb_spec (off - length hdr + length bs) (length buf)); try lia; [|done].
  simpl. f_equal. rewrite take_app_ge, drop_app_ge by lia.
  rewrite <-app_assoc. do 4 f_equal. lia.
Qed.

Lemma rd8_suffix off hdr buf :
  (length hdr ≤ off)%nat → rd8 off (hdr ++ buf) = rd8 (off - length hdr) buf.
Proof. intros H. unfold rd8. by rewrite lookup_app_r. Qed.

Lemma rd16_suffix off hdr buf :
  (length hdr ≤ off)%nat → rd16 off (hdr ++ buf) = rd16 (off - length hdr) buf.
Proof.
  intros H. unfold rd16. rewrite !rd8_suffix by lia.
  by replace (off + 1 - length hdr)%nat with (off - length hdr + 1)%nat by lia.
Qed.

Lemma rd32_suffix off hdr buf :
  (length hdr ≤ off)%nat → rd32 off (hdr ++ buf) = rd32 (off - length hdr) buf.
Proof.
  intros H. unfold rd32. rewrite !rd16_suffix by lia.
  by replace (off + 2 - length hdr)%nat with (off - length hdr + 2)%nat by lia.
Qed.

Lemma apply_store_suffix s hdr buf :
  (length hdr ≤ store_off s)%nat →
  apply_store s (hdr ++ buf) = (λ b, hdr ++ b) <$> apply_store (shift_store (length hdr) s) buf.
Proof.
  intros H. destruct s; simpl in *; try by apply put_suffix.
  all: rewrite rd16_suffix by done.
  all: destruct (rd16 _ buf); simpl; [by apply put_suffix|done].
Qed.

Lemma apply_stores_suffix ss hdr buf :
  Forall (λ s, length hdr ≤ store_off s)%nat ss →
  apply_stores ss (hdr ++ buf)
  = (λ b, hdr ++ b) <$> apply_stores (shift_store (length hdr) <$> ss) buf.
Proof.
  intros H. revert buf. induction H as [|s ss Hs Hss IH]; intros buf; simpl; [done|].
  rewrite apply_store_suffix by done.
  destruct (apply_store _ buf) as [b|]; simpl; [apply IH|done].
Qed.

(** Reading fields that lie behind a known prefix. *)
Lemma rd16_le_at pre v rest off :
  length pre = off → 0 ≤ v < 2 ^ 16 → rd16 off (pre ++ le16 v ++ rest) = Some v.
Proof.
  intros <- Hv. rewrite rd16_suffix, Nat.sub_diag by lia. unfold rd16, rd8. simpl. f_equal. zdiv.
Qed.

Lemma rd16_be_at pre v rest off :
  length pre = off → rd16 off (pre ++ be16 v ++ rest) = Some (htons v).
Proof.
  intros <-. rewrite rd16_suffix, Nat.sub_diag by lia. unfold rd16, rd8, htons. simpl. f_equal. lia.
Qed.

Lemma rd32_be_at pre v rest off :
  length pre = off → rd32 off (pre ++ be32 v ++ rest) = Some (htonl v).
Proof.
  intros <-. rewrite rd32_suffix, Nat.sub_diag by lia.
  unfold rd32, rd16, rd8, htonl, be32. simpl. f_equal. lia.
Qed.

Lemma rd8_at pre v rest off : length pre = off → rd8 off (pre ++ v :: rest) = Some v.
Proof. intros <-. unfold rd8. by rewrite list_lookup_middle. Qed.

(** The in-place conversion of a unit to host order. *)
Lemma swap16_at pre v rest off :
  length pre = off → 0 ≤ v < 2 ^ 16 →
  apply_store (WSwap16 off) (pre ++ be16 v ++ rest) = Some (pre ++ le16 v ++ rest).
Proof.
  intros Hp Hv. cbn [apply_store]. rewrite (rd16_be_at pre v rest off Hp). cbn [mbind option_bind].
  change (htons (htons v)) with (ntohs (htons v)). rewrite htons_swap by done.
  rewrite put_suffix, <-Hp, Nat.sub_diag by lia. done.
Qed.

Lemma ntohl_htonl v : 0 ≤ v < 2 ^ 32 → ntohl (htonl v) = v.
Proof.
  intros Hv. rewrite <-(Z.mod_small v (2 ^ 32)) at 2 by done. rewrite <-be32_read.
  f_equal. unfold htonl. lia.
Qed.

Lemma bits_get_0 w width : 0 ≤ width → bits_get w 0 width = w mod 2 ^ width.
Proof. intros H. unfold bits_get. by rewrite Z.shiftr_0_r, Z.land_ones. Qed.

(** ** Automation *)

Lemma be16_form v : ∃ a b, be16 v = [a; b] ∧ le16 (htons v) = [a; b].
Proof. rewrite le16_be16. by eexists _, _. Qed.

Lemma be32_form v : ∃ a b c d, be32 v = [a; b; c; d] ∧ le32 (htonl v) = [a; b; c; d].
Proof. rewrite le32_be32. by eexists _, _, _, _. Qed.

(** Replace the big-endian fields of the goal by variables: what a sequence of
    stores leaves in a buffer does not depend on the values stored. *)
Ltac be_vars :=
  repeat match goal with
  | |- context [le16 (htons ?v)] => rewrite (le16_be16 v)
  | |- context [le32 (htonl ?v)] => rewrite (le32_be32 v)
  end;
  repeat match goal with
  | |- context [be16 ?v] =>
      let H := fresh in destruct (be16_form v) as (? & ? & H & _); rewrite ?H; clear H
  | |- context [be32 ?v] =>
      let H := fresh in destruct (be32_form v) as (? & ? & ? & ? & H & _); rewrite ?H; clear H
  end.

Create HintDb bytes.
#[export] Hint Resolve replicate_bytes be16_byte be32_byte mod256_byte : bytes.
#[export] Hint Resolve Forall_app_2 Forall_drop : bytes.

(** Side conditions on lengths and byte ranges. *)
Ltac mem_side :=
  solve [ done
        | rewrite ?length_app, ?length_drop, ?length_replicate; simpl; lia
        | auto 8 with bytes ].

(** A store that replaces one segment of the buffer. *)
Lemma put_at pre old bs post off :
  length pre = off → length old = length bs → put off bs (pre ++ old ++ post) = Some (pre ++ bs ++ post).
Proof.
  intros <- Hl. rewrite put_suffix, Nat.sub_diag by lia.
  rewrite put_ok by (rewrite length_app; lia). simpl. by rewrite drop_app_length' by lia.
Qed.

Lemma rd_bytes_at pre bs post off n :
  length pre = off → length bs = n → rd_bytes off n (pre ++ bs ++ post) = Some bs.
Proof.
  intros <- <-. unfold rd_bytes. rewrite (proj2 (Nat.leb_le _ _)) by (rewrite !length_app; lia).
  by rewrite drop_app_length, take_app_length.
Qed.

Lemma rd32_at_bytes pre bs post off :
  length pre = off → length bs = 4%nat → Forall is_byte bs →
  ∃ v, rd32 off (pre ++ bs ++ post) = Some v ∧ le32 v = bs.
Proof.
  intros Hl Hb Hby. do 4 (destruct bs as [|? bs]; [discriminate Hb|]). destruct bs; [|discriminate Hb].
  repeat (apply Forall_cons in Hby as [? Hby]). unfold is_byte in *.
  unfold rd32, rd16, rd8. cbn [app].
  rewrite !lookup_app_r by lia. rewrite Hl.
  rewrite Nat.sub_diag. replace (off + 1 - off)%nat with 1%nat by lia.
  replace (off + 2 - off)%nat with 2%nat by lia. replace (off + 2 + 1 - off)%nat with 3%nat by lia.
  simpl. eexists. split; [reflexivity|]. unfold le32. repeat f_equal; zdiv.
Qed.
