(* ===== verification/CString.v ===== *)
(** * C strings: formatting and parsing

    The conversions of [stdio.h], [stdlib.h] and [arpa/inet.h] that the daemon
    uses on interface names, commands and addresses.  A string is the list of its
    character codes. *)

From S2P Require Import Prelude CMem.
From stdpp Require Export strings.
From Stdlib Require Import Ascii.
#[local] Open Scope Z_scope.

(** A string literal. *)
Fixpoint str (s : string) : list Z :=
  match s with
  | EmptyString => []
  | String c s' => Z.of_N (N_of_ascii c) :: str s'
  end.

(** ** Printing *)

(** The decimal digits of [n], before [acc]; [fuel] bounds their number. *)
Fixpoint digits (fuel : nat) (n : Z) (acc : list Z) : list Z :=
  match fuel with
  | O => acc
  | S f => let acc := (48 + n mod 10) :: acc in
           if n / 10 =? 0 then acc else digits f (n / 10) acc
  end.

(** [%d]: an [int] has at most ten digits. *)
Definition fmt_d (n : Z) : list Z :=
  if n <? 0 then 45 :: digits 10 (- n) [] else digits 10 n [].

Definition hex_digit (d : Z) : Z := if d <? 10 then 48 + d else 87 + d.

(** [%02x] of a byte *)
Definition fmt_02x (b : Z) : list Z := [hex_digit (b / 16); hex_digit (b mod 16)].

(** [%02x:%02x:%02x:%02x:%02x:%02x], the macro [SET_MAC_STR] *)
Fixpoint fmt_mac (mac : list Z) : list Z :=
  match mac with
  | [] => []
  | [b] => fmt_02x b
  | b :: mac' => fmt_02x b ++ 58 :: fmt_mac mac'
  end.

(** [snprintf(dst, n, "%s", src)] into an array of [n] bytes that was cleared. *)
Definition snprintf_s (n : nat) (src : list Z) : list Z :=
  let s := take (n - 1) (cstr src) in s ++ replicate (n - length s) 0.

(** ** Parsing *)

Definition is_digit (c : Z) : bool := (48 <=? c) && (c <=? 57).
Definition is_space (c : Z) : bool := (c =? 32) || ((9 <=? c) && (c <=? 13)).

Fixpoint scan_digits (acc : Z) (l : list Z) : Z * list Z :=
  match l with
  | c :: l' => if is_digit c then scan_digits (acc * 10 + (c - 48)) l' else (acc, l)
  | [] => (acc, [])
  end.

Fixpoint skip_space (l : list Z) : list Z :=
  match l with
  | c :: l' => if is_space c then skip_space l' else l
  | [] => []
  end.

(** The conversion of a [long] to an [int]. *)
Definition to_int (n : Z) : Z := (n + 2 ^ 31) mod 2 ^ 32 - 2 ^ 31.

(** [%d]: white space, an optional sign, at least one digit. *)
Definition scan_d (l : list Z) : option Z :=
  let l := skip_space l in
  let '(neg, l) := match l with
                   | c :: l' => if c =? 45 then (true, l') else if c =? 43 then (false, l') else (false, l)
                   | [] => (false, [])
                   end in
  match l with
  | c :: _ => if is_digit c
              then let n := fst (scan_digits 0 l) in Some (to_int (if neg then - n else n))
              else None
  | [] => None
  end.

Fixpoint strip_prefix (p l : list Z) : option (list Z) :=
  match p, l with
  | [], _ => Some l
  | x :: p', y :: l' => if x =? y then strip_prefix p' l' else None
  | _ :: _, [] => None
  end.

(** [int v = 0; sscanf(name, "Vlan%d", &v);]: [0] remains when nothing matches. *)
Definition sscanf_d (prefix : string) (name : list Z) : Z :=
  default 0 (strip_prefix (str prefix) (cstr name) ≫= scan_d).

(** [atoi] *)
Definition atoi (l : list Z) : Z := default 0 (scan_d (cstr l)).

(** [strncmp(l, p, strlen(p)) == 0] *)
Definition has_prefix (p : string) (l : list Z) : bool := bool_decide (is_Some (strip_prefix (str p) (cstr l))).

(** [strtok_r] with the delimiter [","]: the non-empty fields, in order. *)
Fixpoint split_comma (cur l : list Z) : list (list Z) :=
  match l with
  | [] => match cur with [] => [] | _ => [rev cur] end
  | c :: l' => if c =? 44
               then match cur with [] => split_comma [] l' | _ => rev cur :: split_comma [] l' end
               else split_comma (c :: cur) l'
  end.
Definition strtok_comma (l : list Z) : list (list Z) := split_comma [] (cstr l).

(** [inet_addr]: up to four numbers separated by dots, in decimal, octal ([0])
    or hexadecimal ([0x]); the last one fills the remaining bytes.  The result
    is in network order; [INADDR_NONE] for anything else. *)
Definition INADDR_NONE : Z := 0xffffffff.

Definition digit_val (c : Z) : option Z :=
  if (48 <=? c) && (c <=? 57) then Some (c - 48)
  else if (97 <=? c) && (c <=? 102) then Some (c - 87)
  else if (65 <=? c) && (c <=? 70) then Some (c - 55)
  else None.

Fixpoint scan_base (base acc : Z) (l : list Z) : Z * list Z :=
  match l with
  | c :: l' => match digit_val c with
               | Some d => if d <? base then scan_base base (acc * base + d) l' else (acc, l)
               | None => (acc, l)
               end
  | [] => (acc, [])
  end.

Definition scan_part (l : list Z) : option (Z * list Z) :=
  match l with
  | 48 :: x :: d :: l' =>
      if ((x =? 120) || (x =? 88)) && bool_decide (is_Some (digit_val d))
      then Some (scan_base 16 0 (d :: l')) else Some (scan_base 8 0 l)
  | 48 :: _ => Some (scan_base 8 0 l)
  | c :: _ => if is_digit c then Some (scan_base 10 0 l) else None
  | [] => None
  end.

(** The number of [inet_addr] in host order: [n] parts may still follow. *)
Fixpoint inet_parts (n : nat) (acc : Z) (l : list Z) : option Z :=
  '(v, r) ← scan_part l;
  let rest := 2 ^ (8 * Z.of_nat (S n)) in
  match r with
  | 46 :: r' => match n with
                | O => None
                | S n' => if v <? 256 then inet_parts n' (acc * 256 + v) r' else None
                end
  | [] => if v <? rest then Some (acc * rest + v) else None
  | c :: _ => if is_space c then if v <? rest then Some (acc * rest + v) else None else None
  end.

Definition inet_addr (s : list Z) : Z :=
  match inet_parts 3 0 (cstr s) with
  | Some v => htonl v
  | None => INADDR_NONE
  end.

(** ** Lemmas *)

(** The digits printed for [n] read back as [n]. *)
Lemma digits_spec fuel n acc :
  0 ≤ n < 10 ^ Z.of_nat fuel → (0 < fuel)%nat →
  ∃ l, digits fuel n acc = l ++ acc ∧ l ≠ [] ∧ Forall (λ c, is_digit c = true) l
    ∧ ∀ a rest, scan_digits a (l ++ rest) = scan_digits (a * 10 ^ Z.of_nat (length l) + n) rest.
Proof.
  revert n acc. induction fuel as [|f IH]; intros n acc Hn Hf; [lia|].
  assert (0 ≤ n mod 10 < 10) as Hd by (apply Z.mod_pos_bound; lia).
  assert (is_digit (48 + n mod 10) = true) as Hdig
    by (unfold is_digit; rewrite !(proj2 (Z.leb_le _ _)) by lia; done).
  simpl. destruct (Z.eqb_spec (n / 10) 0) as [E|E].
  - exists [48 + n mod 10]. split_and!; [done|done|by repeat constructor|].
    intros a rest. simpl. rewrite Hdig. f_equal.
    rewrite (Z.div_mod n 10) at 2 by done. rewrite E. lia.
  - rewrite Nat2Z.inj_succ, Z.pow_succ_r in Hn by lia.
    destruct (IH (n / 10) (48 + n mod 10 :: acc)) as (l & -> & Hl & Hdl & Hs).
    + split; [apply Z.div_pos; lia|apply Z.div_lt_upper_bound; lia].
    + destruct f; [|lia]. simpl in Hn. rewrite Z.div_small in E by lia. done.
    + exists (l ++ [48 + n mod 10]). split_and!.
      * by rewrite <-app_assoc.
      * by destruct l.
      * apply Forall_app_2; [done|by repeat constructor].
      * intros a rest. rewrite <-app_assoc, Hs. simpl. rewrite Hdig. f_equal.
        rewrite length_app, Nat2Z.inj_add, Z.pow_add_r by lia. simpl (Z.of_nat (length [_])).
        rewrite (Z.div_mod n 10) at 3 by done. rewrite Z.pow_1_r. lia.
Qed.

Lemma is_digit_range c : is_digit c = true → 48 ≤ c ≤ 57.
Proof. unfold is_digit. rewrite andb_true_iff, !Z.leb_le. done. Qed.

Lemma to_int_small n : - 2 ^ 31 ≤ n < 2 ^ 31 → to_int n = n.
Proof. intros. unfold to_int. rewrite Z.mod_small; lia. Qed.

(** [%d] reads back what [%d] printed. *)
Lemma scan_d_fmt_d n rest :
  0 ≤ n < 2 ^ 31 → (match rest with c :: _ => is_digit c = false | [] => True end) →
  scan_d (fmt_d n ++ rest) = Some n.
Proof.
  intros Hn Hrest. unfold fmt_d. rewrite (proj2 (Z.ltb_ge _ _)) by lia.
  destruct (digits_spec 10 n []) as (l & -> & Hl & Hd & Hs); [lia|lia|]. rewrite app_nil_r.
  destruct l as [|c l]; [done|]. pose proof (Forall_inv Hd) as Hc. apply is_digit_range in Hc as Hc'.
  unfold scan_d. simpl skip_space.
  assert (is_space c = false) as ->.
  { unfold is_space. rewrite !orb_false_iff, Z.eqb_neq, andb_false_iff, !Z.leb_gt. lia. }
  rewrite !(proj2 (Z.eqb_neq _ _)) by lia. rewrite Hc.
  change (c :: l ++ rest) with ((c :: l) ++ rest). rewrite Hs.
  assert (∀ a, scan_digits a rest = (a, rest)) as Hr.
  { intros a. destruct rest as [|c' rest]; [done|]. simpl. by rewrite Hrest. }
  rewrite Hr. simpl. by rewrite to_int_small by lia.
Qed.

Lemma strip_prefix_app p l : strip_prefix p (p ++ l) = Some l.
Proof. induction p as [|x p IH]; simpl; [done|]. by rewrite Z.eqb_refl. Qed.

Lemma fmt_d_nonzero n : Forall (λ c, c ≠ 0) (fmt_d n).
Proof.
  assert (∀ f m acc, Forall (λ c, c ≠ 0) acc → Forall (λ c, c ≠ 0) (digits f m acc)) as H.
  { induction f as [|f IH]; intros m acc Ha; simpl; [done|].
    assert (48 + m mod 10 ≠ 0) by (pose proof (Z.mod_pos_bound m 10); lia).
    destruct (m / 10 =? 0); [|apply IH]; by constructor. }
  unfold fmt_d. destruct (n <? 0); [constructor; [done|]|]; by apply H.
Qed.

Lemma str_nonzero_vlan : Forall (λ c, c ≠ 0) (str "Vlan").
Proof. by repeat constructor. Qed.

(** [sscanf(name, "Vlan%d", ..)] inverts [sprintf(name, "Vlan%d", ..)]. *)
Lemma vlan_name_scan v tail :
  0 ≤ v < 2 ^ 31 → sscanf_d "Vlan" (str "Vlan" ++ fmt_d v ++ 0 :: tail) = v.
Proof.
  intros Hv. unfold sscanf_d. rewrite app_assoc.
  rewrite cstr_app_nul by (apply Forall_app_2; [apply str_nonzero_vlan|apply fmt_d_nonzero]).
  rewrite strip_prefix_app. simpl. rewrite <-(app_nil_r (fmt_d v)), scan_d_fmt_d by done. done.
Qed.
