(* ===== verification/MsgFormat.v ===== *)
(** * The ICCP message format ([include/msg_format.h], [include/mlacp_tlv.h])

    Message and TLV types, status codes, and the layout of every structure that
    travels between the two peers.  A structure is the list of its members; the
    offsets and sizes are computed by the C layout rule, packed or aligned. *)

From S2P Require Import Prelude CMem.
From stdpp Require Export strings.
#[local] Open Scope Z_scope.

(** ** Structure layout *)

Record member : Type := Member { m_name : string; m_size : nat; m_align : nat }.
Record struct : Type := Struct { s_packed : bool; s_members : list member }.

Definition align_up (off align : nat) : nat := ((off + (align - 1)) / align * align)%nat.

Definition member_align (packed : bool) (m : member) : nat :=
  if packed then 1%nat else m_align m.

Fixpoint offset_in (packed : bool) (ms : list member) (off : nat) (name : string) : nat :=
  match ms with
  | [] => off
  | m :: ms' =>
      let o := align_up off (member_align packed m) in
      if String.eqb (m_name m) name then o else offset_in packed ms' (o + m_size m)%nat name
  end.

Definition alignof (s : struct) : nat :=
  foldr (λ m a, Nat.max (member_align (s_packed s) m) a) 1%nat (s_members s).

Fixpoint end_of (packed : bool) (ms : list member) (off : nat) : nat :=
  match ms with
  | [] => off
  | m :: ms' => end_of packed ms' (align_up off (member_align packed m) + m_size m)%nat
  end.

(** [offsetof(s, name)] and [sizeof(s)] *)
Definition offsetof (s : struct) (name : string) : nat := offset_in (s_packed s) (s_members s) 0 name.
Definition sizeof (s : struct) : nat := align_up (end_of (s_packed s) (s_members s) 0) (alignof s).

Definition uint8 (n : string) : member := Member n 1 1.
Definition uint16 (n : string) : member := Member n 2 2.
Definition uint32 (n : string) : member := Member n 4 4.
Definition bytes (n : string) (k : nat) : member := Member n k 1.
Definition words (n : string) (k : nat) : member := Member n (4 * k) 4.
Definition nested (n : string) (s : struct) : member := Member n (sizeof s) (alignof s).

(** ** Constants *)

Definition ETHER_ADDR_LEN : nat := 6.
Definition MAX_L_PORT_NAME : nat := 20.
Definition MAX_MSG_LOG_SIZE : nat := 128.
Definition CSM_BUFFER_SIZE : nat := Z.to_nat 65536.
Definition MCLAG_ERROR : Z := -1.
Definition MCLAG_ERROR_INVALID_TLV : Z := -2.

Definition MSG_T_CAPABILITY : Z := 0x0202.
Definition MSG_L_INCLUD_U_BIT_MSG_T_L_FIELDS : Z := 4.
Definition MSG_T_RG_CONNECT : Z := 0x0700.
Definition MSG_T_RG_DISCONNECT : Z := 0x0701.
Definition MSG_T_NOTIFICATION : Z := 0x0702.
Definition MSG_T_RG_APP_DATA : Z := 0x0703.

Definition TLV_T_ICCP_CAPABILITY : Z := 0x0700.
Definition TLV_L_ICCP_CAPABILITY : Z := 0x4.
Definition TLV_T_ICC_SENDER_NAME : Z := 0x0001.
Definition MAX_L_ICC_SENDER_NAME : nat := 80.
Definition TLV_T_NAK : Z := 0x0002.
Definition TLV_T_REQUESTED_PROTOCOL_VER : Z := 0x0003.
Definition TLV_T_DISCONNECT_CODE : Z := 0x0004.
Definition TLV_L_DISCONNECT_CODE : Z := 0x4.
Definition TLV_T_ICC_RG_ID : Z := 0x0005.
Definition TLV_L_ICC_RG_ID : Z := 0x4.

Definition TLV_T_MLACP_CONNECT : Z := 0x0030.
Definition TLV_T_MLACP_DISCONNECT : Z := 0x0031.
Definition TLV_T_MLACP_SYSTEM_CONFIG : Z := 0x0032.
Definition TLV_T_MLACP_PORT_CONFIG : Z := 0x0033.
Definition TLV_T_MLACP_PORT_PRIORITY : Z := 0x0034.
Definition TLV_T_MLACP_PORT_STATE : Z := 0x0035.
Definition TLV_T_MLACP_AGGREGATOR_CONFIG : Z := 0x0036.
Definition TLV_T_MLACP_AGGREGATOR_STATE : Z := 0x0037.
Definition TLV_T_MLACP_SYNC_REQUEST : Z := 0x0038.
Definition TLV_T_MLACP_SYNC_DATA : Z := 0x0039.
Definition TLV_T_MLACP_HEARTBEAT : Z := 0x003A.
Definition TLV_T_MLACP_DISCONNECT_CAUSE : Z := 0x003B.
Definition TLV_T_MLACP_ORPHAN_PORT : Z := 0x1033.
Definition TLV_T_MLACP_PORT_CHANNEL_INFO : Z := 0x1034.
Definition TLV_T_MLACP_PEERLINK_INFO : Z := 0x1035.
Definition TLV_T_MLACP_ARP_INFO : Z := 0x1036.
Definition TLV_T_MLACP_STP_INFO : Z := 0x1037.
Definition TLV_T_MLACP_MAC_INFO : Z := 0x1038.
Definition TLV_T_MLACP_WARMBOOT_FLAG : Z := 0x1039.
Definition TLV_T_MLACP_NDISC_INFO : Z := 0x103A.
Definition TLV_T_MLACP_IF_UP_ACK : Z := 0x103B.
Definition TLV_T_MLACP_LIST_END : Z := 0x104a.

Definition STATUS_CODE_U_ICCP_RG : Z := 0x00010001.
Definition STATUS_CODE_ICCP_CONNECTION_COUNT_EXCEEDED : Z := 0x00010002.
Definition STATUS_CODE_ICCP_APP_CONNECTION_COUNT_EXCEEDED : Z := 0x00010003.
Definition STATUS_CODE_ICCP_APP_NOT_IN_RG : Z := 0x00010004.
Definition STATUS_CODE_INCOMPATIBLE_ICCP_PROTOCOL_VER : Z := 0x00010005.
Definition STATUS_CODE_ICCP_REJECTED_MSG : Z := 0x00010006.
Definition STATUS_CODE_ICCP_ADMINISTRATIVELY_DISABLED : Z := 0x00010007.
Definition STATUS_CODE_ICCP_RG_REMOVED : Z := 0x00010010.
Definition STATUS_CODE_ICCP_APP_REMOVED_FROM_RG : Z := 0x00010011.

(** Interface types and port states ([include/port.h]). *)
Definition PORT_STATE_UP : Z := 0x00.
Definition PORT_STATE_DOWN : Z := 0x01.
Definition IF_T_UNKNOW : Z := -1.
Definition IF_T_PORT : Z := 0.
Definition IF_T_PORT_CHANNEL : Z := 1.
Definition IF_T_VLAN : Z := 2.
Definition IF_T_VXLAN : Z := 3.
Definition IF_T_BRIDGE : Z := 4.

(** Operation and age flags of the MAC and neighbour entries
    ([include/mlacp_tlv.h]). *)
Definition NEIGH_LOCAL : Z := 1.
Definition NEIGH_REMOTE : Z := 2.
Definition NEIGH_SYNC_LIF : Z := 0.
Definition NEIGH_SYNC_ADD : Z := 1.
Definition NEIGH_SYNC_DEL : Z := 2.
Definition NEIGH_SYNC_FLAG_ACK : Z := 1.
Definition NEIGH_SYNC_FLAG_SELF_LL : Z := 2.
Definition NEIGH_SYNC_FLAG_SELF_IP : Z := 4.
Definition MAC_AGE_LOCAL : Z := 1.
Definition MAC_AGE_PEER : Z := 2.
Definition MAC_SYNC_ADD : Z := 1.
Definition MAC_SYNC_DEL : Z := 2.
Definition MAC_TYPE_STATIC : Z := 1.
Definition MAC_SYNC_ACK : Z := 4.
Definition MAC_TYPE_DYNAMIC : Z := 2.
Definition MAC_TYPE_DYNAMIC_LOCAL : Z := 3.
Definition PORT_ISOLATION_STATE_ENABLE : Z := 1.
Definition IF_UP_ACK_TYPE_PHY_PORT : Z := 0.
Definition IF_UP_ACK_TYPE_PORT_CHANNEL : Z := 1.

(** ** Headers and TLVs *)

(** The bit fields of the first 16-bit unit: [u_bit:1, msg_type:15]. *)
Definition LDPHdr : struct := Struct true
  [uint16 "u_bit/msg_type"; uint16 "msg_len"; uint32 "msg_id"].
Definition ICCRGIDTLV : struct := Struct true
  [uint16 "type"; uint16 "len"; uint32 "icc_rg_id"].
Definition ICCHdr : struct := Struct true
  [nested "ldp_hdr" LDPHdr; nested "icc_rg_id_tlv" ICCRGIDTLV].
(** The first unit holds [u_bit:1, f_bit:1, type:14]. *)
Definition ICCParameter : struct := Struct true
  [uint16 "u_bit/f_bit/type"; uint16 "len"].
Definition ICCSenderNameTLV : struct := Struct true
  [nested "icc_parameter" ICCParameter; bytes "sender_name" MAX_L_ICC_SENDER_NAME].
Definition DisconnectCodeTLV : struct := Struct true
  [nested "icc_parameter" ICCParameter; uint32 "iccp_status_code"].
Definition NAKTLV : struct := Struct true
  [nested "icc_parameter" ICCParameter; uint32 "iccp_status_code"; uint32 "rejected_msg_id"].
(** The second unit holds [s_bit:1, reserved:15]. *)
Definition LDPICCPCapabilityTLV : struct := Struct true
  [nested "icc_parameter" ICCParameter; uint16 "s_bit/reserved"; uint8 "major_ver"; uint8 "minior_ver"].

Definition mLACPSysConfigTLV : struct := Struct true
  [nested "icc_parameter" ICCParameter; bytes "sys_id" ETHER_ADDR_LEN;
   uint16 "sys_priority"; uint8 "node_id"].
Definition mLACPAggConfigTLV : struct := Struct true
  [nested "icc_parameter" ICCParameter; bytes "ro_id" 8; uint16 "agg_id";
   bytes "mac_addr" ETHER_ADDR_LEN; uint16 "actor_key"; uint16 "member_ports_priority";
   uint8 "flags"; uint8 "agg_name_len"; bytes "agg_name" MAX_L_PORT_NAME].
Definition mLACPAggPortStateTLV : struct := Struct true
  [nested "icc_parameter" ICCParameter; bytes "partner_sys_id" ETHER_ADDR_LEN;
   uint16 "partner_sys_priority"; uint16 "partner_key"; uint16 "agg_id";
   uint16 "actor_key"; uint8 "agg_state"].
(** The third unit holds [c_bit:1, s_bit:1, req_type:14]. *)
Definition mLACPSyncReqTLV : struct := Struct true
  [nested "icc_parameter" ICCParameter; uint16 "req_num"; uint16 "c_bit/s_bit/req_type";
   uint16 "port_num_agg_id"; uint16 "actor_key"].
Definition mLACPSyncDataTLV : struct := Struct true
  [nested "icc_parameter" ICCParameter; uint16 "req_num"; uint16 "flags"].
Definition mLACPVLANData : struct := Struct true [uint16 "vlan_id"].
Definition mLACPPortChannelInfoTLV : struct := Struct true
  [nested "icc_parameter" ICCParameter; uint16 "agg_id"; bytes "if_name" MAX_L_PORT_NAME;
   uint8 "if_name_len"; uint8 "l3_mode"; uint32 "ipv4_addr"; uint16 "po_id";
   uint16 "num_of_vlan_id"].
Definition mLACPPeerLinkInfoTLV : struct := Struct true
  [nested "icc_parameter" ICCParameter; bytes "if_name" MAX_L_PORT_NAME; uint8 "port_type"].
Definition mLACPMACData : struct := Struct true
  [uint8 "type"; uint8 "mac_type"; bytes "mac_addr" ETHER_ADDR_LEN; uint16 "vid";
   bytes "ifname" MAX_L_PORT_NAME].
Definition mLACPMACInfoTLV : struct := Struct true
  [nested "icc_parameter" ICCParameter; uint16 "num_of_entry"].
(** [ARPMsg] and [NDISCMsg] are not packed. *)
Definition ARPMsg : struct := Struct false
  [uint8 "op_type"; uint8 "flag"; uint8 "learn_flag"; bytes "ifname" MAX_L_PORT_NAME;
   uint32 "ipv4_addr"; bytes "mac_addr" ETHER_ADDR_LEN].
Definition NDISCMsg : struct := Struct false
  [uint8 "op_type"; uint8 "flag"; uint8 "learn_flag"; bytes "ifname" MAX_L_PORT_NAME;
   words "ipv6_addr" 4; bytes "mac_addr" ETHER_ADDR_LEN].
Definition mLACPARPInfoTLV : struct := Struct true
  [nested "icc_parameter" ICCParameter; uint16 "num_of_entry"].
Definition mLACPNDISCInfoTLV : struct := Struct true
  [nested "icc_parameter" ICCParameter; uint16 "num_of_entry"].
Definition mLACPHeartbeatTLV : struct := Struct true
  [nested "icc_parameter" ICCParameter; uint8 "heartbeat"].
Definition mLACPWarmbootTLV : struct := Struct true
  [nested "icc_parameter" ICCParameter; uint8 "warmboot"].
Definition mLACPIfUpAckTLV : struct := Struct true
  [nested "icc_parameter" ICCParameter; uint8 "if_type"; uint8 "port_isolation_state"; uint16 "if_id"].

(** The offset of a TLV, which follows the ICC header, and of its members. *)
Definition tlv_off (s : struct) (name : string) : nat := (sizeof ICCHdr + offsetof s name)%nat.

(** Closed offsets and sizes are evaluated before anything else looks at them. *)
Ltac nat_literal n := lazymatch n with O => idtac | S ?m => nat_literal m end.
Ltac eval_closed t := let v := eval vm_compute in t in progress change t with v.

Ltac eval_layout :=
  repeat match goal with
  | |- context [sizeof ?s] => eval_closed (sizeof s)
  | |- context [offsetof ?s ?n] => eval_closed (offsetof s n)
  | |- context [tlv_off ?s ?n] => eval_closed (tlv_off s n)
  end;
  repeat match goal with
  | |- context [(?a + ?b)%nat] => nat_literal a; nat_literal b; eval_closed (a + b)%nat
  | |- context [(?a - ?b)%nat] => nat_literal a; nat_literal b; eval_closed (a - b)%nat
  | |- context [Z.of_nat ?n] => nat_literal n; eval_closed (Z.of_nat n)
  | |- context [Z.sub (Zpos ?a) (Zpos ?b)] => eval_closed (Z.sub (Zpos a) (Zpos b))
  end.

(** ** Diagnostics *)

(** [get_tlv_type_string] *)
Definition get_tlv_type_string (type : Z) : string :=
  if type =? TLV_T_ICCP_CAPABILITY then "TLV_T_ICCP_CAPABILITY"
  else if type =? TLV_T_ICC_SENDER_NAME then "TLV_T_ICC_SENDER_NAME"
  else if type =? TLV_T_NAK then "TLV_T_NAK"
  else if type =? TLV_T_REQUESTED_PROTOCOL_VER then "TLV_T_REQUESTED_PROTOCOL_VER"
  else if type =? TLV_T_DISCONNECT_CODE then "TLV_T_DISCONNECT_CODE"
  else if type =? TLV_T_ICC_RG_ID then "TLV_T_ICC_RG_ID"
  else if type =? TLV_T_MLACP_CONNECT then "TLV_T_MLACP_CONNECT"
  else if type =? TLV_T_MLACP_DISCONNECT then "TLV_T_MLACP_DISCONNECT"
  else if type =? TLV_T_MLACP_SYSTEM_CONFIG then "TLV_T_MLACP_SYSTEM_CONFIG"
  else if type =? TLV_T_MLACP_PORT_CONFIG then "TLV_T_MLACP_PORT_CONFIG"
  else if type =? TLV_T_MLACP_PORT_PRIORITY then "TLV_T_MLACP_PORT_PRIORITY"
  else if type =? TLV_T_MLACP_PORT_STATE then "TLV_T_MLACP_PORT_STATE"
  else if type =? TLV_T_MLACP_AGGREGATOR_CONFIG then "TLV_T_MLACP_AGGREGATOR_CONFIG"
  else if type =? TLV_T_MLACP_AGGREGATOR_STATE then "TLV_T_MLACP_AGGREGATOR_STATE"
  else if type =? TLV_T_MLACP_SYNC_REQUEST then "TLV_T_MLACP_SYNC_REQUEST"
  else if type =? TLV_T_MLACP_SYNC_DATA then "TLV_T_MLACP_SYNC_DATA"
  else if type =? TLV_T_MLACP_HEARTBEAT then "TLV_T_MLACP_HEARTBEAT"
  else if type =? TLV_T_MLACP_DISCONNECT_CAUSE then "TLV_T_MLACP_DISCONNECT_CAUSE"
  else if type =? TLV_T_MLACP_ORPHAN_PORT then "TLV_T_MLACP_ORPHAN_PORT"
  else if type =? TLV_T_MLACP_PORT_CHANNEL_INFO then "TLV_T_MLACP_PORT_CHANNEL_INFO"
  else if type =? TLV_T_MLACP_PEERLINK_INFO then "TLV_T_MLACP_PEERLINK_INFO"
  else if type =? TLV_T_MLACP_ARP_INFO then "TLV_T_MLACP_ARP_INFO"
  else if type =? TLV_T_MLACP_MAC_INFO then "TLV_T_MLACP_MAC_INFO"
  else if type =? TLV_T_MLACP_STP_INFO then "TLV_T_MLACP_STP_INFO"
  else if type =? TLV_T_MLACP_IF_UP_ACK then "TLV_T_MLACP_IF_UP_ACK"
  else "UNKNOWN".

(** [get_status_string] *)
Definition get_status_string (status : Z) : string :=
  if status =? STATUS_CODE_U_ICCP_RG then "Unknown ICCP RG"
  else if status =? STATUS_CODE_ICCP_CONNECTION_COUNT_EXCEEDED then "ICCP Connection Count Exceeded"
  else if status =? STATUS_CODE_ICCP_APP_CONNECTION_COUNT_EXCEEDED
  then "ICCP Application Connection Count Exceede"
  else if status =? STATUS_CODE_ICCP_APP_NOT_IN_RG then "ICCP Application not in RG"
  else if status =? STATUS_CODE_INCOMPATIBLE_ICCP_PROTOCOL_VER
  then "Incompatible ICCP Protocol Version"
  else if status =? STATUS_CODE_ICCP_REJECTED_MSG then "ICCP Rejected Message"
  else if status =? STATUS_CODE_ICCP_ADMINISTRATIVELY_DISABLED then "ICCP Administratively Disabled"
  else if status =? STATUS_CODE_ICCP_RG_REMOVED then "ICCP RG Removed"
  else if status =? STATUS_CODE_ICCP_APP_REMOVED_FROM_RG then "ICCP Application Removed from RG"
  else "UNKNOWN".

(** [mlacp_fsm_iccp_to_dbg_msg_type] ([mlacp_fsm.c]): the debug counter of a TLV
    type, [ICCP_DBG_CNTR_MSG_MAX] when it has none. *)
Definition ICCP_DBG_CNTR_MSG_MAX : Z := 29.
Definition mlacp_fsm_iccp_to_dbg_msg_type (tlv_type : Z) : Z :=
  if tlv_type =? TLV_T_MLACP_SYSTEM_CONFIG then 0
  else if tlv_type =? TLV_T_MLACP_AGGREGATOR_CONFIG then 1
  else if tlv_type =? TLV_T_MLACP_AGGREGATOR_STATE then 2
  else if tlv_type =? TLV_T_MLACP_SYNC_REQUEST then 11
  else if tlv_type =? TLV_T_MLACP_SYNC_DATA then 10
  else if tlv_type =? TLV_T_MLACP_HEARTBEAT then 8
  else if tlv_type =? TLV_T_MLACP_PORT_CHANNEL_INFO then 6
  else if tlv_type =? TLV_T_MLACP_PEERLINK_INFO then 7
  else if tlv_type =? TLV_T_MLACP_ARP_INFO then 4
  else if tlv_type =? TLV_T_MLACP_MAC_INFO then 3
  else if tlv_type =? TLV_T_MLACP_WARMBOOT_FLAG then 12
  else if tlv_type =? TLV_T_MLACP_IF_UP_ACK then 13
  else ICCP_DBG_CNTR_MSG_MAX.

(** ** Layout facts *)

(** The sizes of the structures of the wire format. *)
Lemma layout_sizes :
  (sizeof LDPHdr, sizeof ICCHdr, sizeof ICCParameter, sizeof NAKTLV) = (8, 16, 4, 12)%nat
  ∧ (sizeof mLACPMACData, sizeof ARPMsg, sizeof NDISCMsg) = (30, 36, 48)%nat
  ∧ (sizeof mLACPPortChannelInfoTLV, sizeof mLACPAggConfigTLV) = (36, 46)%nat.
Proof. done. Qed.
