(* ===== verification/ShowFormat.v ===== *)
(** * The control protocol: layouts, constants and texts ([mclagdctl/mclagdctl.h])

    The requests of [mclagdctl] and the replies of the daemon are structures with the
    compiler's alignment, preceded in a reply by the length of what follows.  Also
    here: the C library's formatting that both programs use. *)

From S2P Require Import Prelude CMem CString MsgFormat.
#[local] Open Scope Z_scope.

(** ** Constants *)

Definition MCLAGDCTL_PARA1_LEN : nat := 16.
Definition MCLAGDCTL_PARA2_LEN : nat := 32.
Definition MCLAGDCTL_PARA3_LEN : nat := 64.
Definition MCLAGDCTL_CMD_SIZE : Z := 4096.
Definition MCLAGDCTL_MAX_L_PORT_NANE : nat := 32.
Definition MCLAGDCTL_INET_ADDR_LEN : nat := 32.
Definition MCLAGDCTL_INET6_ADDR_LEN : nat := 64.
Definition MCLAGDCTL_PORT_MEMBER_BUF_LEN : nat := 512.
Definition ICCP_MAX_PORT_NAME : nat := 20.
Definition ICCP_MAX_IP_STR_LEN : nat := 16.
Definition INET6_ADDRSTRLEN : nat := 46.
Definition PORT_STATE_ADMIN_DOWN : Z := 0x02.
Definition PORT_STATE_TEST : Z := 0x03.

(** [enum mclagdctl_notify_peer_type] *)
Definition INFO_TYPE_NONE : Z := 0.
Definition INFO_TYPE_DUMP_STATE : Z := 1.
Definition INFO_TYPE_DUMP_ARP : Z := 2.
Definition INFO_TYPE_DUMP_NDISC : Z := 3.
Definition INFO_TYPE_DUMP_MAC : Z := 4.
Definition INFO_TYPE_DUMP_UNIQUE_IP : Z := 5.
Definition INFO_TYPE_DUMP_LOCAL_PORTLIST : Z := 6.
Definition INFO_TYPE_DUMP_PEER_PORTLIST : Z := 7.
Definition INFO_TYPE_DUMP_DBG_COUNTERS : Z := 8.
Definition INFO_TYPE_CONFIG_LOGLEVEL : Z := 9.

Definition EXEC_TYPE_SUCCESS : Z := -1.
Definition EXEC_TYPE_NO_EXIST_SYS : Z := -2.
Definition EXEC_TYPE_NO_EXIST_MCLAGID : Z := -3.
Definition EXEC_TYPE_FAILED : Z := -4.

(** [enum log_level_type], the same numbers as [enum _iccpd_log_level_t] *)
Definition CRITICAL : Z := 0.
Definition ERR : Z := 1.
Definition WARN : Z := 2.
Definition NOTICE : Z := 3.
Definition INFO : Z := 4.
Definition DEBUG : Z := 5.

Definition MAC_TYPE_STATIC_CTL : Z := 1.
Definition MAC_AGE_LOCAL_CTL : Z := 1.
Definition MAC_AGE_PEER_CTL : Z := 2.

(** The dimensions of the counters *)
Definition SYNCD_TX_DBG_CNTR_MSG_MAX : nat := 15.
Definition SYNCD_RX_DBG_CNTR_MSG_MAX : nat := 5.

(** ** Structures *)

Definition uint64s (n : string) (k : nat) : member := Member n (8 * k) 8.

Definition mclagdctl_req_hdr : struct := Struct false
  [uint32 "info_type"; uint32 "mclag_id"; bytes "para1" MCLAGDCTL_PARA2_LEN;
   bytes "para2" MCLAGDCTL_PARA2_LEN; bytes "para3" MCLAGDCTL_PARA2_LEN].

Definition mclagd_reply_hdr : struct := Struct false
  [uint32 "info_type"; uint32 "data_len"; uint32 "exec_result"].

Definition MCLAGD_REPLY_INFO_HDR : nat := sizeof mclagd_reply_hdr + 4.

Definition mclagd_state : struct := Struct false
  [uint32 "mclag_id"; uint32 "keepalive"; uint32 "info_sync_done";
   bytes "local_ip" MCLAGDCTL_INET_ADDR_LEN; bytes "peer_ip" MCLAGDCTL_INET_ADDR_LEN;
   bytes "peer_link_if" MCLAGDCTL_MAX_L_PORT_NANE; bytes "peer_link_mac" ETHER_ADDR_LEN;
   uint32 "role"; bytes "enabled_po" MCLAGDCTL_PORT_MEMBER_BUF_LEN; uint32 "session_timeout";
   uint32 "keepalive_time"; bytes "loglevel" MCLAGDCTL_PARA1_LEN].

Definition mclagd_arp_msg : struct := Struct false
  [uint8 "op_type"; bytes "ifname" MCLAGDCTL_MAX_L_PORT_NANE;
   bytes "ipv4_addr" MCLAGDCTL_INET_ADDR_LEN; bytes "mac_addr" ETHER_ADDR_LEN; uint8 "learn_flag"].

Definition mclagd_ndisc_msg : struct := Struct false
  [uint8 "op_type"; bytes "ifname" MCLAGDCTL_MAX_L_PORT_NANE;
   bytes "ipv6_addr" MCLAGDCTL_INET6_ADDR_LEN; bytes "mac_addr" ETHER_ADDR_LEN; uint8 "learn_flag"].

Definition mclagd_mac_msg : struct := Struct false
  [uint8 "op_type"; uint8 "fdb_type"; bytes "mac_addr" ETHER_ADDR_LEN; uint16 "vid";
   bytes "ifname" MCLAGDCTL_MAX_L_PORT_NANE; bytes "origin_ifname" MCLAGDCTL_MAX_L_PORT_NANE;
   uint8 "age_flag"].

Definition mclagd_local_if : struct := Struct false
  [uint32 "ifindex"; bytes "type" MCLAGDCTL_PARA1_LEN; bytes "name" MCLAGDCTL_MAX_L_PORT_NANE;
   bytes "mac_addr" ETHER_ADDR_LEN; bytes "state" MCLAGDCTL_PARA1_LEN;
   bytes "ipv4_addr" MCLAGDCTL_INET_ADDR_LEN; uint8 "prefixlen"; uint8 "l3_mode";
   uint8 "is_peer_link"; bytes "portchannel_member_buf" MCLAGDCTL_PORT_MEMBER_BUF_LEN;
   uint32 "po_id"; uint8 "po_active"; bytes "mlacp_state" MCLAGDCTL_PARA1_LEN;
   uint8 "isolate_to_peer_link"; uint8 "is_traffic_disable"; bytes "vlanlist" MCLAGDCTL_PARA3_LEN].

Definition mclagd_peer_if : struct := Struct false
  [uint32 "ifindex"; bytes "type" MCLAGDCTL_PARA1_LEN; bytes "name" MCLAGDCTL_MAX_L_PORT_NANE;
   bytes "mac_addr" ETHER_ADDR_LEN; bytes "state" MCLAGDCTL_PARA1_LEN; uint32 "po_id";
   uint8 "po_active"].

(** [system_dbg_counter_info_t] ([system.h]): thirty counters and two tables *)
Definition system_dbg_counter_info : struct := Struct false
  [words "counters" 30; uint64s "syncd_tx_counters" (SYNCD_TX_DBG_CNTR_MSG_MAX * 2);
   uint64s "syncd_rx_counters" (SYNCD_RX_DBG_CNTR_MSG_MAX * 2)].

(** [mlacp_dbg_counter_info_t] ([mlacp_fsm.h]) *)
Definition mlacp_dbg_counter_info : struct := Struct false
  [uint64s "iccp_counters" (Z.to_nat ICCP_DBG_CNTR_MSG_MAX * 4)].

Definition mclagd_dbg_counter_info : struct := Struct false
  [nested "system_dbg" system_dbg_counter_info; uint8 "num_iccp_counter_blocks";
   bytes "iccp_dbg_counters" 0].

Definition mclagd_unique_ip_if : struct := Struct false
  [uint32 "active"; bytes "name" MCLAGDCTL_MAX_L_PORT_NANE].

(** What the compiler computes for them on a 64-bit machine. *)
Lemma show_sizes :
  sizeof <$> [mclagdctl_req_hdr; mclagd_reply_hdr; mclagd_state; mclagd_arp_msg; mclagd_ndisc_msg;
              mclagd_mac_msg; mclagd_local_if; mclagd_peer_if; system_dbg_counter_info;
              mlacp_dbg_counter_info; mclagd_dbg_counter_info; mclagd_unique_ip_if]
  = [104; 12; 656; 72; 104; 76; 712; 84; 440; 928; 448; 36]%nat.
Proof. reflexivity. Qed.

(** ** Texts *)

Definition le64 (v : Z) : list Z := le32 v ++ le32 (v / 2 ^ 32).
Definition rd64 (off : nat) (buf : list Z) : option Z :=
  lo ← rd32 off buf; hi ← rd32 (off + 4) buf; Some (lo + hi * 2 ^ 32).

(** [%u] and [%lu]: at most twenty digits. *)
Definition fmt_u (n : Z) : list Z := digits 20 n [].

(** [%x] of a [uint16_t] *)
Fixpoint hex_digits (fuel : nat) (n : Z) (acc : list Z) : list Z :=
  match fuel with
  | O => acc
  | S f => let acc := hex_digit (n mod 16) :: acc in if n / 16 =? 0 then acc else hex_digits f (n / 16) acc
  end.
Definition fmt_x (n : Z) : list Z := hex_digits 4 n [].

(** [%-Ns] *)
Definition pad (n : nat) (s : list Z) : list Z := s ++ replicate (n - length s) 32.

(** [snprintf(buf + off, n, ..)] of a text: the size is a [size_t]. *)
Definition snprintf_at (off : nat) (n : Z) (text buf : list Z) : option (list Z) :=
  let n := u64 n in
  if n =? 0 then Some buf
  else put off ((if n - 1 <? Z.of_nat (length text) then take (Z.to_nat (n - 1)) text else text) ++ [0]) buf.

(** [inet_ntop(AF_INET, ..)] of the bytes in memory *)
Definition inet_ntop4 (b : list Z) : list Z :=
  match b with
  | [a; b; c; d] => fmt_d a ++ 46 :: fmt_d b ++ 46 :: fmt_d c ++ 46 :: fmt_d d
  | _ => []
  end.

(** [inet_ntop(AF_INET6, ..)]: the first longest run of zero words, of two at least,
    is left out; an address with an embedded IPv4 address ends in its dotted form. *)
Fixpoint be_words (b : list Z) : list Z :=
  match b with
  | x :: y :: b' => x * 256 + y :: be_words b'
  | _ => []
  end.

Fixpoint zero_run (ws : list Z) : nat :=
  match ws with
  | w :: ws' => if w =? 0 then S (zero_run ws') else O
  | [] => O
  end.

(** The position and the length of the run, from position [i]. *)
Fixpoint best_run (i : nat) (ws : list Z) : nat * nat :=
  match ws with
  | [] => (i, O)
  | _ :: ws' => let n := zero_run ws in
                let '(j, m) := best_run (S i) ws' in
                if (m <=? n)%nat then (i, n) else (j, m)
  end.

Fixpoint print_words (i base len : nat) (v4 : bool) (b ws : list Z) : list Z :=
  match ws with
  | [] => []
  | w :: ws' =>
      if (base <=? i)%nat && (i <? base + len)%nat
      then (if (i =? base)%nat then [58] else []) ++ print_words (S i) base len v4 b ws'
      else (if (i =? 0)%nat then [] else [58])
           ++ (if v4 && (i =? 6)%nat then inet_ntop4 (drop 12 b)
               else fmt_x w ++ print_words (S i) base len v4 b ws')
  end.

Definition inet_ntop6 (b : list Z) : list Z :=
  let ws := be_words b in
  let '(base, len) := best_run 0 ws in
  let len := if (len <? 2)%nat then O else len in
  let v4 := (base =? 0)%nat && ((len =? 6)%nat || ((len =? 5)%nat && bool_decide (ws !! 5%nat = Some 0xffff))) in
  print_words 0 base len v4 b ws ++ (if (0 <? len)%nat && (base + len =? 8)%nat then [58] else []).

(** A string at an address: it must end inside the memory. *)
Definition string_in (off : nat) (buf : list Z) : option (list Z) :=
  if bool_decide (0 ∈ drop off buf) then Some (cstr (drop off buf)) else None.

Example ntop_examples :
  inet_ntop4 [192; 168; 0; 1] = str "192.168.0.1"
  ∧ inet_ntop6 [0xfe; 0x80; 0; 0; 0; 0; 0; 0; 2; 0; 0; 0xff; 0xfe; 0; 0; 1] = str "fe80::200:ff:fe00:1"
  ∧ inet_ntop6 (replicate 15 0 ++ [1]) = str "::1"
  ∧ inet_ntop6 (replicate 16 0) = str "::"
  ∧ inet_ntop6 (replicate 10 0 ++ [255; 255; 10; 0; 0; 1]) = str "::ffff:10.0.0.1"
  ∧ inet_ntop6 [0x20; 1; 0; 0; 0; 1; 0; 0; 0; 0; 0; 1; 0; 0; 0; 0] = str "2001:0:1::1:0:0".
Proof. repeat split; vm_compute; reflexivity. Qed.
