(* ===== verification/State.v ===== *)
(** * The state of the daemon ([include/iccp_csm.h], [app_csm.h], [mlacp_fsm.h],
    [port.h], [mlacp_tlv.h], [system.h], [logger.h])

    Every structure of the daemon that the modelled code reads or writes, as a
    record with the source's field names (prefixed where two structures share
    one).  Objects that C code reaches through pointers from several places
    (state machines, local and peer interfaces, MAC entries) live in heaps of the
    [World]; a pointer is a [Z], [NULL] is [0] and is never allocated.  Messages
    ([struct Msg]) belong to one queue at a time and are kept by value. *)

From S2P Require Import Prelude CMem MsgFormat.
#[local] Open Scope Z_scope.

Notation ptr := Z (only parsing).
Definition NULL : ptr := 0.

(** ** Enumerations *)

(** [enum ICCP_CONNECTION_STATE] *)
Inductive ICCP_CONNECTION_STATE : Type :=
| ICCP_NONEXISTENT | ICCP_INITIALIZED | ICCP_CAPSENT | ICCP_CAPREC | ICCP_CONNECTING
| ICCP_OPERATIONAL.

#[global] Instance iccp_state_eq_dec : EqDecision ICCP_CONNECTION_STATE.
Proof. solve_decision. Defined.

(** [enum APP_CONNECTION_STATE] *)
Inductive APP_CONNECTION_STATE : Type :=
| APP_NONEXISTENT | APP_RESET | APP_CONNSENT | APP_CONNREC | APP_CONNECTING | APP_OPERATIONAL.

#[global] Instance app_state_eq_dec : EqDecision APP_CONNECTION_STATE.
Proof. solve_decision. Defined.

(** [stp_role_type_et] *)
Inductive stp_role_type : Type := STP_ROLE_NONE | STP_ROLE_ACTIVE | STP_ROLE_STANDBY.

#[global] Instance stp_role_eq_dec : EqDecision stp_role_type.
Proof. solve_decision. Defined.

(** [enum MLACP_APP_STATE] and [enum MLACP_SYNC_STATE]: the code increments
    variables of these types, so they are integers here as they are there. *)
Definition MLACP_STATE_INIT : Z := 0.
Definition MLACP_STATE_STAGE1 : Z := 1.
Definition MLACP_STATE_STAGE2 : Z := 2.
Definition MLACP_STATE_EXCHANGE : Z := 3.
Definition MLACP_STATE_ERROR : Z := 4.

Definition MLACP_SYNC_SYSCONF : Z := 0.
Definition MLACP_SYNC_AGGCONF : Z := 1.
Definition MLACP_SYNC_AGGSTATE : Z := 2.
Definition MLACP_SYNC_AGGINFO : Z := 3.
Definition MLACP_SYNC_PEERLINKINFO : Z := 4.
Definition MLACP_SYNC_ARP_INFO : Z := 5.
Definition MLACP_SYNC_NDISC_INFO : Z := 6.
Definition MLACP_SYNC_DONE : Z := 7.

(** ** The structures *)

(** [struct IccpInfo] *)
Record IccpInfo : Type := mkIccpInfo {
  icc_rg_id : Z;
  sender_name : list Z  (** [char [80]] *);
  status_code : Z;
  peer_capability_flag : Z;
  peer_rg_connect_flag : Z;
  sender_capability_flag : Z;
  sender_rg_connect_flag : Z;
  rejected_msg_id : Z
}.

Definition IccpInfo_eta (r : IccpInfo) : IccpInfo :=
    mkIccpInfo (icc_rg_id r) (sender_name r) (status_code r) (peer_capability_flag r)
    (peer_rg_connect_flag r) (sender_capability_flag r) (sender_rg_connect_flag r)
    (rejected_msg_id r).
#[global] Instance set_icc_rg_id : Settable icc_rg_id. Proof. make_setter IccpInfo_eta icc_rg_id. Defined.
#[global] Instance set_sender_name : Settable sender_name. Proof. make_setter IccpInfo_eta sender_name. Defined.
#[global] Instance set_status_code : Settable status_code. Proof. make_setter IccpInfo_eta status_code. Defined.
#[global] Instance set_peer_capability_flag : Settable peer_capability_flag. Proof. make_setter IccpInfo_eta peer_capability_flag. Defined.
#[global] Instance set_peer_rg_connect_flag : Settable peer_rg_connect_flag. Proof. make_setter IccpInfo_eta peer_rg_connect_flag. Defined.
#[global] Instance set_sender_capability_flag : Settable sender_capability_flag. Proof. make_setter IccpInfo_eta sender_capability_flag. Defined.
#[global] Instance set_sender_rg_connect_flag : Settable sender_rg_connect_flag. Proof. make_setter IccpInfo_eta sender_rg_connect_flag. Defined.
#[global] Instance set_rejected_msg_id : Settable rejected_msg_id. Proof. make_setter IccpInfo_eta rejected_msg_id. Defined.

(** [struct Msg]: a received message *)
Record Msg : Type := mkMsg {
  msg_buf : list Z;
  msg_len : Z
}.

Definition Msg_eta (r : Msg) : Msg :=
    mkMsg (msg_buf r) (msg_len r).
#[global] Instance set_msg_buf : Settable msg_buf. Proof. make_setter Msg_eta msg_buf. Defined.
#[global] Instance set_msg_len : Settable msg_len. Proof. make_setter Msg_eta msg_len. Defined.

(** [struct MsgTypeSet]: the identity of a sent message *)
Record MsgTypeSet : Type := mkMsgTypeSet {
  log_msg_id : Z;
  log_type : Z;
  log_tlv : Z
}.

Definition MsgTypeSet_eta (r : MsgTypeSet) : MsgTypeSet :=
    mkMsgTypeSet (log_msg_id r) (log_type r) (log_tlv r).
#[global] Instance set_log_msg_id : Settable log_msg_id. Proof. make_setter MsgTypeSet_eta log_msg_id. Defined.
#[global] Instance set_log_type : Settable log_type. Proof. make_setter MsgTypeSet_eta log_type. Defined.
#[global] Instance set_log_tlv : Settable log_tlv. Proof. make_setter MsgTypeSet_eta log_tlv. Defined.

(** [struct MsgLog]: the ring of the last sent messages *)
Record MsgLog : Type := mkMsgLog {
  log_msg : list MsgTypeSet  (** [MAX_MSG_LOG_SIZE] entries *);
  log_end_index : Z
}.

Definition MsgLog_eta (r : MsgLog) : MsgLog :=
    mkMsgLog (log_msg r) (log_end_index r).
#[global] Instance set_log_msg : Settable log_msg. Proof. make_setter MsgLog_eta log_msg. Defined.
#[global] Instance set_log_end_index : Settable log_end_index. Proof. make_setter MsgLog_eta log_end_index. Defined.

(** [struct MACMsg]: a MAC entry, shared by the MAC tree and the queue to the peer *)
Record MACMsg : Type := mkMACMsg {
  mac_vid : Z;
  mac_addr : list Z  (** [uint8_t [6]] *);
  mac_op_type : Z;
  mac_fdb_type : Z;
  mac_ifname : list Z  (** [char [20]] *);
  mac_origin_ifname : list Z  (** [char [20]] *);
  mac_age_flag : Z;
  mac_pending_local_del : Z;
  mac_add_to_syncd : Z;
  mac_in_msg_list : bool  (** the links of the queue are not both null: [MAC_IN_MSG_LIST] *)
}.

Definition MACMsg_eta (r : MACMsg) : MACMsg :=
    mkMACMsg (mac_vid r) (mac_addr r) (mac_op_type r) (mac_fdb_type r) (mac_ifname r)
    (mac_origin_ifname r) (mac_age_flag r) (mac_pending_local_del r) (mac_add_to_syncd r)
    (mac_in_msg_list r).
#[global] Instance set_mac_vid : Settable mac_vid. Proof. make_setter MACMsg_eta mac_vid. Defined.
#[global] Instance set_mac_addr : Settable mac_addr. Proof. make_setter MACMsg_eta mac_addr. Defined.
#[global] Instance set_mac_op_type : Settable mac_op_type. Proof. make_setter MACMsg_eta mac_op_type. Defined.
#[global] Instance set_mac_fdb_type : Settable mac_fdb_type. Proof. make_setter MACMsg_eta mac_fdb_type. Defined.
#[global] Instance set_mac_ifname : Settable mac_ifname. Proof. make_setter MACMsg_eta mac_ifname. Defined.
#[global] Instance set_mac_origin_ifname : Settable mac_origin_ifname. Proof. make_setter MACMsg_eta mac_origin_ifname. Defined.
#[global] Instance set_mac_age_flag : Settable mac_age_flag. Proof. make_setter MACMsg_eta mac_age_flag. Defined.
#[global] Instance set_mac_pending_local_del : Settable mac_pending_local_del. Proof. make_setter MACMsg_eta mac_pending_local_del. Defined.
#[global] Instance set_mac_add_to_syncd : Settable mac_add_to_syncd. Proof. make_setter MACMsg_eta mac_add_to_syncd. Defined.
#[global] Instance set_mac_in_msg_list : Settable mac_in_msg_list. Proof. make_setter MACMsg_eta mac_in_msg_list. Defined.

(** [struct VLAN_ID]: a node of a VLAN tree *)
Record VLAN_ID : Type := mkVLAN_ID {
  vid : Z;
  vlan_removed : Z;
  vlan_itf : ptr
}.

Definition VLAN_ID_eta (r : VLAN_ID) : VLAN_ID :=
    mkVLAN_ID (vid r) (vlan_removed r) (vlan_itf r).
#[global] Instance set_vid : Settable vid. Proof. make_setter VLAN_ID_eta vid. Defined.
#[global] Instance set_vlan_removed : Settable vlan_removed. Proof. make_setter VLAN_ID_eta vlan_removed. Defined.
#[global] Instance set_vlan_itf : Settable vlan_itf. Proof. make_setter VLAN_ID_eta vlan_itf. Defined.

(** [struct Remote_System] *)
Record Remote_System : Type := mkRemote_System {
  remote_system_id : list Z  (** [uint8_t [6]] *);
  remote_system_priority : Z;
  remote_node_id : Z
}.

Definition Remote_System_eta (r : Remote_System) : Remote_System :=
    mkRemote_System (remote_system_id r) (remote_system_priority r) (remote_node_id r).
#[global] Instance set_remote_system_id : Settable remote_system_id. Proof. make_setter Remote_System_eta remote_system_id. Defined.
#[global] Instance set_remote_system_priority : Settable remote_system_priority. Proof. make_setter Remote_System_eta remote_system_priority. Defined.
#[global] Instance set_remote_node_id : Settable remote_node_id. Proof. make_setter Remote_System_eta remote_node_id. Defined.

(** [struct mLACP] *)
Record mLACP : Type := mkmLACP {
  mlacp_id : Z;
  sync_req_num : Z;
  mlacp_current_state : Z;
  sync_state : Z;
  wait_for_sync_data : Z;
  need_to_sync : Z;
  node_id : Z;
  system_id : list Z  (** [uint8_t [6]] *);
  system_priority : Z;
  system_config_changed : Z;
  remote_system : Remote_System;
  mlacp_msg_list : list Msg;
  arp_msg_list : list Msg;
  arp_list : list Msg;
  ndisc_msg_list : list Msg;
  ndisc_list : list Msg;
  mac_msg_list : list ptr  (** queue of MAC entries to send *);
  mac_rb : list ptr  (** the MAC tree, in key order *);
  lif_list : list ptr;
  lif_purge_list : list ptr;
  pif_list : list ptr;
  iccp_counters : gmap (Z * Z * Z) Z  (** [dbg_counters.iccp_counters] *)
}.

Definition mLACP_eta (r : mLACP) : mLACP :=
    mkmLACP (mlacp_id r) (sync_req_num r) (mlacp_current_state r) (sync_state r)
    (wait_for_sync_data r) (need_to_sync r) (node_id r) (system_id r) (system_priority r)
    (system_config_changed r) (remote_system r) (mlacp_msg_list r) (arp_msg_list r)
    (arp_list r) (ndisc_msg_list r) (ndisc_list r) (mac_msg_list r) (mac_rb r) (lif_list r)
    (lif_purge_list r) (pif_list r) (iccp_counters r).
#[global] Instance set_mlacp_id : Settable mlacp_id. Proof. make_setter mLACP_eta mlacp_id. Defined.
#[global] Instance set_sync_req_num : Settable sync_req_num. Proof. make_setter mLACP_eta sync_req_num. Defined.
#[global] Instance set_mlacp_current_state : Settable mlacp_current_state. Proof. make_setter mLACP_eta mlacp_current_state. Defined.
#[global] Instance set_sync_state : Settable sync_state. Proof. make_setter mLACP_eta sync_state. Defined.
#[global] Instance set_wait_for_sync_data : Settable wait_for_sync_data. Proof. make_setter mLACP_eta wait_for_sync_data. Defined.
#[global] Instance set_need_to_sync : Settable need_to_sync. Proof. make_setter mLACP_eta need_to_sync. Defined.
#[global] Instance set_node_id : Settable node_id. Proof. make_setter mLACP_eta node_id. Defined.
#[global] Instance set_system_id : Settable system_id. Proof. make_setter mLACP_eta system_id. Defined.
#[global] Instance set_system_priority : Settable system_priority. Proof. make_setter mLACP_eta system_priority. Defined.
#[global] Instance set_system_config_changed : Settable system_config_changed. Proof. make_setter mLACP_eta system_config_changed. Defined.
#[global] Instance set_remote_system : Settable remote_system. Proof. make_setter mLACP_eta remote_system. Defined.
#[global] Instance set_mlacp_msg_list : Settable mlacp_msg_list. Proof. make_setter mLACP_eta mlacp_msg_list. Defined.
#[global] Instance set_arp_msg_list : Settable arp_msg_list. Proof. make_setter mLACP_eta arp_msg_list. Defined.
#[global] Instance set_arp_list : Settable arp_list. Proof. make_setter mLACP_eta arp_list. Defined.
#[global] Instance set_ndisc_msg_list : Settable ndisc_msg_list. Proof. make_setter mLACP_eta ndisc_msg_list. Defined.
#[global] Instance set_ndisc_list : Settable ndisc_list. Proof. make_setter mLACP_eta ndisc_list. Defined.
#[global] Instance set_mac_msg_list : Settable mac_msg_list. Proof. make_setter mLACP_eta mac_msg_list. Defined.
#[global] Instance set_mac_rb : Settable mac_rb. Proof. make_setter mLACP_eta mac_rb. Defined.
#[global] Instance set_lif_list : Settable lif_list. Proof. make_setter mLACP_eta lif_list. Defined.
#[global] Instance set_lif_purge_list : Settable lif_purge_list. Proof. make_setter mLACP_eta lif_purge_list. Defined.
#[global] Instance set_pif_list : Settable pif_list. Proof. make_setter mLACP_eta pif_list. Defined.
#[global] Instance set_iccp_counters : Settable iccp_counters. Proof. make_setter mLACP_eta iccp_counters. Defined.

(** [struct AppCSM] *)
Record AppCSM : Type := mkAppCSM {
  mlacp : mLACP;
  app_current_state : APP_CONNECTION_STATE;
  rx_connect_msg_id : Z;
  tx_connect_msg_id : Z;
  invalid_msg_id : Z;
  app_msg_list : list Msg;
  invalid_msg : Z;
  nak_msg : Z
}.

Definition AppCSM_eta (r : AppCSM) : AppCSM :=
    mkAppCSM (mlacp r) (app_current_state r) (rx_connect_msg_id r) (tx_connect_msg_id r)
    (invalid_msg_id r) (app_msg_list r) (invalid_msg r) (nak_msg r).
#[global] Instance set_mlacp : Settable mlacp. Proof. make_setter AppCSM_eta mlacp. Defined.
#[global] Instance set_app_current_state : Settable app_current_state. Proof. make_setter AppCSM_eta app_current_state. Defined.
#[global] Instance set_rx_connect_msg_id : Settable rx_connect_msg_id. Proof. make_setter AppCSM_eta rx_connect_msg_id. Defined.
#[global] Instance set_tx_connect_msg_id : Settable tx_connect_msg_id. Proof. make_setter AppCSM_eta tx_connect_msg_id. Defined.
#[global] Instance set_invalid_msg_id : Settable invalid_msg_id. Proof. make_setter AppCSM_eta invalid_msg_id. Defined.
#[global] Instance set_app_msg_list : Settable app_msg_list. Proof. make_setter AppCSM_eta app_msg_list. Defined.
#[global] Instance set_invalid_msg : Settable invalid_msg. Proof. make_setter AppCSM_eta invalid_msg. Defined.
#[global] Instance set_nak_msg : Settable nak_msg. Proof. make_setter AppCSM_eta nak_msg. Defined.

(** [struct CSM]: a connection state machine *)
Record CSM : Type := mkCSM {
  mlag_id : Z;
  sock_fd : Z;
  connTimePrev : Z;
  heartbeat_send_time : Z;
  heartbeat_update_time : Z;
  peer_warm_reboot_time : Z;
  warm_reboot_disconn_time : Z;
  peer_itf_name : list Z  (** [char [IFNAMSIZ]] *);
  peer_link_learning_retry_time : Z;
  peer_ip : list Z  (** [char [INET_ADDRSTRLEN]] *);
  sender_ip : list Z  (** [char [INET_ADDRSTRLEN]] *);
  keepalive_time : Z;
  session_timeout : Z;
  peer_link_learning_enable : Z;
  msg_list : list Msg;
  role_type : stp_role_type;
  peer_link_if : ptr;
  iccp_info : IccpInfo;
  app_csm : AppCSM;
  current_state : ICCP_CONNECTION_STATE;
  icc_msg_in_count : Z;
  icc_msg_out_count : Z;
  u_msg_in_count : Z;
  i_msg_in_count : Z;
  msg_log : MsgLog;
  if_bind_list : list (list Z)
}.

Definition CSM_eta (r : CSM) : CSM :=
    mkCSM (mlag_id r) (sock_fd r) (connTimePrev r) (heartbeat_send_time r)
    (heartbeat_update_time r) (peer_warm_reboot_time r) (warm_reboot_disconn_time r)
    (peer_itf_name r) (peer_link_learning_retry_time r) (peer_ip r) (sender_ip r)
    (keepalive_time r) (session_timeout r) (peer_link_learning_enable r) (msg_list r)
    (role_type r) (peer_link_if r) (iccp_info r) (app_csm r) (current_state r)
    (icc_msg_in_count r) (icc_msg_out_count r) (u_msg_in_count r) (i_msg_in_count r)
    (msg_log r) (if_bind_list r).
#[global] Instance set_mlag_id : Settable mlag_id. Proof. make_setter CSM_eta mlag_id. Defined.
#[global] Instance set_sock_fd : Settable sock_fd. Proof. make_setter CSM_eta sock_fd. Defined.
#[global] Instance set_connTimePrev : Settable connTimePrev. Proof. make_setter CSM_eta connTimePrev. Defined.
#[global] Instance set_heartbeat_send_time : Settable heartbeat_send_time. Proof. make_setter CSM_eta heartbeat_send_time. Defined.
#[global] Instance set_heartbeat_update_time : Settable heartbeat_update_time. Proof. make_setter CSM_eta heartbeat_update_time. Defined.
#[global] Instance set_peer_warm_reboot_time : Settable peer_warm_reboot_time. Proof. make_setter CSM_eta peer_warm_reboot_time. Defined.
#[global] Instance set_warm_reboot_disconn_time : Settable warm_reboot_disconn_time. Proof. make_setter CSM_eta warm_reboot_disconn_time. Defined.
#[global] Instance set_peer_itf_name : Settable peer_itf_name. Proof. make_setter CSM_eta peer_itf_name. Defined.
#[global] Instance set_peer_link_learning_retry_time : Settable peer_link_learning_retry_time. Proof. make_setter CSM_eta peer_link_learning_retry_time. Defined.
#[global] Instance set_peer_ip : Settable peer_ip. Proof. make_setter CSM_eta peer_ip. Defined.
#[global] Instance set_sender_ip : Settable sender_ip. Proof. make_setter CSM_eta sender_ip. Defined.
#[global] Instance set_keepalive_time : Settable keepalive_time. Proof. make_setter CSM_eta keepalive_time. Defined.
#[global] Instance set_session_timeout : Settable session_timeout. Proof. make_setter CSM_eta session_timeout. Defined.
#[global] Instance set_peer_link_learning_enable : Settable peer_link_learning_enable. Proof. make_setter CSM_eta peer_link_learning_enable. Defined.
#[global] Instance set_msg_list : Settable msg_list. Proof. make_setter CSM_eta msg_list. Defined.
#[global] Instance set_role_type : Settable role_type. Proof. make_setter CSM_eta role_type. Defined.
#[global] Instance set_peer_link_if : Settable peer_link_if. Proof. make_setter CSM_eta peer_link_if. Defined.
#[global] Instance set_iccp_info : Settable iccp_info. Proof. make_setter CSM_eta iccp_info. Defined.
#[global] Instance set_app_csm : Settable app_csm. Proof. make_setter CSM_eta app_csm. Defined.
#[global] Instance set_current_state : Settable current_state. Proof. make_setter CSM_eta current_state. Defined.
#[global] Instance set_icc_msg_in_count : Settable icc_msg_in_count. Proof. make_setter CSM_eta icc_msg_in_count. Defined.
#[global] Instance set_icc_msg_out_count : Settable icc_msg_out_count. Proof. make_setter CSM_eta icc_msg_out_count. Defined.
#[global] Instance set_u_msg_in_count : Settable u_msg_in_count. Proof. make_setter CSM_eta u_msg_in_count. Defined.
#[global] Instance set_i_msg_in_count : Settable i_msg_in_count. Proof. make_setter CSM_eta i_msg_in_count. Defined.
#[global] Instance set_msg_log : Settable msg_log. Proof. make_setter CSM_eta msg_log. Defined.
#[global] Instance set_if_bind_list : Settable if_bind_list. Proof. make_setter CSM_eta if_bind_list. Defined.

(** [struct LocalInterface] *)
Record LocalInterface : Type := mkLocalInterface {
  lif_ifindex : Z;
  lif_type : Z;
  lif_name : list Z  (** [char [20]] *);
  lif_mac_addr : list Z  (** [uint8_t [6]] *);
  lif_mac_addr_ori : list Z  (** [uint8_t [6]] *);
  lif_state : Z;
  lif_ipv4_addr : Z;
  lif_prefixlen : Z;
  lif_ipv6_addr : list Z  (** [uint32_t [4]], as its 16 bytes *);
  lif_prefixlen_v6 : Z;
  lif_ipv6_ll_addr : list Z;
  lif_ll_prefixlen_v6 : Z;
  lif_l3_mode : Z;
  lif_l3_mac_addr : list Z  (** [uint8_t [6]] *);
  lif_is_peer_link : Z;
  lif_portchannel_member_buf : list Z  (** [char [512]] *);
  lif_is_arp_accept : Z;
  lif_po_id : Z;
  lif_po_active : Z;
  lif_mlacp_state : Z;
  lif_isolate_to_peer_link : Z;
  lif_po_down_time : Z;
  lif_csm : ptr;
  lif_changed : Z;
  lif_port_config_sync : Z;
  lif_is_traffic_disable : bool;
  lif_is_l3_proto_enabled : bool;
  lif_vlan_count : Z;
  lif_master_ifindex : Z;
  lif_vlan_tree : list VLAN_ID  (** the VLAN tree, in key order *)
}.

Definition LocalInterface_eta (r : LocalInterface) : LocalInterface :=
    mkLocalInterface (lif_ifindex r) (lif_type r) (lif_name r) (lif_mac_addr r)
    (lif_mac_addr_ori r) (lif_state r) (lif_ipv4_addr r) (lif_prefixlen r) (lif_ipv6_addr r) (lif_prefixlen_v6
    r) (lif_ipv6_ll_addr r) (lif_ll_prefixlen_v6 r) (lif_l3_mode r) (lif_l3_mac_addr r)
    (lif_is_peer_link r) (lif_portchannel_member_buf r) (lif_is_arp_accept r) (lif_po_id r)
    (lif_po_active r) (lif_mlacp_state r) (lif_isolate_to_peer_link r) (lif_po_down_time r)
    (lif_csm r) (lif_changed r) (lif_port_config_sync r) (lif_is_traffic_disable r)
    (lif_is_l3_proto_enabled r) (lif_vlan_count r) (lif_master_ifindex r) (lif_vlan_tree r).
#[global] Instance set_lif_ifindex : Settable lif_ifindex. Proof. make_setter LocalInterface_eta lif_ifindex. Defined.
#[global] Instance set_lif_type : Settable lif_type. Proof. make_setter LocalInterface_eta lif_type. Defined.
#[global] Instance set_lif_name : Settable lif_name. Proof. make_setter LocalInterface_eta lif_name. Defined.
#[global] Instance set_lif_mac_addr : Settable lif_mac_addr. Proof. make_setter LocalInterface_eta lif_mac_addr. Defined.
#[global] Instance set_lif_mac_addr_ori : Settable lif_mac_addr_ori. Proof. make_setter LocalInterface_eta lif_mac_addr_ori. Defined.
#[global] Instance set_lif_state : Settable lif_state. Proof. make_setter LocalInterface_eta lif_state. Defined.
#[global] Instance set_lif_ipv4_addr : Settable lif_ipv4_addr. Proof. make_setter LocalInterface_eta lif_ipv4_addr. Defined.
#[global] Instance set_lif_prefixlen : Settable lif_prefixlen. Proof. make_setter LocalInterface_eta lif_prefixlen. Defined.
#[global] Instance set_lif_ipv6_addr : Settable lif_ipv6_addr. Proof. make_setter LocalInterface_eta lif_ipv6_addr. Defined.
#[global] Instance set_lif_prefixlen_v6 : Settable lif_prefixlen_v6. Proof. make_setter LocalInterface_eta lif_prefixlen_v6. Defined.
#[global] Instance set_lif_ipv6_ll_addr : Settable lif_ipv6_ll_addr. Proof. make_setter LocalInterface_eta lif_ipv6_ll_addr. Defined.
#[global] Instance set_lif_ll_prefixlen_v6 : Settable lif_ll_prefixlen_v6. Proof. make_setter LocalInterface_eta lif_ll_prefixlen_v6. Defined.
#[global] Instance set_lif_l3_mode : Settable lif_l3_mode. Proof. make_setter LocalInterface_eta lif_l3_mode. Defined.
#[global] Instance set_lif_l3_mac_addr : Settable lif_l3_mac_addr. Proof. make_setter LocalInterface_eta lif_l3_mac_addr. Defined.
#[global] Instance set_lif_is_peer_link : Settable lif_is_peer_link. Proof. make_setter LocalInterface_eta lif_is_peer_link. Defined.
#[global] Instance set_lif_portchannel_member_buf : Settable lif_portchannel_member_buf. Proof. make_setter LocalInterface_eta lif_portchannel_member_buf. Defined.
#[global] Instance set_lif_is_arp_accept : Settable lif_is_arp_accept. Proof. make_setter LocalInterface_eta lif_is_arp_accept. Defined.
#[global] Instance set_lif_po_id : Settable lif_po_id. Proof. make_setter LocalInterface_eta lif_po_id. Defined.
#[global] Instance set_lif_po_active : Settable lif_po_active. Proof. make_setter LocalInterface_eta lif_po_active. Defined.
#[global] Instance set_lif_mlacp_state : Settable lif_mlacp_state. Proof. make_setter LocalInterface_eta lif_mlacp_state. Defined.
#[global] Instance set_lif_isolate_to_peer_link : Settable lif_isolate_to_peer_link. Proof. make_setter LocalInterface_eta lif_isolate_to_peer_link. Defined.
#[global] Instance set_lif_po_down_time : Settable lif_po_down_time. Proof. make_setter LocalInterface_eta lif_po_down_time. Defined.
#[global] Instance set_lif_csm : Settable lif_csm. Proof. make_setter LocalInterface_eta lif_csm. Defined.
#[global] Instance set_lif_changed : Settable lif_changed. Proof. make_setter LocalInterface_eta lif_changed. Defined.
#[global] Instance set_lif_port_config_sync : Settable lif_port_config_sync. Proof. make_setter LocalInterface_eta lif_port_config_sync. Defined.
#[global] Instance set_lif_is_traffic_disable : Settable lif_is_traffic_disable. Proof. make_setter LocalInterface_eta lif_is_traffic_disable. Defined.
#[global] Instance set_lif_is_l3_proto_enabled : Settable lif_is_l3_proto_enabled. Proof. make_setter LocalInterface_eta lif_is_l3_proto_enabled. Defined.
#[global] Instance set_lif_vlan_count : Settable lif_vlan_count. Proof. make_setter LocalInterface_eta lif_vlan_count. Defined.
#[global] Instance set_lif_master_ifindex : Settable lif_master_ifindex. Proof. make_setter LocalInterface_eta lif_master_ifindex. Defined.
#[global] Instance set_lif_vlan_tree : Settable lif_vlan_tree. Proof. make_setter LocalInterface_eta lif_vlan_tree. Defined.

(** [struct PeerInterface] *)
Record PeerInterface : Type := mkPeerInterface {
  pif_ifindex : Z;
  pif_type : Z;
  pif_name : list Z  (** [char [20]] *);
  pif_mac_addr : list Z;
  pif_state : Z;
  pif_ipv4_addr : Z;
  pif_l3_mode : Z;
  pif_is_peer_link : Z;
  pif_po_id : Z;
  pif_po_active : Z;
  pif_csm : ptr;
  pif_vlan_tree : list VLAN_ID
}.

Definition PeerInterface_eta (r : PeerInterface) : PeerInterface :=
    mkPeerInterface (pif_ifindex r) (pif_type r) (pif_name r) (pif_mac_addr r) (pif_state r)
    (pif_ipv4_addr r) (pif_l3_mode r) (pif_is_peer_link r) (pif_po_id r) (pif_po_active r)
    (pif_csm r) (pif_vlan_tree r).
#[global] Instance set_pif_ifindex : Settable pif_ifindex. Proof. make_setter PeerInterface_eta pif_ifindex. Defined.
#[global] Instance set_pif_type : Settable pif_type. Proof. make_setter PeerInterface_eta pif_type. Defined.
#[global] Instance set_pif_name : Settable pif_name. Proof. make_setter PeerInterface_eta pif_name. Defined.
#[global] Instance set_pif_mac_addr : Settable pif_mac_addr. Proof. make_setter PeerInterface_eta pif_mac_addr. Defined.
#[global] Instance set_pif_state : Settable pif_state. Proof. make_setter PeerInterface_eta pif_state. Defined.
#[global] Instance set_pif_ipv4_addr : Settable pif_ipv4_addr. Proof. make_setter PeerInterface_eta pif_ipv4_addr. Defined.
#[global] Instance set_pif_l3_mode : Settable pif_l3_mode. Proof. make_setter PeerInterface_eta pif_l3_mode. Defined.
#[global] Instance set_pif_is_peer_link : Settable pif_is_peer_link. Proof. make_setter PeerInterface_eta pif_is_peer_link. Defined.
#[global] Instance set_pif_po_id : Settable pif_po_id. Proof. make_setter PeerInterface_eta pif_po_id. Defined.
#[global] Instance set_pif_po_active : Settable pif_po_active. Proof. make_setter PeerInterface_eta pif_po_active. Defined.
#[global] Instance set_pif_csm : Settable pif_csm. Proof. make_setter PeerInterface_eta pif_csm. Defined.
#[global] Instance set_pif_vlan_tree : Settable pif_vlan_tree. Proof. make_setter PeerInterface_eta pif_vlan_tree. Defined.

(** [struct System] *)
Record System : Type := mkSystem {
  server_fd : Z;
  sync_fd : Z;
  sync_ctrl_fd : Z;
  sig_pipe_r : Z;
  warmboot_start : Z;
  warmboot_exit : Z;
  csm_list : list ptr;
  sys_lif_list : list ptr;
  sys_lif_purge_list : list ptr;
  unq_ip_if_list : list (list Z);
  pending_vlan_mbr_if_list : list (list Z * list VLAN_ID)  (** [struct PendingVlanMbrIf] *);
  readfd : gset Z  (** [fd_set readfd] *);
  readfd_count : Z;
  csm_trans_time : Z;
  peer_link_down_counter : Z;
  rx_peer_invalid_msg_counter : Z;
  rx_peer_hdr_read_sock_err_counter : Z;
  rx_peer_hdr_read_sock_zero_len_counter : Z;
  rx_peer_tlv_read_sock_err_counter : Z;
  rx_peer_tlv_read_sock_zero_len_counter : Z;
  rx_retry_max_counter : Z;
  rx_retry_total_counter : Z;
  rx_retry_fail_counter : Z;
  socket_cleanup_counter : Z;
  socket_close_err_counter : Z;
  session_down_counter : Z;
  warmboot_counter : Z;
  rx_read_sock_zero_len_counter : Z;
  netlink_counters : gmap Z Z  (** the netlink message counters of [dbg_counters], by position *);
  need_sync_team_again : Z;
  need_sync_netlink_again : Z;
  syncd_tx_counters : gmap (Z * Z) Z  (** [dbg_counters.syncd_tx_counters] *);
  syncd_rx_counters : gmap (Z * Z) Z  (** [dbg_counters.syncd_rx_counters] *)
}.

Definition System_eta (r : System) : System :=
    mkSystem (server_fd r) (sync_fd r) (sync_ctrl_fd r) (sig_pipe_r r) (warmboot_start r) (warmboot_exit r)
    (csm_list r) (sys_lif_list r) (sys_lif_purge_list r) (unq_ip_if_list r)
    (pending_vlan_mbr_if_list r) (readfd r) (readfd_count r) (csm_trans_time r)
    (peer_link_down_counter r) (rx_peer_invalid_msg_counter r)
    (rx_peer_hdr_read_sock_err_counter r) (rx_peer_hdr_read_sock_zero_len_counter r)
    (rx_peer_tlv_read_sock_err_counter r) (rx_peer_tlv_read_sock_zero_len_counter r)
    (rx_retry_max_counter r) (rx_retry_total_counter r) (rx_retry_fail_counter r)
    (socket_cleanup_counter r) (socket_close_err_counter r) (session_down_counter r)
    (warmboot_counter r) (rx_read_sock_zero_len_counter r) (netlink_counters r)
    (need_sync_team_again r) (need_sync_netlink_again r) (syncd_tx_counters r)
    (syncd_rx_counters r).
#[global] Instance set_server_fd : Settable server_fd. Proof. make_setter System_eta server_fd. Defined.
#[global] Instance set_sync_fd : Settable sync_fd. Proof. make_setter System_eta sync_fd. Defined.
#[global] Instance set_sync_ctrl_fd : Settable sync_ctrl_fd. Proof. make_setter System_eta sync_ctrl_fd. Defined.
#[global] Instance set_sig_pipe_r : Settable sig_pipe_r. Proof. make_setter System_eta sig_pipe_r. Defined.
#[global] Instance set_warmboot_start : Settable warmboot_start. Proof. make_setter System_eta warmboot_start. Defined.
#[global] Instance set_warmboot_exit : Settable warmboot_exit. Proof. make_setter System_eta warmboot_exit. Defined.
#[global] Instance set_csm_list : Settable csm_list. Proof. make_setter System_eta csm_list. Defined.
#[global] Instance set_sys_lif_list : Settable sys_lif_list. Proof. make_setter System_eta sys_lif_list. Defined.
#[global] Instance set_sys_lif_purge_list : Settable sys_lif_purge_list. Proof. make_setter System_eta sys_lif_purge_list. Defined.
#[global] Instance set_unq_ip_if_list : Settable unq_ip_if_list. Proof. make_setter System_eta unq_ip_if_list. Defined.
#[global] Instance set_pending_vlan_mbr_if_list : Settable pending_vlan_mbr_if_list. Proof. make_setter System_eta pending_vlan_mbr_if_list. Defined.
#[global] Instance set_readfd : Settable readfd. Proof. make_setter System_eta readfd. Defined.
#[global] Instance set_readfd_count : Settable readfd_count. Proof. make_setter System_eta readfd_count. Defined.
#[global] Instance set_csm_trans_time : Settable csm_trans_time. Proof. make_setter System_eta csm_trans_time. Defined.
#[global] Instance set_peer_link_down_counter : Settable peer_link_down_counter. Proof. make_setter System_eta peer_link_down_counter. Defined.
#[global] Instance set_rx_peer_invalid_msg_counter : Settable rx_peer_invalid_msg_counter. Proof. make_setter System_eta rx_peer_invalid_msg_counter. Defined.
#[global] Instance set_rx_peer_hdr_read_sock_err_counter : Settable rx_peer_hdr_read_sock_err_counter. Proof. make_setter System_eta rx_peer_hdr_read_sock_err_counter. Defined.
#[global] Instance set_rx_peer_hdr_read_sock_zero_len_counter : Settable rx_peer_hdr_read_sock_zero_len_counter. Proof. make_setter System_eta rx_peer_hdr_read_sock_zero_len_counter. Defined.
#[global] Instance set_rx_peer_tlv_read_sock_err_counter : Settable rx_peer_tlv_read_sock_err_counter. Proof. make_setter System_eta rx_peer_tlv_read_sock_err_counter. Defined.
#[global] Instance set_rx_peer_tlv_read_sock_zero_len_counter : Settable rx_peer_tlv_read_sock_zero_len_counter. Proof. make_setter System_eta rx_peer_tlv_read_sock_zero_len_counter. Defined.
#[global] Instance set_rx_retry_max_counter : Settable rx_retry_max_counter. Proof. make_setter System_eta rx_retry_max_counter. Defined.
#[global] Instance set_rx_retry_total_counter : Settable rx_retry_total_counter. Proof. make_setter System_eta rx_retry_total_counter. Defined.
#[global] Instance set_rx_retry_fail_counter : Settable rx_retry_fail_counter. Proof. make_setter System_eta rx_retry_fail_counter. Defined.
#[global] Instance set_socket_cleanup_counter : Settable socket_cleanup_counter. Proof. make_setter System_eta socket_cleanup_counter. Defined.
#[global] Instance set_socket_close_err_counter : Settable socket_close_err_counter. Proof. make_setter System_eta socket_close_err_counter. Defined.
#[global] Instance set_session_down_counter : Settable session_down_counter. Proof. make_setter System_eta session_down_counter. Defined.
#[global] Instance set_warmboot_counter : Settable warmboot_counter. Proof. make_setter System_eta warmboot_counter. Defined.
#[global] Instance set_rx_read_sock_zero_len_counter : Settable rx_read_sock_zero_len_counter. Proof. make_setter System_eta rx_read_sock_zero_len_counter. Defined.
#[global] Instance set_netlink_counters : Settable netlink_counters. Proof. make_setter System_eta netlink_counters. Defined.
#[global] Instance set_need_sync_team_again : Settable need_sync_team_again. Proof. make_setter System_eta need_sync_team_again. Defined.
#[global] Instance set_need_sync_netlink_again : Settable need_sync_netlink_again. Proof. make_setter System_eta need_sync_netlink_again. Defined.
#[global] Instance set_syncd_tx_counters : Settable syncd_tx_counters. Proof. make_setter System_eta syncd_tx_counters. Defined.
#[global] Instance set_syncd_rx_counters : Settable syncd_rx_counters. Proof. make_setter System_eta syncd_rx_counters. Defined.

(** [struct LoggerConfig], the static configuration of [logger.c] *)
Record LoggerConfig : Type := mkLoggerConfig {
  console_log_enabled : Z;
  log_level : Z;
  logger_ready : Z  (** [init] *)
}.

Definition LoggerConfig_eta (r : LoggerConfig) : LoggerConfig :=
    mkLoggerConfig (console_log_enabled r) (log_level r) (logger_ready r).
#[global] Instance set_console_log_enabled : Settable console_log_enabled. Proof. make_setter LoggerConfig_eta console_log_enabled. Defined.
#[global] Instance set_log_level : Settable log_level. Proof. make_setter LoggerConfig_eta log_level. Defined.
#[global] Instance set_logger_ready : Settable logger_ready. Proof. make_setter LoggerConfig_eta logger_ready. Defined.

(** ** Calls to the outside

    What the daemon asks of the kernel, of the C library and of [mclagsyncd]. The
    replies come from [w_env], an arbitrary function of the history, so every
    theorem holds whatever the environment answers. *)

Inductive syscall : Type :=
| SysTime                                     (** [time(NULL)] *)
| SysMalloc (size : Z)                        (** [malloc]; reply [0] is [NULL] *)
| SysRealloc (size : Z)                       (** [realloc]; reply [0] is [NULL] *)
| SysWrite (fd : Z) (data : list Z)           (** [write]; reply [-1] is an error *)
| SysSend (fd : Z) (data : list Z)            (** [send(.., MSG_DONTWAIT)]; a reply [- e] below
                                                  [0] is the result [-1] with [errno == e] *)
| SysRecv (fd : Z) (len : Z) (flags : Z)      (** [recv]; errors as for [SysSend] *)
| SysRecvByte (fd : Z) (i : Z)                (** byte [i] of what the last [recv] or [read] returned *)
| SysSelect (fd : Z)                          (** [select] for reading: [-1], [0] at the timeout *)
| SysRead (fd : Z) (len : Z)                  (** [read]; its bytes are those of [SysRecvByte] *)
| SysUnixSocket                               (** [socket(AF_UNIX, SOCK_STREAM, 0)] *)
| SysUnlink (path : list Z)                   (** [unlink] *)
| SysUnixBind (fd : Z) (path : list Z) (len : Z)
                                              (** [bind] to a path, with the length of the address *)
| SysUnixConnect (fd : Z) (path : list Z) (len : Z)
                                              (** [connect] to a path *)
| SysSocket                                   (** [socket(PF_INET, SOCK_STREAM, 0)] *)
| SysBind (fd : Z) (ip : Z)                   (** [bind] to an address *)
| SysConnect (fd : Z) (ip : Z)                (** [connect] to the ICCP port of an address *)
| SysSetsockopt (fd : Z) (opt : Z)            (** [setsockopt] *)
| SysListen (fd : Z)                          (** [listen] *)
| SysAccept (fd : Z)                          (** [accept] *)
| SysPeerAddr (fd : Z)                        (** the address [accept] reported *)
| SysReadByte (fd : Z)                        (** [read] of one byte: the byte, or [-1] *)
| SysClose (fd : Z)                           (** [close] *)
| SysEpollAdd (fd : Z)                        (** [epoll_ctl(EPOLL_CTL_ADD)] *)
| SysEpollDel (fd : Z)                        (** [epoll_ctl(EPOLL_CTL_DEL)] *)
| SysSleep (sec : Z)                          (** [sleep] *)
| SysUsleep (usec : Z)                        (** [usleep] *)
| SysRand                                     (** [rand] *)
| SysSystem (cmd : list Z)                    (** [system(cmd)] *)
| NlLinkAddr (ifindex : Z) (mac : list Z)     (** [rtnl_link_change] of the hardware address *)
| NlLinkUp (ifindex : Z)                      (** [rtnl_link_change] with [IFF_UP] set *)
| NlLinkDown (ifindex : Z)                    (** [rtnl_link_change] with [IFF_UP] unset *)
| NlNeigh (family : Z) (ip : list Z) (add : Z) (mac : list Z) (ifindex : Z) (permanent : Z)
                                              (** [rtnl_neigh_add] or [rtnl_neigh_delete] *)
| NlMembers (ifindex : Z)                     (** the team query of [iccp_get_port_member_list] *)
| NlTeamIfindex                               (** the interface of the team message in reply *)
| NlTeamPorts                                 (** the number of its ports, negative without a list *)
| NlTeamPort (i : Z)                          (** the index of port [i], negative when it has none *)
| NlTeamRemoved (i : Z)                       (** whether port [i] is marked as removed *)
| NlHasAddr (family : Z) (ip : list Z) (ifindex : Z)
                                              (** [iccp_check_if_addr_from_netlink] *)
| SysArpAccept (ifname : list Z) (flag : Z)   (** [set_sys_arp_accept_flag] *)
| TreeParent (p : ptr)                        (** is the parent link of a linked tree node set? *)
| StackByte.                                  (** a byte of memory not yet written *)

Definition event : Type := (syscall * Z)%type.

(** The whole state: the system, the heaps, the globals, the environment *)
Record World : Type := mkWorld {
  w_sys : System;
  w_csms : gmap Z CSM;
  w_lifs : gmap Z LocalInterface;
  w_pifs : gmap Z PeerInterface;
  w_macs : gmap Z MACMsg;
  w_next : Z  (** the next address [malloc] hands out *);
  w_msg_id : Z  (** [ICCP_MSG_ID] *);
  w_csm_buf : list Z  (** [g_csm_buf] *);
  w_prev_state : Z  (** the static [prev_state] of [mlacp_fsm_transit] *);
  w_once_connected : Z  (** the static [once_connected] of [mlacp_peer_conn_handler] *);
  w_logger : LoggerConfig  (** the static [config] of [logger_get_configuration] *);
  w_env : list event → syscall → Z;
  w_trace : list event  (** the calls made so far, the last first *)
}.

Definition World_eta (r : World) : World :=
    mkWorld (w_sys r) (w_csms r) (w_lifs r) (w_pifs r) (w_macs r) (w_next r) (w_msg_id r)
    (w_csm_buf r) (w_prev_state r) (w_once_connected r) (w_logger r) (w_env r) (w_trace r).
#[global] Instance set_w_sys : Settable w_sys. Proof. make_setter World_eta w_sys. Defined.
#[global] Instance set_w_csms : Settable w_csms. Proof. make_setter World_eta w_csms. Defined.
#[global] Instance set_w_lifs : Settable w_lifs. Proof. make_setter World_eta w_lifs. Defined.
#[global] Instance set_w_pifs : Settable w_pifs. Proof. make_setter World_eta w_pifs. Defined.
#[global] Instance set_w_macs : Settable w_macs. Proof. make_setter World_eta w_macs. Defined.
#[global] Instance set_w_next : Settable w_next. Proof. make_setter World_eta w_next. Defined.
#[global] Instance set_w_msg_id : Settable w_msg_id. Proof. make_setter World_eta w_msg_id. Defined.
#[global] Instance set_w_csm_buf : Settable w_csm_buf. Proof. make_setter World_eta w_csm_buf. Defined.
#[global] Instance set_w_prev_state : Settable w_prev_state. Proof. make_setter World_eta w_prev_state. Defined.
#[global] Instance set_w_once_connected : Settable w_once_connected. Proof. make_setter World_eta w_once_connected. Defined.
#[global] Instance set_w_logger : Settable w_logger. Proof. make_setter World_eta w_logger. Defined.
#[global] Instance set_w_env : Settable w_env. Proof. make_setter World_eta w_env. Defined.
#[global] Instance set_w_trace : Settable w_trace. Proof. make_setter World_eta w_trace. Defined.
