(* ===== verification/Machine.v ===== *)
(** * Computations of the daemon

    The monad [W] of the modelled C functions: explicit state passing over the
    [World], with faults.  Accesses through pointers are [deref] and [update]
    of a heap; calls to the outside are [sys]. *)

From S2P Require Import Prelude CMem MsgFormat State.
#[local] Open Scope Z_scope.

Notation W := (M World).

(** ** Operations *)

Definition bad_ptr (p : ptr) : fault := if p =? NULL then NullDeref else DanglingDeref.

(** [*p] and [*p = f ( *p)] *)
Definition deref {T} (h : World → gmap Z T) (p : ptr) : W T := λ w,
  match h w !! p with
  | Some x => Ok x w
  | None => Fault (bad_ptr p)
  end.

Definition update {T} (h : World → gmap Z T) `{!Settable h} (p : ptr) (f : T → T) : W unit := λ w,
  match h w !! p with
  | Some x => Ok tt (set h <[p := f x]> w)
  | None => Fault (bad_ptr p)
  end.

(** [free(p)]: the object is gone. *)
Definition free {T} (h : World → gmap Z T) `{!Settable h} (p : ptr) : W unit := λ w,
  match h w !! p with
  | Some _ => Ok tt (set h (delete p) w)
  | None => Fault (bad_ptr p)
  end.

Definition sys (c : syscall) : W Z := λ w,
  let r := w_env w (w_trace w) c in Ok r (w <| w_trace ::= cons (c, r) |>).

Definition place {T} (h : World → gmap Z T) `{!Settable h} (x : T) : W ptr := λ w,
  Ok (w_next w) (set h <[w_next w := x]> (w <| w_next ::= Z.succ |>)).

(** [malloc] and initialisation of a new object; [NULL] when out of memory. *)
Definition alloc {T} (h : World → gmap Z T) `{!Settable h} (size : Z) (x : T) : W ptr :=
  r ← sys (SysMalloc size);
  if r =? 0 then mret NULL else place h x.

(** A buffer access that leaves the buffer is a fault. *)
Definition oob {A} (o : option A) : W A := from_option_or OutOfBounds o.

(** [htonl(ICCP_MSG_ID++)]: the value before the increment of the [uint32_t]. *)
Definition next_msg_id : W Z := λ w,
  Ok (w_msg_id w) (w <| w_msg_id ::= λ i, u32 (i + 1) |>).

Definition csm_upd (c : ptr) (f : CSM → CSM) : W unit := update w_csms c f.
Definition MLACP (x : CSM) : mLACP := mlacp (app_csm x).
Definition set_MLACP (f : mLACP → mLACP) (x : CSM) : CSM := x <| app_csm ::= set mlacp f |>.
Definition mlacp_upd (c : ptr) (f : mLACP → mLACP) : W unit := csm_upd c (set_MLACP f).
Definition info_upd (c : ptr) (f : IccpInfo → IccpInfo) : W unit := csm_upd c (set iccp_info f).

(** ** Reasoning principles *)

Section rules.
Context {T : Type} (h : World → gmap Z T).

Lemma deref_run p x w : h w !! p = Some x → deref h p w = Ok x w.
Proof. unfold deref. by intros ->. Qed.

Lemma update_run `{!Settable h} p f x w :
  h w !! p = Some x → update h p f w = Ok tt (set h <[p := f x]> w).
Proof. unfold update. by intros ->. Qed.

Lemma wp_deref p x (Q : T → World → Prop) w :
  h w !! p = Some x → Q x w → wp (deref h p) Q w.
Proof. intros H HQ. unfold wp. by rewrite (deref_run p x). Qed.

Lemma wp_update `{!Settable h} p f x (Q : unit → World → Prop) w :
  h w !! p = Some x → Q tt (set h <[p := f x]> w) → wp (update h p f) Q w.
Proof. intros H HQ. unfold wp. by rewrite (update_run p f x). Qed.

Lemma deref_null p w : h w !! NULL = None → p = NULL → deref h p w = Fault NullDeref.
Proof. intros H ->. unfold deref. by rewrite H. Qed.
End rules.

Lemma wp_oob {A} (o : option A) a (Q : A → World → Prop) w :
  o = Some a → Q a w → wp (oob o) Q w.
Proof. by intros ->. Qed.

Lemma wp_sys c (Q : Z → World → Prop) w :
  (let r := w_env w (w_trace w) c in Q r (w <| w_trace ::= cons (c, r) |>)) → wp (sys c) Q w.
Proof. done. Qed.

Lemma wp_next_msg_id (Q : Z → World → Prop) w :
  Q (w_msg_id w) (w <| w_msg_id ::= λ i, u32 (i + 1) |>) → wp next_msg_id Q w.
Proof. done. Qed.

(** One step of symbolic execution. *)
Ltac wp_step :=
  match goal with
  | |- wp (mbind _ _) _ _ => apply wp_bind
  | |- wp (mret _) _ _ => apply wp_ret
  | |- wp (gets _) _ _ => apply wp_gets
  | |- wp (modify _) _ _ => apply wp_modify
  | |- wp (when _ _) _ _ => apply wp_when
  | |- wp (sys _) _ _ => apply wp_sys; cbv zeta
  | |- wp next_msg_id _ _ => apply wp_next_msg_id
  | |- wp (deref _ _) _ _ => eapply wp_deref; [eassumption || (simpl; simplify_map_eq; done)|]
  | |- wp (update _ _ _) _ _ => eapply wp_update; [eassumption || (simpl; simplify_map_eq; done)|]
  | |- wp (csm_upd _ _) _ _ => unfold csm_upd
  | |- wp (mlacp_upd _ _) _ _ => unfold mlacp_upd
  | |- wp (info_upd _ _) _ _ => unfold info_upd
  end.

(** The same steps as equations, for functions whose whole result is computed. *)
Section run.
Context {A : Type}.

Lemma oob_bind {B} (o : option B) b (k : B → W A) w :
  o = Some b → (x ← oob o; k x) w = k b w.
Proof. by intros ->. Qed.

Lemma deref_bind {T} (h : World → gmap Z T) p x (k : T → W A) w :
  h w !! p = Some x → (y ← deref h p; k y) w = k x w.
Proof. intros H. by rewrite (bind_ok _ _ _ _ _ (deref_run h p x w H)). Qed.

Lemma update_bind {T} (h : World → gmap Z T) `{!Settable h} p f x (k : unit → W A) w :
  h w !! p = Some x → (y ← update h p f; k y) w = k tt (set h <[p := f x]> w).
Proof. intros H. by rewrite (bind_ok _ _ _ _ _ (update_run h p f x w H)). Qed.

Lemma next_msg_id_bind (k : Z → W A) w :
  (i ← next_msg_id; k i) w = k (w_msg_id w) (w <| w_msg_id ::= λ i, u32 (i + 1) |>).
Proof. done. Qed.

Lemma sys_bind c (k : Z → W A) w :
  (r ← sys c; k r) w
  = k (w_env w (w_trace w) c) (w <| w_trace ::= cons (c, w_env w (w_trace w) c) |>).
Proof. done. Qed.
End run.

Lemma bind_assoc {S A B C} (m : M S A) (k1 : A → M S B) (k2 : B → M S C) s :
  ((m ≫= k1) ≫= k2) s = (m ≫= (λ a, k1 a ≫= k2)) s.
Proof. unfold mbind, M_bind. by destruct (m s). Qed.

(** The world after one message identifier has been taken. *)
Definition bump_msg_id (w : World) : World := w <| w_msg_id ::= λ i, u32 (i + 1) |>.

(** The world with the state machine [c] replaced. *)
Definition csm_set (c : ptr) (x : CSM) (w : World) : World := w <| w_csms ::= <[c := x]> |>.

Lemma csm_set_lookup c x w : w_csms (csm_set c x w) !! c = Some x.
Proof. unfold csm_set. simpl. by rewrite lookup_insert_eq. Qed.

Lemma csm_set_set c x y w : csm_set c y (csm_set c x w) = csm_set c y w.
Proof. unfold csm_set, set, set_w_csms. simpl. by rewrite insert_insert_eq. Qed.

Lemma csm_set_id c x w : w_csms w !! c = Some x → csm_set c x w = w.
Proof. destruct w; unfold csm_set, set, set_w_csms; simpl. intros H. by rewrite insert_id. Qed.

Lemma csm_upd_run c f x w :
  w_csms w !! c = Some x → csm_upd c f w = Ok tt (csm_set c (f x) w).
Proof. apply update_run. Qed.

Lemma csm_upd_bind {A} c f x (k : unit → W A) w :
  w_csms w !! c = Some x → (y ← csm_upd c f; k y) w = k tt (csm_set c (f x) w).
Proof. intros H. by rewrite (bind_ok _ _ _ _ _ (csm_upd_run c f x w H)). Qed.

#[export] Hint Rewrite csm_set_lookup csm_set_set : csm.
#[export] Hint Resolve csm_set_lookup : core.

Lemma eqb_null c : c ≠ NULL → (c =? NULL) = false.
Proof. apply Z.eqb_neq. Qed.

(** ** The global message buffer

    [g_csm_buf] holds the message under construction. *)

(** [memset(g_csm_buf, 0, CSM_BUFFER_SIZE)] *)
Definition clear_csm_buf : W unit :=
  b ← gets w_csm_buf;
  b ← oob (memset0 CSM_BUFFER_SIZE b);
  modify (set w_csm_buf (λ _, b)).

(** A builder run on [g_csm_buf]; it returns the length of the message. *)
Definition in_csm_buf (f : list Z → nat → W (Z * list Z)) : W Z :=
  b ← gets w_csm_buf;
  '(len, b) ← f b CSM_BUFFER_SIZE;
  modify (set w_csm_buf (λ _, b));;
  mret len.

(** The bytes of an automatic variable before the first assignment. *)
Fixpoint uninit (n : nat) : W (list Z) :=
  match n with
  | O => mret []
  | S n' => b ← sys StackByte; l ← uninit n'; mret (u8 b :: l)
  end.

(** A string inside a received message: it extends to its terminator, at most to
    the end of the message. *)
Definition string_at (off : nat) (buf : list Z) : list Z := cstr (drop off buf).

(** * Equality of computations

    Two computations are the same when they have the same outcome from every state.
    The operations of the monad respect this equality, so that a computation can be
    rewritten inside another. *)

Definition weq {A} (m n : W A) : Prop := ∀ w, m w = n w.
Infix "≡w" := weq (at level 70, no associativity).

#[export] Instance weq_equiv A : Equivalence (@weq A).
Proof. split; [by intros m w|by intros m n H w|]. intros m n o H1 H2 w. by rewrite H1. Qed.

#[export] Instance bind_weq A B :
  Proper (pointwise_relation A weq ==> weq ==> weq) (@mbind W _ A B).
Proof. intros k1 k2 Hk m1 m2 Hm w. unfold mbind, M_bind. rewrite Hm. destruct (m2 w); [apply Hk|done]. Qed.

Lemma weq_bind {A B} (m n : W A) (k1 k2 : A → W B) : m ≡w n → (∀ a, k1 a ≡w k2 a) → m ≫= k1 ≡w n ≫= k2.
Proof. intros H1 H2. by apply bind_weq. Qed.

Lemma weq_bind_r {A B} (m : W A) (k1 k2 : A → W B) : (∀ a, k1 a ≡w k2 a) → m ≫= k1 ≡w m ≫= k2.
Proof. intros H. by apply weq_bind. Qed.

Lemma weq_assoc {A B C} (m : W A) (k1 : A → W B) (k2 : B → W C) :
  (m ≫= k1) ≫= k2 ≡w m ≫= (λ a, k1 a ≫= k2).
Proof. intros w. apply bind_assoc. Qed.

Lemma weq_when b (m n : W unit) : m ≡w n → when b m ≡w when b n.
Proof. by destruct b. Qed.

Lemma weq_foreach {A} (l : list A) (f g : A → W unit) :
  (∀ x, x ∈ l → f x ≡w g x) → mforeach l f ≡w mforeach l g.
Proof.
  induction l as [|x l IH]; intros H; simpl; [done|].
  apply weq_bind; [apply H; set_solver|]. intros _. apply IH. set_solver.
Qed.

Lemma weq_oob {A B} (o1 o2 : option A) (k1 k2 : A → W B) :
  o1 = o2 → (∀ a, k1 a ≡w k2 a) → oob o1 ≫= k1 ≡w oob o2 ≫= k2.
Proof. intros -> H. by apply weq_bind. Qed.

Lemma ret_bind {A B} (a : A) (k : A → W B) w : (mret a ≫= k) w = k a w.
Proof. done. Qed.
