(* ===== verification/Frame.v ===== *)
(** * What a computation leaves alone

    A step of the daemon touches one state machine among many, and a few of its
    members.  [spec le Q m] says of a computation [m], from whatever state and
    whatever the environment answers: it does not run out of fuel; if it returns,
    its result satisfies [Q], the global message buffer has kept its length, and
    every state machine that is still there was there before and is related to
    what it was by [le].  The rules compose, and [frame] applies them. *)

From S2P Require Import Prelude CMem CString MsgFormat State Machine.
#[local] Open Scope Z_scope.

Create HintDb frame.

(** ** The relation between states *)

Section relation.
Context (le : CSM → CSM → Prop).

Record kept (w w' : World) : Prop := {
  kept_buf : length (w_csm_buf w') = length (w_csm_buf w);
  kept_csms c x' : w_csms w' !! c = Some x' → ∃ x, w_csms w !! c = Some x ∧ le x' x
}.

Context `{!PreOrder le}.

#[export] Instance kept_preorder : PreOrder kept.
Proof.
  split.
  - intros w. split; [done|]. intros c x Hx. exists x. done.
  - intros w1 w2 w3 [B1 C1] [B2 C2]. split; [congruence|].
    intros c x3 H3. destruct (C2 _ _ H3) as (x2 & H2 & L2).
    destruct (C1 _ _ H2) as (x1 & H1 & L1). exists x1. split; [done|]. by etrans.
Qed.

Definition spec {A} (Q : A → Prop) (m : W A) : Prop := ∀ w,
  match m w with
  | Ok a w' => kept w w' ∧ Q a
  | Fault f => f ≠ OutOfFuel
  end.

(** ** Rules *)

Lemma spec_ret {A} (Q : A → Prop) a : Q a → spec Q (mret a).
Proof. intros HQ w. by split. Qed.

Lemma spec_bind {A B} (Q' : A → Prop) (Q : B → Prop) (m : W A) (k : A → W B) :
  spec Q' m → (∀ a, Q' a → spec Q (k a)) → spec Q (m ≫= k).
Proof.
  intros Hm Hk w. specialize (Hm w). unfold mbind, M_bind. destruct (m w) as [a w'|f]; [|done].
  destruct Hm as [K HQ]. specialize (Hk a HQ w'). destruct (k a w') as [b w''|f]; [|done].
  destruct Hk as [K' HQ']. split; [by etrans|done].
Qed.

Lemma spec_mono {A} (P Q : A → Prop) (m : W A) : spec P m → (∀ a, P a → Q a) → spec Q m.
Proof. intros Hm HPQ w. specialize (Hm w). destruct (m w); [|done]. destruct Hm. eauto. Qed.

Lemma spec_true {A} (Q : A → Prop) (m : W A) : spec Q m → spec (λ _, True) m.
Proof. intros H. by eapply spec_mono. Qed.

Lemma spec_fail {A} (Q : A → Prop) f : f ≠ OutOfFuel → spec Q (fail f).
Proof. intros Hf w. done. Qed.

Lemma spec_oob {A} (Q : A → Prop) (o : option A) : (∀ a, o = Some a → Q a) → spec Q (oob o).
Proof. intros HQ w. destruct o; simpl; [|done]. split; [done|]. by apply HQ. Qed.

Lemma spec_gets {A} (Q : A → Prop) (g : World → A) : (∀ w, Q (g w)) → spec Q (gets g).
Proof. intros HQ w. split; [done|apply HQ]. Qed.

Lemma spec_deref {T} (h : World → gmap Z T) p : spec (λ _, True) (deref h p).
Proof. intros w. unfold deref. destruct (h w !! p); [done|]. unfold bad_ptr. by destruct (p =? NULL). Qed.

Lemma spec_sys c : spec (λ _, True) (sys c).
Proof. intros w. split; [|done]. split; [done|]. intros p x H. by exists x. Qed.

Lemma spec_modify f :
  (∀ w, length (w_csm_buf (f w)) = length (w_csm_buf w)) → (∀ w, w_csms (f w) = w_csms w) →
  spec (λ _, True) (modify f).
Proof. intros Hb Hc w. split; [|done]. split; [apply Hb|]. rewrite Hc. intros p x H. by exists x. Qed.

Lemma bad_ptr_fuel p : bad_ptr p ≠ OutOfFuel.
Proof. unfold bad_ptr. by destruct (p =? NULL). Qed.

Lemma spec_update {T} (h : World → gmap Z T) `{!Settable h} p f :
  (∀ g w, length (w_csm_buf (set h g w)) = length (w_csm_buf w)) →
  (∀ g w, w_csms (set h g w) = w_csms w) →
  spec (λ _, True) (update h p f).
Proof.
  intros Hb Hc w. unfold update. destruct (h w !! p); [|apply bad_ptr_fuel].
  split; [|done]. split; [apply Hb|]. rewrite Hc. intros q y H. by exists y.
Qed.

Lemma spec_free {T} (h : World → gmap Z T) `{!Settable h} p :
  (∀ g w, length (w_csm_buf (set h g w)) = length (w_csm_buf w)) →
  (∀ g w, w_csms (set h g w) = w_csms w) →
  spec (λ _, True) (free h p).
Proof.
  intros Hb Hc w. unfold free. destruct (h w !! p); [|apply bad_ptr_fuel].
  split; [|done]. split; [apply Hb|]. rewrite Hc. intros q y H. by exists y.
Qed.

Lemma spec_place {T} (h : World → gmap Z T) `{!Settable h} x :
  (∀ g w, length (w_csm_buf (set h g w)) = length (w_csm_buf w)) →
  (∀ g w, w_csms (set h g w) = w_csms w) →
  spec (λ _, True) (place h x).
Proof.
  intros Hb Hc w. unfold place. split; [|done].
  split; [by rewrite Hb|]. rewrite Hc. intros q y H. by exists y.
Qed.

Lemma spec_csm_upd c f : (∀ x, le (f x) x) → spec (λ _, True) (csm_upd c f).
Proof.
  intros Hf w. unfold csm_upd, update. destruct (w_csms w !! c) as [x|] eqn:Hx; [|apply bad_ptr_fuel].
  split; [|done]. split; [done|]. intros q y. simpl. intros [[<- <-]|[Hne H]]%lookup_insert_Some.
  - by exists x.
  - by exists y.
Qed.

Lemma spec_free_csm c : spec (λ _, True) (free w_csms c).
Proof.
  intros w. unfold free. destruct (w_csms w !! c) as [x|] eqn:Hx; [|apply bad_ptr_fuel].
  split; [|done]. split; [done|]. intros q y. simpl. intros [_ H]%lookup_delete_Some. by exists y.
Qed.

Lemma spec_when b (m : W unit) : spec (λ _, True) m → spec (λ _, True) (when b m).
Proof. intros H. destruct b; [done|]. by apply spec_ret. Qed.

Lemma spec_mforeach {A} (l : list A) f :
  (∀ x, spec (λ _, True) (f x)) → spec (λ _, True) (mforeach l f).
Proof.
  intros Hf. induction l as [|x l IH]; simpl; [by apply spec_ret|].
  eapply spec_bind; [apply Hf|]. by intros ? _.
Qed.

Lemma spec_mforeach_break {A} (l : list A) f :
  (∀ x, spec (λ _, True) (f x)) → spec (λ _, True) (mforeach_break l f).
Proof.
  intros Hf. induction l as [|x l IH]; simpl; [by apply spec_ret|].
  eapply spec_bind; [apply Hf|]. intros [] _; [by apply spec_ret|done].
Qed.

(** The stores into a buffer keep its length. *)
Lemma spec_stores ss buf : spec (λ b, length b = length buf) (oob (apply_stores ss buf)).
Proof. apply spec_oob. intros b. apply apply_stores_length. Qed.

Lemma spec_memset0 n buf : spec (λ b, length b = length buf) (oob (memset0 n buf)).
Proof. apply spec_oob. intros b. apply put_length. Qed.

Lemma spec_clear_csm_buf : spec (λ _, True) clear_csm_buf.
Proof.
  intros w. unfold clear_csm_buf, mbind, M_bind, gets, oob, from_option_or, memset0.
  destruct (put 0 (replicate CSM_BUFFER_SIZE 0) (w_csm_buf w)) as [b|] eqn:Hb; [|done].
  apply put_length in Hb. split; [|done]. split; [done|]. intros c x H. by exists x.
Qed.

Lemma spec_in_csm_buf f :
  (∀ b, spec (λ r, length (snd r) = length b) (f b CSM_BUFFER_SIZE)) →
  spec (λ _, True) (in_csm_buf f).
Proof.
  intros Hf w. unfold in_csm_buf, mbind, M_bind, gets. specialize (Hf (w_csm_buf w) w).
  destruct (f (w_csm_buf w) CSM_BUFFER_SIZE w) as [[len b] w'|]; [|done].
  destruct Hf as [[Hb Hc] HQ]. split; [|done]. split; [done|]. exact Hc.
Qed.

Lemma spec_uninit n : spec (λ _, True) (uninit n).
Proof.
  induction n as [|n IH]; simpl; [by apply spec_ret|].
  eapply spec_bind; [apply spec_sys|]. intros b _. eapply spec_bind; [apply IH|]. intros l _. by apply spec_ret.
Qed.

(** The specification of the rest, after steps that were computed. *)
Lemma spec_from {A} (Q : A → Prop) m w w1 : kept w w1 → spec Q m →
  match m w1 with Ok a w' => kept w w' ∧ Q a | Fault f => f ≠ OutOfFuel end.
Proof. intros K H. specialize (H w1). destruct (m w1); [|done]. destruct H. split; [by etrans|done]. Qed.

Lemma kept_csm_set c x y w : w_csms w !! c = Some x → le y x → kept w (csm_set c y w).
Proof.
  intros Hx Hle. split; [done|]. intros q z. simpl.
  intros [[<- <-]|[_ H]]%lookup_insert_Some; [by exists x|by exists z].
Qed.

(** A computation that satisfies its specification does not run out of fuel,
    and leaves the buffer of messages with its length. *)
Lemma spec_fuel {A} (Q : A → Prop) m w : spec Q m → m w ≠ Fault OutOfFuel.
Proof. intros H E. specialize (H w). by rewrite E in H. Qed.

Lemma spec_ok {A} (Q : A → Prop) m w a w' : spec Q m → m w = Ok a w' → kept w w' ∧ Q a.
Proof. intros H E. specialize (H w). by rewrite E in H. Qed.
End relation.

(** ** Automation

    [frame_step] applies the rule of the head of the computation; a call of a
    function is closed by a lemma of the hint database [frame]. *)

Ltac frame_heap :=
  first [ apply spec_update | apply spec_free | apply spec_place ];
  first [ typeclasses eauto | intros; reflexivity ].

(** The prerequisites of a state-machine update. *)
Ltac frame_le := first [ typeclasses eauto | intros; simpl; try reflexivity; eauto with frame ].

Ltac frame_call := solve [ eauto 2 with frame | eapply spec_true; eauto 2 with frame ].

Ltac frame_step :=
  lazymatch goal with
  | |- PreOrder _ => typeclasses eauto
  | |- spec _ _ (mbind _ _) =>
      first [ eapply (spec_bind _ _); [ frame_call | intros ? ? ]
            | eapply (spec_bind _ (λ _, True)); [ | intros ? _ ] ]
  | |- spec _ _ (mret _) => apply spec_ret; try done
  | |- spec _ _ (fail _) => apply spec_fail; done
  | |- spec _ _ (gets _) => apply spec_gets; first [ typeclasses eauto | done ]
  | |- spec _ _ (deref _ _) => apply spec_deref
  | |- spec _ _ (sys _) => apply spec_sys
  | |- spec _ _ (oob _) => first [ frame_call | apply spec_oob; first [ typeclasses eauto | done ] ]
  | |- spec _ _ (when _ _) => apply spec_when
  | |- spec _ _ (mforeach _ _) => apply spec_mforeach; first [ typeclasses eauto | intros ? ]
  | |- spec _ _ (mforeach_break _ _) => apply spec_mforeach_break; first [ typeclasses eauto | intros ? ]
  | |- spec _ _ (csm_upd _ _) => apply spec_csm_upd; frame_le
  | |- spec _ _ (mlacp_upd _ _) => unfold mlacp_upd; apply spec_csm_upd; frame_le
  | |- spec _ _ (info_upd _ _) => unfold info_upd; apply spec_csm_upd; frame_le
  | |- spec _ _ (modify _) => apply spec_modify; first [ typeclasses eauto | intros; reflexivity ]
  | |- spec _ _ (free w_csms _) => apply spec_free_csm
  | |- spec _ _ (update _ _ _) => frame_heap
  | |- spec _ _ (free _ _) => frame_heap
  | |- spec _ _ (place _ _) => frame_heap
  | |- spec _ _ clear_csm_buf => apply spec_clear_csm_buf
  | |- spec _ _ (in_csm_buf _) => apply spec_in_csm_buf; intros ?
  | |- spec _ _ (uninit _) => apply spec_uninit
  | |- spec _ _ (if ?b then _ else _) => destruct b
  | |- spec _ _ (match ?x with _ => _ end) => destruct x
  | |- spec _ _ (let _ := _ in _) => cbv zeta
  | |- spec _ _ _ => frame_call
  end.

Ltac frame := intros; repeat frame_step.

(** ** Loops with a variant

    The outcome of a computation from one given state. *)

Definition post {A} (R : World → Prop) (o : outcome World A) : Prop :=
  match o with
  | Ok _ w' => R w'
  | Fault f => f ≠ OutOfFuel
  end.

Lemma post_bind {A B} le `{!PreOrder le} (Q : A → Prop) (m : W A) (k : A → W B) w R :
  spec le Q m → (∀ a w1, kept le w w1 → Q a → post R (k a w1)) → post R ((m ≫= k) w).
Proof.
  intros Hm Hk. specialize (Hm w). unfold mbind, M_bind. destruct (m w) as [a w1|f]; [|done].
  destruct Hm. by apply Hk.
Qed.

Lemma post_spec {A} le `{!PreOrder le} (Q : A → Prop) (m : W A) w0 w :
  spec le Q m → kept le w0 w → post (kept le w0) (m w).
Proof. intros Hm K. specialize (Hm w). destruct (m w); [|done]. destruct Hm. simpl. by etrans. Qed.

(** Two relations at once. *)
Definition both (le1 le2 : CSM → CSM → Prop) (x' x : CSM) : Prop := le1 x' x ∧ le2 x' x.

#[export] Instance both_preorder le1 le2 : PreOrder le1 → PreOrder le2 → PreOrder (both le1 le2).
Proof.
  intros [R1 T1] [R2 T2]. split; [by split|].
  intros x y z [] []. split; by etrans.
Qed.

Lemma kept_both le1 le2 w w' : kept (both le1 le2) w w' → kept le1 w w' ∧ kept le2 w w'.
Proof.
  intros [B C].
  split; (split; [done|]; intros c x' H; destruct (C c x' H) as (x & Hx & H1 & H2); by exists x).
Qed.
