(* ===== verification/IccpMsg.v ===== *)
(** * Building and sending ICCP messages ([iccp_csm.c], [app_csm.c])

    The messages of the connection state machine, written into a buffer as the C
    code writes them, and [iccp_csm_send], which logs a message in the ring of
    sent messages, writes it to the socket and counts it. *)

From S2P Require Import Prelude CMem MsgFormat State Machine.
#[local] Open Scope Z_scope.

(** ** Header stores *)

(** The members of [LDPHdr] at the start of a buffer, as every builder sets them. *)
Definition ldp_hdr_stores (msg_type msg_len id : Z) : list store :=
  [WBits 0 15 1 0x0;
   WBits 0 0 15 (htons msg_type);
   W16 (offsetof LDPHdr "msg_len") (htons (msg_len - MSG_L_INCLUD_U_BIT_MSG_T_L_FIELDS));
   W32 (offsetof LDPHdr "msg_id") (htonl id)].

(** [icc_parameter.u_bit = icc_parameter.f_bit = 0; icc_parameter.type = htons(type)] *)
Definition tlv_type_stores (type : Z) : list store :=
  [WBits (sizeof ICCHdr) 15 1 0; WBits (sizeof ICCHdr) 14 1 0;
   WBits (sizeof ICCHdr) 0 14 (htons type)].

(** [icc_parameter.len = htons(len)] *)
Definition tlv_len_store (len : Z) : store :=
  W16 (sizeof ICCHdr + offsetof ICCParameter "len") (htons len).

(** [iccp_csm_fill_icc_rg_id_tlv] *)
Definition rg_id_stores (rg : Z) : list store :=
  [W16 (sizeof LDPHdr + offsetof ICCRGIDTLV "type") (htons TLV_T_ICC_RG_ID);
   W16 (sizeof LDPHdr + offsetof ICCRGIDTLV "len") (htons TLV_L_ICC_RG_ID);
   W32 (sizeof LDPHdr + offsetof ICCRGIDTLV "icc_rg_id") (htonl rg)].

Definition iccp_csm_fill_icc_rg_id_tlv (c : ptr) (buf : list Z) : W (list Z) :=
  if c =? NULL then mret buf
  else csm ← deref w_csms c; oob (apply_stores (rg_id_stores (icc_rg_id (iccp_info csm))) buf).

(** ** The messages of the connection state machine *)

(** [iccp_csm_prepare_capability_msg] *)
Definition iccp_csm_prepare_capability_msg (c : ptr) (buf : list Z) (max_buf_size : nat)
  : W (Z * list Z) :=
  let cap := sizeof LDPHdr in
  let msg_len := Z.of_nat (sizeof LDPHdr + sizeof LDPICCPCapabilityTLV) in
  buf ← oob (memset0 max_buf_size buf);
  id ← next_msg_id;
  csm ← deref w_csms c;
  buf ← oob (apply_stores
    (ldp_hdr_stores MSG_T_CAPABILITY msg_len id ++
     [WBits cap 15 1 0x1;
      WBits cap 14 1 0x0;
      WBits cap 0 14 TLV_T_ICCP_CAPABILITY;
      WSwap16 cap;
      W16 (cap + offsetof ICCParameter "len") (htons TLV_L_ICCP_CAPABILITY);
      WBits (cap + sizeof ICCParameter) 15 1 (sender_capability_flag (iccp_info csm));
      WSwap16 (cap + sizeof ICCParameter);
      W8 (cap + offsetof LDPICCPCapabilityTLV "major_ver") 0x1;
      W8 (cap + offsetof LDPICCPCapabilityTLV "minior_ver") 0x0]) buf);
  mret (msg_len, buf).

(** [iccp_csm_prepare_nak_msg] *)
Definition iccp_csm_prepare_nak_msg (c : ptr) (buf : list Z) (max_buf_size : nat)
  : W (Z * list Z) :=
  let msg_len := Z.of_nat (sizeof ICCHdr + sizeof NAKTLV) in
  buf ← oob (memset0 max_buf_size buf);
  id ← next_msg_id;
  buf ← oob (apply_stores (ldp_hdr_stores MSG_T_NOTIFICATION msg_len id) buf);
  buf ← iccp_csm_fill_icc_rg_id_tlv c buf;
  csm ← deref w_csms c;
  let info := iccp_info csm in
  buf ← oob (apply_stores
    (tlv_type_stores TLV_T_NAK ++
     tlv_len_store 8 ::
     (if status_code info =? STATUS_CODE_U_ICCP_RG then
        [W32 (tlv_off NAKTLV "iccp_status_code") (htonl (status_code info));
         W32 (tlv_off NAKTLV "rejected_msg_id") (htonl (rejected_msg_id info))]
      else [])) buf);
  mret (msg_len, buf).

(** [iccp_csm_prepare_rg_connect_msg] *)
Definition iccp_csm_prepare_rg_connect_msg (c : ptr) (buf : list Z) (max_buf_size : nat)
  : W (Z * list Z) :=
  csm ← deref w_csms c;
  let name := sender_name (iccp_info csm) in
  let name_len := strlen name in
  let msg_len := Z.of_nat (sizeof ICCHdr + sizeof ICCParameter) + name_len in
  buf ← oob (memset0 max_buf_size buf);
  id ← next_msg_id;
  buf ← oob (apply_stores (ldp_hdr_stores MSG_T_RG_CONNECT msg_len id) buf);
  buf ← iccp_csm_fill_icc_rg_id_tlv c buf;
  buf ← oob (apply_stores
    (tlv_type_stores TLV_T_ICC_SENDER_NAME ++
     [tlv_len_store name_len;
      WB (tlv_off ICCSenderNameTLV "sender_name") (cstr name)]) buf);
  mret (msg_len, buf).

(** [iccp_csm_prepare_rg_disconnect_msg] *)
Definition iccp_csm_prepare_rg_disconnect_msg (c : ptr) (buf : list Z) (max_buf_size : nat)
  : W (Z * list Z) :=
  let msg_len := Z.of_nat (sizeof ICCHdr + sizeof DisconnectCodeTLV) in
  buf ← oob (memset0 max_buf_size buf);
  id ← next_msg_id;
  buf ← oob (apply_stores (ldp_hdr_stores MSG_T_RG_DISCONNECT msg_len id) buf);
  buf ← iccp_csm_fill_icc_rg_id_tlv c buf;
  csm ← deref w_csms c;
  buf ← oob (apply_stores
    (tlv_type_stores TLV_T_DISCONNECT_CODE ++
     [tlv_len_store 4;
      W32 (tlv_off DisconnectCodeTLV "iccp_status_code") (htonl (status_code (iccp_info csm)))]) buf);
  mret (msg_len, buf).

(** [iccp_csm_prepare_iccp_msg]: the message of the current state, [-1] for none. *)
Definition iccp_csm_prepare_iccp_msg (c : ptr) (buf : list Z) (max_buf_size : nat)
  : W (Z * list Z) :=
  if c =? NULL then mret (MCLAG_ERROR, buf)
  else
    csm ← deref w_csms c;
    match current_state csm with
    | ICCP_NONEXISTENT => mret (-1, buf)
    | ICCP_INITIALIZED => iccp_csm_prepare_capability_msg c buf max_buf_size
    | ICCP_CAPSENT => mret (-1, buf)
    | ICCP_CAPREC =>
        if status_code (iccp_info csm) >? 0x0
        then iccp_csm_prepare_nak_msg c buf max_buf_size
        else iccp_csm_prepare_rg_connect_msg c buf max_buf_size
    | ICCP_CONNECTING =>
        if status_code (iccp_info csm) >? 0x0
        then iccp_csm_prepare_nak_msg c buf max_buf_size
        else mret (-1, buf)
    | ICCP_OPERATIONAL =>
        if peer_rg_connect_flag (iccp_info csm) =? 0x0
        then iccp_csm_prepare_rg_disconnect_msg c buf max_buf_size
        else mret (-1, buf)
    end.

(** [app_csm_prepare_nak_msg] ([app_csm.c]) *)
Definition app_csm_prepare_nak_msg (c : ptr) (buf : list Z) (max_buf_size : nat)
  : W (Z * list Z) :=
  let msg_len := Z.of_nat (sizeof ICCHdr + sizeof NAKTLV) in
  buf ← oob (memset0 max_buf_size buf);
  id ← next_msg_id;
  buf ← oob (apply_stores (ldp_hdr_stores MSG_T_NOTIFICATION msg_len id) buf);
  buf ← iccp_csm_fill_icc_rg_id_tlv c buf;
  csm ← deref w_csms c;
  buf ← oob (apply_stores
    (tlv_type_stores TLV_T_NAK ++
     [tlv_len_store (Z.of_nat (sizeof NAKTLV) - 4);
      W32 (tlv_off NAKTLV "iccp_status_code") (htonl STATUS_CODE_ICCP_REJECTED_MSG);
      W32 (tlv_off NAKTLV "rejected_msg_id") (htonl (invalid_msg_id (app_csm csm)))]) buf);
  mret (msg_len, buf).

(** ** Sending *)

(** [MLACP_SET_ICCP_TX_DBG_COUNTER] and [MLACP_SET_ICCP_RX_DBG_COUNTER] *)
Definition ICCP_DBG_CNTR_DIR_TX : Z := 0.
Definition ICCP_DBG_CNTR_DIR_RX : Z := 1.
Definition ICCP_DBG_CNTR_STS_OK : Z := 0.
Definition ICCP_DBG_CNTR_STS_ERR : Z := 1.

Definition count_iccp (dir tlv_type status : Z) (m : mLACP) : mLACP :=
  let dbg_type := mlacp_fsm_iccp_to_dbg_msg_type tlv_type in
  if (dbg_type <? ICCP_DBG_CNTR_MSG_MAX) && (status <? 2)
  then m <| iccp_counters ::= λ t,
              <[(dbg_type, dir, status) := u64 (default 0 (t !! (dbg_type, dir, status)) + 1)]> t |>
  else m.

Definition MLACP_SET_ICCP_TX_DBG_COUNTER (c : ptr) (tlv_type status : Z) : W unit :=
  mlacp_upd c (count_iccp ICCP_DBG_CNTR_DIR_TX tlv_type status).
Definition MLACP_SET_ICCP_RX_DBG_COUNTER (c : ptr) (tlv_type status : Z) : W unit :=
  mlacp_upd c (count_iccp ICCP_DBG_CNTR_DIR_RX tlv_type status).

(** One step of the ring of sent messages. *)
Definition log_sent (e : MsgTypeSet) (l : MsgLog) : option MsgLog :=
  if bool_decide (0 ≤ log_end_index l < Z.of_nat (length (log_msg l))) then
    let i := log_end_index l + 1 in
    Some (mkMsgLog (<[Z.to_nat (log_end_index l) := e]> (log_msg l)) (if i >=? 128 then 0 else i))
  else None.

(** The header fields [iccp_csm_send] reads back from the message. *)
Definition sent_entry (buf : list Z) : option MsgTypeSet :=
  w0 ← rd16 0 buf;
  let msg_type := ntohs (bits_get w0 0 15) in
  let param := if msg_type =? MSG_T_CAPABILITY then sizeof LDPHdr else sizeof ICCHdr in
  id ← rd32 (offsetof LDPHdr "msg_id") buf;
  pw ← rd16 param buf;
  Some (mkMsgTypeSet (ntohl id) msg_type (ntohs (bits_get pw 0 14))).

(** [iccp_csm_send] *)
Definition iccp_csm_send (c : ptr) (buf : list Z) (msg_len : Z) : W Z :=
  if c =? NULL then mret MCLAG_ERROR
  else
    csm ← deref w_csms c;
    if (sock_fd csm <=? 0) || (msg_len <=? 0) then mret MCLAG_ERROR
    else
      e ← oob (sent_entry buf);
      log ← oob (log_sent e (msg_log csm));
      csm_upd c (set msg_log (λ _, log));;
      data ← oob (rd_bytes 0 (Z.to_nat msg_len) buf);
      rc ← sys (SysWrite (sock_fd csm) data);
      (if (rc <=? 0) || negb (rc =? msg_len)
       then MLACP_SET_ICCP_TX_DBG_COUNTER c (log_tlv e) ICCP_DBG_CNTR_STS_ERR
       else MLACP_SET_ICCP_TX_DBG_COUNTER c (log_tlv e) ICCP_DBG_CNTR_STS_OK);;
      mret rc.

(** [iccp_csm_init_msg]: a copy of the first [len] bytes of [data]. *)
Definition iccp_csm_init_msg (data : list Z) (len : Z) : W (option Msg) :=
  if len <=? 0 then mret None
  else
    r ← sys (SysMalloc 32);
    if r =? 0 then mret None
    else
      r ← sys (SysMalloc len);
      if r =? 0 then mret None
      else d ← oob (rd_bytes 0 (Z.to_nat len) data); mret (Some (mkMsg d len)).

(** ** The wire format

    What the builders leave in the buffer: big-endian headers and TLVs. *)

Definition ldp_header (type len id : Z) : list Z :=
  be16 type ++ be16 (len - MSG_L_INCLUD_U_BIT_MSG_T_L_FIELDS) ++ be32 id.
Definition rg_id_tlv (rg : Z) : list Z := be16 TLV_T_ICC_RG_ID ++ be16 TLV_L_ICC_RG_ID ++ be32 rg.
Definition icc_header (type len id rg : Z) : list Z := ldp_header type len id ++ rg_id_tlv rg.
Definition tlv_header (type len : Z) : list Z := be16 type ++ be16 len.

(** Give names to the first bytes of a buffer that is long enough. *)
Tactic Notation "explode" ident(buf) integer(n) :=
  do n (destruct buf as [|? buf]; [simpl in *; lia|]).

Ltac stores_cbn :=
  cbn [apply_stores apply_store put rd16 rd8 lookup list_lookup length Nat.leb Nat.add app take
       drop mbind option_bind le16 le32 replicate fst snd fmap option_fmap option_map].

Lemma ldp_hdr_run type len id buf :
  type mod 256 < 128 → Forall is_byte buf → (8 ≤ length buf)%nat →
  apply_stores (ldp_hdr_stores type len id) buf = Some (ldp_header type len id ++ drop 8 buf).
Proof.
  intros Ht Hb Hl. unfold ldp_hdr_stores. eval_layout.
  rewrite stores_1_15 by (lia || done). rewrite be16_type15 by done.
  unfold ldp_header. explode buf 8.
  cbn [apply_stores apply_store]. rewrite le16_be16, le32_be32. unfold be16, be32.
  stores_cbn. done.
Qed.

Lemma rg_id_run rg hdr buf :
  length hdr = 8%nat → (8 ≤ length buf)%nat →
  apply_stores (rg_id_stores rg) (hdr ++ buf) = Some (hdr ++ rg_id_tlv rg ++ drop 8 buf).
Proof.
  intros Hh Hl. unfold rg_id_stores. eval_layout. explode hdr 8. destruct hdr; [|done].
  explode buf 8. cbn [apply_stores apply_store]. rewrite !le16_be16, le32_be32.
  unfold rg_id_tlv, be16, be32. stores_cbn. done.
Qed.

Lemma tlv_type_run type hdr buf ss :
  type mod 256 < 64 → length hdr = 16%nat → (2 ≤ length buf)%nat → Forall is_byte (hdr ++ buf) →
  apply_stores (tlv_type_stores type ++ ss) (hdr ++ buf)
  = apply_stores ss (hdr ++ be16 type ++ drop 2 buf).
Proof.
  intros Ht Hh Hl Hb. unfold tlv_type_stores. eval_layout. cbn [app].
  rewrite stores_1_1_14 by (rewrite ?length_app; lia || done). rewrite be16_type14 by done.
  explode hdr 16. destruct hdr; [|done]. explode buf 2.
  unfold be16. stores_cbn. done.
Qed.

Lemma ldp_header_length type len id : length (ldp_header type len id) = 8%nat.
Proof. done. Qed.

Lemma icc_header_length type len id rg : length (icc_header type len id rg) = 16%nat.
Proof. done. Qed.

Lemma ldp_header_bytes type len id : Forall is_byte (ldp_header type len id).
Proof. unfold ldp_header. rewrite !Forall_app. eauto using be16_byte, be32_byte. Qed.

Lemma icc_header_bytes type len id rg : Forall is_byte (icc_header type len id rg).
Proof.
  unfold icc_header, rg_id_tlv. rewrite !Forall_app. eauto using be16_byte, be32_byte, ldp_header_bytes.
Qed.

#[export] Hint Resolve ldp_header_bytes icc_header_bytes : bytes.

(** The header of an ICC message written over any buffer. *)
Lemma icc_header_run c csm type len id buf w :
  w_csms w !! c = Some csm → c ≠ NULL → type mod 256 < 128 →
  Forall is_byte buf → (16 ≤ length buf)%nat →
  (buf' ← oob (apply_stores (ldp_hdr_stores type len id) buf);
   iccp_csm_fill_icc_rg_id_tlv c buf') w
  = Ok (icc_header type len id (icc_rg_id (iccp_info csm)) ++ drop 16 buf) w.
Proof.
  intros Hc Hn Ht Hb Hl. rewrite ldp_hdr_run by (done || lia).
  unfold mbind, M_bind, oob, from_option_or, mret, M_ret.
  unfold iccp_csm_fill_icc_rg_id_tlv. destruct (Z.eqb_spec c NULL); [done|].
  unfold mbind, M_bind. rewrite (deref_run _ _ _ _ Hc).
  rewrite rg_id_run by (rewrite ?length_drop; (done || lia)).
  unfold icc_header. rewrite drop_drop, <-app_assoc. done.
Qed.

(** The messages of the connection state machine as they appear on the wire. *)
Definition capability_wire (id flag : Z) : list Z :=
  ldp_header MSG_T_CAPABILITY 16 id ++ tlv_header 0x8700 TLV_L_ICCP_CAPABILITY
  ++ be16 (flag * 0x8000) ++ [1; 0].
Definition nak_wire (id rg status rejected : Z) : list Z :=
  icc_header MSG_T_NOTIFICATION 28 id rg ++ tlv_header TLV_T_NAK 8 ++ be32 status ++ be32 rejected.
Definition rg_connect_wire (id rg : Z) (name : list Z) : list Z :=
  icc_header MSG_T_RG_CONNECT (20 + Z.of_nat (length name)) id rg
  ++ tlv_header TLV_T_ICC_SENDER_NAME (Z.of_nat (length name)) ++ name.
Definition rg_disconnect_wire (id rg status : Z) : list Z :=
  icc_header MSG_T_RG_DISCONNECT 24 id rg ++ tlv_header TLV_T_DISCONNECT_CODE 4 ++ be32 status.

(** A builder leaves [wire] at the start of the cleared buffer. *)
Definition in_buffer (wire : list Z) (n : nat) : list Z := wire ++ replicate (n - length wire) 0.

Lemma capability_run c csm buf w :
  w_csms w !! c = Some csm → (16 ≤ length buf)%nat →
  sender_capability_flag (iccp_info csm) = 0 ∨ sender_capability_flag (iccp_info csm) = 1 →
  iccp_csm_prepare_capability_msg c buf (length buf) w
  = Ok (16, in_buffer (capability_wire (w_msg_id w) (sender_capability_flag (iccp_info csm)))
              (length buf)) (bump_msg_id w).
Proof.
  intros Hc Hl Hf. unfold iccp_csm_prepare_capability_msg. eval_layout.
  rewrite (oob_bind _ _ _ _ (memset0_all _ _ eq_refl)), next_msg_id_bind.
  rewrite (deref_bind w_csms c csm) by done.
  erewrite oob_bind; [unfold bump_msg_id; reflexivity|].
  rewrite (replicate_split 16) by done.
  rewrite apply_stores_prefix by (rewrite length_replicate; repeat constructor; simpl; lia).
  rewrite apply_stores_app, ldp_hdr_run by mem_side. cbn [mbind option_bind].
  rewrite apply_stores_suffix by (repeat constructor; simpl; lia).
  rewrite ldp_header_length. unfold in_buffer, capability_wire. rewrite <-!app_assoc.
  destruct Hf as [-> | ->]; done.
Qed.

(** The members of a TLV behind its type, on a cleared buffer. *)
Lemma tlv_run type hdr ss k n :
  type mod 256 < 64 → length hdr = 16%nat → Forall is_byte hdr → (2 + k ≤ n)%nat →
  Forall (λ s, 18 ≤ store_off s)%nat ss →
  Forall (λ s, store_end (shift_store 18 s) ≤ k)%nat ss →
  apply_stores (tlv_type_stores type ++ ss) (hdr ++ replicate n 0)
  = (λ b, hdr ++ be16 type ++ b ++ replicate (n - (2 + k)) 0)
      <$> apply_stores (shift_store 18 <$> ss) (replicate k 0).
Proof.
  intros Ht Hh Hb Hn Hoff Hend. rewrite tlv_type_run by mem_side.
  rewrite drop_replicate, app_assoc.
  assert (length (hdr ++ be16 type) = 18%nat) as Hl by (rewrite length_app, Hh; done).
  rewrite apply_stores_suffix by (rewrite Hl; done). rewrite Hl.
  rewrite (replicate_split k) by lia. rewrite apply_stores_prefix.
  2:{ rewrite length_replicate. rewrite Forall_fmap. done. }
  destruct (apply_stores _ (replicate k 0)); [|done]. simpl. f_equal.
  rewrite <-!app_assoc. simpl. do 5 f_equal. lia.
Qed.

(** Compare what the stores of a builder leave with the wire format. *)
Ltac wire_eq :=
  unfold in_buffer, icc_header, ldp_header, rg_id_tlv, tlv_header;
  cbn [fmap list_fmap shift_store]; eval_layout; cbn [apply_stores apply_store];
  be_vars; stores_cbn; rewrite <-?Nat.sub_add_distr; eval_layout; reflexivity.

Ltac store_side :=
  unfold tlv_len_store; eval_layout;
  repeat (apply Forall_cons_2; [simpl; lia|]); apply Forall_nil_2.

(** The first steps of every ICC message builder: clear the buffer, take an
    identifier, write the header. *)
Lemma icc_prefix_run {A} c csm type len buf (k : list Z → W A) w :
  w_csms w !! c = Some csm → c ≠ NULL → type mod 256 < 128 → (16 ≤ length buf)%nat →
  (b ← oob (memset0 (length buf) buf);
   id ← next_msg_id;
   b ← oob (apply_stores (ldp_hdr_stores type len id) b);
   b ← iccp_csm_fill_icc_rg_id_tlv c b;
   k b) w
  = k (icc_header type len (w_msg_id w) (icc_rg_id (iccp_info csm)) ++ replicate (length buf - 16) 0)
      (bump_msg_id w).
Proof.
  intros Hc Hn Ht Hl.
  rewrite (oob_bind _ _ _ _ (memset0_all _ _ eq_refl)), next_msg_id_bind.
  rewrite <-bind_assoc. erewrite bind_ok by (apply icc_header_run; mem_side).
  by rewrite drop_replicate.
Qed.

Lemma nak_run c csm buf w :
  w_csms w !! c = Some csm → c ≠ NULL → (28 ≤ length buf)%nat →
  status_code (iccp_info csm) = STATUS_CODE_U_ICCP_RG →
  iccp_csm_prepare_nak_msg c buf (length buf) w
  = Ok (28, in_buffer (nak_wire (w_msg_id w) (icc_rg_id (iccp_info csm)) STATUS_CODE_U_ICCP_RG
                         (rejected_msg_id (iccp_info csm))) (length buf)) (bump_msg_id w).
Proof.
  intros Hc Hn Hl Hs. unfold iccp_csm_prepare_nak_msg. eval_layout.
  rewrite (icc_prefix_run c csm) by (done || lia).
  rewrite (deref_bind w_csms c csm) by done. cbv zeta. rewrite Hs, Z.eqb_refl.
  erewrite oob_bind; [reflexivity|]. unfold tlv_len_store. eval_layout.
  rewrite (tlv_run _ _ _ 10) by (mem_side || store_side).
  unfold nak_wire. wire_eq.
Qed.

Lemma rg_disconnect_run c csm buf w :
  w_csms w !! c = Some csm → c ≠ NULL → (24 ≤ length buf)%nat →
  iccp_csm_prepare_rg_disconnect_msg c buf (length buf) w
  = Ok (24, in_buffer (rg_disconnect_wire (w_msg_id w) (icc_rg_id (iccp_info csm))
                         (status_code (iccp_info csm))) (length buf)) (bump_msg_id w).
Proof.
  intros Hc Hn Hl. unfold iccp_csm_prepare_rg_disconnect_msg. eval_layout.
  rewrite (icc_prefix_run c csm) by (done || lia).
  rewrite (deref_bind w_csms c csm) by done.
  erewrite oob_bind; [reflexivity|]. unfold tlv_len_store. eval_layout.
  rewrite (tlv_run _ _ _ 6) by (mem_side || store_side).
  unfold rg_disconnect_wire. wire_eq.
Qed.

Lemma app_nak_run c csm buf w :
  w_csms w !! c = Some csm → c ≠ NULL → (28 ≤ length buf)%nat →
  app_csm_prepare_nak_msg c buf (length buf) w
  = Ok (28, in_buffer (nak_wire (w_msg_id w) (icc_rg_id (iccp_info csm))
                         STATUS_CODE_ICCP_REJECTED_MSG (invalid_msg_id (app_csm csm)))
                      (length buf)) (bump_msg_id w).
Proof.
  intros Hc Hn Hl. unfold app_csm_prepare_nak_msg. eval_layout.
  rewrite (icc_prefix_run c csm) by (done || lia).
  rewrite (deref_bind w_csms c csm) by done.
  erewrite oob_bind; [reflexivity|]. unfold tlv_len_store. eval_layout.
  rewrite (tlv_run _ _ _ 10) by (mem_side || store_side).
  unfold nak_wire. wire_eq.
Qed.

(** The sender name is copied behind the TLV header. *)
Lemma put_name a b name :
  put 2 name (a :: b :: drop 0 (replicate (length name) 0)) = Some (a :: b :: name).
Proof.
  rewrite drop_0, put_ok by (simpl; rewrite length_replicate; lia).
  simpl. by rewrite drop_ge, app_nil_r by (rewrite length_replicate; lia).
Qed.

Lemma rg_connect_run c csm buf w :
  w_csms w !! c = Some csm → c ≠ NULL →
  (20 + length (cstr (sender_name (iccp_info csm))) ≤ length buf)%nat →
  iccp_csm_prepare_rg_connect_msg c buf (length buf) w
  = Ok (20 + strlen (sender_name (iccp_info csm)),
        in_buffer (rg_connect_wire (w_msg_id w) (icc_rg_id (iccp_info csm))
                     (cstr (sender_name (iccp_info csm)))) (length buf)) (bump_msg_id w).
Proof.
  intros Hc Hn Hl. unfold iccp_csm_prepare_rg_connect_msg, strlen.
  set (name := cstr (sender_name (iccp_info csm))) in *. eval_layout.
  rewrite (deref_bind w_csms c csm) by done. cbv zeta. fold name.
  rewrite (icc_prefix_run c csm) by (done || lia).
  erewrite oob_bind; [reflexivity|]. unfold tlv_len_store. eval_layout.
  rewrite (tlv_run _ _ _ (2 + length name)) by (mem_side || store_side).
  cbn [fmap list_fmap shift_store]. eval_layout. cbn [apply_stores apply_store replicate Nat.add].
  unfold rg_connect_wire, in_buffer, icc_header, ldp_header, rg_id_tlv, tlv_header. be_vars.
  stores_cbn. rewrite put_name. stores_cbn. by rewrite <-Nat.sub_add_distr.
Qed.
