(* ===== verification/IccpQueue.v ===== *)
(** * Receiving ICCP messages ([iccp_csm.c], [app_csm.c], [mlacp_fsm.c])

    A received message is classified by [iccp_csm_enqueue_msg] and
    [app_csm_enqueue_msg] into the queue of the connection, of the application or
    of mLACP, converting the bit-field units it inspects to host order in place;
    the connection machine then handles the messages of its own queue. *)

From S2P Require Import Prelude CMem MsgFormat State Machine IccpMsg.
#[local] Open Scope Z_scope.

(** ** Queues *)

(** [mlacp_enqueue_msg] and [mlacp_dequeue_msg] ([mlacp_fsm.c]) *)
Definition mlacp_enqueue_msg (c : ptr) (msg : option Msg) : W unit :=
  if c =? NULL then mret tt
  else match msg with
       | None => mret tt
       | Some m => mlacp_upd c (set mlacp_msg_list (λ l, l ++ [m]))
       end.

Definition mlacp_dequeue_msg (c : ptr) : W (option Msg) :=
  csm ← deref w_csms c;
  match mlacp_msg_list (MLACP csm) with
  | [] => mret None
  | m :: l => mlacp_upd c (set mlacp_msg_list (λ _, l));; mret (Some m)
  end.

(** The entry of the sent-message log with a given identifier, the first one. *)
Definition log_find (id : Z) (l : MsgLog) : option MsgTypeSet :=
  snd <$> list_find (λ e, log_msg_id e = id) (log_msg l).

(** [app_csm_enqueue_msg] *)
Definition app_csm_enqueue_msg (c : ptr) (msg : option Msg) : W unit :=
  if c =? NULL then mret tt
  else match msg with
  | None => mret tt
  | Some m =>
      buf ← oob (apply_stores [WSwap16 (sizeof ICCHdr)] (msg_buf m));
      let m := m <| msg_buf := buf |> in
      w0 ← oob (rd16 0 buf);
      pw ← oob (rd16 (sizeof ICCHdr) buf);
      let msg_type := bits_get w0 0 15 in
      let param_type := bits_get pw 0 14 in
      let to_app := csm_upd c (set app_csm (set app_msg_list (λ l, l ++ [m]))) in
      if msg_type =? MSG_T_RG_APP_DATA then
        if (param_type >? TLV_T_MLACP_CONNECT) && (param_type <? TLV_T_MLACP_LIST_END)
        then mlacp_enqueue_msg c (Some m)
        else to_app
      else if msg_type =? MSG_T_NOTIFICATION then
        rej ← oob (rd32 (tlv_off NAKTLV "rejected_msg_id") buf);
        csm ← deref w_csms c;
        let tlv := default (-1) (log_tlv <$> log_find (ntohl rej) (msg_log csm)) in
        if (tlv >? TLV_T_MLACP_CONNECT) && (tlv <=? TLV_T_MLACP_MAC_INFO)
        then mlacp_enqueue_msg c (Some m)
        else to_app
      else mret tt
  end.

(** [app_csm_dequeue_msg] *)
Definition app_csm_dequeue_msg (c : ptr) : W (option Msg) :=
  csm ← deref w_csms c;
  match app_msg_list (app_csm csm) with
  | [] => mret None
  | m :: l => csm_upd c (set app_csm (set app_msg_list (λ _, l)));; mret (Some m)
  end.

(** [iccp_csm_enqueue_msg] *)
Definition iccp_csm_enqueue_msg (c : ptr) (msg : option Msg) : W unit :=
  if c =? NULL then mret tt
  else match msg with
  | None => mret tt
  | Some m =>
      buf ← oob (apply_stores [WSwap16 0] (msg_buf m));
      let m := m <| msg_buf := buf |> in
      w0 ← oob (rd16 0 buf);
      let msg_type := bits_get w0 0 15 in
      let to_csm := csm_upd c (set msg_list (λ l, l ++ [m])) in
      if msg_type =? MSG_T_RG_APP_DATA then app_csm_enqueue_msg c (Some m)
      else if msg_type =? MSG_T_NOTIFICATION then
        rej ← oob (rd32 (tlv_off NAKTLV "rejected_msg_id") buf);
        csm ← deref w_csms c;
        let type := default (-1) (log_type <$> log_find (ntohl rej) (msg_log csm)) in
        if type =? MSG_T_RG_APP_DATA then app_csm_enqueue_msg c (Some m) else to_csm
      else to_csm
  end.

(** [iccp_csm_dequeue_msg] *)
Definition iccp_csm_dequeue_msg (c : ptr) : W (option Msg) :=
  csm ← deref w_csms c;
  match msg_list csm with
  | [] => mret None
  | m :: l => csm_upd c (set msg_list (λ _, l));; mret (Some m)
  end.

(** ** Handling the messages of the connection *)

(** [iccp_csm_check_id_from_msg]: compare the redundancy group of the sender with
    the configured one; a mismatch is recorded as the status to report. *)
Definition iccp_csm_check_id_from_msg (c : ptr) (m : Msg) : W unit :=
  if c =? NULL then mret tt
  else
    w0 ← oob (rd16 0 (msg_buf m));
    if bits_get w0 0 15 =? MSG_T_CAPABILITY then mret tt
    else
      rg ← oob (rd32 (sizeof LDPHdr + offsetof ICCRGIDTLV "icc_rg_id") (msg_buf m));
      csm ← deref w_csms c;
      let info := iccp_info csm in
      if ntohl rg =? icc_rg_id info then
        when (status_code info =? STATUS_CODE_U_ICCP_RG)
          (info_upd c (λ i, i <| status_code := 0x0 |> <| rejected_msg_id := 0x0 |>))
      else
        info_upd c (λ i, i <| status_code := STATUS_CODE_U_ICCP_RG |>
                           <| rejected_msg_id := ntohl rg |>).

(** [iccp_csm_correspond_from_capability_msg] *)
Definition iccp_csm_correspond_from_capability_msg (c : ptr) (m : Msg) : W unit :=
  let cap := sizeof LDPHdr in
  buf ← oob (apply_stores [WSwap16 cap; WSwap16 (cap + sizeof ICCParameter)] (msg_buf m));
  pw ← oob (rd16 cap buf);
  len ← oob (rd16 (cap + offsetof ICCParameter "len") buf);
  sw ← oob (rd16 (cap + sizeof ICCParameter) buf);
  major ← oob (rd8 (cap + offsetof LDPICCPCapabilityTLV "major_ver") buf);
  minior ← oob (rd8 (cap + offsetof LDPICCPCapabilityTLV "minior_ver") buf);
  when ((bits_get pw 15 1 =? 0x1) && (bits_get pw 14 1 =? 0x0)
        && (bits_get pw 0 14 =? TLV_T_ICCP_CAPABILITY)
        && (ntohs len =? TLV_L_ICCP_CAPABILITY)
        && (bits_get sw 15 1 =? 1) && (major =? 0x1) && (minior =? 0x0))
    (info_upd c (set peer_capability_flag (λ _, 0x1))).

(** [iccp_csm_correspond_from_rg_connect_msg] *)
Definition iccp_csm_correspond_from_rg_connect_msg (c : ptr) (m : Msg) : W unit :=
  buf ← oob (apply_stores [WSwap16 (sizeof ICCHdr)] (msg_buf m));
  pw ← oob (rd16 (sizeof ICCHdr) buf);
  when ((bits_get pw 15 1 =? 0x0) && (bits_get pw 14 1 =? 0x0)
        && (bits_get pw 0 14 =? TLV_T_ICC_SENDER_NAME))
    (info_upd c (set peer_rg_connect_flag (λ _, 0x1))).

(** [iccp_csm_correspond_from_rg_disconnect_msg] *)
Definition iccp_csm_correspond_from_rg_disconnect_msg (c : ptr) (m : Msg) : W unit :=
  buf ← oob (apply_stores [WSwap16 (sizeof ICCHdr)] (msg_buf m));
  pw ← oob (rd16 (sizeof ICCHdr) buf);
  len ← oob (rd16 (sizeof ICCHdr + offsetof ICCParameter "len") buf);
  code ← oob (rd32 (tlv_off DisconnectCodeTLV "iccp_status_code") buf);
  when ((bits_get pw 15 1 =? 0x0) && (bits_get pw 14 1 =? 0x0)
        && (bits_get pw 0 14 =? TLV_T_DISCONNECT_CODE)
        && (ntohs len =? TLV_L_DISCONNECT_CODE)
        && (ntohl code =? STATUS_CODE_ICCP_RG_REMOVED))
    (info_upd c (λ i, i <| sender_rg_connect_flag := 0x0 |> <| peer_rg_connect_flag := 0x0 |>)).

(** [iccp_csm_correspond_from_msg].  The pointer [nak] of the C code is
    [icc_hdr + sizeof(ICCHdr)] with [icc_hdr] of type [ICCHdr *], that is
    [sizeof(ICCHdr)] headers further; the debug message of the notification
    branch reads through it. *)
Definition nak_pointer_off : nat := (sizeof ICCHdr * sizeof ICCHdr)%nat.

Definition iccp_csm_correspond_from_msg (c : ptr) (m : Msg) : W unit :=
  if c =? NULL then mret tt
  else
    iccp_csm_check_id_from_msg c m;;
    w0 ← oob (rd16 0 (msg_buf m));
    let msg_type := bits_get w0 0 15 in
    if msg_type =? MSG_T_CAPABILITY then iccp_csm_correspond_from_capability_msg c m
    else if msg_type =? MSG_T_RG_CONNECT then iccp_csm_correspond_from_rg_connect_msg c m
    else if msg_type =? MSG_T_RG_DISCONNECT then iccp_csm_correspond_from_rg_disconnect_msg c m
    else if msg_type =? MSG_T_NOTIFICATION then
      _ ← oob (rd32 (nak_pointer_off + offsetof NAKTLV "iccp_status_code") (msg_buf m));
      _ ← sys (SysSleep 1);
      mret tt
    else if msg_type =? MSG_T_RG_APP_DATA then mret tt
    else csm_upd c (set u_msg_in_count (λ n, u64 (n + 1))).

(** ** Classification of received messages *)

(** A message of a mLACP TLV in host order, as it waits in the mLACP queue. *)
Definition app_data_host (len id rg type : Z) (body : list Z) : list Z :=
  (le16 MSG_T_RG_APP_DATA ++ drop 2 (icc_header MSG_T_RG_APP_DATA len id rg))
  ++ le16 type ++ body.

Definition app_data_wire (len id rg type : Z) (body : list Z) : list Z :=
  icc_header MSG_T_RG_APP_DATA len id rg ++ be16 type ++ body.

(** A message of the connection, with its first unit in host order. *)
Definition ldp_host (type : Z) (rest : list Z) : list Z := le16 type ++ rest.

Lemma apply_store_1 s b b' : apply_store s b = Some b' → apply_stores [s] b = Some b'.
Proof. simpl. by intros ->. Qed.

Lemma enqueue_app_data_run c csm len id rg type body n w :
  w_csms w !! c = Some csm → c ≠ NULL →
  TLV_T_MLACP_CONNECT < type < TLV_T_MLACP_LIST_END →
  iccp_csm_enqueue_msg c (Some (mkMsg (app_data_wire len id rg type body) n)) w
  = Ok tt (csm_set c (set_MLACP (set mlacp_msg_list
               (λ l, l ++ [mkMsg (app_data_host len id rg type body) n])) csm) w).
Proof.
  unfold TLV_T_MLACP_CONNECT, TLV_T_MLACP_LIST_END.
  intros Hc Hn Ht. unfold iccp_csm_enqueue_msg. rewrite eqb_null by done.
  set (hdr := drop 2 (icc_header MSG_T_RG_APP_DATA len id rg)).
  assert (app_data_wire len id rg type body = [] ++ be16 MSG_T_RG_APP_DATA ++ hdr ++ be16 type ++ body)
    as Hw by done. cbn [msg_buf]. rewrite Hw.
  rewrite (oob_bind _ _ _ _ (apply_store_1 _ _ _ (swap16_at [] MSG_T_RG_APP_DATA _ 0 eq_refl ltac:(done)))).
  cbv zeta.
  rewrite (oob_bind _ _ _ _ (rd16_le_at [] MSG_T_RG_APP_DATA _ 0 eq_refl ltac:(done))).
  change (bits_get MSG_T_RG_APP_DATA 0 15 =? MSG_T_RG_APP_DATA) with true. cbv iota.
  unfold app_csm_enqueue_msg. rewrite eqb_null by done.
  eval_layout. cbn [msg_buf set set_msg_buf Msg_eta].
  rewrite app_assoc, app_assoc. change ([] ++ ?l) with l.
  rewrite (oob_bind _ _ _ _ (apply_store_1 _ _ _ (swap16_at (le16 MSG_T_RG_APP_DATA ++ hdr) type body 16 eq_refl ltac:(lia)))).
  cbv zeta.
  erewrite oob_bind by (rewrite <-app_assoc; apply (rd16_le_at []); done).
  rewrite (oob_bind _ _ _ _ (rd16_le_at (le16 MSG_T_RG_APP_DATA ++ hdr) type body 16 eq_refl ltac:(lia))).
  change (bits_get MSG_T_RG_APP_DATA 0 15 =? MSG_T_RG_APP_DATA) with true. cbv iota.
  rewrite bits_get_0, Z.mod_small by lia.
  rewrite (proj2 (Z.gtb_lt _ _)), (proj2 (Z.ltb_lt _ _))
    by (unfold TLV_T_MLACP_CONNECT, TLV_T_MLACP_LIST_END; lia). cbv [andb].
  unfold mlacp_enqueue_msg. rewrite eqb_null by done.
  unfold mlacp_upd. by rewrite (csm_upd_run c _ csm).
Qed.

Lemma enqueue_own_run c csm type rest n w :
  w_csms w !! c = Some csm → c ≠ NULL → 0 ≤ type < 2 ^ 15 →
  type ≠ MSG_T_RG_APP_DATA → type ≠ MSG_T_NOTIFICATION →
  iccp_csm_enqueue_msg c (Some (mkMsg (be16 type ++ rest) n)) w
  = Ok tt (csm_set c (set msg_list (λ l, l ++ [mkMsg (ldp_host type rest) n]) csm) w).
Proof.
  intros Hc Hn Ht H1 H2. unfold iccp_csm_enqueue_msg. rewrite eqb_null by done. cbn [msg_buf].
  rewrite (oob_bind _ _ _ _ (apply_store_1 _ _ _ (swap16_at [] type rest 0 eq_refl ltac:(lia)))).
  cbv zeta. change ([] ++ ?l) with l.
  rewrite (oob_bind _ _ _ _ (rd16_le_at [] type rest 0 eq_refl ltac:(lia))).
  rewrite bits_get_0, Z.mod_small by lia.
  rewrite (proj2 (Z.eqb_neq _ _) H1), (proj2 (Z.eqb_neq _ _) H2).
  by rewrite (csm_upd_run c _ csm).
Qed.

(** ** Handling, on messages in host order *)

(** The effect of the group check on the connection's bookkeeping. *)
Definition check_id_info (rg : Z) (i : IccpInfo) : IccpInfo :=
  if rg =? icc_rg_id i then
    if status_code i =? STATUS_CODE_U_ICCP_RG
    then i <| status_code := 0x0 |> <| rejected_msg_id := 0x0 |> else i
  else i <| status_code := STATUS_CODE_U_ICCP_RG |> <| rejected_msg_id := rg |>.

Definition set_info (f : IccpInfo → IccpInfo) (x : CSM) : CSM := x <| iccp_info ::= f |>.

Lemma set_info_id x : set_info id x = x.
Proof. by destruct x. Qed.

Lemma set_info_ext f g x : f (iccp_info x) = g (iccp_info x) → set_info f x = set_info g x.
Proof. unfold set_info, set, set_iccp_info. by intros ->. Qed.

Lemma check_id_run c csm type hdr rg rest n w :
  w_csms w !! c = Some csm → c ≠ NULL → 0 ≤ type < 2 ^ 15 → type ≠ MSG_T_CAPABILITY →
  length hdr = 10%nat → 0 ≤ rg < 2 ^ 32 →
  iccp_csm_check_id_from_msg c (mkMsg (le16 type ++ hdr ++ be32 rg ++ rest) n) w
  = Ok tt (csm_set c (set_info (check_id_info rg) csm) w).
Proof.
  intros Hc Hn Ht H1 Hh Hrg. unfold iccp_csm_check_id_from_msg. rewrite eqb_null by done.
  cbn [msg_buf]. eval_layout.
  rewrite (oob_bind _ type) by (apply (rd16_le_at []); [done|lia]).
  rewrite bits_get_0, Z.mod_small, (proj2 (Z.eqb_neq _ _) H1) by lia.
  rewrite app_assoc.
  rewrite (oob_bind _ (htonl rg)) by (apply rd32_be_at; rewrite length_app, Hh; done).
  rewrite (deref_bind w_csms c csm) by done. cbv zeta. rewrite ntohl_htonl by done.
  destruct (rg =? icc_rg_id (iccp_info csm)) eqn:E1.
  - unfold when, info_upd. destruct (status_code (iccp_info csm) =? _) eqn:E2.
    + rewrite (csm_upd_run c _ csm) by done. do 2 f_equal. apply set_info_ext.
      unfold check_id_info. by rewrite E1, E2.
    + rewrite (set_info_ext _ id); [|unfold check_id_info; by rewrite E1, E2].
      rewrite set_info_id, csm_set_id by done. done.
  - unfold info_upd. rewrite (csm_upd_run c _ csm) by done. do 2 f_equal. apply set_info_ext.
    unfold check_id_info. by rewrite E1.
Qed.

Lemma correspond_capability_run c csm id flag n w :
  w_csms w !! c = Some csm → c ≠ NULL → flag = 0 ∨ flag = 1 →
  iccp_csm_correspond_from_msg c
    (mkMsg (ldp_host MSG_T_CAPABILITY (drop 2 (capability_wire id flag))) n) w
  = Ok tt (csm_set c (set_info (λ i, if flag =? 1 then i <| peer_capability_flag := 1 |> else i) csm) w).
Proof.
  intros Hc Hn Hf. unfold iccp_csm_correspond_from_msg. rewrite eqb_null by done.
  cbn [msg_buf].
  assert (iccp_csm_check_id_from_msg c
    (mkMsg (ldp_host MSG_T_CAPABILITY (drop 2 (capability_wire id flag))) n) w = Ok tt w) as Hchk.
  { unfold iccp_csm_check_id_from_msg. rewrite eqb_null by done. cbn [msg_buf].
    by rewrite (oob_bind _ MSG_T_CAPABILITY) by (apply (rd16_le_at []); done). }
  rewrite (bind_ok _ _ _ _ _ Hchk).
  rewrite (oob_bind _ MSG_T_CAPABILITY) by (apply (rd16_le_at []); done).
  change (bits_get MSG_T_CAPABILITY 0 15 =? MSG_T_CAPABILITY) with true. cbv zeta iota.
  unfold iccp_csm_correspond_from_capability_msg. eval_layout. cbn [msg_buf].
  assert (ldp_host MSG_T_CAPABILITY (drop 2 (capability_wire id flag))
    = (le16 MSG_T_CAPABILITY ++ be16 12 ++ be32 id) ++ be16 0x8700 ++ be16 4
      ++ be16 (flag * 0x8000) ++ [1; 0]) as -> by done.
  destruct (be32_form id) as (i0 & i1 & i2 & i3 & -> & _).
  destruct Hf as [-> | ->]; unfold when, info_upd.
  - rewrite (oob_bind _ [2;2;0;12;i0;i1;i2;i3;0;0x87;0;4;0;0;1;0]) by done.
    rewrite (set_info_ext _ Datatypes.id), set_info_id, csm_set_id by done. done.
  - rewrite (oob_bind _ [2;2;0;12;i0;i1;i2;i3;0;0x87;0;4;0;0x80;1;0]) by done.
    by rewrite <-(csm_upd_run c _ csm).
Qed.

(** The shape shared by the connect and disconnect messages in host order. *)
Lemma icc_host_shape type len id rg rest :
  ldp_host type (drop 2 (icc_header type len id rg ++ rest))
  = le16 type ++ (be16 (len - 4) ++ be32 id ++ be16 TLV_T_ICC_RG_ID ++ be16 TLV_L_ICC_RG_ID)
    ++ be32 rg ++ rest.
Proof. done. Qed.

Lemma icc_host_tlv type len id rg rest :
  ldp_host type (drop 2 (icc_header type len id rg ++ rest))
  = (le16 type ++ drop 2 (icc_header type len id rg)) ++ rest.
Proof. done. Qed.

Lemma correspond_rg_connect_run c csm id rg name n w :
  w_csms w !! c = Some csm → c ≠ NULL → 0 ≤ rg < 2 ^ 32 →
  iccp_csm_correspond_from_msg c
    (mkMsg (ldp_host MSG_T_RG_CONNECT (drop 2 (rg_connect_wire id rg name))) n) w
  = Ok tt (csm_set c (set_info (λ i, check_id_info rg i <| peer_rg_connect_flag := 1 |>) csm) w).
Proof.
  intros Hc Hn Hrg. unfold iccp_csm_correspond_from_msg. rewrite eqb_null by done.
  unfold rg_connect_wire.
  erewrite bind_ok by (rewrite icc_host_shape; eapply check_id_run; done). cbn [msg_buf].
  rewrite (oob_bind _ MSG_T_RG_CONNECT) by (apply (rd16_le_at []); done).
  change (bits_get MSG_T_RG_CONNECT 0 15) with MSG_T_RG_CONNECT.
  change (MSG_T_RG_CONNECT =? MSG_T_CAPABILITY) with false.
  change (MSG_T_RG_CONNECT =? MSG_T_RG_CONNECT) with true. cbv zeta iota.
  unfold iccp_csm_correspond_from_rg_connect_msg. cbn [msg_buf]. eval_layout.
  rewrite icc_host_tlv. unfold tlv_header. rewrite <-(app_assoc (be16 _)).
  erewrite oob_bind by (apply apply_store_1, swap16_at; done).
  rewrite (oob_bind _ TLV_T_ICC_SENDER_NAME) by (apply rd16_le_at; done).
  change (bits_get TLV_T_ICC_SENDER_NAME 0 14 =? TLV_T_ICC_SENDER_NAME) with true.
  unfold when, info_upd. change (_ && _ && true) with true. cbv iota.
  rewrite (csm_upd_run c _ _ _ (csm_set_lookup _ _ _)), csm_set_set.
  done.
Qed.

(** A disconnect message is honoured only with the status "RG removed". *)
Lemma correspond_rg_disconnect_run c csm id rg status n w :
  w_csms w !! c = Some csm → c ≠ NULL → 0 ≤ rg < 2 ^ 32 → 0 ≤ status < 2 ^ 32 →
  iccp_csm_correspond_from_msg c
    (mkMsg (ldp_host MSG_T_RG_DISCONNECT (drop 2 (rg_disconnect_wire id rg status))) n) w
  = Ok tt (csm_set c (set_info (λ i, let i := check_id_info rg i in
      if status =? STATUS_CODE_ICCP_RG_REMOVED
      then i <| sender_rg_connect_flag := 0 |> <| peer_rg_connect_flag := 0 |> else i) csm) w).
Proof.
  intros Hc Hn Hrg Hs. unfold iccp_csm_correspond_from_msg. rewrite eqb_null by done.
  unfold rg_disconnect_wire.
  erewrite bind_ok by (rewrite icc_host_shape; eapply check_id_run; done). cbn [msg_buf].
  rewrite (oob_bind _ MSG_T_RG_DISCONNECT) by (apply (rd16_le_at []); done).
  change (bits_get MSG_T_RG_DISCONNECT 0 15) with MSG_T_RG_DISCONNECT.
  change (MSG_T_RG_DISCONNECT =? MSG_T_CAPABILITY) with false.
  change (MSG_T_RG_DISCONNECT =? MSG_T_RG_CONNECT) with false.
  change (MSG_T_RG_DISCONNECT =? MSG_T_RG_DISCONNECT) with true. cbv zeta iota.
  unfold iccp_csm_correspond_from_rg_disconnect_msg. cbn [msg_buf]. eval_layout.
  rewrite icc_host_tlv. unfold tlv_header. rewrite <-(app_assoc (be16 _)).
  erewrite oob_bind by (apply apply_store_1, swap16_at; done).
  rewrite (oob_bind _ TLV_T_DISCONNECT_CODE) by (apply rd16_le_at; done).
  rewrite app_assoc. erewrite oob_bind by (apply rd16_be_at; done).
  rewrite app_assoc. rewrite (oob_bind _ (htonl status))
    by (rewrite <-(app_nil_r (be32 status)); apply rd32_be_at; done).
  rewrite ntohl_htonl by done. unfold when, info_upd.
  change (_ && _ && _ && _ && ?b) with b.
  destruct (status =? STATUS_CODE_ICCP_RG_REMOVED); [|done].
  by rewrite (csm_upd_run c _ _ _ (csm_set_lookup _ _ _)), csm_set_set.
Qed.
