(* ===== verification/SyncPrepare.v ===== *)
(** * Building mLACP messages ([mlacp_sync_prepare.c])

    Every message the mLACP application sends to the peer.  Each builder is the
    C function: the guards, the cleared buffer, the ICC header with the next
    message identifier, and the members of its TLV.  The theorems give the exact
    bytes left in the buffer. *)

From S2P Require Import Prelude CMem MsgFormat State Machine IccpMsg IccpQueue.
#[local] Open Scope Z_scope.

(** ** Builders *)

(** [mlacp_fill_icc_header] *)
Definition mlacp_fill_icc_header (c : ptr) (buf : list Z) (msg_len : Z) : W (Z * list Z) :=
  if c =? NULL then mret (MCLAG_ERROR, buf)
  else
    id ← next_msg_id;
    buf ← oob (apply_stores (ldp_hdr_stores MSG_T_RG_APP_DATA msg_len id) buf);
    buf ← iccp_csm_fill_icc_rg_id_tlv c buf;
    mret (0, buf).

(** A TLV of fixed layout: the common body of the builders. *)
Definition tlv_msg_len (tlv : struct) : Z := Z.of_nat (sizeof ICCHdr + sizeof tlv).

(** [mlacp_prepare_for_sync_request_tlv] *)
Definition mlacp_prepare_for_sync_request_tlv (c : ptr) (buf : list Z) (max_buf_size : nat)
  : W (Z * list Z) :=
  let msg_len := tlv_msg_len mLACPSyncReqTLV in
  if c =? NULL then mret (MCLAG_ERROR, buf)
  else if msg_len >? Z.of_nat max_buf_size then mret (MCLAG_ERROR, buf)
  else
    buf ← oob (memset0 max_buf_size buf);
    '(_, buf) ← mlacp_fill_icc_header c buf msg_len;
    let req := tlv_off mLACPSyncReqTLV "c_bit/s_bit/req_type" in
    buf ← oob (apply_stores
      (tlv_type_stores TLV_T_MLACP_SYNC_REQUEST ++
       [tlv_len_store (Z.of_nat (sizeof mLACPSyncReqTLV - sizeof ICCParameter));
        W16 (tlv_off mLACPSyncReqTLV "req_num") 0;
        WBits req 15 1 1; WBits req 14 1 1; WBits req 0 14 0x3FFF; WSwap16 req;
        W16 (tlv_off mLACPSyncReqTLV "port_num_agg_id") 0;
        W16 (tlv_off mLACPSyncReqTLV "actor_key") 0]) buf);
    mlacp_upd c (set sync_req_num (λ _, 0));;
    mret (msg_len, buf).

(** [mlacp_prepare_for_sync_data_tlv] *)
Definition mlacp_prepare_for_sync_data_tlv (c : ptr) (buf : list Z) (max_buf_size : nat) (end_ : Z)
  : W (Z * list Z) :=
  let msg_len := tlv_msg_len mLACPSyncDataTLV in
  if c =? NULL then mret (MCLAG_ERROR, buf)
  else if msg_len >? Z.of_nat max_buf_size then mret (MCLAG_ERROR, buf)
  else
    buf ← oob (memset0 max_buf_size buf);
    '(_, buf) ← mlacp_fill_icc_header c buf msg_len;
    csm ← deref w_csms c;
    buf ← oob (apply_stores
      (tlv_type_stores TLV_T_MLACP_SYNC_DATA ++
       [tlv_len_store (Z.of_nat (sizeof mLACPSyncDataTLV - sizeof ICCParameter));
        W16 (tlv_off mLACPSyncDataTLV "req_num") (htons (sync_req_num (MLACP csm)));
        W16 (tlv_off mLACPSyncDataTLV "flags") (if end_ =? 0 then 0x00 else htons 0x01)]) buf);
    mret (msg_len, buf).

(** [mlacp_prepare_for_sys_config] *)
Definition mlacp_prepare_for_sys_config (c : ptr) (buf : list Z) (max_buf_size : nat)
  : W (Z * list Z) :=
  let msg_len := tlv_msg_len mLACPSysConfigTLV in
  if c =? NULL then mret (MCLAG_ERROR, buf)
  else if msg_len >? Z.of_nat max_buf_size then mret (MCLAG_ERROR, buf)
  else
    buf ← oob (memset0 max_buf_size buf);
    '(_, buf) ← mlacp_fill_icc_header c buf msg_len;
    csm ← deref w_csms c;
    buf ← oob (apply_stores
      (tlv_type_stores TLV_T_MLACP_SYSTEM_CONFIG ++
       [tlv_len_store (Z.of_nat (sizeof mLACPSysConfigTLV - sizeof ICCParameter));
        WB (tlv_off mLACPSysConfigTLV "sys_id") (system_id (MLACP csm));
        W16 (tlv_off mLACPSysConfigTLV "sys_priority") (htons (system_priority (MLACP csm)));
        W8 (tlv_off mLACPSysConfigTLV "node_id") (node_id (MLACP csm))]) buf);
    mret (msg_len, buf).

(** [mlacp_prepare_for_Aggport_state] *)
Definition mlacp_prepare_for_Aggport_state (c : ptr) (buf : list Z) (max_buf_size : nat)
  (local_if : ptr) : W (Z * list Z) :=
  let msg_len := tlv_msg_len mLACPAggPortStateTLV in
  if c =? NULL then mret (MCLAG_ERROR, buf)
  else if local_if =? NULL then mret (MCLAG_ERROR, buf)
  else
    lif ← deref w_lifs local_if;
    if negb (lif_type lif =? IF_T_PORT_CHANNEL) then mret (MCLAG_ERROR, buf)
    else if msg_len >? Z.of_nat max_buf_size then mret (MCLAG_ERROR, buf)
    else
      buf ← oob (memset0 max_buf_size buf);
      '(_, buf) ← mlacp_fill_icc_header c buf msg_len;
      buf ← oob (apply_stores
        (tlv_type_stores TLV_T_MLACP_AGGREGATOR_STATE ++
         [tlv_len_store (Z.of_nat (sizeof mLACPAggPortStateTLV - sizeof ICCParameter));
          W16 (tlv_off mLACPAggPortStateTLV "partner_sys_priority") 0;
          W16 (tlv_off mLACPAggPortStateTLV "partner_key") 0;
          W16 (tlv_off mLACPAggPortStateTLV "agg_id") (htons (lif_po_id lif));
          W16 (tlv_off mLACPAggPortStateTLV "actor_key") 0;
          W8 (tlv_off mLACPAggPortStateTLV "agg_state") (lif_state lif)]) buf);
      mret (msg_len, buf).

(** [mlacp_prepare_for_Aggport_config] *)
Definition mlacp_prepare_for_Aggport_config (c : ptr) (buf : list Z) (max_buf_size : nat)
  (lif : ptr) (purge_flag : Z) : W (Z * list Z) :=
  let msg_len := tlv_msg_len mLACPAggConfigTLV in
  if c =? NULL then mret (MCLAG_ERROR, buf)
  else if msg_len >? Z.of_nat max_buf_size then mret (MCLAG_ERROR, buf)
  else
    buf ← oob (memset0 max_buf_size buf);
    '(_, buf) ← mlacp_fill_icc_header c buf msg_len;
    lif ← deref w_lifs lif;
    buf ← oob (apply_stores
      (tlv_type_stores TLV_T_MLACP_AGGREGATOR_CONFIG ++
       [tlv_len_store (Z.of_nat (sizeof mLACPAggConfigTLV - sizeof ICCParameter));
        W16 (tlv_off mLACPAggConfigTLV "agg_id") (htons (lif_po_id lif));
        W8 (tlv_off mLACPAggConfigTLV "flags") (if purge_flag =? 1 then 0x02 else 0x1);
        W8 (tlv_off mLACPAggConfigTLV "agg_name_len") (strlen (lif_name lif));
        WB (tlv_off mLACPAggConfigTLV "agg_name") (lif_name lif);
        WB (tlv_off mLACPAggConfigTLV "mac_addr") (lif_mac_addr lif)]) buf);
    mret (msg_len, buf).

(** [mlacp_prepare_for_mac_info_to_peer]: entry number [count] of a message under
    construction; the buffer is not cleared. *)
Definition mlacp_prepare_for_mac_info_to_peer (c : ptr) (buf : list Z) (max_buf_size : nat)
  (mac_msg : ptr) (count : nat) : W (Z * list Z) :=
  if c =? NULL then mret (MCLAG_ERROR, buf)
  else
    let tlv_len := (sizeof mLACPMACInfoTLV + sizeof mLACPMACData * (count + 1))%nat in
    let msg_len := (sizeof ICCHdr + tlv_len)%nat in
    if (max_buf_size <? msg_len)%nat then mret (MCLAG_ERROR, buf)
    else
      '(_, buf) ← mlacp_fill_icc_header c buf (Z.of_nat msg_len);
      mac ← deref w_macs mac_msg;
      let d := (sizeof ICCHdr + sizeof mLACPMACInfoTLV + sizeof mLACPMACData * count)%nat in
      buf ← oob (apply_stores
        ([tlv_len_store (Z.of_nat (tlv_len - sizeof ICCParameter));
          W16 (tlv_off mLACPMACInfoTLV "num_of_entry") (htons (Z.of_nat (count + 1)))] ++
         (if (count =? 0)%nat then tlv_type_stores TLV_T_MLACP_MAC_INFO else []) ++
         [W8 (d + offsetof mLACPMACData "type") (mac_op_type mac);
          W8 (d + offsetof mLACPMACData "mac_type") (mac_fdb_type mac);
          WB (d + offsetof mLACPMACData "mac_addr") (mac_addr mac);
          WB (d + offsetof mLACPMACData "ifname") (cstr (mac_origin_ifname mac) ++ [0]);
          W16 (d + offsetof mLACPMACData "vid") (htons (mac_vid mac))]) buf);
      mret (Z.of_nat msg_len, buf).

(** A field of the ARP or neighbour-discovery message [m]. *)
Definition field_u8 (s : struct) (name : string) (b : list Z) : W Z := oob (rd8 (offsetof s name) b).
Definition field_u32 (s : struct) (name : string) (b : list Z) : W Z := oob (rd32 (offsetof s name) b).
Definition field_bytes (s : struct) (name : string) (n : nat) (b : list Z) : W (list Z) :=
  oob (rd_bytes (offsetof s name) n b).

(** [mlacp_prepare_for_arp_info] *)
Definition mlacp_prepare_for_arp_info (c : ptr) (buf : list Z) (max_buf_size : nat)
  (arp_msg : list Z) (count : nat) : W (Z * list Z) :=
  if c =? NULL then mret (MCLAG_ERROR, buf)
  else
    let tlv_len := (sizeof mLACPARPInfoTLV + sizeof ARPMsg * (count + 1))%nat in
    let msg_len := (sizeof ICCHdr + tlv_len)%nat in
    if (max_buf_size <? msg_len)%nat then mret (MCLAG_ERROR, buf)
    else
      '(_, buf) ← mlacp_fill_icc_header c buf (Z.of_nat msg_len);
      op_type ← field_u8 ARPMsg "op_type" arp_msg;
      flag ← field_u8 ARPMsg "flag" arp_msg;
      ifname ← field_bytes ARPMsg "ifname" MAX_L_PORT_NAME arp_msg;
      ipv4_addr ← field_u32 ARPMsg "ipv4_addr" arp_msg;
      mac_addr ← field_bytes ARPMsg "mac_addr" ETHER_ADDR_LEN arp_msg;
      let d := (sizeof ICCHdr + sizeof mLACPARPInfoTLV + sizeof ARPMsg * count)%nat in
      buf ← oob (apply_stores
        ([tlv_len_store (Z.of_nat (tlv_len - sizeof ICCParameter));
          W16 (tlv_off mLACPARPInfoTLV "num_of_entry") (htons (Z.of_nat (count + 1)))] ++
         (if (count =? 0)%nat then tlv_type_stores TLV_T_MLACP_ARP_INFO else []) ++
         [W8 (d + offsetof ARPMsg "op_type") op_type;
          W8 (d + offsetof ARPMsg "flag") flag;
          WB (d + offsetof ARPMsg "ifname") (cstr ifname ++ [0]);
          W32 (d + offsetof ARPMsg "ipv4_addr") ipv4_addr;
          WB (d + offsetof ARPMsg "mac_addr") mac_addr]) buf);
      mret (Z.of_nat msg_len, buf).

(** [mlacp_prepare_for_ndisc_info] *)
Definition mlacp_prepare_for_ndisc_info (c : ptr) (buf : list Z) (max_buf_size : nat)
  (ndisc_msg : list Z) (count : nat) : W (Z * list Z) :=
  if c =? NULL then mret (-1, buf)
  else
    let tlv_len := (sizeof mLACPNDISCInfoTLV + sizeof NDISCMsg * (count + 1))%nat in
    let msg_len := (sizeof ICCHdr + tlv_len)%nat in
    if (max_buf_size <? msg_len)%nat then mret (-1, buf)
    else
      '(_, buf) ← mlacp_fill_icc_header c buf (Z.of_nat msg_len);
      op_type ← field_u8 NDISCMsg "op_type" ndisc_msg;
      flag ← field_u8 NDISCMsg "flag" ndisc_msg;
      ifname ← field_bytes NDISCMsg "ifname" MAX_L_PORT_NAME ndisc_msg;
      ipv6_addr ← field_bytes NDISCMsg "ipv6_addr" 16 ndisc_msg;
      mac_addr ← field_bytes NDISCMsg "mac_addr" ETHER_ADDR_LEN ndisc_msg;
      let d := (sizeof ICCHdr + sizeof mLACPNDISCInfoTLV + sizeof NDISCMsg * count)%nat in
      buf ← oob (apply_stores
        ([tlv_len_store (Z.of_nat (tlv_len - sizeof ICCParameter));
          W16 (tlv_off mLACPNDISCInfoTLV "num_of_entry") (htons (Z.of_nat (count + 1)))] ++
         (if (count =? 0)%nat then tlv_type_stores TLV_T_MLACP_NDISC_INFO else []) ++
         [W8 (d + offsetof NDISCMsg "op_type") op_type;
          W8 (d + offsetof NDISCMsg "flag") flag;
          WB (d + offsetof NDISCMsg "ifname") (cstr ifname ++ [0]);
          WB (d + offsetof NDISCMsg "ipv6_addr") ipv6_addr;
          WB (d + offsetof NDISCMsg "mac_addr") mac_addr]) buf);
      mret (Z.of_nat msg_len, buf).

(** [mlacp_prepare_for_port_channel_info] *)
Definition vlan_stores (vlans : list VLAN_ID) : list store :=
  imap (λ i v, W16 (sizeof ICCHdr + sizeof mLACPPortChannelInfoTLV + sizeof mLACPVLANData * i)
                   (htons (vid v))) vlans.

Definition mlacp_prepare_for_port_channel_info (c : ptr) (buf : list Z) (max_buf_size : nat)
  (port_channel : ptr) : W (Z * list Z) :=
  if c =? NULL then mret (MCLAG_ERROR, buf)
  else if port_channel =? NULL then mret (MCLAG_ERROR, buf)
  else
    lif ← deref w_lifs port_channel;
    if lif_type lif =? IF_T_PORT then mret (MCLAG_ERROR, buf)
    else
      let num_of_vlan_id := length (lif_vlan_tree lif) in
      let tlv_len := (sizeof mLACPPortChannelInfoTLV + sizeof mLACPVLANData * num_of_vlan_id)%nat in
      let msg_len := (sizeof ICCHdr + tlv_len)%nat in
      if (max_buf_size <? msg_len)%nat then mret (MCLAG_ERROR, buf)
      else
        buf ← oob (memset0 max_buf_size buf);
        '(_, buf) ← mlacp_fill_icc_header c buf (Z.of_nat msg_len);
        let name := cstr (lif_name lif) in
        let if_name := take (Nat.min MAX_L_PORT_NAME (length name)) (lif_name lif) in
        buf ← oob (apply_stores
          (tlv_type_stores TLV_T_MLACP_PORT_CHANNEL_INFO ++
           [tlv_len_store (Z.of_nat (sizeof mLACPPortChannelInfoTLV - sizeof ICCParameter
                                     + sizeof mLACPVLANData * num_of_vlan_id));
            W16 (tlv_off mLACPPortChannelInfoTLV "agg_id") (htons (lif_po_id lif));
            W32 (tlv_off mLACPPortChannelInfoTLV "ipv4_addr") (htonl (lif_ipv4_addr lif));
            W8 (tlv_off mLACPPortChannelInfoTLV "l3_mode") (lif_l3_mode lif);
            W16 (tlv_off mLACPPortChannelInfoTLV "po_id") (htons (lif_po_id lif));
            WB (tlv_off mLACPPortChannelInfoTLV "if_name") if_name;
            W8 (tlv_off mLACPPortChannelInfoTLV "if_name_len") (Z.of_nat (length if_name));
            W16 (tlv_off mLACPPortChannelInfoTLV "num_of_vlan_id")
                (htons (Z.of_nat num_of_vlan_id))] ++
           vlan_stores (lif_vlan_tree lif)) buf);
        mret (Z.of_nat msg_len, buf).

(** [mlacp_prepare_for_port_peerlink_info] *)
Definition mlacp_prepare_for_port_peerlink_info (c : ptr) (buf : list Z) (max_buf_size : nat)
  (peerlink_port : ptr) : W (Z * list Z) :=
  if c =? NULL then mret (MCLAG_ERROR, buf)
  else if peerlink_port =? NULL then mret (MCLAG_ERROR, buf)
  else
    buf ← oob (memset0 max_buf_size buf);
    let msg_len := tlv_msg_len mLACPPeerLinkInfoTLV in
    if msg_len >? Z.of_nat max_buf_size then mret (MCLAG_ERROR, buf)
    else
      '(_, buf) ← mlacp_fill_icc_header c buf msg_len;
      lif ← deref w_lifs peerlink_port;
      buf ← oob (apply_stores
        (tlv_type_stores TLV_T_MLACP_PEERLINK_INFO ++
         [tlv_len_store (Z.of_nat (sizeof mLACPPeerLinkInfoTLV - sizeof ICCParameter));
          WB (tlv_off mLACPPeerLinkInfoTLV "if_name") (lif_name lif);
          W8 (tlv_off mLACPPeerLinkInfoTLV "port_type") (lif_type lif)]) buf);
      mret (msg_len, buf).

(** [mlacp_prepare_for_heartbeat] *)
Definition mlacp_prepare_for_heartbeat (c : ptr) (buf : list Z) (max_buf_size : nat)
  : W (Z * list Z) :=
  let msg_len := tlv_msg_len mLACPHeartbeatTLV in
  if c =? NULL then mret (MCLAG_ERROR, buf)
  else if msg_len >? Z.of_nat max_buf_size then mret (MCLAG_ERROR, buf)
  else
    buf ← oob (memset0 max_buf_size buf);
    '(_, buf) ← mlacp_fill_icc_header c buf msg_len;
    buf ← oob (apply_stores
      (tlv_type_stores TLV_T_MLACP_HEARTBEAT ++
       [tlv_len_store (Z.of_nat (sizeof mLACPHeartbeatTLV - sizeof ICCParameter));
        W8 (tlv_off mLACPHeartbeatTLV "heartbeat") 0xFF]) buf);
    mret (msg_len, buf).

(** [mlacp_prepare_for_warm_reboot] *)
Definition mlacp_prepare_for_warm_reboot (c : ptr) (buf : list Z) (max_buf_size : nat)
  : W (Z * list Z) :=
  let msg_len := tlv_msg_len mLACPWarmbootTLV in
  if c =? NULL then mret (MCLAG_ERROR, buf)
  else if msg_len >? Z.of_nat max_buf_size then mret (MCLAG_ERROR, buf)
  else
    buf ← oob (memset0 max_buf_size buf);
    '(_, buf) ← mlacp_fill_icc_header c buf msg_len;
    buf ← oob (apply_stores
      (tlv_type_stores TLV_T_MLACP_WARMBOOT_FLAG ++
       [tlv_len_store (Z.of_nat (sizeof mLACPWarmbootTLV - sizeof ICCParameter));
        W8 (tlv_off mLACPWarmbootTLV "warmboot") 0x1]) buf);
    mret (msg_len, buf).

(** [mlacp_prepare_for_if_up_ack] *)
Definition mlacp_prepare_for_if_up_ack (c : ptr) (buf : list Z) (max_buf_size : nat)
  (if_type if_id port_isolation_state : Z) : W (Z * list Z) :=
  let msg_len := tlv_msg_len mLACPIfUpAckTLV in
  if c =? NULL then mret (-1, buf)
  else if msg_len >? Z.of_nat max_buf_size then mret (-1, buf)
  else
    buf ← oob (memset0 max_buf_size buf);
    '(_, buf) ← mlacp_fill_icc_header c buf msg_len;
    buf ← oob (apply_stores
      (tlv_type_stores TLV_T_MLACP_IF_UP_ACK ++
       [tlv_len_store (Z.of_nat (sizeof mLACPIfUpAckTLV - sizeof ICCParameter));
        W8 (tlv_off mLACPIfUpAckTLV "if_type") if_type;
        W16 (tlv_off mLACPIfUpAckTLV "if_id") (htons if_id);
        W8 (tlv_off mLACPIfUpAckTLV "port_isolation_state") port_isolation_state]) buf);
    mret (msg_len, buf).

(** ** The TLV bodies on the wire *)

Definition sync_request_body : list Z :=
  be16 8 ++ be16 0 ++ be16 0xFFFF ++ be16 0 ++ be16 0.
Definition sync_data_body (req_num end_ : Z) : list Z :=
  be16 4 ++ be16 req_num ++ be16 (if end_ =? 0 then 0 else 1).
Definition sys_config_body (m : mLACP) : list Z :=
  be16 9 ++ system_id m ++ be16 (system_priority m) ++ [u8 (node_id m)].
Definition agg_state_body (lif : LocalInterface) : list Z :=
  be16 15 ++ replicate 10 0 ++ be16 (lif_po_id lif) ++ [0; 0] ++ [u8 (lif_state lif)].
Definition agg_config_body (lif : LocalInterface) (purge_flag : Z) : list Z :=
  be16 42 ++ replicate 8 0 ++ be16 (lif_po_id lif) ++ lif_mac_addr lif ++ [0; 0; 0; 0]
  ++ [u8 (if purge_flag =? 1 then 2 else 1); u8 (strlen (lif_name lif))] ++ lif_name lif.
Definition peerlink_body (lif : LocalInterface) : list Z :=
  be16 21 ++ lif_name lif ++ [u8 (lif_type lif)].
Definition heartbeat_body : list Z := be16 1 ++ [255].
Definition warmboot_body : list Z := be16 1 ++ [1].
Definition if_up_ack_body (if_type if_id iso : Z) : list Z :=
  be16 4 ++ [u8 if_type; u8 iso] ++ be16 if_id.

(** ** The builders leave exactly these bytes *)

Definition rg_of (csm : CSM) : Z := icc_rg_id (iccp_info csm).

(** A message of type [type] and body [body] in the buffer of length [n]. *)
Definition tlv_in_buffer (csm : CSM) (id type : Z) (body : list Z) (n : nat) : list Z :=
  in_buffer (app_data_wire (18 + Z.of_nat (length body)) id (rg_of csm) type body) n.

Lemma fill_header_run c csm len buf w :
  w_csms w !! c = Some csm → c ≠ NULL → Forall is_byte buf → (16 ≤ length buf)%nat →
  mlacp_fill_icc_header c buf len w
  = Ok (0, icc_header MSG_T_RG_APP_DATA len (w_msg_id w) (rg_of csm) ++ drop 16 buf) (bump_msg_id w).
Proof.
  intros Hc Hn Hb Hl. unfold mlacp_fill_icc_header. rewrite eqb_null by done.
  rewrite next_msg_id_bind, <-bind_assoc.
  by erewrite bind_ok by (apply icc_header_run; mem_side).
Qed.

Lemma fill_header_bind {A} c csm len buf (k : Z * list Z → W A) w :
  w_csms w !! c = Some csm → c ≠ NULL → Forall is_byte buf → (16 ≤ length buf)%nat →
  (p ← mlacp_fill_icc_header c buf len; k p) w
  = k (0, icc_header MSG_T_RG_APP_DATA len (w_msg_id w) (rg_of csm) ++ drop 16 buf) (bump_msg_id w).
Proof. intros. by erewrite bind_ok by (apply fill_header_run; done). Qed.

(** The guards of the builders of fixed size. *)
Lemma gtb_of_nat_false n m : (n ≤ m)%nat → (Z.of_nat n >? Z.of_nat m) = false.
Proof. intros H. rewrite Z.gtb_ltb. apply Z.ltb_ge. lia. Qed.

(** The stores of a TLV give its body, whatever the buffer is. *)
Lemma tlv_body_run csm id type ss body len n :
  type mod 256 < 64 → (18 + length body ≤ n)%nat → len = 18 + Z.of_nat (length body) →
  Forall (λ s, 18 ≤ store_off s)%nat ss →
  Forall (λ s, store_end (shift_store 18 s) ≤ length body)%nat ss →
  apply_stores (shift_store 18 <$> ss) (replicate (length body) 0) = Some body →
  apply_stores (tlv_type_stores type ++ ss)
    (icc_header MSG_T_RG_APP_DATA len id (rg_of csm) ++ replicate (n - 16) 0)
  = Some (tlv_in_buffer csm id type body n).
Proof.
  intros Ht Hn -> Hoff Hend Hss.
  rewrite (tlv_run _ _ _ (length body)) by (done || mem_side). rewrite Hss. cbn [fmap option_fmap option_map].
  unfold tlv_in_buffer, in_buffer, app_data_wire.
  rewrite (length_app (icc_header _ _ _ _)), icc_header_length, (length_app (be16 _)).
  rewrite <-!app_assoc. change (length (be16 type)) with 2%nat. by rewrite <-Nat.sub_add_distr.
Qed.

(** Byte arrays of known length, byte by byte. *)
Tactic Notation "explode_len" ident(l) hyp(H) integer(n) :=
  do n (destruct l as [|? l]; [discriminate H|]); destruct l; [clear H|discriminate H].

Ltac prepare_start f :=
  unfold f, tlv_msg_len; rewrite ?eqb_null by done; cbv zeta;
  rewrite ?gtb_of_nat_false by (eval_layout; lia);
  rewrite (oob_bind _ _ _ _ (memset0_all _ _ eq_refl));
  erewrite fill_header_bind by (done || mem_side);
  rewrite drop_replicate; cbv beta iota; eval_layout.

(** The stores of a builder against the body of its TLV. *)
Ltac body_run body :=
  unfold tlv_len_store; eval_layout;
  apply tlv_body_run; [done|simpl; lia|done|store_side|store_side|];
  try (vm_compute; reflexivity);
  unfold body; cbn [fmap list_fmap shift_store]; eval_layout; cbn [apply_stores apply_store];
  be_vars; reflexivity.

Section builders.
Context (c : ptr) (csm : CSM) (buf : list Z) (w : World).
Hypotheses (Hc : w_csms w !! c = Some csm) (Hn : c ≠ NULL).
Hypothesis (Hbuf : (128 ≤ length buf)%nat).

Lemma sync_request_run :
  mlacp_prepare_for_sync_request_tlv c buf (length buf) w
  = Ok (28, tlv_in_buffer csm (w_msg_id w) TLV_T_MLACP_SYNC_REQUEST sync_request_body (length buf))
       (csm_set c (set_MLACP (set sync_req_num (λ _, 0)) csm) (bump_msg_id w)).
Proof using Hc Hn Hbuf.
  prepare_start mlacp_prepare_for_sync_request_tlv.
  rewrite (oob_bind _ (tlv_in_buffer csm (w_msg_id w) TLV_T_MLACP_SYNC_REQUEST
    sync_request_body (length buf))) by body_run sync_request_body.
  unfold mlacp_upd. by rewrite (csm_upd_bind c _ csm).
Qed.

Lemma sync_data_run end_ :
  mlacp_prepare_for_sync_data_tlv c buf (length buf) end_ w
  = Ok (24, tlv_in_buffer csm (w_msg_id w) TLV_T_MLACP_SYNC_DATA
              (sync_data_body (sync_req_num (MLACP csm)) end_) (length buf)) (bump_msg_id w).
Proof using Hc Hn Hbuf.
  prepare_start mlacp_prepare_for_sync_data_tlv. rewrite (deref_bind w_csms c csm) by done.
  rewrite (oob_bind _ (tlv_in_buffer csm (w_msg_id w) TLV_T_MLACP_SYNC_DATA
    (sync_data_body (sync_req_num (MLACP csm)) end_) (length buf))); [done|].
  change (if end_ =? 0 then 0x00 else htons 0x01)
    with (if end_ =? 0 then 0 else htons 1).
  assert ((if end_ =? 0 then 0 else htons 1) = htons (if end_ =? 0 then 0 else 1)) as ->
    by by destruct (end_ =? 0).
  body_run sync_data_body.
Qed.

Lemma sys_config_run :
  length (system_id (MLACP csm)) = 6%nat →
  mlacp_prepare_for_sys_config c buf (length buf) w
  = Ok (29, tlv_in_buffer csm (w_msg_id w) TLV_T_MLACP_SYSTEM_CONFIG
              (sys_config_body (MLACP csm)) (length buf)) (bump_msg_id w).
Proof using Hc Hn Hbuf.
  intros Hid. prepare_start mlacp_prepare_for_sys_config.
  rewrite (deref_bind w_csms c csm) by done.
  rewrite (oob_bind _ (tlv_in_buffer csm (w_msg_id w) TLV_T_MLACP_SYSTEM_CONFIG
    (sys_config_body (MLACP csm)) (length buf))); [done|].
  unfold sys_config_body. generalize dependent (system_id (MLACP csm)). intros sid Hid.
  explode_len sid Hid 6. body_run sys_config_body.
Qed.

Lemma agg_state_run p lif :
  w_lifs w !! p = Some lif → p ≠ NULL → lif_type lif = IF_T_PORT_CHANNEL →
  mlacp_prepare_for_Aggport_state c buf (length buf) p w
  = Ok (35, tlv_in_buffer csm (w_msg_id w) TLV_T_MLACP_AGGREGATOR_STATE
              (agg_state_body lif) (length buf)) (bump_msg_id w).
Proof using Hc Hn Hbuf.
  intros Hp Hpn Ht. unfold mlacp_prepare_for_Aggport_state. rewrite !eqb_null by done. cbv zeta.
  rewrite (deref_bind w_lifs p lif) by done. rewrite Ht, Z.eqb_refl.
  change (negb true) with false. cbv iota.
  prepare_start mlacp_prepare_for_Aggport_state.
  rewrite (oob_bind _ (tlv_in_buffer csm (w_msg_id w) TLV_T_MLACP_AGGREGATOR_STATE
    (agg_state_body lif) (length buf))); [done|].
  body_run agg_state_body.
Qed.

Lemma agg_config_run p lif purge :
  w_lifs w !! p = Some lif → length (lif_name lif) = 20%nat → length (lif_mac_addr lif) = 6%nat →
  mlacp_prepare_for_Aggport_config c buf (length buf) p purge w
  = Ok (62, tlv_in_buffer csm (w_msg_id w) TLV_T_MLACP_AGGREGATOR_CONFIG
              (agg_config_body lif purge) (length buf)) (bump_msg_id w).
Proof using Hc Hn Hbuf.
  intros Hp Hname Hmac. prepare_start mlacp_prepare_for_Aggport_config.
  rewrite (deref_bind w_lifs p lif) by done.
  rewrite (oob_bind _ (tlv_in_buffer csm (w_msg_id w) TLV_T_MLACP_AGGREGATOR_CONFIG
    (agg_config_body lif purge) (length buf))); [done|].
  unfold agg_config_body. generalize (strlen (lif_name lif)) (lif_po_id lif). intros len po.
  revert Hname Hmac. generalize (lif_name lif) (lif_mac_addr lif). intros name mac Hname Hmac.
  explode_len name Hname 20. explode_len mac Hmac 6. body_run agg_config_body.
Qed.

Lemma peerlink_run p lif :
  w_lifs w !! p = Some lif → p ≠ NULL → length (lif_name lif) = 20%nat →
  mlacp_prepare_for_port_peerlink_info c buf (length buf) p w
  = Ok (41, tlv_in_buffer csm (w_msg_id w) TLV_T_MLACP_PEERLINK_INFO
              (peerlink_body lif) (length buf)) (bump_msg_id w).
Proof using Hc Hn Hbuf.
  intros Hp Hpn Hname. unfold mlacp_prepare_for_port_peerlink_info, tlv_msg_len.
  rewrite !eqb_null by done.
  rewrite (oob_bind _ _ _ _ (memset0_all _ _ eq_refl)). cbv zeta.
  rewrite gtb_of_nat_false by (eval_layout; lia).
  erewrite fill_header_bind by (done || mem_side). rewrite drop_replicate. cbv beta iota.
  rewrite (deref_bind w_lifs p lif) by done. eval_layout.
  rewrite (oob_bind _ (tlv_in_buffer csm (w_msg_id w) TLV_T_MLACP_PEERLINK_INFO
    (peerlink_body lif) (length buf))); [done|].
  unfold peerlink_body. revert Hname. generalize (lif_name lif). intros name Hname.
  explode_len name Hname 20. body_run peerlink_body.
Qed.

Lemma heartbeat_run :
  mlacp_prepare_for_heartbeat c buf (length buf) w
  = Ok (21, tlv_in_buffer csm (w_msg_id w) TLV_T_MLACP_HEARTBEAT heartbeat_body (length buf))
       (bump_msg_id w).
Proof using Hc Hn Hbuf.
  prepare_start mlacp_prepare_for_heartbeat.
  rewrite (oob_bind _ (tlv_in_buffer csm (w_msg_id w) TLV_T_MLACP_HEARTBEAT heartbeat_body
    (length buf))); [done|]. body_run heartbeat_body.
Qed.

Lemma warmboot_run :
  mlacp_prepare_for_warm_reboot c buf (length buf) w
  = Ok (21, tlv_in_buffer csm (w_msg_id w) TLV_T_MLACP_WARMBOOT_FLAG warmboot_body (length buf))
       (bump_msg_id w).
Proof using Hc Hn Hbuf.
  prepare_start mlacp_prepare_for_warm_reboot.
  rewrite (oob_bind _ (tlv_in_buffer csm (w_msg_id w) TLV_T_MLACP_WARMBOOT_FLAG warmboot_body
    (length buf))); [done|]. body_run warmboot_body.
Qed.

Lemma if_up_ack_run if_type if_id iso :
  mlacp_prepare_for_if_up_ack c buf (length buf) if_type if_id iso w
  = Ok (24, tlv_in_buffer csm (w_msg_id w) TLV_T_MLACP_IF_UP_ACK
              (if_up_ack_body if_type if_id iso) (length buf)) (bump_msg_id w).
Proof using Hc Hn Hbuf.
  prepare_start mlacp_prepare_for_if_up_ack.
  rewrite (oob_bind _ (tlv_in_buffer csm (w_msg_id w) TLV_T_MLACP_IF_UP_ACK
    (if_up_ack_body if_type if_id iso) (length buf))); [done|]. body_run if_up_ack_body.
Qed.
End builders.

(** ** Messages that carry several entries

    The MAC, ARP and neighbour messages are built entry by entry: every call
    rewrites the header, the length and the count, and adds one entry.  The
    entries [es] are their encodings, of [sz] bytes each. *)

Definition batch_body (sz : nat) (es : list (list Z)) : list Z :=
  be16 (Z.of_nat (2 + sz * length es)) ++ be16 (Z.of_nat (length es)) ++ concat es.

Definition batch_wire (csm : CSM) (id type : Z) (sz : nat) (es : list (list Z)) : list Z :=
  app_data_wire (Z.of_nat (22 + sz * length es)) id (rg_of csm) type (batch_body sz es).

(** The buffer of a message that holds the entries [es] so far. *)
Definition batch_buffer (csm : CSM) (id type : Z) (sz : nat) (es : list (list Z)) (n : nat) : list Z :=
  match es with
  | [] => replicate n 0
  | _ => in_buffer (batch_wire csm id type sz es) n
  end.

Definition entry_ok (sz : nat) (e : list Z) : Prop := length e = sz ∧ Forall is_byte e.

Lemma concat_entries_length sz es : Forall (entry_ok sz) es → length (concat es) = (sz * length es)%nat.
Proof.
  induction 1 as [|e es [He _] _ IH]; [simpl; lia|]. rewrite concat_cons, length_app, IH, He. simpl. lia.
Qed.

Lemma concat_entries_bytes sz es : Forall (entry_ok sz) es → Forall is_byte (concat es).
Proof.
  induction 1 as [|e es [_ He] _ IH]; [constructor|]. rewrite concat_cons. by apply Forall_app_2.
Qed.

Lemma batch_wire_length csm id type sz es :
  Forall (entry_ok sz) es → length (batch_wire csm id type sz es) = (22 + sz * length es)%nat.
Proof.
  intros H. unfold batch_wire, app_data_wire, batch_body.
  rewrite !length_app, (concat_entries_length sz) by done. simpl. lia.
Qed.

Lemma batch_buffer_shape csm id type sz es n :
  Forall (entry_ok sz) es → (22 + sz * length es ≤ n)%nat →
  ∃ h t0 l0 n0, batch_buffer csm id type sz es n
    = h ++ t0 ++ l0 ++ n0 ++ concat es ++ replicate (n - (22 + sz * length es)) 0
    ∧ length h = 16%nat ∧ length t0 = 2%nat ∧ length l0 = 2%nat ∧ length n0 = 2%nat
    ∧ (if (length es =? 0)%nat then t0 = [0; 0] else t0 = be16 type)
    ∧ Forall is_byte (batch_buffer csm id type sz es n).
Proof.
  intros Hok Hn. destruct (decide (es = [])) as [->|Hne].
  - exists (replicate 16 0), [0; 0], [0; 0], [0; 0]. simpl in Hn.
    repeat split; try done; [|apply replicate_bytes].
    unfold batch_buffer. rewrite Nat.mul_0_r. by rewrite (replicate_split 22 n) by lia.
  - exists (icc_header MSG_T_RG_APP_DATA (Z.of_nat (22 + sz * length es)) id (rg_of csm)),
      (be16 type), (be16 (Z.of_nat (2 + sz * length es))), (be16 (Z.of_nat (length es))).
    assert (batch_buffer csm id type sz es n = in_buffer (batch_wire csm id type sz es) n) as Hb
      by by destruct es.
    repeat split; [|by destruct es|].
    + rewrite Hb. unfold in_buffer. rewrite batch_wire_length by done.
      unfold batch_wire, app_data_wire, batch_body. by rewrite <-!app_assoc.
    + rewrite Hb. unfold in_buffer, batch_wire, app_data_wire, batch_body.
      eauto 10 using Forall_app_2, icc_header_bytes, be16_byte, concat_entries_bytes, replicate_bytes.
Qed.

(** Adding an entry: the header, the length and the count are rewritten, and
    the stores [ss] of the entry find a cleared place behind the others. *)
Lemma batch_step c csm id type sz es e ss n w :
  w_csms w !! c = Some csm → c ≠ NULL → type mod 256 < 64 → Forall (entry_ok sz) es →
  entry_ok sz e → (22 + sz * (length es + 1) ≤ n)%nat →
  (∀ hdr rest, length hdr = (22 + sz * length es)%nat →
     apply_stores ss (hdr ++ replicate sz 0 ++ rest) = Some (hdr ++ e ++ rest)) →
  ∃ buf1,
    mlacp_fill_icc_header c (batch_buffer csm id type sz es n) (Z.of_nat (22 + sz * (length es + 1))) w
    = Ok (0, buf1) (bump_msg_id w)
    ∧ apply_stores
        (W16 18 (htons (Z.of_nat (2 + sz * (length es + 1)))) ::
         W16 20 (htons (Z.of_nat (length es + 1))) ::
         (if (length es =? 0)%nat then tlv_type_stores type else []) ++ ss) buf1
      = Some (batch_buffer csm (w_msg_id w) type sz (es ++ [e]) n).
Proof.
  intros Hc Hn Htype Hes [He _] Hl Hss.
  destruct (batch_buffer_shape csm id type sz es n) as (h & t0 & l0 & n0 & Hb & Hh & Ht & Hl0 & Hn0 & Hty & Hby);
    [done|lia|].
  assert (16 ≤ length (batch_buffer csm id type sz es n))%nat by (rewrite Hb, length_app; lia).
  eexists. split; [by apply fill_header_run|].
  rewrite Hb, <-Hh, drop_app_length, Hh.
  set (H16 := icc_header _ _ _ _). set (len := Z.of_nat (2 + _)). set (num := Z.of_nat (length es + 1)).
  assert (length H16 = 16%nat) as HH by apply icc_header_length.
  rewrite (app_assoc H16). cbn [apply_stores apply_store]. rewrite !le16_be16.
  rewrite put_at by (rewrite ?length_app; lia || done). cbn [mbind option_bind].
  rewrite (app_assoc (H16 ++ t0)), put_at by (rewrite ?length_app; simpl; lia || done).
  cbn [mbind option_bind]. rewrite <-!app_assoc.
  set (z := replicate _ 0).
  assert (∀ rest, Forall is_byte rest →
    apply_stores ((if (length es =? 0)%nat then tlv_type_stores type else []) ++ ss) (H16 ++ t0 ++ rest)
    = apply_stores ss (H16 ++ be16 type ++ rest)) as Htl.
  { intros rest Hrest. destruct (length es =? 0)%nat; [|by rewrite Hty].
    rewrite tlv_type_run; [by rewrite Hty|done|done|rewrite length_app; lia|].
    rewrite Hty. apply Forall_app_2; [apply icc_header_bytes|]. by repeat (constructor; [done|]). }
  rewrite Htl by eauto 10 using Forall_app_2, be16_byte, concat_entries_bytes, replicate_bytes.
  unfold z. rewrite (replicate_split sz) by lia. rewrite !app_assoc, <-(app_assoc _ (replicate sz 0)).
  rewrite Hss by (rewrite !length_app, (concat_entries_length sz) by done; simpl; lia).
  f_equal. unfold batch_buffer. destruct (es ++ [e]) eqn:Ee; [by destruct es|]. rewrite <-Ee. clear Ee.
  unfold in_buffer, batch_wire, app_data_wire, batch_body.
  rewrite concat_app, !length_app. cbn [length concat]. rewrite app_nil_r, <-!app_assoc.
  unfold H16, len, num. do 6 f_equal.
  rewrite icc_header_length, (concat_entries_length sz), He by done. f_equal. simpl. lia.
Qed.

(** ** MAC entries *)

Definition name20 (name : list Z) : list Z := cstr name ++ replicate (20 - length (cstr name)) 0.

Definition mac_entry (m : MACMsg) : list Z :=
  [u8 (mac_op_type m); u8 (mac_fdb_type m)] ++ mac_addr m ++ be16 (mac_vid m)
  ++ name20 (mac_origin_ifname m).

(** What the code relies on: six address bytes, a terminated name. *)
Definition mac_ok (m : MACMsg) : Prop :=
  length (mac_addr m) = 6%nat ∧ (length (cstr (mac_origin_ifname m)) < 20)%nat
  ∧ Forall is_byte (mac_addr m) ∧ Forall is_byte (mac_origin_ifname m).

Definition mac_buffer (csm : CSM) (id : Z) (ms : list MACMsg) (n : nat) : list Z :=
  batch_buffer csm id TLV_T_MLACP_MAC_INFO 30 (mac_entry <$> ms) n.
Definition mac_info_wire (csm : CSM) (id : Z) (ms : list MACMsg) : list Z :=
  batch_wire csm id TLV_T_MLACP_MAC_INFO 30 (mac_entry <$> ms).

(** [sprintf] of a name into a cleared array of 20 bytes. *)
Lemma put_cstr20 pre nm post off :
  length pre = off → (length nm < 20)%nat →
  put off (nm ++ [0]) (pre ++ replicate 20 0 ++ post)
  = Some (pre ++ (nm ++ replicate (20 - length nm) 0) ++ post).
Proof.
  intros <- Hl. rewrite (replicate_split (length nm + 1) 20) by lia. rewrite <-!app_assoc.
  rewrite (put_at pre (replicate (length nm + 1) 0)) by (rewrite ?length_replicate, ?length_app; done).
  f_equal. f_equal. rewrite <-!app_assoc. f_equal.
  rewrite (replicate_split 1 (20 - length nm)) by lia. rewrite <-app_assoc. simpl. do 3 f_equal. lia.
Qed.

(** The members of one entry. *)
Lemma mac_entry_stores d hdr m rest :
  mac_ok m → length hdr = d →
  apply_stores
    [W8 (d + 0) (mac_op_type m); W8 (d + 1) (mac_fdb_type m); WB (d + 2) (mac_addr m);
     WB (d + 10) (cstr (mac_origin_ifname m) ++ [0]); W16 (d + 8) (htons (mac_vid m))]
    (hdr ++ replicate 30 0 ++ rest)
  = Some (hdr ++ mac_entry m ++ rest).
Proof.
  intros (Ha & Hname & _) <-. rewrite apply_stores_suffix by (repeat (apply Forall_cons_2; [simpl; lia|]); apply Forall_nil_2).
  cbn [fmap list_fmap shift_store]. rewrite !Nat.add_comm with (n := length hdr), !Nat.add_sub.
  unfold mac_entry, name20.
  set (nm := cstr (mac_origin_ifname m)) in *. clearbody nm.
  revert Ha. generalize (mac_addr m) (mac_op_type m) (mac_fdb_type m) (mac_vid m).
  intros a op fdb vd Ha. explode_len a Ha 6.
  rewrite apply_stores_prefix.
  2:{ rewrite length_replicate. repeat (apply Forall_cons_2; [simpl; rewrite ?length_app; simpl; lia|]).
      apply Forall_nil_2. }
  cbn [apply_stores apply_store]. be_vars.
  change (put 0 [u8 op] (replicate 30 0)) with (Some (u8 op :: replicate 29 0)).
  cbn [mbind option_bind].
  change (put 1 [u8 fdb] (u8 op :: replicate 29 0)) with (Some (u8 op :: u8 fdb :: replicate 28 0)).
  cbn [mbind option_bind].
  change (put 2 [z; z0; z1; z2; z3; z4] (u8 op :: u8 fdb :: replicate 28 0))
    with (Some ([u8 op; u8 fdb; z; z0; z1; z2; z3; z4; 0; 0] ++ replicate 20 0 ++ [])).
  cbn [mbind option_bind]. rewrite put_cstr20 by done. cbn [mbind option_bind].
  change ([u8 op; u8 fdb; z; z0; z1; z2; z3; z4; 0; 0] ++ ?l)
    with ([u8 op; u8 fdb; z; z0; z1; z2; z3; z4] ++ [0; 0] ++ l).
  rewrite put_at by done. cbn [mbind option_bind fmap option_fmap option_map].
  by rewrite app_nil_r, <-!app_assoc.
Qed.

Lemma mac_entry_ok m : mac_ok m → entry_ok 30 (mac_entry m).
Proof.
  intros (H1 & H2 & Ha & Hname). unfold mac_entry, name20. split.
  - rewrite !length_app, H1, length_replicate. simpl. lia.
  - apply Forall_app_2; [repeat constructor; unfold u8; apply mod256_byte|].
    auto using Forall_app_2, be16_byte, replicate_bytes, cstr_Forall.
Qed.

Lemma mac_entries_ok ms : Forall mac_ok ms → Forall (entry_ok 30) (mac_entry <$> ms).
Proof. intros H. apply Forall_fmap. eapply Forall_impl; [done|]. apply mac_entry_ok. Qed.

Lemma mac_info_run c csm p m id ms n w :
  w_csms w !! c = Some csm → c ≠ NULL → w_macs w !! p = Some m → mac_ok m → Forall mac_ok ms →
  (22 + 30 * (length ms + 1) ≤ n)%nat →
  mlacp_prepare_for_mac_info_to_peer c (mac_buffer csm id ms n) n p (length ms) w
  = Ok (Z.of_nat (22 + 30 * (length ms + 1)), mac_buffer csm (w_msg_id w) (ms ++ [m]) n) (bump_msg_id w).
Proof.
  intros Hc Hn Hp Hm Hms Hl. unfold mlacp_prepare_for_mac_info_to_peer. rewrite eqb_null by done.
  cbv zeta. eval_layout.
  destruct (Nat.ltb_spec n (16 + (6 + 30 * (length ms + 1)))); [lia|].
  destruct (batch_step c csm id TLV_T_MLACP_MAC_INFO 30 (mac_entry <$> ms) (mac_entry m)
    [W8 (22 + 30 * length ms + 0) (mac_op_type m); W8 (22 + 30 * length ms + 1) (mac_fdb_type m);
     WB (22 + 30 * length ms + 2) (mac_addr m);
     WB (22 + 30 * length ms + 10) (cstr (mac_origin_ifname m) ++ [0]);
     W16 (22 + 30 * length ms + 8) (htons (mac_vid m))] n w) as (b1 & Hfill & Hst);
    [done|done|done|by apply mac_entries_ok|by apply mac_entry_ok|by rewrite length_fmap|..].
  { intros hdr rest Hh. apply mac_entry_stores; [done|]. by rewrite Hh, length_fmap. }
  rewrite length_fmap in *. replace (16 + (6 + 30 * (length ms + 1)))%nat with (22 + 30 * (length ms + 1))%nat by lia.
  rewrite (bind_ok _ _ _ _ _ Hfill). cbv beta iota.
  rewrite (deref_bind w_macs p m) by done.
  rewrite (oob_bind _ (mac_buffer csm (w_msg_id w) (ms ++ [m]) n)); [done|].
  unfold mac_buffer. rewrite fmap_app. change (mac_entry <$> [m]) with [mac_entry m]. rewrite <-Hst.
  unfold tlv_len_store. eval_layout. cbn [app].
  done.
Qed.

(** ** ARP and neighbour-discovery entries

    A queued message is the memory of an [ARPMsg] or [NDISCMsg]: the operation,
    the flag, the learn flag, the interface name, the address of [k] bytes and the
    MAC address, with the padding of the compiler in between.  The builder copies
    all members but the learn flag, and stops the name at its terminator. *)

Record neigh : Type := mkNeigh {
  nb_op : Z; nb_flag : Z; nb_learn : Z;
  nb_ifname : list Z; nb_addr : list Z; nb_mac : list Z
}.

Definition neigh_ok (k : nat) (m : neigh) : Prop :=
  is_byte (nb_op m) ∧ is_byte (nb_flag m) ∧ length (nb_ifname m) = 20%nat
  ∧ (length (cstr (nb_ifname m)) < 20)%nat ∧ length (nb_addr m) = k ∧ length (nb_mac m) = 6%nat
  ∧ Forall is_byte (nb_ifname m) ∧ Forall is_byte (nb_addr m) ∧ Forall is_byte (nb_mac m).

Definition neigh_bytes (m : neigh) (pad1 pad2 pad3 : Z) : list Z :=
  [nb_op m; nb_flag m; nb_learn m] ++ nb_ifname m ++ [pad1] ++ nb_addr m ++ nb_mac m ++ [pad2; pad3].

Definition neigh_entry (m : neigh) : list Z :=
  [nb_op m; nb_flag m; 0] ++ name20 (nb_ifname m) ++ [0] ++ nb_addr m ++ nb_mac m ++ [0; 0].

Lemma neigh_entry_ok k m : neigh_ok k m → entry_ok (32 + k) (neigh_entry m).
Proof.
  intros (? & ? & ? & ? & ? & ? & ? & ? & ?). unfold neigh_entry, name20. split.
  - rewrite !length_app, length_replicate. simpl. lia.
  - assert (Forall is_byte (replicate 2 0)) by apply replicate_bytes.
    apply (Forall_app_2 _ [_; _; _]); [by repeat (apply Forall_cons_2; [done|])|].
    apply Forall_app_2; [auto using Forall_app_2, replicate_bytes, cstr_Forall|].
    apply (Forall_app_2 _ [_]); [apply (replicate_bytes 1)|]. auto using Forall_app_2.
Qed.

Lemma neigh_entries_ok k ms : Forall (neigh_ok k) ms → Forall (entry_ok (32 + k)) (neigh_entry <$> ms).
Proof. intros H. apply Forall_fmap. eapply Forall_impl; [done|]. apply neigh_entry_ok. Qed.

Lemma byte_u8 v : is_byte v → u8 v = v.
Proof. unfold is_byte, u8. intros. by apply Z.mod_small. Qed.

Lemma neigh_entry_stores k d hdr m rest :
  neigh_ok k m → length hdr = d →
  apply_stores
    [W8 (d + 0) (nb_op m); W8 (d + 1) (nb_flag m); WB (d + 3) (cstr (nb_ifname m) ++ [0]);
     WB (d + 24) (nb_addr m); WB (d + (24 + k)) (nb_mac m)]
    (hdr ++ replicate (32 + k) 0 ++ rest)
  = Some (hdr ++ neigh_entry m ++ rest).
Proof.
  intros (Hop & Hfl & _ & Hname & Hk & Hmac & _) <-.
  rewrite apply_stores_suffix by (repeat (apply Forall_cons_2; [simpl; lia|]); apply Forall_nil_2).
  cbn [fmap list_fmap shift_store]. rewrite !Nat.add_comm with (n := length hdr), !Nat.add_sub.
  unfold neigh_entry, name20. set (nm := cstr (nb_ifname m)) in *. clearbody nm.
  cbn [apply_stores apply_store]. rewrite !byte_u8 by done.
  replace (replicate (32 + k) 0 ++ rest)
    with ([] ++ [0] ++ [0; 0] ++ replicate 20 0 ++ [0] ++ replicate k 0 ++ replicate 6 0 ++ [0; 0] ++ rest).
  2:{ rewrite (replicate_split 24 (32 + k)) by lia. rewrite (replicate_split k (32 + k - 24)) by lia.
      rewrite (replicate_split 6 (32 + k - 24 - k)) by lia. replace (32 + k - 24 - k - 6)%nat with 2%nat by lia.
      by rewrite <-!app_assoc. }
  rewrite (put_at [] [0] [nb_op m]) by done. cbn [mbind option_bind].
  change ([] ++ [nb_op m] ++ [0; 0] ++ ?l) with ([nb_op m] ++ [0] ++ [0] ++ l).
  rewrite (put_at [nb_op m] [0] [nb_flag m]) by done. cbn [mbind option_bind].
  change ([nb_op m] ++ [nb_flag m] ++ [0] ++ ?l) with ([nb_op m; nb_flag m; 0] ++ l).
  rewrite (put_cstr20 [nb_op m; nb_flag m; 0]) by done. cbn [mbind option_bind].
  rewrite (app_assoc (nm ++ _)), (app_assoc [nb_op m; nb_flag m; 0]).
  assert (length ([nb_op m; nb_flag m; 0] ++ (nm ++ replicate (20 - length nm) 0) ++ [0]) = 24%nat) as H24.
  { rewrite !length_app, length_replicate. simpl. lia. }
  rewrite (put_at _ (replicate k 0)) by (done || by rewrite length_replicate).
  cbn [mbind option_bind]. rewrite (app_assoc _ (nb_addr m)).
  rewrite (put_at _ (replicate 6 0)) by (rewrite ?length_replicate, ?(length_app _ (nb_addr m)), ?H24; lia || done).
  cbn [mbind option_bind fmap option_fmap option_map]. by rewrite <-!app_assoc.
Qed.

(** The members of a queued message, read back. *)
Lemma neigh_fields k m p1 p2 p3 :
  neigh_ok k m →
  let b := neigh_bytes m p1 p2 p3 in
  rd8 0 b = Some (nb_op m) ∧ rd8 1 b = Some (nb_flag m) ∧ rd_bytes 3 20 b = Some (nb_ifname m)
  ∧ rd_bytes 24 k b = Some (nb_addr m) ∧ rd_bytes (24 + k) 6 b = Some (nb_mac m).
Proof.
  intros (Hop & Hfl & Hl & _ & Hk & Hmac & _) b. unfold b, neigh_bytes.
  split; [done|]. split; [done|]. split; [by apply rd_bytes_at|].
  rewrite (app_assoc (nb_ifname m)), (app_assoc [_; _; _]). split; [apply rd_bytes_at; [|done]|].
  { rewrite !length_app, Hl. done. }
  rewrite (app_assoc _ (nb_addr m)). apply rd_bytes_at; [|done]. rewrite !length_app, Hl, Hk. done.
Qed.

Lemma neigh_addr32 m p1 p2 p3 :
  neigh_ok 4 m → ∃ v, rd32 24 (neigh_bytes m p1 p2 p3) = Some v ∧ le32 v = nb_addr m.
Proof.
  intros (_ & _ & Hl & _ & Hk & _ & _ & Hb & _). unfold neigh_bytes.
  rewrite (app_assoc (nb_ifname m)), (app_assoc [_; _; _]). apply rd32_at_bytes; [|done|done].
  rewrite !length_app, Hl. done.
Qed.

Definition arp_buffer (csm : CSM) (id : Z) (ms : list neigh) (n : nat) : list Z :=
  batch_buffer csm id TLV_T_MLACP_ARP_INFO 36 (neigh_entry <$> ms) n.
Definition ndisc_buffer (csm : CSM) (id : Z) (ms : list neigh) (n : nat) : list Z :=
  batch_buffer csm id TLV_T_MLACP_NDISC_INFO 48 (neigh_entry <$> ms) n.

Lemma arp_info_run c csm m p1 p2 p3 id ms n w :
  w_csms w !! c = Some csm → c ≠ NULL → neigh_ok 4 m → Forall (neigh_ok 4) ms →
  (22 + 36 * (length ms + 1) ≤ n)%nat →
  mlacp_prepare_for_arp_info c (arp_buffer csm id ms n) n (neigh_bytes m p1 p2 p3) (length ms) w
  = Ok (Z.of_nat (22 + 36 * (length ms + 1)), arp_buffer csm (w_msg_id w) (ms ++ [m]) n) (bump_msg_id w).
Proof.
  intros Hc Hn Hm Hms Hl. unfold mlacp_prepare_for_arp_info. rewrite eqb_null by done.
  cbv zeta. eval_layout.
  destruct (Nat.ltb_spec n (16 + (6 + 36 * (length ms + 1)))); [lia|].
  destruct (neigh_fields 4 m p1 p2 p3 Hm) as (H0 & H1 & H2 & H3 & H4).
  destruct (neigh_addr32 m p1 p2 p3 Hm) as (v & Hv & Hle).
  destruct (batch_step c csm id TLV_T_MLACP_ARP_INFO 36 (neigh_entry <$> ms) (neigh_entry m)
    [W8 (22 + 36 * length ms + 0) (nb_op m); W8 (22 + 36 * length ms + 1) (nb_flag m);
     WB (22 + 36 * length ms + 3) (cstr (nb_ifname m) ++ [0]);
     W32 (22 + 36 * length ms + 24) v; WB (22 + 36 * length ms + (24 + 4)) (nb_mac m)] n w)
    as (b1 & Hfill & Hst);
    [done|done|done|by apply (neigh_entries_ok 4)|by apply (neigh_entry_ok 4)|by rewrite length_fmap|..].
  { intros hdr rest Hh. rewrite length_fmap in Hh.
    rewrite <-(neigh_entry_stores 4 _ hdr m rest Hm Hh). cbn [apply_stores apply_store]. by rewrite Hle. }
  rewrite length_fmap in *. replace (16 + (6 + 36 * (length ms + 1)))%nat with (22 + 36 * (length ms + 1))%nat by lia.
  rewrite (bind_ok _ _ _ _ _ Hfill). cbv beta iota.
  unfold field_u8, field_u32, field_bytes. eval_layout.
  rewrite (oob_bind _ _ _ _ H0), (oob_bind _ _ _ _ H1), (oob_bind _ _ _ _ H2).
  rewrite (oob_bind _ _ _ _ Hv), (oob_bind _ _ _ _ H4).
  rewrite (oob_bind _ (arp_buffer csm (w_msg_id w) (ms ++ [m]) n)); [done|].
  unfold arp_buffer. rewrite fmap_app. change (neigh_entry <$> [m]) with [neigh_entry m]. by rewrite <-Hst.
Qed.

Lemma ndisc_info_run c csm m p1 p2 p3 id ms n w :
  w_csms w !! c = Some csm → c ≠ NULL → neigh_ok 16 m → Forall (neigh_ok 16) ms →
  (22 + 48 * (length ms + 1) ≤ n)%nat →
  mlacp_prepare_for_ndisc_info c (ndisc_buffer csm id ms n) n (neigh_bytes m p1 p2 p3) (length ms) w
  = Ok (Z.of_nat (22 + 48 * (length ms + 1)), ndisc_buffer csm (w_msg_id w) (ms ++ [m]) n) (bump_msg_id w).
Proof.
  intros Hc Hn Hm Hms Hl. unfold mlacp_prepare_for_ndisc_info. rewrite eqb_null by done.
  cbv zeta. eval_layout.
  destruct (Nat.ltb_spec n (16 + (6 + 48 * (length ms + 1)))); [lia|].
  destruct (neigh_fields 16 m p1 p2 p3 Hm) as (H0 & H1 & H2 & H3 & H4).
  destruct (batch_step c csm id TLV_T_MLACP_NDISC_INFO 48 (neigh_entry <$> ms) (neigh_entry m)
    [W8 (22 + 48 * length ms + 0) (nb_op m); W8 (22 + 48 * length ms + 1) (nb_flag m);
     WB (22 + 48 * length ms + 3) (cstr (nb_ifname m) ++ [0]);
     WB (22 + 48 * length ms + 24) (nb_addr m); WB (22 + 48 * length ms + (24 + 16)) (nb_mac m)] n w)
    as (b1 & Hfill & Hst);
    [done|done|done|by apply (neigh_entries_ok 16)|by apply (neigh_entry_ok 16)|by rewrite length_fmap|..].
  { intros hdr rest Hh. rewrite length_fmap in Hh.
    rewrite <-(neigh_entry_stores 16 _ hdr m rest Hm Hh). cbn [apply_stores apply_store]. done. }
  rewrite length_fmap in *. replace (16 + (6 + 48 * (length ms + 1)))%nat with (22 + 48 * (length ms + 1))%nat by lia.
  rewrite (bind_ok _ _ _ _ _ Hfill). cbv beta iota.
  unfold field_u8, field_u32, field_bytes. eval_layout.
  rewrite (oob_bind _ _ _ _ H0), (oob_bind _ _ _ _ H1), (oob_bind _ _ _ _ H2).
  rewrite (oob_bind _ _ _ _ H3), (oob_bind _ _ _ _ H4).
  rewrite (oob_bind _ (ndisc_buffer csm (w_msg_id w) (ms ++ [m]) n)); [done|].
  unfold ndisc_buffer. rewrite fmap_app. change (neigh_entry <$> [m]) with [neigh_entry m]. by rewrite <-Hst.
Qed.

(** ** Port channels and their VLANs *)

Definition port_channel_name (lif : LocalInterface) : list Z :=
  take (Nat.min MAX_L_PORT_NAME (length (cstr (lif_name lif)))) (lif_name lif).

Definition port_channel_body (lif : LocalInterface) : list Z :=
  let nm := port_channel_name lif in
  be16 (Z.of_nat (32 + 2 * length (lif_vlan_tree lif))) ++ be16 (lif_po_id lif)
  ++ (nm ++ replicate (20 - length nm) 0) ++ [u8 (Z.of_nat (length nm)); u8 (lif_l3_mode lif)]
  ++ be32 (lif_ipv4_addr lif) ++ be16 (lif_po_id lif)
  ++ be16 (Z.of_nat (length (lif_vlan_tree lif))) ++ concat ((λ v, be16 (vid v)) <$> lif_vlan_tree lif).

Lemma vlan_stores_at d vs hdr rest :
  length hdr = d →
  apply_stores (imap (λ i v, W16 (d + 2 * i) (htons (vid v))) vs)
    (hdr ++ replicate (2 * length vs) 0 ++ rest)
  = Some (hdr ++ concat ((λ v, be16 (vid v)) <$> vs) ++ rest).
Proof.
  revert d hdr. induction vs as [|v vs IH]; intros d hdr Hd; [done|].
  replace (2 * length (v :: vs))%nat with (2 + 2 * length vs)%nat by (simpl; lia).
  rewrite replicate_add, <-app_assoc. rewrite imap_cons. cbn [apply_stores apply_store].
  rewrite le16_be16, Nat.mul_0_r, Nat.add_0_r, put_at by done. cbn [mbind option_bind].
  rewrite (app_assoc hdr).
  replace (imap _ vs) with (imap (λ i v, W16 (d + 2 + 2 * i) (htons (vid v))) vs)
    by (apply imap_ext; intros; simpl; f_equal; lia).
  rewrite IH by (rewrite length_app, Hd; done). by rewrite fmap_cons, concat_cons, <-!app_assoc.
Qed.

Lemma vlan_body_length vs : length (concat ((λ v, be16 (vid v)) <$> vs)) = (2 * length vs)%nat.
Proof. induction vs as [|v vs IH]; [done|]. rewrite fmap_cons, concat_cons, length_app, IH. simpl. lia. Qed.

Lemma port_channel_name_length lif : (length (port_channel_name lif) ≤ 20)%nat.
Proof. unfold port_channel_name, MAX_L_PORT_NAME. rewrite length_take. lia. Qed.

Lemma port_channel_body_length lif :
  length (port_channel_body lif) = (34 + 2 * length (lif_vlan_tree lif))%nat.
Proof.
  unfold port_channel_body. cbv zeta. rewrite !length_app, vlan_body_length, length_replicate.
  pose proof (port_channel_name_length lif). simpl. lia.
Qed.

(** The members of the TLV, in the order in which the builder sets them. *)
Lemma port_channel_stores (len num po l3 : Z) ip nm rest :
  (length nm ≤ 20)%nat →
  apply_stores
    [W16 0 (htons len); W16 2 (htons po); W32 26 (htonl ip); W8 25 l3; W16 30 (htons po);
     WB 4 nm; W8 24 (Z.of_nat (length nm)); W16 32 (htons num)] (replicate 34 0 ++ rest)
  = Some ((be16 len ++ be16 po ++ (nm ++ replicate (20 - length nm) 0)
           ++ [u8 (Z.of_nat (length nm)); u8 l3] ++ be32 ip ++ be16 po ++ be16 num) ++ rest).
Proof.
  intros Hl. rewrite apply_stores_prefix
    by (rewrite length_replicate; repeat (apply Forall_cons_2; [simpl; lia|]); apply Forall_nil_2).
  cbn [apply_stores apply_store]. be_vars.
  change (put 0 [x3; x4] (replicate 34 0)) with (Some ([x3; x4] ++ replicate 32 0)).
  cbn [mbind option_bind].
  change (put 2 [x1; x2] ([x3; x4] ++ replicate 32 0)) with (Some ([x3; x4; x1; x2] ++ replicate 30 0)).
  cbn [mbind option_bind].
  change (put 26 [x5; x6; x7; x8] ([x3; x4; x1; x2] ++ replicate 30 0))
    with (Some ([x3; x4; x1; x2] ++ replicate 20 0 ++ [0; 0; x5; x6; x7; x8; 0; 0; 0; 0])).
  cbn [mbind option_bind].
  change (put 25 ?b ([x3; x4; x1; x2] ++ replicate 20 0 ++ [0; 0; x5; x6; x7; x8; 0; 0; 0; 0]))
    with (Some ([x3; x4; x1; x2] ++ replicate 20 0 ++ ([0] ++ b ++ [x5; x6; x7; x8; 0; 0; 0; 0]))).
  cbn [mbind option_bind].
  change (put 30 [x1; x2] ([x3; x4; x1; x2] ++ replicate 20 0 ++ ([0] ++ [u8 l3] ++ [x5; x6; x7; x8; 0; 0; 0; 0])))
    with (Some ([x3; x4; x1; x2] ++ replicate 20 0 ++ ([0; u8 l3; x5; x6; x7; x8; x1; x2; 0; 0]))).
  cbn [mbind option_bind]. rewrite (replicate_split (length nm) 20) by lia. rewrite <-(app_assoc (replicate _ _)).
  rewrite put_at by (rewrite ?length_replicate; done). cbn [mbind option_bind].
  assert (length ([x3; x4; x1; x2] ++ nm ++ replicate (20 - length nm) 0) = 24%nat) as H24
    by (rewrite !length_app, length_replicate; simpl; lia).
  rewrite (app_assoc nm), (app_assoc [x3; x4; x1; x2]).
  change ([0; u8 l3; x5; x6; x7; x8; x1; x2; 0; 0]) with ([0] ++ [u8 l3; x5; x6; x7; x8; x1; x2; 0; 0]).
  rewrite put_at by done. cbn [mbind option_bind].
  change ([u8 (Z.of_nat (length nm))] ++ [u8 l3; x5; x6; x7; x8; x1; x2; 0; 0])
    with ([u8 (Z.of_nat (length nm)); u8 l3; x5; x6; x7; x8; x1; x2] ++ [0; 0] ++ []).
  rewrite app_assoc, put_at by (rewrite ?length_app in *; simpl in *; lia || done).
  cbn [mbind option_bind fmap option_fmap option_map]. by rewrite <-!app_assoc.
Qed.

Lemma port_channel_run c csm p lif buf w :
  w_csms w !! c = Some csm → c ≠ NULL → w_lifs w !! p = Some lif → p ≠ NULL →
  lif_type lif ≠ IF_T_PORT → (52 + 2 * length (lif_vlan_tree lif) ≤ length buf)%nat →
  mlacp_prepare_for_port_channel_info c buf (length buf) p w
  = Ok (Z.of_nat (52 + 2 * length (lif_vlan_tree lif)),
        tlv_in_buffer csm (w_msg_id w) TLV_T_MLACP_PORT_CHANNEL_INFO (port_channel_body lif) (length buf))
       (bump_msg_id w).
Proof.
  intros Hc Hn Hp Hpn Ht Hbuf. unfold mlacp_prepare_for_port_channel_info. rewrite !eqb_null by done.
  rewrite (deref_bind w_lifs p lif) by done. rewrite (proj2 (Z.eqb_neq _ _) Ht). cbv zeta. eval_layout.
  set (vs := lif_vlan_tree lif) in *.
  destruct (Nat.ltb_spec (length buf) (16 + (36 + 2 * length vs))); [lia|].
  rewrite (oob_bind _ _ _ _ (memset0_all _ _ eq_refl)).
  erewrite fill_header_bind by (done || mem_side). rewrite drop_replicate. cbv beta iota. eval_layout.
  erewrite oob_bind; [reflexivity|]. unfold tlv_len_store, vlan_stores. eval_layout.
  apply tlv_body_run; [done|rewrite port_channel_body_length; unfold vs in *; lia|
    rewrite port_channel_body_length; unfold vs in *; lia|..].
  all: rewrite ?port_channel_body_length; fold (port_channel_name lif) vs;
    pose proof (port_channel_name_length lif) as Hnm.
  - apply Forall_app_2; [store_side|]. apply Forall_lookup_2. intros i s Hs.
    apply list_lookup_imap_Some in Hs as (v & _ & ->). simpl. lia.
  - apply Forall_app_2; [repeat (apply Forall_cons_2; [simpl; lia|]); apply Forall_nil_2|].
    apply Forall_lookup_2. intros i s Hs. apply list_lookup_imap_Some in Hs as (v & Hv & ->).
    apply lookup_lt_Some in Hv. simpl. lia.
  - rewrite fmap_app. cbn [fmap list_fmap shift_store]. eval_layout.
    rewrite replicate_add, apply_stores_app, port_channel_stores by done. cbn [mbind option_bind].
    replace (shift_store 18 <$> _) with (imap (λ i v, W16 (34 + 2 * i) (htons (vid v))) vs)
      by (by rewrite fmap_imap).
    rewrite <-(app_nil_r (replicate (2 * length vs) 0)), (vlan_stores_at 34);
      [|rewrite !length_app, length_replicate; simpl; lia].
    unfold port_channel_body. cbv zeta. fold vs. by rewrite app_nil_r, <-!app_assoc.
Qed.
