(* ===== verification/Port.v ===== *)
(** * Interfaces and VLANs ([port.c], lookups of [system.c])

    The local interfaces of the system, the interfaces the peer announced, and
    the VLAN tree of each.  A red-black tree of [openbsd_tree.h] is the list of
    its nodes in key order: [RB_FIND], [RB_INSERT] and [RB_REMOVE] are the
    operations on it, and [RB_FOREACH] walks it. *)

From S2P Require Import Prelude CMem CString MsgFormat State Machine.
#[local] Open Scope Z_scope.

(** ** VLAN trees *)

(** [vlan_node_compare] *)
Definition vlan_node_compare (v1 v2 : VLAN_ID) : Z :=
  if vid v1 <? vid v2 then -1 else if vid v1 >? vid v2 then 1 else 0.

(** [RB_FIND(vlan_rb_tree, tree, key)] *)
Definition vlan_find (key : Z) (tree : list VLAN_ID) : option VLAN_ID :=
  snd <$> list_find (λ v, vid v = key) tree.

(** [RB_INSERT]: a node whose key is present is not inserted. *)
Fixpoint vlan_insert (v : VLAN_ID) (tree : list VLAN_ID) : list VLAN_ID :=
  match tree with
  | [] => [v]
  | x :: tree' =>
      if vlan_node_compare v x =? -1 then v :: tree
      else if vlan_node_compare v x =? 1 then x :: vlan_insert v tree'
      else tree
  end.

(** [VLAN_RB_REMOVE] of the node with key [key]. *)
Definition vlan_remove (key : Z) (tree : list VLAN_ID) : list VLAN_ID :=
  filter (λ v, vid v ≠ key) tree.

(** An assignment to a member of the node with key [key]. *)
Definition vlan_update (key : Z) (f : VLAN_ID → VLAN_ID) (tree : list VLAN_ID) : list VLAN_ID :=
  (λ v, if vid v =? key then f v else v) <$> tree.

(** [vlan_info_init]: [vid = -1] in a [uint16_t] *)
Definition vlan_info_init : VLAN_ID := mkVLAN_ID (u16 (-1)) 0 NULL.

(** ** Walking lists *)

(** The first pointer of [l] that satisfies [f], or [NULL]. *)
Fixpoint mfind (l : list ptr) (f : ptr → W bool) : W ptr :=
  match l with
  | [] => mret NULL
  | p :: l' => b ← f p; if (b : bool) then mret p else mfind l' f
  end.

(** [LIST_REMOVE] *)
Definition list_del (p : ptr) (l : list ptr) : list ptr := filter (λ q, q ≠ p) l.
Lemma list_del_absent (p : ptr) l : p ∉ l → list_del p l = l.
Proof.
  unfold list_del. induction l as [|q l IH]; intros Hp; [done|]. apply not_elem_of_cons in Hp as [Hq Hp].
  rewrite filter_cons_True by congruence. by rewrite IH.
Qed.

Definition lif_upd (p : ptr) (f : LocalInterface → LocalInterface) : W unit := update w_lifs p f.
Definition pif_upd (p : ptr) (f : PeerInterface → PeerInterface) : W unit := update w_pifs p f.
Definition sys_upd (f : System → System) : W unit := modify (set w_sys f).

(** ** Local interfaces *)

Definition ipv6_null : list Z := replicate 16 0.
Definition null_mac : list Z := replicate 6 0.

(** [local_if_init]: the whole structure is cleared first. *)
Definition local_if_init : LocalInterface := {|
  lif_ifindex := 0; lif_type := IF_T_UNKNOW; lif_name := replicate 20 0;
  lif_mac_addr := null_mac; lif_mac_addr_ori := null_mac; lif_state := PORT_STATE_DOWN;
  lif_ipv4_addr := 0; lif_prefixlen := 32; lif_ipv6_addr := ipv6_null; lif_prefixlen_v6 := 0;
  lif_ipv6_ll_addr := ipv6_null; lif_ll_prefixlen_v6 := 0; lif_l3_mode := 0;
  lif_l3_mac_addr := null_mac; lif_is_peer_link := 0;
  lif_portchannel_member_buf := replicate 512 0; lif_is_arp_accept := 0; lif_po_id := -1;
  lif_po_active := 1; lif_mlacp_state := MLACP_STATE_INIT; lif_isolate_to_peer_link := 0;
  lif_po_down_time := 0; lif_csm := NULL; lif_changed := 1; lif_port_config_sync := 0;
  lif_is_traffic_disable := false; lif_is_l3_proto_enabled := false; lif_vlan_count := 0;
  lif_master_ifindex := 0; lif_vlan_tree := [] |}.

(** [local_if_find_by_name] *)
Definition local_if_find_by_name (ifname : list Z) : W ptr :=
  lifs ← gets (λ w, sys_lif_list (w_sys w));
  mfind lifs (λ p, lif ← deref w_lifs p; mret (str_eqb (lif_name lif) ifname)).

(** [local_if_find_by_ifindex] *)
Definition local_if_find_by_ifindex (ifindex : Z) : W ptr :=
  lifs ← gets (λ w, sys_lif_list (w_sys w));
  mfind lifs (λ p, lif ← deref w_lifs p; mret (lif_ifindex lif =? ifindex)).

(** [local_if_find_by_po_id] *)
Definition local_if_find_by_po_id (po_id : Z) : W ptr :=
  lifs ← gets (λ w, sys_lif_list (w_sys w));
  mfind lifs (λ p, lif ← deref w_lifs p;
    mret ((lif_type lif =? IF_T_PORT_CHANNEL) && (lif_po_id lif =? po_id))).

(** [local_if_is_l3_mode] *)
Definition is_l3 (lif : LocalInterface) : bool :=
  negb (lif_ipv4_addr lif =? 0) || negb (memcmp (lif_ipv6_addr lif) ipv6_null =? 0)
  || negb (lif_master_ifindex lif =? 0).

Definition local_if_is_l3_mode (p : ptr) : W bool :=
  if p =? NULL then mret false else lif ← deref w_lifs p; mret (is_l3 lif).

(** [local_if_l3_proto_enabled] *)
Definition local_if_l3_proto_enabled (ifname : list Z) : W Z :=
  lifs ← gets (λ w, sys_lif_list (w_sys w));
  b ← mforeach_break lifs (λ p,
    lif ← deref w_lifs p; mret (str_eqb (lif_name lif) ifname && lif_is_l3_proto_enabled lif));
  mret (if (b : bool) then 1 else 0).

(** [local_if_vlan_remove]: the VLAN nodes of all ports forget the interface. *)
Definition local_if_vlan_remove (lif_vlan : ptr) : W unit :=
  if lif_vlan =? NULL then mret tt
  else
    vl ← deref w_lifs lif_vlan;
    if negb (lif_type vl =? IF_T_VLAN) then mret tt
    else
      let key := u16 (sscanf_d "Vlan" (lif_name vl)) in
      lifs ← gets (λ w, sys_lif_list (w_sys w));
      mforeach lifs (λ p,
        lif ← deref w_lifs p;
        if lif_type lif =? IF_T_VLAN then mret tt
        else lif_upd p (set lif_vlan_tree (vlan_update key (set vlan_itf (λ _, NULL))))).

(** [local_if_del_vlan] *)
Definition local_if_del_vlan (local_if : ptr) (v : Z) : W unit :=
  lif ← deref w_lifs local_if;
  match vlan_find v (lif_vlan_tree lif) with
  | None => mret tt
  | Some _ =>
      lif_upd local_if (λ l, l <| lif_vlan_tree ::= vlan_remove v |>
                               <| lif_port_config_sync := 1 |>
                               <| lif_vlan_count ::= λ n, u32 (n - 1) |>)
  end.

(** [local_if_del_all_vlan] *)
Definition local_if_del_all_vlan (p : ptr) : W unit :=
  lif ← deref w_lifs p;
  mforeach (lif_vlan_tree lif) (λ v,
    lif_upd p (λ l, l <| lif_vlan_tree ::= vlan_remove (vid v) |>
                      <| lif_vlan_count ::= λ n, u32 (n - 1) |>)).

(** [local_if_change_flag_clear] *)
Definition local_if_change_flag_clear : W unit :=
  lifs ← gets (λ w, sys_lif_list (w_sys w));
  mforeach lifs (λ p,
    lif ← deref w_lifs p;
    when (lif_changed lif =? 1) (lif_upd p (set lif_changed (λ _, 0)))).

(** [local_if_mlacp_purge_del] *)
Definition local_if_mlacp_purge_del (p : ptr) : W unit :=
  if p =? NULL then mret tt
  else
    lif ← deref w_lifs p;
    if lif_csm lif =? NULL then mret tt
    else mlacp_upd (lif_csm lif) (set lif_purge_list (list_del p)).

(** [local_if_purge_clear]: every purged interface is unlinked and freed. *)
Definition local_if_purge_clear : W unit :=
  purge ← gets (λ w, sys_lif_purge_list (w_sys w));
  mforeach purge (λ p,
    sys_upd (set sys_lif_purge_list (list_del p));;
    local_if_mlacp_purge_del p;;
    local_if_del_all_vlan p;;
    free w_lifs p);;
  sys_upd (set sys_lif_purge_list (λ _, [])).

(** [local_if_finalize] *)
Definition local_if_finalize (p : ptr) : W unit :=
  if p =? NULL then mret tt else local_if_del_all_vlan p;; free w_lifs p.

(** ** Interfaces of the peer *)

Definition peer_if_zero : PeerInterface := {|
  pif_ifindex := 0; pif_type := 0; pif_name := replicate 20 0; pif_mac_addr := null_mac;
  pif_state := 0; pif_ipv4_addr := 0; pif_l3_mode := 0; pif_is_peer_link := 0; pif_po_id := 0;
  pif_po_active := 0; pif_csm := NULL; pif_vlan_tree := [] |}.

(** [peer_if_create] *)
Definition peer_if_create (c : ptr) (peer_if_number type : Z) : W ptr :=
  if c =? NULL then mret NULL
  else if peer_if_number <? 0 then mret NULL
  else if negb (type =? IF_T_PORT) && negb (type =? IF_T_PORT_CHANNEL) then mret NULL
  else
    p ← alloc w_pifs 96
          (if type =? IF_T_PORT
           then peer_if_zero <| pif_ifindex := peer_if_number |> <| pif_type := IF_T_PORT |> <| pif_csm := c |>
           else peer_if_zero <| pif_ifindex := peer_if_number |> <| pif_type := IF_T_PORT_CHANNEL |>);
    if p =? NULL then mret NULL
    else mlacp_upd c (set pif_list (cons p));; mret p.

(** [peer_if_find_by_name] *)
Definition peer_if_find_by_name (c : ptr) (name : list Z) : W ptr :=
  if c =? NULL then mret NULL
  else
    csm ← deref w_csms c;
    mfind (pif_list (MLACP csm)) (λ p, pif ← deref w_pifs p; mret (str_eqb (pif_name pif) name)).

(** [peer_if_del_all_vlan] *)
Definition peer_if_del_all_vlan (p : ptr) : W unit :=
  pif ← deref w_pifs p;
  mforeach (pif_vlan_tree pif) (λ v, pif_upd p (set pif_vlan_tree (vlan_remove (vid v)))).

(** [peer_if_destroy]; the list entry is that of the machine [c]. *)
Definition peer_if_destroy (c p : ptr) : W unit :=
  mlacp_upd c (set pif_list (list_del p));;
  peer_if_del_all_vlan p;;
  free w_pifs p.

(** [peer_if_add_vlan] *)
Definition peer_if_add_vlan (p : ptr) (v : Z) : W Z :=
  pif ← deref w_pifs p;
  match vlan_find v (pif_vlan_tree pif) with
  | Some _ => pif_upd p (set pif_vlan_tree (vlan_update v (set vlan_removed (λ _, 0))));; mret 0
  | None =>
      r ← sys (SysMalloc 48);
      if r =? 0 then mret MCLAG_ERROR
      else
        pif_upd p (set pif_vlan_tree (vlan_insert (vlan_info_init <| vid := v |> <| vlan_removed := 0 |>)));;
        mret 0
  end.

(** [peer_if_clean_unused_vlan]: the walk keeps the node to remove one step
    behind, so that no removed node is followed. *)
Definition clean_pending (p : ptr) (prev : option VLAN_ID) : W unit :=
  match prev with
  | Some v => pif_upd p (set pif_vlan_tree (vlan_remove (vid v)))
  | None => mret tt
  end.

Fixpoint clean_walk (p : ptr) (prev : option VLAN_ID) (l : list VLAN_ID) : W (option VLAN_ID) :=
  match l with
  | [] => mret prev
  | next :: l' =>
      clean_pending p prev;;
      clean_walk p (if vlan_removed next =? 1 then Some next else None) l'
  end.

Definition peer_if_clean_unused_vlan (p : ptr) : W Z :=
  pif ← deref w_pifs p;
  last ← clean_walk p None (pif_vlan_tree pif);
  clean_pending p last;;
  mret 0.

(** ** State machines by name ([system.c]) *)

(** [system_get_csm_by_peer_ip] *)
Definition system_get_csm_by_peer_ip (ip : list Z) : W ptr :=
  cs ← gets (λ w, csm_list (w_sys w));
  mfind cs (λ c, csm ← deref w_csms c; mret (str_eqb (peer_ip csm) ip)).

(** [system_get_csm_by_peer_ifname] *)
Definition system_get_csm_by_peer_ifname (ifname : list Z) : W ptr :=
  cs ← gets (λ w, csm_list (w_sys w));
  mfind cs (λ c, csm ← deref w_csms c; mret (str_eqb ifname (peer_itf_name csm))).

(** [system_get_csm_by_mlacp_id] *)
Definition system_get_csm_by_mlacp_id (id : Z) : W ptr :=
  cs ← gets (λ w, csm_list (w_sys w));
  mfind cs (λ c, csm ← deref w_csms c; mret (mlacp_id (MLACP csm) =? id)).

(** [system_get_first_csm] *)
Definition system_get_first_csm : W ptr :=
  cs ← gets (λ w, csm_list (w_sys w)); mret (default NULL (head cs)).

(** [is_unique_ip_configured] ([mlacp_link_handler.c]) *)
Definition is_unique_ip_configured (ifname : list Z) : W bool :=
  l ← gets (λ w, unq_ip_if_list (w_sys w)); mret (existsb (λ n, str_eqb n ifname) l).
