(* ===== verification/Show.v ===== *)
(** * Show commands of the daemon ([iccp_cmd_show.c], [logger.c])

    Each command walks the state machines and copies what they hold into a buffer of
    fixed-size structures behind the room for a reply header.  The buffer starts with
    [MCLAGDCTL_CMD_SIZE] bytes and grows by as many whenever the next structure would
    not fit. *)

From S2P Require Import Prelude CMem CString MsgFormat ShowFormat State Machine IccpMsg IccpQueue SyncPrepare Port.
#[local] Open Scope Z_scope.

(** ** The logger's configuration *)

(** [log_level_to_string] *)
Definition log_level_to_string (level : Z) : string :=
  if level =? CRITICAL then "CRITICAL"
  else if level =? ERR then "ERROR"
  else if level =? WARN then "WARN"
  else if level =? NOTICE then "NOTICE"
  else if level =? INFO then "INFO"
  else if level =? DEBUG then "DEBUG"
  else "INFO".

(** [logger_get_configuration] *)
Definition logger_get_configuration : W LoggerConfig :=
  c ← gets w_logger;
  when (logger_ready c =? 0) (modify (set w_logger (λ _, mkLoggerConfig 0 NOTICE 1)));;
  gets w_logger.

(** [logger_set_configuration]; the level is kept in a [uint8_t]. *)
Definition logger_set_configuration (level : Z) : W unit :=
  _ ← logger_get_configuration;
  modify (set w_logger (λ c, c <| log_level := u8 level |> <| logger_ready := 1 |>)).

(** ** The growing buffer *)

(** The size and the count are variables of the type [int]; expressions with [sizeof]
    are of the type [size_t]. *)
Record dump_buf : Type := DumpBuf {
  db_bytes : list Z;
  db_size : Z;
  db_num : Z
}.

(** [(char* )malloc(MCLAGDCTL_CMD_SIZE)]; the contents are unspecified. *)
Definition dump_alloc : W (option dump_buf) :=
  r ← sys (SysMalloc MCLAGDCTL_CMD_SIZE);
  if r =? 0 then mret None
  else bs ← uninit (Z.to_nat MCLAGDCTL_CMD_SIZE); mret (Some (DumpBuf bs MCLAGDCTL_CMD_SIZE 0)).

(** The [memcpy] of a structure behind the others, the count and the [realloc];
    [None] when that fails.  An [int] that overflows wraps around. *)
Definition dump_append (s : struct) (e : list Z) (d : dump_buf) : W (option dump_buf) :=
  let offset := u64 (Z.of_nat MCLAGD_REPLY_INFO_HDR + db_num d * Z.of_nat (sizeof s)) in
  bs ← oob (put (Z.to_nat offset) e (db_bytes d));
  let num := to_int (db_num d + 1) in
  if u64 (to_int (num + 1) * Z.of_nat (sizeof s)) >? u64 (db_size d - Z.of_nat MCLAGD_REPLY_INFO_HDR) then
    let size := to_int (db_size d + MCLAGDCTL_CMD_SIZE) in
    r ← sys (SysRealloc (u64 size));
    if r =? 0 then mret None
    else
      let n := Z.to_nat (u64 size) in
      more ← uninit (n - length bs); mret (Some (DumpBuf (take n bs ++ more) size num))
  else mret (Some (DumpBuf bs (db_size d) num)).

(** A loop over a list that ends when its body returns [None]. *)
Fixpoint dump_walk {A D} (l : list A) (f : A → D → W (option D)) (d : D) : W (option D) :=
  match l with
  | [] => mret (Some d)
  | x :: l' => r ← f x d; match r with None => mret None | Some d => dump_walk l' f d end
  end.

(** The loop over the machines: those with the identifier, or all when it is not
    positive; whether the identifier was met. *)
Definition dump_machines {D} (mclag_id : Z) (f : ptr → D → W (option D)) (d : D) : W (option (bool * D)) :=
  cs ← gets (λ w, csm_list (w_sys w));
  dump_walk cs (λ c '(id_exist, d),
    csm ← deref w_csms c;
    if (mclag_id >? 0) && negb (mlag_id csm =? mclag_id) then mret (Some (id_exist, d))
    else
      r ← f c d;
      mret (pair (id_exist || (mclag_id >? 0)) <$> r)) (false, d).

(** What a dump leaves to its caller: the buffer, if it is set, and the result. *)
Definition dump_end (mclag_id : Z) (r : option (bool * dump_buf)) : option dump_buf * Z :=
  match r with
  | None => (None, EXEC_TYPE_FAILED)
  | Some (id_exist, d) =>
      (Some d, if (mclag_id >? 0) && negb id_exist then EXEC_TYPE_NO_EXIST_MCLAGID else EXEC_TYPE_SUCCESS)
  end.

(** The body that the dumps of the objects of a machine share. *)
Definition dump_objects (mclag_id : Z) (f : ptr → dump_buf → W (option dump_buf)) : W (option dump_buf * Z) :=
  b ← dump_alloc;
  match b with
  | None => mret (None, EXEC_TYPE_FAILED)
  | Some d => r ← dump_machines mclag_id f d; mret (dump_end mclag_id r)
  end.

(** A structure after [memset] and its assignments. *)
Definition filled (s : struct) (ss : list store) : W (list Z) :=
  oob (apply_stores ss (replicate (sizeof s) 0)).

(** [memcpy(dst, src, n)] of an array *)
Definition copy (n : nat) (src : list Z) : W (list Z) := oob (rd_bytes 0 n src).

(** [show_ip_str] and [show_ipv6_str] ([mlacp_link_handler.c]): the global arrays
    after the call *)
Definition show_ip_str (ipv4_addr : Z) : list Z :=
  let s := inet_ntop4 (le32 ipv4_addr) in s ++ replicate (16 - length s) 0.
Definition show_ipv6_str (ipv6_addr : list Z) : list Z :=
  let s := inet_ntop6 ipv6_addr in s ++ replicate (INET6_ADDRSTRLEN - length s) 0.

(** ** MAC entries *)

Definition mac_stores (m : MACMsg) : list store :=
  let o := offsetof mclagd_mac_msg in
  [W8 (o "op_type") (mac_op_type m); W8 (o "fdb_type") (mac_fdb_type m);
   WB (o "mac_addr") (take ETHER_ADDR_LEN (mac_addr m)); W16 (o "vid") (mac_vid m);
   WB (o "ifname") (cstr (mac_ifname m)); WB (o "origin_ifname") (cstr (mac_origin_ifname m));
   W8 (o "age_flag") (mac_age_flag m)].

Definition mac_show (p : ptr) : W (list Z) := m ← deref w_macs p; filled mclagd_mac_msg (mac_stores m).

(** [iccp_mac_dump] *)
Definition iccp_mac_dump (mclag_id : Z) : W (option dump_buf * Z) :=
  dump_objects mclag_id (λ c d,
    csm ← deref w_csms c;
    dump_walk (mac_rb (MLACP csm)) (λ p d,
      e ← mac_show p; dump_append mclagd_mac_msg e d) d).

(** ** Neighbours *)

(** [iccp_arp_dump] *)
Definition arp_show (b : list Z) : W (list Z) :=
  let o := offsetof mclagd_arp_msg in
  op ← field_u8 ARPMsg "op_type" b;
  learn ← field_u8 ARPMsg "learn_flag" b;
  name ← field_bytes ARPMsg "ifname" MAX_L_PORT_NAME b;
  ip ← field_u32 ARPMsg "ipv4_addr" b;
  mac ← field_bytes ARPMsg "mac_addr" ETHER_ADDR_LEN b;
  filled mclagd_arp_msg
    [W8 (o "op_type") op; W8 (o "learn_flag") learn; WB (o "ifname") (cstr name);
     WB (o "ipv4_addr") (take 16 (show_ip_str ip)); WB (o "mac_addr") mac].

Definition iccp_arp_dump (mclag_id : Z) : W (option dump_buf * Z) :=
  dump_objects mclag_id (λ c d,
    csm ← deref w_csms c;
    dump_walk (arp_list (MLACP csm)) (λ m d,
      e ← arp_show (msg_buf m); dump_append mclagd_arp_msg e d) d).

(** [iccp_ndisc_dump] *)
Definition ndisc_show (b : list Z) : W (list Z) :=
  let o := offsetof mclagd_ndisc_msg in
  op ← field_u8 NDISCMsg "op_type" b;
  learn ← field_u8 NDISCMsg "learn_flag" b;
  name ← field_bytes NDISCMsg "ifname" MAX_L_PORT_NAME b;
  ip ← field_bytes NDISCMsg "ipv6_addr" 16 b;
  mac ← field_bytes NDISCMsg "mac_addr" ETHER_ADDR_LEN b;
  filled mclagd_ndisc_msg
    [W8 (o "op_type") op; W8 (o "learn_flag") learn; WB (o "ifname") (cstr name);
     WB (o "ipv6_addr") (take 46 (show_ipv6_str ip)); WB (o "mac_addr") mac].

Definition iccp_ndisc_dump (mclag_id : Z) : W (option dump_buf * Z) :=
  dump_objects mclag_id (λ c d,
    csm ← deref w_csms c;
    dump_walk (ndisc_list (MLACP csm)) (λ m d,
      e ← ndisc_show (msg_buf m); dump_append mclagd_ndisc_msg e d) d).

(** ** Interfaces *)

(** The texts of a type and a state; [unknown] bytes of ["Unknown"] are copied. *)
Definition if_type_text (unknown : nat) (type : Z) : list Z :=
  if type =? IF_T_UNKNOW then take unknown (str "Unknown")
  else if type =? IF_T_PORT then str "Ethernet"
  else if type =? IF_T_PORT_CHANNEL then str "PortChannel"
  else [].

Definition if_state_text (state : Z) : list Z :=
  if state =? PORT_STATE_UP then str "Up"
  else if state =? PORT_STATE_DOWN then str "Down"
  else if state =? PORT_STATE_ADMIN_DOWN then str "Admin-down"
  else if state =? PORT_STATE_TEST then str "Test"
  else [].

Definition mlacp_state_text (state : Z) : list Z :=
  if state =? MLACP_STATE_INIT then str "INIT"
  else if state =? MLACP_STATE_STAGE1 then str "STAGE1"
  else if state =? MLACP_STATE_STAGE2 then str "STAGE2"
  else if state =? MLACP_STATE_EXCHANGE then str "EXCHANGE"
  else if state =? MLACP_STATE_ERROR then str "ERROR"
  else [].

(** The list of VLANs: [%d] for the first of a range, [- %d] for its last one, while
    there is room. *)
Record vlan_text : Type := VlanText {
  vt_buf : list Z;
  vt_len : Z;
  vt_prev : Z;
  vt_range : bool;
  vt_to_be_printed : bool
}.

Definition VLAN_STR_SIZE : Z := Z.of_nat MCLAGDCTL_PARA3_LEN - 1.

(** [len += snprintf(str_buf + len, str_size - len, text)] *)
Definition vlan_print (text : list Z) (t : vlan_text) : option vlan_text :=
  b ← snprintf_at (Z.to_nat (vt_len t)) (VLAN_STR_SIZE - vt_len t) text (vt_buf t);
  Some (VlanText b (vt_len t + Z.of_nat (length text)) (vt_prev t) (vt_range t) (vt_to_be_printed t)).

Definition vlan_room (range : bool) : Z := 4 + (if range then 8 else 0).

Fixpoint vlan_loop (vs : list VLAN_ID) (t : vlan_text) : option vlan_text :=
  match vs with
  | [] => Some t
  | v :: vs' =>
      if VLAN_STR_SIZE - vt_len t <? 4 then Some t
      else if (vt_prev t =? 0) || negb (vid v =? vt_prev t + 1) then
        if vt_range t && (VLAN_STR_SIZE - vt_len t <? vlan_room (vt_range t)) then Some t
        else
          t ← (if vt_range t then vlan_print (str "- " ++ fmt_d (vt_prev t) ++ [32]) t else Some t);
          t ← vlan_print (fmt_d (vid v) ++ [32]) t;
          vlan_loop vs' (VlanText (vt_buf t) (vt_len t) (vid v) false false)
      else vlan_loop vs' (VlanText (vt_buf t) (vt_len t) (vid v) true true)
  end.

Definition vlanlist (vs : list VLAN_ID) : option (list Z) :=
  t ← vlan_loop vs (VlanText (replicate MCLAGDCTL_PARA3_LEN 0) 0 0 false false);
  if vt_to_be_printed t && (VLAN_STR_SIZE - vt_len t >? vlan_room (vt_range t)) && negb (vt_prev t =? 0)
  then t ← vlan_print ((if vt_range t then str "- " else []) ++ fmt_d (vt_prev t) ++ [32]) t; Some (vt_buf t)
  else Some (vt_buf t).

(** The structure of a local interface *)
Definition local_if_show (unknown : nat) (p : ptr) : W (list Z) :=
  let o := offsetof mclagd_local_if in
  l ← deref w_lifs p;
  name ← copy MAX_L_PORT_NAME (lif_name l);
  mac ← copy ETHER_ADDR_LEN (lif_mac_addr l);
  l3 ← local_if_is_l3_mode p;
  members ← copy 512 (lif_portchannel_member_buf l);
  vlans ← oob (vlanlist (lif_vlan_tree l));
  filled mclagd_local_if
    [W32 (o "ifindex") (lif_ifindex l); WB (o "type") (if_type_text unknown (lif_type l));
     WB (o "name") name; WB (o "mac_addr") mac; WB (o "state") (if_state_text (lif_state l));
     WB (o "ipv4_addr") (take 16 (show_ip_str (lif_ipv4_addr l))); W8 (o "prefixlen") (lif_prefixlen l);
     W8 (o "l3_mode") (Z.b2z l3); W8 (o "is_peer_link") (lif_is_peer_link l);
     WB (o "portchannel_member_buf") members; W32 (o "po_id") (lif_po_id l);
     W8 (o "po_active") (lif_po_active l); WB (o "mlacp_state") (mlacp_state_text (lif_mlacp_state l));
     W8 (o "isolate_to_peer_link") (lif_isolate_to_peer_link l);
     W8 (o "is_traffic_disable") (Z.b2z (lif_is_traffic_disable l)); WB (o "vlanlist") vlans].

(** [iccp_local_if_dump]: the port channels of a machine, then its peer link *)
Definition iccp_local_if_dump (mclag_id : Z) : W (option dump_buf * Z) :=
  dump_objects mclag_id (λ c d,
    csm ← deref w_csms c;
    r ← dump_walk (lif_list (MLACP csm)) (λ p d,
          e ← local_if_show 6 p; dump_append mclagd_local_if e d) d;
    match r with
    | None => mret None
    | Some d =>
        if peer_link_if csm =? NULL then mret (Some d)
        else e ← local_if_show 7 (peer_link_if csm); dump_append mclagd_local_if e d
    end).

(** [iccp_peer_if_dump] *)
Definition peer_if_show (p : ptr) : W (list Z) :=
  let o := offsetof mclagd_peer_if in
  x ← deref w_pifs p;
  name ← copy MAX_L_PORT_NAME (pif_name x);
  mac ← copy ETHER_ADDR_LEN (pif_mac_addr x);
  filled mclagd_peer_if
    [W32 (o "ifindex") (pif_ifindex x); WB (o "type") (if_type_text 6 (pif_type x)); WB (o "name") name;
     WB (o "mac_addr") mac; WB (o "state") (if_state_text (pif_state x)); W32 (o "po_id") (pif_po_id x);
     W8 (o "po_active") (pif_po_active x)].

Definition iccp_peer_if_dump (mclag_id : Z) : W (option dump_buf * Z) :=
  dump_objects mclag_id (λ c d,
    csm ← deref w_csms c;
    dump_walk (pif_list (MLACP csm)) (λ p d,
      e ← peer_if_show p; dump_append mclagd_peer_if e d) d).

(** [iccp_unique_ip_if_dump]; the identifier is not used. *)
Definition unique_ip_show (ifname : list Z) : W (list Z) :=
  name ← copy MAX_L_PORT_NAME ifname;
  active ← local_if_l3_proto_enabled ifname;
  filled mclagd_unique_ip_if
    [WB (offsetof mclagd_unique_ip_if "name") name; W32 (offsetof mclagd_unique_ip_if "active") active].

Definition iccp_unique_ip_if_dump (mclag_id : Z) : W (option dump_buf * Z) :=
  b ← dump_alloc;
  match b with
  | None => mret (None, EXEC_TYPE_FAILED)
  | Some d =>
      names ← gets (λ w, unq_ip_if_list (w_sys w));
      r ← dump_walk names (λ n d, e ← unique_ip_show n; dump_append mclagd_unique_ip_if e d) d;
      mret (match r with None => (None, EXEC_TYPE_FAILED) | Some d => (Some d, EXEC_TYPE_SUCCESS) end)
  end.

(** ** The state of the machines *)

(** The loop over the port channels: the array and [len], which goes on from the
    machine before. *)
Fixpoint enabled_po_loop (ls : list ptr) (po : list Z) (len : Z) : W (list Z * Z) :=
  let str_size := Z.of_nat MCLAGDCTL_PORT_MEMBER_BUF_LEN in
  match ls with
  | [] => mret (po, len)
  | p :: ls' =>
      if str_size - len <? Z.of_nat ICCP_MAX_PORT_NAME then mret (po, len)
      else
        l ← deref w_lifs p;
        if lif_type l =? IF_T_PORT_CHANNEL then
          let text := cstr (lif_name l) ++ [44] in
          po ← oob (snprintf_at (Z.to_nat len) (str_size - len) text po);
          enabled_po_loop ls' po (len + Z.of_nat (length text))
        else enabled_po_loop ls' po len
  end.

(** [enabled_po] of a machine, and [len] after it. *)
Definition enabled_po (ls : list ptr) (len : Z) : W (list Z * Z) :=
  '(po, _) ← enabled_po_loop ls (replicate MCLAGDCTL_PORT_MEMBER_BUF_LEN 0) len;
  let len := strlen po in
  if len >? 0 then po ← oob (put (Z.to_nat (len - 1)) [0] po); mret (po, len) else mret (po, len).

Definition role_number (r : stp_role_type) : Z :=
  match r with STP_ROLE_NONE => 0 | STP_ROLE_ACTIVE => 1 | STP_ROLE_STANDBY => 2 end.

(** The structure of a machine, and [len] *)
Definition state_show (c : ptr) (len : Z) : W (list Z * Z) :=
  let o := offsetof mclagd_state in
  csm ← deref w_csms c;
  pl ← local_if_find_by_name (peer_itf_name csm);
  local ← copy ICCP_MAX_IP_STR_LEN (sender_ip csm);
  peer ← copy ICCP_MAX_IP_STR_LEN (peer_ip csm);
  link ← (if pl =? NULL then mret [WB (o "peer_link_if") (str "Unknown")]
          else
            l ← deref w_lifs pl;
            name ← copy ICCP_MAX_PORT_NAME (lif_name l);
            mac ← copy ETHER_ADDR_LEN (lif_mac_addr l);
            mret [WB (o "peer_link_if") name; WB (o "peer_link_mac") mac]);
  log ← logger_get_configuration;
  '(po, len) ← enabled_po (lif_list (MLACP csm)) len;
  e ← filled mclagd_state
    ([W32 (o "keepalive") (if bool_decide (current_state csm = ICCP_OPERATIONAL) then 1 else 0);
      W32 (o "info_sync_done") (if mlacp_current_state (MLACP csm) =? MLACP_STATE_EXCHANGE then 1 else 0);
      W32 (o "mclag_id") (if mlag_id csm <=? 0 then -1 else mlag_id csm);
      WB (o "local_ip") local; WB (o "peer_ip") peer]
     ++ link ++
     [W32 (o "keepalive_time") (keepalive_time csm); W32 (o "session_timeout") (session_timeout csm);
      WB (o "loglevel") (str (log_level_to_string (log_level log)));
      W32 (o "role") (role_number (role_type csm)); WB (o "enabled_po") po]);
  mret (e, len).

(** [iccp_mclag_config_dump] *)
Definition iccp_mclag_config_dump (mclag_id : Z) : W (option dump_buf * Z) :=
  b ← dump_alloc;
  match b with
  | None => mret (None, EXEC_TYPE_FAILED)
  | Some d =>
      r ← dump_machines mclag_id (λ c '(d, len),
            '(e, len) ← state_show c len;
            r ← dump_append mclagd_state e d;
            mret ((λ d, (d, len)) <$> r)) (d, 0);
      mret (dump_end mclag_id ((λ '(id_exist, (d, _)), (id_exist, d)) <$> r))
  end.

(** ** Counters *)

(** [sys->dbg_counters]: the members that nothing increments are 0. *)
Definition system_counters (s : System) : list Z :=
  ((λ i, default 0 (netlink_counters s !! i)) <$> [0; 1; 2; 3; 4; 5; 6; 7; 8; 9; 10])
  ++ [session_down_counter s; peer_link_down_counter s; warmboot_counter s;
      rx_peer_invalid_msg_counter s; rx_peer_hdr_read_sock_err_counter s;
      rx_peer_hdr_read_sock_zero_len_counter s; rx_peer_tlv_read_sock_err_counter s;
      rx_peer_tlv_read_sock_zero_len_counter s; socket_close_err_counter s; socket_cleanup_counter s;
      rx_retry_max_counter s; rx_retry_total_counter s; rx_retry_fail_counter s;
      rx_read_sock_zero_len_counter s; 0; 0; 0; 0; 0].

Definition pair_table (n : nat) (t : gmap (Z * Z) Z) : list Z :=
  concat ((λ i : nat, [default 0 (t !! (Z.of_nat i, 0)); default 0 (t !! (Z.of_nat i, 1))]) <$> seq 0 n).

Definition system_dbg_bytes (s : System) : list Z :=
  concat (le32 <$> system_counters s)
  ++ concat (le64 <$> pair_table SYNCD_TX_DBG_CNTR_MSG_MAX (syncd_tx_counters s))
  ++ concat (le64 <$> pair_table SYNCD_RX_DBG_CNTR_MSG_MAX (syncd_rx_counters s)).

(** [MLACP(csm).dbg_counters], by message, direction and status *)
Definition mlacp_counters (t : gmap (Z * Z * Z) Z) : list Z :=
  concat ((λ i : nat, (λ '(dir, st), default 0 (t !! (Z.of_nat i, dir, st))) <$> [(0, 0); (0, 1); (1, 0); (1, 1)])
          <$> seq 0 (Z.to_nat ICCP_DBG_CNTR_MSG_MAX)).
Definition mlacp_dbg_bytes (t : gmap (Z * Z * Z) Z) : list Z := concat (le64 <$> mlacp_counters t).

(** [iccp_cmd_dbg_counter_dump]: the buffer and the length of the data, or the error *)
Definition iccp_cmd_dbg_counter_dump (mclag_id : Z) : W ((list Z * Z) + Z) :=
  s ← gets w_sys;
  let num_csm := if mclag_id >? 0 then 1%nat else length (csm_list s) in
  let buf_size := (MCLAGD_REPLY_INFO_HDR + sizeof mclagd_dbg_counter_info
                   + sizeof mlacp_dbg_counter_info * num_csm)%nat in
  let base := (MCLAGD_REPLY_INFO_HDR + offsetof mclagd_dbg_counter_info "iccp_dbg_counters")%nat in
  r ← sys (SysMalloc (Z.of_nat buf_size));
  if r =? 0 then mret (inr EXEC_TYPE_FAILED)
  else
    buf ← oob (apply_stores
      [WB (MCLAGD_REPLY_INFO_HDR + offsetof mclagd_dbg_counter_info "system_dbg") (system_dbg_bytes s);
       W8 (MCLAGD_REPLY_INFO_HDR + offsetof mclagd_dbg_counter_info "num_iccp_counter_blocks")
          (Z.of_nat num_csm)]
      (replicate buf_size 0));
    r ← dump_walk (csm_list s) (λ c '(k, id_exist, buf),
          csm ← deref w_csms c;
          if (mclag_id >? 0) && negb (mlag_id csm =? mclag_id) then mret (Some (k, id_exist, buf))
          else
            buf ← oob (put (base + k * sizeof mlacp_dbg_counter_info)
                           (mlacp_dbg_bytes (iccp_counters (MLACP csm))) buf);
            mret (Some (S k, id_exist || (mclag_id >? 0), buf))) (0%nat, false, buf);
    mret (match r with
          | Some (_, id_exist, buf) =>
              if (mclag_id >? 0) && negb id_exist then inr EXEC_TYPE_NO_EXIST_MCLAGID
              else inl (buf, Z.of_nat buf_size - Z.of_nat MCLAGD_REPLY_INFO_HDR)
          | None => inr EXEC_TYPE_FAILED
          end).
