(* ===== verification/Lookup.v ===== *)
(** * Lookups

    A walk over a list of pointers returns the first object that satisfies the
    condition, and [NULL] when there is none; it changes nothing. *)

From S2P Require Import Prelude CMem CString MsgFormat State Machine Port.
#[local] Open Scope Z_scope.

(** Every pointer of the list points to an object. *)
Definition all_live {T} (h : gmap Z T) (l : list ptr) : Prop := ∀ p, p ∈ l → is_Some (h !! p).

(** The first one whose object satisfies [f]. *)
Fixpoint first_such {T} (h : gmap Z T) (f : T → bool) (l : list ptr) : ptr :=
  match l with
  | [] => NULL
  | p :: l' => match h !! p with
               | Some x => if f x then p else first_such h f l'
               | None => NULL
               end
  end.

Lemma mfind_run {T} (h : World → gmap Z T) f l w :
  all_live (h w) l →
  mfind l (λ p, x ← deref h p; mret (f x)) w = Ok (first_such (h w) f l) w.
Proof.
  induction l as [|p l IH]; intros Hl; simpl; [done|].
  destruct (Hl p) as [x Hx]; [set_solver|]. rewrite bind_assoc, (deref_bind h p x _ w Hx), Hx.
  unfold mbind at 1, M_bind at 1. cbv beta iota delta [mret M_ret]. destruct (f x); [done|].
  apply IH. intros q Hq. apply Hl. set_solver.
Qed.

Lemma first_such_spec {T} (h : gmap Z T) f l p :
  first_such h f l = p → p ≠ NULL → ∃ x, p ∈ l ∧ h !! p = Some x ∧ f x = true.
Proof.
  induction l as [|q l IH]; simpl; [by intros <-|]. destruct (h !! q) as [x|] eqn:Hx; [|by intros <-].
  destruct (f x) eqn:Hf.
  - intros <- _. exists x. split; [set_solver|done].
  - intros H Hp. destruct (IH H Hp) as (y & Hy & ? & ?). exists y. split; [set_solver|done].
Qed.

(** None is found exactly when none satisfies the condition. *)
Lemma first_such_none {T} (h : gmap Z T) f l :
  all_live h l → NULL ∉ l → (first_such h f l = NULL ↔ ∀ p x, p ∈ l → h !! p = Some x → f x = false).
Proof.
  induction l as [|q l IH]; intros Hl Hn; simpl; [split; [by intros _ ?? ?%elem_of_nil|done]|].
  destruct (Hl q) as [x Hx]; [set_solver|]. rewrite Hx. destruct (f x) eqn:Hf.
  - split; [intros ->; set_solver|]. intros H. rewrite (H q x) in Hf; [done|set_solver|done].
  - rewrite IH by (first [set_solver | intros p Hp; apply Hl; set_solver]). split; [|set_solver].
    intros H p y [->|Hp]%elem_of_cons Hy; [congruence|by eapply H].
Qed.

(** The only one that satisfies the condition is found. *)
Lemma first_such_unique {T} (h : gmap Z T) f l p x :
  all_live h l → p ∈ l → h !! p = Some x → f x = true →
  (∀ q y, q ∈ l → q ≠ p → h !! q = Some y → f y = false) → first_such h f l = p.
Proof.
  induction l as [|q l IH]; intros Hl Hp Hx Hf Hu; [by apply elem_of_nil in Hp|]. simpl.
  destruct (Hl q) as [y Hy]; [set_solver|]. rewrite Hy. destruct (decide (q = p)) as [->|Hne].
  - replace y with x by congruence. by rewrite Hf.
  - rewrite (Hu q y) by (done || set_solver). apply IH; try done.
    + intros r Hr. apply Hl. set_solver.
    + set_solver.
    + intros r z Hr. apply Hu. set_solver.
Qed.

(** The lookups of the interfaces and of the state machines. *)
Definition lif_named (ifname : list Z) (w : World) : ptr :=
  first_such (w_lifs w) (λ l, str_eqb (lif_name l) ifname) (sys_lif_list (w_sys w)).
Definition pif_named (csm : CSM) (ifname : list Z) (w : World) : ptr :=
  first_such (w_pifs w) (λ p, str_eqb (pif_name p) ifname) (pif_list (MLACP csm)).
Definition csm_with_id (id : Z) (w : World) : ptr :=
  first_such (w_csms w) (λ x, mlacp_id (MLACP x) =? id) (csm_list (w_sys w)).

Lemma lif_find_run ifname w :
  all_live (w_lifs w) (sys_lif_list (w_sys w)) → local_if_find_by_name ifname w = Ok (lif_named ifname w) w.
Proof. apply mfind_run. Qed.

Lemma pif_find_run c csm ifname w :
  c ≠ NULL → w_csms w !! c = Some csm → all_live (w_pifs w) (pif_list (MLACP csm)) →
  peer_if_find_by_name c ifname w = Ok (pif_named csm ifname w) w.
Proof.
  intros Hc Hx Hl. unfold peer_if_find_by_name. rewrite eqb_null by done.
  rewrite (deref_bind w_csms _ _ _ _ Hx). by apply mfind_run.
Qed.

Lemma csm_find_run id w :
  all_live (w_csms w) (csm_list (w_sys w)) → system_get_csm_by_mlacp_id id w = Ok (csm_with_id id w) w.
Proof. apply mfind_run. Qed.

(** Liveness of a concrete list. *)
Lemma all_live_Forall {T} (h : gmap Z T) l : Forall (λ p, is_Some (h !! p)) l → all_live h l.
Proof. intros H p Hp. by apply (proj1 (Forall_forall _ _) H p). Qed.
