(* ===== verification/Syncd.v ===== *)
(** * Messages to mclagsyncd ([mlacp_link_handler.c], [system.c])

    The daemon programs the switch through [mclagsyncd]: every request is a
    header and a list of sub-options, built in a send buffer and written to the
    connection [sync_fd].  [iccp_send_to_mclagsyncd] retries a bounded number of
    times. *)

From S2P Require Import Prelude CMem CString MsgFormat State Machine IccpMsg Port.
#[local] Open Scope Z_scope.

(** ** Constants ([msg_format.h], [mlacp_link_handler.h]) *)

Definition ICCPD_TO_MCLAGSYNCD_HDR_VERSION : Z := 1.
Definition ICCP_MLAGSYNCD_SEND_MSG_BUFFER_SIZE : nat := Z.to_nat 4096.
Definition MCLAG_MEMBER_NAME_STR_LEN : Z := 2048.
Definition SYNCD_SEND_RETRY_INTERVAL_USEC : Z := 50000.
Definition SYNCD_SEND_RETRY_MAX : Z := 5.
Definition WARM_REBOOT : Z := 1.
Definition EAGAIN : Z := 11.

Definition MCLAG_MSG_TYPE_PORT_ISOLATE : Z := 1.
Definition MCLAG_MSG_TYPE_PORT_MAC_LEARN_MODE : Z := 2.
Definition MCLAG_MSG_TYPE_FLUSH_FDB : Z := 3.
Definition MCLAG_MSG_TYPE_SET_MAC : Z := 4.
Definition MCLAG_MSG_TYPE_SET_FDB : Z := 5.
Definition MCLAG_MSG_TYPE_SET_TRAFFIC_DIST_ENABLE : Z := 6.
Definition MCLAG_MSG_TYPE_SET_TRAFFIC_DIST_DISABLE : Z := 7.
Definition MCLAG_MSG_TYPE_SET_ICCP_STATE : Z := 8.
Definition MCLAG_MSG_TYPE_SET_ICCP_ROLE : Z := 9.
Definition MCLAG_MSG_TYPE_SET_ICCP_SYSTEM_ID : Z := 10.
Definition MCLAG_MSG_TYPE_DEL_ICCP_INFO : Z := 11.
Definition MCLAG_MSG_TYPE_SET_REMOTE_IF_STATE : Z := 12.
Definition MCLAG_MSG_TYPE_DEL_REMOTE_IF_INFO : Z := 13.
Definition MCLAG_MSG_TYPE_SET_PEER_LINK_ISOLATION : Z := 14.
Definition MCLAG_MSG_TYPE_SET_ICCP_PEER_SYSTEM_ID : Z := 15.

Definition MCLAG_SUB_OPTION_TYPE_ISOLATE_SRC : Z := 1.
Definition MCLAG_SUB_OPTION_TYPE_ISOLATE_DST : Z := 2.
Definition MCLAG_SUB_OPTION_TYPE_MAC_LEARN_ENABLE : Z := 3.
Definition MCLAG_SUB_OPTION_TYPE_MAC_LEARN_DISABLE : Z := 4.
Definition MCLAG_SUB_OPTION_TYPE_SET_MAC_SRC : Z := 5.
Definition MCLAG_SUB_OPTION_TYPE_SET_MAC_DST : Z := 6.
Definition MCLAG_SUB_OPTION_TYPE_MCLAG_INTF_NAME : Z := 7.
Definition MCLAG_SUB_OPTION_TYPE_MCLAG_ID : Z := 8.
Definition MCLAG_SUB_OPTION_TYPE_ICCP_ROLE : Z := 9.
Definition MCLAG_SUB_OPTION_TYPE_SYSTEM_ID : Z := 10.
Definition MCLAG_SUB_OPTION_TYPE_OPER_STATUS : Z := 11.
Definition MCLAG_SUB_OPTION_TYPE_ISOLATION_STATE : Z := 12.

Definition SYNCD_TX_DBG_CNTR_MSG_MAX : Z := 15.

(** [system_syncdtx_to_dbg_msg_type] *)
Definition system_syncdtx_to_dbg_msg_type (msg_type : Z) : Z :=
  if msg_type =? MCLAG_MSG_TYPE_PORT_ISOLATE then 0
  else if msg_type =? MCLAG_MSG_TYPE_PORT_MAC_LEARN_MODE then 1
  else if msg_type =? MCLAG_MSG_TYPE_FLUSH_FDB then 2
  else if msg_type =? MCLAG_MSG_TYPE_SET_MAC then 3
  else if msg_type =? MCLAG_MSG_TYPE_SET_FDB then 4
  else if msg_type =? MCLAG_MSG_TYPE_SET_TRAFFIC_DIST_ENABLE then 5
  else if msg_type =? MCLAG_MSG_TYPE_SET_TRAFFIC_DIST_DISABLE then 6
  else if msg_type =? MCLAG_MSG_TYPE_SET_ICCP_STATE then 7
  else if msg_type =? MCLAG_MSG_TYPE_SET_ICCP_ROLE then 8
  else if msg_type =? MCLAG_MSG_TYPE_SET_ICCP_SYSTEM_ID then 9
  else if msg_type =? MCLAG_MSG_TYPE_SET_REMOTE_IF_STATE then 11
  else if msg_type =? MCLAG_MSG_TYPE_DEL_ICCP_INFO then 10
  else if msg_type =? MCLAG_MSG_TYPE_DEL_REMOTE_IF_INFO then 12
  else if msg_type =? MCLAG_MSG_TYPE_SET_PEER_LINK_ISOLATION then 13
  else if msg_type =? MCLAG_MSG_TYPE_SET_ICCP_PEER_SYSTEM_ID then 14
  else SYNCD_TX_DBG_CNTR_MSG_MAX.

(** [SYSTEM_SET_SYNCD_TX_DBG_COUNTER] *)
Definition SYSTEM_SET_SYNCD_TX_DBG_COUNTER (msg_type status : Z) : W unit :=
  let t := system_syncdtx_to_dbg_msg_type msg_type in
  when ((t <? SYNCD_TX_DBG_CNTR_MSG_MAX) && (status <? 2))
    (sys_upd (set syncd_tx_counters (λ m, <[(t, status) := u64 (default 0 (m !! (t, status)) + 1)]> m))).

(** ** The message under construction

    [msg_hdr->len] grows by the size of each sub-option, so the bytes that are
    sent are the concatenation of the header and the sub-options; writing beyond
    the send buffer is a fault. *)

(** [struct IccpSyncdHDr] and [mclag_sub_option_hdr_t], which are not packed *)
Definition IccpSyncdHDr : struct := Struct false [uint8 "ver"; uint8 "type"; uint16 "len"].
Definition mclag_sub_option_hdr_t : struct := Struct false [uint8 "op_type"; uint16 "op_len"].
(** [struct mclag_fdb_info] *)
Definition mclag_fdb_info : struct := Struct false
  [bytes "mac" ETHER_ADDR_LEN; uint32 "vid"; bytes "port_name" MAX_L_PORT_NAME;
   uint16 "type"; uint16 "op_type"].

Definition sub_option (op_type : Z) (data : list Z) : list Z :=
  [u8 op_type; 0] ++ le16 (Z.of_nat (length data)) ++ data.

Definition syncd_msg (type : Z) (subs : list Z) : list Z :=
  [ICCPD_TO_MCLAGSYNCD_HDR_VERSION; u8 type] ++ le16 (Z.of_nat (sizeof IccpSyncdHDr + length subs)) ++ subs.

(** The message, if it fits the send buffer. *)
Definition syncd_build (type : Z) (subs : list Z) : W (list Z) :=
  let m := syncd_msg type subs in
  if (length m <=? ICCP_MLAGSYNCD_SEND_MSG_BUFFER_SIZE)%nat then mret m else fail OutOfBounds.

Definition c_bool (b : bool) : list Z := [if b then 1 else 0].

(** ** Sending *)

(** The loop of [iccp_send_to_mclagsyncd]: what is left to send, the number of
    retries so far and the position; the number of bytes sent, or [-1].  Every
    round sends a byte or counts a retry, so the length of the message plus the
    number of retries bounds the rounds. *)
Fixpoint syncd_send_loop (fuel : nat) (fd msg_type : Z) (rest : list Z) (num_retry pos : Z) : W Z :=
  match fuel with
  | O => fail OutOfFuel
  | S f =>
      if (length rest =? 0)%nat then
        SYSTEM_SET_SYNCD_TX_DBG_COUNTER msg_type ICCP_DBG_CNTR_STS_OK;; mret pos
      else
        send_len ← sys (SysSend fd rest);
        if send_len <? 0 then
          if - send_len =? EAGAIN then
            let num_retry := num_retry + 1 in
            if num_retry >? SYNCD_SEND_RETRY_MAX then
              SYSTEM_SET_SYNCD_TX_DBG_COUNTER msg_type ICCP_DBG_CNTR_STS_ERR;; mret MCLAG_ERROR
            else
              _ ← sys (SysUsleep SYNCD_SEND_RETRY_INTERVAL_USEC);
              syncd_send_loop f fd msg_type rest num_retry pos
          else
            SYSTEM_SET_SYNCD_TX_DBG_COUNTER msg_type ICCP_DBG_CNTR_STS_ERR;; mret MCLAG_ERROR
        else if send_len =? 0 then
          SYSTEM_SET_SYNCD_TX_DBG_COUNTER msg_type ICCP_DBG_CNTR_STS_ERR;; mret MCLAG_ERROR
        else
          (** [send] never returns more than the length it was given *)
          let n := Nat.min (Z.to_nat send_len) (length rest) in
          syncd_send_loop f fd msg_type (drop n rest) num_retry (pos + Z.of_nat n)
  end.

(** [iccp_send_to_mclagsyncd] *)
Definition iccp_send_to_mclagsyncd (msg_type : Z) (data : list Z) : W Z :=
  fd ← gets (λ w, sync_fd (w_sys w));
  if fd =? 0 then mret 0
  else syncd_send_loop (length data + Z.to_nat SYNCD_SEND_RETRY_MAX + 2) fd msg_type data 0 0.

(** The shared tail of the requests: [0] when the whole message was sent. *)
Definition syncd_request (type : Z) (subs : list Z) : W Z :=
  m ← syncd_build type subs;
  fd ← gets (λ w, sync_fd (w_sys w));
  rc ← (if fd =? 0 then mret 0 else iccp_send_to_mclagsyncd type m);
  if (rc <=? 0) || negb (rc =? Z.of_nat (length m)) then mret MCLAG_ERROR else mret 0.

(** ... of those that count once more on success ... *)
Definition syncd_request_counted (type : Z) (subs : list Z) : W Z :=
  r ← syncd_request type subs;
  if r =? 0 then SYSTEM_SET_SYNCD_TX_DBG_COUNTER type ICCP_DBG_CNTR_STS_OK;; mret 0
  else mret r.

(** ... and of those that write directly. *)
Definition syncd_write (type : Z) (subs : list Z) : W unit :=
  m ← syncd_build type subs;
  fd ← gets (λ w, sync_fd (w_sys w));
  if fd =? 0 then mret tt
  else
    rc ← sys (SysWrite fd m);
    SYSTEM_SET_SYNCD_TX_DBG_COUNTER type
      (if (rc <=? 0) || negb (rc =? Z.of_nat (length m)) then ICCP_DBG_CNTR_STS_ERR else ICCP_DBG_CNTR_STS_OK).

(** ** The requests *)

(** [set_peerlink_mlag_port_learn] *)
Definition set_peerlink_mlag_port_learn (lif : ptr) (enable : Z) : W unit :=
  if lif =? NULL then mret tt
  else
    l ← deref w_lifs lif;
    syncd_write MCLAG_MSG_TYPE_PORT_MAC_LEARN_MODE
      (sub_option (if enable =? 0 then MCLAG_SUB_OPTION_TYPE_MAC_LEARN_DISABLE
                   else MCLAG_SUB_OPTION_TYPE_MAC_LEARN_ENABLE) (cstr (lif_name l))).

(** [mlacp_link_set_traffic_dist_mode] *)
Definition mlacp_link_set_traffic_dist_mode (po_name : list Z) (is_enable : bool) : W Z :=
  syncd_request
    (if is_enable then MCLAG_MSG_TYPE_SET_TRAFFIC_DIST_ENABLE else MCLAG_MSG_TYPE_SET_TRAFFIC_DIST_DISABLE)
    (sub_option MCLAG_SUB_OPTION_TYPE_MCLAG_INTF_NAME (cstr po_name)).

(** [mlacp_link_set_iccp_state] *)
Definition mlacp_link_set_iccp_state (mlag_id : Z) (is_oper_up : bool) : W Z :=
  fd ← gets (λ w, sync_fd (w_sys w));
  if (fd <=? 0) && negb is_oper_up then mret MCLAG_ERROR
  else
    syncd_request MCLAG_MSG_TYPE_SET_ICCP_STATE
      (sub_option MCLAG_SUB_OPTION_TYPE_MCLAG_ID (le32 mlag_id)
       ++ sub_option MCLAG_SUB_OPTION_TYPE_OPER_STATUS (c_bool is_oper_up)).

(** [mlacp_link_set_iccp_role] *)
Definition mlacp_link_set_iccp_role (mlag_id : Z) (is_active_role : bool) (system_id : list Z) : W Z :=
  syncd_request MCLAG_MSG_TYPE_SET_ICCP_ROLE
    (sub_option MCLAG_SUB_OPTION_TYPE_MCLAG_ID (le32 mlag_id)
     ++ sub_option MCLAG_SUB_OPTION_TYPE_ICCP_ROLE (c_bool is_active_role)
     ++ (if is_active_role then sub_option MCLAG_SUB_OPTION_TYPE_SYSTEM_ID system_id else [])).

(** [mlacp_link_set_iccp_system_id] *)
Definition mlacp_link_set_iccp_system_id (mlag_id : Z) (system_id : list Z) : W Z :=
  syncd_request MCLAG_MSG_TYPE_SET_ICCP_SYSTEM_ID
    (sub_option MCLAG_SUB_OPTION_TYPE_MCLAG_ID (le32 mlag_id)
     ++ sub_option MCLAG_SUB_OPTION_TYPE_SYSTEM_ID system_id).

(** [mlacp_link_del_iccp_info] *)
Definition mlacp_link_del_iccp_info (mlag_id : Z) : W Z :=
  let type := MCLAG_MSG_TYPE_DEL_ICCP_INFO in
  m ← syncd_build type (sub_option MCLAG_SUB_OPTION_TYPE_MCLAG_ID (le32 mlag_id));
  fd ← gets (λ w, sync_fd (w_sys w));
  rc ← (if fd =? 0 then mret 0 else sys (SysSend fd m));
  if (rc <=? 0) || negb (rc =? Z.of_nat (length m)) then mret MCLAG_ERROR
  else SYSTEM_SET_SYNCD_TX_DBG_COUNTER type ICCP_DBG_CNTR_STS_OK;; mret 0.

(** [mlacp_link_set_remote_if_state] *)
Definition mlacp_link_set_remote_if_state (mlag_id : Z) (po_name : list Z) (is_oper_up : bool) : W Z :=
  syncd_request_counted MCLAG_MSG_TYPE_SET_REMOTE_IF_STATE
    (sub_option MCLAG_SUB_OPTION_TYPE_MCLAG_ID (le32 mlag_id)
     ++ sub_option MCLAG_SUB_OPTION_TYPE_MCLAG_INTF_NAME (cstr po_name)
     ++ sub_option MCLAG_SUB_OPTION_TYPE_OPER_STATUS (c_bool is_oper_up)).

(** [mlacp_link_del_remote_if_info] *)
Definition mlacp_link_del_remote_if_info (mlag_id : Z) (po_name : list Z) : W Z :=
  syncd_request_counted MCLAG_MSG_TYPE_DEL_REMOTE_IF_INFO
    (sub_option MCLAG_SUB_OPTION_TYPE_MCLAG_ID (le32 mlag_id)
     ++ sub_option MCLAG_SUB_OPTION_TYPE_MCLAG_INTF_NAME (cstr po_name)).

(** [mlacp_link_set_peerlink_port_isolation] *)
Definition mlacp_link_set_peerlink_port_isolation (mlag_id : Z) (po_name : list Z)
  (is_isolation_enable : bool) : W Z :=
  syncd_request_counted MCLAG_MSG_TYPE_SET_PEER_LINK_ISOLATION
    (sub_option MCLAG_SUB_OPTION_TYPE_MCLAG_ID (le32 mlag_id)
     ++ sub_option MCLAG_SUB_OPTION_TYPE_MCLAG_INTF_NAME (cstr po_name)
     ++ sub_option MCLAG_SUB_OPTION_TYPE_ISOLATION_STATE (c_bool is_isolation_enable)).

(** [mlacp_link_disable_traffic_distribution] *)
Definition mlacp_link_disable_traffic_distribution (lif : ptr) : W unit :=
  if lif =? NULL then mret tt
  else
    l ← deref w_lifs lif;
    if lif_csm l =? NULL then mret tt
    else
      csm ← deref w_csms (lif_csm l);
      if negb (mlacp_current_state (MLACP csm) =? MLACP_STATE_EXCHANGE) then mret tt
      else if (lif_type l =? IF_T_PORT_CHANNEL) && (lif_po_active l =? 0) && negb (lif_is_traffic_disable l)
      then
        rc ← mlacp_link_set_traffic_dist_mode (lif_name l) false;
        when (rc =? 0) (lif_upd lif (set lif_is_traffic_disable (λ _, true)))
      else mret tt.

(** [mlacp_link_enable_traffic_distribution] *)
Definition mlacp_link_enable_traffic_distribution (lif : ptr) : W unit :=
  if lif =? NULL then mret tt
  else
    l ← deref w_lifs lif;
    if lif_csm l =? NULL then mret tt
    else if (lif_type l =? IF_T_PORT_CHANNEL) && lif_is_traffic_disable l then
      rc ← mlacp_link_set_traffic_dist_mode (lif_name l) true;
      when (rc =? 0) (lif_upd lif (set lif_is_traffic_disable (λ _, false)))
    else mret tt.

(** ** Commands to the kernel *)

(** [set_peer_mac_in_kernel] *)
Definition set_peer_mac_in_kernel (mac : list Z) (vlan add : Z) : W unit :=
  _ ← sys (SysSystem
    (if add =? 0
     then str "bridge fdb del " ++ mac ++ str " dev Bridge vlan " ++ fmt_d vlan ++ str " local"
     else str "bridge fdb replace " ++ mac ++ str " dev Bridge vlan " ++ fmt_d vlan ++ str " local"));
  mret tt.

(** [set_peerlink_learn_kernel] *)
Definition set_peerlink_learn_kernel (c : ptr) (enable : Z) : W unit :=
  if c =? NULL then mret tt
  else
    csm ← deref w_csms c;
    if peer_link_if csm =? NULL then mret tt
    else
      l ← deref w_lifs (peer_link_if csm);
      ret ← sys (SysSystem (str "bridge link set dev " ++ cstr (lif_name l)
                   ++ (if enable =? 0 then str " learning off" else str " learning on")));
      if negb (ret =? 0) then
        csm_upd c (set peer_link_learning_enable (λ _, enable));;
        t ← sys SysTime;
        csm_upd c (set peer_link_learning_retry_time (λ _, t))
      else csm_upd c (set peer_link_learning_retry_time (λ _, 0)).

(** [mlacp_fix_bridge_mac] *)
Definition mlacp_fix_bridge_mac (c : ptr) : W unit :=
  csm ← deref w_csms c;
  let id := system_id (MLACP csm) in
  if memcmp id null_mac =? 0 then mret tt
  else
    _ ← sys (SysSystem (str "ip link set dev Bridge address " ++ fmt_mac id ++ str " > /dev/null 2>&1"));
    mret tt.
