(* ===== verification/Standby.v ===== *)
(** * Interface MAC addresses on the standby node ([iccp_netlink.c])

    On the standby node the port channels and VLAN interfaces take the system MAC
    of the active peer while the session is up, and get their own back when it
    goes down.  Also the neighbour requests to the kernel, and [local_if_add_vlan],
    which updates the MAC of a VLAN interface on the peer link. *)

From S2P Require Import Prelude CMem CString MsgFormat State Machine IccpMsg Port Syncd.
#[local] Open Scope Z_scope.

Definition AF_INET : Z := 2.
Definition AF_INET6 : Z := 10.

(** ** Requests to the kernel *)

(** [iccp_netlink_if_hwaddr_set], [iccp_netlink_if_shutdown_set] and
    [iccp_netlink_if_startup_set]: one request of the routing library each. *)
Definition iccp_netlink_if_hwaddr_set (ifindex : Z) (addr : list Z) : W Z := sys (NlLinkAddr ifindex addr).
Definition iccp_netlink_if_shutdown_set (ifindex : Z) : W Z := sys (NlLinkDown ifindex).
Definition iccp_netlink_if_startup_set (ifindex : Z) : W Z := sys (NlLinkUp ifindex).

(** [iccp_netlink_set_portchannel_iff_flag]: all members of a port channel. *)
Definition iccp_netlink_set_portchannel_iff_flag (lif_po : ptr) (is_iff_up : bool) : W Z :=
  if lif_po =? NULL then mret MCLAG_ERROR
  else
    po ← deref w_lifs lif_po;
    r ← sys (SysMalloc (strlen (lif_portchannel_member_buf po) + 1));
    if r =? 0 then mret MCLAG_ERROR
    else
      let fix members (l : list (list Z)) (ret_rv : Z) : W Z :=
        match l with
        | [] => mret ret_rv
        | token :: l' =>
            member ← local_if_find_by_name token;
            if member =? NULL then members l' ret_rv
            else
              m ← deref w_lifs member;
              rv ← (if is_iff_up then iccp_netlink_if_startup_set (lif_ifindex m)
                    else iccp_netlink_if_shutdown_set (lif_ifindex m));
              members l' (if rv =? 0 then ret_rv else rv)
        end in
      members (strtok_comma (lif_portchannel_member_buf po)) 0.

(** [iccp_netlink_neighbor_request]; the address is 4 or 16 bytes. *)
Definition iccp_netlink_neighbor_request (family : Z) (addr : list Z) (add : Z) (mac portname : list Z)
  (permanent : Z) : W Z :=
  lif ← local_if_find_by_name portname;
  if lif =? NULL then mret (-3)
  else l ← deref w_lifs lif; sys (NlNeigh family addr add mac (lif_ifindex l) permanent).

(** [iccp_set_interface_ipadd_mac] *)
Definition iccp_set_interface_ipadd_mac (lif : ptr) (mac_addr : list Z) : W unit :=
  l ← deref w_lifs lif;
  m ← syncd_build MCLAG_MSG_TYPE_SET_MAC
        (sub_option MCLAG_SUB_OPTION_TYPE_SET_MAC_SRC (cstr (lif_name l))
         ++ sub_option MCLAG_SUB_OPTION_TYPE_SET_MAC_DST (cstr mac_addr));
  fd ← gets (λ w, sync_fd (w_sys w));
  if fd =? 0 then mret tt
  else
    rc ← sys (SysWrite fd m);
    SYSTEM_SET_SYNCD_TX_DBG_COUNTER MCLAG_MSG_TYPE_SET_MAC
      (if rc =? -1 then ICCP_DBG_CNTR_STS_ERR else ICCP_DBG_CNTR_STS_OK).

(** ** Port channels *)

(** The new hardware address and the refresh of the link-local address. *)
Definition hwaddr_refresh (ifindex : Z) (mac : list Z) : W unit :=
  _ ← iccp_netlink_if_hwaddr_set ifindex mac;
  _ ← iccp_netlink_if_shutdown_set ifindex;
  _ ← iccp_netlink_if_startup_set ifindex;
  mret tt.

(** [update_if_ipmac_on_standby] *)
Definition update_if_ipmac_on_standby (lif_po : ptr) : W unit :=
  po ← deref w_lifs lif_po;
  let c := lif_csm po in
  if c =? NULL then mret tt
  else if negb (lif_type po =? IF_T_PORT_CHANNEL) then mret tt
  else
    csm ← deref w_csms c;
    let remote := remote_system_id (remote_system (MLACP csm)) in
    if negb (bool_decide (role_type csm = STP_ROLE_STANDBY)) then mret tt
    else if memcmp remote null_mac =? 0 then mret tt
    else
      pif ← peer_if_find_by_name c (lif_name po);
      when (negb (pif =? NULL) && negb (memcmp (lif_mac_addr po) remote =? 0))
        (lif_upd lif_po (λ l, l <| lif_mac_addr_ori := lif_mac_addr l |>);;
         hwaddr_refresh (lif_ifindex po) remote);;
      if is_l3 po then
        when (negb (memcmp (lif_l3_mac_addr po) remote =? 0))
          (iccp_set_interface_ipadd_mac lif_po (fmt_mac remote);;
           lif_upd lif_po (set lif_l3_mac_addr (λ _, remote)))
      else
        mforeach (lif_vlan_tree po) (λ v,
          if vlan_itf v =? NULL then mret tt
          else
            vl ← deref w_lifs (vlan_itf v);
            when (is_l3 vl && negb (memcmp (lif_l3_mac_addr vl) remote =? 0)
                  && negb (lif_is_l3_proto_enabled vl))
              (hwaddr_refresh (lif_ifindex vl) remote;;
               iccp_set_interface_ipadd_mac (vlan_itf v) (fmt_mac remote);;
               lif_upd (vlan_itf v) (set lif_l3_mac_addr (λ _, remote)))).

(** [recover_if_ipmac_on_standby] *)
Definition recover_if_ipmac_on_standby (lif_po : ptr) : W unit :=
  po ← deref w_lifs lif_po;
  let c := lif_csm po in
  if c =? NULL then mret tt
  else if negb (lif_type po =? IF_T_PORT_CHANNEL) then mret tt
  else
    csm ← deref w_csms c;
    let own := system_id (MLACP csm) in
    if negb (bool_decide (role_type csm = STP_ROLE_STANDBY)) then mret tt
    else
      when (negb (memcmp (lif_mac_addr po) own =? 0))
        (hwaddr_refresh (lif_ifindex po) own;;
         lif_upd lif_po (set lif_mac_addr (λ _, own)));;
      if is_l3 po then
        iccp_set_interface_ipadd_mac lif_po (fmt_mac own);;
        lif_upd lif_po (set lif_l3_mac_addr (λ _, own))
      else
        mforeach (lif_vlan_tree po) (λ v,
          if vlan_itf v =? NULL then mret tt
          else
            vl ← deref w_lifs (vlan_itf v);
            when (is_l3 vl && negb (lif_is_l3_proto_enabled vl))
              (hwaddr_refresh (lif_ifindex vl) own;;
               iccp_set_interface_ipadd_mac (vlan_itf v) (fmt_mac own);;
               lif_upd (vlan_itf v) (set lif_l3_mac_addr (λ _, own)))).

(** ** VLAN interfaces *)

(** The state machine the VLAN [key] belongs to: one whose peer link carries the
    VLAN with an interface, or one with a port channel in it; else the last one
    the walk leaves, none. *)
Definition vlan_csm (key : Z) : W ptr :=
  cs ← gets (λ w, csm_list (w_sys w));
  mfind cs (λ c,
    csm ← deref w_csms c;
    on_peer ← (if peer_link_if csm =? NULL then mret false
               else
                 pl ← deref w_lifs (peer_link_if csm);
                 mret (match vlan_find key (lif_vlan_tree pl) with
                       | Some v => negb (vlan_itf v =? NULL)
                       | None => false
                       end));
    if (on_peer : bool) then mret true
    else
      mforeach_break (lif_list (MLACP csm)) (λ p,
        po ← deref w_lifs p;
        mret ((lif_type po =? IF_T_PORT_CHANNEL)
              && bool_decide (is_Some (vlan_find key (lif_vlan_tree po)))))).

(** [update_vlan_if_mac_on_standby] *)
Definition update_vlan_if_mac_on_standby (lif_vlan : ptr) : W unit :=
  vl ← deref w_lifs lif_vlan;
  if negb (lif_type vl =? IF_T_VLAN) then mret tt
  else
    let v := sscanf_d "Vlan" (lif_name vl) in
    c ← vlan_csm (u16 v);
    if c =? NULL then mret tt
    else
      csm ← deref w_csms c;
      if negb (bool_decide (role_type csm = STP_ROLE_STANDBY)) then mret tt
      else
        let system_mac := if lif_is_l3_proto_enabled vl then system_id (MLACP csm)
                          else remote_system_id (remote_system (MLACP csm)) in
        if memcmp system_mac null_mac =? 0 then mret tt
        else
          when (is_l3 vl && negb (memcmp (lif_l3_mac_addr vl) system_mac =? 0))
            (hwaddr_refresh (lif_ifindex vl) system_mac;;
             iccp_set_interface_ipadd_mac lif_vlan (fmt_mac system_mac);;
             lif_upd lif_vlan (set lif_l3_mac_addr (λ _, system_mac));;
             when (negb (lif_is_l3_proto_enabled vl)) (set_peer_mac_in_kernel (fmt_mac system_mac) v 1)).

(** [recover_vlan_if_mac_on_standby], with [dir == 4]; [remote_system_mac] may be
    null. *)
Definition recover_vlan_if_mac_on_standby (lif_vlan : ptr) (remote_system_mac : option (list Z)) : W unit :=
  vl ← deref w_lifs lif_vlan;
  if negb (lif_type vl =? IF_T_VLAN) then mret tt
  else
    cs ← gets (λ w, csm_list (w_sys w));
    c ← mfind cs (λ c, csm ← deref w_csms c; mret (negb (peer_link_if csm =? NULL)));
    if c =? NULL then mret tt
    else
      csm ← deref w_csms c;
      let remote := remote_system_id (remote_system (MLACP csm)) in
      let v := sscanf_d "Vlan" (lif_name vl) in
      if negb (bool_decide (role_type csm = STP_ROLE_STANDBY)) then mret tt
      else
        let system_mac := if lif_is_l3_proto_enabled vl then remote else system_id (MLACP csm) in
        if memcmp system_mac null_mac =? 0 then mret tt
        else
          when (is_l3 vl && negb (memcmp (lif_l3_mac_addr vl) system_mac =? 0))
            (hwaddr_refresh (lif_ifindex vl) system_mac;;
             iccp_set_interface_ipadd_mac lif_vlan (fmt_mac system_mac);;
             lif_upd lif_vlan (set lif_l3_mac_addr (λ _, system_mac));;
             if negb (memcmp remote null_mac =? 0) then set_peer_mac_in_kernel (fmt_mac remote) v 0
             else match remote_system_mac with
                  | Some m => when (negb (memcmp m null_mac =? 0)) (set_peer_mac_in_kernel (fmt_mac m) v 0)
                  | None => mret tt
                  end).

(** [update_vlan_if_mac_on_iccp_up] *)
Definition update_vlan_if_mac_on_iccp_up (lif_peer : ptr) (is_up : bool)
  (remote_system_mac : option (list Z)) : W unit :=
  pl ← deref w_lifs lif_peer;
  mforeach (lif_vlan_tree pl) (λ v,
    if vlan_itf v =? NULL then mret tt
    else if is_up then update_vlan_if_mac_on_standby (vlan_itf v)
    else recover_vlan_if_mac_on_standby (vlan_itf v) remote_system_mac).

(** ** VLAN membership of a local interface ([port.c]) *)

(** [local_if_add_vlan] *)
Definition local_if_add_vlan (local_if : ptr) (v : Z) : W Z :=
  lif ← deref w_lifs local_if;
  found ← (match vlan_find v (lif_vlan_tree lif) with
           | Some _ => mret true
           | None =>
               r ← sys (SysMalloc 48);
               if r =? 0 then mret false
               else
                 itf ← local_if_find_by_name (str "Vlan" ++ fmt_d v);
                 lif_upd local_if (λ l,
                   l <| lif_vlan_count ::= λ n, u32 (n + 1) |>
                     <| lif_port_config_sync := 1 |>
                     <| lif_vlan_tree ::= vlan_insert (vlan_info_init <| vid := v |> <| vlan_itf := itf |>) |>);;
                 mret true
           end);
  if negb found then mret MCLAG_ERROR
  else
    lif_upd local_if (set lif_vlan_tree (vlan_update v (set vlan_removed (λ _, 0))));;
    lif ← deref w_lifs local_if;
    match vlan_find v (lif_vlan_tree lif) with
    | Some node =>
        when (negb (vlan_itf node =? NULL) && negb (lif_is_peer_link lif =? 0))
          (update_vlan_if_mac_on_standby (vlan_itf node))
    | None => mret tt
    end;;
    mret 0.
