(* ===== verification/MacTable.v ===== *)
(** * MAC entries ([mlacp_fsm.c], [mlacp_link_handler.c])

    The MAC entries of a state machine live in a tree ordered by VLAN and
    address; an entry whose change must be told to the peer is also linked in
    the queue [mac_msg_list].  The entries are heap objects, because both
    structures point to them; the links of the queue decide who frees an entry. *)

From S2P Require Import Prelude CMem CString MsgFormat State Machine IccpMsg Port Syncd.
#[local] Open Scope Z_scope.

Definition mac_upd (p : ptr) (f : MACMsg → MACMsg) : W unit := update w_macs p f.

(** ** The tree *)

(** [MACMsg_compare] *)
Definition MACMsg_compare (m1 m2 : MACMsg) : Z :=
  if mac_vid m1 <? mac_vid m2 then -1
  else if mac_vid m1 >? mac_vid m2 then 1
  else if memcmp (mac_addr m1) (mac_addr m2) <? 0 then -1
  else if memcmp (mac_addr m1) (mac_addr m2) >? 0 then 1
  else 0.

(** A [MACMsg] of zeroes, as [memset] leaves it. *)
Definition mac_zero : MACMsg := {|
  mac_vid := 0; mac_addr := null_mac; mac_op_type := 0; mac_fdb_type := 0;
  mac_ifname := replicate 20 0; mac_origin_ifname := replicate 20 0; mac_age_flag := 0;
  mac_pending_local_del := 0; mac_add_to_syncd := 0; mac_in_msg_list := false |}.

Definition mac_key (v : Z) (addr : list Z) : MACMsg := mac_zero <| mac_vid := v |> <| mac_addr := addr |>.

(** [RB_FIND(mac_rb_tree, tree, key)] *)
Definition mac_rb_find (key : MACMsg) (tree : list ptr) : W ptr :=
  mfind tree (λ p, m ← deref w_macs p; mret (MACMsg_compare key m =? 0)).

(** [RB_INSERT(mac_rb_tree, tree, p)], on the list of nodes in key order. *)
Fixpoint mac_rb_place (m : MACMsg) (p : ptr) (tree : list ptr) : W (list ptr) :=
  match tree with
  | [] => mret [p]
  | q :: tree' =>
      x ← deref w_macs q;
      if MACMsg_compare m x =? -1 then mret (p :: tree)
      else if MACMsg_compare m x =? 1 then t ← mac_rb_place m p tree'; mret (q :: t)
      else mret tree
  end.

Definition mac_rb_insert (c p : ptr) : W unit :=
  m ← deref w_macs p;
  csm ← deref w_csms c;
  t ← mac_rb_place m p (mac_rb (MLACP csm));
  mlacp_upd c (set mac_rb (λ _, t)).

(** [MAC_RB_REMOVE].  The links of an entry outside the tree are null (it was cleared when it was
    made, or by this macro): [rbe_remove] takes it for the root without children, and the tree
    is lost. *)
Definition mac_rb_remove (c p : ptr) : W unit :=
  mlacp_upd c (set mac_rb (λ tree, if bool_decide (p ∈ tree) then list_del p tree else [])).

(** ** The queue to the peer *)

(** [if (!MAC_IN_MSG_LIST(..)) TAILQ_INSERT_TAIL(..)] *)
Definition mac_msg_enqueue (c p : ptr) : W unit :=
  m ← deref w_macs p;
  if mac_in_msg_list m then mret tt
  else
    mlacp_upd c (set mac_msg_list (λ l, l ++ [p]));;
    mac_upd p (set mac_in_msg_list (λ _, true)).

(** [if (!MAC_IN_MSG_LIST(..)) free(..)] *)
Definition mac_free_unless_queued (p : ptr) : W unit :=
  m ← deref w_macs p;
  if mac_in_msg_list m then mret tt else free w_macs p.

(** [mlacp_mac_msg_queue_reinit] with [MLACP_MAC_MSG_QUEUE_REINIT]: the entries
    of the queue marked for deletion are freed, the queue is emptied, and the
    links of the entries of the tree are cleared. *)
Definition mlacp_mac_msg_queue_reinit (c : ptr) : W unit :=
  csm ← deref w_csms c;
  mforeach (mac_msg_list (MLACP csm)) (λ p,
    mlacp_upd c (set mac_msg_list (λ l, tail l));;
    m ← deref w_macs p;
    when (mac_op_type m =? MAC_SYNC_DEL) (free w_macs p));;
  mlacp_upd c (set mac_msg_list (λ _, []));;
  csm ← deref w_csms c;
  mforeach (mac_rb (MLACP csm)) (λ p,
    m ← deref w_macs p;
    when (mac_in_msg_list m) (mac_upd p (set mac_in_msg_list (λ _, false)))).

(** ** Programming the switch *)

(** [iccp_send_fdb_entry_to_syncd] *)
Definition fdb_info (m : MACMsg) (mac_type oper : Z) : list Z :=
  mac_addr m ++ [0; 0] ++ le32 (mac_vid m) ++ mac_ifname m ++ le16 mac_type ++ le16 oper.

Definition iccp_send_fdb_entry_to_syncd (p : ptr) (mac_type oper : Z) : W unit :=
  m ← deref w_macs p;
  if memcmp (mac_addr m) null_mac =? 0 then mret tt
  else
    msg ← syncd_build MCLAG_MSG_TYPE_SET_FDB (fdb_info m mac_type oper);
    fd ← gets (λ w, sync_fd (w_sys w));
    (if fd >? 0 then _ ← iccp_send_to_mclagsyncd MCLAG_MSG_TYPE_SET_FDB msg; mret tt
     else SYSTEM_SET_SYNCD_TX_DBG_COUNTER MCLAG_MSG_TYPE_SET_FDB ICCP_DBG_CNTR_STS_ERR);;
    mac_upd p (set mac_add_to_syncd (λ _, if oper =? MAC_SYNC_DEL then 0 else 1)).

(** [add_mac_to_chip] and [del_mac_from_chip] *)
Definition add_mac_to_chip (p : ptr) (mac_type : Z) : W unit :=
  iccp_send_fdb_entry_to_syncd p mac_type MAC_SYNC_ADD.
Definition del_mac_from_chip (p : ptr) : W unit :=
  m ← deref w_macs p; iccp_send_fdb_entry_to_syncd p (mac_fdb_type m) MAC_SYNC_DEL.

(** ** The age flag *)

(** [set_mac_local_age_flag]: the new flag; the change is queued for the peer. *)
Definition set_mac_local_age_flag (c p : ptr) (set_ update_peer : Z) : W Z :=
  m ← deref w_macs p;
  let old := mac_age_flag m in
  let tell (op : Z) : W unit :=
    csm ← deref w_csms c;
    when ((mlacp_current_state (MLACP csm) =? MLACP_STATE_EXCHANGE) && negb (update_peer =? 0))
      (mac_upd p (set mac_op_type (λ _, op));; mac_msg_enqueue c p) in
  if set_ =? 0 then
    if negb (Z.land old MAC_AGE_LOCAL =? 0)
    then tell MAC_SYNC_ADD;; mret (Z.land old (u8 (Z.lnot MAC_AGE_LOCAL)))
    else mret old
  else
    if Z.land old MAC_AGE_LOCAL =? 0
    then tell MAC_SYNC_DEL;; mret (Z.lor old MAC_AGE_LOCAL)
    else mret old.

(** [mac->age_flag = set_mac_local_age_flag(csm, mac, set, update_peer)] *)
Definition mac_set_age (c p : ptr) (set_ update_peer : Z) : W unit :=
  f ← set_mac_local_age_flag c p set_ update_peer; mac_upd p (set mac_age_flag (λ _, f)).

(** [MAC_AGE_LOCAL | MAC_AGE_PEER] *)
Definition MAC_AGE_BOTH : Z := Z.lor MAC_AGE_LOCAL MAC_AGE_PEER.

(** ** Interfaces going up and down *)

(** The 20 bytes that [memcpy(.., csm->peer_itf_name, MAX_L_PORT_NAME)] copies:
    the array has 16, so they end with the low bytes of the next member,
    [peer_link_learning_retry_time]. *)
Definition peer_itf20 (csm : CSM) : list Z :=
  take 20 (peer_itf_name csm ++ le32 (peer_link_learning_retry_time csm)).

(** [csm->peer_link_if && csm->peer_link_if->state == PORT_STATE_UP] *)
Definition peer_link_up (csm : CSM) : W bool :=
  if peer_link_if csm =? NULL then mret false
  else l ← deref w_lifs (peer_link_if csm); mret (lif_state l =? PORT_STATE_UP).

Definition redirect_to_peer_link (csm : CSM) (p : ptr) : W unit :=
  mac_upd p (set mac_ifname (λ _, peer_itf20 csm)).

(** The entry is removed from the tree, and freed unless the queue holds it. *)
Definition mac_drop (c p : ptr) : W unit :=
  mac_rb_remove c p;; mac_free_unless_queued p.

(** The body of the loop of [update_l2_mac_state] for a port channel that went
    down. *)
Definition mac_port_down (c : ptr) (csm : CSM) (pif : ptr) (p : ptr) : W unit :=
  m ← deref w_macs p;
  only_local ← (if negb (mac_age_flag m =? MAC_AGE_PEER) || (pif =? NULL) then mret false
                else x ← deref w_pifs pif; mret (pif_state x =? PORT_STATE_UP));
  if (only_local : bool) then
    up ← (if strlen (peer_itf_name csm) =? 0 then mret false else peer_link_up csm);
    (if (up : bool) then
       redirect_to_peer_link csm p;; add_mac_to_chip p (mac_fdb_type m)
     else
       del_mac_from_chip p;; redirect_to_peer_link csm p);;
    mac_upd p (set mac_pending_local_del (λ _, 1))
  else
    mac_set_age c p 1 1;;
    m ← deref w_macs p;
    if mac_age_flag m =? MAC_AGE_BOTH then
      when (negb (mac_fdb_type m =? MAC_TYPE_STATIC)) (del_mac_from_chip p);;
      mac_drop c p
    else if negb (strlen (peer_itf_name csm) =? 0) then
      up ← peer_link_up csm;
      if (up : bool) then redirect_to_peer_link csm p;; add_mac_to_chip p (mac_fdb_type m)
      else del_mac_from_chip p;; redirect_to_peer_link csm p
    else del_mac_from_chip p.

(** The entry is withdrawn from the switch; unless static, it is dropped. *)
Definition mac_clear_pending (c p : ptr) : W unit :=
  del_mac_from_chip p;;
  m ← deref w_macs p;
  if negb (mac_fdb_type m =? MAC_TYPE_STATIC) then
    mac_rb_remove c p;;
    mac_upd p (set mac_op_type (λ _, MAC_SYNC_DEL));;
    mac_free_unless_queued p
  else mac_upd p (set mac_pending_local_del (λ _, 0)).

(** ... and for one that came up. *)
Definition mac_port_up (c : ptr) (csm : CSM) (p : ptr) : W unit :=
  m ← deref w_macs p;
  if str_eqb (mac_ifname m) (peer_itf_name csm) then
    when (negb (mac_pending_local_del m =? 0)) (mac_upd p (set mac_pending_local_del (λ _, 0)));;
    mac_upd p (λ x, x <| mac_ifname := mac_origin_ifname x |>);;
    add_mac_to_chip p (if mac_age_flag m =? MAC_AGE_LOCAL then mac_fdb_type m else MAC_TYPE_DYNAMIC_LOCAL)
  else when (negb (mac_pending_local_del m =? 0)) (mac_clear_pending c p).

(** [update_l2_mac_state] *)
Definition update_l2_mac_state (c lif : ptr) (po_state : Z) : W unit :=
  l ← deref w_lifs lif;
  pif ← peer_if_find_by_name c (lif_name l);
  if (c =? NULL) || (lif =? NULL) then mret tt
  else
    (if po_state =? 0 then t ← sys SysTime; lif_upd lif (set lif_po_down_time (λ _, t))
     else lif_upd lif (set lif_po_down_time (λ _, 0)));;
    csm ← deref w_csms c;
    mforeach (mac_rb (MLACP csm)) (λ p,
      m ← deref w_macs p;
      if negb (str_eqb (lif_name l) (mac_origin_ifname m)) then mret tt
      else
        csm ← deref w_csms c;
        if po_state =? 0 then mac_port_down c csm pif p else mac_port_up c csm p).

(** [update_orphan_port_mac] *)
Definition update_orphan_port_mac (c lif : ptr) (state : Z) : W unit :=
  if (c =? NULL) || (lif =? NULL) then mret tt
  else if state =? 0 then mret tt
  else
    l ← deref w_lifs lif;
    csm ← deref w_csms c;
    mforeach (mac_rb (MLACP csm)) (λ p,
      m ← deref w_macs p;
      if negb (str_eqb (mac_origin_ifname m) (lif_name l)) then mret tt
      else
        when ((mac_age_flag m =? MAC_AGE_PEER)
              && (mlacp_current_state (MLACP csm) =? MLACP_STATE_EXCHANGE))
          (mac_upd p (set mac_op_type (λ _, MAC_SYNC_ADD));; mac_msg_enqueue c p)).

(** [mlacp_convert_remote_mac_to_local] *)
Definition mlacp_convert_remote_mac_to_local (c : ptr) (po_name : list Z) : W unit :=
  lif ← local_if_find_by_name po_name;
  if (c =? NULL) || (lif =? NULL) then mret tt
  else
    l ← deref w_lifs lif;
    if lif_state l =? PORT_STATE_DOWN then mret tt
    else
      csm ← deref w_csms c;
      mforeach (mac_rb (MLACP csm)) (λ p,
        m ← deref w_macs p;
        if negb (str_eqb (mac_origin_ifname m) po_name) then mret tt
        else
          when (mac_age_flag m =? MAC_AGE_LOCAL)
            (mac_upd p (set mac_age_flag (λ _, MAC_AGE_PEER));;
             add_mac_to_chip p MAC_TYPE_DYNAMIC_LOCAL;;
             mac_upd p (set mac_op_type (λ _, MAC_SYNC_ADD));;
             mac_msg_enqueue c p)).

(** [update_remote_macs_to_peerlink] *)
Definition update_remote_macs_to_peerlink (c lif : ptr) : W unit :=
  if (c =? NULL) || (lif =? NULL) then mret tt
  else
    l ← deref w_lifs lif;
    csm ← deref w_csms c;
    mforeach (mac_rb (MLACP csm)) (λ p,
      m ← deref w_macs p;
      if negb (str_eqb (lif_name l) (mac_origin_ifname m)) then mret tt
      else if negb (Z.land (mac_age_flag m) MAC_AGE_PEER =? 0) then mret tt
      else if strlen (peer_itf_name csm) =? 0 then mret tt
      else
        up ← peer_link_up csm;
        when (up && negb (str_eqb (mac_ifname m) (peer_itf_name csm)))
          (redirect_to_peer_link csm p;; add_mac_to_chip p (mac_fdb_type m))).

(** [mlacp_local_lif_clear_pending_mac] *)
Definition mlacp_local_lif_clear_pending_mac (c lif : ptr) : W unit :=
  l ← deref w_lifs lif;
  csm ← deref w_csms c;
  mforeach (mac_rb (MLACP csm)) (λ p,
    m ← deref w_macs p;
    when (negb (mac_pending_local_del m =? 0) && str_eqb (mac_origin_ifname m) (lif_name l))
      (mac_clear_pending c p)).

(** ** The session going up and down *)

(** [mlacp_sync_mac]: every entry not aged locally is queued for the peer. *)
Definition mlacp_sync_mac (c : ptr) : W unit :=
  csm ← deref w_csms c;
  mforeach (mac_rb (MLACP csm)) (λ p,
    m ← deref w_macs p;
    when (Z.land (mac_age_flag m) MAC_AGE_LOCAL =? 0)
      (mac_upd p (set mac_op_type (λ _, MAC_SYNC_ADD));; mac_msg_enqueue c p)).

(** [mlacp_peer_disconn_fdb_handler] *)
Definition mlacp_peer_disconn_fdb_handler (c : ptr) : W unit :=
  csm ← deref w_csms c;
  mforeach (mac_rb (MLACP csm)) (λ p,
    m ← deref w_macs p;
    if str_eqb (mac_ifname m) (peer_itf_name csm) then
      mac_upd p (set mac_age_flag (λ f, Z.lor f MAC_AGE_PEER));;
      m ← deref w_macs p;
      when ((mac_age_flag m =? MAC_AGE_BOTH) || negb (mac_pending_local_del m =? 0))
        (del_mac_from_chip p;; mac_drop c p)
    else if mac_age_flag m =? 0 then mac_upd p (set mac_age_flag (λ _, MAC_AGE_PEER))
    else when (mac_age_flag m =? MAC_AGE_LOCAL)
           (add_mac_to_chip p MAC_TYPE_DYNAMIC_LOCAL;;
            mac_upd p (set mac_age_flag (λ _, MAC_AGE_PEER)))).

(** [mlacp_peerlink_up_handler] *)
Definition mlacp_peerlink_up_handler (c : ptr) : W unit :=
  if c =? NULL then mret tt
  else
    csm ← deref w_csms c;
    mforeach (mac_rb (MLACP csm)) (λ p,
      m ← deref w_macs p;
      when (str_eqb (mac_ifname m) (peer_itf_name csm)) (add_mac_to_chip p (mac_fdb_type m))).

(** [mlacp_peerlink_down_handler] *)
Definition mlacp_peerlink_down_handler (c : ptr) : W unit :=
  if c =? NULL then mret tt
  else
    csm ← deref w_csms c;
    mforeach (mac_rb (MLACP csm)) (λ p,
      m ← deref w_macs p;
      when (str_eqb (mac_ifname m) (peer_itf_name csm))
        (when (mac_pending_local_del m =? 0) (mac_set_age c p 1 1);;
         del_mac_from_chip p;;
         m ← deref w_macs p;
         when (mac_age_flag m =? MAC_AGE_BOTH) (mac_drop c p)));;
    sys_upd (set peer_link_down_counter (λ n, u32 (n + 1))).
