(* ===== verification/MacUpdate.v ===== *)
(** * MAC entries announced by the peer ([mlacp_sync_update.c])

    [mlacp_fsm_update_mac_entry_from_peer]: the peer adds or deletes one MAC
    entry.  The function is split along its branches: an addition of an entry
    already known, whose port is another one or the same one, a deletion, and an
    addition of a new entry. *)

From S2P Require Import Prelude CMem CString MsgFormat State Machine IccpMsg Port Syncd MacTable.
#[local] Open Scope Z_scope.

(** ** The entry in the message *)

(** [struct mLACPMACData]: [md_ifname] are the 20 bytes that [memcpy] copies,
    [md_name] the string that [strcmp] and [sprintf] read. *)
Record MACData : Type := mkMACData {
  md_type : Z;
  md_mac_type : Z;
  md_mac_addr : list Z;
  md_vid : Z;
  md_ifname : list Z;
  md_name : list Z
}.

Definition read_mac_data (off : nat) (buf : list Z) : W MACData :=
  type ← oob (rd8 (off + offsetof mLACPMACData "type") buf);
  mac_type ← oob (rd8 (off + offsetof mLACPMACData "mac_type") buf);
  addr ← oob (rd_bytes (off + offsetof mLACPMACData "mac_addr") ETHER_ADDR_LEN buf);
  v ← oob (rd16 (off + offsetof mLACPMACData "vid") buf);
  ifname ← oob (rd_bytes (off + offsetof mLACPMACData "ifname") MAX_L_PORT_NAME buf);
  mret (mkMACData type mac_type addr (ntohs v) ifname
          (string_at (off + offsetof mLACPMACData "ifname") buf)).

(** The multi-chassis port channel the entry is on, [NULL] for an orphan port:
    [from_mclag_intf] is whether there is one. *)
Definition mac_mclag_intf (csm : CSM) (name : list Z) : W ptr :=
  mfind (lif_list (MLACP csm)) (λ q,
    l ← deref w_lifs q;
    mret ((lif_type l =? IF_T_PORT_CHANNEL) && str_eqb (lif_name l) name)).

(** [from_mclag_intf == 0 || local_if->state == PORT_STATE_DOWN] *)
Definition not_forwarding (local_if : ptr) : W bool :=
  if local_if =? NULL then mret true
  else l ← deref w_lifs local_if; mret (lif_state l =? PORT_STATE_DOWN).

(** ** Addition of a known entry *)

(** Point the entry to the peer link, unless it is there already; the state of
    the peer link only changes what is logged. *)
Definition mac_point_to_peer_link (c p : ptr) : W unit :=
  csm ← deref w_csms c;
  m ← deref w_macs p;
  if str_eqb (mac_ifname m) (peer_itf_name csm) then mret tt
  else
    _ ← peer_link_up csm;
    redirect_to_peer_link csm p;;
    add_mac_to_chip p (mac_fdb_type m).

(** No peer link is configured: the entry leaves the switch, and an entry of an
    orphan port is dropped.  The last access is that of the log message. *)
Definition mac_without_peer_link (c p local_if : ptr) (d : MACData) : W unit :=
  del_mac_from_chip p;;
  mac_upd p (set mac_ifname (λ _, md_ifname d));;
  when (local_if =? NULL) (mac_drop c p;; _ ← deref w_macs p; mret tt).

(** The entry is on another port than the one announced. *)
Definition mac_moved (c p local_if : ptr) (d : MACData) : W unit :=
  m ← deref w_macs p;
  if mac_fdb_type m =? MAC_TYPE_STATIC then mac_upd p (set mac_age_flag (λ f, Z.lor f MAC_AGE_PEER))
  else
    mac_upd p (set mac_origin_ifname (λ _, md_ifname d));;
    down ← not_forwarding local_if;
    if (down : bool) then
      mac_set_age c p 1 1;;
      csm ← deref w_csms c;
      if negb (strlen (peer_itf_name csm) =? 0) then mac_point_to_peer_link c p
      else mac_without_peer_link c p local_if d
    else
      mac_upd p (set mac_ifname (λ _, md_ifname d));;
      add_mac_to_chip p (mac_fdb_type m).

Definition mac_add_known (c p local_if : ptr) (d : MACData) : W unit :=
  mac_upd p (set mac_age_flag (λ f, Z.land f (u8 (Z.lnot MAC_AGE_PEER))));;
  m ← deref w_macs p;
  when (negb (local_if =? NULL) && negb (mac_pending_local_del m =? 0))
    (mac_upd p (λ x, x <| mac_pending_local_del := 0 |> <| mac_age_flag := MAC_AGE_LOCAL |>
                       <| mac_op_type := MAC_SYNC_DEL |>);;
     mac_msg_enqueue c p);;
  m ← deref w_macs p;
  if negb (str_eqb (mac_ifname m) (md_name d)) || negb (str_eqb (mac_origin_ifname m) (md_name d))
  then mac_moved c p local_if d
  else
    csm ← deref w_csms c;
    when ((local_if =? NULL) && negb (strlen (peer_itf_name csm) =? 0)) (mac_point_to_peer_link c p).

(** ** Deletion *)

Definition mac_del_known (c p : ptr) : W unit :=
  mac_upd p (set mac_age_flag (λ f, Z.lor f MAC_AGE_PEER));;
  m ← deref w_macs p;
  when (mac_age_flag m =? MAC_AGE_BOTH) (del_mac_from_chip p;; mac_drop c p).

(** ** Addition of a new entry *)

(** [iccp_csm_init_mac_msg] ([iccp_csm.c]): a copy of the entry [data]. *)
Definition iccp_csm_init_mac_msg (data : ptr) : W ptr :=
  m ← deref w_macs data; alloc w_macs 136 m.

(** The copy enters the tree; the switch is told through the entry on the
    stack. *)
Definition mac_store_new (c sp local_if : ptr) : W unit :=
  new_mac_msg ← iccp_csm_init_mac_msg sp;
  if new_mac_msg =? NULL then mret tt
  else
    mac_rb_insert c new_mac_msg;;
    csm ← deref w_csms c;
    m ← deref w_macs sp;
    if str_eqb (mac_ifname m) (peer_itf_name csm) then
      up ← peer_link_up csm;
      when up (add_mac_to_chip sp (mac_fdb_type m))
    else
      l ← deref w_lifs local_if;
      when (negb (lif_state l =? PORT_STATE_DOWN)) (add_mac_to_chip sp (mac_fdb_type m)).

Definition mac_add_new (c local_if : ptr) (d : MACData) : W unit :=
  ifname ← oob (sprintf_s (replicate MAX_L_PORT_NAME 0) (md_name d));
  sp ← place w_macs (mac_zero <| mac_fdb_type := md_mac_type d |> <| mac_vid := md_vid d |>
         <| mac_addr := md_mac_addr d |> <| mac_ifname := ifname |> <| mac_origin_ifname := ifname |>);
  mac_set_age c sp 1 0;;
  down ← not_forwarding local_if;
  csm ← deref w_csms c;
  (if (down : bool) && (strlen (peer_itf_name csm) =? 0) && (local_if =? NULL) then mret tt
   else
     when ((down : bool) && negb (strlen (peer_itf_name csm) =? 0)) (redirect_to_peer_link csm sp);;
     mac_store_new c sp local_if);;
  free w_macs sp.

(** ** One entry, and all entries of a message *)

(** [mlacp_fsm_update_mac_entry_from_peer] *)
Definition mlacp_fsm_update_mac_entry_from_peer (c : ptr) (d : MACData) : W Z :=
  if memcmp (md_mac_addr d) null_mac =? 0 then mret 0
  else
    csm ← deref w_csms c;
    local_if ← mac_mclag_intf csm (md_name d);
    p ← mac_rb_find (mac_key (md_vid d) (md_mac_addr d)) (mac_rb (MLACP csm));
    (if negb (p =? NULL) then
       if md_type d =? MAC_SYNC_ADD then mac_add_known c p local_if d
       else when (md_type d =? MAC_SYNC_DEL) (mac_del_known c p)
     else when (md_type d =? MAC_SYNC_ADD) (mac_add_new c local_if d));;
    mret 0.

(** [mlacp_fsm_update_mac_info_from_peer] *)
Definition mlacp_fsm_update_mac_info_from_peer (c : ptr) (buf : list Z) : W unit :=
  if c =? NULL then mret tt
  else
    n ← oob (rd16 (tlv_off mLACPMACInfoTLV "num_of_entry") buf);
    mforeach (seq 0 (Z.to_nat (ntohs n))) (λ i,
      d ← read_mac_data (sizeof ICCHdr + sizeof mLACPMACInfoTLV + sizeof mLACPMACData * i) buf;
      _ ← mlacp_fsm_update_mac_entry_from_peer c d;
      mret tt).
