(* ===== verification/LinkHandler.v ===== *)
(** * Link events ([mlacp_link_handler.c])

    What the daemon does when a port channel, the peer link or the session with
    the peer changes state: neighbour entries in the kernel, isolation of the
    multi-chassis port channels from the peer link, MAC entries, traffic
    distribution, and the notifications to [mclagsyncd]. *)

From S2P Require Import Prelude CMem CString MsgFormat State Machine IccpMsg IccpQueue SyncPrepare.
From S2P Require Import Port Syncd Standby MacTable.
#[local] Open Scope Z_scope.

(** ** Neighbour entries of an interface *)

(** The entries of a neighbour list, with the kernel request for each that is
    on the interface and not being deleted. *)
Definition neigh_set_walk (s : struct) (family : Z) (alen : nat) (ms : list Msg) (ifname : list Z)
  (add : Z) : W unit :=
  mforeach ms (λ m,
    op ← field_u8 s "op_type" (msg_buf m);
    name ← field_bytes s "ifname" MAX_L_PORT_NAME (msg_buf m);
    if (op =? NEIGH_SYNC_DEL) || negb (str_eqb ifname name) then mret tt
    else
      addr ← field_bytes s (if family =? AF_INET then "ipv4_addr" else "ipv6_addr") alen (msg_buf m);
      mac ← field_bytes s "mac_addr" ETHER_ADDR_LEN (msg_buf m);
      _ ← iccp_netlink_neighbor_request family addr add mac name 0;
      mret tt).

(** [arp_set_handler] *)
Definition arp_set_handler (c lif : ptr) (add : Z) : W unit :=
  if (c =? NULL) || (lif =? NULL) then mret tt
  else
    csm ← deref w_csms c;
    l ← deref w_lifs lif;
    if negb (add =? 0) then
      if negb (mlacp_current_state (MLACP csm) =? MLACP_STATE_EXCHANGE) then mret tt
      else neigh_set_walk ARPMsg AF_INET 4 (arp_list (MLACP csm)) (lif_name l) 1
    else neigh_set_walk ARPMsg AF_INET 4 (arp_list (MLACP csm)) (lif_name l) 0.

(** [ndisc_set_handler]; the deletion, too, passes [add = 1] to the kernel. *)
Definition ndisc_set_handler (c lif : ptr) (add : Z) : W unit :=
  if (c =? NULL) || (lif =? NULL) then mret tt
  else
    csm ← deref w_csms c;
    l ← deref w_lifs lif;
    if negb (add =? 0) then
      if negb (mlacp_current_state (MLACP csm) =? MLACP_STATE_EXCHANGE) then mret tt
      else neigh_set_walk NDISCMsg AF_INET6 16 (ndisc_list (MLACP csm)) (lif_name l) 1
    else neigh_set_walk NDISCMsg AF_INET6 16 (ndisc_list (MLACP csm)) (lif_name l) 1.

(** [ROUTE_MANIPULATE_TYPE_E] *)
Inductive route_type : Type := ROUTE_NONE | ROUTE_ADD | ROUTE_DEL.

(** [set_l3_itf_state] *)
Definition set_l3_itf_state (c lif : ptr) (r : route_type) : W unit :=
  if (c =? NULL) || (lif =? NULL) then mret tt
  else match r with
  | ROUTE_NONE => mret tt
  | ROUTE_ADD =>
      l ← deref w_lifs lif;
      if has_prefix "Vlan" (lif_name l) then mret tt
      else arp_set_handler c lif 0;; ndisc_set_handler c lif 0
  | ROUTE_DEL => arp_set_handler c lif 1;; ndisc_set_handler c lif 1
  end.

(** [peer_po_is_alive]: the first port channel of the peer with that number. *)
Definition peer_po_is_alive (c : ptr) (po_ifindex : Z) : W bool :=
  if c =? NULL then mret false
  else
    csm ← deref w_csms c;
    p ← mfind (pif_list (MLACP csm)) (λ p,
          pif ← deref w_pifs p;
          mret ((pif_type pif =? IF_T_PORT_CHANNEL) && (pif_po_id pif =? po_ifindex)));
    if p =? NULL then mret false else pif ← deref w_pifs p; mret (negb (pif_po_active pif =? 0)).

(** ** Neighbour entries sent again to the peer *)

(** Each entry of [src] that is wanted is marked as an addition, and a copy is
    put in the queue [dst] to the peer. *)
Definition neigh_resend (s : struct) (src dst : mLACP → list Msg) `{!Settable src, !Settable dst}
  (c : ptr) (want : list Z → W bool) : W unit :=
  csm ← deref w_csms c;
  mforeach (seq 0 (length (src (MLACP csm)))) (λ i,
    csm ← deref w_csms c;
    m ← oob (src (MLACP csm) !! i);
    b ← want (msg_buf m);
    if negb b then mret tt
    else
      buf ← oob (apply_stores [W8 (offsetof s "op_type") NEIGH_SYNC_ADD; W8 (offsetof s "flag") 0] (msg_buf m));
      mlacp_upd c (set src <[i := m <| msg_buf := buf |>]>);;
      copy ← iccp_csm_init_msg buf (Z.of_nat (sizeof s));
      match copy with
      | Some m' => mlacp_upd c (set dst (λ q, q ++ [m']))
      | None => mret tt
      end).

(** [syn_arp_info_to_peer] and [syn_ndisc_info_to_peer] *)
Definition syn_arp_info_to_peer (c lif : ptr) : W unit :=
  if (c =? NULL) || (lif =? NULL) then mret tt
  else
    l ← deref w_lifs lif;
    neigh_resend ARPMsg arp_list arp_msg_list c (λ b,
      name ← field_bytes ARPMsg "ifname" MAX_L_PORT_NAME b; mret (str_eqb name (lif_name l))).

Definition syn_ndisc_info_to_peer (c lif : ptr) : W unit :=
  if (c =? NULL) || (lif =? NULL) then mret tt
  else
    l ← deref w_lifs lif;
    neigh_resend NDISCMsg ndisc_list ndisc_msg_list c (λ b,
      name ← field_bytes NDISCMsg "ifname" MAX_L_PORT_NAME b; mret (str_eqb name (lif_name l))).

(** [mlacp_resync_arp] and [mlacp_resync_ndisc] ([mlacp_fsm.c]) *)
Definition mlacp_resync_arp (c : ptr) : W unit :=
  neigh_resend ARPMsg arp_list arp_msg_list c (λ _, mret true).
Definition mlacp_resync_ndisc (c : ptr) : W unit :=
  neigh_resend NDISCMsg ndisc_list ndisc_msg_list c (λ _, mret true).

(** ** Isolation of the port channels from the peer link *)

(** The loop of [update_peerlink_isolate_from_all_csm_lif]: the names, and the
    members, of the isolated port channels, while they fit. *)
Fixpoint isolate_dst (l : list ptr) (buf : list Z) : W (list Z) :=
  match l with
  | [] => mret buf
  | p :: l' =>
      lif ← deref w_lifs p;
      if negb (lif_type lif =? IF_T_PORT_CHANNEL) then isolate_dst l' buf
      else if lif_isolate_to_peer_link lif =? 1 then
        let name := cstr (lif_name lif) in
        let members := cstr (lif_portchannel_member_buf lif) in
        if MCLAG_MEMBER_NAME_STR_LEN - Z.of_nat (length buf)
           >? Z.of_nat (length name) + Z.of_nat (length members) + 2
        then isolate_dst l'
               (buf ++ (if (length buf =? 0)%nat then [] else [44])
                ++ name ++ (if (length members =? 0)%nat then [] else [44]) ++ members)
        else isolate_dst l' buf
      else isolate_dst l' buf
  end.

(** [update_peerlink_isolate_from_all_csm_lif] *)
Definition update_peerlink_isolate_from_all_csm_lif (c : ptr) : W unit :=
  if c =? NULL then mret tt
  else
    csm ← deref w_csms c;
    if peer_link_if csm =? NULL then mret tt
    else
      pl ← deref w_lifs (peer_link_if csm);
      if lif_type pl =? IF_T_VXLAN then mret tt
      else
        dst ← isolate_dst (lif_list (MLACP csm)) [];
        syncd_write MCLAG_MSG_TYPE_PORT_ISOLATE
          (sub_option MCLAG_SUB_OPTION_TYPE_ISOLATE_SRC (cstr (lif_name pl))
           ++ sub_option MCLAG_SUB_OPTION_TYPE_ISOLATE_DST dst).

(** [set_peerlink_mlag_port_kernel_forward] *)
Definition ebtables_cmd (op : string) (src dst : list Z) : list Z :=
  str "ebtables " ++ str op ++ str " FORWARD -i " ++ cstr src ++ str " -o " ++ cstr dst ++ str " -j DROP".

Definition set_peerlink_mlag_port_kernel_forward (c lif : ptr) (enable : Z) : W unit :=
  if c =? NULL then mret tt
  else
    csm ← deref w_csms c;
    if (peer_link_if csm =? NULL) || (lif =? NULL) then mret tt
    else
      pl ← deref w_lifs (peer_link_if csm);
      l ← deref w_lifs lif;
      _ ← sys (SysSystem (ebtables_cmd "-D" (lif_name pl) (lif_name l)));
      _ ← sys (SysSystem (ebtables_cmd (if enable =? 0 then "-D" else "-I") (lif_name pl) (lif_name l)));
      mret tt.

(** [set_peerlink_mlag_port_isolate] *)
Definition set_peerlink_mlag_port_isolate (c lif : ptr) (enable : Z) (is_unbind_pending : bool) : W unit :=
  if lif =? NULL then mret tt
  else
    lif_upd lif (set lif_isolate_to_peer_link (λ _, enable));;
    if c =? NULL then mret tt
    else
      csm ← deref w_csms c;
      if peer_link_if csm =? NULL then mret tt
      else if negb (mlacp_current_state (MLACP csm) =? MLACP_STATE_EXCHANGE) then mret tt
      else
        update_peerlink_isolate_from_all_csm_lif c;;
        set_peerlink_mlag_port_kernel_forward c lif enable;;
        if is_unbind_pending then mret tt
        else
          l ← deref w_lifs lif;
          _ ← mlacp_link_set_peerlink_port_isolation (mlag_id csm) (lif_name l) (negb (enable =? 0));
          mret tt.

(** [peerlink_port_isolate_cleanup] *)
Definition peerlink_port_isolate_cleanup (c : ptr) : W unit :=
  if c =? NULL then mret tt
  else
    csm ← deref w_csms c;
    mforeach (lif_list (MLACP csm)) (λ p,
      l ← deref w_lifs p;
      when (lif_type l =? IF_T_PORT_CHANNEL) (set_peerlink_mlag_port_isolate c p 0 false)).

(** [update_peerlink_isolate_from_pif] *)
Definition update_peerlink_isolate_from_pif (c pif : ptr) (pif_po_state new_create : Z) : W unit :=
  if c =? NULL then mret tt
  else
    csm ← deref w_csms c;
    if (peer_link_if csm =? NULL) || (pif =? NULL) then mret tt
    else
      p ← deref w_pifs pif;
      if (new_create =? 0) && (pif_po_state =? pif_po_active p) then mret tt
      else if negb (mlacp_current_state (MLACP csm) =? MLACP_STATE_EXCHANGE) then mret tt
      else
        lif ← mfind (lif_list (MLACP csm)) (λ q,
                l ← deref w_lifs q; mret (str_eqb (lif_name l) (pif_name p)));
        if lif =? NULL then mret tt
        else
          l ← deref w_lifs lif;
          if lif_po_active l =? 1 then
            set_peerlink_mlag_port_isolate c lif (if pif_po_state =? 1 then 1 else 0) false
          else mret tt.

(** [update_peerlink_isolate_from_lif]: the peer's port channel of the same name
    counts as up when the peer has none. *)
Definition update_peerlink_isolate_from_lif (c lif : ptr) (lif_po_state : Z) : W unit :=
  if c =? NULL then mret tt
  else
    csm ← deref w_csms c;
    if (peer_link_if csm =? NULL) || (lif =? NULL) then mret tt
    else if negb (mlacp_current_state (MLACP csm) =? MLACP_STATE_EXCHANGE) then mret tt
    else
      l ← deref w_lifs lif;
      pif ← mfind (pif_list (MLACP csm)) (λ q,
              p ← deref w_pifs q; mret (str_eqb (pif_name p) (lif_name l)));
      pif_po_state ← (if pif =? NULL then mret 1 else p ← deref w_pifs pif; mret (pif_po_active p));
      if lif_po_state =? 1 then
        set_peerlink_mlag_port_isolate c lif (if pif_po_state =? 1 then 1 else 0) false
      else mret tt.

(** ** Port channels going up and down *)

(** [update_vlan_if_info], [update_l3_if_info] and [update_po_if_info] *)
Definition update_l3_if_info (c l3_if : ptr) : W unit :=
  if (c =? NULL) || (l3_if =? NULL) then mret tt
  else csm ← deref w_csms c; lif_upd l3_if (set lif_mlacp_state (λ _, mlacp_current_state (MLACP csm))).

Definition update_po_if_info (c lif : ptr) (po_state : Z) : W unit :=
  if (c =? NULL) || (lif =? NULL) then mret tt
  else
    l ← deref w_lifs lif;
    when (negb (lif_po_active l =? po_state))
      (lif_upd lif (λ l, l <| lif_changed := 1 |> <| lif_po_active := (if po_state =? 0 then 0 else 1) |>));;
    csm ← deref w_csms c;
    lif_upd lif (set lif_mlacp_state (λ _, mlacp_current_state (MLACP csm))).

(** [update_l2_po_state] *)
Definition update_l2_po_state (c lif : ptr) (po_state : Z) : W unit :=
  if (c =? NULL) || (lif =? NULL) then mret tt
  else
    l ← deref w_lifs lif;
    mforeach (lif_vlan_tree l) (λ v,
      let itf := vlan_itf v in
      if itf =? NULL then mret tt
      else
        update_l3_if_info c itf;;
        vl ← deref w_lifs itf;
        if negb (is_l3 vl) then mret tt
        else
          csm ← deref w_csms c;
          l ← deref w_lifs lif;
          r ← (if negb (po_state =? lif_po_active l)
                  || negb (mlacp_current_state (MLACP csm) =? lif_mlacp_state vl) then
                 if po_state =? 1 then mret ROUTE_DEL
                 else if (po_state =? 0) && (mlacp_current_state (MLACP csm) =? MLACP_STATE_EXCHANGE) then
                   alive ← peer_po_is_alive c (lif_ifindex l);
                   mret (if (alive : bool) then ROUTE_ADD else ROUTE_NONE)
                 else mret ROUTE_NONE
               else mret ROUTE_NONE);
          set_l3_itf_state c itf r;;
          update_l3_if_info c itf).

(** [update_l3_po_state] *)
Definition update_l3_po_state (c lif : ptr) (po_state : Z) : W unit :=
  if (c =? NULL) || (lif =? NULL) then mret tt
  else
    l ← deref w_lifs lif;
    csm ← deref w_csms c;
    let changed := negb (po_state =? lif_po_active l) in
    let exchange := mlacp_current_state (MLACP csm) =? MLACP_STATE_EXCHANGE in
    let route_if_alive := alive ← peer_po_is_alive c (lif_po_id l);
                          mret (if (alive : bool) then ROUTE_ADD else ROUTE_NONE) in
    r ← (if changed && (po_state =? 1) then mret ROUTE_DEL
         else if changed && (po_state =? 0) && exchange then route_if_alive
         else if negb (mlacp_current_state (MLACP csm) =? lif_mlacp_state l) && exchange && (po_state =? 0)
         then route_if_alive
         else mret ROUTE_NONE);
    set_l3_itf_state c lif r;;
    update_l3_if_info c lif.

Definition update_po_state (c lif : ptr) (po_state : Z) : W unit :=
  l3 ← local_if_is_l3_mode lif;
  if negb l3 then update_l2_po_state c lif po_state else update_l3_po_state c lif po_state.

(** [mlacp_portchannel_state_handler] *)
Definition mlacp_portchannel_state_handler (c lif : ptr) (po_state : Z) : W unit :=
  if (c =? NULL) || (lif =? NULL) then mret tt
  else
    update_peerlink_isolate_from_lif c lif po_state;;
    update_l2_mac_state c lif po_state;;
    update_po_state c lif po_state;;
    update_po_if_info c lif po_state;;
    when (po_state =? 0) (mlacp_link_disable_traffic_distribution lif).

(** [mlacp_mlag_link_add_handler] and [mlacp_mlag_link_del_handler] *)
Definition mlacp_mlag_link_add_handler (c lif : ptr) : W unit :=
  if (c =? NULL) || (lif =? NULL) then mret tt
  else
    csm ← deref w_csms c;
    if negb (mlacp_current_state (MLACP csm) =? MLACP_STATE_EXCHANGE) then mret tt
    else
      l ← deref w_lifs lif;
      update_peerlink_isolate_from_lif c lif (lif_po_active l);;
      when (bool_decide (role_type csm = STP_ROLE_STANDBY))
        (pif ← peer_if_find_by_name c (lif_name l);
         when (negb (pif =? NULL))
           (update_if_ipmac_on_standby lif;;
            l ← deref w_lifs lif;
            _ ← mlacp_link_set_iccp_system_id (mlag_id csm) (lif_mac_addr l);
            mret tt)).

Definition mlacp_mlag_link_del_handler (c lif : ptr) : W unit :=
  if (c =? NULL) || (lif =? NULL) then mret tt
  else
    csm ← deref w_csms c;
    if negb (mlacp_current_state (MLACP csm) =? MLACP_STATE_EXCHANGE) then mret tt
    else set_peerlink_mlag_port_isolate c lif 0 true.

(** [mlacp_mlag_intf_detach_handler] *)
Definition mlacp_mlag_intf_detach_handler (c lif : ptr) : W unit :=
  if (c =? NULL) || (lif =? NULL) then mret tt
  else
    mlacp_mlag_link_del_handler c lif;;
    update_remote_macs_to_peerlink c lif;;
    update_po_state c lif 0;;
    l ← deref w_lifs lif;
    when (lif_is_traffic_disable l)
      (csm ← deref w_csms c;
       same ← (if peer_link_if csm =? NULL then mret true
               else pl ← deref w_lifs (peer_link_if csm); mret (str_eqb (lif_name pl) (lif_name l)));
       when same (mlacp_link_enable_traffic_distribution lif)).

(** [mlacp_peer_mlag_intf_delete_handler] *)
Definition mlacp_peer_mlag_intf_delete_handler (c : ptr) (mlag_if_name : list Z) : W unit :=
  if c =? NULL then mret tt
  else
    lif ← local_if_find_by_name mlag_if_name;
    if lif =? NULL then mret tt else recover_if_ipmac_on_standby lif.

(** [update_stp_peer_link] *)
Definition stp_peer_link_itf (c lif itf : ptr) (po_state : Z) : W unit :=
  l ← deref w_lifs lif;
  (if (po_state =? 1) && (lif_po_active l =? 0) then set_l3_itf_state c itf ROUTE_ADD
   else when ((po_state =? 0) && (lif_po_active l =? 0)) (set_l3_itf_state c itf ROUTE_DEL));;
  when ((po_state =? 1) && (lif_po_active l =? 1))
    (syn_arp_info_to_peer c itf;; syn_ndisc_info_to_peer c itf).

Definition update_stp_peer_link (c pif : ptr) (po_state new_create : Z) : W unit :=
  if (c =? NULL) || (pif =? NULL) then mret tt
  else
    p ← deref w_pifs pif;
    if (new_create =? 0) && (po_state =? pif_po_active p) then mret tt
    else
      csm ← deref w_csms c;
      lif ← mfind (lif_list (MLACP csm)) (λ q,
              l ← deref w_lifs q; mret (str_eqb (lif_name l) (pif_name p)));
      if lif =? NULL then mret tt
      else
        l ← deref w_lifs lif;
        if is_l3 l then stp_peer_link_itf c lif lif po_state
        else
          mforeach (lif_vlan_tree l) (λ v,
            if vlan_itf v =? NULL then mret tt
            else
              l3 ← local_if_is_l3_mode (vlan_itf v);
              when l3 (stp_peer_link_itf c lif (vlan_itf v) po_state)).

(** ** Own addresses told to the peer *)

(** The memory of an [ARPMsg] or [NDISCMsg] on the stack. *)
Definition neigh_mem (op flag : Z) (ifname addr mac : list Z) : list Z :=
  [op; flag; 0] ++ ifname ++ [0] ++ addr ++ mac ++ [0; 0].

(** Build in the cleared buffer, and send what was built. *)
Definition build_and_send (c : ptr) (f : list Z → nat → W (Z * list Z)) : W Z :=
  clear_csm_buf;;
  msg_len ← in_csm_buf f;
  b ← gets w_csm_buf;
  if msg_len >? 0 then iccp_csm_send c b msg_len else mret MCLAG_ERROR.

(** [syn_local_mac_info_to_peer]; the entry is an automatic variable. *)
Definition syn_local_mac_info_to_peer (c lif : ptr) (sync_add is_sag : Z) : W Z :=
  if (c =? NULL) || (lif =? NULL) then mret MCLAG_ERROR
  else
    csm ← deref w_csms c;
    l ← deref w_lifs lif;
    if memcmp (system_id (MLACP csm)) null_mac =? 0 then mret MCLAG_ERROR
    else
      let v := sscanf_d (if is_sag =? 0 then "Vlan" else "sag") (lif_name l) in
      p ← place w_macs (mac_zero
            <| mac_op_type := (if sync_add =? 0 then MAC_SYNC_DEL else MAC_SYNC_ADD) |>
            <| mac_vid := u16 v |> <| mac_fdb_type := MAC_TYPE_STATIC |>
            <| mac_origin_ifname := peer_itf20 csm |> <| mac_addr := system_id (MLACP csm) |>);
      rc ← build_and_send c (λ b n, mlacp_prepare_for_mac_info_to_peer c b n p 0);
      free w_macs p;;
      mret rc.

(** [syn_local_arp_info_to_peer] *)
Definition syn_local_arp_info_to_peer (c lif : ptr) (sync_add ack : Z) : W Z :=
  if (c =? NULL) || (lif =? NULL) then mret MCLAG_ERROR
  else
    l ← deref w_lifs lif;
    let op := if sync_add =? 0 then NEIGH_SYNC_DEL else NEIGH_SYNC_ADD in
    let flag := Z.lor (if negb (sync_add =? 0) && negb (ack =? 0) then NEIGH_SYNC_FLAG_ACK else 0)
                      NEIGH_SYNC_FLAG_SELF_IP in
    build_and_send c (λ b n, mlacp_prepare_for_arp_info c b n
      (neigh_mem op flag (lif_name l) (le32 (lif_ipv4_addr l)) (lif_mac_addr l)) 0).

(** [syn_local_nd_info_to_peer] *)
Definition syn_local_nd_info_to_peer (c lif : ptr) (sync_add ack is_ipv6_ll : Z) : W Z :=
  if (c =? NULL) || (lif =? NULL) then mret MCLAG_ERROR
  else
    csm ← deref w_csms c;
    l ← deref w_lifs lif;
    let op := if sync_add =? 0 then NEIGH_SYNC_DEL else NEIGH_SYNC_ADD in
    let flag := if negb (sync_add =? 0) && negb (ack =? 0) then NEIGH_SYNC_FLAG_ACK else 0 in
    if negb (is_ipv6_ll =? 0) then
      if lif_ll_prefixlen_v6 l =? 0 then mret MCLAG_ERROR
      else if memcmp (system_id (MLACP csm)) null_mac =? 0 then mret MCLAG_ERROR
      else
        build_and_send c (λ b n, mlacp_prepare_for_ndisc_info c b n
          (neigh_mem op (Z.lor flag NEIGH_SYNC_FLAG_SELF_LL) (lif_name l) (lif_ipv6_ll_addr l)
             (system_id (MLACP csm))) 0)
    else
      build_and_send c (λ b n, mlacp_prepare_for_ndisc_info c b n
        (neigh_mem op (Z.lor flag NEIGH_SYNC_FLAG_SELF_IP) (lif_name l) (lif_ipv6_addr l) (lif_mac_addr l)) 0).

(** [syn_local_neigh_mac_info_to_peer] *)
Definition syn_local_neigh_mac_info_to_peer (lif : ptr) (sync_add : Z) (is_v4 is_v6 sync_mac : bool)
  (ack is_ipv6_ll : Z) : W Z :=
  c ← system_get_first_csm;
  if c =? NULL then mret MCLAG_ERROR
  else
    csm ← deref w_csms c;
    if negb (mlacp_current_state (MLACP csm) =? MLACP_STATE_EXCHANGE) then mret MCLAG_ERROR
    else
      l ← deref w_lifs lif;
      if negb (lif_type l =? IF_T_VLAN) then mret MCLAG_ERROR
      else
        when (negb (peer_link_if csm =? NULL)) (set_peerlink_learn_kernel c 0);;
        when sync_mac (_ ← syn_local_mac_info_to_peer c lif sync_add is_ipv6_ll; mret tt);;
        when is_v4 (_ ← syn_local_arp_info_to_peer c lif sync_add ack; mret tt);;
        when is_v6 (_ ← syn_local_nd_info_to_peer c lif sync_add ack is_ipv6_ll; mret tt);;
        mret 0.

(** [syn_ack_local_neigh_mac_info_to_peer] *)
Definition syn_ack_local_neigh_mac_info_to_peer (ifname : list Z) (is_ipv6_ll : Z) : W Z :=
  lif ← local_if_find_by_name ifname;
  if lif =? NULL then mret 0
  else if negb (is_ipv6_ll =? 0) then
    _ ← syn_local_neigh_mac_info_to_peer lif 1 false true true 0 1; mret 0
  else
    l ← deref w_lifs lif;
    when (negb (lif_l3_mode l =? 0) && lif_is_l3_proto_enabled l)
      (_ ← syn_local_neigh_mac_info_to_peer lif 1 (negb (lif_ipv4_addr l =? 0))
             (negb (lif_prefixlen_v6 l =? 0)) true 0 0;
       mret tt);;
    mret 0.

(** [sync_unique_ip] *)
Definition sync_unique_ip : W unit :=
  l ← gets (λ w, unq_ip_if_list (w_sys w));
  mforeach l (λ name, _ ← syn_ack_local_neigh_mac_info_to_peer name 0; mret tt).

(** ** The session going up and down *)

(** [mlacp_peer_conn_handler] *)
Definition mlacp_peer_conn_handler (c : ptr) : W unit :=
  if c =? NULL then mret tt
  else
    csm ← deref w_csms c;
    when (negb (warm_reboot_disconn_time csm =? 0)) (csm_upd c (set warm_reboot_disconn_time (λ _, 0)));;
    when (negb (peer_link_if csm =? NULL))
      (set_peerlink_mlag_port_learn (peer_link_if csm) 0;; set_peerlink_learn_kernel c 0);;
    once ← gets w_once_connected;
    when (once =? 0) (modify (set w_once_connected (λ _, 1));; mlacp_fix_bridge_mac c);;
    t ← sys SysTime;
    sys_upd (set csm_trans_time (λ _, t));;
    mlacp_sync_mac c;;
    csm ← deref w_csms c;
    mforeach (lif_list (MLACP csm)) (λ p,
      l ← deref w_lifs p;
      when (lif_type l =? IF_T_PORT_CHANNEL)
        (mlacp_portchannel_state_handler c p (if lif_state l =? PORT_STATE_UP then 1 else 0)));;
    _ ← mlacp_link_set_iccp_state (mlag_id csm) true;
    csm ← deref w_csms c;
    mforeach (pif_list (MLACP csm)) (λ q,
      p ← deref w_pifs q;
      _ ← mlacp_link_set_remote_if_state (mlag_id csm) (pif_name p) (pif_state p =? PORT_STATE_UP);
      mret tt);;
    update_peerlink_isolate_from_all_csm_lif c;;
    csm ← deref w_csms c;
    when (negb (peer_link_if csm =? NULL)) (update_vlan_if_mac_on_iccp_up (peer_link_if csm) true None);;
    sync_unique_ip.

(** [mlacp_peer_disconn_handler] *)
Definition mlacp_peer_disconn_handler (c : ptr) : W unit :=
  if c =? NULL then mret tt
  else
    csm ← deref w_csms c;
    wb ← gets (λ w, warmboot_exit (w_sys w));
    if wb =? WARM_REBOOT then mret tt
    else if negb (peer_warm_reboot_time csm =? 0) then
      csm_upd c (set peer_warm_reboot_time (λ _, 0));;
      t ← sys SysTime;
      csm_upd c (set warm_reboot_disconn_time (λ _, t))
    else
      mlacp_peer_disconn_fdb_handler c;;
      _ ← mlacp_link_set_iccp_state (mlag_id csm) false;
      peerlink_port_isolate_cleanup c;;
      csm ← deref w_csms c;
      let remote_system_mac := remote_system_id (remote_system (MLACP csm)) in
      mlacp_upd c (set remote_system (set remote_system_id (λ _, null_mac)));;
      mforeach (lif_list (MLACP csm)) (λ p,
        when (bool_decide (role_type csm = STP_ROLE_STANDBY)) (recover_if_ipmac_on_standby p);;
        l ← deref w_lifs p;
        when (lif_is_traffic_disable l) (mlacp_link_enable_traffic_distribution p));;
      when (negb (peer_link_if csm =? NULL))
        (update_vlan_if_mac_on_iccp_up (peer_link_if csm) false (Some remote_system_mac));;
      sys_upd (set session_down_counter (λ n, u32 (n + 1)));;
      when (bool_decide (role_type csm = STP_ROLE_STANDBY))
        (_ ← mlacp_link_set_iccp_system_id (mlag_id csm) (system_id (MLACP csm)); mret tt);;
      mforeach (pif_list (MLACP csm)) (λ q,
        p ← deref w_pifs q;
        _ ← mlacp_link_del_remote_if_info (mlag_id csm) (pif_name p);
        mret tt).
