(* ===== verification/NeighUpdate.v ===== *)
(** * Neighbour entries announced by the peer ([mlacp_sync_update.c])

    [mlacp_fsm_update_arp_entry] and [mlacp_fsm_update_ndisc_entry] are the same
    function of two kinds of entries; a [neigh_kind] says where they differ.  An
    entry that is an address of this node is ignored, an entry on a live port is
    given to the kernel, and the list of known entries and the queue to the peer
    are brought up to date. *)

From S2P Require Import Prelude CMem CString MsgFormat State Machine IccpMsg IccpQueue SyncPrepare.
From S2P Require Import Port Syncd Standby MacTable LinkHandler.
#[local] Open Scope Z_scope.

Definition ICCP_NLE_SEQ_MISMATCH : Z := -16.

(** ** The two kinds of neighbour entries *)

Record neigh_kind : Type := NeighKind {
  nk_struct : struct;
  nk_addr : string;                                 (** the member with the address *)
  nk_alen : nat;                                    (** its length *)
  nk_family : Z;
  nk_list : mLACP → list Msg;                       (** the known entries *)
  nk_list_set : Settable nk_list;
  nk_queue : mLACP → list Msg;                      (** the entries to send *)
  nk_queue_set : Settable nk_queue;
  nk_is_ip : LocalInterface → list Z → bool;        (** the address of the interface *)
  nk_is_own : LocalInterface → list Z → bool;       (** or its link-local address *)
  nk_permanent_mask : Z;                            (** flags that make a permanent entry *)
  nk_ack_ll_mask : Z                                (** flags of a link-local address *)
}.
#[global] Existing Instances nk_list_set nk_queue_set.

Definition arp_is_ip (l : LocalInterface) (addr : list Z) : bool :=
  bool_decide (addr = le32 (lif_ipv4_addr l)).

Definition nd_is_ip (l : LocalInterface) (addr : list Z) : bool := memcmp addr (lif_ipv6_addr l) =? 0.

(** The text of the address begins with [fe80]. *)
Definition is_link_local (addr : list Z) : bool := bool_decide (take 2 addr = [0xfe; 0x80]).

Definition nd_is_own (l : LocalInterface) (addr : list Z) : bool :=
  nd_is_ip l addr || (is_link_local addr && (memcmp addr (lif_ipv6_ll_addr l) =? 0)).

Definition arp_kind : neigh_kind :=
  NeighKind ARPMsg "ipv4_addr" 4 AF_INET arp_list _ arp_msg_list _ arp_is_ip arp_is_ip
    NEIGH_SYNC_FLAG_SELF_IP 0.
Definition ndisc_kind : neigh_kind :=
  NeighKind NDISCMsg "ipv6_addr" 16 AF_INET6 ndisc_list _ ndisc_msg_list _ nd_is_ip nd_is_own
    (Z.lor NEIGH_SYNC_FLAG_SELF_LL NEIGH_SYNC_FLAG_SELF_IP) NEIGH_SYNC_FLAG_SELF_LL.

(** The entry in the message; the name is the string at its place. *)
Record NeighData : Type := mkNeighData {
  nd_op : Z;
  nd_flag : Z;
  nd_name : list Z;
  nd_addr : list Z;
  nd_mac : list Z
}.

Section update.
Context (k : neigh_kind).

Definition read_neigh (off : nat) (buf : list Z) : W NeighData :=
  op ← oob (rd8 (off + offsetof (nk_struct k) "op_type") buf);
  flag ← oob (rd8 (off + offsetof (nk_struct k) "flag") buf);
  addr ← oob (rd_bytes (off + offsetof (nk_struct k) (nk_addr k)) (nk_alen k) buf);
  mac ← oob (rd_bytes (off + offsetof (nk_struct k) "mac_addr") ETHER_ADDR_LEN buf);
  mret (mkNeighData op flag (string_at (off + offsetof (nk_struct k) "ifname") buf) addr mac).

(** [Vlan%hu] *)
Definition neigh_vlan (d : NeighData) : Z := u16 (sscanf_d "Vlan" (nd_name d)).

(** The VLAN of the entry on the peer link: whether the entry is to be set, and
    whether it is an address of this node. *)
Definition neigh_check_peer_link (c : ptr) (d : NeighData) : W (bool * bool) :=
  if neigh_vlan d =? 0 then mret (false, false)
  else
    csm ← deref w_csms c;
    pl ← local_if_find_by_name (peer_itf_name csm);
    if pl =? NULL then mret (false, false)
    else
      l ← deref w_lifs pl;
      if is_l3 l then mret (false, false)
      else match vlan_find (neigh_vlan d) (lif_vlan_tree l) with
      | Some v =>
          if vlan_itf v =? NULL then mret (false, false)
          else
            itf ← deref w_lifs (vlan_itf v);
            mret (true, str_eqb (lif_name itf) (nd_name d) && is_l3 itf && nk_is_own k itf (nd_addr d))
      | None =>
          vlan_if ← local_if_find_by_name (nd_name d);
          if vlan_if =? NULL then mret (false, false)
          else
            itf ← deref w_lifs vlan_if;
            if lif_is_l3_proto_enabled itf then mret (true, nk_is_own k itf (nd_addr d))
            else mret (false, false)
      end.

(** The multi-chassis port channels: the first live one the entry is on. *)
Fixpoint neigh_check_mlag (d : NeighData) (l : list ptr) (my_ip : bool) : W (bool * bool) :=
  match l with
  | [] => mret (false, my_ip)
  | p :: l' =>
      lif ← deref w_lifs p;
      if negb (lif_type lif =? IF_T_PORT_CHANNEL) then neigh_check_mlag d l' my_ip
      else if negb (is_l3 lif) then
        let node := if neigh_vlan d =? 0 then None else vlan_find (neigh_vlan d) (lif_vlan_tree lif) in
        match node with
        | None => neigh_check_mlag d l' my_ip
        | Some v =>
            own ← (if vlan_itf v =? NULL then mret false
                   else itf ← deref w_lifs (vlan_itf v); mret (nk_is_ip k itf (nd_addr d)));
            if lif_po_active lif =? 1 then mret (true, my_ip || own)
            else neigh_check_mlag d l' (my_ip || own)
        end
      else if str_eqb (lif_name lif) (nd_name d) && (lif_po_active lif =? 1) then mret (true, my_ip)
      else neigh_check_mlag d l' my_ip
  end.

(** The request to the kernel; whether the entry was accepted. *)
Definition neigh_set_kernel (d : NeighData) : W bool :=
  let permanent := if Z.land (nd_flag d) (nk_permanent_mask k) =? 0 then 0 else 1 in
  let ack_ll := if Z.land (nd_flag d) (nk_ack_ll_mask k) =? 0 then 0 else 1 in
  let add := if nd_op d =? NEIGH_SYNC_ADD then 1 else 0 in
  err ← iccp_netlink_neighbor_request (nk_family k) (nd_addr d) add (nd_mac d) (nd_name d) permanent;
  if (err <? 0) && negb (err =? ICCP_NLE_SEQ_MISMATCH) then mret false
  else
    when ((add =? 1) && negb (Z.land (nd_flag d) NEIGH_SYNC_FLAG_ACK =? 0))
      (_ ← syn_ack_local_neigh_mac_info_to_peer (nd_name d) ack_ll; mret tt);;
    mret true.

(** The address of a stored entry is that of [d]. *)
Definition same_addr (d : NeighData) (m : Msg) : W bool :=
  addr ← field_bytes (nk_struct k) (nk_addr k) (nk_alen k) (msg_buf m);
  mret (bool_decide (addr = nd_addr d)).

(** [TAILQ_FOREACH] up to the first entry with that address. *)
Fixpoint neigh_index (d : NeighData) (i : nat) (l : list Msg) : W (option nat) :=
  match l with
  | [] => mret None
  | m :: l' => b ← same_addr d m; if (b : bool) then mret (Some i) else neigh_index d (S i) l'
  end.

(** Name and MAC address written into the memory of an entry. *)
Definition neigh_write (d : NeighData) (mem : list Z) : W (list Z) :=
  old ← field_bytes (nk_struct k) "ifname" MAX_L_PORT_NAME mem;
  ifname ← oob (sprintf_s old (nd_name d));
  oob (apply_stores [WB (offsetof (nk_struct k) "ifname") ifname;
                     WB (offsetof (nk_struct k) "mac_addr") (nd_mac d)] mem).

(** [mlacp_enqueue_arp] and [mlacp_enqueue_ndisc] *)
Definition mlacp_enqueue_neigh (c : ptr) (msg : option Msg) : W unit :=
  if c =? NULL then mret tt
  else match msg with
  | None => mret tt
  | Some m =>
      op ← field_u8 (nk_struct k) "op_type" (msg_buf m);
      when (negb (op =? NEIGH_SYNC_DEL)) (mlacp_upd c (set (nk_list k) (λ l, l ++ [m])))
  end.

(** The list of known entries: a known entry is rewritten, and removed by a
    deletion; an addition of an unknown entry is stored. *)
Definition neigh_update_list (c : ptr) (d : NeighData) : W unit :=
  csm ← deref w_csms c;
  found ← neigh_index d 0 (nk_list k (MLACP csm));
  match found with
  | Some i =>
      m ← oob (nk_list k (MLACP csm) !! i);
      mem ← neigh_write d (msg_buf m);
      mlacp_upd c (set (nk_list k) <[i := m <| msg_buf := mem |>]>);;
      when (nd_op d =? NEIGH_SYNC_DEL) (mlacp_upd c (set (nk_list k) (delete i)))
  | None =>
      when (nd_op d =? NEIGH_SYNC_ADD)
        (mem ← uninit (sizeof (nk_struct k));
         mem ← neigh_write d mem;
         mem ← oob (apply_stores [WB (offsetof (nk_struct k) (nk_addr k)) (nd_addr d);
                                  W8 (offsetof (nk_struct k) "op_type") (nd_op d);
                                  W8 (offsetof (nk_struct k) "flag") 0;
                                  W8 (offsetof (nk_struct k) "learn_flag") NEIGH_REMOTE] mem);
         msg ← iccp_csm_init_msg mem (Z.of_nat (sizeof (nk_struct k)));
         mlacp_enqueue_neigh c msg)
  end.

(** The queue to the peer: every entry with that address is removed, one at a
    time. *)
Definition neigh_purge_queue (c : ptr) (d : NeighData) : W unit :=
  csm ← deref w_csms c;
  mwhile (S (length (nk_queue k (MLACP csm))))
    (csm ← deref w_csms c;
     found ← neigh_index d 0 (nk_queue k (MLACP csm));
     match found with
     | Some i => mlacp_upd c (set (nk_queue k) (delete i));; mret true
     | None => mret false
     end).

(** The whole function. *)
Definition update_neigh_entry (c : ptr) (d : NeighData) : W Z :=
  if c =? NULL then mret MCLAG_ERROR
  else
    '(set1, my_ip1) ← neigh_check_peer_link c d;
    if (my_ip1 : bool) then mret 0
    else
      csm ← deref w_csms c;
      '(set2, my_ip2) ← (if set1 : bool then mret (true, false)
                         else neigh_check_mlag d (lif_list (MLACP csm)) false);
      if (my_ip2 : bool) then mret 0
      else
        let finish := neigh_update_list c d;; neigh_purge_queue c d;; mret 0 in
        if (set2 : bool) then
          ok ← neigh_set_kernel d;
          if (ok : bool) then finish else mret MCLAG_ERROR
        else
          itf ← local_if_find_by_name (nd_name d);
          own ← (if itf =? NULL then mret false
                 else l ← deref w_lifs itf; mret (nk_is_ip k l (nd_addr d)));
          if (own : bool) then mret 0 else finish.

(** All entries of a message, whose number must fit the length of the TLV. *)
Definition update_neigh_info (c : ptr) (buf : list Z) : W Z :=
  if c =? NULL then mret MCLAG_ERROR
  else
    n ← oob (rd16 (tlv_off mLACPARPInfoTLV "num_of_entry") buf);
    len ← oob (rd16 (sizeof ICCHdr + offsetof ICCParameter "len") buf);
    let count := ntohs n in
    if ntohs len <? 2 + count * Z.of_nat (sizeof (nk_struct k)) then mret MCLAG_ERROR_INVALID_TLV
    else
      mforeach (seq 0 (Z.to_nat count)) (λ i,
        d ← read_neigh (sizeof ICCHdr + sizeof mLACPARPInfoTLV + sizeof (nk_struct k) * i) buf;
        _ ← update_neigh_entry c d;
        mret tt);;
      mret 0.
End update.

(** ** The functions of the source *)

Definition mlacp_enqueue_arp : ptr → option Msg → W unit := mlacp_enqueue_neigh arp_kind.
Definition mlacp_enqueue_ndisc : ptr → option Msg → W unit := mlacp_enqueue_neigh ndisc_kind.
Definition mlacp_fsm_update_arp_entry : ptr → NeighData → W Z := update_neigh_entry arp_kind.
Definition mlacp_fsm_update_ndisc_entry : ptr → NeighData → W Z := update_neigh_entry ndisc_kind.
Definition mlacp_fsm_update_arp_info : ptr → list Z → W Z := update_neigh_info arp_kind.
Definition mlacp_fsm_update_ndisc_info : ptr → list Z → W Z := update_neigh_info ndisc_kind.
