(* ===== verification/NeighLearn.v ===== *)
(** * Neighbours learned from the kernel and from the wire ([iccp_ifm.c], [iccp_netlink.c])

    The kernel reports its neighbour entries in netlink messages, and the daemon
    sees ARP replies and neighbour advertisements itself.  An entry of a
    multi-chassis port channel, or of a VLAN of one or of the peer link, is stored
    in the list of known entries and announced to the peer.  ARP and neighbour
    discovery are the two [neigh_kind]s of [NeighUpdate.v]. *)

From S2P Require Import Prelude CMem CString MsgFormat State Machine IccpMsg IccpQueue SyncPrepare Port Syncd.
From S2P Require Import Standby MacTable LinkHandler NeighUpdate.
#[local] Open Scope Z_scope.

Definition MAX_BUFSIZE : nat := Z.to_nat 4096.
Definition RTM_NEWNEIGH : Z := 28.
Definition RTM_DELNEIGH : Z := 29.
Definition bcast_mac : list Z := replicate ETHER_ADDR_LEN 0xff.

(** ** The port an entry is on *)

(** The node of the VLAN [key] when its interface is [ifindex]: the identifier and
    the interface. *)
Definition vlan_on (ifindex key : Z) (l : LocalInterface) : W (option (Z * ptr)) :=
  match vlan_find key (lif_vlan_tree l) with
  | None => mret None
  | Some v =>
      if vlan_itf v =? NULL then mret None
      else
        itf ← deref w_lifs (vlan_itf v);
        mret (if lif_ifindex itf =? ifindex then Some (vid v, vlan_itf v) else None)
  end.

(** The first port channel of the machine the entry is on; identifier [0] is none. *)
Fixpoint learn_on_mlag (ifindex key : Z) (l : list ptr) : W (option (Z * ptr)) :=
  match l with
  | [] => mret None
  | p :: l' =>
      lif ← deref w_lifs p;
      if negb (lif_type lif =? IF_T_PORT_CHANNEL) then learn_on_mlag ifindex key l'
      else
        r ← (if negb (is_l3 lif) then vlan_on ifindex key lif
             else mret (if ifindex =? lif_ifindex lif then Some (0, NULL) else None));
        match r with Some _ => mret r | None => learn_on_mlag ifindex key l' end
  end.

(** ... or its peer link. *)
Definition learn_on_peer_link (ifindex key : Z) (csm : CSM) : W (option (Z * ptr)) :=
  if peer_link_if csm =? NULL then mret None
  else
    l ← deref w_lifs (peer_link_if csm);
    if is_l3 l then mret None else vlan_on ifindex key l.

(** The loop over the machines: the machine, the VLAN and its interface. *)
Fixpoint learn_port (ifindex key : Z) (cs : list ptr) : W (option (ptr * Z * ptr)) :=
  match cs with
  | [] => mret None
  | c :: cs' =>
      csm ← deref w_csms c;
      r ← learn_on_mlag ifindex key (lif_list (MLACP csm));
      r ← (match r with Some _ => mret r | None => learn_on_peer_link ifindex key csm end);
      match r with
      | Some (v, itf) => mret (Some (c, v, itf))
      | None => learn_port ifindex key cs'
      end
  end.

(** The identifier in the name of a VLAN interface, [0] for another one. *)
Definition vlan_key (name : list Z) : Z :=
  if has_prefix "Vlan" name then u16 (sscanf_d "Vlan" name) else 0.

(** ** The entry *)

Section learn.
Context (k : neigh_kind).
#[local] Notation off name := (offsetof (nk_struct k) name).

(** The entry on the stack, in a cleared buffer. *)
Definition learn_entry (name : list Z) (addr mac : option (list Z)) : W (list Z) :=
  ifname ← oob (sprintf_s (replicate MAX_L_PORT_NAME 0) name);
  oob (apply_stores
    ([W8 (off "op_type") NEIGH_SYNC_LIF; WB (off "ifname") ifname]
     ++ (match addr with Some a => [WB (off (nk_addr k)) a] | None => [] end)
     ++ (match mac with Some m => [WB (off "mac_addr") m] | None => [] end)) (replicate MAX_BUFSIZE 0)).

(** The address is that of the VLAN interface the entry is on. *)
Definition learn_own (v : Z) (itf : ptr) (addr : list Z) : W bool :=
  if (v =? 0) || (itf =? NULL) then mret false
  else l ← deref w_lifs itf; mret (nk_is_own k l addr).

(** The stored entry [m] is not what was learned. *)
Definition learn_differs (d : NeighData) (m : Msg) : W bool :=
  op ← field_u8 (nk_struct k) "op_type" (msg_buf m);
  name ← field_bytes (nk_struct k) "ifname" MAX_L_PORT_NAME (msg_buf m);
  mac ← field_bytes (nk_struct k) "mac_addr" ETHER_ADDR_LEN (msg_buf m);
  mret (negb (op =? nd_op d) || negb (str_eqb name (nd_name d)) || negb (memcmp mac (nd_mac d) =? 0)).

(** The entry [i] of the list is rewritten. *)
Definition learn_rewrite (c : ptr) (d : NeighData) (i : nat) (m : Msg) : W unit :=
  mem ← oob (apply_stores [W8 (off "op_type") (nd_op d)] (msg_buf m));
  mem ← neigh_write k d mem;
  mlacp_upd c (set (nk_list k) <[i := m <| msg_buf := mem |>]>).

(** A new entry of the list; the buffer keeps the marks it was given. *)
Definition learn_store (c : ptr) (buf : list Z) : W (list Z) :=
  buf ← oob (apply_stores [W8 (off "op_type") NEIGH_SYNC_LIF; W8 (off "learn_flag") NEIGH_LOCAL] buf);
  msg ← iccp_csm_init_msg buf (Z.of_nat (sizeof (nk_struct k)));
  mlacp_enqueue_neigh k c msg;;
  mret buf.

(** The announcement to the peer, in the exchange state only. *)
Definition learn_announce (c : ptr) (op : Z) (buf : list Z) : W unit :=
  csm ← deref w_csms c;
  when (mlacp_current_state (MLACP csm) =? MLACP_STATE_EXCHANGE)
    (buf ← oob (apply_stores [W8 (off "op_type") op; W8 (off "flag") 0] buf);
     msg ← iccp_csm_init_msg buf (Z.of_nat (sizeof (nk_struct k)));
     match msg with
     | Some m => mlacp_upd c (set (nk_queue k) (λ l, l ++ [m]))
     | None => mret tt
     end).

(** ** Reports of the kernel

    [differs] is the test for a change of a known entry. *)
Definition learn_from_kernel (differs : NeighData → Msg → W bool) (c : ptr) (d : NeighData)
  (msgtype : Z) (buf : list Z) : W unit :=
  csm ← deref w_csms c;
  found ← neigh_index k d 0 (nk_list k (MLACP csm));
  match found with
  | Some i =>
      if msgtype =? RTM_DELNEIGH then
        mlacp_upd c (set (nk_list k) (delete i));;
        learn_announce c NEIGH_SYNC_DEL buf
      else
        m ← oob (nk_list k (MLACP csm) !! i);
        changed ← differs d m;
        when changed (learn_rewrite c d i m;; learn_announce c NEIGH_SYNC_ADD buf)
  | None =>
      when (negb (msgtype =? RTM_DELNEIGH))
        (buf ← learn_store c buf; learn_announce c NEIGH_SYNC_ADD buf)
  end.

(** ** Replies seen on the wire *)

(** A known entry is rewritten when it differs. *)
Definition learn_refresh (c : ptr) (d : NeighData) (i : nat) : W unit :=
  csm ← deref w_csms c;
  m ← oob (nk_list k (MLACP csm) !! i);
  changed ← learn_differs d m;
  when changed (learn_rewrite c d i m).
End learn.

(** ** The functions of the source *)

(** An attribute of a netlink message: the offset and the length of its payload. *)
Definition attr : Type := (nat * Z)%type.

Definition attr_payload (n : list Z) (a : option attr) : W (option (list Z)) :=
  match a with
  | None => mret None
  | Some (o, len) => b ← oob (rd_bytes o (Z.to_nat len) n); mret (Some b)
  end.

(** [do_arp_learn_from_kernel]: [ndm->ndm_ifindex], the message with the attributes
    [NDA_DST] and [NDA_LLADDR]. *)
Definition do_arp_learn_from_kernel (ifindex : Z) (n : list Z) (dst lladdr : option attr)
  (msgtype : Z) (is_del : bool) : W unit :=
  arp_lif ← local_if_find_by_ifindex ifindex;
  if arp_lif =? NULL then mret tt
  else
    l ← deref w_lifs arp_lif;
    addr ← attr_payload n dst;
    mac ← (if is_del then mret None else attr_payload n lladdr);
    buf ← learn_entry arp_kind (lif_name l) addr mac;
    d ← read_neigh arp_kind 0 buf;
    if negb (msgtype =? RTM_DELNEIGH) && (lif_ipv4_addr l =? 0) then mret tt
    else
      let msgtype := if memcmp (nd_mac d) bcast_mac =? 0 then RTM_DELNEIGH else msgtype in
      cs ← gets (λ w, csm_list (w_sys w));
      r ← learn_port ifindex (vlan_key (nd_name d)) cs;
      match r with
      | None => mret tt
      | Some (c, v, itf) =>
          own ← learn_own arp_kind v itf (nd_addr d);
          if (own : bool) then mret tt
          else learn_from_kernel arp_kind (learn_differs arp_kind) c d msgtype buf
      end.

(** [do_ndisc_learn_from_kernel]: its test for a change compares the stored entry
    with itself. *)
Definition ndisc_same_entry (d : NeighData) (m : Msg) : W bool :=
  op ← field_u8 NDISCMsg "op_type" (msg_buf m);
  name ← field_bytes NDISCMsg "ifname" MAX_L_PORT_NAME (msg_buf m);
  mac ← field_bytes NDISCMsg "mac_addr" ETHER_ADDR_LEN (msg_buf m);
  mret (negb (op =? op) || negb (str_eqb name name) || negb (memcmp mac mac =? 0)).

Definition do_ndisc_learn_from_kernel (ifindex : Z) (n : list Z) (dst lladdr : option attr)
  (msgtype : Z) (is_del : bool) : W unit :=
  ndisc_lif ← local_if_find_by_ifindex ifindex;
  if ndisc_lif =? NULL then mret tt
  else
    l ← deref w_lifs ndisc_lif;
    addr ← attr_payload n dst;
    mac ← (if is_del then mret None else attr_payload n lladdr);
    buf ← learn_entry ndisc_kind (lif_name l) addr mac;
    d ← read_neigh ndisc_kind 0 buf;
    if negb (msgtype =? RTM_DELNEIGH) && (memcmp (lif_ipv6_addr l) ipv6_null =? 0) then mret tt
    else if memcmp (nd_mac d) bcast_mac =? 0 then mret tt
    else
      cs ← gets (λ w, csm_list (w_sys w));
      r ← learn_port ifindex (vlan_key (nd_name d)) cs;
      match r with
      | None => mret tt
      | Some (c, v, itf) =>
          own ← learn_own ndisc_kind v itf (nd_addr d);
          if (own : bool) then mret tt
          else learn_from_kernel ndisc_kind ndisc_same_entry c d msgtype buf
      end.

(** [do_arp_update_from_reply_packet]; the address is four bytes, the MAC address six. *)
Definition do_arp_update_from_reply_packet (ifindex : Z) (addr mac_addr : list Z) : W unit :=
  arp_lif ← local_if_find_by_ifindex ifindex;
  if arp_lif =? NULL then mret tt
  else
    l ← deref w_lifs arp_lif;
    buf ← learn_entry arp_kind (lif_name l) (Some addr) (Some mac_addr);
    d ← read_neigh arp_kind 0 buf;
    if lif_ipv4_addr l =? 0 then mret tt
    else if memcmp (nd_mac d) bcast_mac =? 0 then mret tt
    else
      cs ← gets (λ w, csm_list (w_sys w));
      r ← learn_port ifindex (vlan_key (lif_name l)) cs;
      match r with
      | None => mret tt
      | Some (c, v, itf) =>
          own ← (if v =? 0 then r ← sys (NlHasAddr AF_INET addr (lif_ifindex l)); mret (negb (r =? 0))
                 else learn_own arp_kind v itf (nd_addr d));
          if (own : bool) then mret tt
          else
            csm ← deref w_csms c;
            found ← neigh_index arp_kind d 0 (arp_list (MLACP csm));
            buf ← (match found with
                   | Some i => learn_refresh arp_kind c d i;; mret buf
                   | None => learn_store arp_kind c buf
                   end);
            learn_announce arp_kind c NEIGH_SYNC_ADD buf
      end.

(** [do_ndisc_update_from_reply_packet]: an advertisement without a link-layer address
    keeps the one of a known entry; the kernel is given the entry before the peer. *)
Definition ndisc_known_mac (c : ptr) (i : nat) (buf : list Z) : W (list Z) :=
  csm ← deref w_csms c;
  m ← oob (ndisc_list (MLACP csm) !! i);
  mac ← field_bytes NDISCMsg "mac_addr" ETHER_ADDR_LEN (msg_buf m);
  oob (apply_stores [WB (offsetof NDISCMsg "mac_addr") mac] buf).

Definition ndisc_set_and_announce (c : ptr) (buf : list Z) : W unit :=
  d ← read_neigh ndisc_kind 0 buf;
  err ← iccp_netlink_neighbor_request AF_INET6 (nd_addr d) 1 (nd_mac d) (nd_name d) 0;
  if (err <? 0) && negb (err =? ICCP_NLE_SEQ_MISMATCH) then mret tt
  else learn_announce ndisc_kind c NEIGH_SYNC_ADD buf.

Definition do_ndisc_update_from_reply_packet (ifindex : Z) (ipv6_addr mac_addr : list Z) : W unit :=
  ndisc_lif ← local_if_find_by_ifindex ifindex;
  if ndisc_lif =? NULL then mret tt
  else
    l ← deref w_lifs ndisc_lif;
    buf ← learn_entry ndisc_kind (lif_name l) (Some ipv6_addr) (Some mac_addr);
    d ← read_neigh ndisc_kind 0 buf;
    if memcmp (lif_ipv6_addr l) ipv6_null =? 0 then mret tt
    else if memcmp (nd_mac d) bcast_mac =? 0 then mret tt
    else
      cs ← gets (λ w, csm_list (w_sys w));
      r ← learn_port ifindex (vlan_key (lif_name l)) cs;
      match r with
      | None => mret tt
      | Some (c, v, itf) =>
          own ← learn_own ndisc_kind v itf (nd_addr d);
          if (own : bool) then mret tt
          else
            csm ← deref w_csms c;
            found ← neigh_index ndisc_kind d 0 (ndisc_list (MLACP csm));
            match found with
            | Some i =>
                buf ← (if memcmp mac_addr null_mac =? 0 then ndisc_known_mac c i buf else mret buf);
                d ← read_neigh ndisc_kind 0 buf;
                learn_refresh ndisc_kind c d i;;
                ndisc_set_and_announce c buf
            | None =>
                if memcmp mac_addr null_mac =? 0 then mret tt
                else buf ← learn_store ndisc_kind c buf; ndisc_set_and_announce c buf
            end
      end.

(** ** Netlink messages *)

(** [struct nlmsghdr], [struct ndmsg] and [struct rtattr] of the kernel *)
Definition nlmsghdr : struct := Struct false
  [uint32 "nlmsg_len"; uint16 "nlmsg_type"; uint16 "nlmsg_flags"; uint32 "nlmsg_seq"; uint32 "nlmsg_pid"].
Definition ndmsg : struct := Struct false
  [uint8 "ndm_family"; uint8 "ndm_pad1"; uint16 "ndm_pad2"; uint32 "ndm_ifindex"; uint16 "ndm_state";
   uint8 "ndm_flags"; uint8 "ndm_type"].
Definition rtattr : struct := Struct false [uint16 "rta_len"; uint16 "rta_type"].

Definition NLMSG_DONE : Z := 3.
Definition NUD_NONE : Z := 0x00.
Definition NUD_INCOMPLETE : Z := 0x01.
Definition NUD_FAILED : Z := 0x20.
Definition NUD_NOARP : Z := 0x40.
Definition NUD_PERMANENT : Z := 0x80.
Definition NDA_DST : Z := 1.
Definition NDA_LLADDR : Z := 2.
Definition RTN_UNICAST : Z := 1.

(** [RTA_ALIGN] *)
Definition RTA_ALIGN (len : Z) : Z := Z.land (len + 3) (Z.lnot 3).

(** [ifm_parse_rtattr], for the entries [NDA_DST] and [NDA_LLADDR] of the table: the
    last attribute of a type is the one that counts.  Every round consumes at least
    four bytes, so the length bounds the rounds. *)
Fixpoint ifm_parse_rtattr (fuel : nat) (n : list Z) (rta : nat) (len : Z) (dst lladdr : option attr) :
  W (option attr * option attr) :=
  match fuel with
  | O => fail OutOfFuel
  | S f =>
      if len <? Z.of_nat (sizeof rtattr) then mret (dst, lladdr)
      else
        rta_len ← oob (rd16 (rta + offsetof rtattr "rta_len") n);
        if (rta_len <? Z.of_nat (sizeof rtattr)) || (rta_len >? len) then mret (dst, lladdr)
        else
          rta_type ← oob (rd16 (rta + offsetof rtattr "rta_type") n);
          let a := ((rta + sizeof rtattr)%nat, rta_len - Z.of_nat (sizeof rtattr)) in
          ifm_parse_rtattr f n (rta + Z.to_nat (RTA_ALIGN rta_len)) (len - RTA_ALIGN rta_len)
            (if rta_type =? NDA_DST then Some a else dst)
            (if rta_type =? NDA_LLADDR then Some a else lladdr)
  end.

(** [do_one_neigh_request]; the length is computed modulo 2^32 and read back as an [int]. *)
Definition do_one_neigh_request (n : list Z) : W Z :=
  type ← oob (rd16 (offsetof nlmsghdr "nlmsg_type") n);
  if negb (type =? RTM_NEWNEIGH) && negb (type =? RTM_DELNEIGH) then mret 0
  else
    c ← system_get_first_csm;
    if c =? NULL then mret 0
    else
      nlmsg_len ← oob (rd32 (offsetof nlmsghdr "nlmsg_len") n);
      let hdr := sizeof nlmsghdr in
      let len := to_int (nlmsg_len - Z.of_nat (hdr + sizeof ndmsg)) in
      if len <? 0 then mret MCLAG_ERROR
      else
        '(dst, lladdr) ← ifm_parse_rtattr (S (Z.to_nat len)) n (hdr + sizeof ndmsg)%nat len None None;
        state ← oob (rd16 (hdr + offsetof ndmsg "ndm_state") n);
        ifindex ← oob (rd32 (hdr + offsetof ndmsg "ndm_ifindex") n);
        ndm_type ← oob (rd8 (hdr + offsetof ndmsg "ndm_type") n);
        family ← oob (rd8 (hdr + offsetof ndmsg "ndm_family") n);
        let is_del := (state =? NUD_FAILED) || (state =? NUD_INCOMPLETE) in
        let msgtype := if is_del then RTM_DELNEIGH else type in
        if (state =? NUD_NOARP) || (state =? NUD_PERMANENT) || (state =? NUD_NONE) then mret 0
        else if negb (bool_decide (is_Some dst)) || negb (ndm_type =? RTN_UNICAST) then mret 0
        else
          when (family =? AF_INET) (do_arp_learn_from_kernel (to_int ifindex) n dst lladdr msgtype is_del);;
          when (family =? AF_INET6) (do_ndisc_learn_from_kernel (to_int ifindex) n dst lladdr msgtype is_del);;
          mret 0.

(** * Neighbour packets received by the daemon ([iccp_netlink.c])

    The daemon receives ARP replies and neighbour advertisements on raw sockets.
    What [recvfrom] and [recvmsg] returned is an argument: the bytes of the packet
    ([None] for an error), the interface and the length of the hardware address.
    The packet is in an array on the stack; the bytes behind it are whatever the
    stack holds. *)

(** [struct arphdr], [struct nd_msg] and [struct nd_opt_hdr] *)
Definition arphdr : struct := Struct false
  [uint16 "ar_hrd"; uint16 "ar_pro"; uint8 "ar_hln"; uint8 "ar_pln"; uint16 "ar_op"].
Definition nd_msg : struct := Struct false
  [uint8 "icmp6_type"; uint8 "icmp6_code"; uint16 "icmp6_cksum"; uint32 "icmp6_data";
   words "target" 4].
Definition nd_opt_hdr : struct := Struct false [uint8 "nd_opt_type"; uint8 "nd_opt_len"].

Definition ARP_BUF_SIZE : nat := Z.to_nat 1024.
Definition ND_BUF_SIZE : nat := Z.to_nat 4096.
Definition ARPOP_REPLY : Z := 2.
Definition ETH_P_IP : Z := 0x0800.
Definition NDISC_NEIGHBOUR_ADVERTISEMENT : Z := 136.
Definition ND_OPT_TARGET_LL_ADDR : Z := 2.

(** The array of [size] bytes after the reception of a packet, which is cut to it: the
    number of bytes received and the array. *)
Definition packet_buf (size : nat) (pkt : list Z) : W (Z * list Z) :=
  let pkt := take size pkt in
  rest ← uninit (size - length pkt);
  mret (Z.of_nat (length pkt), pkt ++ rest).

(** [iccp_receive_arp_packet_handler]; [halen] and [ifindex] are those of the
    socket address. *)
Definition iccp_receive_arp_packet_handler (pkt : option (list Z)) (halen ifindex : Z) : W Z :=
  match pkt with
  | None => mret MCLAG_ERROR
  | Some pkt =>
      '(n, buf) ← packet_buf ARP_BUF_SIZE pkt;
      let hdr := Z.of_nat (sizeof arphdr) in
      if n <? hdr then mret 0
      else
        op ← oob (rd16 (offsetof arphdr "ar_op") buf);
        pln ← oob (rd8 (offsetof arphdr "ar_pln") buf);
        pro ← oob (rd16 (offsetof arphdr "ar_pro") buf);
        hln ← oob (rd8 (offsetof arphdr "ar_hln") buf);
        if negb (op =? htons ARPOP_REPLY) || negb (pln =? 4) || negb (pro =? htons ETH_P_IP)
           || negb (hln =? halen) || (hdr + 2 * 4 + 2 * hln >? n)
        then mret 0
        else
          c ← system_get_first_csm;
          if c =? NULL then mret 0
          else
            mac_addr ← oob (rd_bytes (sizeof arphdr) ETHER_ADDR_LEN buf);
            addr ← oob (rd_bytes (sizeof arphdr + Z.to_nat hln) 4 buf);
            do_arp_update_from_reply_packet ifindex addr mac_addr;;
            mret 0
  end.

(** The loop over the options of a neighbour advertisement: [opt] is the offset and
    [opt_len] what is left, an [int] that is compared with a [size_t].  The result is
    the link-layer address, zeroes without the option, or [None] for [return 0].
    Every round advances by eight bytes at least, so the size of the array bounds the
    rounds. *)
Fixpoint nd_options (fuel : nat) (buf : list Z) (opt : nat) (opt_len : Z) : W (option (list Z)) :=
  match fuel with
  | O => fail OutOfFuel
  | S f =>
      if opt_len =? 0 then mret (Some null_mac)
      else if u64 opt_len <? Z.of_nat (sizeof nd_opt_hdr) then mret None
      else
        nd_opt_len ← oob (rd8 (opt + offsetof nd_opt_hdr "nd_opt_len") buf);
        let l := Z.shiftl (u8 nd_opt_len) 3 in
        if l =? 0 then mret None
        else
          nd_opt_type ← oob (rd8 (opt + offsetof nd_opt_hdr "nd_opt_type") buf);
          if nd_opt_type =? ND_OPT_TARGET_LL_ADDR then
            mac ← oob (rd_bytes (opt + sizeof nd_opt_hdr) ETHER_ADDR_LEN buf);
            mret (Some mac)
          else nd_options f buf (opt + Z.to_nat l) (opt_len - l)
  end.

(** [iccp_receive_ndisc_packet_handler]; [ifindex] is that of the control message. *)
Definition iccp_receive_ndisc_packet_handler (pkt : option (list Z)) (ifindex : Z) : W Z :=
  match pkt with
  | None => mret MCLAG_ERROR
  | Some pkt =>
      '(len, buf) ← packet_buf ND_BUF_SIZE pkt;
      c ← system_get_first_csm;
      if c =? NULL then mret 0
      else
        type ← oob (rd8 (offsetof nd_msg "icmp6_type") buf);
        if negb (type =? NDISC_NEIGHBOUR_ADVERTISEMENT) then mret 0
        else
          target ← oob (rd_bytes (offsetof nd_msg "target") 16 buf);
          let opt_len := len - Z.of_nat (sizeof nd_msg) in
          mac ← (if opt_len >? 0 then nd_options (S ND_BUF_SIZE) buf (sizeof nd_msg) opt_len
                 else mret (Some null_mac));
          match mac with
          | None => mret 0
          | Some mac_addr => do_ndisc_update_from_reply_packet ifindex target mac_addr;; mret 0
          end
  end.
