(* ===== verification/SyncUpdate.v ===== *)
(** * Configuration and state announced by the peer ([mlacp_sync_update.c])

    What a received TLV changes: the system of the peer, its port channels, their
    state and their VLANs, the heartbeat and the warm-reboot flag.  Each function
    gets the buffer of the message; the TLV is behind the ICC header. *)

From S2P Require Import Prelude CMem CString MsgFormat State Machine IccpMsg IccpQueue SyncPrepare Port Syncd.
From S2P Require Import Standby MacTable LinkHandler.
#[local] Open Scope Z_scope.

(** * Consistency of a port channel with the peer's ([iccp_consistency_check.c])

    The two ends of a multi-chassis port channel must agree on the mode, the
    address and the VLANs.  Each check returns [1], or a negative code for the
    first thing it misses. *)

(** [enum Reason_ID] *)
Definition REASON_NONE : Z := 0.
Definition REASON_INTERRFACE_MODE_IS_ASYNC : Z := 1.
Definition REASON_PEER_IF_IP_IS_ASYNC : Z := 2.
Definition REASON_PEER_IF_VLAN_IS_ASYNC : Z := 3.
Definition REASON_MAX_ARRAY_SIZE : Z := 4.

(** The lookups every check begins with. *)
Definition with_both_ends (ifname : list Z) (k : LocalInterface → PeerInterface → Z) : W Z :=
  local_if ← local_if_find_by_name ifname;
  if local_if =? NULL then mret (-2)
  else
    l ← deref w_lifs local_if;
    if lif_csm l =? NULL then mret (-3)
    else
      peer_if ← peer_if_find_by_name (lif_csm l) ifname;
      if peer_if =? NULL then mret (-4)
      else p ← deref w_pifs peer_if; mret (k l p).

(** [iccp_check_interface_mode] *)
Definition mode_code (l : LocalInterface) (p : PeerInterface) : Z :=
  if negb (pif_l3_mode p =? lif_l3_mode l) then -5 else 1.
Definition iccp_check_interface_mode (ifname : list Z) : W Z := with_both_ends ifname mode_code.

(** [iccp_check_interface_layer3_addr] *)
Definition addr_code (l : LocalInterface) (p : PeerInterface) : Z :=
  if negb (pif_ipv4_addr p =? lif_ipv4_addr l) then -5 else 1.
Definition iccp_check_interface_layer3_addr (ifname : list Z) : W Z := with_both_ends ifname addr_code.

(** [iccp_check_interface_vlan]: two walks, each with a lookup in the other tree. *)
Fixpoint vlans_in (l tree : list VLAN_ID) : bool :=
  match l with
  | [] => true
  | v :: l' => match vlan_find (vid v) tree with Some _ => vlans_in l' tree | None => false end
  end.

Definition vlan_code (l : LocalInterface) (p : PeerInterface) : Z :=
  if negb (vlans_in (lif_vlan_tree l) (pif_vlan_tree p)) then -5
  else if negb (vlans_in (pif_vlan_tree p) (lif_vlan_tree l)) then -6
  else 1.
Definition iccp_check_interface_vlan (ifname : list Z) : W Z := with_both_ends ifname vlan_code.

(** [check_func] *)
Definition check_func (i : Z) : option (list Z → W Z) :=
  if i =? REASON_INTERRFACE_MODE_IS_ASYNC then Some iccp_check_interface_mode
  else if i =? REASON_PEER_IF_IP_IS_ASYNC then Some iccp_check_interface_layer3_addr
  else if i =? REASON_PEER_IF_VLAN_IS_ASYNC then Some iccp_check_interface_vlan
  else None.

(** [iccp_consistency_check]: the first check that fails is the reason. *)
Fixpoint check_from (i : Z) (n : nat) (ifname : list Z) : W Z :=
  match n with
  | O => mret REASON_NONE
  | S n' =>
      match check_func i with
      | None => check_from (i + 1) n' ifname
      | Some f => ret ← f ifname; if negb (ret =? 1) then mret i else check_from (i + 1) n' ifname
      end
  end.

Definition iccp_consistency_check (ifname : list Z) : W Z :=
  check_from REASON_INTERRFACE_MODE_IS_ASYNC
    (Z.to_nat (REASON_MAX_ARRAY_SIZE - REASON_INTERRFACE_MODE_IS_ASYNC)) ifname.

(** * Configuration and state announced by the peer ([mlacp_sync_update.c] *)

(** ** The system of the peer *)

(** [mlacp_fsm_update_system_conf] *)
Definition mlacp_fsm_update_system_conf (c : ptr) (buf : list Z) : W Z :=
  sys_id ← oob (rd_bytes (tlv_off mLACPSysConfigTLV "sys_id") ETHER_ADDR_LEN buf);
  prio ← oob (rd16 (tlv_off mLACPSysConfigTLV "sys_priority") buf);
  nid ← oob (rd8 (tlv_off mLACPSysConfigTLV "node_id") buf);
  csm ← deref w_csms c;
  let old := remote_system_id (remote_system (MLACP csm)) in
  mlacp_upd c (λ m, m <| node_id := (if nid =? node_id m then u8 (node_id m + 1) else node_id m) |>
                      <| remote_system := mkRemote_System sys_id (ntohs prio) nid |>);;
  mforeach (lif_list (MLACP csm)) update_if_ipmac_on_standby;;
  when (bool_decide (role_type csm = STP_ROLE_STANDBY) && negb (memcmp old sys_id =? 0))
    (_ ← mlacp_link_set_iccp_system_id (mlag_id csm) sys_id; mret tt);;
  mret 0.

(** ** The port channels of the peer *)

(** The purge of [mlacp_fsm_update_Agg_conf] *)
Definition agg_conf_purge (c pif : ptr) : W unit :=
  if pif =? NULL then mlacp_upd c (set need_to_sync (λ _, 1))
  else
    p ← deref w_pifs pif;
    mlacp_peer_mlag_intf_delete_handler c (pif_name p);;
    csm ← deref w_csms c;
    _ ← mlacp_link_del_remote_if_info (mlag_id csm) (pif_name p);
    peer_if_destroy c pif.

(** The update of the port channel [pif], which is new or known. *)
Definition agg_conf_update (c pif : ptr) (new_create : Z) (buf : list Z) : W unit :=
  agg_id ← oob (rd16 (tlv_off mLACPAggConfigTLV "agg_id") buf);
  len ← oob (rd8 (tlv_off mLACPAggConfigTLV "agg_name_len") buf);
  mac ← oob (rd_bytes (tlv_off mLACPAggConfigTLV "mac_addr") ETHER_ADDR_LEN buf);
  pif_upd pif (set pif_po_id (λ _, ntohs agg_id));;
  p ← deref w_pifs pif;
  data ← oob (rd_bytes (tlv_off mLACPAggConfigTLV "agg_name") (Z.to_nat len) buf);
  name ← oob (put 0 data (pif_name p));
  pif_upd pif (λ p, p <| pif_name := name |> <| pif_mac_addr := mac |>);;
  let po_active := if pif_state p =? PORT_STATE_UP then 1 else 0 in
  update_stp_peer_link c pif po_active new_create;;
  update_peerlink_isolate_from_pif c pif po_active new_create;;
  pif_upd pif (set pif_po_active (λ _, po_active));;
  when (new_create =? 1)
    (csm ← deref w_csms c;
     _ ← mlacp_link_set_remote_if_state (mlag_id csm) name (po_active =? 1);
     when (bool_decide (role_type csm = STP_ROLE_STANDBY))
       (lif ← local_if_find_by_name (string_at (tlv_off mLACPAggConfigTLV "agg_name") buf);
        when (negb (lif =? NULL)) (update_if_ipmac_on_standby lif))).

(** [mlacp_fsm_update_Agg_conf] *)
Definition mlacp_fsm_update_Agg_conf (c : ptr) (buf : list Z) : W Z :=
  if c =? NULL then mret MCLAG_ERROR
  else
    flags ← oob (rd8 (tlv_off mLACPAggConfigTLV "flags") buf);
    agg_id ← oob (rd16 (tlv_off mLACPAggConfigTLV "agg_id") buf);
    pif ← peer_if_find_by_name c (string_at (tlv_off mLACPAggConfigTLV "agg_name") buf);
    if negb (Z.land flags 0x02 =? 0) then agg_conf_purge c pif;; mret 0
    else if (pif =? NULL) && negb (Z.land flags 0x01 =? 0) then
      pif ← peer_if_create c (ntohs agg_id) IF_T_PORT_CHANNEL;
      if pif =? NULL then mret MCLAG_ERROR else agg_conf_update c pif 1 buf;; mret 0
    else agg_conf_update c pif 0 buf;; mret 0.

(** The port channel of the peer with the number [agg_id], or [NULL]. *)
Definition peer_po_by_id (csm : CSM) (agg_id : Z) : W ptr :=
  mfind (pif_list (MLACP csm)) (λ q,
    p ← deref w_pifs q; mret ((pif_type p =? IF_T_PORT_CHANNEL) && (pif_po_id p =? agg_id))).

(** [mlacp_fsm_update_Aggport_state] *)
Definition mlacp_fsm_update_Aggport_state (c : ptr) (buf : list Z) : W Z :=
  if c =? NULL then mret MCLAG_ERROR
  else
    agg_id ← oob (rd16 (tlv_off mLACPAggPortStateTLV "agg_id") buf);
    agg_state ← oob (rd8 (tlv_off mLACPAggPortStateTLV "agg_state") buf);
    let po_active := if agg_state =? PORT_STATE_UP then 1 else 0 in
    csm ← deref w_csms c;
    peer_if ← peer_po_by_id csm (ntohs agg_id);
    if peer_if =? NULL then mret 0
    else
      pif_upd peer_if (set pif_state (λ _, agg_state));;
      update_stp_peer_link c peer_if po_active 0;;
      update_peerlink_isolate_from_pif c peer_if po_active 0;;
      pif_upd peer_if (set pif_po_active (λ _, po_active));;
      when (mlacp_current_state (MLACP csm) =? MLACP_STATE_EXCHANGE)
        (p ← deref w_pifs peer_if;
         when (agg_state =? PORT_STATE_DOWN) (mlacp_convert_remote_mac_to_local c (pif_name p));;
         _ ← mlacp_link_set_remote_if_state (mlag_id csm) (pif_name p) (agg_state =? PORT_STATE_UP);
         mret tt);;
      mret 0.

(** The VLANs of [mlacp_fsm_update_port_channel_info]: all are marked, the
    announced ones are added and lose the mark, the others are removed. *)
Definition port_channel_vlans (peer_if : ptr) (vids : list Z) : W unit :=
  pif_upd peer_if (set pif_vlan_tree (fmap (set vlan_removed (λ _, 1))));;
  mforeach vids (λ v, _ ← peer_if_add_vlan peer_if v; mret tt);;
  _ ← peer_if_clean_unused_vlan peer_if;
  mret tt.

(** The VLAN identifiers of the message. *)
Fixpoint read_vlans (buf : list Z) (i n : nat) : W (list Z) :=
  match n with
  | O => mret []
  | S n' =>
      v ← oob (rd16 (sizeof ICCHdr + sizeof mLACPPortChannelInfoTLV + sizeof mLACPVLANData * i) buf);
      l ← read_vlans buf (S i) n';
      mret (ntohs v :: l)
  end.

(** [mlacp_fsm_update_port_channel_info] *)
Definition mlacp_fsm_update_port_channel_info (c : ptr) (buf : list Z) : W Z :=
  if c =? NULL then mret MCLAG_ERROR
  else
    agg_id ← oob (rd16 (tlv_off mLACPPortChannelInfoTLV "agg_id") buf);
    csm ← deref w_csms c;
    peer_if ← peer_po_by_id csm (ntohs agg_id);
    if peer_if =? NULL then mret 0
    else
      ip ← oob (rd32 (tlv_off mLACPPortChannelInfoTLV "ipv4_addr") buf);
      l3_mode ← oob (rd8 (tlv_off mLACPPortChannelInfoTLV "l3_mode") buf);
      n ← oob (rd16 (tlv_off mLACPPortChannelInfoTLV "num_of_vlan_id") buf);
      vids ← read_vlans buf 0 (Z.to_nat (ntohs n));
      pif_upd peer_if (λ p, p <| pif_ipv4_addr := ntohl ip |> <| pif_l3_mode := l3_mode |>);;
      port_channel_vlans peer_if vids;;
      p ← deref w_pifs peer_if;
      _ ← iccp_consistency_check (pif_name p);
      mret 0.

(** ** Peer link, heartbeat and warm reboot *)

(** [mlacp_fsm_update_peerlink_info] only compares and logs. *)
Definition mlacp_fsm_update_peerlink_info (c : ptr) (buf : list Z) : W Z :=
  if c =? NULL then mret MCLAG_ERROR
  else
    csm ← deref w_csms c;
    if peer_link_if csm =? NULL then mret 0
    else
      _ ← deref w_lifs (peer_link_if csm);
      _ ← oob (rd8 (tlv_off mLACPPeerLinkInfoTLV "port_type") buf);
      mret 0.

(** [mlacp_fsm_update_heartbeat] and [mlacp_fsm_update_warmboot] *)
Definition mlacp_fsm_update_heartbeat (c : ptr) : W Z :=
  if c =? NULL then mret MCLAG_ERROR
  else t ← sys SysTime; csm_upd c (set heartbeat_update_time (λ _, t));; mret 0.

Definition mlacp_fsm_update_warmboot (c : ptr) : W Z :=
  if c =? NULL then mret MCLAG_ERROR
  else t ← sys SysTime; csm_upd c (set peer_warm_reboot_time (λ _, t));; mret 0.
