(* ===== verification/AppCsm.v ===== *)
(** * The application state machine ([app_csm.c], initialisation in [mlacp_fsm.c])

    Binding of local interfaces to a state machine, initialisation and tear-down
    of the application and of mLACP, and the application state, which follows the
    connection. *)

From S2P Require Import Prelude CMem CString MsgFormat State Machine IccpMsg IccpQueue.
From S2P Require Import Port Syncd Standby MacTable.
#[local] Open Scope Z_scope.

Definition MLACP_SYSCONF_NODEID_MSB_MASK : Z := 0x80.
Definition MLACP_SYSCONF_NODEID_NODEID_MASK : Z := 0x70.
Definition MLACP_SYSCONF_NODEID_FREE_MASK : Z := 0x0F.

(** ** Binding interfaces *)

(** [mlacp_unbind_local_if] *)
Definition mlacp_unbind_local_if (lif : ptr) : W Z :=
  if lif =? NULL then mret MCLAG_ERROR
  else
    l ← deref w_lifs lif;
    let c := lif_csm l in
    if c =? NULL then mret 0
    else
      mlacp_upd c (set lif_list (list_del lif));;
      csm ← deref w_csms c;
      when ((mlacp_current_state (MLACP csm) =? MLACP_STATE_EXCHANGE) && (lif_type l =? IF_T_PORT_CHANNEL))
        (mlacp_upd c (set lif_purge_list (cons lif)));;
      when (lif_type l =? IF_T_PORT) (lif_upd lif (set lif_po_id (λ _, -1)));;
      lif_upd lif (set lif_csm (λ _, NULL));;
      mret 0.

(** [mlacp_bind_local_if] *)
Definition mlacp_bind_local_if (c lif : ptr) : W Z :=
  if (c =? NULL) || (lif =? NULL) then mret MCLAG_ERROR
  else
    l ← deref w_lifs lif;
    if lif_csm l =? c then mret 0
    else
      mlacp_upd c (set lif_purge_list (list_del lif));;
      csm ← deref w_csms c;
      if bool_decide (lif ∈ lif_list (MLACP csm)) then mret 0
      else
        when (negb (lif_csm l =? NULL)) (_ ← mlacp_unbind_local_if lif; mret tt);;
        mlacp_upd c (set lif_list (cons lif));;
        lif_upd lif (set lif_csm (λ _, c));;
        if lif_type l =? IF_T_PORT_CHANNEL then
          lif_upd lif (set lif_port_config_sync (λ _, 1));; mret 0
        else
          l ← deref w_lifs lif;
          csm ← deref w_csms c;
          po ← mfind (lif_list (MLACP csm)) (λ q,
                 x ← deref w_lifs q;
                 mret ((lif_type x =? IF_T_PORT_CHANNEL) && (lif_po_id x =? lif_po_id l)));
          if negb (po =? NULL) then update_if_ipmac_on_standby po;; mret 0
          else
            po ← local_if_find_by_po_id (lif_po_id l);
            if po =? NULL then mret MCLAG_ERROR
            else
              lif_upd po (set lif_csm (λ _, c));;
              mlacp_upd c (set lif_list (cons po));;
              lif_upd po (set lif_port_config_sync (λ _, 1));;
              mret 0.

(** ** Initialisation *)

Definition remote_zero : Remote_System := mkRemote_System null_mac 0 0.

(** The structures as [bzero] leaves them. *)
Definition mlacp_zero : mLACP := {|
  mlacp_id := 0; sync_req_num := 0; mlacp_current_state := 0; sync_state := 0;
  wait_for_sync_data := 0; need_to_sync := 0; node_id := 0; system_id := null_mac;
  system_priority := 0; system_config_changed := 0; remote_system := remote_zero;
  mlacp_msg_list := []; arp_msg_list := []; arp_list := []; ndisc_msg_list := [];
  ndisc_list := []; mac_msg_list := []; mac_rb := []; lif_list := []; lif_purge_list := [];
  pif_list := []; iccp_counters := ∅ |}.

Definition app_csm_zero : AppCSM := {|
  mlacp := mlacp_zero; app_current_state := APP_NONEXISTENT; rx_connect_msg_id := 0;
  tx_connect_msg_id := 0; invalid_msg_id := 0; app_msg_list := []; invalid_msg := 0; nak_msg := 0 |}.

(** [LIF_QUEUE_REINIT] *)
Definition lif_queue_reinit (c : ptr) : W unit :=
  csm ← deref w_csms c;
  mforeach (lif_list (MLACP csm)) (λ p,
    l ← deref w_lifs p;
    when ((lif_type l =? IF_T_PORT_CHANNEL) && negb (lif_is_arp_accept l =? 0))
      (r ← sys (SysArpAccept (lif_name l) 0);
       when (r =? 0) (lif_upd p (set lif_is_arp_accept (λ _, 0))));;
    mlacp_upd c (set lif_list (list_del p)));;
  mlacp_upd c (set lif_list (λ _, [])).

(** [PIF_QUEUE_REINIT] *)
Definition pif_queue_reinit (c : ptr) : W unit :=
  csm ← deref w_csms c;
  mforeach (pif_list (MLACP csm)) (λ p,
    mlacp_upd c (set pif_list (list_del p));; free w_pifs p);;
  mlacp_upd c (set pif_list (λ _, [])).

(** [mlacp_init] *)
Definition mlacp_init (c : ptr) (all : bool) : W unit :=
  if c =? NULL then mret tt
  else
    mlacp_upd c (λ m, m <| sync_req_num := -1 |> <| need_to_sync := 0 |>
                        <| mlacp_current_state := MLACP_STATE_INIT |>
                        <| remote_system ::= set remote_system_id (λ _, null_mac) |>
                        <| mlacp_msg_list := [] |> <| arp_msg_list := [] |> <| ndisc_msg_list := [] |>);;
    mlacp_mac_msg_queue_reinit c;;
    pif_queue_reinit c;;
    mlacp_upd c (set lif_purge_list (λ _, []));;
    when all
      (mlacp_upd c (λ m, m <| arp_list := [] |> <| ndisc_list := [] |> <| mac_rb := [] |>);;
       lif_queue_reinit c;;
       csm ← deref w_csms c;
       r ← sys SysRand;
       let high := Z.land (Z.shiftl (Z.shiftr (inet_addr (sender_ip csm)) 24) 4)
                          MLACP_SYSCONF_NODEID_NODEID_MASK in
       mlacp_upd c (set node_id (λ _,
         u8 (Z.lor (Z.lor MLACP_SYSCONF_NODEID_MSB_MASK high) (Z.rem r MLACP_SYSCONF_NODEID_FREE_MASK))))).

(** [mlacp_finalize] *)
Definition mlacp_finalize (c : ptr) : W unit :=
  if c =? NULL then mret tt
  else
    mlacp_upd c (λ m, m <| mlacp_msg_list := [] |> <| arp_msg_list := [] |> <| ndisc_msg_list := [] |>);;
    mlacp_mac_msg_queue_reinit c;;
    mlacp_upd c (λ m, m <| arp_list := [] |> <| ndisc_list := [] |> <| mac_rb := [] |>);;
    lif_queue_reinit c;;
    mlacp_upd c (set lif_purge_list (λ _, []));;
    pif_queue_reinit c.

(** [app_csm_init] *)
Definition app_csm_init (c : ptr) (all : bool) : W unit :=
  if c =? NULL then mret tt
  else
    csm_upd c (set app_csm (set app_msg_list (λ _, [])));;
    when all (csm_upd c (set app_csm (λ _, app_csm_zero)));;
    csm_upd c (set app_csm (λ a,
      a <| app_current_state := APP_NONEXISTENT |> <| rx_connect_msg_id := 0 |>
        <| tx_connect_msg_id := 0 |> <| invalid_msg_id := 0 |> <| invalid_msg := 0 |> <| nak_msg := 0 |>));;
    mlacp_init c all.

(** [app_csm_finalize] *)
Definition app_csm_finalize (c : ptr) : W unit := mlacp_finalize c.

(** ** Transition *)

(** [app_csm_transit] *)
Definition app_csm_transit (c : ptr) : W unit :=
  if c =? NULL then mret tt
  else
    csm ← deref w_csms c;
    if negb (bool_decide (app_current_state (app_csm csm) = APP_NONEXISTENT)) && (sock_fd csm <=? 0)
    then csm_upd c (set app_csm (set app_current_state (λ _, APP_NONEXISTENT)))
    else
      when (negb (bool_decide (app_current_state (app_csm csm) = APP_OPERATIONAL))
            && bool_decide (current_state csm = ICCP_OPERATIONAL))
        (csm_upd c (set app_csm (set app_current_state (λ _, APP_OPERATIONAL)))).
