(* ===== verification/IccpCsm.v ===== *)
(** * The connection state machine ([iccp_csm.c], sessions of [scheduler.c])

    The life of a session with the peer: the socket, the capability exchange, the
    connection to the redundancy group, and the tear-down. *)

From S2P Require Import Prelude CMem CString MsgFormat State Machine IccpMsg IccpQueue SyncPrepare.
From S2P Require Import Port Syncd Standby MacTable LinkHandler AppCsm.
#[local] Open Scope Z_scope.

Definition CONNECT_INTERVAL_SEC : Z := 1.
Definition HEARTBEAT_TIMEOUT_SEC : Z := 15.
Definition IFNAMSIZ : nat := 16.
Definition INET_ADDRSTRLEN : nat := 16.

(** ** Reset *)

Definition iccp_info_zero : IccpInfo := mkIccpInfo 0 (replicate MAX_L_ICC_SENDER_NAME 0) 0 0 0 0 0 0.
Definition msg_log_zero : MsgLog := mkMsgLog (replicate MAX_MSG_LOG_SIZE (mkMsgTypeSet 0 0 0)) 0.

(** A [CSM] as [bzero] leaves it. *)
Definition csm_zero : CSM := {|
  mlag_id := 0; sock_fd := 0; connTimePrev := 0; heartbeat_send_time := 0;
  heartbeat_update_time := 0; peer_warm_reboot_time := 0; warm_reboot_disconn_time := 0;
  peer_itf_name := replicate IFNAMSIZ 0; peer_link_learning_retry_time := 0;
  peer_ip := replicate INET_ADDRSTRLEN 0; sender_ip := replicate INET_ADDRSTRLEN 0;
  keepalive_time := 0; session_timeout := 0; peer_link_learning_enable := 0; msg_list := [];
  role_type := STP_ROLE_NONE; peer_link_if := NULL; iccp_info := iccp_info_zero;
  app_csm := app_csm_zero; current_state := ICCP_NONEXISTENT; icc_msg_in_count := 0;
  icc_msg_out_count := 0; u_msg_in_count := 0; i_msg_in_count := 0; msg_log := msg_log_zero;
  if_bind_list := [] |}.

(** The assignments of [iccp_csm_status_reset] before the application's. *)
Definition status_reset_fields (x : CSM) : CSM :=
  x <| sock_fd := -1 |> <| connTimePrev := 0 |> <| heartbeat_send_time := 0 |>
    <| heartbeat_update_time := 0 |> <| peer_warm_reboot_time := 0 |>
    <| warm_reboot_disconn_time := 0 |> <| peer_link_learning_retry_time := 0 |>
    <| peer_link_learning_enable := 0 |> <| role_type := STP_ROLE_NONE |>
    <| peer_link_if := NULL |> <| u_msg_in_count := 0 |> <| i_msg_in_count := 0 |>
    <| icc_msg_in_count := 0 |> <| icc_msg_out_count := 0 |>
    <| current_state := ICCP_NONEXISTENT |>
    <| iccp_info ::= λ i, i <| status_code := 0 |> <| rejected_msg_id := 0 |>
         <| peer_capability_flag := 0 |> <| peer_rg_connect_flag := 0 |>
         <| sender_capability_flag := 0 |> <| sender_rg_connect_flag := 0 |> |>.

(** [iccp_csm_status_reset] *)
Definition iccp_csm_status_reset (c : ptr) (all : bool) : W unit :=
  csm_upd c (set msg_list (λ _, []));;
  when all (csm_upd c (λ _, csm_zero));;
  csm_upd c status_reset_fields;;
  app_csm_init c all;;
  csm_upd c (set msg_log (λ _, msg_log_zero)).

(** [iccp_csm_init] *)
Definition iccp_csm_init (c : ptr) : W unit :=
  iccp_csm_status_reset c true;;
  csm_upd c (λ x,
    x <| sender_ip := replicate INET_ADDRSTRLEN 0 |> <| peer_ip := replicate INET_ADDRSTRLEN 0 |>
      <| iccp_info ::= λ i, i <| sender_name := replicate MAX_L_ICC_SENDER_NAME 0 |> <| icc_rg_id := 0 |> |>
      <| keepalive_time := CONNECT_INTERVAL_SEC |> <| session_timeout := HEARTBEAT_TIMEOUT_SEC |>).

(** [system_create_csm] ([system.c]) and [iccp_get_csm]; [init_cstm] is the only
    caller of the initialisation. *)
Definition system_create_csm : W ptr :=
  c ← alloc w_csms 4096 csm_zero;
  if c =? NULL then mret NULL
  else
    iccp_csm_init c;;
    sys_upd (set csm_list (cons c));;
    mret c.

Definition iccp_get_csm : W ptr := system_create_csm.

(** ** Role *)

(** [iccp_csm_stp_role_count]: the addresses are compared as [inet_addr] returns
    them. *)
Definition iccp_csm_stp_role_count (c : ptr) : W unit :=
  csm ← deref w_csms c;
  if negb (bool_decide (role_type csm = STP_ROLE_NONE)) then mret tt
  else if inet_addr (sender_ip csm) <? inet_addr (peer_ip csm) then
    csm_upd c (set role_type (λ _, STP_ROLE_ACTIVE));;
    _ ← mlacp_link_set_iccp_role (mlag_id csm) true (system_id (MLACP csm));
    mret tt
  else
    csm_upd c (set role_type (λ _, STP_ROLE_STANDBY));;
    _ ← mlacp_link_set_iccp_role (mlag_id csm) false [];
    mlacp_fix_bridge_mac c.

(** ** Sessions ([scheduler.c]) *)

(** [scheduler_check_csm_config] *)
Definition scheduler_check_csm_config (c : ptr) : W Z :=
  if c =? NULL then mret MCLAG_ERROR
  else
    csm ← deref w_csms c;
    ret ← (if mlag_id csm <=? 0 then mret (Some MCLAG_ERROR)
           else if strlen (peer_ip csm) <=? 0 then mret (Some MCLAG_ERROR)
           else if strlen (sender_ip csm) <=? 0 then mret (Some MCLAG_ERROR)
           else if negb (strlen (peer_itf_name csm) =? 0) then
             lif ← local_if_find_by_name (peer_itf_name csm);
             if lif =? NULL then mret None
             else
               lif_upd lif (set lif_is_peer_link (λ _, 1));;
               csm_upd c (set peer_link_if (λ _, lif));;
               set_peerlink_learn_kernel c 0;;
               mret (Some 1)
           else mret (Some 1));
    match ret with
    | None => mret MCLAG_ERROR
    | Some r => iccp_csm_stp_role_count c;; mret r
    end.

(** [session_client_conn_handler] *)
Definition session_client_conn_handler (c : ptr) : W unit :=
  csm ← deref w_csms c;
  fd ← sys SysSocket;
  ok ← (if fd =? -1 then mret false
        else
          _ ← sys (SysSetsockopt fd 21);
          err ← sys (SysBind fd (inet_addr (sender_ip csm)));
          if err <? 0 then mret false
          else
            stat ← sys (SysConnect fd (inet_addr (peer_ip csm)));
            if negb (stat =? 0) then mret false
            else
              err ← sys (SysEpollAdd fd);
              if negb (err =? 0) then mret false
              else
                csm_upd c (set sock_fd (λ _, fd));;
                _ ← sys (SysSetsockopt fd 7);
                _ ← sys (SysSetsockopt fd 8);
                sys_upd (λ s, s <| readfd ::= λ r, {[fd]} ∪ r |> <| readfd_count ::= Z.succ |>);;
                mret true);
  when (negb ok && (fd >=? 0))
    (csm_upd c (set sock_fd (λ _, -1));; _ ← sys (SysClose fd); mret tt);;
  t ← sys SysTime;
  csm_upd c (set connTimePrev (λ _, t)).

(** [scheduler_prepare_session] *)
Definition scheduler_prepare_session (c : ptr) : W unit :=
  csm ← deref w_csms c;
  when (connTimePrev csm =? 0) (t ← sys SysTime; csm_upd c (set connTimePrev (λ _, t)));;
  csm ← deref w_csms c;
  now ← sys SysTime;
  if now - connTimePrev csm <? CONNECT_INTERVAL_SEC then mret tt
  else
    (if sock_fd csm >? 0 then mret tt
     else
       ret ← scheduler_check_csm_config c;
       if ret <? 0 then mret tt
       else
         csm ← deref w_csms c;
         if inet_addr (sender_ip csm) >=? inet_addr (peer_ip csm) then mret tt
         else session_client_conn_handler c);;
    t ← sys SysTime;
    csm_upd c (set connTimePrev (λ _, t)).

(** [scheduler_unregister_sock_read_event_callback] *)
Definition scheduler_unregister_sock_read_event_callback (c : ptr) : W Z :=
  if c =? NULL then mret MCLAG_ERROR
  else
    csm ← deref w_csms c;
    when (sock_fd csm >? 0) (sys_upd (set readfd (λ r, r ∖ {[sock_fd csm]})));;
    mret 0.

(** [scheduler_csm_socket_cleanup] *)
Definition scheduler_csm_socket_cleanup (c : ptr) : W unit :=
  if c =? NULL then mret tt
  else
    csm ← deref w_csms c;
    if sock_fd csm <=? 0 then mret tt
    else
      _ ← sys (SysEpollDel (sock_fd csm));
      r ← sys (SysClose (sock_fd csm));
      when (negb (r =? 0)) (sys_upd (set socket_close_err_counter (λ n, u32 (n + 1))));;
      csm_upd c (set sock_fd (λ _, -1)).

(** [scheduler_session_disconnect_handler] *)
Definition scheduler_session_disconnect_handler (c : ptr) : W unit :=
  if c =? NULL then mret tt
  else
    _ ← scheduler_unregister_sock_read_event_callback c;
    csm ← deref w_csms c;
    when (sock_fd csm >? 0) (scheduler_csm_socket_cleanup c);;
    mlacp_peer_disconn_handler c;;
    mlacp_upd c (set mlacp_current_state (λ _, MLACP_STATE_INIT));;
    iccp_csm_status_reset c false;;
    t ← sys SysTime;
    csm_upd c (set connTimePrev (λ _, t)).

(** [heartbeat_check] and [heartbeat_update] *)
Definition heartbeat_check (c : ptr) : W unit :=
  csm ← deref w_csms c;
  if heartbeat_update_time csm =? 0 then
    t ← sys SysTime; csm_upd c (set heartbeat_update_time (λ _, t))
  else
    now ← sys SysTime;
    when (now - heartbeat_update_time csm >? session_timeout csm) (scheduler_session_disconnect_handler c).

Definition heartbeat_update (c : ptr) : W unit :=
  csm ← deref w_csms c; when (sock_fd csm >? 0) (heartbeat_check c).

(** ** Tear-down *)

(** [iccp_cli_detach_mclag_domain_to_port_channel] ([iccp_cli.c]) *)
Definition iccp_cli_detach_mclag_domain_to_port_channel (ifname : list Z) : W Z :=
  if negb (has_prefix "PortChannel" ifname) then mret MCLAG_ERROR
  else
    lif_po ← local_if_find_by_name ifname;
    if lif_po =? NULL then mret MCLAG_ERROR
    else
      po ← deref w_lifs lif_po;
      let c := lif_csm po in
      if negb (lif_type po =? IF_T_PORT_CHANNEL) || (lif_po_id po <=? 0) || (c =? NULL) then mret MCLAG_ERROR
      else
        recover_if_ipmac_on_standby lif_po;;
        mlacp_mlag_intf_detach_handler c lif_po;;
        po ← deref w_lifs lif_po;
        let unbind_poid := lif_po_id po in
        _ ← mlacp_unbind_local_if lif_po;
        csm ← deref w_csms c;
        mforeach (lif_list (MLACP csm)) (λ p,
          l ← deref w_lifs p;
          when ((lif_type l =? IF_T_PORT) && (lif_po_id l =? unbind_poid))
            (_ ← mlacp_unbind_local_if p; mret tt));;
        csm_upd c (set if_bind_list (filter (λ n, str_eqb ifname n = false)));;
        mret 0.

(** [iccp_csm_finalize] *)
Definition iccp_csm_finalize (c : ptr) : W unit :=
  if c =? NULL then mret tt
  else
    csm ← deref w_csms c;
    wb ← gets (λ w, warmboot_exit (w_sys w));
    when (negb (wb =? WARM_REBOOT) && negb (peer_link_if csm =? NULL))
      (set_peerlink_mlag_port_learn (peer_link_if csm) 1;; set_peerlink_learn_kernel c 1);;
    scheduler_session_disconnect_handler c;;
    csm ← deref w_csms c;
    mforeach (lif_list (MLACP csm)) (λ p,
      l ← deref w_lifs p;
      _ ← iccp_cli_detach_mclag_domain_to_port_channel (lif_name l);
      mret tt);;
    app_csm_finalize c;;
    csm ← deref w_csms c;
    mforeach (lif_list (MLACP csm)) (λ p, lif_upd p (set lif_csm (λ _, NULL)));;
    csm_upd c (λ x, x <| if_bind_list := [] |> <| msg_list := [] |>);;
    sys_upd (set csm_list (list_del c));;
    free w_csms c.

(** ** Transition *)

(** Entering a state *)
Definition iccp_csm_enter_state_nonexistent (c : ptr) : W unit := iccp_csm_finalize c.
Definition iccp_csm_enter_state_initialized (c : ptr) : W unit :=
  if c =? NULL then mret tt else info_upd c (set sender_capability_flag (λ _, 0x1)).
Definition iccp_csm_enter_state_caprec (c : ptr) : W unit :=
  if c =? NULL then mret tt
  else info_upd c (λ i, i <| sender_capability_flag := 0x1 |> <| peer_capability_flag := 0x1 |>).
Definition iccp_csm_enter_state_connecting (c : ptr) : W unit :=
  if c =? NULL then mret tt else info_upd c (set sender_rg_connect_flag (λ _, 0x1)).
Definition iccp_csm_enter_state_operational (c : ptr) : W unit :=
  if c =? NULL then mret tt
  else info_upd c (λ i, i <| sender_rg_connect_flag := 0x1 |> <| peer_rg_connect_flag := 0x1 |>).

Definition iccp_csm_enter_state (c : ptr) (s : ICCP_CONNECTION_STATE) : W unit :=
  match s with
  | ICCP_NONEXISTENT => iccp_csm_enter_state_nonexistent c
  | ICCP_INITIALIZED => iccp_csm_enter_state_initialized c
  | ICCP_CAPSENT => mret tt
  | ICCP_CAPREC => iccp_csm_enter_state_caprec c
  | ICCP_CONNECTING => iccp_csm_enter_state_connecting c
  | ICCP_OPERATIONAL => iccp_csm_enter_state_operational c
  end.

(** Handling the message taken from the queue, if any. *)
Definition correspond (c : ptr) (msg : option Msg) : W unit :=
  match msg with
  | Some m => iccp_csm_correspond_from_msg c m
  | None => mret tt
  end.

(** Building the message of the state and sending it. *)
Definition transit_send (c : ptr) (clear : bool) : W unit :=
  when clear clear_csm_buf;;
  len ← in_csm_buf (iccp_csm_prepare_iccp_msg c);
  b ← gets w_csm_buf;
  _ ← iccp_csm_send c b len;
  mret tt.

Definition goto_state (c : ptr) (s : ICCP_CONNECTION_STATE) : W unit :=
  csm_upd c (set current_state (λ _, s)).

(** The [switch] of [iccp_csm_transit] on the state. *)
Definition iccp_csm_transit_switch (c : ptr) (msg : option Msg) : W unit :=
  csm ← deref w_csms c;
  match current_state csm with
  | ICCP_NONEXISTENT =>
      scheduler_prepare_session c;;
      csm ← deref w_csms c;
      when (sock_fd csm >? 0)
        (r ← scheduler_check_csm_config c; when (r >? 0) (goto_state c ICCP_INITIALIZED))
  | ICCP_INITIALIZED =>
      correspond c msg;;
      transit_send c false;;
      csm ← deref w_csms c;
      let i := iccp_info csm in
      if (sender_capability_flag i =? 0x1) && (peer_capability_flag i =? 0x0) then goto_state c ICCP_CAPSENT
      else when ((sender_capability_flag i =? 0x1) && (peer_capability_flag i =? 0x1)) (goto_state c ICCP_CAPREC)
  | ICCP_CAPSENT =>
      correspond c msg;;
      csm ← deref w_csms c;
      let i := iccp_info csm in
      when ((sender_capability_flag i =? 0x1) && (peer_capability_flag i =? 0x1)) (goto_state c ICCP_CAPREC)
  | ICCP_CAPREC =>
      correspond c msg;;
      transit_send c true;;
      csm ← deref w_csms c;
      let i := iccp_info csm in
      if (peer_rg_connect_flag i =? 0x0) && (status_code i =? 0x0) then goto_state c ICCP_CONNECTING
      else when ((peer_rg_connect_flag i =? 0x1) && (status_code i =? 0x0)) (goto_state c ICCP_OPERATIONAL)
  | ICCP_CONNECTING =>
      correspond c msg;;
      transit_send c true;;
      csm ← deref w_csms c;
      let i := iccp_info csm in
      if status_code i >? 0x0 then goto_state c ICCP_CAPREC
      else when ((peer_rg_connect_flag i =? 0x1) && (status_code i =? 0x0)) (goto_state c ICCP_OPERATIONAL)
  | ICCP_OPERATIONAL =>
      correspond c msg;;
      csm ← deref w_csms c;
      let i := iccp_info csm in
      when ((sender_rg_connect_flag i =? 0x0) || (peer_rg_connect_flag i =? 0x0))
        (transit_send c true;; goto_state c ICCP_CAPREC)
  end.

(** [iccp_csm_transit] *)
Definition iccp_csm_transit (c : ptr) : W unit :=
  if c =? NULL then mret tt
  else
    csm ← deref w_csms c;
    let prev_state := current_state csm in
    if negb (bool_decide (prev_state = ICCP_NONEXISTENT)) && (sock_fd csm <=? 0) then
      goto_state c ICCP_NONEXISTENT;; iccp_csm_enter_state_nonexistent c
    else
      msg ← iccp_csm_dequeue_msg c;
      iccp_csm_transit_switch c msg;;
      csm ← deref w_csms c;
      let s := current_state csm in
      when (negb (bool_decide (prev_state = s))
            || (negb (bool_decide (s = ICCP_NONEXISTENT)) && bool_decide (is_Some msg)))
        (iccp_csm_enter_state c s).
