(* ===== verification/Ifm.v ===== *)
(** * Interfaces of the system ([iccp_ifm.c], [port.c], [app_csm.c], [iccp_cli.c])

    Creation and removal of local interfaces, their VLANs, the VLANs of interfaces
    that do not exist yet, the members of a port channel, and the attachment of
    port channels and of the peer link to a state machine. *)

From S2P Require Import Prelude CMem CString MsgFormat State Machine IccpMsg IccpQueue SyncPrepare.
From S2P Require Import Port Syncd Standby MacTable LinkHandler AppCsm IccpCsm.
#[local] Open Scope Z_scope.

(** [IF_OPER_DOWN] of the kernel *)
Definition IF_OPER_DOWN : Z := 2.

(** ** VLANs of interfaces that do not exist yet

    The list is that of [sys->pending_vlan_mbr_if_list]; an element is addressed by
    its position. *)

(** [find_pending_vlan_mbr_if] *)
Definition find_pending_vlan_mbr_if (ifname : list Z) : W (option nat) :=
  l ← gets (λ w, pending_vlan_mbr_if_list (w_sys w));
  mret (fst <$> list_find (λ e, str_eqb (fst e) ifname = true) l).

(** The tree of the element at position [i]. *)
Definition pending_tree (i : nat) : W (list VLAN_ID) :=
  l ← gets (λ w, pending_vlan_mbr_if_list (w_sys w));
  e ← oob (l !! i);
  mret (snd e).

Definition pending_upd (i : nat) (f : list VLAN_ID → list VLAN_ID) : W unit :=
  sys_upd (set pending_vlan_mbr_if_list (alter (λ e, (fst e, f (snd e))) i)).

(** [add_pending_vlan_mbr]; [v] is a [uint16_t]. *)
Definition add_pending_vlan_mbr (i : nat) (v : Z) : W Z :=
  t ← pending_tree i;
  match vlan_find v t with
  | Some _ => mret 0
  | None =>
      r ← sys (SysMalloc 48);
      if r =? 0 then mret MCLAG_ERROR
      else pending_upd i (vlan_insert (mkVLAN_ID v 0 NULL));; mret 0
  end.

(** [del_pending_vlan_mbr] *)
Definition del_pending_vlan_mbr (i : nat) (v : Z) : W unit :=
  t ← pending_tree i;
  match vlan_find v t with
  | Some _ => pending_upd i (vlan_remove v)
  | None => mret tt
  end.

(** [del_all_pending_vlan_mbrs] and [del_all_pending_vlan_mbr_ifs]: every node and
    every element is freed. *)
Definition del_all_pending_vlan_mbrs (i : nat) : W unit :=
  t ← pending_tree i;
  mforeach t (λ v, pending_upd i (vlan_remove (vid v))).

Definition del_all_pending_vlan_mbr_ifs : W unit :=
  l ← gets (λ w, pending_vlan_mbr_if_list (w_sys w));
  mwhile (S (length l))
    (l ← gets (λ w, pending_vlan_mbr_if_list (w_sys w));
     match l with
     | [] => mret false
     | _ => del_all_pending_vlan_mbrs 0;; sys_upd (set pending_vlan_mbr_if_list tail);; mret true
     end).

(** [update_pending_vlan_mbr] *)
Definition update_pending_vlan_mbr (mbr_if_name : list Z) (vlan_id : Z) (add_flag : bool) : W unit :=
  found ← find_pending_vlan_mbr_if mbr_if_name;
  let apply (i : nat) : W unit :=
    if add_flag then _ ← add_pending_vlan_mbr i (u16 vlan_id); mret tt
    else del_pending_vlan_mbr i (u16 vlan_id) in
  match found with
  | Some i => apply i
  | None =>
      if negb add_flag then mret tt
      else
        r ← sys (SysMalloc 48);
        if r =? 0 then mret tt
        else
          sys_upd (set pending_vlan_mbr_if_list (cons (snprintf_s MAX_L_PORT_NAME mbr_if_name, [])));;
          apply 0%nat
  end.

(** [move_pending_vlan_mbr_to_lif]; the interface exists. *)
Definition move_pending_vlan_mbr_to_lif (lif : ptr) : W unit :=
  l ← deref w_lifs lif;
  found ← find_pending_vlan_mbr_if (lif_name l);
  match found with
  | None => mret tt
  | Some i =>
      t ← pending_tree i;
      mforeach t (λ v, _ ← local_if_add_vlan lif (vid v); del_pending_vlan_mbr i (vid v));;
      sys_upd (set pending_vlan_mbr_if_list (delete i))
  end.

(** ** Members of a port channel

    What libnl reads in a message of the team family: the interface, and the list of
    ports, if there is one; a port without an index cannot be parsed. *)
Record team_msg : Type := TeamMsg {
  tm_ifindex : Z;
  tm_ports : option (list (option (Z * bool)))      (** index, removed *)
}.

(** [snprintf(buf + len, 512 - len, "%s", s)] into an array of 512 bytes: the size is
    converted to a [size_t], so a [len] beyond the array leaves no bound. *)
Definition append_member (s : list Z) (st : list Z * Z) : option (list Z * Z) :=
  let '(buf, len) := st in
  let len' := len + Z.of_nat (length s) in
  if len <? 512 then (λ b, (b, len')) <$> put (Z.to_nat len) (take (Z.to_nat (511 - len)) s ++ [0]) buf
  else if len =? 512 then Some (buf, len')
  else None.

(** The names of the members, separated by commas. *)
Fixpoint member_names (po_id : Z) (lifs : list ptr) (st : list Z * Z) : W (list Z) :=
  match lifs with
  | [] => mret (fst st)
  | p :: lifs' =>
      l ← deref w_lifs p;
      if (lif_type l =? IF_T_PORT) && (lif_po_id l =? po_id) then
        st ← (if strlen (fst st) =? 0 then mret st else oob (append_member [44] st));
        st ← oob (append_member (cstr (lif_name l)) st);
        member_names po_id lifs' st
      else member_names po_id lifs' st
  end.

(** The new list of names; whether it changed. *)
Definition set_member_buf (lif : ptr) (names : list Z) : W bool :=
  l ← deref w_lifs lif;
  if str_eqb names (lif_portchannel_member_buf l) then mret false
  else lif_upd lif (set lif_portchannel_member_buf (λ _, take 511 names ++ [0]));; mret true.

(** The loop over the ports: [false] for [return NL_SKIP]. *)
Fixpoint team_walk (member : ptr → bool → W unit) (ports : list (option (Z * bool))) : W bool :=
  match ports with
  | [] => mret true
  | None :: _ => mret false
  | Some (index, removed) :: ports' =>
      m ← local_if_find_by_ifindex index;
      when (negb (m =? NULL)) (member m removed);;
      team_walk member ports'
  end.

(** A port of a multi-chassis port channel is bound with it. *)
Definition mlag_member (local_if m : ptr) (removed : bool) : W unit :=
  l ← deref w_lifs m;
  po ← deref w_lifs local_if;
  if removed && negb (lif_po_id l =? -1) then
    lif_upd m (set lif_po_id (λ _, -1));; _ ← mlacp_unbind_local_if m; mret tt
  else when (lif_po_id l =? -1)
    (lif_upd m (set lif_po_id (λ _, lif_po_id po));; _ ← mlacp_bind_local_if (lif_csm po) m; mret tt).

(** A port of the peer link: its learning follows. *)
Definition peer_link_member (c local_if m : ptr) (removed : bool) : W unit :=
  l ← deref w_lifs m;
  po ← deref w_lifs local_if;
  csm ← deref w_csms c;
  let exchange := mlacp_current_state (MLACP csm) =? MLACP_STATE_EXCHANGE in
  if removed && negb (lif_po_id l =? -1) then
    lif_upd m (set lif_po_id (λ _, -1));;
    when exchange (set_peerlink_mlag_port_learn m 1)
  else when (lif_po_id l =? -1)
    (lif_upd m (set lif_po_id (λ _, lif_po_id po));;
     when exchange (set_peerlink_mlag_port_learn local_if 0)).

(** [iccp_get_portchannel_member_list_handler]; the peer link needs the list. *)
Definition mlag_members (c local_if : ptr) (ports : list (option (Z * bool))) : W unit :=
  ok ← team_walk (mlag_member local_if) ports;
  when ok
    (csm ← deref w_csms c;
     po ← deref w_lifs local_if;
     names ← member_names (lif_po_id po) (lif_list (MLACP csm)) (replicate 512 0, 0);
     changed ← set_member_buf local_if names;
     when (changed && (mlacp_current_state (MLACP csm) =? MLACP_STATE_EXCHANGE))
       (update_peerlink_isolate_from_all_csm_lif c)).

Definition peer_link_members (local_if : ptr) (ports : option (list (option (Z * bool)))) : W unit :=
  cs ← gets (λ w, csm_list (w_sys w));
  c ← mfind cs (λ c, csm ← deref w_csms c; mret (peer_link_if csm =? local_if));
  if c =? NULL then mret tt
  else match ports with
  | None => fail NullDeref
  | Some ports =>
      ok ← team_walk (peer_link_member c local_if) ports;
      when ok
        (lifs ← gets (λ w, sys_lif_list (w_sys w));
         po ← deref w_lifs local_if;
         names ← member_names (lif_po_id po) lifs (replicate 512 0, 0);
         _ ← set_member_buf local_if names;
         mret tt)
  end.

Definition iccp_get_portchannel_member_list_handler (msg : team_msg) : W unit :=
  local_if ← local_if_find_by_ifindex (tm_ifindex msg);
  if local_if =? NULL then mret tt
  else
    po ← deref w_lifs local_if;
    if negb (lif_type po =? IF_T_PORT_CHANNEL) then mret tt
    else if negb (lif_csm po =? NULL) then
      match tm_ports msg with
      | None => mret tt
      | Some ports => mlag_members (lif_csm po) local_if ports
      end
    else when (negb (lif_is_peer_link po =? 0)) (peer_link_members local_if (tm_ports msg)).

(** The reply of the team family, as libnl delivers it. *)
Fixpoint team_ports (i : Z) (n : nat) : W (list (option (Z * bool))) :=
  match n with
  | O => mret []
  | S n' =>
      index ← sys (NlTeamPort i);
      removed ← sys (NlTeamRemoved i);
      l ← team_ports (i + 1) n';
      mret ((if index <? 0 then None else Some (index, negb (removed =? 0))) :: l)
  end.

Definition team_reply : W team_msg :=
  ifindex ← sys NlTeamIfindex;
  n ← sys NlTeamPorts;
  if n <? 0 then mret (TeamMsg ifindex None)
  else l ← team_ports 0 (Z.to_nat n); mret (TeamMsg ifindex (Some l)).

(** [iccp_get_port_member_list]; resolving the family and the exchange of messages
    are one call to the environment. *)
Definition iccp_get_port_member_list (lif : ptr) : W Z :=
  l ← deref w_lifs lif;
  err ← sys (NlMembers (lif_ifindex l));
  if negb (err =? 0) then mret err
  else msg ← team_reply; iccp_get_portchannel_member_list_handler msg;; mret 0.

(** [mlacp_bind_port_channel_to_csm] *)
Definition mlacp_bind_port_channel_to_csm (c : ptr) (ifname : list Z) : W Z :=
  if c =? NULL then mret 0
  else
    lif_po ← local_if_find_by_name ifname;
    if lif_po =? NULL then mret 0
    else
      _ ← mlacp_bind_local_if c lif_po;
      _ ← iccp_get_port_member_list lif_po;
      mlacp_mlag_link_add_handler c lif_po;;
      mret 0.

(** ** Creation *)

(** The number in the name of a port channel, from its first digit. *)
Fixpoint from_first_digit (l : list Z) : option (list Z) :=
  match l with
  | [] => None
  | ch :: l' => if is_digit ch then Some l else from_first_digit l'
  end.

(** The interface is the peer link of a machine, or one of its port channels. *)
Definition attach_created (p : ptr) (ifname : list Z) : W unit :=
  cs ← gets (λ w, csm_list (w_sys w));
  _ ← mforeach_break cs (λ c,
    csm ← deref w_csms c;
    l ← deref w_lifs p;
    if str_eqb (lif_name l) (peer_itf_name csm) then
      lif_upd p (set lif_is_peer_link (λ _, 1));;
      csm_upd c (set peer_link_if (λ _, p));;
      set_peerlink_learn_kernel c 0;;
      mret true
    else
      mforeach (if_bind_list csm) (λ name,
        when (str_eqb ifname name) (_ ← mlacp_bind_port_channel_to_csm c ifname; mret tt));;
      mret false);
  mret tt.

(** [local_if_create]; the name is not null. *)
Definition local_if_create (ifindex : Z) (ifname : list Z) (type state : Z) : W ptr :=
  known ← (if ifindex >? 0 then local_if_find_by_ifindex ifindex else mret NULL);
  if negb (known =? NULL) then mret known
  else
    p ← alloc w_lifs 1024 (local_if_init <| lif_ifindex := ifindex |> <| lif_type := type |>
                             <| lif_state := u8 state |> <| lif_po_down_time := 0 |>);
    if p =? NULL then mret NULL
    else
      named ← (if negb (type =? IF_T_PORT_CHANNEL) then mret true
               else match from_first_digit (cstr ifname) with
               | None => mret false
               | Some digits =>
                   lif_upd p (λ l, l <| lif_po_id := atoi digits |>
                                     <| lif_po_active := if u8 state =? PORT_STATE_UP then 1 else 0 |>);;
                   mret true
               end);
      if negb named then mret NULL
      else
        lif_upd p (set lif_name (λ _, snprintf_s MAX_L_PORT_NAME ifname));;
        if negb ((type =? IF_T_PORT_CHANNEL) || (type =? IF_T_PORT) || (type =? IF_T_VLAN) || (type =? IF_T_VXLAN))
        then free w_lifs p;; mret NULL
        else
          unique ← (if type =? IF_T_VLAN then is_unique_ip_configured (snprintf_s MAX_L_PORT_NAME ifname)
                    else mret false);
          when unique (lif_upd p (set lif_is_l3_proto_enabled (λ _, true)));;
          sys_upd (set sys_lif_list (cons p));;
          move_pending_vlan_mbr_to_lif p;;
          attach_created p ifname;;
          mret p.

(** ** Removal *)

(** [local_if_po_remove] and [local_if_remove] *)
Definition local_if_po_remove (lif_po : ptr) : W unit :=
  po ← deref w_lifs lif_po;
  if lif_csm po =? NULL then mret tt
  else
    csm ← deref w_csms (lif_csm po);
    mforeach (lif_list (MLACP csm)) (λ p,
      l ← deref w_lifs p;
      when ((lif_type l =? IF_T_PORT) && (lif_po_id l =? lif_po_id po))
        (_ ← mlacp_unbind_local_if p; mret tt)).

Definition local_if_remove (lif : ptr) : W unit :=
  _ ← mlacp_unbind_local_if lif;
  lif_upd lif (set lif_po_id (λ _, -1)).

(** [local_if_destroy]: the interface leaves the lists of the system and of its
    machine, and waits in the purge lists. *)
Definition local_if_destroy (ifname : list Z) : W unit :=
  lif ← local_if_find_by_name ifname;
  if lif =? NULL then mret tt
  else
    l ← deref w_lifs lif;
    (if lif_type l =? IF_T_VLAN then local_if_vlan_remove lif
     else if lif_type l =? IF_T_PORT_CHANNEL then local_if_po_remove lif
     else local_if_remove lif);;
    c ← system_get_csm_by_peer_ifname ifname;
    when (negb (c =? NULL)) (scheduler_session_disconnect_handler c);;
    l ← deref w_lifs lif;
    let csm := lif_csm l in
    exchange ← (if csm =? NULL then mret false
                else x ← deref w_csms csm; mret (mlacp_current_state (MLACP x) =? MLACP_STATE_EXCHANGE));
    sys_upd (set sys_lif_list (list_del lif));;
    when (negb (csm =? NULL)) (mlacp_upd csm (set lif_list (list_del lif)));;
    sys_upd (set sys_lif_purge_list (cons lif));;
    when exchange (mlacp_upd csm (set lif_purge_list (cons lif))).

(** ** VLAN membership *)

(** [vlan_mbrship_change_handler]; [vlan_id] is an [unsigned int]. *)
Definition vlan_mbrship_change_handler (vlan_id : Z) (mbr_if_name : list Z) (add_flag : bool) : W unit :=
  lif ← local_if_find_by_name mbr_if_name;
  if lif =? NULL then update_pending_vlan_mbr mbr_if_name vlan_id add_flag
  else if add_flag then
    let vlan_name := str "Vlan" ++ fmt_d (to_int vlan_id) in
    vlan_lif ← local_if_find_by_name vlan_name;
    when (vlan_lif =? NULL) (_ ← local_if_create (-1) vlan_name IF_T_VLAN IF_OPER_DOWN; mret tt);;
    _ ← local_if_add_vlan lif (u16 vlan_id);
    mret tt
  else local_if_del_vlan lif (u16 vlan_id).

(** ** Attachment ([iccp_cli.c]) *)

(** [set_peer_link]; the name is not null. *)
Definition set_peer_link (mid : Z) (ifname : list Z) : W Z :=
  if negb (has_prefix "Ethernet" ifname) && negb (has_prefix "PortChannel" ifname)
     && negb (has_prefix "VTTNL" ifname)
  then mret MCLAG_ERROR
  else
    c ← system_get_csm_by_mlacp_id mid;
    if c =? NULL then mret MCLAG_ERROR
    else if strlen ifname >? Z.of_nat MAX_L_PORT_NAME then mret MCLAG_ERROR
    else
      csm ← deref w_csms c;
      if (strlen (peer_itf_name csm) >? 0) && str_eqb (peer_itf_name csm) ifname then mret 0
      else
        when (strlen (peer_itf_name csm) >? 0)
          (scheduler_session_disconnect_handler c;;
           csm ← deref w_csms c;
           when (negb (peer_link_if csm =? NULL))
             (lif_upd (peer_link_if csm) (set lif_is_peer_link (λ _, 0));;
              csm_upd c (set peer_link_if (λ _, NULL))));;
        csm_upd c (set peer_itf_name (λ _, replicate IFNAMSIZ 0));;
        if strlen ifname >? Z.of_nat IFNAMSIZ then mret MCLAG_ERROR
        else
          name ← oob (put 0 (cstr ifname) (replicate IFNAMSIZ 0));
          csm_upd c (set peer_itf_name (λ _, name));;
          lif ← local_if_find_by_name name;
          when (negb (lif =? NULL))
            (csm_upd c (set peer_link_if (λ _, lif));;
             lif_upd lif (set lif_is_peer_link (λ _, 1));;
             mlacp_upd c (set system_config_changed (λ _, 1));;
             l ← deref w_lifs lif;
             when (lif_type l =? IF_T_PORT_CHANNEL) (_ ← iccp_get_port_member_list lif; mret tt);;
             set_peerlink_learn_kernel c 0);;
          scheduler_session_disconnect_handler c;;
          mret 0.

(** [iccp_cli_attach_mclag_domain_to_port_channel] *)
Definition iccp_cli_attach_mclag_domain_to_port_channel (domain : Z) (ifname : list Z) : W Z :=
  if negb (has_prefix "PortChannel" ifname) then mret MCLAG_ERROR
  else
    c ← system_get_csm_by_mlacp_id domain;
    if c =? NULL then mret MCLAG_ERROR
    else
      lif ← local_if_find_by_name ifname;
      when (negb (lif =? NULL)) (_ ← mlacp_bind_port_channel_to_csm c ifname; mret tt);;
      csm ← deref w_csms c;
      if existsb (λ n, str_eqb n ifname) (if_bind_list csm) then mret 0
      else
        r ← sys (SysMalloc 40);
        if r =? 0 then mret MCLAG_ERROR
        else csm_upd c (set if_bind_list (cons (snprintf_s MAX_L_PORT_NAME ifname)));; mret 0.

(** ** A port goes up or down *)

(** The port channels of the machine [c] with that name: whether there is one. *)
Fixpoint mclag_port_state (ifname : list Z) (po_is_active : Z) (c : ptr) (l : list ptr) (found : bool) : W bool :=
  match l with
  | [] => mret found
  | p :: l' =>
      lif ← deref w_lifs p;
      if (lif_type lif =? IF_T_PORT_CHANNEL) && str_eqb (lif_name lif) ifname then
        mlacp_portchannel_state_handler c p po_is_active;;
        mclag_port_state ifname po_is_active c l' true
      else mclag_port_state ifname po_is_active c l' found
  end.

(** [iccp_from_netlink_port_state_handler]: the machines in order; the walk ends at
    the machine whose peer link the port is. *)
Fixpoint port_state_walk (ifname : list Z) (po_is_active : Z) (is_mclag_intf : bool) (cs : list ptr) : W unit :=
  match cs with
  | [] => mret tt
  | c :: cs' =>
      csm ← deref w_csms c;
      if str_eqb ifname (peer_itf_name csm) then
        if po_is_active =? 0 then mlacp_peerlink_down_handler c else mlacp_peerlink_up_handler c
      else
        found ← mclag_port_state ifname po_is_active c (lif_list (MLACP csm)) is_mclag_intf;
        when (negb found)
          (lif ← local_if_find_by_name ifname; update_orphan_port_mac c lif po_is_active);;
        port_state_walk ifname po_is_active found cs'
  end.

Definition iccp_from_netlink_port_state_handler (ifname : list Z) (state : Z) : W unit :=
  cs ← gets (λ w, csm_list (w_sys w));
  port_state_walk ifname (if state =? PORT_STATE_UP then 1 else 0) false cs.
