(* ===== verification/Netlink.v ===== *)
(** * Notifications of the kernel ([iccp_netlink.c], counters of [system.c])

    Links and addresses that appear, change and disappear.  What libnl extracts from
    a notification is an argument: a record of what the accessors of [rtnl_link] and
    [rtnl_addr] return. *)

From S2P Require Import Prelude CMem CString MsgFormat State Machine IccpMsg IccpQueue SyncPrepare.
From S2P Require Import Port Syncd Standby MacTable LinkHandler NeighUpdate NeighLearn AppCsm IccpCsm Ifm.
#[local] Open Scope Z_scope.

Definition IF_OPER_UP : Z := 6.
Definition IFF_LOWER_UP : Z := 0x10000.
Definition AF_BRIDGE : Z := 7.

(** ** Links *)

Record rtnl_link : Type := RtnlLink {
  rl_ifindex : Z;                      (** a [uint32_t] *)
  rl_operstate : Z;
  rl_name : list Z;
  rl_mac : option (list Z);            (** the six bytes of an [AF_LLC] address *)
  rl_flags : Z;
  rl_master : Z
}.

(** The state of the port at its creation. *)
Definition link_state (k : rtnl_link) : Z :=
  if rl_operstate k =? IF_OPER_UP then PORT_STATE_UP else PORT_STATE_DOWN.

(** The name without the network identifier of a tunnel. *)
Fixpoint until_dash (l : list Z) : list Z :=
  match l with
  | [] => []
  | ch :: l' => if ch =? 45 then [] else ch :: until_dash l'
  end.

(** [if_whitelist] *)
Definition whitelisted (name : list Z) : option Z :=
  if has_prefix "PortChannel" name then Some IF_T_PORT_CHANNEL
  else if has_prefix "Vlan" name then Some IF_T_VLAN
  else if has_prefix "Ethernet" name then Some IF_T_PORT
  else if has_prefix "VTTNL" name then Some IF_T_VXLAN
  else None.

Definition set_link_mac (lif : ptr) (k : rtnl_link) : W unit :=
  match rl_mac k with
  | Some mac => lif_upd lif (set lif_mac_addr (λ _, mac))
  | None => mret tt
  end.

(** A tunnel: always up. *)
Definition newlink_vxlan (k : rtnl_link) : W unit :=
  let name := until_dash (cstr (rl_name k)) in
  lif ← local_if_find_by_name name;
  when (lif =? NULL)
    (lif ← local_if_create (to_int (rl_ifindex k)) name IF_T_VXLAN (link_state k);
     lif_upd lif (set lif_state (λ _, PORT_STATE_UP))).

(** A new link, or one whose index changed. *)
Definition newlink_create (k : rtnl_link) (lif : ptr) : W unit :=
  match whitelisted (rl_name k) with
  | None => sys_upd (set netlink_counters (λ m, <[8 := u32 (default 0 (m !! 8) + 1)]> m))
  | Some type =>
      when (negb (lif =? NULL)) (l ← deref w_lifs lif; local_if_destroy (lif_name l));;
      lif ← local_if_create (to_int (rl_ifindex k)) (rl_name k) type (link_state k);
      set_link_mac lif k
  end.

(** The carrier of a known port came or went. *)
Definition newlink_carrier (k : rtnl_link) (lif : ptr) : W unit :=
  l ← deref w_lifs lif;
  let up := negb (Z.land (rl_flags k) IFF_LOWER_UP =? 0) in
  let change (state po_active : Z) : W unit :=
    lif_upd lif (set lif_state (λ _, state));;
    when ((lif_type l =? IF_T_PORT_CHANNEL) && (lif_csm l =? NULL))
      (lif_upd lif (set lif_po_active (λ _, po_active)));;
    iccp_from_netlink_port_state_handler (lif_name l) state in
  if (lif_state l =? PORT_STATE_DOWN) && up then change PORT_STATE_UP 1
  else when ((lif_state l =? PORT_STATE_UP) && negb up) (change PORT_STATE_DOWN 0).

(** The VRF of a VLAN interface changed. *)
Definition newlink_master (k : rtnl_link) (lif : ptr) : W unit :=
  l ← deref w_lifs lif;
  when ((lif_type l =? IF_T_VLAN) && negb (lif_master_ifindex l =? rl_master k))
    (if negb (rl_master k =? 0) then
       lif_upd lif (λ l, l <| lif_master_ifindex := rl_master k |> <| lif_l3_mode := 1 |>);;
       update_vlan_if_mac_on_standby lif
     else
       when ((lif_ipv4_addr l =? 0) && (memcmp (lif_ipv6_addr l) ipv6_null =? 0))
         (when (negb (lif_is_l3_proto_enabled l)) (recover_vlan_if_mac_on_standby lif None);;
          lif_upd lif (λ l, l <| lif_l3_mode := 0 |> <| lif_l3_mac_addr := null_mac |>));;
       lif_upd lif (set lif_master_ifindex (λ _, 0))).

Definition newlink_update (k : rtnl_link) (lif : ptr) : W unit :=
  newlink_carrier k lif;;
  l ← deref w_lifs lif;
  match rl_mac k with
  | Some mac =>
      when (negb (memcmp mac (lif_mac_addr l) =? 0))
        (lif_upd lif (λ l, l <| lif_mac_addr := mac |> <| lif_port_config_sync := 1 |>))
  | None => mret tt
  end;;
  newlink_master k lif.

(** [iccp_event_handler_obj_input_newlink] *)
Definition iccp_event_handler_obj_input_newlink (k : rtnl_link) : W unit :=
  if has_prefix "VTTNL" (rl_name k) then newlink_vxlan k
  else
    lif ← local_if_find_by_name (rl_name k);
    if lif =? NULL then newlink_create k lif
    else
      l ← deref w_lifs lif;
      if (lif_ifindex l =? -1) && (lif_type l =? IF_T_VLAN) then
        lif_upd lif (λ l, l <| lif_ifindex := to_int (rl_ifindex k) |> <| lif_state := link_state k |>);;
        set_link_mac lif k
      else if negb (u32 (lif_ifindex l) =? rl_ifindex k) then newlink_create k lif
      else newlink_update k lif.

(** [iccp_event_handler_obj_input_dellink] *)
Definition iccp_event_handler_obj_input_dellink (ifindex : Z) : W unit :=
  lif ← local_if_find_by_ifindex (to_int ifindex);
  when (negb (lif =? NULL)) (l ← deref w_lifs lif; local_if_destroy (lif_name l)).

(** ** Addresses *)

Record rtnl_addr : Type := RtnlAddr {
  ra_ifindex : Z;
  ra_family : Z;
  ra_local : list Z;                   (** four or sixteen bytes *)
  ra_prefixlen : Z
}.

(** [iccp_del_self_ip_from_neigh_table]: the first entry with that address, in the
    first machine that has one. *)
Fixpoint del_self_ip (k : neigh_kind) (addr : list Z) (cs : list ptr) : W unit :=
  match cs with
  | [] => mret tt
  | c :: cs' =>
      csm ← deref w_csms c;
      found ← neigh_index k (mkNeighData 0 0 [] addr null_mac) 0 (nk_list k (MLACP csm));
      match found with
      | Some i => mlacp_upd c (set (nk_list k) (delete i))
      | None => del_self_ip k addr cs'
      end
  end.

Definition iccp_del_self_ip_from_neigh_table (lif addr_family : Z) : W unit :=
  l ← deref w_lifs lif;
  cs ← gets (λ w, csm_list (w_sys w));
  if addr_family =? AF_INET then del_self_ip arp_kind (le32 (lif_ipv4_addr l)) cs
  else when (addr_family =? AF_INET6) (del_self_ip ndisc_kind (lif_ipv6_addr l) cs).

(** [iccp_event_handler_obj_input_newaddr] *)
Definition newaddr_v4 (a : rtnl_addr) (lif : ptr) : W unit :=
  l ← deref w_lifs lif;
  if negb (lif_ipv4_addr l =? 0) then mret tt
  else
    ip ← oob (rd32 0 (ra_local a));
    lif_upd lif (λ l, l <| lif_ipv4_addr := ip |> <| lif_prefixlen := u8 (ra_prefixlen a) |>
                        <| lif_l3_mode := 1 |> <| lif_port_config_sync := 1 |>);;
    let sync_mac := memcmp (lif_ipv6_addr l) ipv6_null =? 0 in
    when sync_mac (update_if_ipmac_on_standby lif;; update_vlan_if_mac_on_standby lif);;
    iccp_del_self_ip_from_neigh_table lif AF_INET;;
    when (lif_is_l3_proto_enabled l)
      (_ ← syn_local_neigh_mac_info_to_peer lif 1 true false sync_mac 1 0; mret tt).

Definition newaddr_v6 (a : rtnl_addr) (lif : ptr) : W unit :=
  l ← deref w_lifs lif;
  if is_link_local (ra_local a) then
    lif_upd lif (λ l, l <| lif_ipv6_ll_addr := ra_local a |> <| lif_ll_prefixlen_v6 := ra_prefixlen a |>)
  else if negb (memcmp (lif_ipv6_addr l) ipv6_null =? 0) then mret tt
  else
    lif_upd lif (λ l, l <| lif_ipv6_addr := ra_local a |> <| lif_prefixlen_v6 := ra_prefixlen a |>
                        <| lif_l3_mode := 1 |> <| lif_port_config_sync := 1 |>);;
    let sync_mac := lif_ipv4_addr l =? 0 in
    when sync_mac (update_if_ipmac_on_standby lif;; update_vlan_if_mac_on_standby lif);;
    iccp_del_self_ip_from_neigh_table lif AF_INET6;;
    when (lif_is_l3_proto_enabled l)
      (_ ← syn_local_neigh_mac_info_to_peer lif 1 false true sync_mac 1 0; mret tt).

Definition iccp_event_handler_obj_input_newaddr (a : rtnl_addr) : W unit :=
  lif ← local_if_find_by_ifindex (ra_ifindex a);
  if lif =? NULL then mret tt
  else if ra_family a =? AF_INET then newaddr_v4 a lif
  else when (ra_family a =? AF_INET6) (newaddr_v6 a lif).

(** [iccp_event_handler_obj_input_deladdr]: whether the function goes on to its last
    test. *)
Definition deladdr_v4 (a : rtnl_addr) (lif : ptr) : W bool :=
  l ← deref w_lifs lif;
  ip ← oob (rd32 0 (ra_local a));
  if negb (lif_ipv4_addr l =? ip) then mret false
  else
    let sync_mac := memcmp (lif_ipv6_addr l) ipv6_null =? 0 in
    when (sync_mac && (lif_master_ifindex l =? 0)) (recover_vlan_if_mac_on_standby lif None);;
    when (lif_is_l3_proto_enabled l)
      (_ ← syn_local_neigh_mac_info_to_peer lif 0 true false sync_mac 0 0; mret tt);;
    lif_upd lif (λ l, l <| lif_ipv4_addr := 0 |> <| lif_prefixlen := 0 |>);;
    mret true.

Definition deladdr_v6 (a : rtnl_addr) (lif : ptr) : W bool :=
  l ← deref w_lifs lif;
  if is_link_local (ra_local a) then
    lif_upd lif (λ l, l <| lif_ipv6_ll_addr := ipv6_null |> <| lif_ll_prefixlen_v6 := 0 |>);; mret false
  else if negb (memcmp (lif_ipv6_addr l) (ra_local a) =? 0) then mret false
  else
    let sync_mac := lif_ipv4_addr l =? 0 in
    when (sync_mac && (lif_master_ifindex l =? 0)) (recover_vlan_if_mac_on_standby lif None);;
    when (lif_is_l3_proto_enabled l)
      (_ ← syn_local_neigh_mac_info_to_peer lif 0 false true sync_mac 0 0; mret tt);;
    lif_upd lif (λ l, l <| lif_ipv6_addr := ipv6_null |> <| lif_prefixlen_v6 := 0 |>);;
    mret true.

Definition iccp_event_handler_obj_input_deladdr (a : rtnl_addr) : W unit :=
  lif ← local_if_find_by_ifindex (ra_ifindex a);
  if lif =? NULL then mret tt
  else
    go ← (if ra_family a =? AF_INET then deladdr_v4 a lif
          else if ra_family a =? AF_INET6 then deladdr_v6 a lif else mret true);
    when go
      (l ← deref w_lifs lif;
       when (negb (is_l3 l)) (lif_upd lif (λ l, l <| lif_l3_mode := 0 |> <| lif_l3_mac_addr := null_mac |>))).

(** ** The messages of the route socket *)

Inductive route_msg : Type :=
| NewLink (k : rtnl_link)
| DelLink (ifindex : Z)
| Neigh (n : list Z)                   (** the bytes of the message *)
| NewAddr (a : rtnl_addr)
| DelAddr (a : rtnl_addr)
| OtherMsg.

(** [system_update_netlink_counters]: the counters by their position in the structure. *)
Definition count_netlink (i : Z) : W unit :=
  sys_upd (set netlink_counters (λ m, <[i := u32 (default 0 (m !! i) + 1)]> m)).

Definition system_update_netlink_counters (msg : route_msg) : W unit :=
  match msg with
  | NewLink _ => count_netlink 0
  | DelLink _ => count_netlink 1
  | Neigh n =>
      type ← oob (rd16 (offsetof nlmsghdr "nlmsg_type") n);
      family ← oob (rd8 (sizeof nlmsghdr + offsetof ndmsg "ndm_family") n);
      let i := if type =? RTM_NEWNEIGH then 2 else 3 in
      count_netlink i;;
      when (family =? AF_BRIDGE) (count_netlink (i + 7))
  | NewAddr _ => count_netlink 4
  | DelAddr _ => count_netlink 5
  | OtherMsg => count_netlink 6
  end.

(** [iccp_route_event_handler] *)
Definition iccp_route_event_handler (msg : route_msg) : W unit :=
  system_update_netlink_counters msg;;
  match msg with
  | NewLink k => iccp_event_handler_obj_input_newlink k
  | DelLink ifindex => iccp_event_handler_obj_input_dellink ifindex
  | Neigh n => _ ← do_one_neigh_request n; mret tt
  | NewAddr a => iccp_event_handler_obj_input_newaddr a
  | DelAddr a => iccp_event_handler_obj_input_deladdr a
  | OtherMsg => mret tt
  end.
