(* ===== verification/Cli.v ===== *)
(** * Configuration ([iccp_cli.c], [iccp_cmd.c])

    The commands that create a machine, set its identifiers and addresses, and
    remove it.  A change of an address in use drops the session first. *)

From S2P Require Import Prelude CMem CString MsgFormat State Machine IccpMsg IccpQueue SyncPrepare Port Syncd.
From S2P Require Import Standby MacTable LinkHandler AppCsm IccpCsm Ifm.
#[local] Open Scope Z_scope.

(** [set_mc_lag_id]; the argument is a [uint16_t]. *)
Definition set_mc_lag_id (c : ptr) (id : Z) : W Z :=
  if c =? NULL then mret MCLAG_ERROR
  else
    csm_upd c (λ x, set_MLACP (set mlacp_id (λ _, id))
                      (x <| mlag_id := id |> <| iccp_info ::= set icc_rg_id (λ _, id) |>));;
    mret 0.

(** [unset_mc_lag_id] *)
Definition unset_mc_lag_id (c : ptr) : W Z :=
  if c =? NULL then mret MCLAG_ERROR
  else
    csm ← deref w_csms c;
    _ ← mlacp_link_del_iccp_info (mlag_id csm);
    iccp_csm_finalize c;;
    mret 0.

(** [set_mc_lag_by_id] and [unset_mc_lag_by_id] *)
Definition set_mc_lag_by_id (mid : Z) : W Z :=
  c ← system_get_csm_by_mlacp_id mid;
  if c =? NULL then
    c ← iccp_get_csm;
    if c =? NULL then mret MCLAG_ERROR else set_mc_lag_id c mid
  else mret 0.

Definition unset_mc_lag_by_id (mid : Z) : W Z :=
  c ← system_get_csm_by_mlacp_id mid;
  if c =? NULL then mret MCLAG_ERROR else unset_mc_lag_id c.

(** [unset_peer_link]: the [memset] of [MAX_L_PORT_NAME] bytes clears the array of
    [IFNAMSIZ] and the four low bytes of the member behind it. *)
Definition unset_peer_link (mid : Z) : W Z :=
  c ← system_get_csm_by_mlacp_id mid;
  if c =? NULL then mret MCLAG_ERROR
  else
    csm ← deref w_csms c;
    when ((mlacp_current_state (MLACP csm) =? MLACP_STATE_EXCHANGE) && negb (peer_link_if csm =? NULL))
      (set_peerlink_mlag_port_learn (peer_link_if csm) 1;; set_peerlink_learn_kernel c 1);;
    scheduler_session_disconnect_handler c;;
    csm_upd c (λ x, x <| peer_itf_name := replicate IFNAMSIZ 0 |>
                      <| peer_link_learning_retry_time ::= λ t, Z.ldiff t (Z.ones 32) |>);;
    csm ← deref w_csms c;
    when (negb (peer_link_if csm =? NULL))
      (lif_upd (peer_link_if csm) (set lif_is_peer_link (λ _, 0));;
       csm_upd c (set peer_link_if (λ _, NULL));;
       mlacp_upd c (set system_config_changed (λ _, 1)));;
    mret 0.

(** An address is copied with [memset] and [memcpy] into an array of [INET_ADDRSTRLEN]
    bytes: [None] when it is longer. *)
Definition copy_address (addr : list Z) : option (list Z) :=
  if strlen addr >? Z.of_nat INET_ADDRSTRLEN then None
  else put 0 (cstr addr) (replicate INET_ADDRSTRLEN 0).

(** [set_local_address]; the address is not null. *)
Definition set_local_address (mid : Z) (addr : list Z) : W Z :=
  c ← system_get_csm_by_mlacp_id mid;
  if c =? NULL then mret MCLAG_ERROR
  else
    csm ← deref w_csms c;
    if (strlen (sender_ip csm) >? 0) && str_eqb (sender_ip csm) addr then mret 0
    else
      when (strlen (sender_ip csm) >? 0) (scheduler_session_disconnect_handler c);;
      csm_upd c (set sender_ip (λ _, replicate INET_ADDRSTRLEN 0));;
      match copy_address addr with
      | None => mret MCLAG_ERROR
      | Some ip =>
          csm_upd c (set sender_ip (λ _, ip));;
          csm ← deref w_csms c;
          name ← oob (put 0 (replicate INET_ADDRSTRLEN 0) (sender_name (iccp_info csm)));
          name ← oob (put 0 (cstr addr) name);
          info_upd c (set sender_name (λ _, name));;
          mret 0
      end.

(** [unset_local_address] *)
Definition unset_local_address (mid : Z) : W Z :=
  c ← system_get_csm_by_mlacp_id mid;
  if c =? NULL then mret MCLAG_ERROR
  else
    csm_upd c (set sender_ip (λ _, replicate INET_ADDRSTRLEN 0));;
    csm ← deref w_csms c;
    name ← oob (put 0 (replicate INET_ADDRSTRLEN 0) (sender_name (iccp_info csm)));
    info_upd c (set sender_name (λ _, name));;
    scheduler_session_disconnect_handler c;;
    mret 0.

(** [set_peer_address] *)
Definition set_peer_address (mid : Z) (addr : list Z) : W Z :=
  c ← system_get_csm_by_mlacp_id mid;
  if c =? NULL then mret MCLAG_ERROR
  else
    csm ← deref w_csms c;
    if (strlen (peer_ip csm) >? 0) && str_eqb (peer_ip csm) addr then mret 0
    else
      when (strlen (peer_ip csm) >? 0) (scheduler_session_disconnect_handler c);;
      csm_upd c (set peer_ip (λ _, replicate INET_ADDRSTRLEN 0));;
      match copy_address addr with
      | None => mret MCLAG_ERROR
      | Some ip => csm_upd c (set peer_ip (λ _, ip));; mret 0
      end.

(** [unset_peer_address] *)
Definition unset_peer_address (mid : Z) : W Z :=
  c ← system_get_csm_by_mlacp_id mid;
  if c =? NULL then mret MCLAG_ERROR
  else
    csm_upd c (set peer_ip (λ _, replicate INET_ADDRSTRLEN 0));;
    scheduler_session_disconnect_handler c;;
    mret 0.

(** [set_keepalive_time] and [set_session_timeout] *)
Definition set_keepalive_time (mid time : Z) : W Z :=
  c ← system_get_csm_by_mlacp_id mid;
  if c =? NULL then mret MCLAG_ERROR
  else
    csm ← deref w_csms c;
    when (negb (keepalive_time csm =? time))
      (csm_upd c (λ x, x <| keepalive_time := time |> <| heartbeat_send_time := 0 |>));;
    mret 0.

Definition set_session_timeout (mid val : Z) : W Z :=
  c ← system_get_csm_by_mlacp_id mid;
  if c =? NULL then mret MCLAG_ERROR
  else csm_upd c (set session_timeout (λ _, val));; mret 0.

(** ** The MAC address of the system *)

(** The value of a hexadecimal digit, in either case. *)
Definition mac_digit (ch : Z) : option Z :=
  if (48 <=? ch) && (ch <=? 57) then Some (u8 (ch - 48))
  else if (65 <=? ch) && (ch <=? 70) then Some (u8 (ch - 65 + 0x0a))
  else if (97 <=? ch) && (ch <=? 102) then Some (u8 (ch - 97 + 0x0a))
  else None.

(** The loop of [parseMacString] from byte [i]: it stops at the first character that is
    no digit, and leaves in [bin_mac] what it has stored so far: in its last byte the
    first digit, shifted, when it is the second one that is wrong. *)
Fixpoint parse_mac_bytes (str_mac : list Z) (i : nat) (n : nat) (bin_mac : list Z) : Z * list Z :=
  match n with
  | O => (0, bin_mac)
  | S n' =>
      match mac_digit (str_mac !!! (i * 3)%nat) with
      | None => (MCLAG_ERROR, bin_mac)
      | Some l =>
          let high := u8 (Z.shiftl l 4) in
          match mac_digit (str_mac !!! (i * 3 + 1)%nat) with
          | None => (MCLAG_ERROR, <[i := high]> bin_mac)
          | Some r => parse_mac_bytes str_mac (S i) n' (<[i := Z.lor high r]> bin_mac)
          end
      end
  end.

(** [parseMacString]: the result and the array. *)
Definition parseMacString (str_mac bin_mac : list Z) : Z * list Z :=
  let s := cstr str_mac in
  if negb (strlen str_mac =? Z.of_nat ETHER_ADDR_LEN * 2 + 5) then (MCLAG_ERROR, bin_mac)
  else if negb ((s !!! 2%nat =? s !!! 5%nat) && (s !!! 5%nat =? s !!! 8%nat)
                && (s !!! 8%nat =? s !!! 11%nat) && (s !!! 11%nat =? s !!! 14%nat)) then (MCLAG_ERROR, bin_mac)
  else if negb (s !!! 2%nat =? 58) && negb (s !!! 2%nat =? 45) then (MCLAG_ERROR, bin_mac)
  else parse_mac_bytes s 0 ETHER_ADDR_LEN bin_mac.

(** [set_local_system_id] and [unset_local_system_id] *)
Definition set_local_system_id (mac : list Z) : W Z :=
  cs ← gets (λ w, csm_list (w_sys w));
  mforeach cs (λ c, mlacp_upd c (set system_id (λ old, (parseMacString mac old).2)));;
  mret 0.

Definition unset_local_system_id : W Z :=
  cs ← gets (λ w, csm_list (w_sys w));
  mforeach cs (λ c, mlacp_upd c (set system_id (λ _, null_mac)));;
  mret 0.

(** ** Facts *)

Lemma mac_digit_hex d : 0 ≤ d < 16 → mac_digit (hex_digit d) = Some d.
Proof.
  intros Hd. unfold mac_digit, hex_digit, u8.
  destruct (d <? 10) eqn:E.
  - rewrite (proj2 (Z.leb_le _ _)), (proj2 (Z.leb_le _ _)) by lia. simpl. f_equal. rewrite Z.mod_small; lia.
  - rewrite (proj2 (Z.leb_gt (87 + d) 57)), andb_false_r by lia.
    rewrite (proj2 (Z.leb_gt (87 + d) 70)), andb_false_r by lia.
    rewrite (proj2 (Z.leb_le 97 _)), (proj2 (Z.leb_le _ 102)) by lia. simpl. f_equal. rewrite Z.mod_small; lia.
Qed.

Lemma join_digits b : 0 ≤ b < 256 → Z.lor (u8 (Z.shiftl (b / 16) 4)) (b mod 16) = b.
Proof.
  intros Hb.
  assert (forallb (λ n, let b := Z.of_nat n in Z.lor (u8 (Z.shiftl (b / 16) 4)) (b mod 16) =? b) (seq 0 256) = true)
    as H by (vm_compute; reflexivity).
  rewrite forallb_forall in H. specialize (H (Z.to_nat b)). cbv zeta in H. rewrite Z2Nat.id in H by lia.
  apply Z.eqb_eq, H, in_seq. lia.
Qed.

Lemma hex_digit_nonzero d : 0 ≤ d → hex_digit d ≠ 0.
Proof. unfold hex_digit. case_match; lia. Qed.

(** Six bytes. *)
Lemma mac_six (mac : list Z) : length mac = ETHER_ADDR_LEN → ∃ a b c d e f, mac = [a; b; c; d; e; f].
Proof. do 7 (destruct mac as [|? mac]; try done). intros _. by repeat eexists. Qed.

(** [parseMacString] inverts the printing of a MAC address ([mac_addr_to_str],
    [SET_MAC_STR]): parsing the text of six bytes succeeds and stores exactly these
    bytes, whatever the array held before. *)
Theorem parse_mac_roundtrip mac old :
  length mac = ETHER_ADDR_LEN → Forall (λ b, 0 ≤ b < 256) mac → length old = ETHER_ADDR_LEN →
  parseMacString (fmt_mac mac) old = (0, mac).
Proof.
  intros Hm Hb Ho. destruct (mac_six mac Hm) as (a & b & c & d & e & f & ->).
  destruct (mac_six old Ho) as (a' & b' & c' & d' & e' & f' & ->).
  rewrite !Forall_cons in Hb. destruct Hb as (Ha & Hb & Hc & Hd & He & Hf & _).
  assert (∀ x, 0 ≤ x < 256 → mac_digit (hex_digit (x / 16)) = Some (x / 16)
    ∧ mac_digit (hex_digit (x mod 16)) = Some (x mod 16)) as Hx.
  { intros x Hx. split; apply mac_digit_hex; [|by apply Z.mod_pos_bound].
    split; [apply Z.div_pos; lia|apply Z.div_lt_upper_bound; lia]. }
  assert (cstr (fmt_mac [a; b; c; d; e; f]) = fmt_mac [a; b; c; d; e; f]) as Hs.
  { apply cstr_id. simpl. unfold fmt_02x.
    repeat (constructor; [first [apply hex_digit_nonzero; first [apply Z.div_pos; lia|by apply Z.mod_pos_bound]|lia]|]).
    constructor. }
  unfold parseMacString, strlen. rewrite Hs.
  change (negb (Z.of_nat (length (fmt_mac [a; b; c; d; e; f])) =? Z.of_nat ETHER_ADDR_LEN * 2 + 5)) with false.
  cbv iota. cbn -[mac_digit hex_digit u8 Z.shiftl Z.lor Z.div Z.modulo].
  destruct (Hx a Ha) as [-> ->], (Hx b Hb) as [-> ->], (Hx c Hc) as [-> ->].
  destruct (Hx d Hd) as [-> ->], (Hx e He) as [-> ->], (Hx f Hf) as [-> ->].
  by rewrite !join_digits.
Qed.

Lemma parse_mac_roundtrip_witness :
  parseMacString (fmt_mac [0x00; 0x1b; 0xff; 0x02; 0xa9; 0x70]) null_mac = (0, [0x00; 0x1b; 0xff; 0x02; 0xa9; 0x70]).
Proof. apply parse_mac_roundtrip; [reflexivity| |reflexivity]. repeat constructor; lia. Defined.

(** * The configuration file ([iccp_cmd.c])

    The daemon reads commands from a file at its start, one per line: a keyword, a
    separator and an argument.  The line is in an array of [CONFIG_LINE_LEN] bytes;
    positions in it are offsets. *)

(** The loops that advance [cp] while [f] holds of the character and it is not the
    terminator: the number of characters passed; [None] when the array ends before. *)
Fixpoint scan (f : Z → bool) (l : list Z) : option nat :=
  match l with
  | [] => None
  | ch :: l' => if f ch && negb (ch =? 0) then S <$> scan f l' else Some O
  end.

(** The string at [cp]; its terminator is in the array. *)
Definition argument (line : list Z) (cp : nat) : W (list Z) :=
  n ← oob (scan (λ _, true) (drop cp line)); mret (take n (drop cp line)).

(** The characters that separate the names of interfaces. *)
Definition is_separator (ch : Z) : bool := (ch =? 44) || (ch =? 13) || (ch =? 10).

Definition TOKEN_SIZE : nat := 64.

(** The loop over the names of interfaces.  [token] is the array on the stack: its
    length as a string, which bounds the name, is what it was left with.  After the
    first round a round begins at a character of a name, so the length of the line
    bounds the rounds. *)
Fixpoint attach_names (fuel : nat) (mid : Z) (line : list Z) (cp : nat) (token : list Z) : W Z :=
  match fuel with
  | O => fail OutOfFuel
  | S f =>
      slen ← oob (scan (λ ch, negb (is_separator ch)) (drop cp line));
      len ← oob (scan (λ _, true) token);
      if (len <? slen)%nat then mret MCLAG_ERROR
      else
        token ← oob (put 0 (take slen (drop cp line) ++ [0]) token);
        _ ← iccp_cli_attach_mclag_domain_to_port_channel mid token;
        skip ← oob (scan (λ ch, is_space ch || is_separator ch) (drop (cp + slen) line));
        ch ← oob (line !! (cp + slen + skip)%nat);
        if ch =? 0 then mret 1 else attach_names f mid line (cp + slen + skip)%nat token
  end.

(** [iccp_config_from_command]; [mid] is the static variable: the new value of it and
    the result. *)
Definition iccp_config_from_command (mid : Z) (line : list Z) : W (Z * Z) :=
  cp ← oob (scan is_space line);
  ch ← oob (line !! cp);
  if ch =? 0 then mret (mid, 0)
  else
    n ← oob (scan (λ ch, negb (is_space ch)) (drop cp line));
    let line := <[(cp + n)%nat := 0]> line in
    let keyword (k : string) : bool := has_prefix k (drop cp line) in
    let arg (k : string) : nat := (cp + String.length k + 1)%nat in
    if keyword "mclag_id" then
      s ← argument line (arg "mclag_id");
      let mid := atoi s in
      _ ← set_mc_lag_by_id (u16 mid);
      mret (mid, 1)
    else if keyword "local_ip" then
      s ← argument line (arg "local_ip"); _ ← set_local_address mid s; mret (mid, 1)
    else if keyword "peer_ip" then
      s ← argument line (arg "peer_ip"); _ ← set_peer_address mid s; mret (mid, 1)
    else if keyword "peer_link" then
      s ← argument line (arg "peer_link"); _ ← set_peer_link mid s; mret (mid, 1)
    else if keyword "mclag_interface" then
      token ← uninit TOKEN_SIZE;
      r ← attach_names (length line + 2) mid line (arg "mclag_interface") token;
      mret (mid, r)
    else if keyword "system_mac" then
      s ← argument line (arg "system_mac"); _ ← set_local_system_id s; mret (mid, 1)
    else mret (mid, 1).

(** The lines in order; each one sees the value of [mid] the ones before left. *)
Fixpoint thread_lines (command : Z → list Z → W (Z * Z)) (mid : Z) (lines : list (list Z)) : W unit :=
  match lines with
  | [] => mret tt
  | line :: lines' => r ← command mid line; thread_lines command (fst r) lines'
  end.
Definition config_lines : Z → list (list Z) → W unit := thread_lines iccp_config_from_command.

(** [iccp_config_from_file]: the array after each [fgets], or [None] when there is no
    file. *)
Definition iccp_config_from_file (file : option (list (list Z))) : W Z :=
  match file with
  | None => mret 1
  | Some lines => config_lines 0 lines;; mret 0
  end.

(** ** Facts *)

(** The loop stops at a character of the array. *)
Lemma scan_stop f l n : scan f l = Some n → ∃ ch, l !! n = Some ch ∧ f ch && negb (ch =? 0) = false.
Proof.
  revert n. induction l as [|ch l IH]; intros n; simpl; [done|]. destruct (f ch && negb (ch =? 0)) eqn:E.
  - destruct (scan f l) as [m|]; [|done]. intros [= <-]. by apply IH.
  - intros [= <-]. by exists ch.
Qed.

(** A round that does not end the list of names advances. *)
Lemma attach_advances line cp slen skip ch :
  scan (λ ch, negb (is_separator ch)) (drop cp line) = Some slen →
  scan (λ ch, is_space ch || is_separator ch) (drop (cp + slen) line) = Some skip →
  line !! (cp + slen + skip)%nat = Some ch → (ch =? 0) = false →
  (length (drop (cp + slen + skip) line) < length (drop cp line))%nat.
Proof.
  intros [c1 [H1 E1]]%scan_stop [c2 [H2 E2]]%scan_stop Hch Hz.
  pose proof (lookup_lt_Some _ _ _ Hch) as Hlt. rewrite !length_drop.
  destruct (decide (slen + skip = 0)%nat) as [H0|]; [|lia]. exfalso.
  assert (slen = 0%nat ∧ skip = 0%nat) as [-> ->] by lia.
  rewrite lookup_drop, Nat.add_0_r in H1. rewrite lookup_drop, !Nat.add_0_r in H2.
  rewrite !Nat.add_0_r in Hch. simplify_eq. rewrite Hz in E1, E2. simpl in E1, E2.
  rewrite andb_true_r in E1, E2. apply negb_false_iff in E1. rewrite E1, orb_true_r in E2. done.
Qed.
