(* ===== verification/SyncdCfg.v ===== *)
(** * MAC addresses, configuration and reports from mclagsyncd ([mlacp_link_handler.c])

    [mclagsyncd] reports the MAC addresses the switch learns and ages.
    [do_mac_update_from_syncd] handles one report; it is split along its branches:
    an address already known that is learned again, a new address, and an aged
    address.  The entry [mac_msg] that the function builds on its stack is an
    object [sp] of the heap while the function runs, because the functions it calls
    take a pointer to it.

    The other part are the handlers of the messages of [mclagsyncd].  A message is a header and a list
    of structures of one type; their number follows from the length in the header.
    The buffer given to a handler starts at the header and extends to the end of the
    receive buffer, which is as far as the code could read. *)

From S2P Require Import Prelude CMem CString MsgFormat State Machine IccpMsg IccpQueue SyncPrepare.
From S2P Require Import Port Syncd Standby MacTable MacUpdate LinkHandler AppCsm IccpCsm Ifm Cli.
#[local] Open Scope Z_scope.

(** ** MAC addresses of the switch *)

(** [from_mclag_intf] and [lif_po]: the multi-chassis port channel [ifname], searched in
    the machines in order; the search ends at a machine whose peer link it is. *)
Fixpoint syncd_mac_intf (cs : list ptr) (ifname : list Z) : W ptr :=
  match cs with
  | [] => mret NULL
  | c :: cs' =>
      csm ← deref w_csms c;
      if str_eqb ifname (peer_itf_name csm) then mret NULL
      else
        lif_po ← mac_mclag_intf csm ifname;
        if lif_po =? NULL then syncd_mac_intf cs' ifname else mret lif_po
  end.

(** [pif && pif->state == s] *)
Definition pif_state_is (pif : ptr) (s : Z) : W bool :=
  if pif =? NULL then mret false else x ← deref w_pifs pif; mret (pif_state x =? s).

(** ** A known address is learned *)

(** The port is down here and up at the peer: the entry points to the peer link. *)
Definition syncd_mac_via_peer (c sp p : ptr) : W unit :=
  x ← deref w_macs sp;
  mac_upd p (λ m, m <| mac_pending_local_del := 1 |> <| mac_fdb_type := mac_fdb_type x |>
                    <| mac_origin_ifname := mac_ifname x |>);;
  csm ← deref w_csms c;
  m ← deref w_macs p;
  when (negb (str_eqb (mac_ifname m) (peer_itf_name csm))) (redirect_to_peer_link csm p);;
  add_mac_to_chip p (mac_fdb_type x).

(** The entry follows the report; its withdrawal from the peer's entries of the
    switch goes through the entry on the stack. *)
Definition syncd_mac_refresh (c sp p : ptr) : W unit :=
  x ← deref w_macs sp;
  m ← deref w_macs p;
  if negb (mac_fdb_type m =? mac_fdb_type x) || negb (str_eqb (mac_ifname m) (mac_ifname x))
     || negb (str_eqb (mac_origin_ifname m) (mac_ifname x))
  then
    name ← oob (sprintf_s (mac_ifname m) (mac_ifname x));
    origin ← oob (sprintf_s (mac_origin_ifname m) (mac_ifname x));
    mac_upd p (λ m, m <| mac_fdb_type := mac_fdb_type x |> <| mac_ifname := name |>
                      <| mac_origin_ifname := origin |>);;
    mac_set_age c p 0 1;;
    x ← deref w_macs sp;
    when (Z.land (mac_age_flag x) MAC_AGE_PEER =? 0)
      (mac_upd p (set mac_age_flag (λ _, MAC_AGE_PEER));; del_mac_from_chip sp)
  else
    mac_set_age c p 0 1;;
    x ← deref w_macs sp;
    when (Z.land (mac_age_flag x) MAC_AGE_PEER =? 0) (del_mac_from_chip sp).

Definition syncd_mac_known (c sp p mac_lif lif_po pif : ptr) : W unit :=
  l ← deref w_lifs mac_lif;
  via_peer ← (if (lif_state l =? PORT_STATE_DOWN) && negb (lif_po =? NULL)
              then pif_state_is pif PORT_STATE_UP else mret false);
  if (via_peer : bool) then syncd_mac_via_peer c sp p else syncd_mac_refresh c sp p.

(** ** A new address is learned *)

(** The entry is stored, and queued for the peer unless its port is down; for a port
    that is down here and up at the peer the switch is told to use the peer link,
    through the entry on the stack. *)
Definition syncd_mac_store (c sp mac_lif lif_po pif : ptr) : W unit :=
  mac_upd sp (λ m, m <| mac_age_flag ::= λ f, Z.lor f MAC_AGE_PEER |> <| mac_op_type := MAC_SYNC_ADD |>);;
  new_mac_msg ← iccp_csm_init_mac_msg sp;
  if new_mac_msg =? NULL then mret tt
  else
    mac_rb_insert c new_mac_msg;;
    l ← deref w_lifs mac_lif;
    if lif_state l =? PORT_STATE_DOWN then
      up ← (if lif_po =? NULL then mret false else pif_state_is pif PORT_STATE_UP);
      when up
        (csm ← deref w_csms c;
         mac_upd sp (set mac_pending_local_del (λ _, 1));;
         redirect_to_peer_link csm sp;;
         x ← deref w_macs sp;
         add_mac_to_chip sp (mac_fdb_type x))
    else
      csm ← deref w_csms c;
      when (mlacp_current_state (MLACP csm) =? MLACP_STATE_EXCHANGE)
        (mlacp_upd c (set mac_msg_list (λ q, q ++ [new_mac_msg]));;
         mac_upd new_mac_msg (set mac_in_msg_list (λ _, true))).

Definition syncd_mac_new (c sp mac_lif lif_po pif : ptr) : W unit :=
  l ← deref w_lifs mac_lif;
  both_down ← (if negb (lif_po =? NULL) && (lif_state l =? PORT_STATE_DOWN)
               then pif_state_is pif PORT_STATE_DOWN else mret false);
  if (both_down : bool) then del_mac_from_chip sp else syncd_mac_store c sp mac_lif lif_po pif.

(** The branch [op_type == MAC_SYNC_ADD]. *)
Definition syncd_mac_add (c sp p lif_po pif : ptr) (ifname : list Z) : W unit :=
  mac_lif ← local_if_find_by_name ifname;
  if mac_lif =? NULL then mret tt
  else
    x ← deref w_macs sp;
    name ← oob (sprintf_s (mac_ifname x) ifname);
    origin ← oob (sprintf_s (mac_origin_ifname x) ifname);
    mac_upd sp (λ m, m <| mac_ifname := name |> <| mac_origin_ifname := origin |>);;
    csm ← deref w_csms c;
    if str_eqb (peer_itf_name csm) name then mret tt
    else if negb (p =? NULL) then syncd_mac_known c sp p mac_lif lif_po pif
    else syncd_mac_new c sp mac_lif lif_po pif.

(** ** An address is aged *)

(** Both sides have aged the entry: it leaves the switch and the tree. *)
Definition syncd_mac_forget (c p : ptr) : W unit :=
  m ← deref w_macs p;
  when (negb (mac_add_to_syncd m =? 0)) (del_mac_from_chip p);;
  mac_drop c p.

(** The entry points to the peer link: it is put back while the peer keeps it. *)
Definition syncd_mac_del_peer_link (c p : ptr) : W unit :=
  m ← deref w_macs p;
  if negb (mac_pending_local_del m =? 0) then mret tt
  else
    mac_set_age c p 1 1;;
    m ← deref w_macs p;
    if mac_age_flag m =? MAC_AGE_BOTH then syncd_mac_forget c p
    else
      csm ← deref w_csms c;
      back ← (if peer_link_if csm =? NULL then mret false
              else l ← deref w_lifs (peer_link_if csm); mret (negb (lif_state l =? PORT_STATE_DOWN)));
      when back (add_mac_to_chip p (mac_fdb_type m)).

(** The peer has not aged the entry: it goes back to the switch, through the peer
    link when its port channel is down. *)
Definition syncd_mac_restore (c p lif_po : ptr) : W unit :=
  down ← (if lif_po =? NULL then mret false else l ← deref w_lifs lif_po; mret (lif_state l =? PORT_STATE_DOWN));
  m ← deref w_macs p;
  if (down : bool) then
    csm ← deref w_csms c;
    when (negb (strlen (peer_itf_name csm) =? 0))
      (redirect_to_peer_link csm p;;
       up ← peer_link_up csm;
       when up (add_mac_to_chip p (mac_fdb_type m)))
  else
    mac_lif ← local_if_find_by_name (mac_ifname m);
    if mac_lif =? NULL then mret tt
    else
      l ← deref w_lifs mac_lif;
      when (lif_state l =? PORT_STATE_UP) (add_mac_to_chip p (mac_fdb_type m)).

(** The branch [op_type != MAC_SYNC_ADD]. *)
Definition syncd_mac_del (c p lif_po : ptr) : W unit :=
  if p =? NULL then mret tt
  else
    csm ← deref w_csms c;
    m ← deref w_macs p;
    if str_eqb (mac_ifname m) (peer_itf_name csm) then syncd_mac_del_peer_link c p
    else
      mac_set_age c p 1 1;;
      m ← deref w_macs p;
      if mac_age_flag m =? MAC_AGE_BOTH then syncd_mac_forget c p else syncd_mac_restore c p lif_po.

(** ** One report *)

(** [do_mac_update_from_syncd]; [vid] is a [uint16_t], the types are [uint8_t]. *)
Definition do_mac_update_from_syncd (addr : list Z) (v : Z) (ifname : list Z) (fdb_type op_type : Z) : W unit :=
  if memcmp addr null_mac =? 0 then mret tt
  else
    cs ← gets (λ w, csm_list (w_sys w));
    sp ← place w_macs (mac_key v addr <| mac_op_type := op_type |> <| mac_fdb_type := fdb_type |>);
    lif_po ← syncd_mac_intf cs ifname;
    (match cs with
     | [] => mret tt
     | c :: _ =>
         pif ← peer_if_find_by_name c ifname;
         csm ← deref w_csms c;
         p ← mac_rb_find (mac_key v addr) (mac_rb (MLACP csm));
         if op_type =? MAC_SYNC_ADD then syncd_mac_add c sp p lif_po pif ifname
         else syncd_mac_del c p lif_po
     end);;
    free w_macs sp.


(** ** Constants and structures ([msg_format.h]) *)

Definition MCLAG_SYNCD_MSG_TYPE_FDB_OPERATION : Z := 1.
Definition MCLAG_SYNCD_MSG_TYPE_CFG_MCLAG_DOMAIN : Z := 2.
Definition MCLAG_SYNCD_MSG_TYPE_CFG_MCLAG_IFACE : Z := 3.
Definition MCLAG_SYNCD_MSG_TYPE_VLAN_MBR_UPDATES : Z := 4.
Definition MCLAG_SYNCD_MSG_TYPE_CFG_MCLAG_UNIQUE_IP : Z := 5.

Definition MCLAG_CFG_OPER_ADD : Z := 1.
Definition MCLAG_CFG_OPER_DEL : Z := 2.
Definition MCLAG_CFG_OPER_UPDATE : Z := 3.
Definition MCLAG_CFG_OPER_ATTR_DEL : Z := 4.

Definition MCLAG_CFG_ATTR_SRC_ADDR : Z := 0x1.
Definition MCLAG_CFG_ATTR_PEER_ADDR : Z := 0x2.
Definition MCLAG_CFG_ATTR_PEER_LINK : Z := 0x4.
Definition MCLAG_CFG_ATTR_KEEPALIVE_INTERVAL : Z := 0x8.
Definition MCLAG_CFG_ATTR_SESSION_TIMEOUT : Z := 0x10.

Definition mclag_domain_cfg_info : struct := Struct false
  [uint32 "op_type"; uint32 "domain_id"; uint32 "keepalive_time"; uint32 "session_timeout";
   bytes "local_ip" INET_ADDRSTRLEN; bytes "peer_ip" INET_ADDRSTRLEN; bytes "peer_ifname" MAX_L_PORT_NAME;
   bytes "system_mac" ETHER_ADDR_LEN; uint32 "attr_bmap"].
Definition mclag_iface_cfg_info : struct := Struct false
  [uint32 "op_type"; uint32 "domain_id"; bytes "mclag_iface" MAX_L_PORT_NAME].
Definition mclag_unique_ip_cfg_info : struct := Struct false
  [uint32 "op_type"; bytes "mclag_unique_ip_ifname" MAX_L_PORT_NAME].
Definition mclag_vlan_mbr_info : struct := Struct false
  [uint32 "op_type"; uint32 "vid"; bytes "mclag_iface" MAX_L_PORT_NAME].

(** [(msg_hdr->len - sizeof(struct IccpSyncdHDr)) / sizeof(..)]: a [size_t] that is
    assigned to an [int]. *)
Definition entry_count (len : Z) (s : struct) : Z :=
  to_int (u64 (len - Z.of_nat (sizeof IccpSyncdHDr)) / Z.of_nat (sizeof s)).

(** The offset of entry [i]. *)
Definition entry_off (s : struct) (i : nat) : nat := (sizeof IccpSyncdHDr + i * sizeof s)%nat.

Definition read_count (s : struct) (buf : list Z) : W nat :=
  len ← oob (rd16 (offsetof IccpSyncdHDr "len") buf); mret (Z.to_nat (entry_count len s)).

Definition entry_int (s : struct) (i : nat) (name : string) (buf : list Z) : W Z :=
  v ← oob (rd32 (entry_off s i + offsetof s name) buf); mret (to_int v).

Definition entry_str (s : struct) (i : nat) (name : string) (buf : list Z) : list Z :=
  string_at (entry_off s i + offsetof s name) buf.

(** ** The domain *)

(** One entry of [iccp_mclagsyncd_mclag_domain_cfg_handler]. *)
Record domain_cfg : Type := DomainCfg {
  dc_op : Z; dc_domain : Z; dc_keepalive : Z; dc_timeout : Z;
  dc_local_ip : list Z; dc_peer_ip : list Z; dc_peer_ifname : list Z; dc_mac : list Z; dc_bmap : Z
}.

Definition read_domain_cfg (i : nat) (buf : list Z) : W domain_cfg :=
  let s := mclag_domain_cfg_info in
  op ← entry_int s i "op_type" buf;
  domain ← entry_int s i "domain_id" buf;
  keepalive ← entry_int s i "keepalive_time" buf;
  timeout ← entry_int s i "session_timeout" buf;
  mac ← oob (rd_bytes (entry_off s i + offsetof s "system_mac") ETHER_ADDR_LEN buf);
  bmap ← entry_int s i "attr_bmap" buf;
  mret (DomainCfg op domain keepalive timeout (entry_str s i "local_ip" buf) (entry_str s i "peer_ip" buf)
          (entry_str s i "peer_ifname" buf) mac bmap).

Definition has_attr (d : domain_cfg) (a : Z) : bool := negb (Z.land (dc_bmap d) a =? 0).

(** A call whose result is ignored. *)
Definition ignore {A} (m : W A) : W unit := _ ← m; mret tt.

Definition domain_set (d : domain_cfg) : W unit :=
  when (dc_op d =? MCLAG_CFG_OPER_ADD)
    (ignore (set_mc_lag_by_id (u16 (dc_domain d)));; ignore (set_local_system_id (fmt_mac (dc_mac d))));;
  when (has_attr d MCLAG_CFG_ATTR_SRC_ADDR) (ignore (set_local_address (dc_domain d) (dc_local_ip d)));;
  when (has_attr d MCLAG_CFG_ATTR_PEER_ADDR) (ignore (set_peer_address (dc_domain d) (dc_peer_ip d)));;
  when (has_attr d MCLAG_CFG_ATTR_PEER_LINK) (ignore (set_peer_link (dc_domain d) (dc_peer_ifname d)));;
  when (has_attr d MCLAG_CFG_ATTR_KEEPALIVE_INTERVAL)
    (ignore (set_keepalive_time (dc_domain d)
               (if negb (dc_keepalive d =? -1) then dc_keepalive d else CONNECT_INTERVAL_SEC)));;
  when (has_attr d MCLAG_CFG_ATTR_SESSION_TIMEOUT)
    (ignore (set_session_timeout (dc_domain d)
               (if negb (dc_timeout d =? -1) then dc_timeout d else HEARTBEAT_TIMEOUT_SEC))).

Definition domain_unset_attr (d : domain_cfg) : W unit :=
  if has_attr d MCLAG_CFG_ATTR_PEER_LINK then ignore (unset_peer_link (dc_domain d))
  else if has_attr d MCLAG_CFG_ATTR_KEEPALIVE_INTERVAL
  then ignore (set_keepalive_time (dc_domain d) CONNECT_INTERVAL_SEC)
  else if has_attr d MCLAG_CFG_ATTR_SESSION_TIMEOUT
  then ignore (set_session_timeout (dc_domain d) HEARTBEAT_TIMEOUT_SEC)
  else if has_attr d MCLAG_CFG_ATTR_SRC_ADDR then ignore (unset_local_address (dc_domain d))
  else when (has_attr d MCLAG_CFG_ATTR_PEER_ADDR) (ignore (unset_peer_address (dc_domain d))).

Definition domain_apply (d : domain_cfg) : W unit :=
  if (dc_op d =? MCLAG_CFG_OPER_ADD) || (dc_op d =? MCLAG_CFG_OPER_UPDATE) then domain_set d
  else if dc_op d =? MCLAG_CFG_OPER_DEL then ignore (unset_mc_lag_by_id (u16 (dc_domain d)))
  else when (dc_op d =? MCLAG_CFG_OPER_ATTR_DEL) (domain_unset_attr d).

(** [iccp_mclagsyncd_mclag_domain_cfg_handler] *)
Definition iccp_mclagsyncd_mclag_domain_cfg_handler (buf : list Z) : W Z :=
  n ← read_count mclag_domain_cfg_info buf;
  mforeach (seq 0 n) (λ i, d ← read_domain_cfg i buf; domain_apply d);;
  mret 0.

(** ** Port channels of the domain *)

(** [iccp_mclagsyncd_mclag_iface_cfg_handler] *)
Definition iccp_mclagsyncd_mclag_iface_cfg_handler (buf : list Z) : W Z :=
  let s := mclag_iface_cfg_info in
  n ← read_count s buf;
  mforeach (seq 0 n) (λ i,
    op ← entry_int s i "op_type" buf;
    domain ← entry_int s i "domain_id" buf;
    let iface := entry_str s i "mclag_iface" buf in
    if op =? MCLAG_CFG_OPER_ADD then ignore (iccp_cli_attach_mclag_domain_to_port_channel domain iface)
    else when (op =? MCLAG_CFG_OPER_DEL) (ignore (iccp_cli_detach_mclag_domain_to_port_channel iface)));;
  mret 0.

(** ** Unique addresses *)

(** [sync_add], [is_v4] and [is_v6] are declared before the loop: an entry sees what
    the entries before it left. *)
Record unique_ip_vars : Type := UniqueIp { ui_add : Z; ui_v4 : bool; ui_v6 : bool }.

(** The list of names; [None] when out of memory. *)
Definition unique_ip_list (op : Z) (name : list Z) : W bool :=
  l ← gets (λ w, unq_ip_if_list (w_sys w));
  if op =? MCLAG_CFG_OPER_ADD then
    if existsb (λ x, str_eqb x name) l then mret true
    else
      r ← sys (SysMalloc 40);
      if r =? 0 then mret false
      else sys_upd (set unq_ip_if_list (cons (snprintf_s MAX_L_PORT_NAME name)));; mret true
  else
    when (op =? MCLAG_CFG_OPER_DEL)
      (match list_find (λ x, str_eqb x name = true) l with
       | Some (i, _) => sys_upd (set unq_ip_if_list (delete i))
       | None => mret tt
       end);;
    mret true.

Definition unique_ip_lif (op : Z) (lif : ptr) (v : unique_ip_vars) : W unique_ip_vars :=
  l ← deref w_lifs lif;
  let set_vars (add : Z) : unique_ip_vars :=
    UniqueIp add (ui_v4 v || negb (lif_ipv4_addr l =? 0)) (ui_v6 v || negb (lif_prefixlen_v6 l =? 0)) in
  v ← (if op =? MCLAG_CFG_OPER_ADD then
         lif_upd lif (set lif_is_l3_proto_enabled (λ _, true));; mret (set_vars 1)
       else if op =? MCLAG_CFG_OPER_DEL then
         lif_upd lif (set lif_is_l3_proto_enabled (λ _, false));; mret (set_vars 0)
       else mret v);
  let announce := ignore (syn_local_neigh_mac_info_to_peer lif (ui_add v) (ui_v4 v) (ui_v6 v) true 1 0) in
  (if is_l3 l then
     when (negb (ui_add v =? 0)) (update_vlan_if_mac_on_standby lif);; announce
   else when (ui_add v =? 0) (recover_vlan_if_mac_on_standby lif None;; announce));;
  mret v.

(** The loop: [false] for [return -1]. *)
Fixpoint unique_ip_walk (buf : list Z) (i n : nat) (v : unique_ip_vars) : W bool :=
  match n with
  | O => mret true
  | S n' =>
      let s := mclag_unique_ip_cfg_info in
      op ← entry_int s i "op_type" buf;
      let name := entry_str s i "mclag_unique_ip_ifname" buf in
      ok ← unique_ip_list op name;
      if negb ok then mret false
      else
        lif ← local_if_find_by_name name;
        v ← (if lif =? NULL then mret v else unique_ip_lif op lif v);
        unique_ip_walk buf (S i) n' v
  end.

(** [iccp_mclagsyncd_mclag_unique_ip_cfg_handler] *)
Definition iccp_mclagsyncd_mclag_unique_ip_cfg_handler (buf : list Z) : W Z :=
  n ← read_count mclag_unique_ip_cfg_info buf;
  ok ← unique_ip_walk buf 0 n (UniqueIp 0 false false);
  mret (if (ok : bool) then 0 else -1).

(** ** VLAN members and MAC addresses *)

(** [iccp_mclagsyncd_vlan_mbr_update_handler] *)
Definition iccp_mclagsyncd_vlan_mbr_update_handler (buf : list Z) : W Z :=
  let s := mclag_vlan_mbr_info in
  n ← read_count s buf;
  mforeach (seq 0 n) (λ i,
    op ← entry_int s i "op_type" buf;
    v ← oob (rd32 (entry_off s i + offsetof s "vid") buf);
    let iface := entry_str s i "mclag_iface" buf in
    if op =? MCLAG_CFG_OPER_ADD then vlan_mbrship_change_handler v iface true
    else when (op =? MCLAG_CFG_OPER_DEL) (vlan_mbrship_change_handler v iface false));;
  mret 0.

(** [iccp_receive_fdb_handler_from_syncd]; the members are converted to the types of
    the parameters of [do_mac_update_from_syncd]. *)
Definition iccp_receive_fdb_handler_from_syncd (buf : list Z) : W Z :=
  let s := mclag_fdb_info in
  n ← read_count s buf;
  mforeach (seq 0 n) (λ i,
    addr ← oob (rd_bytes (entry_off s i + offsetof s "mac") ETHER_ADDR_LEN buf);
    v ← oob (rd32 (entry_off s i + offsetof s "vid") buf);
    type ← oob (rd16 (entry_off s i + offsetof s "type") buf);
    op ← oob (rd16 (entry_off s i + offsetof s "op_type") buf);
    do_mac_update_from_syncd addr (u16 v) (entry_str s i "port_name" buf) (u8 type) (u8 op));;
  mret 0.

(** ** Dispatch *)

(** The handler of a message type; whether there is one. *)
Definition syncd_dispatch (type : Z) (buf : list Z) : W bool :=
  if type =? MCLAG_SYNCD_MSG_TYPE_FDB_OPERATION then _ ← iccp_receive_fdb_handler_from_syncd buf; mret true
  else if type =? MCLAG_SYNCD_MSG_TYPE_CFG_MCLAG_DOMAIN then
    _ ← iccp_mclagsyncd_mclag_domain_cfg_handler buf; mret true
  else if type =? MCLAG_SYNCD_MSG_TYPE_CFG_MCLAG_IFACE then
    _ ← iccp_mclagsyncd_mclag_iface_cfg_handler buf; mret true
  else if type =? MCLAG_SYNCD_MSG_TYPE_CFG_MCLAG_UNIQUE_IP then
    _ ← iccp_mclagsyncd_mclag_unique_ip_cfg_handler buf; mret true
  else if type =? MCLAG_SYNCD_MSG_TYPE_VLAN_MBR_UPDATES then
    _ ← iccp_mclagsyncd_vlan_mbr_update_handler buf; mret true
  else mret false.

(** [system_syncdrx_to_dbg_msg_type] and [SYSTEM_SET_SYNCD_RX_DBG_COUNTER] *)
Definition SYNCD_RX_DBG_CNTR_MSG_MAX : Z := 5.
Definition system_syncdrx_to_dbg_msg_type (msg_type : Z) : Z :=
  if msg_type =? MCLAG_SYNCD_MSG_TYPE_FDB_OPERATION then 0
  else if msg_type =? MCLAG_SYNCD_MSG_TYPE_CFG_MCLAG_DOMAIN then 1
  else if msg_type =? MCLAG_SYNCD_MSG_TYPE_CFG_MCLAG_IFACE then 2
  else if msg_type =? MCLAG_SYNCD_MSG_TYPE_CFG_MCLAG_UNIQUE_IP then 3
  else if msg_type =? MCLAG_SYNCD_MSG_TYPE_VLAN_MBR_UPDATES then 4
  else SYNCD_RX_DBG_CNTR_MSG_MAX.

Definition SYSTEM_SET_SYNCD_RX_DBG_COUNTER (msg_type status : Z) : W unit :=
  let t := system_syncdrx_to_dbg_msg_type msg_type in
  when ((t <? SYNCD_RX_DBG_CNTR_MSG_MAX) && (status <? 2))
    (sys_upd (set syncd_rx_counters (λ m, <[(t, status) := u64 (default 0 (m !! (t, status)) + 1)]> m))).
