(* ===== verification/MlacpFsm.v ===== *)
(** * The mLACP state machine ([mlacp_fsm.c])

    Once the connection is operational, the two nodes synchronise: in stage 1 the
    active node sends everything it knows, in stage 2 the standby node does, and
    in the exchange state each node sends what changes.  The senders, the
    receivers, the handlers of each state, and the transition. *)

From S2P Require Import Prelude CMem CString MsgFormat State Machine IccpMsg IccpQueue SyncPrepare.
From S2P Require Import Port Syncd Standby MacTable MacUpdate LinkHandler NeighUpdate.
From S2P Require Import SyncUpdate AppCsm IccpCsm.
#[local] Open Scope Z_scope.

Definition MAX_MAC_ENTRY_NUM : nat := 30.
Definition MAX_NEIGH_ENTRY_NUM : nat := 40.
Definition MLACP_LOCAL_IF_DOWN_TIMER : Z := 600.
Definition WARM_REBOOT_TIMEOUT : Z := 90.

(** ** Sending *)

(** [memset(g_csm_buf, ..); len = mlacp_prepare_..(..); iccp_csm_send(.., len)] *)
Definition prepare_and_send (c : ptr) (f : list Z → nat → W (Z * list Z)) : W Z :=
  clear_csm_buf;;
  msg_len ← in_csm_buf f;
  b ← gets w_csm_buf;
  iccp_csm_send c b msg_len.

(** [mlacp_sync_send_sysConf] *)
Definition mlacp_sync_send_sysConf (c : ptr) : W unit :=
  _ ← build_and_send c (mlacp_prepare_for_sys_config c); mret tt.

(** A message for each port channel of the node. *)
Definition send_each_po (c : ptr) (f : ptr → list Z → nat → W (Z * list Z))
  (done : LocalInterface → LocalInterface) : W unit :=
  csm ← deref w_csms c;
  mforeach (lif_list (MLACP csm)) (λ p,
    l ← deref w_lifs p;
    when (lif_type l =? IF_T_PORT_CHANNEL)
      (_ ← prepare_and_send c (f p); lif_upd p done)).

(** [mlacp_sync_send_aggConf], [mlacp_sync_send_aggState] and
    [mlacp_sync_send_syncPortChannelInfo] *)
Definition mlacp_sync_send_aggConf (c : ptr) : W unit :=
  send_each_po c (λ p b n, mlacp_prepare_for_Aggport_config c b n p 0) (set lif_port_config_sync (λ _, 0)).
Definition mlacp_sync_send_aggState (c : ptr) : W unit :=
  send_each_po c (λ p b n, mlacp_prepare_for_Aggport_state c b n p) (set lif_changed (λ _, 0)).
Definition mlacp_sync_send_syncPortChannelInfo (c : ptr) : W unit :=
  send_each_po c (λ p b n, mlacp_prepare_for_port_channel_info c b n p) (set lif_changed (λ _, 0)).

(** A deletion that has been prepared: the entry is freed unless the tree holds
    it.  The parent link of a node outside the tree is null; the parent link of
    one inside is null for the root only. *)
Definition mac_free_sent (c p : ptr) : W unit :=
  m ← deref w_macs p;
  when (mac_op_type m =? MAC_SYNC_DEL)
    (csm ← deref w_csms c;
     parent ← (if bool_decide (p ∈ mac_rb (MLACP csm)) then sys (TreeParent p) else mret 0);
     when (parent =? 0)
       (q ← mac_rb_find (mac_key (mac_vid m) (mac_addr m)) (mac_rb (MLACP csm));
        when (q =? NULL) (free w_macs p))).

(** [while (!TAILQ_EMPTY(..)) { first element, removed; .. }], with the variables
    [count] and [msg_len] of the three senders of batches. *)
Fixpoint drain {E} (qu : mLACP → list E) `{!Settable qu} (body : E → nat → W (nat * Z)) (c : ptr)
  (fuel : nat) (count : nat) (msg_len : Z) : W (nat * Z) :=
  match fuel with
  | O => fail OutOfFuel
  | S n =>
      csm ← deref w_csms c;
      match qu (MLACP csm) with
      | [] => mret (count, msg_len)
      | e :: l =>
          mlacp_upd c (set qu (λ _, l));;
          '(count, msg_len) ← body e count;
          drain qu body c n count msg_len
      end
  end.

(** [if (count >= limit)]: the batch is sent and a new one begun. *)
Definition flush_batch (c : ptr) (limit count : nat) (msg_len : Z) : W (nat * Z) :=
  if (limit <=? count)%nat then
    b ← gets w_csm_buf;
    _ ← iccp_csm_send c b msg_len;
    clear_csm_buf;;
    mret (0%nat, msg_len)
  else mret (count, msg_len).

(** What remains after the loop is sent, if anything. *)
Definition send_rest (c : ptr) (r : nat * Z) : W unit :=
  let '(count, msg_len) := r in
  if (count =? 0)%nat then mret tt
  else b ← gets w_csm_buf; _ ← iccp_csm_send c b msg_len; mret tt.

Definition send_batches {E} (qu : mLACP → list E) `{!Settable qu} (body : E → nat → W (nat * Z)) (c : ptr)
  : W unit :=
  clear_csm_buf;;
  csm ← deref w_csms c;
  r ← drain qu body c (S (length (qu (MLACP csm)))) 0 0;
  send_rest c r.

(** [mlacp_sync_send_syncMacInfo] *)
Definition send_mac (c p : ptr) (count : nat) : W (nat * Z) :=
  mac_upd p (set mac_in_msg_list (λ _, false));;
  msg_len ← in_csm_buf (λ b n, mlacp_prepare_for_mac_info_to_peer c b n p count);
  mac_free_sent c p;;
  flush_batch c MAX_MAC_ENTRY_NUM (S count) msg_len.

Definition mlacp_sync_send_syncMacInfo (c : ptr) : W unit := send_batches mac_msg_list (send_mac c) c.

(** [mlacp_sync_send_syncArpInfo] and [mlacp_sync_send_syncNdiscInfo] *)
Definition send_neigh (f : list Z → nat → list Z → nat → W (Z * list Z)) (c : ptr) (m : Msg) (count : nat)
  : W (nat * Z) :=
  msg_len ← in_csm_buf (λ b n, f b n (msg_buf m) count);
  flush_batch c MAX_NEIGH_ENTRY_NUM (S count) msg_len.

Definition mlacp_sync_send_syncArpInfo (c : ptr) : W unit :=
  send_batches arp_msg_list (send_neigh (mlacp_prepare_for_arp_info c) c) c.

Definition mlacp_sync_send_syncNdiscInfo (c : ptr) : W unit :=
  send_batches ndisc_msg_list (send_neigh (mlacp_prepare_for_ndisc_info c) c) c.

(** [mlacp_sync_send_syncPeerLinkInfo] *)
Definition mlacp_sync_send_syncPeerLinkInfo (c : ptr) : W unit :=
  csm ← deref w_csms c;
  if peer_link_if csm =? NULL then mret tt
  else _ ← prepare_and_send c (λ b n, mlacp_prepare_for_port_peerlink_info c b n (peer_link_if csm)); mret tt.

(** [mlacp_sync_send_heartbeat] *)
Definition mlacp_sync_send_heartbeat (c : ptr) : W unit :=
  csm ← deref w_csms c;
  due ← (if heartbeat_send_time csm =? 0 then mret true
         else now ← sys SysTime; mret (now - heartbeat_send_time csm >? keepalive_time csm));
  when due
    (_ ← prepare_and_send c (mlacp_prepare_for_heartbeat c);
     t ← sys SysTime;
     csm_upd c (set heartbeat_send_time (λ _, t))).

(** [mlacp_sync_send_syncDoneData] *)
Definition mlacp_sync_send_syncDoneData (c : ptr) : W unit :=
  mlacp_upd c (set wait_for_sync_data (λ _, 0));;
  _ ← prepare_and_send c (λ b n, mlacp_prepare_for_sync_data_tlv c b n 1);
  mret tt.

(** [mlacp_fsm_send_if_up_ack] *)
Definition mlacp_fsm_send_if_up_ack (c : ptr) (if_type if_id iso : Z) : W unit :=
  csm ← deref w_csms c;
  if negb (mlacp_current_state (MLACP csm) =? MLACP_STATE_EXCHANGE) then mret tt
  else _ ← build_and_send c (λ b n, mlacp_prepare_for_if_up_ack c b n if_type if_id iso); mret tt.

(** [mlacp_sync_sender_handler] *)
Definition mlacp_sync_sender_handler (c : ptr) : W unit :=
  csm ← deref w_csms c;
  let s := sync_state (MLACP csm) in
  if s =? MLACP_SYNC_SYSCONF then mlacp_sync_send_sysConf c
  else if s =? MLACP_SYNC_AGGCONF then mlacp_sync_send_aggConf c
  else if s =? MLACP_SYNC_AGGSTATE then mlacp_sync_send_aggState c
  else if s =? MLACP_SYNC_AGGINFO then mlacp_sync_send_syncPortChannelInfo c
  else if s =? MLACP_SYNC_PEERLINKINFO then mlacp_sync_send_syncPeerLinkInfo c
  else if s =? MLACP_SYNC_ARP_INFO then mlacp_sync_send_syncArpInfo c
  else if s =? MLACP_SYNC_NDISC_INFO then mlacp_sync_send_syncNdiscInfo c
  else if s =? MLACP_SYNC_DONE then mlacp_sync_send_syncDoneData c
  else mret tt.

(** [mlacp_sync_send_all_info_handler]: one round of the loop, and the loop, which
    goes once through the states [MLACP_SYNC_SYSCONF] to [MLACP_SYNC_DONE]. *)
Definition send_all_round (c : ptr) : W bool :=
  mlacp_sync_sender_handler c;;
  csm ← deref w_csms c;
  if negb (sync_state (MLACP csm) =? MLACP_SYNC_DONE) then
    mlacp_upd c (set sync_state Z.succ);; mret true
  else
    mlacp_upd c (λ m, m <| wait_for_sync_data := 0 |> <| mlacp_current_state ::= Z.succ |>);;
    mret false.

Definition SEND_ALL_ROUNDS : nat := 8.

Definition mlacp_sync_send_all_info_handler (c : ptr) : W unit :=
  _ ← prepare_and_send c (λ b n, mlacp_prepare_for_sync_data_tlv c b n 0);
  mlacp_upd c (set sync_state (λ _, MLACP_SYNC_SYSCONF));;
  mwhile SEND_ALL_ROUNDS (send_all_round c).

(** ** Negative acknowledgements *)

(** [mlacp_sync_send_nak_handler] *)
Definition mlacp_sync_send_nak_handler (c : ptr) (m : Msg) : W unit :=
  clear_csm_buf;;
  id ← oob (rd32 (offsetof LDPHdr "msg_id") (msg_buf m));
  csm_upd c (set app_csm (set invalid_msg_id (λ _, ntohl id)));;
  len ← in_csm_buf (app_csm_prepare_nak_msg c);
  b ← gets w_csm_buf;
  _ ← iccp_csm_send c b len;
  mret tt.

(** [mlacp_sync_recv_nak_handler] *)
Definition mlacp_sync_recv_nak_handler (c : ptr) (m : Msg) : W unit :=
  rej ← oob (rd32 (tlv_off NAKTLV "rejected_msg_id") (msg_buf m));
  csm ← deref w_csms c;
  let tlvType := default (u16 (-1)) (log_tlv <$> log_find (ntohl rej) (msg_log csm)) in
  if tlvType =? TLV_T_MLACP_SYSTEM_CONFIG
  then mlacp_upd c (λ m, m <| node_id ::= λ n, u8 (n - 1) |> <| system_config_changed := 1 |>)
  else mlacp_upd c (set need_to_sync (λ _, 1)).

(** ** Receiving *)

(** [icc_param->type] and [icc_hdr->ldp_hdr.msg_type] of a queued message, whose
    bit-field units are in host order. *)
Definition param_type (m : Msg) : W Z := w ← oob (rd16 (sizeof ICCHdr) (msg_buf m)); mret (bits_get w 0 14).
Definition header_type (m : Msg) : W Z := w ← oob (rd16 0 (msg_buf m)); mret (bits_get w 0 15).

(** [MLACP_SET_ICCP_RX_DBG_COUNTER(csm, tlv->icc_parameter.type, status)] *)
Definition count_rx (c : ptr) (m : Msg) (status : Z) : W unit :=
  t ← param_type m; MLACP_SET_ICCP_RX_DBG_COUNTER c t status.

(** An update that answers [MCLAG_ERROR] is rejected. *)
Definition recv_or_nak (c : ptr) (m : Msg) (update : W Z) : W unit :=
  r ← update;
  if r =? MCLAG_ERROR then mlacp_sync_send_nak_handler c m;; count_rx c m ICCP_DBG_CNTR_STS_ERR
  else count_rx c m ICCP_DBG_CNTR_STS_OK.

(** [mlacp_sync_recv_sysConf] and [mlacp_sync_recv_aggConf] *)
Definition mlacp_sync_recv_sysConf (c : ptr) (m : Msg) : W unit :=
  recv_or_nak c m (mlacp_fsm_update_system_conf c (msg_buf m)).
Definition mlacp_sync_recv_aggConf (c : ptr) (m : Msg) : W unit :=
  recv_or_nak c m (mlacp_fsm_update_Agg_conf c (msg_buf m)).

(** [mlacp_sync_recv_aggState] *)
Definition mlacp_sync_recv_aggState (c : ptr) (m : Msg) : W unit :=
  recv_or_nak c m (mlacp_fsm_update_Aggport_state c (msg_buf m));;
  agg_state ← oob (rd8 (tlv_off mLACPAggPortStateTLV "agg_state") (msg_buf m));
  agg_id ← oob (rd16 (tlv_off mLACPAggPortStateTLV "agg_id") (msg_buf m));
  when (agg_state =? PORT_STATE_UP)
    (mlacp_fsm_send_if_up_ack c IF_UP_ACK_TYPE_PORT_CHANNEL (ntohs agg_id) PORT_ISOLATION_STATE_ENABLE).

(** [mlacp_sync_recv_syncData] *)
Definition mlacp_sync_recv_syncData (c : ptr) (m : Msg) : W unit :=
  flags ← oob (rd16 (tlv_off mLACPSyncDataTLV "flags") (msg_buf m));
  when (ntohs flags =? 1) (mlacp_upd c (set wait_for_sync_data (λ _, 0)));;
  count_rx c m ICCP_DBG_CNTR_STS_OK.

(** [mlacp_sync_recv_syncReq] *)
Definition mlacp_sync_recv_syncReq (c : ptr) (m : Msg) : W unit :=
  n ← oob (rd16 (tlv_off mLACPSyncReqTLV "req_num") (msg_buf m));
  mlacp_upd c (set sync_req_num (λ _, ntohs n));;
  mlacp_sync_send_all_info_handler c;;
  count_rx c m ICCP_DBG_CNTR_STS_OK.

(** The number of entries of a message, checked against its length; a message
    that is too short is dropped. *)
Definition checked_entries (m : Msg) (tlv : struct) (count_field : string) (entry_size : nat)
  (k : W unit) : W unit :=
  if msg_len m <? Z.of_nat (sizeof ICCHdr + sizeof tlv) then mret tt
  else
    n ← oob (rd16 (tlv_off tlv count_field) (msg_buf m));
    if Z.of_nat (sizeof ICCHdr + sizeof tlv) + ntohs n * Z.of_nat entry_size >? msg_len m then mret tt
    else k.

(** [mlacp_sync_recv_portChanInfo] *)
Definition mlacp_sync_recv_portChanInfo (c : ptr) (m : Msg) : W unit :=
  checked_entries m mLACPPortChannelInfoTLV "num_of_vlan_id" (sizeof mLACPVLANData)
    (recv_or_nak c m (mlacp_fsm_update_port_channel_info c (msg_buf m))).

(** [mlacp_sync_recv_peerLlinkInfo] *)
Definition mlacp_sync_recv_peerLlinkInfo (c : ptr) (m : Msg) : W unit :=
  _ ← mlacp_fsm_update_peerlink_info c (msg_buf m); count_rx c m ICCP_DBG_CNTR_STS_OK.

(** [mlacp_sync_recv_macInfo] *)
Definition mlacp_sync_recv_macInfo (c : ptr) (m : Msg) : W unit :=
  checked_entries m mLACPMACInfoTLV "num_of_entry" (sizeof mLACPMACData)
    (mlacp_fsm_update_mac_info_from_peer c (msg_buf m);; count_rx c m ICCP_DBG_CNTR_STS_OK).

(** [mlacp_sync_recv_arpInfo] and [mlacp_sync_recv_ndiscInfo] *)
Definition mlacp_sync_recv_arpInfo (c : ptr) (m : Msg) : W unit :=
  checked_entries m mLACPARPInfoTLV "num_of_entry" (sizeof ARPMsg)
    (_ ← mlacp_fsm_update_arp_info c (msg_buf m); count_rx c m ICCP_DBG_CNTR_STS_OK).
Definition mlacp_sync_recv_ndiscInfo (c : ptr) (m : Msg) : W unit :=
  checked_entries m mLACPNDISCInfoTLV "num_of_entry" (sizeof NDISCMsg)
    (_ ← mlacp_fsm_update_ndisc_info c (msg_buf m); mret tt).

(** [mlacp_sync_recv_heartbeat] and [mlacp_sync_recv_warmboot] *)
Definition mlacp_sync_recv_heartbeat (c : ptr) (m : Msg) : W unit :=
  _ ← mlacp_fsm_update_heartbeat c; count_rx c m ICCP_DBG_CNTR_STS_OK.
Definition mlacp_sync_recv_warmboot (c : ptr) (m : Msg) : W unit :=
  _ ← mlacp_fsm_update_warmboot c; count_rx c m ICCP_DBG_CNTR_STS_OK.

(** [mlacp_fsm_recv_if_up_ack] *)
Definition mlacp_fsm_recv_if_up_ack (c : ptr) (m : Msg) : W unit :=
  if_id ← oob (rd16 (tlv_off mLACPIfUpAckTLV "if_id") (msg_buf m));
  if_type ← oob (rd8 (tlv_off mLACPIfUpAckTLV "if_type") (msg_buf m));
  if if_type =? IF_UP_ACK_TYPE_PORT_CHANNEL then
    local_if ← local_if_find_by_po_id (ntohs if_id);
    (if local_if =? NULL then mret tt
     else
       l ← deref w_lifs local_if;
       when (negb (lif_po_active l =? 0)) (mlacp_link_enable_traffic_distribution local_if));;
    count_rx c m ICCP_DBG_CNTR_STS_OK
  else count_rx c m ICCP_DBG_CNTR_STS_ERR.

(** [mlacp_sync_receiver_handler]; the port TLVs and the STP TLV have receivers
    that do nothing. *)
Definition mlacp_sync_receiver_handler (c : ptr) (msg : option Msg) : W unit :=
  if c =? NULL then mret tt
  else match msg with
  | None => mret tt
  | Some m =>
      t ← param_type m;
      if t =? TLV_T_MLACP_SYSTEM_CONFIG then mlacp_sync_recv_sysConf c m
      else if t =? TLV_T_MLACP_AGGREGATOR_CONFIG then mlacp_sync_recv_aggConf c m
      else if t =? TLV_T_MLACP_AGGREGATOR_STATE then mlacp_sync_recv_aggState c m
      else if t =? TLV_T_MLACP_SYNC_DATA then mlacp_sync_recv_syncData c m
      else if t =? TLV_T_MLACP_SYNC_REQUEST then mlacp_sync_recv_syncReq c m
      else if t =? TLV_T_MLACP_PORT_CHANNEL_INFO then mlacp_sync_recv_portChanInfo c m
      else if t =? TLV_T_MLACP_PEERLINK_INFO then mlacp_sync_recv_peerLlinkInfo c m
      else if t =? TLV_T_MLACP_MAC_INFO then mlacp_sync_recv_macInfo c m
      else if t =? TLV_T_MLACP_ARP_INFO then mlacp_sync_recv_arpInfo c m
      else if t =? TLV_T_MLACP_NDISC_INFO then mlacp_sync_recv_ndiscInfo c m
      else if t =? TLV_T_MLACP_HEARTBEAT then mlacp_sync_recv_heartbeat c m
      else if t =? TLV_T_MLACP_WARMBOOT_FLAG then mlacp_sync_recv_warmboot c m
      else if t =? TLV_T_MLACP_IF_UP_ACK then mlacp_fsm_recv_if_up_ack c m
      else mret tt
  end.

(** ** Timers *)

(** [mlacp_local_lif_state_mac_handler] *)
Definition mlacp_local_lif_state_mac_handler (c : ptr) : W unit :=
  csm ← deref w_csms c;
  mforeach (lif_list (MLACP csm)) (λ p,
    l ← deref w_lifs p;
    if (lif_state l =? PORT_STATE_DOWN) && (lif_type l =? IF_T_PORT_CHANNEL)
       && negb (lif_po_down_time l =? 0) then
      now ← sys SysTime;
      when (now - lif_po_down_time l >? MLACP_LOCAL_IF_DOWN_TIMER)
        (mlacp_local_lif_clear_pending_mac c p;; lif_upd p (set lif_po_down_time (λ _, 0)))
    else mret tt).

(** [mlacp_peer_link_learning_handler] *)
Definition mlacp_peer_link_learning_handler (c : ptr) : W unit :=
  csm ← deref w_csms c;
  if peer_link_if csm =? NULL then mret tt
  else
    l ← deref w_lifs (peer_link_if csm);
    if lif_vlan_count l =? 0 then mret tt
    else if peer_link_learning_retry_time csm =? 0 then mret tt
    else
      now ← sys SysTime;
      when (now - peer_link_learning_retry_time csm >? 2)
        (set_peerlink_learn_kernel c (peer_link_learning_enable csm)).

(** ** Handlers of the states *)

(** [mlacp_stage_sync_send_handler] *)
Definition mlacp_stage_sync_send_handler (c : ptr) (msg : option Msg) : W unit :=
  csm ← deref w_csms c;
  if negb (wait_for_sync_data (MLACP csm) =? 0) then mret tt
  else match msg with
  | None => mret tt
  | Some m =>
      h ← header_type m;
      t ← param_type m;
      if (h =? MSG_T_RG_APP_DATA) && (t =? TLV_T_MLACP_SYNC_REQUEST) then
        n ← oob (rd16 (tlv_off mLACPSyncReqTLV "req_num") (msg_buf m));
        mlacp_upd c (λ x, x <| wait_for_sync_data := 1 |> <| sync_req_num := ntohs n |>);;
        mlacp_sync_send_all_info_handler c
      else mret tt
  end.

(** [mlacp_stage_sync_request_handler] *)
Definition mlacp_stage_sync_request_handler (c : ptr) (msg : option Msg) : W unit :=
  csm ← deref w_csms c;
  if wait_for_sync_data (MLACP csm) =? 0 then
    _ ← prepare_and_send c (mlacp_prepare_for_sync_request_tlv c);
    mlacp_upd c (set wait_for_sync_data (λ _, 1))
  else
    mlacp_sync_receiver_handler c msg;;
    csm ← deref w_csms c;
    when (wait_for_sync_data (MLACP csm) =? 0) (mlacp_upd c (set mlacp_current_state Z.succ)).

(** [mlacp_stage_handler] *)
Definition mlacp_stage_handler (c : ptr) (msg : option Msg) : W unit :=
  csm ← deref w_csms c;
  let active := bool_decide (role_type csm = STP_ROLE_ACTIVE) in
  if mlacp_current_state (MLACP csm) =? MLACP_STATE_STAGE1 then
    if active then mlacp_stage_sync_send_handler c msg else mlacp_stage_sync_request_handler c msg
  else
    if active then mlacp_stage_sync_request_handler c msg else mlacp_stage_sync_send_handler c msg.

(** The parts of [mlacp_exchange_handler]: the requests and the configuration, *)
Definition exchange_config (c : ptr) : W unit :=
  csm ← deref w_csms c;
  when (negb (need_to_sync (MLACP csm) =? 0))
    (mlacp_upd c (set need_to_sync (λ _, 0));;
     _ ← prepare_and_send c (mlacp_prepare_for_sync_request_tlv c); mret tt);;
  csm ← deref w_csms c;
  when (negb (system_config_changed (MLACP csm) =? 0))
    (_ ← prepare_and_send c (mlacp_prepare_for_sys_config c);
     mlacp_sync_send_syncPeerLinkInfo c;;
     mlacp_upd c (set system_config_changed (λ _, 0))).

(** the interfaces that were unbound, *)
Definition exchange_purge (c : ptr) : W unit :=
  csm ← deref w_csms c;
  mforeach (lif_purge_list (MLACP csm)) (λ p,
    _ ← prepare_and_send c (λ b n, mlacp_prepare_for_Aggport_config c b n p 1);
    l ← deref w_lifs p;
    when ((lif_type l =? IF_T_PORT_CHANNEL) && lif_is_traffic_disable l)
      (mlacp_link_enable_traffic_distribution p);;
    mlacp_upd c (set lif_purge_list (list_del p))).

(** and the interfaces whose configuration or state changed. *)
Definition exchange_lif (c p : ptr) : W unit :=
  l ← deref w_lifs p;
  when ((lif_type l =? IF_T_PORT_CHANNEL) && negb (lif_port_config_sync l =? 0))
    (when (lif_po_active l =? 0) (mlacp_link_disable_traffic_distribution p);;
     _ ← prepare_and_send c (λ b n, mlacp_prepare_for_Aggport_config c b n p 0);
     _ ← prepare_and_send c (λ b n, mlacp_prepare_for_port_channel_info c b n p);
     lif_upd p (set lif_port_config_sync (λ _, 0)));;
  l ← deref w_lifs p;
  when ((lif_type l =? IF_T_PORT_CHANNEL) && negb (lif_changed l =? 0))
    (rc ← prepare_and_send c (λ b n, mlacp_prepare_for_Aggport_state c b n p);
     when (rc >? 0) (lif_upd p (set lif_changed (λ _, 0)))).

(** [mlacp_exchange_handler] *)
Definition mlacp_exchange_handler (c : ptr) (msg : option Msg) : W unit :=
  match msg with
  | None => mret tt
  | Some m => h ← header_type m; when (h =? MSG_T_RG_APP_DATA) (mlacp_sync_receiver_handler c (Some m))
  end;;
  exchange_config c;;
  exchange_purge c;;
  csm ← deref w_csms c;
  mforeach (lif_list (MLACP csm)) (exchange_lif c);;
  mlacp_sync_send_syncMacInfo c;;
  mlacp_sync_send_syncArpInfo c;;
  mlacp_sync_send_syncNdiscInfo c;;
  csm ← deref w_csms c;
  if peer_warm_reboot_time csm =? 0 then mret tt
  else
    now ← sys SysTime;
    when (now - peer_warm_reboot_time csm >=? WARM_REBOOT_TIMEOUT)
      (csm_upd c (set peer_warm_reboot_time (λ _, 0))).

(** ** Transition *)

(** The session is torn down: pending messages are dropped. *)
Definition mlacp_torn_down (c : ptr) : W unit :=
  csm ← deref w_csms c;
  if mlacp_current_state (MLACP csm) =? MLACP_STATE_INIT then mret tt
  else
    mlacp_upd c (λ m, m <| mlacp_msg_list := [] |> <| arp_msg_list := [] |> <| ndisc_msg_list := [] |>);;
    mlacp_mac_msg_queue_reinit c;;
    mlacp_upd c (set mlacp_current_state (λ _, MLACP_STATE_INIT));;
    when (sock_fd csm >? 0)
      (scheduler_csm_socket_cleanup c;;
       sys_upd (set socket_cleanup_counter (λ n, u32 (n + 1)))).

(** The parts of a round after the message has been taken: the state is compared
    with that of the round before, *)
Definition mlacp_enter_state (c : ptr) : W unit :=
  csm ← deref w_csms c;
  let s := mlacp_current_state (MLACP csm) in
  prev ← gets w_prev_state;
  if prev =? s then mret tt
  else
    when (s =? MLACP_STATE_EXCHANGE) (mlacp_peer_conn_handler c);;
    csm ← deref w_csms c;
    modify (set w_prev_state (λ _, mlacp_current_state (MLACP csm))).

(** the initial state is left, *)
Definition mlacp_leave_init (c : ptr) : W unit :=
  csm ← deref w_csms c;
  if negb (mlacp_current_state (MLACP csm) =? MLACP_STATE_INIT) then mret tt
  else
    mlacp_upd c (λ m, m <| wait_for_sync_data := 0 |> <| mlacp_current_state := MLACP_STATE_STAGE1 |>);;
    mlacp_resync_arp c;;
    mlacp_resync_ndisc c.

(** and the handler of the state is called. *)
Definition mlacp_fsm_switch (c : ptr) (msg : option Msg) : W unit :=
  csm ← deref w_csms c;
  let s := mlacp_current_state (MLACP csm) in
  if (s =? MLACP_STATE_STAGE1) || (s =? MLACP_STATE_STAGE2) then mlacp_stage_handler c msg
  else when (s =? MLACP_STATE_EXCHANGE) (mlacp_exchange_handler c msg).

Definition mlacp_fsm_step (c : ptr) (msg : option Msg) : W unit :=
  mlacp_enter_state c;; mlacp_leave_init c;; mlacp_fsm_switch c msg.

(** One round of the loop; the result is [have_msg].  The state is
    [MLACP_STATE_INIT] only in the first round, when no message has been taken. *)
Definition mlacp_fsm_round (c : ptr) : W bool :=
  csm ← deref w_csms c;
  if mlacp_current_state (MLACP csm) =? MLACP_STATE_INIT then mlacp_fsm_step c None;; mret true
  else
    msg ← mlacp_dequeue_msg c;
    match msg with
    | None => mlacp_fsm_step c None;; mret false
    | Some m =>
        h ← header_type m;
        t ← param_type m;
        (if (h =? MSG_T_NOTIFICATION) && (t =? TLV_T_NAK) then mlacp_sync_recv_nak_handler c m
         else mlacp_fsm_step c (Some m));;
        mret true
    end.

(** [mlacp_fsm_transit] *)
Definition mlacp_fsm_transit (c : ptr) : W unit :=
  if c =? NULL then mret tt
  else
    csm ← deref w_csms c;
    if (sock_fd csm <=? 0) || negb (bool_decide (app_current_state (app_csm csm) = APP_OPERATIONAL))
    then mlacp_torn_down c
    else
      (if warm_reboot_disconn_time csm =? 0 then mret tt
       else
         now ← sys SysTime;
         when (now - warm_reboot_disconn_time csm >=? WARM_REBOOT_TIMEOUT)
           (csm_upd c (set warm_reboot_disconn_time (λ _, 0));; mlacp_peer_disconn_handler c));;
      mlacp_sync_send_heartbeat c;;
      mlacp_local_lif_state_mac_handler c;;
      mlacp_peer_link_learning_handler c;;
      csm ← deref w_csms c;
      mwhile (length (mlacp_msg_list (MLACP csm)) + 3) (mlacp_fsm_round c).
