(* ===== verification/Scheduler.v ===== *)
(** * The scheduler ([scheduler.c])

    Receiving from the socket of a session, accepting a session, the signal that
    announces a warm reboot, and one pass over all state machines. *)

From S2P Require Import Prelude CMem CString MsgFormat State Machine IccpMsg IccpQueue SyncPrepare.
From S2P Require Import Port Syncd Standby MacTable LinkHandler AppCsm IccpCsm MlacpFsm.
#[local] Open Scope Z_scope.

Definition RECV_RETRY_MAX : Z := 10.
Definition RECV_RETRY_INTERVAL_USEC : Z := 100000.
Definition MSG_DONTWAIT : Z := 0x40.

(** ** Receiving *)

(** The bytes of a successful [recv]. *)
Fixpoint recv_bytes (fd i : Z) (n : nat) : W (list Z) :=
  match n with
  | O => mret []
  | S n' => b ← sys (SysRecvByte fd i); l ← recv_bytes fd (i + 1) n'; mret (u8 b :: l)
  end.

(** [recv(fd, &g_csm_buf[off], len, flags)]: it stores at most [len] bytes and
    returns their number; a negative reply [- e] stands for [-1] and [errno == e]. *)
Definition recv_at (fd : Z) (off : nat) (len flags : Z) : W Z :=
  r ← sys (SysRecv fd len flags);
  if r <=? 0 then mret r
  else
    let n := Z.min r len in
    bs ← recv_bytes fd 0 (Z.to_nat n);
    b ← gets w_csm_buf;
    b ← oob (put off bs b);
    modify (set w_csm_buf (λ _, b));;
    mret n.

(** The loop that reads the header: whether it was read. *)
Fixpoint recv_header (fd : Z) (fuel : nat) (recv_len : Z) : W bool :=
  match fuel with
  | O => fail OutOfFuel
  | S n =>
      let size := Z.of_nat (sizeof LDPHdr) in
      if recv_len =? size then mret true
      else
        len ← recv_at fd (Z.to_nat recv_len) (size - recv_len) 0;
        if len <? 0 then
          sys_upd (set rx_peer_hdr_read_sock_err_counter (λ n, u32 (n + 1)));; mret false
        else if len =? 0 then
          sys_upd (set rx_peer_hdr_read_sock_zero_len_counter (λ n, u32 (n + 1)));; mret false
        else recv_header fd n (recv_len + len)
  end.

(** The state of the loop that reads the data. *)
Record recv_state : Type := RecvState {
  rs_data_len : Z;
  rs_pos : Z;
  rs_num_retry : Z;
  rs_total_retry_time : Z
}.

(** The wait before the next attempt. *)
Definition recv_retry (csm : CSM) (s : recv_state) : W (option recv_state) :=
  let n := rs_num_retry s + 1 in
  if n >? RECV_RETRY_MAX then
    sys_upd (set rx_retry_fail_counter (λ k, u32 (k + 1)));; mret None
  else if n =? RECV_RETRY_MAX then
    _ ← sys (SysUsleep (u32 (session_timeout csm * 1000000 - rs_total_retry_time s)));
    mret (Some (RecvState (rs_data_len s) (rs_pos s) n (rs_total_retry_time s)))
  else
    let t := n * RECV_RETRY_INTERVAL_USEC in
    _ ← sys (SysUsleep t);
    mret (Some (RecvState (rs_data_len s) (rs_pos s) n (rs_total_retry_time s + t))).

(** The loop that reads the data: [None] for [goto recv_err], else the number of
    retries. *)
Fixpoint recv_data (csm : CSM) (fuel : nat) (s : recv_state) : W (option Z) :=
  match fuel with
  | O => fail OutOfFuel
  | S n =>
      if rs_data_len s <=? 0 then mret (Some (rs_num_retry s))
      else
        r ← recv_at (sock_fd csm) (sizeof LDPHdr + Z.to_nat (rs_pos s)) (rs_data_len s) MSG_DONTWAIT;
        if r <? 0 then
          if r =? - EAGAIN then
            s' ← recv_retry csm s;
            match s' with None => mret None | Some s' => recv_data csm n s' end
          else sys_upd (set rx_peer_tlv_read_sock_err_counter (λ n, u32 (n + 1)));; mret None
        else if r =? 0 then
          sys_upd (set rx_peer_tlv_read_sock_zero_len_counter (λ n, u32 (n + 1)));; mret None
        else recv_data csm n (RecvState (rs_data_len s - r) (rs_pos s + r) (rs_num_retry s)
                                        (rs_total_retry_time s))
  end.

(** [SYSTEM_SET_RETRY_COUNTER] *)
Definition set_retry_counter (num_retry : Z) (s : System) : System :=
  s <| rx_retry_total_counter ::= λ n, u32 (n + num_retry) |>
    <| rx_retry_max_counter ::= λ n, if num_retry >? n then num_retry else n |>.

(** The whole message in [g_csm_buf]: its length, or [None] for [goto recv_err]. *)
Definition recv_message (csm : CSM) : W (option Z) :=
  ok ← recv_header (sock_fd csm) (S (sizeof LDPHdr)) 0;
  if negb ok then mret None
  else
    b ← gets w_csm_buf;
    l ← oob (rd16 (offsetof LDPHdr "msg_len") b);
    if ntohs l <? MSG_L_INCLUD_U_BIT_MSG_T_L_FIELDS then
      sys_upd (set rx_peer_invalid_msg_counter (λ n, u32 (n + 1)));; mret None
    else
      let data_len := ntohs l - MSG_L_INCLUD_U_BIT_MSG_T_L_FIELDS in
      r ← recv_data csm (Z.to_nat (data_len + RECV_RETRY_MAX) + 2) (RecvState data_len 0 0 0);
      match r with
      | None => mret None
      | Some num_retry =>
          when (num_retry >? 0) (sys_upd (set_retry_counter num_retry));;
          b ← gets w_csm_buf;
          l ← oob (rd16 (offsetof LDPHdr "msg_len") b);
          mret (Some (ntohs l + MSG_L_INCLUD_U_BIT_MSG_T_L_FIELDS))
      end.

(** The message of [len] bytes in the buffer is queued. *)
Definition csm_read_message (c : ptr) (b : list Z) (len : Z) : W unit :=
  msg ← iccp_csm_init_msg b len;
  match msg with
  | Some m => iccp_csm_enqueue_msg c (Some m);; csm_upd c (set icc_msg_in_count (λ n, u64 (n + 1)))
  | None => csm_upd c (set i_msg_in_count (λ n, u64 (n + 1)))
  end.

(** [scheduler_csm_read_callback] *)
Definition scheduler_csm_read_callback (c : ptr) : W Z :=
  csm ← deref w_csms c;
  if sock_fd csm <=? 0 then mret MCLAG_ERROR
  else
    clear_csm_buf;;
    len ← recv_message csm;
    match len with
    | None => scheduler_session_disconnect_handler c;; mret MCLAG_ERROR
    | Some len =>
        b ← gets w_csm_buf;
        csm_read_message c b len;;
        mret 1
    end.

(** ** Accepting *)

(** [inet_ntoa]; the address is in network order. *)
Definition inet_ntoa (a : Z) : list Z :=
  fmt_d (a mod 256) ++ 46 :: fmt_d (a / 256 mod 256) ++ 46 :: fmt_d (a / 65536 mod 256)
  ++ 46 :: fmt_d (a / 16777216 mod 256).

(** [scheduler_server_accept] *)
Definition scheduler_server_accept : W Z :=
  sfd ← gets (λ w, server_fd (w_sys w));
  if sfd <=? 0 then mret MCLAG_ERROR
  else
    new_fd ← sys (SysAccept sfd);
    c ← (if new_fd =? -1 then mret NULL
         else
           addr ← sys (SysPeerAddr new_fd);
           c ← system_get_csm_by_peer_ip (inet_ntoa addr);
           if c =? NULL then mret NULL
           else
             csm ← deref w_csms c;
             if sock_fd csm >? 0 then mret NULL
             else
               ret ← scheduler_check_csm_config c;
               if ret <? 0 then mret NULL
               else
                 err ← sys (SysEpollAdd new_fd);
                 if negb (err =? 0) then mret NULL else mret c);
    if c =? NULL then
      when (new_fd >=? 0) (_ ← sys (SysClose new_fd); mret tt);;
      mret MCLAG_ERROR
    else
      csm_upd c (set sock_fd (λ _, new_fd));;
      _ ← sys (SysSetsockopt new_fd 7);
      _ ← sys (SysSetsockopt new_fd 8);
      csm_upd c (set current_state (λ _, ICCP_NONEXISTENT));;
      sys_upd (λ s, s <| readfd ::= λ r, {[new_fd]} ∪ r |> <| readfd_count ::= Z.succ |>);;
      mret 0.

(** [scheduler_server_sock_init] *)
Definition scheduler_server_sock_init : W unit :=
  fd ← sys SysSocket;
  sys_upd (set server_fd (λ _, fd));;
  if fd =? -1 then mret tt
  else
    _ ← sys (SysSetsockopt fd 2);
    err ← sys (SysBind fd 0);
    if err <? 0 then mret tt else _ ← sys (SysListen fd); mret tt.

(** ** Warm reboot *)

(** [mlacp_sync_send_warmboot_flag] *)
Definition mlacp_sync_send_warmboot_flag : W unit :=
  cs ← gets (λ w, csm_list (w_sys w));
  mforeach cs (λ c,
    csm ← deref w_csms c;
    when (mlacp_current_state (MLACP csm) =? MLACP_STATE_EXCHANGE)
      (_ ← prepare_and_send c (mlacp_prepare_for_warm_reboot c); mret tt)).

(** [iccp_receive_signal_handler]; the control byte is ['w']. *)
Definition iccp_receive_signal_handler : W Z :=
  fd ← gets (λ w, sig_pipe_r (w_sys w));
  r ← sys (SysReadByte fd);
  if r =? -1 then mret (-1)
  else
    when (r =? 119) (mlacp_sync_send_warmboot_flag;; sys_upd (set warmboot_exit (λ _, WARM_REBOOT)));;
    mret 0.

(** ** One pass over the state machines *)

(** [mlacp_sync_with_kernel_callback] *)
Definition mlacp_sync_with_kernel_callback : W Z :=
  cs ← gets (λ w, csm_list (w_sys w));
  mforeach cs (λ c,
    csm ← deref w_csms c;
    _ ← mforeach_break (lif_list (MLACP csm)) (λ p,
      l ← deref w_lifs p;
      if (lif_type l =? IF_T_PORT_CHANNEL) && negb (memcmp (system_id (MLACP csm)) (lif_mac_addr l) =? 0)
      then
        mlacp_upd c (λ m, m <| system_id := lif_mac_addr l |> <| system_config_changed := 1 |>);;
        mret true
      else mret false);
    mret tt);;
  mret 0.

(** [scheduler_transit_fsm] *)
Definition scheduler_transit_fsm : W Z :=
  cs ← gets (λ w, csm_list (w_sys w));
  mforeach cs (λ c,
    heartbeat_update c;;
    iccp_csm_transit c;;
    app_csm_transit c;;
    mlacp_fsm_transit c);;
  local_if_purge_clear;;
  mret 1.
