(* ===== verification/Control.v ===== *)
(** * The control socket of the daemon ([mlacp_link_handler.c])

    [mclagdctl] connects to a local socket, sends one request and receives one reply:
    the length of the rest, a header and the structures of a show command. *)

From S2P Require Import Prelude CMem CString MsgFormat ShowFormat State Machine Port Show Scheduler.
#[local] Open Scope Z_scope.

(** [mclagd_ctl_cmd_str] *)
Definition mclagd_ctl_cmd_str (req_type : Z) : string :=
  if req_type =? INFO_TYPE_DUMP_STATE then "dump config"
  else if req_type =? INFO_TYPE_DUMP_ARP then "dump arp"
  else if req_type =? INFO_TYPE_DUMP_NDISC then "dump nd"
  else if req_type =? INFO_TYPE_DUMP_MAC then "dump mac"
  else if req_type =? INFO_TYPE_DUMP_LOCAL_PORTLIST then "dump local portlist"
  else if req_type =? INFO_TYPE_DUMP_PEER_PORTLIST then "dump peer portlist"
  else if req_type =? INFO_TYPE_DUMP_DBG_COUNTERS then "dump debug counters"
  else if req_type =? INFO_TYPE_DUMP_UNIQUE_IP then "dump unique_ip"
  else if req_type =? INFO_TYPE_CONFIG_LOGLEVEL then "config loglevel"
  else "error req type".

(** ** The socket *)

(** [mclagd_ctl_sock_create]: [path] is [sys->mclagdctl_file_path]. *)
Definition mclagd_ctl_sock_create (path : list Z) : W Z :=
  old ← gets (λ w, sync_ctrl_fd (w_sys w));
  if old >? 0 then mret old
  else
    fd ← sys SysUnixSocket;
    sys_upd (set sync_ctrl_fd (λ _, fd));;
    if fd <? 0 then mret fd
    else
      _ ← sys (SysUnlink (cstr path));
      ret ← sys (SysUnixBind fd (take 106 (cstr path)) (2 + strlen path));
      if ret <? 0 then _ ← sys (SysClose fd); mret MCLAG_ERROR
      else
        ret ← sys (SysListen fd);
        if ret <? 0 then _ ← sys (SysClose fd); mret MCLAG_ERROR
        else
          _ ← sys (SysEpollAdd fd);
          sys_upd (λ s, s <| readfd ::= λ r, {[fd]} ∪ r |> <| readfd_count ::= Z.succ |>);;
          mret fd.

(** [mclagd_ctl_sock_accept] *)
Definition mclagd_ctl_sock_accept (fd : Z) : W Z :=
  client_fd ← sys (SysAccept fd);
  mret (if client_fd <? 0 then MCLAG_ERROR else client_fd).

(** [mclagd_ctl_sock_read]: the length and the buffer; every round reads a byte. *)
Fixpoint ctl_read_loop (fuel : nat) (fd : Z) (buf : list Z) (read_len total_len : Z) : W (Z * list Z) :=
  match fuel with
  | O => fail OutOfFuel
  | S f =>
      if read_len >=? total_len then mret (read_len, buf)
      else
        ret ← sys (SysSelect fd);
        if ret <=? 0 then mret (MCLAG_ERROR, buf)
        else
          ret ← sys (SysRead fd (total_len - read_len));
          if ret <=? 0 then mret (MCLAG_ERROR, buf)
          else
            let n := Z.min ret (total_len - read_len) in
            bs ← recv_bytes fd 0 (Z.to_nat n);
            buf ← oob (put (Z.to_nat read_len) bs buf);
            ctl_read_loop f fd buf (read_len + n) total_len
  end.

Definition mclagd_ctl_sock_read (fd : Z) (r_buf : list Z) (total_len : Z) : W (Z * list Z) :=
  ctl_read_loop (S (Z.to_nat total_len)) fd r_buf 0 total_len.

(** [mclagd_ctl_sock_write]: every round writes a byte. *)
Fixpoint ctl_write_loop (fuel : nat) (fd : Z) (w_buf : list Z) (write_len total_len : Z) : W Z :=
  match fuel with
  | O => fail OutOfFuel
  | S f =>
      if write_len >=? total_len then mret write_len
      else
        bs ← oob (rd_bytes (Z.to_nat write_len) (Z.to_nat (total_len - write_len)) w_buf);
        ret ← sys (SysWrite fd bs);
        if ret <=? 0 then mret 0
        else ctl_write_loop f fd w_buf (write_len + ret) total_len
  end.

Definition mclagd_ctl_sock_write (fd : Z) (w_buf : list Z) (total_len : Z) : W Z :=
  ctl_write_loop (S (Z.to_nat total_len)) fd w_buf 0 total_len.

(** ** Replies *)

(** The header of a reply, at the start of its buffer *)
Definition reply_stores (info_type data_len exec_result : Z) : list store :=
  let o := offsetof mclagd_reply_hdr in
  [W32 (4 + o "exec_result") exec_result; W32 (4 + o "info_type") info_type; W32 (4 + o "data_len") data_len;
   W32 0 (data_len + Z.of_nat (sizeof mclagd_reply_hdr))].

(** The reply without data, in an array of the handler *)
Definition reply_error (client_fd info_type result : Z) : W unit :=
  buf ← oob (apply_stores (reply_stores info_type 0 result) (replicate 512 0));
  _ ← mclagd_ctl_sock_write client_fd buf (Z.of_nat MCLAGD_REPLY_INFO_HDR);
  mret tt.

(** The reply with data; [data_len] and the length that is written are of the type
    [int]. *)
Definition reply_data (client_fd info_type : Z) (Pbuf : list Z) (data_len : Z) : W unit :=
  let data_len := to_int data_len in
  buf ← oob (apply_stores (reply_stores info_type data_len EXEC_TYPE_SUCCESS) Pbuf);
  _ ← mclagd_ctl_sock_write client_fd buf (to_int (Z.of_nat MCLAGD_REPLY_INFO_HDR + data_len));
  mret tt.

(** The body of the handlers of the dumps: [err_type] is the type they put into an
    error reply.  A successful dump has set the buffer. *)
Definition reply_dump (client_fd info_type err_type : Z) (s : struct) (r : option dump_buf * Z) : W unit :=
  let '(b, ret) := r in
  if negb (ret =? EXEC_TYPE_SUCCESS) then reply_error client_fd err_type ret
  else
    match b with
    | None => fail NullDeref
    | Some d => reply_data client_fd info_type (db_bytes d) (db_num d * Z.of_nat (sizeof s))
    end.

(** [mclagd_ctl_handle_dump_state] *)
Definition mclagd_ctl_handle_dump_state (client_fd mclag_id : Z) : W unit :=
  r ← iccp_mclag_config_dump mclag_id;
  reply_dump client_fd INFO_TYPE_DUMP_STATE INFO_TYPE_DUMP_STATE mclagd_state r.

(** [mclagd_ctl_handle_dump_arp] *)
Definition mclagd_ctl_handle_dump_arp (client_fd mclag_id : Z) : W unit :=
  r ← iccp_arp_dump mclag_id;
  reply_dump client_fd INFO_TYPE_DUMP_ARP INFO_TYPE_DUMP_ARP mclagd_arp_msg r.

(** [mclagd_ctl_handle_dump_ndisc] *)
Definition mclagd_ctl_handle_dump_ndisc (client_fd mclag_id : Z) : W unit :=
  r ← iccp_ndisc_dump mclag_id;
  reply_dump client_fd INFO_TYPE_DUMP_NDISC INFO_TYPE_DUMP_NDISC mclagd_ndisc_msg r.

(** [mclagd_ctl_handle_dump_mac] *)
Definition mclagd_ctl_handle_dump_mac (client_fd mclag_id : Z) : W unit :=
  r ← iccp_mac_dump mclag_id;
  reply_dump client_fd INFO_TYPE_DUMP_MAC INFO_TYPE_DUMP_MAC mclagd_mac_msg r.

(** [mclagd_ctl_handle_dump_local_portlist] *)
Definition mclagd_ctl_handle_dump_local_portlist (client_fd mclag_id : Z) : W unit :=
  r ← iccp_local_if_dump mclag_id;
  reply_dump client_fd INFO_TYPE_DUMP_LOCAL_PORTLIST INFO_TYPE_DUMP_LOCAL_PORTLIST mclagd_local_if r.

(** [mclagd_ctl_handle_dump_peer_portlist] *)
Definition mclagd_ctl_handle_dump_peer_portlist (client_fd mclag_id : Z) : W unit :=
  r ← iccp_peer_if_dump mclag_id;
  reply_dump client_fd INFO_TYPE_DUMP_PEER_PORTLIST INFO_TYPE_DUMP_PEER_PORTLIST mclagd_peer_if r.

(** [mclagd_ctl_handle_dump_dbg_counters] *)
Definition mclagd_ctl_handle_dump_dbg_counters (client_fd mclag_id : Z) : W unit :=
  r ← iccp_cmd_dbg_counter_dump mclag_id;
  match r with
  | inr ret => reply_error client_fd INFO_TYPE_DUMP_DBG_COUNTERS ret
  | inl (Pbuf, data_len) => reply_data client_fd INFO_TYPE_DUMP_DBG_COUNTERS Pbuf data_len
  end.

(** [mclagd_ctl_handle_dump_unique_ip]: an error is answered with another type. *)
Definition mclagd_ctl_handle_dump_unique_ip (client_fd mclag_id : Z) : W unit :=
  r ← iccp_unique_ip_if_dump mclag_id;
  reply_dump client_fd INFO_TYPE_DUMP_UNIQUE_IP INFO_TYPE_DUMP_LOCAL_PORTLIST mclagd_unique_ip_if r.

(** [mclagd_ctl_handle_config_loglevel]; the reply's array is not cleared. *)
Definition mclagd_ctl_handle_config_loglevel (client_fd level : Z) : W unit :=
  logger_set_configuration level;;
  buf ← uninit MCLAGD_REPLY_INFO_HDR;
  buf ← oob (apply_stores (reply_stores INFO_TYPE_CONFIG_LOGLEVEL 0 EXEC_TYPE_SUCCESS) buf);
  _ ← mclagd_ctl_sock_write client_fd buf (Z.of_nat MCLAGD_REPLY_INFO_HDR);
  mret tt.

(** [mclagd_ctl_interactive_process] *)
Definition ctl_dispatch (client_fd info_type mclag_id : Z) : W Z :=
  let done (m : W unit) : W Z := m;; mret 0 in
  if info_type =? INFO_TYPE_DUMP_STATE then done (mclagd_ctl_handle_dump_state client_fd mclag_id)
  else if info_type =? INFO_TYPE_DUMP_ARP then done (mclagd_ctl_handle_dump_arp client_fd mclag_id)
  else if info_type =? INFO_TYPE_DUMP_NDISC then done (mclagd_ctl_handle_dump_ndisc client_fd mclag_id)
  else if info_type =? INFO_TYPE_DUMP_MAC then done (mclagd_ctl_handle_dump_mac client_fd mclag_id)
  else if info_type =? INFO_TYPE_DUMP_LOCAL_PORTLIST then
    done (mclagd_ctl_handle_dump_local_portlist client_fd mclag_id)
  else if info_type =? INFO_TYPE_DUMP_PEER_PORTLIST then
    done (mclagd_ctl_handle_dump_peer_portlist client_fd mclag_id)
  else if info_type =? INFO_TYPE_DUMP_DBG_COUNTERS then
    done (mclagd_ctl_handle_dump_dbg_counters client_fd mclag_id)
  else if info_type =? INFO_TYPE_DUMP_UNIQUE_IP then done (mclagd_ctl_handle_dump_unique_ip client_fd mclag_id)
  else if info_type =? INFO_TYPE_CONFIG_LOGLEVEL then done (mclagd_ctl_handle_config_loglevel client_fd mclag_id)
  else mret MCLAG_ERROR.

Definition mclagd_ctl_interactive_process (client_fd : Z) : W Z :=
  if client_fd <? 0 then mret MCLAG_ERROR
  else
    '(ret, buf) ← mclagd_ctl_sock_read client_fd (replicate 512 0) (Z.of_nat (sizeof mclagdctl_req_hdr));
    if ret <? 0 then mret MCLAG_ERROR
    else
      info_type ← oob (rd32 (offsetof mclagdctl_req_hdr "info_type") buf);
      mclag_id ← oob (rd32 (offsetof mclagdctl_req_hdr "mclag_id") buf);
      ctl_dispatch client_fd (to_int info_type) (to_int mclag_id).

(** The control socket is readable ([iccp_handle_events]). *)
Definition ctl_readable : W unit :=
  fd ← gets (λ w, sync_ctrl_fd (w_sys w));
  client_fd ← mclagd_ctl_sock_accept fd;
  when (client_fd >? 0)
    (_ ← mclagd_ctl_interactive_process client_fd; _ ← sys (SysClose client_fd); mret tt).
