(* ===== verification/SyncdRecv.v ===== *)
(** * Reception from mclagsyncd ([mlacp_link_handler.c])

    [iccp_mclagsyncd_msg_handler] receives what the socket holds and handles the
    messages in it one after the other; the rest of a message that is not there
    completely is received first.  The receive buffer is cleared at every call, so
    it is a local value here. *)

From S2P Require Import Prelude CMem CString MsgFormat State Machine IccpMsg IccpQueue SyncPrepare.
From S2P Require Import Port Syncd Standby MacTable LinkHandler NeighLearn AppCsm IccpCsm Ifm Netlink.
From S2P Require Import Cli SyncdCfg MlacpFsm SyncUpdate Scheduler.
#[local] Open Scope Z_scope.

Definition MCLAG_MAX_MSG_LEN : Z := 4096.
Definition ICCP_MLAGSYNCD_RECV_MSG_BUFFER_SIZE : Z := MCLAG_MAX_MSG_LEN * 256.
Definition SYNCD_RECV_RETRY_MAX : Z := 5.
Definition SYNCD_RECV_RETRY_INTERVAL_USEC : Z := 50000.

(** [recv(sys->sync_fd, msg_buf + off, len, MSG_DONTWAIT)]: the result and the buffer. *)
Definition recv_into (off : Z) (len : Z) (buf : list Z) : W (Z * list Z) :=
  fd ← gets (λ w, sync_fd (w_sys w));
  r ← sys (SysRecv fd len MSG_DONTWAIT);
  if r <=? 0 then mret (r, buf)
  else
    let n := Z.min r len in
    bs ← recv_bytes fd 0 (Z.to_nat n);
    buf ← oob (put (Z.to_nat off) bs buf);
    mret (n, buf).

Definition incr (f : System → Z) `{!Settable f} : W unit := sys_upd (set f (λ n, u32 (n + 1))).

(** ** The first reception *)

Definition syncd_recv (buf : list Z) : W (Z * list Z) :=
  recv_into 0 (ICCP_MLAGSYNCD_RECV_MSG_BUFFER_SIZE - MCLAG_MAX_MSG_LEN) buf.

(** The loop [while (num_bytes_rxed < 0)]: [num_bytes_rxed] is [-1] and what is
    received is added to it; [None] for an error. *)
Fixpoint syncd_recv_retry (fuel : nat) (num_retry : Z) (buf : list Z) : W (option (Z * list Z)) :=
  match fuel with
  | O => fail OutOfFuel
  | S f =>
      '(recv_len, buf) ← syncd_recv buf;
      if recv_len <? 0 then
        if recv_len =? - EAGAIN then
          let num_retry := num_retry + 1 in
          if num_retry >? SYNCD_RECV_RETRY_MAX then incr rx_retry_fail_counter;; mret None
          else
            _ ← sys (SysUsleep SYNCD_RECV_RETRY_INTERVAL_USEC);
            syncd_recv_retry f num_retry buf
        else incr rx_peer_hdr_read_sock_err_counter;; mret None
      else if recv_len =? 0 then incr rx_peer_hdr_read_sock_zero_len_counter;; mret None
      else mret (Some (-1 + recv_len, buf))
  end.

(** The number of bytes received and the buffer. *)
Definition syncd_recv_first (buf : list Z) : W (option (Z * list Z)) :=
  '(num_bytes_rxed, buf) ← syncd_recv buf;
  if num_bytes_rxed =? 0 then incr rx_read_sock_zero_len_counter;; mret None
  else if num_bytes_rxed <? 0 then syncd_recv_retry (Z.to_nat SYNCD_RECV_RETRY_MAX + 2) 0 buf
  else mret (Some (num_bytes_rxed, buf)).

(** ** The rest of a message *)

(** The counters of an error and of a closed connection: those of a header or those
    of a message. *)
Definition count_recv (hdr closed : bool) : W unit :=
  match hdr, closed with
  | true, true => incr rx_peer_hdr_read_sock_zero_len_counter
  | true, false => incr rx_peer_hdr_read_sock_err_counter
  | false, true => incr rx_peer_tlv_read_sock_zero_len_counter
  | false, false => incr rx_peer_tlv_read_sock_err_counter
  end.

(** The loop [while (recv_len < pending_len)]: the bytes go to [base + recv_len].
    Every round receives a byte or counts a retry. *)
Fixpoint syncd_recv_pending (fuel : nat) (hdr : bool) (base pending_len recv_len num_retry : Z) (buf : list Z) :
  W (option (Z * list Z)) :=
  match fuel with
  | O => fail OutOfFuel
  | S f =>
      if recv_len >=? pending_len then mret (Some (num_retry, buf))
      else
        '(len, buf) ← recv_into (base + recv_len) (pending_len - recv_len) buf;
        if len =? 0 then count_recv hdr true;; mret None
        else if len <? 0 then
          if len =? - EAGAIN then
            let num_retry := num_retry + 1 in
            if num_retry >? SYNCD_RECV_RETRY_MAX then incr rx_retry_fail_counter;; mret None
            else
              _ ← sys (SysUsleep SYNCD_RECV_RETRY_INTERVAL_USEC);
              syncd_recv_pending f hdr base pending_len recv_len num_retry buf
          else count_recv hdr false;; mret None
        else syncd_recv_pending f hdr base pending_len (recv_len + len) num_retry buf
  end.

Definition syncd_pending (hdr : bool) (base pending_len num_retry : Z) (buf : list Z) : W (option (Z * list Z)) :=
  syncd_recv_pending (Z.to_nat (pending_len + SYNCD_RECV_RETRY_MAX) + 2) hdr base pending_len 0 num_retry buf.

(** ** The messages *)

(** One message at [pos]: the next position, the retries and the buffer; [None] for
    [return MCLAG_ERROR]. *)
Definition syncd_one_message (rxed pos num_retry : Z) (buf : list Z) : W (option (Z * Z * list Z)) :=
  let hdr := Z.of_nat (sizeof IccpSyncdHDr) in
  let field name := (Z.to_nat pos + offsetof IccpSyncdHDr name)%nat in
  r ← (if rxed - pos <? hdr then syncd_pending true rxed (hdr - (rxed - pos)) num_retry buf
       else mret (Some (num_retry, buf)));
  match r with
  | None => mret None
  | Some (num_retry, buf) =>
      len ← oob (rd16 (field "len") buf);
      if len =? 0 then mret None
      else
        ver ← oob (rd8 (field "ver") buf);
        if negb (ver =? 1) then mret (Some (pos + len, num_retry, buf))
        else
          r ← (if pos + len >? rxed then syncd_pending false rxed (pos + len - rxed) num_retry buf
               else mret (Some (num_retry, buf)));
          match r with
          | None => mret None
          | Some (num_retry, buf) =>
              type ← oob (rd8 (field "type") buf);
              known ← syncd_dispatch type (drop (Z.to_nat pos) buf);
              len ← oob (rd16 (field "len") buf);
              when known (SYSTEM_SET_SYNCD_RX_DBG_COUNTER type ICCP_DBG_CNTR_STS_OK);;
              mret (Some (pos + len, num_retry, buf))
          end
  end.

(** The loop [while (pos < num_bytes_rxed)].  A message whose length the second
    reception overwrote with [0] leaves the position where it is; the bound is that
    of messages that advance. *)
Fixpoint syncd_messages (fuel : nat) (rxed pos num_retry : Z) (buf : list Z) : W Z :=
  match fuel with
  | O => fail OutOfFuel
  | S f =>
      if pos >=? rxed then mret 0
      else
        r ← syncd_one_message rxed pos num_retry buf;
        match r with
        | None => mret MCLAG_ERROR
        | Some (pos, num_retry, buf) => syncd_messages f rxed pos num_retry buf
        end
  end.

(** The receive buffer, cleared before every reception. *)
Definition g_iccp_mlagsyncd_recv_buf : list Z := replicate (Z.to_nat ICCP_MLAGSYNCD_RECV_MSG_BUFFER_SIZE) 0.

(** [iccp_mclagsyncd_msg_handler] *)
Definition iccp_mclagsyncd_msg_handler : W Z :=
  r ← syncd_recv_first g_iccp_mlagsyncd_recv_buf;
  match r with
  | None => mret MCLAG_ERROR
  | Some (rxed, buf) => syncd_messages (S (S (Z.to_nat rxed))) rxed 0 0 buf
  end.
