(* ===== verification/EventLoop.v ===== *)
(** * The event loop ([iccp_netlink.c], [scheduler.c])

    What the daemon does between two waits: it handles the descriptors that
    [epoll_wait] reported, then makes a pass over the state machines.  What the
    sockets deliver is an argument of their handlers. *)

From S2P Require Import Prelude CMem CString MsgFormat State Machine IccpMsg IccpQueue SyncPrepare.
From S2P Require Import Port Syncd Standby MacTable LinkHandler NeighLearn AppCsm IccpCsm Ifm Netlink.
From S2P Require Import Cli SyncdCfg SyncUpdate MlacpFsm Scheduler SyncdRecv Control.
#[local] Open Scope Z_scope.

(** ** Dumps of the kernel *)

(** [iccp_sys_local_if_list_get_init], [iccp_sys_local_if_list_get_addr] and
    [iccp_neigh_get_init] with their handlers: the messages of a dump. *)
Definition iccp_sys_local_if_list_get_init (dump : list route_msg) : W unit :=
  mforeach dump (λ m, match m with NewLink k => iccp_event_handler_obj_input_newlink k | _ => mret tt end).

Definition iccp_sys_local_if_list_get_addr (dump : list route_msg) : W unit :=
  mforeach dump (λ m, match m with NewAddr a => iccp_event_handler_obj_input_newaddr a | _ => mret tt end).

Definition iccp_neigh_get_init (dump : list (list Z)) : W unit :=
  mforeach dump (λ n, _ ← do_one_neigh_request n; mret tt).

(** ** Netlink sockets *)

(** [iccp_netlink_sync_again]: [dump] are the links the kernel reports again. *)
Definition iccp_netlink_sync_again (dump : list route_msg) : W unit :=
  again ← gets (λ w, need_sync_netlink_again (w_sys w));
  when (negb (again =? 0))
    (sys_upd (set need_sync_netlink_again (λ _, 0));; iccp_sys_local_if_list_get_init dump);;
  team ← gets (λ w, need_sync_team_again (w_sys w));
  when (negb (team =? 0))
    (sys_upd (set need_sync_team_again (λ _, 0));;
     lifs ← gets (λ w, sys_lif_list (w_sys w));
     mforeach lifs (λ p,
       l ← deref w_lifs p;
       when (lif_type l =? IF_T_PORT_CHANNEL) (_ ← iccp_get_port_member_list p; mret tt))).

(** [iccp_netlink_route_sock_event_handler]: the messages that were handled, and what
    [nl_recvmsgs_default] returned. *)
Definition iccp_netlink_route_sock_event_handler (msgs : list route_msg) (ret : Z) (dump : list route_msg) : W Z :=
  mforeach msgs iccp_route_event_handler;;
  when (negb (ret =? 0)) (sys_upd (set need_sync_netlink_again (λ _, 1));; count_netlink 7);;
  again ← gets (λ w, need_sync_netlink_again (w_sys w));
  when ((ret =? 0) && (again =? 1)) (iccp_netlink_sync_again dump);;
  mret ret.

(** [iccp_netlink_genic_sock_event_handler] with [iccp_genric_event_handler] *)
Definition iccp_netlink_genic_sock_event_handler (msgs : list team_msg) (ret : Z) : W Z :=
  mforeach msgs iccp_get_portchannel_member_list_handler;;
  when (negb (ret =? 0)) (sys_upd (set need_sync_team_again (λ _, 1)));;
  mret ret.

(** ** Events *)

Inductive io_event : Type :=
| IoAccept                                                       (** the server socket *)
| IoTeam (msgs : list team_msg) (ret : Z)                        (** the team socket *)
| IoRoute (msgs : list route_msg) (ret : Z) (dump : list route_msg)
                                                                 (** the route socket *)
| IoArp (pkt : option (list Z)) (halen ifindex : Z)              (** an ARP packet *)
| IoNdisc (pkt : option (list Z)) (ifindex : Z)                  (** a neighbour-discovery packet *)
| IoSyncd                                                        (** the connection of mclagsyncd *)
| IoCtl                                                          (** the control socket *)
| IoSignal                                                       (** the signal pipe *)
| IoPeer (fd : Z).                                               (** a session socket *)

(** The machine with that socket reads; a message is a sign of life of the peer. *)
Definition peer_readable (fd : Z) : W unit :=
  set ← gets (λ w, readfd (w_sys w));
  when (bool_decide (fd ∈ set))
    (cs ← gets (λ w, csm_list (w_sys w));
     c ← mfind cs (λ c, csm ← deref w_csms c; mret (sock_fd csm =? fd));
     when (negb (c =? NULL))
       (r ← scheduler_csm_read_callback c;
        when (negb (r =? MCLAG_ERROR)) (_ ← mlacp_fsm_update_heartbeat c; mret tt))).

Definition handle_event (e : io_event) : W unit :=
  match e with
  | IoAccept => _ ← scheduler_server_accept; mret tt
  | IoTeam msgs ret => _ ← iccp_netlink_genic_sock_event_handler msgs ret; mret tt
  | IoRoute msgs ret dump => _ ← iccp_netlink_route_sock_event_handler msgs ret dump; mret tt
  | IoArp pkt halen ifindex => _ ← iccp_receive_arp_packet_handler pkt halen ifindex; mret tt
  | IoNdisc pkt ifindex => _ ← iccp_receive_ndisc_packet_handler pkt ifindex; mret tt
  | IoSyncd => _ ← iccp_mclagsyncd_msg_handler; mret tt
  | IoCtl => ctl_readable
  | IoSignal => _ ← iccp_receive_signal_handler; mret tt
  | IoPeer fd => peer_readable fd
  end.

(** [iccp_handle_events] *)
Definition iccp_handle_events (evs : list io_event) : W Z :=
  mforeach evs handle_event;; mret 0.

(** ** The connection to mclagsyncd *)

(** [iccp_connect_syncd]; the address is 127.0.0.6. *)
Definition iccp_connect_syncd : W Z :=
  sfd ← gets (λ w, sync_fd (w_sys w));
  if sfd >=? 0 then mret 0
  else
    fd ← sys SysSocket;
    if fd <? 0 then mret MCLAG_ERROR
    else
      ret ← sys (SysConnect fd (htonl 0x7f000006));
      if ret <? 0 then _ ← sys (SysClose fd); mret MCLAG_ERROR
      else
        sys_upd (set sync_fd (λ _, fd));;
        _ ← sys (SysEpollAdd fd);
        mret 0.

(** [syncd_info_close] *)
Definition syncd_info_close : W unit :=
  fd ← gets (λ w, sync_fd (w_sys w));
  when (fd >? 0) (_ ← sys (SysClose fd); sys_upd (set sync_fd (λ _, -1))).

(** One round of [scheduler_loop]: whether the daemon goes on. *)
Definition scheduler_round (evs : list io_event) : W bool :=
  fd ← gets (λ w, sync_fd (w_sys w));
  when (fd <=? 0) (_ ← iccp_connect_syncd; mret tt);;
  _ ← iccp_handle_events evs;
  _ ← scheduler_transit_fsm;
  reboot ← gets (λ w, warmboot_exit (w_sys w));
  mret (negb (reboot =? WARM_REBOOT)).

(** ** The start *)

(** [strstr(l, p) != NULL] *)
Fixpoint has_infix (p : string) (l : list Z) : bool :=
  has_prefix p l || match l with [] => false | _ :: l' => has_infix p l' end.

(** [iccp_get_start_type]: the command line of the kernel, if it can be read. *)
Definition iccp_get_start_type (cmdline : option (list Z)) : W unit :=
  clear_csm_buf;;
  match cmdline with
  | None => mret tt
  | Some text =>
      let text := take CSM_BUFFER_SIZE text in
      _ ← in_csm_buf (λ b _, b ← oob (put 0 text b); mret (Z.of_nat (length text), b));
      b ← gets w_csm_buf;
      when (has_infix "SONIC_BOOT_TYPE=warm" (cstr b)) (sys_upd (set warmboot_start (λ _, WARM_REBOOT)))
  end.

(** What the daemon finds at its start: the command line of the kernel, the dumps of
    links, addresses and neighbours, the configuration file and the path of the
    control socket. *)
Record start_input : Type := StartInput {
  si_cmdline : option (list Z);
  si_links : list route_msg;
  si_addrs : list route_msg;
  si_config : option (list (list Z));
  si_neighs : list (list Z);
  si_ctl_path : list Z
}.

(** [scheduler_init] *)
Definition scheduler_init (i : start_input) : W unit :=
  iccp_get_start_type (si_cmdline i);;
  iccp_sys_local_if_list_get_init (si_links i);;
  iccp_sys_local_if_list_get_addr (si_addrs i);;
  _ ← iccp_config_from_file (si_config i);
  iccp_neigh_get_init (si_neighs i);;
  _ ← iccp_connect_syncd;
  _ ← mclagd_ctl_sock_create (si_ctl_path i);
  mret tt.
