(* ===== verification/Boot.v ===== *)
(** * The memory at start ([system_init])

    The state of a daemon that has just started, and the concrete environment and
    machines the examples of the other files run on. *)

From S2P Require Import Prelude CMem CString MsgFormat State Machine IccpCsm.
#[local] Open Scope Z_scope.

(** [system_init], before it opens its sockets *)
Definition system_init : System := {|
  server_fd := -1; sync_fd := -1; sync_ctrl_fd := -1; sig_pipe_r := 0; warmboot_start := 0; warmboot_exit := 0;
  csm_list := []; sys_lif_list := []; sys_lif_purge_list := []; unq_ip_if_list := [];
  pending_vlan_mbr_if_list := []; readfd := ∅; readfd_count := 0; csm_trans_time := 0;
  peer_link_down_counter := 0; rx_peer_invalid_msg_counter := 0;
  rx_peer_hdr_read_sock_err_counter := 0; rx_peer_hdr_read_sock_zero_len_counter := 0;
  rx_peer_tlv_read_sock_err_counter := 0; rx_peer_tlv_read_sock_zero_len_counter := 0;
  rx_retry_max_counter := 0; rx_retry_total_counter := 0; rx_retry_fail_counter := 0;
  socket_cleanup_counter := 0; socket_close_err_counter := 0; session_down_counter := 0;
  warmboot_counter := 0; rx_read_sock_zero_len_counter := 0; netlink_counters := ∅;
  need_sync_team_again := 0; need_sync_netlink_again := 0; syncd_tx_counters := ∅;
  syncd_rx_counters := ∅ |}.

(** The memory of the process when [system_init] returns. *)
Definition boot (env : list event → syscall → Z) : World := {|
  w_sys := system_init; w_csms := ∅; w_lifs := ∅; w_pifs := ∅; w_macs := ∅; w_next := 4096;
  w_msg_id := 1; w_csm_buf := replicate CSM_BUFFER_SIZE 0; w_prev_state := 0; w_once_connected := 0;
  w_logger := mkLoggerConfig 0 0 0;
  w_env := env; w_trace := [] |}.

(** An environment in which every call succeeds and the time stands still. *)
Definition calm (tr : list event) (c : syscall) : Z :=
  match c with
  | SysTime => 1000
  | SysMalloc _ | SysRealloc _ => 1
  | SysWrite _ data | SysSend _ data => Z.of_nat (length data)
  | SysSocket | SysAccept _ => 5
  | _ => 0
  end.

(** A machine with a session on descriptor 5 to the group [rg]. *)
Definition session_csm (rg : Z) : CSM :=
  csm_zero <| mlag_id := rg |> <| sock_fd := 5 |> <| current_state := ICCP_INITIALIZED |>
           <| iccp_info ::= λ i, i <| icc_rg_id := rg |> <| sender_capability_flag := 1 |> |>.

Definition with_csm (c : ptr) (x : CSM) (w : World) : World :=
  w <| w_csms := <[c := x]> (w_csms w) |> <| w_sys ::= set csm_list (cons c) |>.
