(* ===== verification/Ctl.v ===== *)
(** * The control program ([mclagdctl/mclagdctl.c])

    [mclagdctl] turns its command line into a request, sends it to the daemon, and
    prints the structures of the reply.  Its state is the descriptor of the socket,
    what it printed, and the environment that answers its system calls. *)

From S2P Require Import Prelude CMem CString MsgFormat ShowFormat State.
#[local] Open Scope Z_scope.

(** ** The program's state *)

Record ctl : Type := mkCtl {
  k_fd : Z  (** [mclagdctl_sock_fd] *);
  k_out : list Z  (** what was printed on [stdout] *);
  k_err : list Z  (** what was printed on [stderr] *);
  k_env : list event → syscall → Z;
  k_strerror : list event → list Z  (** [strerror(errno)] after these calls *);
  k_trace : list event  (** the calls made so far, the last first *)
}.

Definition ctl_eta (r : ctl) : ctl := mkCtl (k_fd r) (k_out r) (k_err r) (k_env r) (k_strerror r) (k_trace r).
#[global] Instance set_k_fd : Settable k_fd. Proof. make_setter ctl_eta k_fd. Defined.
#[global] Instance set_k_out : Settable k_out. Proof. make_setter ctl_eta k_out. Defined.
#[global] Instance set_k_err : Settable k_err. Proof. make_setter ctl_eta k_err. Defined.
#[global] Instance set_k_trace : Settable k_trace. Proof. make_setter ctl_eta k_trace. Defined.

Notation C := (M ctl).

Definition csys (c : syscall) : C Z := λ k,
  let r := k_env k (k_trace k) c in Ok r (k <| k_trace ::= cons (c, r) |>).
Definition print (s : list Z) : C unit := modify (set k_out (λ o, o ++ s)).
Definition eprint (s : list Z) : C unit := modify (set k_err (λ o, o ++ s)).
(** [fprintf(stdout, "..%s\n", strerror(errno))] *)
Definition perror (text : string) : C unit :=
  e ← gets (λ k, k_strerror k (k_trace k)); print (str text ++ e ++ [10]).
Definition in_bounds {A} (o : option A) : C A := from_option_or OutOfBounds o.

(** [fprintf(stdout, "%s: ..\n", label, ..)] *)
Definition line (label : string) (text : list Z) : C unit := print (str label ++ str ": " ++ text ++ [10]).
Definition rule : C unit := print (replicate 60 45).
Definition newline : C unit := print [10].

(** ** The socket *)

(** [mclagdctl_sock_connect]: [path] is [mclagdctl_sock_path]. *)
Definition mclagdctl_sock_path : list Z := str "/var/run/iccpd/mclagdctl.sock".

Definition mclagdctl_sock_connect : C Z :=
  fd ← gets k_fd;
  if fd >=? 0 then mret 0
  else if strlen mclagdctl_sock_path <=? 0 then mret MCLAG_ERROR
  else
    fd ← csys SysUnixSocket;
    modify (set k_fd (λ _, fd));;
    if fd <? 0 then mret MCLAG_ERROR
    else
      ret ← csys (SysUnixConnect fd (take 106 (cstr mclagdctl_sock_path)) (2 + strlen mclagdctl_sock_path));
      if ret <? 0 then _ ← csys (SysClose fd); modify (set k_fd (λ _, -1));; mret MCLAG_ERROR
      else mret 0.

(** [mclagdctl_sock_close] *)
Definition mclagdctl_sock_close : C unit :=
  fd ← gets k_fd;
  when (fd >? 0) (_ ← csys (SysClose fd); modify (set k_fd (λ _, -1))).

(** [mclagdctl_sock_write]; every round writes a byte. *)
Fixpoint write_loop (fuel : nat) (fd : Z) (w_buf : list Z) (write_len total_len : Z) : C Z :=
  match fuel with
  | O => fail OutOfFuel
  | S f =>
      if write_len >=? total_len then mret write_len
      else
        bs ← in_bounds (rd_bytes (Z.to_nat write_len) (Z.to_nat (total_len - write_len)) w_buf);
        ret ← csys (SysWrite fd bs);
        if ret <=? 0 then mret 0 else write_loop f fd w_buf (write_len + ret) total_len
  end.
Definition mclagdctl_sock_write (fd : Z) (w_buf : list Z) (total_len : Z) : C Z :=
  write_loop (S (Z.to_nat total_len)) fd w_buf 0 total_len.

(** The bytes of a [read]. *)
Fixpoint read_bytes (fd i : Z) (n : nat) : C (list Z) :=
  match n with
  | O => mret []
  | S n' => b ← csys (SysRecvByte fd i); l ← read_bytes fd (i + 1) n'; mret (u8 b :: l)
  end.

(** [mclagdctl_sock_read]: the result and what the buffer was filled with; every
    round reads a byte. *)
Fixpoint read_loop (fuel : nat) (fd : Z) (r_buf : list Z) (total_len : Z) : C (Z * list Z) :=
  match fuel with
  | O => fail OutOfFuel
  | S f =>
      let read_len := Z.of_nat (length r_buf) in
      if read_len >=? total_len then mret (read_len, r_buf)
      else
        ret ← csys (SysSelect fd);
        if ret <? 0 then perror "Mclagdctl:Select return error:";; mret (MCLAG_ERROR, r_buf)
        else if ret =? 0 then perror "Mclagdctl:Select timeout:";; mret (MCLAG_ERROR, r_buf)
        else
          ret ← csys (SysRead fd (total_len - read_len));
          if ret <=? 0 then mret (MCLAG_ERROR, r_buf)
          else
            bs ← read_bytes fd 0 (Z.to_nat (Z.min ret (total_len - read_len)));
            read_loop f fd (r_buf ++ bs) total_len
  end.
Definition mclagdctl_sock_read (fd total_len : Z) : C (Z * list Z) :=
  read_loop (S (Z.to_nat total_len)) fd [] total_len.

(** ** Requests *)

(** The body the encoders share: the result and the message *)
Definition enca_req (info_type mclag_id : Z) (msg : list Z) : C (Z * list Z) :=
  req ← in_bounds (apply_stores
    [W32 (offsetof mclagdctl_req_hdr "info_type") info_type; W32 (offsetof mclagdctl_req_hdr "mclag_id") mclag_id]
    (replicate (sizeof mclagdctl_req_hdr) 0));
  msg ← in_bounds (put 0 req msg);
  mret (1, msg).

(** The test of the encoders that need an identifier *)
Definition enca_with_id (info_type mclag_id : Z) (msg : list Z) : C (Z * list Z) :=
  if mclag_id <=? 0 then
    eprint (str "Need to specify mclag-id through the parameter i !" ++ [10]);; mret (MCLAG_ERROR, msg)
  else enca_req info_type mclag_id msg.

Definition mclagdctl_enca_dump_state : Z → list Z → C (Z * list Z) := enca_req INFO_TYPE_DUMP_STATE.
Definition mclagdctl_enca_dump_arp : Z → list Z → C (Z * list Z) := enca_with_id INFO_TYPE_DUMP_ARP.
Definition mclagdctl_enca_dump_ndisc : Z → list Z → C (Z * list Z) := enca_with_id INFO_TYPE_DUMP_NDISC.
Definition mclagdctl_enca_dump_mac : Z → list Z → C (Z * list Z) := enca_with_id INFO_TYPE_DUMP_MAC.
Definition mclagdctl_enca_dump_local_portlist : Z → list Z → C (Z * list Z) :=
  enca_with_id INFO_TYPE_DUMP_LOCAL_PORTLIST.
Definition mclagdctl_enca_dump_peer_portlist : Z → list Z → C (Z * list Z) :=
  enca_with_id INFO_TYPE_DUMP_PEER_PORTLIST.
Definition mclagdctl_enca_dump_unique_ip : Z → list Z → C (Z * list Z) := enca_with_id INFO_TYPE_DUMP_UNIQUE_IP.
Definition mclagdctl_enca_dump_dbg_counters : Z → list Z → C (Z * list Z) := enca_req INFO_TYPE_DUMP_DBG_COUNTERS.
Definition mclagdctl_enca_config_loglevel : Z → list Z → C (Z * list Z) := enca_req INFO_TYPE_CONFIG_LOGLEVEL.

(** ** Replies *)

(** The loop [for (; data_len >= len; data_len -= len, count++)]; it returns [count]. *)
Fixpoint each_entry (fuel : nat) (s : struct) (data_len : Z) (count : nat) (body : nat → C unit) : C nat :=
  match fuel with
  | O => fail OutOfFuel
  | S f =>
      if data_len >=? Z.of_nat (sizeof s) then
        body count;; each_entry f s (data_len - Z.of_nat (sizeof s)) (S count) body
      else mret count
  end.
Definition entries (s : struct) (data_len : Z) (body : nat → C unit) : C nat :=
  each_entry (S (Z.to_nat data_len)) s data_len 0 body.

(** Members of the structure number [i] of a message *)
Section members.
Context (s : struct) (i : nat) (msg : list Z).
Definition member_off (name : string) : nat := (sizeof s * i + offsetof s name)%nat.
Definition get_str (name : string) : C (list Z) := in_bounds (string_in (member_off name) msg).
Definition get_int (name : string) : C Z := v ← in_bounds (rd32 (member_off name) msg); mret (to_int v).
Definition get_u16 (name : string) : C Z := in_bounds (rd16 (member_off name) msg).
Definition get_u8 (name : string) : C Z := in_bounds (rd8 (member_off name) msg).
Definition get_mac (name : string) : C (list Z) := in_bounds (rd_bytes (member_off name) ETHER_ADDR_LEN msg).
End members.

Definition yes_no (v : Z) : list Z := str (if v =? 0 then "No" else "Yes").

(** [mac_addr_to_str] *)
Definition mac_addr_to_str (mac : list Z) : list Z := fmt_mac mac.

(** [mclagdctl_parse_dump_state]; the role is computed from the addresses. *)
Definition mclagdctl_parse_dump_state (msg : list Z) (data_len : Z) : C Z :=
  _ ← entries mclagd_state data_len (λ i,
    let string := get_str mclagd_state i msg in
    let int := get_int mclagd_state i msg in
    local ← string "local_ip"; peer ← string "peer_ip";
    let role := if inet_addr local <? inet_addr peer then 1 else 2 in
    keepalive ← int "keepalive"; line "The MCLAG's keepalive is" (str (if keepalive =? 0 then "ERROR" else "OK"));;
    sync ← int "info_sync_done"; line "MCLAG info sync is" (str (if sync =? 0 then "incomplete" else "completed"));;
    id ← int "mclag_id"; line "Domain id" (if id <=? 0 then str "Unknown" else fmt_d id);;
    line "Local Ip" local;;
    line "Peer Ip" peer;;
    link ← string "peer_link_if"; line "Peer Link Interface" link;;
    time ← int "keepalive_time"; line "Keepalive time" (fmt_d time);;
    timeout ← int "session_timeout"; line "sesssion Timeout " (fmt_d timeout);;
    mac ← get_mac mclagd_state i msg "peer_link_mac"; line "Peer Link Mac" (fmt_mac mac ++ [32]);;
    line "Role" (str (if role =? 1 then "Active" else "Standby"));;
    po ← string "enabled_po"; line "MCLAG Interface" po;;
    log ← string "loglevel"; line "Loglevel" log);
  mret 0.

(** The column of [learn_flag] *)
Definition learn_text (learn : Z) : list Z :=
  str (if learn =? NEIGH_REMOTE then "R" else if learn =? NEIGH_LOCAL then "L" else "-").

(** [mclagdctl_parse_dump_arp] *)
Definition mclagdctl_parse_dump_arp (msg : list Z) (data_len : Z) : C Z :=
  print (pad 6 (str "No.") ++ pad 20 (str "IP") ++ pad 20 (str "MAC") ++ pad 20 (str "DEV") ++ str "Flag" ++ [10]);;
  _ ← entries mclagd_arp_msg data_len (λ i,
    ip ← get_str mclagd_arp_msg i msg "ipv4_addr";
    mac ← get_mac mclagd_arp_msg i msg "mac_addr";
    dev ← get_str mclagd_arp_msg i msg "ifname";
    learn ← get_u8 mclagd_arp_msg i msg "learn_flag";
    print (pad 6 (fmt_d (Z.of_nat i + 1)) ++ pad 20 ip ++ fmt_mac mac ++ str "   " ++ pad 20 dev
           ++ learn_text learn ++ [10]));
  mret 0.

(** [mclagdctl_parse_dump_ndisc] *)
Definition mclagdctl_parse_dump_ndisc (msg : list Z) (data_len : Z) : C Z :=
  print (pad 6 (str "No.") ++ pad 52 (str "IPv6") ++ pad 20 (str "MAC") ++ pad 20 (str "DEV") ++ str "Flag" ++ [10]);;
  _ ← entries mclagd_ndisc_msg data_len (λ i,
    ip ← get_str mclagd_ndisc_msg i msg "ipv6_addr";
    mac ← get_mac mclagd_ndisc_msg i msg "mac_addr";
    dev ← get_str mclagd_ndisc_msg i msg "ifname";
    learn ← get_u8 mclagd_ndisc_msg i msg "learn_flag";
    print (pad 6 (fmt_d (Z.of_nat i + 1)) ++ pad 52 ip ++ fmt_mac mac ++ str "   " ++ pad 20 dev
           ++ learn_text learn ++ [10]));
  mret 0.

(** The columns of the type and of the age *)
Definition fdb_text (fdb_type : Z) : list Z := str (if fdb_type =? MAC_TYPE_STATIC_CTL then "S" else "D").
Definition age_text (age_flag : Z) : list Z :=
  let local := negb (Z.land age_flag MAC_AGE_LOCAL_CTL =? 0) in
  let peer := negb (Z.land age_flag MAC_AGE_PEER_CTL =? 0) in
  str (if local && peer then "LP" else if local then "L" else if peer then "P" else " ").

(** [mclagdctl_parse_dump_mac] *)
Definition mac_head : list Z :=
  pad 60 (str "TYPE: S-STATIC, D-DYNAMIC; AGE: L-Local age, P-Peer age") ++ [10]
  ++ pad 6 (str "No.") ++ pad 5 (str "TYPE") ++ pad 20 (str "MAC") ++ pad 5 (str "VID") ++ pad 20 (str "DEV")
  ++ pad 20 (str "ORIGIN-DEV") ++ pad 5 (str "AGE") ++ [10].

Definition mclagdctl_parse_dump_mac (msg : list Z) (data_len : Z) : C Z :=
  print mac_head;;
  _ ← entries mclagd_mac_msg data_len (λ i,
    fdb ← get_u8 mclagd_mac_msg i msg "fdb_type";
    mac ← get_mac mclagd_mac_msg i msg "mac_addr";
    vid ← get_u16 mclagd_mac_msg i msg "vid";
    dev ← get_str mclagd_mac_msg i msg "ifname";
    origin ← get_str mclagd_mac_msg i msg "origin_ifname";
    age ← get_u8 mclagd_mac_msg i msg "age_flag";
    print (pad 6 (fmt_d (Z.of_nat i + 1)) ++ pad 5 (fdb_text fdb) ++ pad 20 (mac_addr_to_str mac)
           ++ pad 5 (fmt_d vid) ++ pad 20 dev ++ pad 20 origin ++ pad 5 (age_text age) ++ [10]));
  mret 0.

(** [mclagdctl_parse_dump_local_portlist] *)
Definition mclagdctl_parse_dump_local_portlist (msg : list Z) (data_len : Z) : C Z :=
  _ ← entries mclagd_local_if data_len (λ i,
    let string := get_str mclagd_local_if i msg in
    let u8 := get_u8 mclagd_local_if i msg in
    rule;; newline;;
    ifindex ← get_int mclagd_local_if i msg "ifindex";
    type ← string "type";
    name ← string "name";
    state ← string "state";
    vlans ← string "vlanlist";
    head ← in_bounds (rd_bytes (member_off mclagd_local_if i "type") 11 msg);
    (if bool_decide (head = str "PortChannel") then
       line "Ifindex" (fmt_d ifindex);; line "Type" type;; line "PortName" name;;
       mac ← get_mac mclagd_local_if i msg "mac_addr"; line "MAC" (fmt_mac mac ++ [32]);;
       ip ← string "ipv4_addr"; line "IPv4Address" ip;;
       prefix ← u8 "prefixlen"; line "Prefixlen" (fmt_d prefix);;
       line "State" state;;
       l3 ← u8 "l3_mode"; line "IsL3Interface" (yes_no l3);;
       members ← string "portchannel_member_buf"; line "MemberPorts" members;;
       active ← u8 "po_active"; line "PortchannelIsUp" (fmt_d active);;
       isolate ← u8 "isolate_to_peer_link"; line "IsIsolateWithPeerlink" (yes_no isolate);;
       disable ← u8 "is_traffic_disable"; line "IsTrafficDisable" (yes_no disable);;
       line "VlanList" vlans
     else
       line "Ifindex" (fmt_d ifindex);; line "Type" type;; line "PortName" name;; line "State" state;;
       line "VlanList" vlans);;
    rule;; newline;; newline);
  mret 0.

(** [mclagdctl_parse_dump_peer_portlist] *)
Definition mclagdctl_parse_dump_peer_portlist (msg : list Z) (data_len : Z) : C Z :=
  _ ← entries mclagd_peer_if data_len (λ i,
    let string := get_str mclagd_peer_if i msg in
    rule;; newline;;
    ifindex ← get_int mclagd_peer_if i msg "ifindex"; line "Ifindex" (fmt_d ifindex);;
    type ← string "type"; line "Type" type;;
    name ← string "name"; line "PortName" name;;
    mac ← get_mac mclagd_peer_if i msg "mac_addr"; line "MAC" (fmt_mac mac ++ [32]);;
    state ← string "state"; line "State" state;;
    rule;; newline;; newline);
  mret 0.

(** [mclagdctl_parse_dump_unique_ip] *)
Definition mclagdctl_parse_dump_unique_ip (msg : list Z) (data_len : Z) : C Z :=
  rule;; newline;;
  print (pad 20 (str "Ifname") ++ pad 5 (str "Active"));; newline;;
  rule;; newline;;
  count ← entries mclagd_unique_ip_if data_len (λ i,
    name ← get_str mclagd_unique_ip_if i msg "name";
    active ← get_int mclagd_unique_ip_if i msg "active";
    print (pad 20 name ++ str "  " ++ pad 5 (yes_no active) ++ [10]));
  when (count =? 0)%nat (print (str "Unique IP configuration not enabled on any interface" ++ [10]));;
  rule;; newline;; newline;;
  mret 0.

(** ** Counters *)

(** [mclagdctl_dbg_counter_iccpid2str] *)
Definition mclagdctl_dbg_counter_iccpid2str (id : nat) : string :=
  match id with
  | 0 => "SysConfig" | 1 => "AggrConfig" | 2 => "AggrState" | 3 => "MacInfo" | 4 => "ArpInfo"
  | 6 => "PoInfo" | 7 => "PeerLinkInfo" | 8 => "Heartbeat" | 9 => "Nak" | 10 => "SyncData"
  | 11 => "SyncReq" | 12 => "Warmboot" | 13 => "IfUpAck" | _ => "Unknown"
  end%nat.

(** [mclagdctl_dbg_counter_syncdtx2str] *)
Definition mclagdctl_dbg_counter_syncdtx2str (id : nat) : string :=
  match id with
  | 0 => "PortIsolation" | 1 => "MacLearnMode" | 2 => "FlushFdb" | 3 => "SetIfMac" | 4 => "SetFdb"
  | 5 => "TrafficDistEnable" | 6 => "TrafficDistDisable" | 7 => "SetIccpState" | 8 => "SetIccpRole"
  | 9 => "SetSystemId" | 10 => "DelIccpInfo" | 11 => "SetRemoteIntfSts" | 12 => "DelRemoteIntf"
  | 13 => "PeerLinkIsolation" | 14 => "SetPeerSystemId" | _ => "Unknown"
  end%nat.

(** [mclagdctl_dbg_counter_syncdrx2str] *)
Definition mclagdctl_dbg_counter_syncdrx2str (id : nat) : string :=
  match id with
  | 0 => "FdbChange" | 1 => "CfgMclag" | 2 => "CfgMclagIface" | 3 => "CfgMclagUniqueIp"
  | 4 => "vlanMbrshipChange" | _ => "Unknown"
  end%nat.

(** [mclagdctl_parse_dump_dbg_counters] *)
Section counters.
Context (msg : list Z).
Definition sys_off (name : string) : nat :=
  offsetof mclagd_dbg_counter_info "system_dbg" + offsetof system_dbg_counter_info name.
(** Counter number [i] of the thirty *)
Definition counter (i : nat) : C (list Z) := v ← in_bounds (rd32 (sys_off "counters" + 4 * i) msg); mret (fmt_u v).
Definition long_at (off : nat) : C (list Z) := v ← in_bounds (rd64 off msg); mret (fmt_u v).

Definition counter_line (label : string) (i : nat) : C unit := v ← counter i; print (pad 20 (str label) ++ v ++ [10]).

(** [n] rows of two counters *)
Definition pair_rows (table : string) (names : nat → string) (n : nat) : C unit :=
  mforeach (seq 0 n) (λ i : nat,
    ok ← long_at (sys_off table + 16 * i);
    err ← long_at (sys_off table + 16 * i + 8);
    print (pad 20 (str (names i)) ++ pad 20 ok ++ pad 20 err ++ [10])).

(** The block of a machine, at [off] *)
Definition iccp_rows (off : nat) : C unit :=
  mforeach (seq 0 (Z.to_nat ICCP_DBG_CNTR_MSG_MAX)) (λ j : nat,
    tx ← long_at (off + 32 * j);
    rx ← long_at (off + 32 * j + 16);
    tx_err ← long_at (off + 32 * j + 8);
    rx_err ← long_at (off + 32 * j + 24);
    print (pad 20 (str (mclagdctl_dbg_counter_iccpid2str j)) ++ pad 20 tx ++ pad 20 rx ++ pad 20 tx_err
           ++ pad 20 rx_err ++ [10]));;
  newline.

Definition columns (l : list string) : C unit := print (concat ((λ s, pad 20 (str s)) <$> l) ++ [10]).

Definition two (label : string) (i j : nat) : C unit :=
  a ← counter i; b ← counter j; print (str label ++ a ++ [47] ++ b ++ [10]).

Definition mclagdctl_parse_dump_dbg_counters (data_len : Z) : C Z :=
  counter_line "ICCP session down:" 11;; counter_line "Peer link down:" 12;; counter_line "Rx invalid msg:" 14;;
  counter_line "Rx sock error(hdr):" 15;; counter_line "Rx zero len(hdr):" 16;;
  counter_line "Rx sock error(tlv):" 17;; counter_line "Rx zero len(tlv):" 18;; counter_line "Rx retry max:" 21;;
  counter_line "Rx retry total:" 22;; counter_line "Rx retry fail:" 23;; counter_line "Socket close err:" 19;;
  counter_line "Socket cleanup:" 20;;
  newline;; counter_line "Warmboot:" 13;; newline;;
  columns ["ICCP to MclagSyncd"; "TX_OK"; "TX_ERROR"];; columns ["------------------"; "-----"; "--------"];;
  pair_rows "syncd_tx_counters" mclagdctl_dbg_counter_syncdtx2str SYNCD_TX_DBG_CNTR_MSG_MAX;;
  newline;;
  columns ["MclagSyncd to ICCP"; "RX_OK"; "RX_ERROR"];; columns ["------------------"; "-----"; "--------"];;
  pair_rows "syncd_rx_counters" mclagdctl_dbg_counter_syncdrx2str SYNCD_RX_DBG_CNTR_MSG_MAX;;
  newline;;
  columns ["ICCP to Peer"; "TX_OK"; "RX_OK"; "TX_ERROR"; "RX_ERROR"];;
  columns ["------------"; "-----"; "-----"; "--------"; "--------"];;
  blocks ← in_bounds (rd8 (offsetof mclagd_dbg_counter_info "num_iccp_counter_blocks") msg);
  mforeach (seq 0 (Z.to_nat blocks)) (λ i : nat,
    iccp_rows (offsetof mclagd_dbg_counter_info "iccp_dbg_counters" + i * sizeof mlacp_dbg_counter_info));;
  newline;; print (str "Netlink Counters" ++ [10]);; print (str "-----------------" ++ [10]);;
  two "Link add/del: " 0 1;;
  (v ← counter 8; print (str "  Unknown if_name: " ++ v ++ [10]));;
  two "Neighbor(ARP) add/del: " 2 3;;
  two "  MAC entry add/del: " 9 10;;
  two "Address add/del: " 4 5;;
  (v ← counter 6; print (str "Unexpected message type: " ++ v ++ [10]));;
  (v ← counter 7; print (str "Receive error: " ++ v ++ [10; 10]));;
  mret 0.
End counters.

(** [mclagdctl_parse_config_loglevel]: an [int] of the message decides. *)
Definition mclagdctl_parse_config_loglevel (msg : list Z) (data_len : Z) : C Z :=
  ret ← in_bounds (rd32 0 msg);
  print (str (if ret =? 0 then "Config loglevel success!" else "Config loglevel failed!") ++ [10]);;
  mret 0.

(** ** Commands *)

(** [enum id_command_type] *)
Inductive id_command_type : Type :=
| ID_CMDTYPE_NONE | ID_CMDTYPE_D | ID_CMDTYPE_D_S | ID_CMDTYPE_D_A | ID_CMDTYPE_D_P | ID_CMDTYPE_D_P_L
| ID_CMDTYPE_D_P_P | ID_CMDTYPE_D_D | ID_CMDTYPE_D_D_C | ID_CMDTYPE_C | ID_CMDTYPE_C_L.

#[global] Instance id_command_eq_dec : EqDecision id_command_type.
Proof. solve_decision. Defined.

(** [struct command_type]; a command has both functions or none.  No command of the
    table has parameters. *)
Record command_type : Type := CommandType {
  ct_id : id_command_type;
  ct_parent : id_command_type;
  ct_info : Z;
  ct_name : list Z;
  ct_params : list (list Z);
  ct_funs : option ((Z → list Z → C (Z * list Z)) * (list Z → Z → C Z))
}.

Definition command_types : list command_type :=
  [CommandType ID_CMDTYPE_D ID_CMDTYPE_NONE 0 (str "dump") [] None;
   CommandType ID_CMDTYPE_D_S ID_CMDTYPE_D INFO_TYPE_DUMP_STATE (str "state") []
     (Some (mclagdctl_enca_dump_state, mclagdctl_parse_dump_state));
   CommandType ID_CMDTYPE_D_A ID_CMDTYPE_D INFO_TYPE_DUMP_ARP (str "arp") []
     (Some (mclagdctl_enca_dump_arp, mclagdctl_parse_dump_arp));
   CommandType ID_CMDTYPE_D_A ID_CMDTYPE_D INFO_TYPE_DUMP_NDISC (str "nd") []
     (Some (mclagdctl_enca_dump_ndisc, mclagdctl_parse_dump_ndisc));
   CommandType ID_CMDTYPE_D_A ID_CMDTYPE_D INFO_TYPE_DUMP_MAC (str "mac") []
     (Some (mclagdctl_enca_dump_mac, mclagdctl_parse_dump_mac));
   CommandType ID_CMDTYPE_D_A ID_CMDTYPE_D INFO_TYPE_DUMP_UNIQUE_IP (str "unique_ip") []
     (Some (mclagdctl_enca_dump_unique_ip, mclagdctl_parse_dump_unique_ip));
   CommandType ID_CMDTYPE_D_P ID_CMDTYPE_D 0 (str "portlist") [] None;
   CommandType ID_CMDTYPE_D_P_L ID_CMDTYPE_D_P INFO_TYPE_DUMP_LOCAL_PORTLIST (str "local") []
     (Some (mclagdctl_enca_dump_local_portlist, mclagdctl_parse_dump_local_portlist));
   CommandType ID_CMDTYPE_D_P_P ID_CMDTYPE_D_P INFO_TYPE_DUMP_PEER_PORTLIST (str "peer") []
     (Some (mclagdctl_enca_dump_peer_portlist, mclagdctl_parse_dump_peer_portlist));
   CommandType ID_CMDTYPE_D_D ID_CMDTYPE_D 0 (str "debug") [] None;
   CommandType ID_CMDTYPE_D_D_C ID_CMDTYPE_D_D INFO_TYPE_DUMP_DBG_COUNTERS (str "counters") []
     (Some (mclagdctl_enca_dump_dbg_counters, mclagdctl_parse_dump_dbg_counters));
   CommandType ID_CMDTYPE_C ID_CMDTYPE_NONE 0 (str "config") [] None;
   CommandType ID_CMDTYPE_C_L ID_CMDTYPE_C INFO_TYPE_CONFIG_LOGLEVEL (str "loglevel") []
     (Some (mclagdctl_enca_config_loglevel, mclagdctl_parse_config_loglevel))].

Definition cmd_executable (c : command_type) : bool :=
  match ct_funs c with Some _ => true | None => false end.
Definition cmd_param_cnt (c : command_type) : nat := length (ct_params c).

(** [strncmp(name, cmd_name, strlen(cmd_name)) == 0] *)
Definition is_prefix (cmd_name name : list Z) : bool := bool_decide (is_Some (CString.strip_prefix cmd_name name)).

(** [__mclagdctl_get_cmd_by_parent] *)
Definition get_cmd_by_parent (cmd_name : list Z) (parent : id_command_type) : option command_type :=
  head (filter (λ c, is_prefix cmd_name (ct_name c) ∧ ct_parent c = parent) command_types).

(** [__mclagdctl_get_cmd_by_id] *)
Definition get_cmd_by_id (id : id_command_type) : option command_type :=
  head (filter (λ c, ct_id c = id) command_types).

(** [mclagdctl_find_cmd] and [mclagdctl_check_cmd_params]: the command and the
    arguments behind it, or what is printed *)
Fixpoint find_cmd (parent : id_command_type) (args : list (list Z)) : (command_type * list (list Z)) + list Z :=
  match args with
  | [] => inr (str "None or incomplete command" ++ [10])
  | cmd_name :: args' =>
      match get_cmd_by_parent cmd_name parent with
      | None => inr (str "Unknown command " ++ [34] ++ cmd_name ++ [34; 46; 10])
      | Some c =>
          if cmd_executable c && (length args' <=? cmd_param_cnt c)%nat then inl (c, args')
          else find_cmd (ct_id c) args'
      end
  end.
Definition mclagdctl_find_cmd (args : list (list Z)) : (command_type * list (list Z)) + list Z :=
  find_cmd ID_CMDTYPE_NONE args.

Definition mclagdctl_check_cmd_params (c : command_type) (args : list (list Z)) : option (list Z) :=
  match ct_params c !! length args with
  | Some p => Some (str "Command line parameter " ++ [34] ++ p ++ [34] ++ str " expected." ++ [10])
  | None => None
  end.

(** [mclagdctl_print_cmd]: the names from the root; the table is a tree of that
    depth. *)
Fixpoint print_cmd (fuel : nat) (c : command_type) : C unit :=
  match fuel with
  | O => fail OutOfFuel
  | S f =>
      when (negb (bool_decide (ct_parent c = ID_CMDTYPE_NONE)))
        (match get_cmd_by_id (ct_parent c) with
         | Some p => print_cmd f p
         | None => fail NullDeref
         end;; print [32]);;
      print (ct_name c)
  end.
Definition mclagdctl_print_cmd : command_type → C unit := print_cmd (length command_types).

(** [mclagdctl_print_help] *)
Definition mclagdctl_print_help (argv0 : list Z) : C unit :=
  print (argv0 ++ str " [options] command [command args]" ++ [10]
         ++ str "    -h --help                Show this help" ++ [10]
         ++ str "    -i --mclag-id            Specify one mclag id" ++ [10]
         ++ str "    -l --level               Specify log level     critical,err,warn,notice,info,debug" ++ [10]);;
  print (str "Commands:" ++ [10]);;
  mforeach command_types (λ c,
    when (cmd_executable c)
      (print (str "    ");; mclagdctl_print_cmd c;;
       mforeach (ct_params c) (λ p, print (32 :: p));;
       newline)).

(** ** The command line *)

(** What [getopt_long(argc, argv, "hi:l:", long_options, NULL)] returns, one after the
    other; its own messages are left out. *)
Inductive opt : Type :=
| OptHelp
| OptId (arg : list Z)
| OptLevel (arg : list Z)
| OptBad.

(** An option with an argument, which is the next word when it is not given. *)
Definition with_arg (mk : list Z → opt) (arg : option (list Z)) (next : list (list Z)) : opt * list (list Z) :=
  match arg, next with
  | Some a, _ => (mk a, next)
  | None, a :: next' => (mk a, next')
  | None, [] => (OptBad, [])
  end.

(** The letters of a word of short options *)
Fixpoint short_opts (letters : list Z) (next : list (list Z)) : list opt * list (list Z) :=
  match letters with
  | [] => ([], next)
  | c :: letters' =>
      let arg := match letters' with [] => None | _ => Some letters' end in
      if c =? 104 then let '(os, n) := short_opts letters' next in (OptHelp :: os, n)
      else if c =? 105 then let '(o, n) := with_arg OptId arg next in ([o], n)
      else if c =? 108 then let '(o, n) := with_arg OptLevel arg next in ([o], n)
      else let '(os, n) := short_opts letters' next in (OptBad :: os, n)
  end.

(** A long option may be abbreviated and may carry its argument behind [=]. *)
Fixpoint split_eq (l : list Z) : list Z * option (list Z) :=
  match l with
  | [] => ([], None)
  | c :: l' => if c =? 61 then ([], Some l') else let '(n, v) := split_eq l' in (c :: n, v)
  end.

Definition long_opt (word : list Z) (next : list (list Z)) : opt * list (list Z) :=
  let '(name, val) := split_eq word in
  match filter (λ o, is_prefix name (fst o)) [(str "help", 0); (str "mclag id", 1); (str "log level", 2)] with
  | [(_, 0)] => (match val with None => OptHelp | Some _ => OptBad end, next)
  | [(_, 1)] => with_arg OptId val next
  | [(_, _)] => with_arg OptLevel val next
  | _ => (OptBad, next)
  end.

(** The options, and the other words in their order. *)
Fixpoint getopt_long (fuel : nat) (args : list (list Z)) : list opt * list (list Z) :=
  match fuel, args with
  | S f, (45 :: 45 :: word) :: next =>
      match word with
      | [] => ([], next)
      | _ => let '(o, next) := long_opt word next in
             let '(os, ns) := getopt_long f next in (o :: os, ns)
      end
  | S f, (45 :: c :: letters) :: next =>
      let '(os1, next) := short_opts (c :: letters) next in
      let '(os, ns) := getopt_long f next in (os1 ++ os, ns)
  | S f, word :: next => let '(os, ns) := getopt_long f next in (os, word :: ns)
  | _, _ => ([], [])
  end.

Definition tolower (c : Z) : Z := if (65 <=? c) && (c <=? 90) then c + 32 else c.

(** The level of the option [-l] *)
Definition level_of (arg : list Z) : option Z :=
  match tolower (default 0 (head arg)) with
  | 99 => Some CRITICAL
  | 101 => Some ERR
  | 119 => Some WARN
  | 110 => Some NOTICE
  | 105 => Some INFO
  | 100 => Some DEBUG
  | _ => None
  end.

Definition EXIT_SUCCESS : Z := 0.
Definition EXIT_FAILURE : Z := 1.

(** The loop over the options: the number, or the exit status. *)
Fixpoint main_opts (argv0 : list Z) (os : list opt) (para_int : Z) : C (Z + Z) :=
  match os with
  | [] => mret (inl para_int)
  | OptHelp :: _ => mclagdctl_print_help argv0;; mret (inr EXIT_SUCCESS)
  | OptId a :: os' => main_opts argv0 os' (atoi a)
  | OptLevel a :: os' =>
      match level_of a with
      | Some l => main_opts argv0 os' l
      | None =>
          eprint (str "unknown option " ++ [34; 108; 34; 46; 10]);; mclagdctl_print_help argv0;;
          mret (inr EXIT_FAILURE)
      end
  | OptBad :: _ =>
      eprint (str "unknown option." ++ [10]);; mclagdctl_print_help argv0;; mret (inr EXIT_FAILURE)
  end.

(** The reply has arrived: [rcv_buf] holds it. *)
Definition main_reply (c : command_type) (parse : list Z → Z → C Z) (para_int : Z) (rcv_buf : list Z) : C Z :=
  let hdr := sizeof mclagd_reply_hdr in
  info ← in_bounds (rd32 (offsetof mclagd_reply_hdr "info_type") rcv_buf);
  if negb (to_int info =? ct_info c) then eprint (str "Reply info type from mclagd error" ++ [10]);; mret EXIT_FAILURE
  else
    result ← in_bounds (rd32 (offsetof mclagd_reply_hdr "exec_result") rcv_buf);
    let result := to_int result in
    if result =? EXEC_TYPE_NO_EXIST_SYS then eprint (str "No exist sys in iccpd!" ++ [10]);; mret EXIT_FAILURE
    else if result =? EXEC_TYPE_NO_EXIST_MCLAGID then
      eprint (str "Mclag-id " ++ fmt_d para_int ++ str " hasn't been configured in iccpd!" ++ [10]);; mret EXIT_FAILURE
    else if result =? EXEC_TYPE_FAILED then eprint (str "exec error in iccpd!" ++ [10]);; mret EXIT_FAILURE
    else
      _ ← parse (drop hdr rcv_buf) (Z.of_nat (length rcv_buf) - Z.of_nat hdr);
      mret EXIT_SUCCESS.

(** From the request to the exit status; the socket is connected. *)
Definition main_exchange (c : command_type) (enca : Z → list Z → C (Z * list Z)) (parse : list Z → Z → C Z)
  (para_int : Z) : C Z :=
  fd ← gets k_fd;
  '(ret, buf) ← enca para_int (replicate (Z.to_nat MCLAGDCTL_CMD_SIZE) 0);
  if ret <? 0 then mret EXIT_FAILURE
  else
    ret ← mclagdctl_sock_write fd buf (Z.of_nat (sizeof mclagdctl_req_hdr));
    if ret <=? 0 then eprint (str "Failed to send command to mclagd" ++ [10]);; mret EXIT_FAILURE
    else
      '(ret, word) ← mclagdctl_sock_read fd 4;
      if ret <=? 0 then eprint (str "Failed to read data length from mclagd" ++ [10]);; mret EXIT_FAILURE
      else
        len ← in_bounds (rd32 0 word);
        let len := to_int len in
        if len <=? 0 then eprint (str "pkt len = " ++ fmt_d len ++ str ", error" ++ [10]);; mret EXIT_FAILURE
        else
          r ← csys (SysMalloc len);
          if r =? 0 then eprint (str "Failed to malloc rcv_buf for mclagdctl" ++ [10]);; mret ret
          else
            '(ret, rcv_buf) ← mclagdctl_sock_read fd len;
            if ret <=? 0 then eprint (str "Failed to read data from mclagd" ++ [10]);; mret EXIT_FAILURE
            else main_reply c parse para_int rcv_buf.

(** [main] *)
Definition main (argv0 : list Z) (args : list (list Z)) : C Z :=
  let '(os, words) := getopt_long (length args) args in
  r ← main_opts argv0 os 0;
  match r with
  | inr status => mret status
  | inl para_int =>
      match mclagdctl_find_cmd words with
      | inr text => eprint text;; mclagdctl_print_help argv0;; mret EXIT_FAILURE
      | inl (c, words) =>
          match mclagdctl_check_cmd_params c words, ct_funs c with
          | Some text, _ => eprint text;; mclagdctl_print_help argv0;; mret EXIT_FAILURE
          | None, None => fail NullDeref
          | None, Some (enca, parse) =>
              fd ← gets k_fd;
              ret ← (if fd <=? 0 then mclagdctl_sock_connect else mret 0);
              if ret <? 0 then mret EXIT_FAILURE
              else
                status ← main_exchange c enca parse para_int;
                mclagdctl_sock_close;;
                mret status
          end
      end
  end.
