(* ===== verification/RbTree.v ===== *)
(** * Red-black trees ([openbsd_tree.c], [openbsd_tree.h])

    The operations of the red-black tree the daemon keeps its MAC addresses and VLANs
    in, on the links in memory: an entry is embedded in every element at the offset
    [t_offset], has pointers to its parent and its two children, and a colour.  The
    memory [rb_mem] holds the entries, those of this tree and any others, and the root
    of this tree.  An access to a pointer that is no entry is a fault.  The loops carry
    as fuel the number of entries in memory. *)

From S2P Require Import Prelude CMem State Machine.
#[local] Open Scope Z_scope.

Definition RB_BLACK : Z := 0.
Definition RB_RED : Z := 1.

Record rb_entry : Type := mkRb {
  rbt_parent : ptr;
  rbt_left : ptr;
  rbt_right : ptr;
  rbt_color : Z
}.
Definition eta_rb_entry (r : rb_entry) : rb_entry :=
  mkRb (rbt_parent r) (rbt_left r) (rbt_right r) (rbt_color r).
#[export] Instance set_rbt_parent : Settable rbt_parent. Proof. make_setter eta_rb_entry rbt_parent. Defined.
#[export] Instance set_rbt_left : Settable rbt_left. Proof. make_setter eta_rb_entry rbt_left. Defined.
#[export] Instance set_rbt_right : Settable rbt_right. Proof. make_setter eta_rb_entry rbt_right. Defined.
#[export] Instance set_rbt_color : Settable rbt_color. Proof. make_setter eta_rb_entry rbt_color. Defined.

(** [struct rbt_tree] of this tree and the entries in memory *)
Record rb_mem : Type := mkRbMem {
  rbt_root : ptr;
  rb_heap : gmap Z rb_entry
}.

Definition R (A : Type) : Type := M rb_mem A.

(** [struct rb_type]: the comparison of two elements, what is called when the subtree
    below an element changes ([NULL] in [RB_GENERATE]), and the offset of the entry. *)
Record rb_type : Type := {
  t_compare : ptr → ptr → Z;
  t_augment : option (ptr → R unit);
  t_offset : Z
}.

(** ** Members of an entry *)

Definition RBE (p : ptr) : R rb_entry := λ m,
  match rb_heap m !! p with
  | Some e => Ok e m
  | None => Fault (bad_ptr p)
  end.

Definition RBE_upd (p : ptr) (f : rb_entry → rb_entry) : R unit := λ m,
  match rb_heap m !! p with
  | Some e => Ok tt (mkRbMem (rbt_root m) (<[p := f e]> (rb_heap m)))
  | None => Fault (bad_ptr p)
  end.

Definition RBE_LEFT (p : ptr) : R ptr := e ← RBE p; mret (rbt_left e).
Definition RBE_RIGHT (p : ptr) : R ptr := e ← RBE p; mret (rbt_right e).
Definition RBE_PARENT (p : ptr) : R ptr := e ← RBE p; mret (rbt_parent e).
Definition RBE_COLOR (p : ptr) : R Z := e ← RBE p; mret (rbt_color e).
Definition RBH_ROOT : R ptr := gets rbt_root.

Definition set_LEFT (p v : ptr) : R unit := RBE_upd p (set rbt_left (λ _, v)).
Definition set_RIGHT (p v : ptr) : R unit := RBE_upd p (set rbt_right (λ _, v)).
Definition set_PARENT (p v : ptr) : R unit := RBE_upd p (set rbt_parent (λ _, v)).
Definition set_COLOR (p : ptr) (c : Z) : R unit := RBE_upd p (set rbt_color (λ _, c)).
Definition set_ROOT (v : ptr) : R unit := modify (λ m, mkRbMem v (rb_heap m)).

(** ** From an element to its entry and back *)

Definition rb_n2e (t : rb_type) (node : ptr) : ptr := (node + t_offset t) mod 2 ^ 64.
Definition rb_e2n (t : rb_type) (rbe : ptr) : ptr := (rbe - t_offset t) mod 2 ^ 64.

(** [rbe == NULL ? NULL : rb_e2n(t, rbe)] *)
Definition rb_result (t : rb_type) (rbe : ptr) : ptr := if rbe =? NULL then NULL else rb_e2n t rbe.

(** ** Helpers *)

Definition rbe_set (rbe parent : ptr) : R unit :=
  set_PARENT rbe parent;; set_RIGHT rbe NULL;; set_LEFT rbe NULL;; set_COLOR rbe RB_RED.

Definition rbe_set_blackred (black red : ptr) : R unit :=
  set_COLOR black RB_BLACK;; set_COLOR red RB_RED.

Definition rbe_augment (t : rb_type) (rbe : ptr) : R unit :=
  match t_augment t with
  | Some f => f (rb_e2n t rbe)
  | None => fail NullDeref
  end.

Definition rbe_if_augment (t : rb_type) (rbe : ptr) : R unit :=
  if t_augment t then rbe_augment t rbe else mret tt.

(** [p == NULL || RBE_COLOR(p) == RB_BLACK] *)
Definition is_black (p : ptr) : R bool :=
  if p =? NULL then mret true else c ← RBE_COLOR p; mret (c =? RB_BLACK).

(** [p != NULL && RBE_COLOR(p) == RB_RED] *)
Definition is_red (p : ptr) : R bool :=
  if p =? NULL then mret false else c ← RBE_COLOR p; mret (c =? RB_RED).

(** The place of [old] below [parent], or at the root, is given to [new]. *)
Definition relink (parent old new : ptr) : R unit :=
  if parent =? NULL then set_ROOT new
  else
    l ← RBE_LEFT parent;
    if l =? old then set_LEFT parent new else set_RIGHT parent new.

(** ** Rotations *)

Definition rotate_augment (t : rb_type) (rbe tmp : ptr) : R unit :=
  if t_augment t then
    rbe_augment t rbe;;
    rbe_augment t tmp;;
    parent ← RBE_PARENT tmp;
    when (negb (parent =? NULL)) (rbe_augment t parent)
  else mret tt.

Definition rbe_rotate_left (t : rb_type) (rbe : ptr) : R unit :=
  tmp ← RBE_RIGHT rbe;
  l ← RBE_LEFT tmp;
  set_RIGHT rbe l;;
  r ← RBE_RIGHT rbe;
  when (negb (r =? NULL)) (l ← RBE_LEFT tmp; set_PARENT l rbe);;
  parent ← RBE_PARENT rbe;
  set_PARENT tmp parent;;
  relink parent rbe tmp;;
  set_LEFT tmp rbe;;
  set_PARENT rbe tmp;;
  rotate_augment t rbe tmp.

Definition rbe_rotate_right (t : rb_type) (rbe : ptr) : R unit :=
  tmp ← RBE_LEFT rbe;
  r ← RBE_RIGHT tmp;
  set_LEFT rbe r;;
  l ← RBE_LEFT rbe;
  when (negb (l =? NULL)) (r ← RBE_RIGHT tmp; set_PARENT r rbe);;
  parent ← RBE_PARENT rbe;
  set_PARENT tmp parent;;
  relink parent rbe tmp;;
  set_RIGHT tmp rbe;;
  set_PARENT rbe tmp;;
  rotate_augment t rbe tmp.

(** ** Insertion *)

(** The loop of [rbe_insert_color] *)
Fixpoint insert_color_loop (fuel : nat) (t : rb_type) (rbe : ptr) : R unit :=
  match fuel with
  | O => fail OutOfFuel
  | S n =>
      parent ← RBE_PARENT rbe;
      red ← is_red parent;
      if negb red then mret tt
      else
        gparent ← RBE_PARENT parent;
        gl ← RBE_LEFT gparent;
        if parent =? gl then
          tmp ← RBE_RIGHT gparent;
          red ← is_red tmp;
          if (red : bool) then
            set_COLOR tmp RB_BLACK;;
            rbe_set_blackred parent gparent;;
            insert_color_loop n t gparent
          else
            r ← RBE_RIGHT parent;
            (if r =? rbe then
               rbe_rotate_left t parent;;
               rbe_set_blackred rbe gparent;;
               rbe_rotate_right t gparent;;
               insert_color_loop n t parent
             else
               rbe_set_blackred parent gparent;;
               rbe_rotate_right t gparent;;
               insert_color_loop n t rbe)
        else
          tmp ← RBE_LEFT gparent;
          red ← is_red tmp;
          if (red : bool) then
            set_COLOR tmp RB_BLACK;;
            rbe_set_blackred parent gparent;;
            insert_color_loop n t gparent
          else
            l ← RBE_LEFT parent;
            (if l =? rbe then
               rbe_rotate_right t parent;;
               rbe_set_blackred rbe gparent;;
               rbe_rotate_left t gparent;;
               insert_color_loop n t parent
             else
               rbe_set_blackred parent gparent;;
               rbe_rotate_left t gparent;;
               insert_color_loop n t rbe)
  end.

(** More rounds than any path in memory is long. *)
Definition rb_fuel : R nat := gets (λ m, S (S (size (rb_heap m)))).

Definition rbe_insert_color (t : rb_type) (rbe : ptr) : R unit :=
  fuel ← rb_fuel;
  insert_color_loop fuel t rbe;;
  root ← RBH_ROOT;
  set_COLOR root RB_BLACK.

(** The search of [_rb_insert] from [tmp]: the element found, or the entry below which
    the new one goes and the result of the last comparison. *)
Fixpoint insert_search (fuel : nat) (t : rb_type) (elm tmp parent : ptr) (comp : Z) : R (ptr + ptr * Z) :=
  match fuel with
  | O => fail OutOfFuel
  | S n =>
      if tmp =? NULL then mret (inr (parent, comp))
      else
        let node := rb_e2n t tmp in
        let comp := t_compare t elm node in
        if comp <? 0 then l ← RBE_LEFT tmp; insert_search n t elm l tmp comp
        else if comp >? 0 then r ← RBE_RIGHT tmp; insert_search n t elm r tmp comp
        else mret (inl node)
  end.

Definition _rb_insert (t : rb_type) (elm : ptr) : R ptr :=
  let rbe := rb_n2e t elm in
  fuel ← rb_fuel;
  root ← RBH_ROOT;
  found ← insert_search fuel t elm root NULL 0;
  match found with
  | inl node => mret node
  | inr (parent, comp) =>
      rbe_set rbe parent;;
      (if negb (parent =? NULL) then
         (if comp <? 0 then set_LEFT parent rbe else set_RIGHT parent rbe);;
         rbe_if_augment t parent
       else set_ROOT rbe);;
      rbe_insert_color t rbe;;
      mret NULL
  end.

(** ** Removal *)

(** [rbe] is the left child of [parent], [tmp] the black sibling with a red right child:
    the last step, after which the loop is left. *)
Definition remove_break_left (t : rb_type) (parent tmp : ptr) : R ptr :=
  c ← RBE_COLOR parent;
  set_COLOR tmp c;;
  set_COLOR parent RB_BLACK;;
  r ← RBE_RIGHT tmp;
  when (negb (r =? NULL)) (set_COLOR r RB_BLACK);;
  rbe_rotate_left t parent;;
  RBH_ROOT.

(** The same with any children of the black sibling [tmp]; [again] continues the loop. *)
Definition remove_black_left (again : ptr → ptr → R ptr) (t : rb_type) (parent tmp : ptr) : R ptr :=
  tl ← RBE_LEFT tmp;
  bl ← is_black tl;
  tr ← RBE_RIGHT tmp;
  br ← (if (bl : bool) then is_black tr else mret false);
  if (bl && br)%bool then
    set_COLOR tmp RB_RED;;
    up ← RBE_PARENT parent;
    again up parent
  else
    black ← is_black tr;
    if (black : bool) then
      oleft ← RBE_LEFT tmp;
      when (negb (oleft =? NULL)) (set_COLOR oleft RB_BLACK);;
      set_COLOR tmp RB_RED;;
      rbe_rotate_right t tmp;;
      tmp ← RBE_RIGHT parent;
      remove_break_left t parent tmp
    else remove_break_left t parent tmp.

(** [rbe] is the right child of [parent], [tmp] the black sibling with a red left child:
    the last step, after which the loop is left. *)
Definition remove_break_right (t : rb_type) (parent tmp : ptr) : R ptr :=
  c ← RBE_COLOR parent;
  set_COLOR tmp c;;
  set_COLOR parent RB_BLACK;;
  l ← RBE_LEFT tmp;
  when (negb (l =? NULL)) (set_COLOR l RB_BLACK);;
  rbe_rotate_right t parent;;
  RBH_ROOT.

(** The same with any children of the black sibling [tmp]; [again] continues the loop. *)
Definition remove_black_right (again : ptr → ptr → R ptr) (t : rb_type) (parent tmp : ptr) : R ptr :=
  tl ← RBE_LEFT tmp;
  bl ← is_black tl;
  tr ← RBE_RIGHT tmp;
  br ← (if (bl : bool) then is_black tr else mret false);
  if (bl && br)%bool then
    set_COLOR tmp RB_RED;;
    up ← RBE_PARENT parent;
    again up parent
  else
    black ← is_black tl;
    if (black : bool) then
      oright ← RBE_RIGHT tmp;
      when (negb (oright =? NULL)) (set_COLOR oright RB_BLACK);;
      set_COLOR tmp RB_RED;;
      rbe_rotate_left t tmp;;
      tmp ← RBE_LEFT parent;
      remove_break_right t parent tmp
    else remove_break_right t parent tmp.

(** The loop of [rbe_remove_color]: it returns the entry that is painted black. *)
Fixpoint remove_color_loop (fuel : nat) (t : rb_type) (parent rbe : ptr) : R ptr :=
  match fuel with
  | O => fail OutOfFuel
  | S n =>
      black ← is_black rbe;
      root ← RBH_ROOT;
      if negb (black && negb (rbe =? root) && negb (parent =? NULL)) then mret rbe
      else
        l ← RBE_LEFT parent;
        if l =? rbe then
          tmp ← RBE_RIGHT parent;
          c ← RBE_COLOR tmp;
          if c =? RB_RED then
            rbe_set_blackred tmp parent;;
            rbe_rotate_left t parent;;
            tmp ← RBE_RIGHT parent;
            remove_black_left (remove_color_loop n t) t parent tmp
          else remove_black_left (remove_color_loop n t) t parent tmp
        else
          tmp ← RBE_LEFT parent;
          c ← RBE_COLOR tmp;
          if c =? RB_RED then
            rbe_set_blackred tmp parent;;
            rbe_rotate_right t parent;;
            tmp ← RBE_LEFT parent;
            remove_black_right (remove_color_loop n t) t parent tmp
          else remove_black_right (remove_color_loop n t) t parent tmp
  end.

Definition rbe_remove_color (t : rb_type) (parent rbe : ptr) : R unit :=
  fuel ← rb_fuel;
  rbe ← remove_color_loop fuel t parent rbe;
  when (negb (rbe =? NULL)) (set_COLOR rbe RB_BLACK).

(** [while ((tmp = RBE_LEFT(rbe)) != NULL) rbe = tmp;] *)
Fixpoint leftmost (fuel : nat) (rbe : ptr) : R ptr :=
  match fuel with
  | O => fail OutOfFuel
  | S n => l ← RBE_LEFT rbe; if l =? NULL then mret rbe else leftmost n l
  end.

Fixpoint rightmost (fuel : nat) (rbe : ptr) : R ptr :=
  match fuel with
  | O => fail OutOfFuel
  | S n => r ← RBE_RIGHT rbe; if r =? NULL then mret rbe else rightmost n r
  end.

(** [do { rbe_augment(t, tmp); tmp = RBE_PARENT(tmp); } while (tmp != NULL);] *)
Fixpoint augment_up (fuel : nat) (t : rb_type) (tmp : ptr) : R unit :=
  match fuel with
  | O => fail OutOfFuel
  | S n =>
      rbe_augment t tmp;;
      up ← RBE_PARENT tmp;
      if up =? NULL then mret tt else augment_up n t up
  end.

(** [rbe] leaves its place below [parent] to its only child. *)
Definition unlink (t : rb_type) (rbe child parent : ptr) : R unit :=
  when (negb (child =? NULL)) (set_PARENT child parent);;
  relink parent rbe child;;
  when (negb (parent =? NULL)) (rbe_if_augment t parent).

(** [*rbe = *old], and the neighbours of [old] point to [rbe]. *)
Definition take_place (t : rb_type) (rbe old : ptr) : R unit :=
  e ← RBE old;
  RBE_upd rbe (λ _, e);;
  tmp ← RBE_PARENT old;
  relink tmp old rbe;;
  when (negb (tmp =? NULL)) (rbe_if_augment t tmp);;
  l ← RBE_LEFT old;
  set_PARENT l rbe;;
  r ← RBE_RIGHT old;
  when (negb (r =? NULL)) (r ← RBE_RIGHT old; set_PARENT r rbe).

Definition rbe_remove (t : rb_type) (rbe : ptr) : R ptr :=
  let old := rbe in
  fuel ← rb_fuel;
  l ← RBE_LEFT rbe;
  r ← RBE_RIGHT rbe;
  if (l =? NULL) || (r =? NULL) then
    let child := if l =? NULL then r else l in
    parent ← RBE_PARENT rbe;
    color ← RBE_COLOR rbe;
    unlink t rbe child parent;;
    when (color =? RB_BLACK) (rbe_remove_color t parent child);;
    mret old
  else
    rbe ← leftmost fuel r;
    child ← RBE_RIGHT rbe;
    parent ← RBE_PARENT rbe;
    color ← RBE_COLOR rbe;
    unlink t rbe child parent;;
    up ← RBE_PARENT rbe;
    let parent := if up =? old then rbe else parent in
    take_place t rbe old;;
    (if t_augment t then when (negb (parent =? NULL)) (augment_up fuel t parent) else mret tt);;
    when (color =? RB_BLACK) (rbe_remove_color t parent child);;
    mret old.

Definition _rb_remove (t : rb_type) (elm : ptr) : R ptr :=
  old ← rbe_remove t (rb_n2e t elm);
  mret (rb_result t old).

(** [MAC_RB_REMOVE] and [VLAN_RB_REMOVE] also clear the links of the element. *)
Definition RB_REMOVE_clear (t : rb_type) (elm : ptr) : R unit :=
  _ ← _rb_remove t elm;
  set_PARENT (rb_n2e t elm) NULL;;
  set_LEFT (rb_n2e t elm) NULL;;
  set_RIGHT (rb_n2e t elm) NULL.

(** ** Lookups *)

Fixpoint find_loop (fuel : nat) (t : rb_type) (key tmp : ptr) : R ptr :=
  match fuel with
  | O => fail OutOfFuel
  | S n =>
      if tmp =? NULL then mret NULL
      else
        let node := rb_e2n t tmp in
        let comp := t_compare t key node in
        if comp <? 0 then l ← RBE_LEFT tmp; find_loop n t key l
        else if comp >? 0 then r ← RBE_RIGHT tmp; find_loop n t key r
        else mret node
  end.

Definition _rb_find (t : rb_type) (key : ptr) : R ptr :=
  fuel ← rb_fuel;
  root ← RBH_ROOT;
  find_loop fuel t key root.

Fixpoint nfind_loop (fuel : nat) (t : rb_type) (key tmp res : ptr) : R ptr :=
  match fuel with
  | O => fail OutOfFuel
  | S n =>
      if tmp =? NULL then mret res
      else
        let node := rb_e2n t tmp in
        let comp := t_compare t key node in
        if comp <? 0 then l ← RBE_LEFT tmp; nfind_loop n t key l node
        else if comp >? 0 then r ← RBE_RIGHT tmp; nfind_loop n t key r res
        else mret node
  end.

Definition _rb_nfind (t : rb_type) (key : ptr) : R ptr :=
  fuel ← rb_fuel;
  root ← RBH_ROOT;
  nfind_loop fuel t key root NULL.

(** ** Walks *)

(** [while (RBE_PARENT(rbe) && (rbe == RBE_RIGHT(RBE_PARENT(rbe)))) rbe = RBE_PARENT(rbe);] *)
Fixpoint climb_right (fuel : nat) (rbe : ptr) : R ptr :=
  match fuel with
  | O => fail OutOfFuel
  | S n =>
      p ← RBE_PARENT rbe;
      if p =? NULL then mret rbe
      else r ← RBE_RIGHT p; if rbe =? r then climb_right n p else mret rbe
  end.

Fixpoint climb_left (fuel : nat) (rbe : ptr) : R ptr :=
  match fuel with
  | O => fail OutOfFuel
  | S n =>
      p ← RBE_PARENT rbe;
      if p =? NULL then mret rbe
      else l ← RBE_LEFT p; if rbe =? l then climb_left n p else mret rbe
  end.

Definition _rb_next (t : rb_type) (elm : ptr) : R ptr :=
  let rbe := rb_n2e t elm in
  fuel ← rb_fuel;
  r ← RBE_RIGHT rbe;
  next ← (if negb (r =? NULL) then leftmost fuel r
          else
            p ← RBE_PARENT rbe;
            is_left ← (if p =? NULL then mret false else l ← RBE_LEFT p; mret (rbe =? l));
            if (is_left : bool) then RBE_PARENT rbe
            else rbe ← climb_right fuel rbe; RBE_PARENT rbe);
  mret (rb_result t next).

Definition _rb_prev (t : rb_type) (elm : ptr) : R ptr :=
  let rbe := rb_n2e t elm in
  fuel ← rb_fuel;
  l ← RBE_LEFT rbe;
  prev ← (if negb (l =? NULL) then rightmost fuel l
          else
            p ← RBE_PARENT rbe;
            is_right ← (if p =? NULL then mret false else r ← RBE_RIGHT p; mret (rbe =? r));
            if (is_right : bool) then RBE_PARENT rbe
            else rbe ← climb_left fuel rbe; RBE_PARENT rbe);
  mret (rb_result t prev).

Definition _rb_root (t : rb_type) : R ptr := rbe ← RBH_ROOT; mret (rb_result t rbe).

(** [parent = NULL; while (rbe != NULL) { parent = rbe; rbe = RBE_LEFT(rbe); }] *)
Definition _rb_min (t : rb_type) : R ptr :=
  fuel ← rb_fuel;
  rbe ← RBH_ROOT;
  parent ← (if rbe =? NULL then mret NULL else leftmost fuel rbe);
  mret (rb_result t parent).

Definition _rb_max (t : rb_type) : R ptr :=
  fuel ← rb_fuel;
  rbe ← RBH_ROOT;
  parent ← (if rbe =? NULL then mret NULL else rightmost fuel rbe);
  mret (rb_result t parent).

Definition _rb_init : R unit := set_ROOT NULL.
Definition _rb_empty : R bool := root ← RBH_ROOT; mret (root =? NULL).

(** ** Members of an element's entry *)

Definition _rb_left (t : rb_type) (node : ptr) : R ptr :=
  rbe ← RBE_LEFT (rb_n2e t node); mret (rb_result t rbe).
Definition _rb_right (t : rb_type) (node : ptr) : R ptr :=
  rbe ← RBE_RIGHT (rb_n2e t node); mret (rb_result t rbe).
Definition _rb_parent (t : rb_type) (node : ptr) : R ptr :=
  rbe ← RBE_PARENT (rb_n2e t node); mret (rb_result t rbe).

(** [(p == NULL) ? NULL : rb_n2e(t, p)] *)
Definition rb_argument (t : rb_type) (p : ptr) : ptr := if p =? NULL then NULL else rb_n2e t p.

Definition _rb_set_left (t : rb_type) (node left : ptr) : R unit :=
  set_LEFT (rb_n2e t node) (rb_argument t left).
Definition _rb_set_right (t : rb_type) (node right : ptr) : R unit :=
  set_RIGHT (rb_n2e t node) (rb_argument t right).
Definition _rb_set_parent (t : rb_type) (node parent : ptr) : R unit :=
  set_PARENT (rb_n2e t node) (rb_argument t parent).

Definition _rb_poison (t : rb_type) (node : ptr) (poison : Z) : R unit :=
  let rbe := rb_n2e t node in
  set_RIGHT rbe poison;; set_LEFT rbe poison;; set_PARENT rbe poison.

Definition _rb_check (t : rb_type) (node : ptr) (poison : Z) : R bool :=
  e ← RBE (rb_n2e t node);
  mret ((rbt_parent e =? poison) && (rbt_left e =? poison) && (rbt_right e =? poison)).

(** ** Generated trees and loops *)

(** [RB_GENERATE(_name, _type, _field, _cmp)] *)
Definition RB_GENERATE (cmp : ptr → ptr → Z) (offset : Z) : rb_type :=
  {| t_compare := cmp; t_augment := None; t_offset := offset |}.

(** [RB_FOREACH] from the element [e]: the elements the body is run for. *)
Fixpoint foreach_loop (fuel : nat) (t : rb_type) (e : ptr) : R (list ptr) :=
  match fuel with
  | O => fail OutOfFuel
  | S n =>
      if e =? NULL then mret []
      else
        next ← _rb_next t e;
        rest ← foreach_loop n t next;
        mret (e :: rest)
  end.

Definition RB_FOREACH (t : rb_type) : R (list ptr) :=
  fuel ← rb_fuel;
  e ← _rb_min t;
  foreach_loop fuel t e.
