(* ===== verification/RbRep.v ===== *)
(** * Trees and the memory that represents them

    A binary tree of entries, a tree with a hole (a path from the hole to the root, with
    what hangs beside the path), and the memory that represents a tree: every entry has
    the links and the colour its place in the tree gives it.  The rules of this file are
    those the operations of [RbTree.v] are verified with: reading and painting an entry,
    the rotations, and the changes of links that insertion and removal make.  Each says
    what tree the memory represents afterwards and that other entries are untouched. *)

From S2P Require Import Prelude CMem State Machine RbTree.
#[local] Open Scope Z_scope.

(** ** Trees *)

Inductive tree : Type :=
| Leaf
| Node (c : Z) (l : tree) (p : ptr) (r : tree).

(** The pointer to a tree. *)
Definition rootp (t : tree) : ptr :=
  match t with
  | Leaf => NULL
  | Node _ _ p _ => p
  end.

(** The entries in order. *)
Fixpoint nodes (t : tree) : list ptr :=
  match t with
  | Leaf => []
  | Node _ l p r => nodes l ++ p :: nodes r
  end.

(** A step from a hole to its parent: the parent, its colour, and the other child. *)
Inductive frame : Type :=
| InL (c : Z) (p : ptr) (r : tree)
| InR (c : Z) (l : tree) (p : ptr).

Definition ctx : Type := list frame.

Definition fill (f : frame) (t : tree) : tree :=
  match f with
  | InL c p r => Node c t p r
  | InR c l p => Node c l p t
  end.

Fixpoint plug (k : ctx) (t : tree) : tree :=
  match k with
  | [] => t
  | f :: k' => plug k' (fill f t)
  end.

Definition framep (f : frame) : ptr :=
  match f with
  | InL _ p _ | InR _ _ p => p
  end.

(** The parent of the hole. *)
Definition parp (k : ctx) : ptr :=
  match k with
  | [] => NULL
  | f :: _ => framep f
  end.

(** The entries before and after the hole. *)
Fixpoint before (k : ctx) : list ptr :=
  match k with
  | [] => []
  | InL _ _ _ :: k' => before k'
  | InR _ l p :: k' => before k' ++ nodes l ++ [p]
  end.

Fixpoint after (k : ctx) : list ptr :=
  match k with
  | [] => []
  | InL _ p r :: k' => p :: nodes r ++ after k'
  | InR _ _ _ :: k' => after k'
  end.

Lemma nodes_plug k t : nodes (plug k t) = before k ++ nodes t ++ after k.
Proof.
  revert t. induction k as [|[c p r|c l p] k IH]; intros t; simpl; [by rewrite app_nil_r|..];
    rewrite IH; simpl; by rewrite <-!app_assoc.
Qed.

Lemma plug_app k1 k2 t : plug (k1 ++ k2) t = plug k2 (plug k1 t).
Proof. revert t. induction k1 as [|f k1 IH]; intros t; simpl; [done|apply IH]. Qed.

Lemma rootp_plug k t t' : rootp t = rootp t' → rootp (plug k t) = rootp (plug k t').
Proof. revert t t'. induction k as [|[] k IH]; intros t t' H; [done|by apply IH..]. Qed.

Lemma rootp_elem t : t ≠ Leaf → rootp t ∈ nodes t.
Proof. destruct t; [done|]. simpl. set_solver. Qed.

(** A node is somewhere in the tree. *)
Lemma focus p t : p ∈ nodes t → ∃ k c l r, t = plug k (Node c l p r).
Proof.
  induction t as [|c l IHl q r IHr]; simpl; [by intros ?%elem_of_nil|].
  rewrite elem_of_app, elem_of_cons. intros [H|[->|H]].
  - destruct (IHl H) as (k & c' & a & b & ->). exists (k ++ [InL c q r]), c', a, b. by rewrite plug_app.
  - by exists [], c, l, r.
  - destruct (IHr H) as (k & c' & a & b & ->). exists (k ++ [InR c l q]), c', a, b. by rewrite plug_app.
Qed.

(** ** The memory of a tree *)

Fixpoint linked_at (h : gmap Z rb_entry) (par : ptr) (t : tree) : Prop :=
  match t with
  | Leaf => True
  | Node c l p r => h !! p = Some (mkRb par (rootp l) (rootp r) c) ∧ linked_at h p l ∧ linked_at h p r
  end.

(** The memory of a tree with a hole that holds the pointer [x]. *)
Fixpoint ctx_at (h : gmap Z rb_entry) (k : ctx) (x : ptr) : Prop :=
  match k with
  | [] => True
  | InL c p r :: k' => h !! p = Some (mkRb (parp k') x (rootp r) c) ∧ linked_at h p r ∧ ctx_at h k' p
  | InR c l p :: k' => h !! p = Some (mkRb (parp k') (rootp l) x c) ∧ linked_at h p l ∧ ctx_at h k' p
  end.

Lemma linked_at_plug h k t : linked_at h NULL (plug k t) ↔ linked_at h (parp k) t ∧ ctx_at h k (rootp t).
Proof. revert t. induction k as [|[c p r|c l p] k IH]; intros t; simpl; [tauto|..]; rewrite IH; simpl; tauto. Qed.

Lemma linked_at_insert h par t q e : q ∉ nodes t → linked_at (<[q := e]> h) par t ↔ linked_at h par t.
Proof.
  revert par. induction t as [|c l IHl p r IHr]; intros par; simpl; [done|].
  rewrite not_elem_of_app, not_elem_of_cons. intros (Hl & Hp & Hr).
  by rewrite lookup_insert_ne, IHl, IHr by done.
Qed.

Lemma ctx_at_insert h k x q e : q ∉ before k → q ∉ after k → ctx_at (<[q := e]> h) k x ↔ ctx_at h k x.
Proof.
  revert x. induction k as [|[c p r|c l p] k IH]; intros x; simpl; [done|..];
    rewrite ?not_elem_of_app, ?not_elem_of_cons, ?not_elem_of_app; intros Hb Ha;
    rewrite lookup_insert_ne, linked_at_insert, IH by naive_solver; done.
Qed.

(** [rep F t m]: the memory [m] holds the tree [t], and otherwise what [F] holds. *)
Record rep (F : gmap Z rb_entry) (t : tree) (m : rb_mem) : Prop := {
  rep_root : rbt_root m = rootp t;
  rep_tree : linked_at (rb_heap m) NULL t;
  rep_nodup : NoDup (NULL :: nodes t);
  rep_frame q : q ∉ nodes t → rb_heap m !! q = F !! q
}.

(** What the changes of a few entries have to establish. *)
Lemma rep_edit F t t' m m' :
  rep F t m → nodes t' = nodes t →
  (∀ q, q ∉ nodes t → rb_heap m' !! q = rb_heap m !! q) →
  rbt_root m' = rootp t' → linked_at (rb_heap m') NULL t' → rep F t' m'.
Proof.
  intros [H1 H2 H3 H4] Hn Hf Hr Ht. split; [done|done|by rewrite Hn|].
  rewrite Hn. intros q Hq. by rewrite Hf, H4.
Qed.

(** ** Distinct entries *)

Definition aside (l1 l2 : list ptr) : Prop := ∀ x, x ∈ l1 → x ∈ l2 → False.

Lemma nodup_app l1 l2 : NoDup (l1 ++ l2) ↔ NoDup l1 ∧ NoDup l2 ∧ aside l1 l2.
Proof. rewrite NoDup_app. unfold aside, not. naive_solver. Qed.
Lemma aside_nil_l l : aside [] l ↔ True.
Proof. unfold aside. split; [done|]. by intros _ x ?%elem_of_nil. Qed.
Lemma aside_nil_r l : aside l [] ↔ True.
Proof. unfold aside. split; [done|]. by intros _ x _ ?%elem_of_nil. Qed.
Lemma aside_cons_l x l1 l2 : aside (x :: l1) l2 ↔ x ∉ l2 ∧ aside l1 l2.
Proof. unfold aside, not. setoid_rewrite elem_of_cons. naive_solver. Qed.
Lemma aside_cons_r x l1 l2 : aside l1 (x :: l2) ↔ x ∉ l1 ∧ aside l1 l2.
Proof. unfold aside, not. setoid_rewrite elem_of_cons. naive_solver. Qed.
Lemma aside_app_l l1 l2 l : aside (l1 ++ l2) l ↔ aside l1 l ∧ aside l2 l.
Proof. unfold aside. setoid_rewrite elem_of_app. naive_solver. Qed.
Lemma aside_app_r l1 l2 l : aside l (l1 ++ l2) ↔ aside l l1 ∧ aside l l2.
Proof. unfold aside. setoid_rewrite elem_of_app. naive_solver. Qed.

(** [distinct H] turns [NoDup] of a list of entries into the facts about its parts. *)
Ltac distinct H :=
  rewrite ?nodes_plug in H; simpl in H;
  repeat first
    [ rewrite nodup_app in H | rewrite NoDup_cons in H | rewrite aside_nil_l in H | rewrite aside_nil_r in H
    | rewrite aside_cons_l in H | rewrite aside_cons_r in H | rewrite aside_app_l in H | rewrite aside_app_r in H
    | rewrite not_elem_of_app in H | rewrite not_elem_of_cons in H ];
  destruct_and? H.

Lemma rootp_neq t p : p ∉ nodes t → NULL ≠ p → rootp t ≠ p.
Proof. destruct t; simpl; [done|]. set_solver. Qed.

Ltac neq :=
  first
    [ assumption | apply not_eq_sym; assumption | apply rootp_neq; assumption
    | apply not_eq_sym; apply rootp_neq; assumption | congruence ].

(** Lookups in a memory after some writes. *)
Ltac lookups := simpl; repeat first [rewrite lookup_insert_eq | rewrite lookup_insert_ne by neq].
Ltac look := lookups; first [eassumption | reflexivity].

(** Symbolic execution of the accesses to entries. *)
Section accesses.
Implicit Types (m : rb_mem) (e : rb_entry).

Lemma wp_left p e (Q : ptr → rb_mem → Prop) m : rb_heap m !! p = Some e → Q (rbt_left e) m → wp (RBE_LEFT p) Q m.
Proof. intros H HQ. unfold wp, RBE_LEFT, RBE, mbind, M_bind. by rewrite H. Qed.
Lemma wp_right p e (Q : ptr → rb_mem → Prop) m : rb_heap m !! p = Some e → Q (rbt_right e) m → wp (RBE_RIGHT p) Q m.
Proof. intros H HQ. unfold wp, RBE_RIGHT, RBE, mbind, M_bind. by rewrite H. Qed.
Lemma wp_parent p e (Q : ptr → rb_mem → Prop) m : rb_heap m !! p = Some e → Q (rbt_parent e) m → wp (RBE_PARENT p) Q m.
Proof. intros H HQ. unfold wp, RBE_PARENT, RBE, mbind, M_bind. by rewrite H. Qed.
Lemma wp_color p e (Q : Z → rb_mem → Prop) m : rb_heap m !! p = Some e → Q (rbt_color e) m → wp (RBE_COLOR p) Q m.
Proof. intros H HQ. unfold wp, RBE_COLOR, RBE, mbind, M_bind. by rewrite H. Qed.
Lemma wp_entry p e (Q : rb_entry → rb_mem → Prop) m : rb_heap m !! p = Some e → Q e m → wp (RBE p) Q m.
Proof. intros H HQ. unfold wp, RBE. by rewrite H. Qed.
Lemma wp_upd p f e (Q : unit → rb_mem → Prop) m :
  rb_heap m !! p = Some e → Q tt (mkRbMem (rbt_root m) (<[p := f e]> (rb_heap m))) → wp (RBE_upd p f) Q m.
Proof. intros H HQ. unfold wp, RBE_upd. by rewrite H. Qed.
Lemma wp_root (Q : ptr → rb_mem → Prop) m : Q (rbt_root m) m → wp RBH_ROOT Q m.
Proof. done. Qed.
Lemma wp_set_root v (Q : unit → rb_mem → Prop) m : Q tt (mkRbMem v (rb_heap m)) → wp (set_ROOT v) Q m.
Proof. done. Qed.
End accesses.

Ltac rb_step :=
  lazymatch goal with
  | |- wp (mbind _ _) _ _ => apply wp_bind
  | |- wp (mret _) _ _ => apply wp_ret
  | |- wp (when _ _) _ _ => apply wp_when
  | |- wp (RBE_LEFT _) _ _ => eapply wp_left; [look|]
  | |- wp (RBE_RIGHT _) _ _ => eapply wp_right; [look|]
  | |- wp (RBE_PARENT _) _ _ => eapply wp_parent; [look|]
  | |- wp (RBE_COLOR _) _ _ => eapply wp_color; [look|]
  | |- wp (RBE _) _ _ => eapply wp_entry; [look|]
  | |- wp (RBE_upd _ _) _ _ => eapply wp_upd; [look|]
  | |- wp (set_LEFT _ _) _ _ => unfold set_LEFT
  | |- wp (set_RIGHT _ _) _ _ => unfold set_RIGHT
  | |- wp (set_PARENT _ _) _ _ => unfold set_PARENT
  | |- wp (set_COLOR _ _) _ _ => unfold set_COLOR
  | |- wp RBH_ROOT _ _ => apply wp_root
  | |- wp (set_ROOT _) _ _ => apply wp_set_root
  | |- wp (rotate_augment _ _ _) _ _ => unfold rotate_augment
  | |- context [?p =? ?p] => rewrite (Z.eqb_refl p)
  | |- context [?p =? ?q] => rewrite (proj2 (Z.eqb_neq p q)) by neq
  end; cbn beta iota zeta delta [negb rbt_left rbt_right rbt_parent rbt_color set set_rbt_left set_rbt_right
    set_rbt_parent set_rbt_color rbt_root rb_heap parp framep rootp].

(** ** Reading and painting *)

Lemma rep_node F k c l p r m :
  rep F (plug k (Node c l p r)) m →
  rb_heap m !! p = Some (mkRb (parp k) (rootp l) (rootp r) c) ∧ p ≠ NULL.
Proof.
  intros [_ Ht Hd _]. apply linked_at_plug in Ht as [[Hp _] _]. split; [done|]. distinct Hd. congruence.
Qed.

Lemma wp_paint F k c c' l p r (Q : unit → rb_mem → Prop) m :
  rep F (plug k (Node c l p r)) m →
  (∀ m', rep F (plug k (Node c' l p r)) m' → Q tt m') →
  wp (set_COLOR p c') Q m.
Proof.
  intros Hm HQ. pose proof (rep_node _ _ _ _ _ _ _ Hm) as [Hp _]. pose proof Hm as [Hr Ht Hd Hf].
  rb_step. rb_step. apply HQ. eapply rep_edit; [exact Hm|by rewrite !nodes_plug|..].
  - intros q Hq. simpl. rewrite lookup_insert_ne; [done|]. intros <-. apply Hq. rewrite nodes_plug. simpl. set_solver.
  - simpl. rewrite Hr. by apply rootp_plug.
  - apply linked_at_plug in Ht as [(_ & Hl & Hrr) Hk]. apply linked_at_plug. distinct Hd. simpl.
    rewrite lookup_insert_eq, !linked_at_insert, ctx_at_insert by done. done.
Qed.

(** ** Changes of links *)

Ltac absent Hq :=
  rewrite ?nodes_plug in Hq; simpl in Hq;
  repeat first [rewrite not_elem_of_app in Hq | rewrite not_elem_of_cons in Hq]; destruct_and? Hq.

(** The memory after a symbolic execution represents the tree of the goal. *)
Ltac relinked :=
  rewrite ?linked_at_plug; simpl;
  repeat first
    [ rewrite lookup_insert_eq | rewrite lookup_insert_ne by neq
    | rewrite linked_at_insert by assumption | rewrite ctx_at_insert by assumption ];
  repeat split; try done; try assumption.

Ltac same_nodes := rewrite ?nodes_plug; simpl; rewrite ?app_nil_r; repeat (rewrite <-app_assoc; simpl); reflexivity.

(** The changed entries are those of the tree, the root is that of the goal's tree, and
    the entries of the goal's tree are in place. *)
Ltac edited Hm Hr :=
  (eapply rep_edit; [exact Hm|same_nodes| | |relinked]);
  [intros x Hx; absent Hx; look; done|done || (simpl; rewrite Hr; by apply rootp_plug)].

Section rotations.
Context (t : rb_type) (Haug : t_augment t = None).

Lemma wp_rotate_left F k c a p c' b q d (Q : unit → rb_mem → Prop) m :
  rep F (plug k (Node c a p (Node c' b q d))) m →
  (∀ m', rep F (plug k (Node c' (Node c a p b) q d)) m' → Q tt m') →
  wp (rbe_rotate_left t p) Q m.
Proof.
  intros Hm HQ. pose proof Hm as [Hr Ht Hd Hf].
  apply linked_at_plug in Ht as [(Hp & Ha & Hq & Hb & Hdd) Hk].
  unfold rbe_rotate_left, relink, rotate_augment. rewrite Haug.
  destruct b as [|cb bl pb br], k as [|[ck pk rk|ck lk pk] k]; simpl in *; destruct_and? Hb; destruct_and? Hk;
    distinct Hd; repeat rb_step; apply HQ; edited Hm Hr.
Qed.

Lemma wp_rotate_right F k c c' a p b q d (Q : unit → rb_mem → Prop) m :
  rep F (plug k (Node c (Node c' a p b) q d)) m →
  (∀ m', rep F (plug k (Node c' a p (Node c b q d))) m' → Q tt m') →
  wp (rbe_rotate_right t q) Q m.
Proof.
  intros Hm HQ. pose proof Hm as [Hr Ht Hd Hf].
  apply linked_at_plug in Ht as [(Hq & (Hp & Ha & Hb) & Hdd) Hk].
  unfold rbe_rotate_right, relink, rotate_augment. rewrite Haug.
  destruct b as [|cb bl pb br], k as [|[ck pk rk|ck lk pk] k]; simpl in *; destruct_and? Hb; destruct_and? Hk;
    distinct Hd; repeat rb_step; apply HQ; edited Hm Hr.
Qed.
End rotations.

(** ** Linking and unlinking an entry

    The changes of links with which an insertion adds an entry below a leaf and a removal
    takes an entry out of the tree. *)

(** [NoDup] of a list from the facts about its parts. *)
Lemma aside_sym l1 l2 : aside l1 l2 → aside l2 l1.
Proof. unfold aside. eauto. Qed.

Ltac distinct_goal :=
  rewrite ?nodes_plug; simpl;
  repeat first
    [ rewrite nodup_app | rewrite NoDup_cons | rewrite aside_nil_l | rewrite aside_nil_r
    | rewrite aside_cons_l | rewrite aside_cons_r | rewrite aside_app_l | rewrite aside_app_r
    | rewrite not_elem_of_app | rewrite not_elem_of_cons ];
  repeat split; first [assumption | apply aside_sym; assumption | neq | by apply not_elem_of_nil | constructor].

(** An entry that is none of a tree's. *)
Ltac outside :=
  rewrite ?nodes_plug; simpl; repeat first [rewrite not_elem_of_app | rewrite not_elem_of_cons];
  repeat split; first [neq | by apply not_elem_of_nil].

Ltac built p Hr Hf :=
  split;
  [done || (simpl; rewrite Hr; by apply rootp_plug)
  |relinked
  |distinct_goal
  |let x := fresh "x" in let Hx := fresh "Hx" in
   intros x Hx; absent Hx; destruct (decide (x = p)) as [->|];
   lookups; first [done | apply Hf; outside] ].

Section links.
Context (t : rb_type) (Haug : t_augment t = None).

(** Where the last comparison sends the new entry. *)
Definition toward (k : ctx) (comp : Z) : Prop :=
  match k with
  | [] => True
  | InL _ _ _ :: _ => comp < 0
  | InR _ _ _ :: _ => 0 < comp
  end.

Lemma wp_link F k p e0 comp (Q : unit → rb_mem → Prop) m :
  rep F (plug k Leaf) m → p ∉ nodes (plug k Leaf) → NULL ≠ p → F !! p = Some e0 → toward k comp →
  (∀ m', rep F (plug k (Node RB_RED Leaf p Leaf)) m' → Q tt m') →
  wp (rbe_set p (parp k);;
      (if negb (parp k =? NULL) then
         (if comp <? 0 then set_LEFT (parp k) p else set_RIGHT (parp k) p);;
         rbe_if_augment t (parp k)
       else set_ROOT p)) Q m.
Proof.
  intros Hm Hn Hnull He Hc HQ. pose proof Hm as [Hr Ht Hd Hf].
  assert (rb_heap m !! p = Some e0) as Hp by by rewrite Hf.
  apply linked_at_plug in Ht as [_ Hk]. unfold rbe_set, rbe_if_augment. rewrite Haug.
  destruct k as [|[ck pk rk|ck lk pk] k]; simpl in *; destruct_and? Hk; distinct Hd; absent Hn;
    try rewrite (proj2 (Z.ltb_lt _ _)) by lia; try rewrite (proj2 (Z.ltb_ge _ _)) by lia;
    repeat rb_step; apply HQ; built p Hr Hf.
Qed.

(** An entry with at most one child leaves its place to the child. *)
Lemma wp_unlink F k c l p r x (Q : unit → rb_mem → Prop) m :
  rep F (plug k (Node c l p r)) m → (l = Leaf ∧ x = r ∨ r = Leaf ∧ x = l) →
  (∀ m', rep (<[p := mkRb (parp k) (rootp l) (rootp r) c]> F) (plug k x) m' → Q tt m') →
  wp (unlink t p (rootp x) (parp k)) Q m.
Proof.
  intros Hm Hx HQ. pose proof Hm as [Hr Ht Hd Hf].
  apply linked_at_plug in Ht as [(Hp & Hl & Hrr) Hk]. unfold unlink, relink, rbe_if_augment. rewrite Haug.
  destruct Hx as [[-> ->]|[-> ->]];
    [destruct r as [|cx lx px rx]|destruct l as [|cx lx px rx]];
    destruct k as [|[ck pk rk|ck lk pk] k]; simpl in *; destruct_and? Hl; destruct_and? Hrr; destruct_and? Hk;
    distinct Hd; repeat rb_step; apply HQ; built p Hr Hf.
Qed.

(** The entry [s], outside of the tree, takes the place of [old]. *)
Lemma wp_take_place F k c l old r s e0 (Q : unit → rb_mem → Prop) m :
  rep F (plug k (Node c l old r)) m → l ≠ Leaf →
  s ∉ nodes (plug k (Node c l old r)) → NULL ≠ s → F !! s = Some e0 →
  (∀ m', rep (<[old := mkRb (parp k) (rootp l) (rootp r) c]> F) (plug k (Node c l s r)) m' → Q tt m') →
  wp (take_place t s old) Q m.
Proof.
  intros Hm Hleft Hn Hnull He HQ. pose proof Hm as [Hr Ht Hd Hf].
  assert (rb_heap m !! s = Some e0) as Hs by by rewrite Hf.
  apply linked_at_plug in Ht as [(Hp & Hl & Hrr) Hk]. unfold take_place, relink, rbe_if_augment. rewrite Haug.
  destruct l as [|cl ll pl rl]; [done|]. clear Hleft.
  destruct r as [|cx lx px rx]; destruct k as [|[ck pk rk|ck lk pk] k]; simpl in *;
    destruct_and? Hl; destruct_and? Hrr; destruct_and? Hk;
    distinct Hd; absent Hn; repeat rb_step; apply HQ; built old Hr Hf.
Qed.
End links.
