(* ===== verification/RbInsert.v ===== *)
(** * Insertion into a red-black tree restores its colours

    The colour conditions of a red-black tree and of a tree with a hole, and the loop of
    [rbe_insert_color]: a red entry added below a leaf becomes part of a red-black tree
    with the same entries in the same order. *)

From S2P Require Import Prelude CMem State Machine RbTree RbRep.
#[local] Open Scope Z_scope.

(** ** Colours *)

(** [rb c n t]: the root of [t] has the colour [c] (a leaf is black), every path has [n]
    black entries, and no red entry has a red child. *)
Inductive rb : Z → nat → tree → Prop :=
| rb_leaf : rb RB_BLACK 0 Leaf
| rb_red n l p r : rb RB_BLACK n l → rb RB_BLACK n r → rb RB_RED n (Node RB_RED l p r)
| rb_black n cl cr l p r : rb cl n l → rb cr n r → rb RB_BLACK (S n) (Node RB_BLACK l p r).

Definition fcolor (f : frame) : Z :=
  match f with
  | InL c _ _ | InR c _ _ => c
  end.

Definition sibling (f : frame) : tree :=
  match f with
  | InL _ _ r => r
  | InR _ l _ => l
  end.

(** [hole c n k]: a tree of colour [c] and black height [n] in the hole of [k] makes a
    red-black tree with a black root. *)
Inductive hole : Z → nat → ctx → Prop :=
| hole_root n : hole RB_BLACK n []
| hole_red n f k : fcolor f = RB_RED → rb RB_BLACK n (sibling f) → hole RB_RED n k → hole RB_BLACK n (f :: k)
| hole_black c cs n f k : fcolor f = RB_BLACK → rb cs n (sibling f) → hole RB_BLACK (S n) k → hole c n (f :: k).

#[export] Hint Constructors rb hole : rb.

Lemma plug_rb c n k t : rb c n t → hole c n k → ∃ n', rb RB_BLACK n' (plug k t).
Proof.
  intros Ht Hk. revert t Ht. induction Hk as [n|n f k Hf Hs Hk IH|c cs n f k Hf Hs Hk IH]; intros t Ht.
  - by exists n.
  - destruct f; simpl in *; subst; apply IH; eauto with rb.
  - destruct f; simpl in *; subst; apply IH; eauto with rb.
Qed.

Lemma rb_plug n' k t : rb RB_BLACK n' (plug k t) → ∃ c n, rb c n t ∧ hole c n k.
Proof.
  revert t. induction k as [|f k IH]; intros t H; [by exists RB_BLACK, n'; eauto with rb|].
  destruct (IH _ H) as (c & n & Ht & Hk). destruct f; simpl in Ht; inversion Ht; subst.
  - exists RB_BLACK, n. split; [done|]. by apply hole_red.
  - eexists _, _. split; [eassumption|]. by eapply hole_black.
  - exists RB_BLACK, n. split; [done|]. by apply hole_red.
  - eexists _, _. split; [eassumption|]. by eapply hole_black.
Qed.

Lemma rb_colors c n t : rb c n t → c = RB_BLACK ∨ c = RB_RED.
Proof. destruct 1; auto. Qed.

(** ** The loop *)

(** The tree is red-black once its root is painted black. *)
Definition root_black (t : tree) : Prop :=
  ∃ c l p r n, t = Node c l p r ∧ rb RB_BLACK n (Node RB_BLACK l p r).

Lemma root_black_rb n t : t ≠ Leaf → rb RB_BLACK n t → root_black t.
Proof. intros Hl H. destruct t as [|c l p r]; [done|]. exists c, l, p, r, n. split; [done|]. by inversion H; subst. Qed.

Lemma plug_node k c l p r : plug k (Node c l p r) ≠ Leaf.
Proof. revert c l p r. induction k as [|[] k IH]; intros c' l' p' r'; [done|apply IH..]. Qed.

(** The facts about the entries of the tree [plug k t] in memory. *)
Ltac open Hm k :=
  let Ht := fresh "Ht" in let Hk := fresh "Hk" in let Hd := fresh "Hd" in
  pose proof (rep_tree _ _ _ Hm) as Ht; pose proof (rep_nodup _ _ _ Hm) as Hd;
  cbn [plug fill] in Ht; apply (linked_at_plug _ k) in Ht as [Ht Hk]; simpl in Ht; destruct_and? Ht; simpl in Hk, Hd; distinct Hd.

Lemma wp_is_red F k t (Q : bool → rb_mem → Prop) m c n :
  rep F (plug k t) m → rb c n t → Q (c =? RB_RED) m → wp (is_red (rootp t)) Q m.
Proof.
  intros Hm Ht HQ. unfold is_red. destruct Ht as [|n l p r Hl Hr|n cl cr l p r Hl Hr]; [done|..];
    destruct (rep_node _ _ _ _ _ _ _ Hm) as [Hp Hnull]; simpl; repeat rb_step; done.
Qed.

Lemma wp_is_black F k t (Q : bool → rb_mem → Prop) m c n :
  rep F (plug k t) m → rb c n t → Q (c =? RB_BLACK) m → wp (is_black (rootp t)) Q m.
Proof.
  intros Hm Ht HQ. unfold is_black. destruct Ht as [|n l p r Hl Hr|n cl cr l p r Hl Hr]; [done|..];
    destruct (rep_node _ _ _ _ _ _ _ Hm) as [Hp Hnull]; simpl; repeat rb_step; done.
Qed.

Lemma rep_parent F f k t m :
  rep F (plug (f :: k) t) m → ∃ e, rb_heap m !! framep f = Some e ∧ rbt_color e = fcolor f ∧ framep f ≠ NULL.
Proof.
  intros Hm. pose proof (rep_tree _ _ _ Hm) as Ht. pose proof (rep_nodup _ _ _ Hm) as Hd.
  apply linked_at_plug in Ht as [_ Hc]. destruct f; simpl in Hc, Hd; distinct Hd; destruct Hc as [Hc _];
    (eexists; split; [exact Hc|]); (split; [done|]); simpl; congruence.
Qed.

(** Symbolic execution up to the next painting. *)
Ltac reads := repeat lazymatch goal with |- wp (set_COLOR _ _) _ _ => fail | _ => rb_step end.

Ltac binds := repeat lazymatch goal with |- wp (mbind _ _) _ _ => apply wp_bind end.

(** [paint k] and [rotate] follow the tree of [Hm] through a painting of the entry in the
    hole of [k] and a rotation there. *)
Ltac paint Hm k :=
  let m := fresh "m" in let H := fresh "H" in
  binds; eapply (wp_paint _ k); [exact Hm|]; intros m H; clear Hm; rename H into Hm; cbn [plug fill] in Hm.
Ltac rotate Hm rule k :=
  let m := fresh "m" in let H := fresh "H" in
  binds; eapply (rule k); [exact Hm|]; intros m H; clear Hm; rename H into Hm; cbn [plug fill] in Hm.

Section insert_color.
Context (t : rb_type) (Haug : t_augment t = None).

(** A red [p] below a place where a black tree of its height fits. *)
Definition red_below (F : gmap Z rb_entry) (k : ctx) (l : tree) (p : ptr) (r : tree) (n : nat) (m : rb_mem) : Prop :=
  rep F (plug k (Node RB_RED l p r)) m ∧ rb RB_BLACK n l ∧ rb RB_BLACK n r ∧ hole RB_BLACK n k.

(** What the loop establishes, from [T0]: the same entries in the same order. *)
Definition settled (F : gmap Z rb_entry) (T0 : tree) (Q : unit → rb_mem → Prop) : Prop :=
  ∀ T m', rep F T m' → nodes T = nodes T0 → root_black T → Q tt m'.

Definition loop_ok (fuel : nat) : Prop :=
  ∀ F k l p r n (Q : unit → rb_mem → Prop) m,
    red_below F k l p r n m → (length k < fuel)%nat → settled F (plug k (Node RB_RED l p r)) Q →
    wp (insert_color_loop fuel t p) Q m.

(** The four places of a red entry with a red parent. *)
Lemma insert_LL fuel F k l p r pf x pg u cs n (Q : unit → rb_mem → Prop) m :
  loop_ok fuel → rep F (plug k (Node RB_BLACK (Node RB_RED (Node RB_RED l p r) pf x) pg u)) m →
  rb RB_BLACK n l → rb RB_BLACK n r → rb RB_BLACK n x → rb cs n u → hole RB_BLACK (S n) k →
  (length k + 2 < S fuel)%nat →
  settled F (plug k (Node RB_BLACK (Node RB_RED (Node RB_RED l p r) pf x) pg u)) Q →
  wp (insert_color_loop (S fuel) t p) Q m.
Proof.
  intros IH Hm Hl Hr Hx Hu Hk Hf HQ. simpl.
  open Hm k. repeat rb_step. unfold is_red at 1. repeat rb_step.
  apply (wp_is_red F (InR RB_BLACK (Node RB_RED (Node RB_RED l p r) pf x) pg :: k) u _ _ cs n Hm Hu).
  destruct (rb_colors _ _ _ Hu) as [-> | ->]; simpl; [repeat rb_step|].
  - unfold rbe_set_blackred. paint Hm (InL RB_BLACK pg u :: k). paint Hm k.
    rotate Hm (wp_rotate_right t Haug F) k.
    apply (IH F (InL RB_BLACK pf (Node RB_RED x pg u) :: k) l p r n); [|simpl; lia|].
    + refine (conj Hm (conj _ (conj _ _))); [done|done|]. eapply hole_black; [done| |exact Hk]. simpl. eauto with rb.
    + intros T m' HT HN. apply (HQ T m' HT). rewrite HN. same_nodes.
  - inversion Hu as [|? ul q ur Hul Hur|]; subst. simpl.
    paint Hm (InR RB_BLACK (Node RB_RED (Node RB_RED l p r) pf x) pg :: k). unfold rbe_set_blackred. paint Hm (InL RB_BLACK pg (Node RB_BLACK ul q ur) :: k). paint Hm k.
    apply (IH F k (Node RB_BLACK (Node RB_RED l p r) pf x) pg (Node RB_BLACK ul q ur) (S n)); [|simpl; lia|].
    + refine (conj Hm (conj _ (conj _ Hk))); eauto with rb.
    + intros T m' HT HN. apply (HQ T m' HT). rewrite HN. same_nodes.
Qed.

Lemma insert_LR fuel F k l p r pf x pg u cs n (Q : unit → rb_mem → Prop) m :
  loop_ok fuel → rep F (plug k (Node RB_BLACK u pg (Node RB_RED (Node RB_RED l p r) pf x))) m →
  rb RB_BLACK n l → rb RB_BLACK n r → rb RB_BLACK n x → rb cs n u → hole RB_BLACK (S n) k →
  (length k + 2 < S fuel)%nat →
  settled F (plug k (Node RB_BLACK u pg (Node RB_RED (Node RB_RED l p r) pf x))) Q →
  wp (insert_color_loop (S fuel) t p) Q m.
Proof.
  intros IH Hm Hl Hr Hx Hu Hk Hf HQ. simpl.
  open Hm k. repeat rb_step. unfold is_red at 1. repeat rb_step.
  apply (wp_is_red F (InL RB_BLACK pg (Node RB_RED (Node RB_RED l p r) pf x) :: k) u _ _ cs n Hm Hu).
  destruct (rb_colors _ _ _ Hu) as [-> | ->]; simpl; [repeat rb_step|].
  - rotate Hm (wp_rotate_right t Haug F) (InR RB_BLACK u pg :: k). unfold rbe_set_blackred. paint Hm (InR RB_BLACK u pg :: k). paint Hm k.
    rotate Hm (wp_rotate_left t Haug F) k.
    apply (IH F (InR RB_BLACK (Node RB_RED u pg l) p :: k) r pf x n); [|simpl; lia|].
    + refine (conj Hm (conj _ (conj _ _))); [done|done|]. eapply hole_black; [done| |exact Hk]. simpl. eauto with rb.
    + intros T m' HT HN. apply (HQ T m' HT). rewrite HN. same_nodes.
  - inversion Hu as [|? ul q ur Hul Hur|]; subst. simpl.
    paint Hm (InL RB_BLACK pg (Node RB_RED (Node RB_RED l p r) pf x) :: k). unfold rbe_set_blackred. paint Hm (InR RB_BLACK (Node RB_BLACK ul q ur) pg :: k). paint Hm k.
    apply (IH F k (Node RB_BLACK ul q ur) pg (Node RB_BLACK (Node RB_RED l p r) pf x) (S n)); [|simpl; lia|].
    + refine (conj Hm (conj _ (conj _ Hk))); eauto with rb.
    + intros T m' HT HN. apply (HQ T m' HT). rewrite HN. same_nodes.
Qed.

Lemma insert_RL fuel F k l p r pf x pg u cs n (Q : unit → rb_mem → Prop) m :
  loop_ok fuel → rep F (plug k (Node RB_BLACK (Node RB_RED x pf (Node RB_RED l p r)) pg u)) m →
  rb RB_BLACK n l → rb RB_BLACK n r → rb RB_BLACK n x → rb cs n u → hole RB_BLACK (S n) k →
  (length k + 2 < S fuel)%nat →
  settled F (plug k (Node RB_BLACK (Node RB_RED x pf (Node RB_RED l p r)) pg u)) Q →
  wp (insert_color_loop (S fuel) t p) Q m.
Proof.
  intros IH Hm Hl Hr Hx Hu Hk Hf HQ. simpl.
  open Hm k. repeat rb_step. unfold is_red at 1. repeat rb_step.
  apply (wp_is_red F (InR RB_BLACK (Node RB_RED x pf (Node RB_RED l p r)) pg :: k) u _ _ cs n Hm Hu).
  destruct (rb_colors _ _ _ Hu) as [-> | ->]; simpl; [repeat rb_step|].
  - rotate Hm (wp_rotate_left t Haug F) (InL RB_BLACK pg u :: k). unfold rbe_set_blackred. paint Hm (InL RB_BLACK pg u :: k). paint Hm k.
    rotate Hm (wp_rotate_right t Haug F) k.
    apply (IH F (InL RB_BLACK p (Node RB_RED r pg u) :: k) x pf l n); [|simpl; lia|].
    + refine (conj Hm (conj _ (conj _ _))); [done|done|]. eapply hole_black; [done| |exact Hk]. simpl. eauto with rb.
    + intros T m' HT HN. apply (HQ T m' HT). rewrite HN. same_nodes.
  - inversion Hu as [|? ul q ur Hul Hur|]; subst. simpl.
    paint Hm (InR RB_BLACK (Node RB_RED x pf (Node RB_RED l p r)) pg :: k). unfold rbe_set_blackred. paint Hm (InL RB_BLACK pg (Node RB_BLACK ul q ur) :: k). paint Hm k.
    apply (IH F k (Node RB_BLACK x pf (Node RB_RED l p r)) pg (Node RB_BLACK ul q ur) (S n)); [|simpl; lia|].
    + refine (conj Hm (conj _ (conj _ Hk))); eauto with rb.
    + intros T m' HT HN. apply (HQ T m' HT). rewrite HN. same_nodes.
Qed.

Lemma insert_RR fuel F k l p r pf x pg u cs n (Q : unit → rb_mem → Prop) m :
  loop_ok fuel → rep F (plug k (Node RB_BLACK u pg (Node RB_RED x pf (Node RB_RED l p r)))) m →
  rb RB_BLACK n l → rb RB_BLACK n r → rb RB_BLACK n x → rb cs n u → hole RB_BLACK (S n) k →
  (length k + 2 < S fuel)%nat →
  settled F (plug k (Node RB_BLACK u pg (Node RB_RED x pf (Node RB_RED l p r)))) Q →
  wp (insert_color_loop (S fuel) t p) Q m.
Proof.
  intros IH Hm Hl Hr Hx Hu Hk Hf HQ. simpl.
  open Hm k. repeat rb_step. unfold is_red at 1. repeat rb_step.
  apply (wp_is_red F (InL RB_BLACK pg (Node RB_RED x pf (Node RB_RED l p r)) :: k) u _ _ cs n Hm Hu).
  destruct (rb_colors _ _ _ Hu) as [-> | ->]; simpl; [repeat rb_step|].
  - unfold rbe_set_blackred. paint Hm (InR RB_BLACK u pg :: k). paint Hm k.
    rotate Hm (wp_rotate_left t Haug F) k.
    apply (IH F (InR RB_BLACK (Node RB_RED u pg x) pf :: k) l p r n); [|simpl; lia|].
    + refine (conj Hm (conj _ (conj _ _))); [done|done|]. eapply hole_black; [done| |exact Hk]. simpl. eauto with rb.
    + intros T m' HT HN. apply (HQ T m' HT). rewrite HN. same_nodes.
  - inversion Hu as [|? ul q ur Hul Hur|]; subst. simpl.
    paint Hm (InL RB_BLACK pg (Node RB_RED x pf (Node RB_RED l p r)) :: k). unfold rbe_set_blackred. paint Hm (InR RB_BLACK (Node RB_BLACK ul q ur) pg :: k). paint Hm k.
    apply (IH F k (Node RB_BLACK ul q ur) pg (Node RB_BLACK x pf (Node RB_RED l p r)) (S n)); [|simpl; lia|].
    + refine (conj Hm (conj _ (conj _ Hk))); eauto with rb.
    + intros T m' HT HN. apply (HQ T m' HT). rewrite HN. same_nodes.
Qed.

Lemma insert_loop_ok fuel : loop_ok fuel.
Proof.
  induction fuel as [|fuel IH]; intros F k l p r n Q m (Hm & Hl & Hr & Hk) Hf HQ; [lia|].
  inversion Hk as [n'|n' f k1 Ec Es Hk1|c cs n' f k1 Ec Es Hk1]; subst.
  - (* the root *)
    destruct (rep_node _ _ _ _ _ _ _ Hm) as [Hp _]. simpl. repeat rb_step.
    apply (HQ _ _ Hm); [done|]. exists RB_RED, l, p, r, (S n). eauto with rb.
  - (* a red parent *)
    inversion Hk1 as [|? ? ? ? ? ? E1 E2|c cs n' g k2 Eg Eu Hk2]; subst. simpl in Hf.
    destruct f as [cf pf x|cf x pf], g as [cg pg u|cg u pg]; simpl in *; subst;
      [eapply insert_LL|eapply insert_LR|eapply insert_RL|eapply insert_RR]; try done; lia.
  - (* a black parent *)
    destruct (plug_rb RB_RED n (f :: k1) (Node RB_RED l p r)) as [n' Hn]; [by eauto with rb..|].
    destruct (rep_node _ _ _ _ _ _ _ Hm) as [Hp _].
    destruct (rep_parent _ _ _ _ _ Hm) as (e & He & Hec & Hnull).
    simpl. repeat rb_step. unfold is_red. repeat rb_step. rewrite Hec, Ec. simpl.
    apply (HQ _ _ Hm); [done|]. by eapply root_black_rb, Hn; apply plug_node.
Qed.
End insert_color.
