(* ===== verification/RbRemove.v ===== *)
(** * Removal from a red-black tree restores its colours

    The loop of [rbe_remove_color]: a subtree that is one black entry short on every path
    becomes part of a red-black tree with the same entries in the same order. *)

From S2P Require Import Prelude CMem State Machine RbTree RbRep RbInsert.
#[local] Open Scope Z_scope.

Definition blacken (t : tree) : tree :=
  match t with
  | Leaf => Leaf
  | Node _ l p r => Node RB_BLACK l p r
  end.

(** [short n s]: [s] is a black tree of height [n], or one of height [n + 1] once its red
    root is painted black. *)
Definition short (n : nat) (s : tree) : Prop :=
  rb RB_BLACK n s ∨ ∃ l p r, s = Node RB_RED l p r ∧ rb RB_BLACK (S n) (Node RB_BLACK l p r).

(** The tree is red-black once the entry [y], if there is one, is painted black. *)
Definition paintable (T : tree) (y : ptr) : Prop :=
  ∃ k s n, T = plug k s ∧ y = rootp s ∧ rb RB_BLACK n (plug k (blacken s)).

Lemma hole_weaken c n k : hole c n k → hole RB_BLACK n k.
Proof. destruct 1; eauto with rb. Qed.

Lemma root_in_ctx f k s : rootp (plug (f :: k) s) ∈ before (f :: k) ++ after (f :: k).
Proof.
  revert f s. induction k as [|g k IH]; intros f s; [destruct f; simpl; set_solver|].
  specialize (IH g (fill f s)). rewrite elem_of_app in IH |- *.
  change (plug (f :: g :: k) s) with (plug (g :: k) (fill f s)).
  destruct f; simpl; rewrite ?elem_of_cons, ?elem_of_app; simpl in *; naive_solver.
Qed.

Lemma not_the_root F f k s m : rep F (plug (f :: k) s) m → rootp s ≠ rbt_root m.
Proof.
  intros [Hr _ Hd _] E. rewrite Hr in E. pose proof (root_in_ctx f k s) as Hin. rewrite <-E in Hin.
  rewrite nodes_plug in Hd. apply NoDup_cons in Hd as [Hnull Hd].
  destruct s as [|c l p r]; simpl in *.
  - apply Hnull. rewrite elem_of_app in *. simpl. tauto.
  - apply nodup_app in Hd as (_ & Hd & Hb). apply nodup_app in Hd as (_ & _ & Ha).
    rewrite elem_of_app in Hin. destruct Hin as [Hin|Hin]; [apply (Hb p); [done|]|apply (Ha p)]; set_solver.
Qed.

Lemma rb_colors_root c n c' l p r : rb c n (Node c' l p r) → c' = c.
Proof. by inversion 1. Qed.

Section remove_color.
Context (t : rb_type) (Haug : t_augment t = None).

(** What the loop establishes. *)
Definition recolored (F : gmap Z rb_entry) (T0 : tree) (Q : ptr → rb_mem → Prop) : Prop :=
  ∀ T y m', rep F T m' → nodes T = nodes T0 → paintable T y → Q y m'.

Definition again_ok (again : ptr → ptr → R ptr) (len : nat) : Prop :=
  ∀ F k s n (Q : ptr → rb_mem → Prop) m,
    rep F (plug k s) m → short n s → hole RB_BLACK (S n) k →
    (length k ≤ len ∨ ¬ rb RB_BLACK n s)%nat →
    recolored F (plug k s) Q → wp (again (parp k) (rootp s)) Q m.

Lemma whole_paintable c n k u : rb c n u → hole c n k → paintable (plug k u) (rootp (plug k u)).
Proof.
  intros Hu Hk. destruct (plug_rb c n k u Hu Hk) as [n' H]. exists [], (plug k u), n'.
  split; [done|]. split; [done|]. simpl. destruct (plug k u); [done|]. inversion H; subst. simpl. eauto with rb.
Qed.

Lemma wp_break_left F k cp s pp sl q x y z n cl (Q : ptr → rb_mem → Prop) m :
  rep F (plug k (Node cp s pp (Node RB_BLACK sl q (Node RB_RED x y z)))) m →
  rb RB_BLACK n s → rb cl n sl → rb RB_BLACK n x → rb RB_BLACK n z →
  (cp = RB_RED ∧ hole RB_RED (S n) k ∨ cp = RB_BLACK ∧ hole RB_BLACK (S (S n)) k) →
  recolored F (plug k (Node cp s pp (Node RB_BLACK sl q (Node RB_RED x y z)))) Q →
  wp (remove_break_left t pp q) Q m.
Proof.
  intros Hm Hs Hsl Hx Hz Hc HQ. unfold remove_break_left. open Hm k. reads. paint Hm (InR cp s pp :: k).
  paint Hm k. open Hm k. reads. paint Hm (InR cp sl q :: InR RB_BLACK s pp :: k).
  rotate Hm (wp_rotate_left t Haug F) k. repeat rb_step.
  rewrite (rep_root _ _ _ Hm). eapply HQ; [exact Hm|same_nodes|].
  destruct Hc as [[-> Hc]|[-> Hc]]; (eapply whole_paintable; [|exact Hc]); eauto 8 with rb.
Qed.

Lemma wp_black_left again len F k cp s pp sl q sr n cl cr (Q : ptr → rb_mem → Prop) m :
  again_ok again len →
  rep F (plug k (Node cp s pp (Node RB_BLACK sl q sr))) m →
  rb RB_BLACK n s → rb cl n sl → rb cr n sr →
  (cp = RB_RED ∧ hole RB_RED (S n) k ∨ cp = RB_BLACK ∧ hole RB_BLACK (S (S n)) k ∧ (length k ≤ len)%nat) →
  recolored F (plug k (Node cp s pp (Node RB_BLACK sl q sr))) Q →
  wp (remove_black_left again t pp q) Q m.
Proof.
  intros IH Hm Hs Hsl Hsr Hc HQ. unfold remove_black_left. open Hm k. reads.
  apply (wp_is_black F (InL RB_BLACK q sr :: InR cp s pp :: k) sl _ _ cl n Hm Hsl). reads.
  assert (cp = RB_RED ∧ hole RB_RED (S n) k ∨ cp = RB_BLACK ∧ hole RB_BLACK (S (S n)) k) as Hc' by tauto.
  pose proof (λ Q, wp_is_black F (InR RB_BLACK sl q :: InR cp s pp :: k) sr Q _ cr n Hm Hsr) as Hblack.
  destruct (rb_colors _ _ _ Hsl) as [-> | ->]; simpl.
  - apply Hblack. destruct (rb_colors _ _ _ Hsr) as [-> | ->]; simpl; reads.
    + paint Hm (InR cp s pp :: k). open Hm k. reads.
      change pp with (rootp (Node cp s pp (Node RB_RED sl q sr))).
      destruct Hc as [[-> Hc]|(-> & Hc & Hlen)].
      * apply (IH F k _ n); [exact Hm|right; eauto 10 with rb|by eapply hole_weaken| |].
        -- right. intros E%rb_colors_root. done.
        -- intros T y m' HT HN. apply (HQ T y m' HT). rewrite HN. same_nodes.
      * apply (IH F k _ (S n)); [exact Hm|left; eauto with rb|done|by left|].
        intros T y m' HT HN. apply (HQ T y m' HT). rewrite HN. same_nodes.
    + apply Hblack. simpl. inversion Hsr as [|? x y z Hx Hz|]; subst. by eapply wp_break_left.
  - reads. apply Hblack. destruct (rb_colors _ _ _ Hsr) as [-> | ->]; simpl; reads.
    + inversion Hsl as [|? a o b Ha Hb|]; subst. open Hm k. reads.
      paint Hm (InL RB_BLACK q sr :: InR cp s pp :: k). paint Hm (InR cp s pp :: k).
      rotate Hm (wp_rotate_right t Haug F) (InR cp s pp :: k). open Hm k. reads.
      eapply wp_break_left; [exact Hm|done..|].
      intros T y m' HT HN. apply (HQ T y m' HT). rewrite HN. same_nodes.
    + inversion Hsr as [|? x y z Hx Hz|]; subst. by eapply wp_break_left.
Qed.

(** The mirror images. *)
Lemma wp_break_right F k cp s pp x y z q sr n cr (Q : ptr → rb_mem → Prop) m :
  rep F (plug k (Node cp (Node RB_BLACK (Node RB_RED x y z) q sr) pp s)) m →
  rb RB_BLACK n s → rb cr n sr → rb RB_BLACK n x → rb RB_BLACK n z →
  (cp = RB_RED ∧ hole RB_RED (S n) k ∨ cp = RB_BLACK ∧ hole RB_BLACK (S (S n)) k) →
  recolored F (plug k (Node cp (Node RB_BLACK (Node RB_RED x y z) q sr) pp s)) Q →
  wp (remove_break_right t pp q) Q m.
Proof.
  intros Hm Hs Hsr Hx Hz Hc HQ. unfold remove_break_right. open Hm k. reads. paint Hm (InL cp pp s :: k).
  paint Hm k. open Hm k. reads. paint Hm (InL cp q sr :: InL RB_BLACK pp s :: k).
  rotate Hm (wp_rotate_right t Haug F) k. repeat rb_step.
  rewrite (rep_root _ _ _ Hm). eapply HQ; [exact Hm|same_nodes|].
  destruct Hc as [[-> Hc]|[-> Hc]]; (eapply whole_paintable; [|exact Hc]); eauto 8 with rb.
Qed.

Lemma wp_black_right again len F k cp s pp sl q sr n cl cr (Q : ptr → rb_mem → Prop) m :
  again_ok again len →
  rep F (plug k (Node cp (Node RB_BLACK sl q sr) pp s)) m →
  rb RB_BLACK n s → rb cl n sl → rb cr n sr →
  (cp = RB_RED ∧ hole RB_RED (S n) k ∨ cp = RB_BLACK ∧ hole RB_BLACK (S (S n)) k ∧ (length k ≤ len)%nat) →
  recolored F (plug k (Node cp (Node RB_BLACK sl q sr) pp s)) Q →
  wp (remove_black_right again t pp q) Q m.
Proof.
  intros IH Hm Hs Hsl Hsr Hc HQ. unfold remove_black_right. open Hm k. reads.
  pose proof (λ Q, wp_is_black F (InL RB_BLACK q sr :: InL cp pp s :: k) sl Q _ cl n Hm Hsl) as Hblack.
  apply Hblack. reads.
  assert (cp = RB_RED ∧ hole RB_RED (S n) k ∨ cp = RB_BLACK ∧ hole RB_BLACK (S (S n)) k) as Hc' by tauto.
  destruct (rb_colors _ _ _ Hsl) as [-> | ->]; simpl.
  - apply (wp_is_black F (InR RB_BLACK sl q :: InL cp pp s :: k) sr _ _ cr n Hm Hsr).
    destruct (rb_colors _ _ _ Hsr) as [-> | ->]; simpl; reads.
    + paint Hm (InL cp pp s :: k). open Hm k. reads.
      change pp with (rootp (Node cp (Node RB_RED sl q sr) pp s)).
      destruct Hc as [[-> Hc]|(-> & Hc & Hlen)].
      * apply (IH F k _ n); [exact Hm|right; eauto 10 with rb|by eapply hole_weaken| |].
        -- right. intros E%rb_colors_root. done.
        -- intros T y m' HT HN. apply (HQ T y m' HT). rewrite HN. same_nodes.
      * apply (IH F k _ (S n)); [exact Hm|left; eauto with rb|done|by left|].
        intros T y m' HT HN. apply (HQ T y m' HT). rewrite HN. same_nodes.
    + apply Hblack. simpl. inversion Hsr as [|? a o b Ha Hb|]; subst. open Hm k. reads.
      paint Hm (InR RB_BLACK sl q :: InL cp pp s :: k). paint Hm (InL cp pp s :: k).
      rotate Hm (wp_rotate_left t Haug F) (InL cp pp s :: k). open Hm k. reads.
      eapply wp_break_right; [exact Hm|done..|].
      intros T y m' HT HN. apply (HQ T y m' HT). rewrite HN. same_nodes.
  - reads. apply Hblack. simpl. inversion Hsl as [|? x y z Hx Hz|]; subst. by eapply wp_break_right.
Qed.

(** Below a red parent or a black one. *)
Lemma hole_cases n f k :
  hole RB_BLACK (S n) (f :: k) →
  ∃ cs, rb cs (S n) (sibling f)
    ∧ (fcolor f = RB_RED ∧ cs = RB_BLACK ∧ hole RB_RED (S n) k ∨ fcolor f = RB_BLACK ∧ hole RB_BLACK (S (S n)) k).
Proof. inversion 1; subst; eexists; (split; [eassumption|]); auto. Qed.

(** The loop ends at the root and at a red entry. *)
Lemma loop_exit fuel F k s n (Q : ptr → rb_mem → Prop) m :
  rep F (plug k s) m → short n s → hole RB_BLACK (S n) k → (k = [] ∨ ¬ rb RB_BLACK n s) →
  recolored F (plug k s) Q → wp (remove_color_loop (S fuel) t (parp k) (rootp s)) Q m.
Proof.
  intros Hm Hs Hk Hx HQ.
  assert (paintable (plug k s) (rootp s)) as Hp.
  { destruct Hs as [Hs|(l & p & r & -> & Hs)].
    - destruct Hx as [-> |Hx]; [|done]. exists [], s, n. split; [done|]. split; [done|].
      simpl. by inversion Hs; subst.
    - destruct (plug_rb _ _ k _ Hs Hk) as [n' H]. by eexists k, _, n'. }
  assert (wp (is_black (rootp s)) (λ b m', m' = m ∧ (b = false ∨ k = [])) m) as Hb.
  { destruct Hs as [Hs|(l & p & r & -> & Hs)].
    - destruct Hx as [-> |Hx]; [|done]. eapply wp_is_black; [exact Hm|exact Hs|]. auto.
    - destruct (rep_node _ _ _ _ _ _ _ Hm) as [He Hnull]. unfold is_black. simpl. repeat rb_step. auto. }
  simpl. apply wp_bind. eapply wp_mono; [exact Hb|]. intros b m' [-> Hc]. reads.
  assert (negb (b && negb (rootp s =? rbt_root m) && negb (parp k =? NULL)) = true) as ->.
  { destruct Hc as [-> | ->]; [done|]. simpl. by rewrite andb_false_r. }
  by eapply HQ.
Qed.

Lemma loop_left fuel F k cp pp sib s n (Q : ptr → rb_mem → Prop) m :
  again_ok (remove_color_loop fuel t) (length k) →
  rep F (plug (InL cp pp sib :: k) s) m → rb RB_BLACK n s → hole RB_BLACK (S n) (InL cp pp sib :: k) →
  recolored F (plug (InL cp pp sib :: k) s) Q → wp (remove_color_loop (S fuel) t pp (rootp s)) Q m.
Proof.
  intros IH Hm Hs Hk HQ. destruct (hole_cases _ _ _ Hk) as (cs & Hsib & Hc). simpl in Hsib, Hc.
  assert (rootp s ≠ rbt_root m) as Hroot by by eapply not_the_root.
  simpl. apply wp_bind. eapply wp_is_black; [exact Hm|exact Hs|].
  destruct sib as [|c' sl q sr]; [by inversion Hsib|]. open Hm k. reads. simpl. reads.
  inversion Hsib as [|? ? ? ? Hsl Hsr|? cl cr ? ? ? Hsl Hsr]; subst; simpl; reads.
  - destruct Hc as [(_ & ? & _)|[-> Hc]]; [done|]. unfold rbe_set_blackred.
    paint Hm (InR RB_BLACK s pp :: k). paint Hm k. rotate Hm (wp_rotate_left t Haug F) k. open Hm k. reads.
    inversion Hsl as [| |? cl cr sll q' slr Hll Hlr]; subst. simpl in *.
    eapply (wp_black_left _ _ F (InL RB_BLACK q sr :: k)); [exact IH|exact Hm|done..| |].
    + left. split; [done|]. by eapply hole_black.
    + intros T y m' HT HN. apply (HQ T y m' HT). rewrite HN. same_nodes.
  - eapply (wp_black_left _ _ F k); [exact IH|exact Hm|done..| |exact HQ]. naive_solver.
Qed.

Lemma loop_right fuel F k cp pp sib s n (Q : ptr → rb_mem → Prop) m :
  again_ok (remove_color_loop fuel t) (length k) →
  rep F (plug (InR cp sib pp :: k) s) m → rb RB_BLACK n s → hole RB_BLACK (S n) (InR cp sib pp :: k) →
  recolored F (plug (InR cp sib pp :: k) s) Q → wp (remove_color_loop (S fuel) t pp (rootp s)) Q m.
Proof.
  intros IH Hm Hs Hk HQ. destruct (hole_cases _ _ _ Hk) as (cs & Hsib & Hc). simpl in Hsib, Hc.
  assert (rootp s ≠ rbt_root m) as Hroot by by eapply not_the_root.
  simpl. apply wp_bind. eapply wp_is_black; [exact Hm|exact Hs|].
  destruct sib as [|c' sl q sr]; [by inversion Hsib|]. open Hm k. reads. simpl. reads.
  inversion Hsib as [|? ? ? ? Hsl Hsr|? cl cr ? ? ? Hsl Hsr]; subst; simpl; reads.
  - destruct Hc as [(_ & ? & _)|[-> Hc]]; [done|]. unfold rbe_set_blackred.
    paint Hm (InL RB_BLACK pp s :: k). paint Hm k. rotate Hm (wp_rotate_right t Haug F) k. open Hm k. reads.
    inversion Hsr as [| |? cl cr srl q' srr Hrl Hrr]; subst. simpl in *.
    eapply (wp_black_right _ _ F (InR RB_BLACK sl q :: k)); [exact IH|exact Hm|done..| |].
    + left. split; [done|]. by eapply hole_black.
    + intros T y m' HT HN. apply (HQ T y m' HT). rewrite HN. same_nodes.
  - eapply (wp_black_right _ _ F k); [exact IH|exact Hm|done..| |exact HQ]. naive_solver.
Qed.

Lemma again_ok_mono again n n' : (n' ≤ n)%nat → again_ok again n → again_ok again n'.
Proof. intros Hn H F k s h Q m Hm Hs Hk [Hl|Hl] HQ; eapply H; eauto. left. lia. Qed.

Lemma remove_loop_ok fuel : again_ok (remove_color_loop (S fuel) t) fuel.
Proof.
  induction fuel as [|fuel IH]; intros F k s n Q m Hm Hs Hk Hlen HQ.
  { eapply loop_exit; try done. destruct Hlen as [Hl|Hl]; [left|by right]. by destruct k; simpl in Hl; [|lia]. }
  destruct Hs as [Hs|Hs].
  2: { eapply loop_exit; try done; [by right|]. right. destruct Hs as (l & p & r & -> & _). by intros E%rb_colors_root. }
  destruct Hlen as [Hlen|?]; [|done]. destruct k as [|[cp pp sib|cp sib pp] k].
  - eapply loop_exit; try done; [by left|by left].
  - simpl in Hlen. eapply loop_left; try done. apply again_ok_mono with fuel; [lia|done].
  - simpl in Hlen. eapply loop_right; try done. apply again_ok_mono with fuel; [lia|done].
Qed.
End remove_color.
