(* ===== verification/RbOps.v ===== *)
(** * The operations of the red-black tree on represented trees

    Insertion, removal, lookups and walks, from their loops ([RbInsert.v],
    [RbRemove.v]): each is described by the entries of the tree in order. *)

From stdpp Require Import sorting.
From S2P Require Import Prelude CMem State Machine Port RbTree RbRep RbInsert RbRemove.
#[local] Open Scope Z_scope.

(** ** Fuel *)

Fixpoint height (t : tree) : nat :=
  match t with
  | Leaf => 0
  | Node _ l _ r => S (Nat.max (height l) (height r))
  end.

Lemma height_nodes t : (height t ≤ length (nodes t))%nat.
Proof. induction t as [|c l IHl p r IHr]; simpl; [done|]. rewrite length_app. simpl. lia. Qed.

Lemma height_plug k t : (length k + height t ≤ height (plug k t))%nat.
Proof.
  revert t. induction k as [|f k IH]; intros t; simpl; [done|]. specialize (IH (fill f t)).
  destruct f; simpl in *; lia.
Qed.

Lemma linked_at_entry h par t q : linked_at h par t → q ∈ nodes t → is_Some (h !! q).
Proof.
  revert par. induction t as [|c l IHl p r IHr]; intros par; simpl; [by intros _ ?%elem_of_nil|].
  intros (Hp & Hl & Hr). rewrite elem_of_app, elem_of_cons. intros [Hq|[->|Hq]]; eauto.
Qed.

Lemma rep_size F t m : rep F t m → (length (nodes t) ≤ size (rb_heap m))%nat.
Proof.
  intros [_ Ht Hd _]. apply NoDup_cons in Hd as [_ Hd].
  rewrite <-size_dom, <-(size_list_to_set (C := gset Z)) by done. apply subseteq_size.
  intros q Hq%elem_of_list_to_set. apply elem_of_dom. by eapply linked_at_entry.
Qed.

Lemma rep_path F k t m : rep F (plug k t) m → (length k + height t ≤ size (rb_heap m))%nat.
Proof. intros Hm. pose proof (rep_size _ _ _ Hm). pose proof (height_plug k t). pose proof (height_nodes (plug k t)). lia. Qed.

(** The place of an entry is determined by the entries before it. *)
Lemma split_unique (p : ptr) l1 l2 l1' l2' :
  NoDup (l1 ++ p :: l2) → l1 ++ p :: l2 = l1' ++ p :: l2' → l1 = l1' ∧ l2 = l2'.
Proof.
  revert l1'. induction l1 as [|x l1 IH]; intros [|y l1'] Hd E; simplify_eq/=.
  - done.
  - apply NoDup_cons in Hd as [Hd _]. set_solver.
  - apply NoDup_cons in Hd as [Hd _]. set_solver.
  - apply NoDup_cons in Hd as [_ Hd]. destruct (IH l1' Hd) as [-> ->]; done.
Qed.

Lemma rep_focus F T m l1 p l2 :
  rep F T m → nodes T = l1 ++ p :: l2 →
  ∃ k c l r, T = plug k (Node c l p r) ∧ l1 = before k ++ nodes l ∧ l2 = nodes r ++ after k.
Proof.
  intros [_ _ Hd _] Hn. apply NoDup_cons in Hd as [_ Hd].
  destruct (focus p T) as (k & c & l & r & ->); [rewrite Hn; set_solver|].
  exists k, c, l, r. split; [done|]. rewrite Hn in Hd. rewrite nodes_plug in Hn. simpl in Hn. rewrite <-app_assoc, app_assoc in Hn.
  by apply (split_unique p).
Qed.

Section entries.
Context (t : rb_type) (Haug : t_augment t = None).

(** ** Insertion *)

Lemma wp_insert_color F k p (Q : unit → rb_mem → Prop) m :
  red_below F k Leaf p Leaf 0 m →
  (∀ T m' n, rep F T m' → rb RB_BLACK n T → nodes T = before k ++ p :: after k → Q tt m') →
  wp (rbe_insert_color t p) Q m.
Proof.
  intros Hm HQ. pose proof (proj1 Hm) as Hm1. apply rep_path in Hm1. unfold rbe_insert_color, rb_fuel.
  apply wp_bind, wp_gets. apply wp_bind. eapply insert_loop_ok; [done|exact Hm|simpl in *; lia|].
  intros T m' HT HN (c & l & q & r & n & -> & Hn). repeat rb_step. rewrite (rep_root _ _ _ HT). simpl.
  eapply (wp_paint _ []); [exact HT|]. intros m2 Hm2. eapply HQ; [exact Hm2|exact Hn|].
  change (nodes _) with (nodes (Node c l q r)). rewrite HN, nodes_plug. done.
Qed.

(** ** Removal *)

Lemma wp_remove_color F k s n (Q : unit → rb_mem → Prop) m :
  rep F (plug k s) m → short n s → hole RB_BLACK (S n) k →
  (∀ T m' n', rep F T m' → rb RB_BLACK n' T → nodes T = nodes (plug k s) → Q tt m') →
  wp (rbe_remove_color t (parp k) (rootp s)) Q m.
Proof.
  intros Hm Hs Hk HQ. pose proof (rep_path _ _ _ _ Hm) as Hsize. unfold rbe_remove_color, rb_fuel.
  apply wp_bind, wp_gets. apply wp_bind. eapply remove_loop_ok; [done|exact Hm|exact Hs|exact Hk|left; lia|].
  intros T y m' HT HN (k' & s' & n' & -> & -> & Hn). destruct s' as [|c l p r]; simpl in *; repeat rb_step.
  - by eapply HQ.
  - destruct (rep_node _ _ _ _ _ _ _ HT) as [_ Hnull]. reads. simpl. eapply wp_paint; [exact HT|].
    intros m2 Hm2. eapply HQ; [exact Hm2|exact Hn|]. rewrite <-HN. by rewrite !nodes_plug.
Qed.

(** The successor in a subtree. *)
Lemma leftmost_run fuel F k r m :
  rep F (plug k r) m → r ≠ Leaf → (height r ≤ fuel)%nat →
  ∃ k2 c s x, r = plug k2 (Node c Leaf s x) ∧ before k2 = [] ∧ leftmost fuel (rootp r) m = Ok s m.
Proof.
  revert fuel k. induction r as [|c l IHl p r _]; intros fuel k Hm Hr Hf; [done|].
  destruct fuel as [|fuel]; [simpl in Hf; lia|]. destruct (rep_node _ _ _ _ _ _ _ Hm) as [He Hnull].
  cbn [leftmost rootp]. unfold RBE_LEFT, RBE, mbind, M_bind. rewrite He. simpl.
  destruct l as [|cl ll pl rl]; [by exists [], c, p, r|].
  destruct (rep_node F (InL c p r :: k) _ _ _ _ _ Hm) as [_ Hnl].
  destruct (IHl fuel (InL c p r :: k)) as (k2 & c2 & s & x & E & Hb & Hrun); [done|done|simpl in *; lia|].
  exists (k2 ++ [InL c p r]), c2, s, x. split; [by rewrite plug_app, E|]. split.
  - clear -Hb. induction k2 as [|[] k2 IH]; simpl in *; [done|auto|]. by destruct (before k2), (nodes l).
  - simpl. rewrite (proj2 (Z.eqb_neq _ _) Hnl). exact Hrun.
Qed.

Lemma hole_rename c n k2 c0 l p p' k : hole c n (k2 ++ InR c0 l p :: k) → hole c n (k2 ++ InR c0 l p' :: k).
Proof.
  revert c n. induction k2 as [|f k2 IH]; simpl; intros c n H; inversion H; subst.
  - by apply hole_red.
  - by eapply hole_black.
  - apply hole_red; auto.
  - eapply hole_black; eauto.
Qed.
(** What a removal establishes: the entry is out of the tree, still in memory, and no
    entry outside of the tree has changed. *)
Definition removed (F : gmap Z rb_entry) (p : ptr) (l : list ptr) (Q : ptr → rb_mem → Prop) : Prop :=
  ∀ T m' n F', rep F' T m' → rb RB_BLACK n T → nodes T = l →
    is_Some (F' !! p) → (∀ q, q ≠ p → q ∉ l → F' !! q = F !! q) → Q p m'.

(** The end of a removal: the colours are restored if a black entry has left. *)
Lemma wp_remove_end F' F p k x c n (Q : ptr → rb_mem → Prop) m :
  rep F' (plug k x) m → rb RB_BLACK n x ∨ rb RB_RED n x ∧ c = RB_BLACK →
  (c = RB_RED ∧ hole RB_BLACK n k ∨ c = RB_BLACK ∧ hole RB_BLACK (S n) k) →
  is_Some (F' !! p) → (∀ q, q ≠ p → q ∉ nodes (plug k x) → F' !! q = F !! q) →
  removed F p (nodes (plug k x)) Q →
  wp (when (c =? RB_BLACK) (rbe_remove_color t (parp k) (rootp x));; mret p) Q m.
Proof.
  intros Hm Hx Hc Hp Hf HQ. apply wp_bind, wp_when. destruct Hc as [[-> Hk]|[-> Hk]]; simpl.
  - destruct Hx as [Hx|[_ ?]]; [|done]. destruct (plug_rb _ _ _ _ Hx Hk) as [n' Hn]. apply wp_ret. by eapply HQ.
  - eapply wp_remove_color; [exact Hm| |exact Hk|].
    + destruct Hx as [Hx|[Hx _]]; [by left|]. right. inversion Hx; subst. eexists _, _, _. split; [done|]. eauto with rb.
    + intros T m' n' HT Hn HN. apply wp_ret. eapply HQ; eauto.
Qed.

(** The colour and height below an entry with at most one child. *)
Lemma rb_one_child c n l p r x cp :
  rb cp n (Node c l p r) → (l = Leaf ∧ x = r ∨ r = Leaf ∧ x = l) →
  c = cp ∧ ∃ n', (rb RB_BLACK n' x ∨ rb RB_RED n' x ∧ c = RB_BLACK) ∧ (c = RB_RED ∧ n = n' ∨ c = RB_BLACK ∧ n = S n').
Proof.
  intros H Hx. inversion H as [|? ? ? ? Hl Hr|? cl cr ? ? ? Hl Hr]; subst; (split; [done|]).
  - exists n. destruct Hx as [[_ ->]|[_ ->]]; auto.
  - eexists. split; [|by right]. destruct Hx as [[_ ->]|[_ ->]].
    + destruct (rb_colors _ _ _ Hr) as [-> | ->]; auto.
    + destruct (rb_colors _ _ _ Hl) as [-> | ->]; auto.
Qed.

Lemma wp_remove_simple F k c l p r n x (Q : ptr → rb_mem → Prop) m :
  rep F (plug k (Node c l p r)) m → rb RB_BLACK n (plug k (Node c l p r)) →
  (l = Leaf ∧ x = r ∨ r = Leaf ∧ x = l) →
  removed F p (nodes (plug k x)) Q → wp (rbe_remove t p) Q m.
Proof.
  intros Hm Hrb Hx HQ. destruct (rb_plug _ _ _ Hrb) as (cp & n' & Ht & Hk).
  destruct (rb_one_child _ _ _ _ _ _ _ Ht Hx) as (-> & nx & Hnx & Hcol).
  destruct (rep_node _ _ _ _ _ _ _ Hm) as [He _]. pose proof (rep_nodup _ _ _ Hm) as Hd.
  unfold rbe_remove, rb_fuel. apply wp_bind, wp_gets. repeat rb_step.
  assert (((rootp l =? NULL) || (rootp r =? NULL)) = true) as ->
    by (destruct Hx as [[-> _]|[-> _]]; simpl; [done|apply orb_true_r]).
  assert ((if rootp l =? NULL then rootp r else rootp l) = rootp x) as ->.
  { destruct Hx as [[-> ->]|[-> ->]]; [done|]. simpl. by destruct (Z.eqb_spec (rootp l) NULL). }
  repeat rb_step. eapply wp_unlink; [done|exact Hm|exact Hx|]. intros m1 Hm1.
  eapply wp_remove_end; [exact Hm1|exact Hnx| |by rewrite lookup_insert_eq| |exact HQ].
  - destruct Hcol as [[-> ->]|[-> ->]]; [left|right]; eauto using hole_weaken.
  - intros q Hq _. by rewrite lookup_insert_ne.
Qed.
(** The parent of the successor, once it has taken the place of [old]. *)
Lemma successor_parent k2 c l old s k :
  old ∉ before k2 → old ∉ after k2 →
  (if parp (k2 ++ InR c l old :: k) =? old then s else parp (k2 ++ InR c l old :: k)) = parp (k2 ++ InR c l s :: k).
Proof.
  destruct k2 as [|[cf pf rf|cf lf pf] k2]; simpl; intros Hb Ha; [by rewrite Z.eqb_refl|..];
    rewrite (proj2 (Z.eqb_neq pf old)); set_solver.
Qed.

Lemma wp_remove_two F k c l p r n (Q : ptr → rb_mem → Prop) m :
  rep F (plug k (Node c l p r)) m → rb RB_BLACK n (plug k (Node c l p r)) → l ≠ Leaf → r ≠ Leaf →
  removed F p (before k ++ nodes l ++ nodes r ++ after k) Q → wp (rbe_remove t p) Q m.
Proof.
  intros Hm Hrb Hl Hr HQ. destruct (rep_node _ _ _ _ _ _ _ Hm) as [He _].
  assert (rootp l ≠ NULL ∧ rootp r ≠ NULL) as [Hl0 Hr0].
  { pose proof (rep_nodup _ _ _ Hm) as Hd. apply rootp_elem in Hl, Hr. distinct Hd. split; congruence. }
  destruct (leftmost_run (S (S (size (rb_heap m)))) F (InR c l p :: k) r m Hm Hr)
    as (k2 & c2 & s & x & -> & Hb & Hrun); [apply (rep_path F (InR c l p :: k)) in Hm; lia|].
  set (K := k2 ++ InR c l p :: k). set (K' := k2 ++ InR c l s :: k).
  assert (∀ u, plug k (Node c l p (plug k2 u)) = plug K u) as E by (intros u; unfold K; by rewrite plug_app).
  assert (∀ u, plug k (Node c l s (plug k2 u)) = plug K' u) as E' by (intros u; unfold K'; by rewrite plug_app).
  rewrite E in Hrb, Hm. destruct (rb_plug _ _ _ Hrb) as (cp & n' & Ht & Hk).
  destruct (rb_one_child _ _ _ _ _ x _ Ht) as (-> & nx & Hnx & Hcol); [by left|].
  destruct (rep_node _ _ _ _ _ _ _ Hm) as [Hs Hsnull].
  pose proof (rep_nodup _ _ _ Hm) as Hd. rewrite <-E, nodes_plug in Hd. simpl in Hd. distinct Hd.
  unfold rbe_remove, rb_fuel. apply wp_bind, wp_gets. repeat rb_step. cbn [orb].
  apply wp_bind. unfold wp at 1. rewrite Hrun. repeat rb_step.
  eapply wp_unlink; [done|exact Hm|by left|]. intros m1 Hm1.
  assert (s ∉ nodes (plug K x)) as Hsx by (rewrite <-E, nodes_plug; simpl; outside).
  assert (rb_heap m1 !! s = Some (mkRb (parp K) NULL (rootp x) cp)) as Hs1
    by (rewrite (rep_frame _ _ _ Hm1) by done; apply lookup_insert_eq).
  repeat rb_step. unfold K at 1 2. rewrite successor_parent by done. fold K'.
  rewrite <-E in Hm1, Hsx. eapply wp_take_place; [done|exact Hm1|done|done|congruence|apply lookup_insert_eq|].
  intros m2 Hm2. rewrite Haug. apply wp_bind, wp_ret. rewrite E' in Hm2.
  eapply wp_remove_end; [exact Hm2|exact Hnx| |by rewrite lookup_insert_eq| |].
  - destruct Hcol as [[-> ->]|[-> ->]]; [left|right]; (split; [done|]); eapply hole_weaken, hole_rename; exact Hk.
  - intros q Hq Hqn. rewrite lookup_insert_ne by congruence. apply lookup_insert_ne. intros <-.
    apply Hqn. rewrite <-E', nodes_plug. simpl. rewrite !elem_of_app, elem_of_cons. auto.
  - rewrite <-E', nodes_plug. simpl. rewrite !nodes_plug in HQ |- *. simpl in HQ. rewrite Hb in HQ |- *. simpl in *.
    rewrite <-!app_assoc in *. simpl. rewrite <-app_assoc. exact HQ.
Qed.

Lemma wp_remove F T p l1 l2 n (Q : ptr → rb_mem → Prop) m :
  rep F T m → rb RB_BLACK n T → nodes T = l1 ++ p :: l2 → removed F p (l1 ++ l2) Q → wp (rbe_remove t p) Q m.
Proof.
  intros Hm Hrb Hn HQ. destruct (rep_focus _ _ _ _ _ _ Hm Hn) as (k & c & l & r & -> & -> & ->).
  rewrite <-app_assoc in HQ. destruct l as [|cl ll pl rl] eqn:El.
  - eapply (wp_remove_simple _ _ _ _ _ _ _ r); [done|done|by left|]. by rewrite nodes_plug.
  - destruct r as [|cr lr pr rr] eqn:Er; rewrite <-El in *.
    + eapply (wp_remove_simple _ _ _ _ _ _ _ l); [done|done|by right|]. by rewrite nodes_plug.
    + eapply wp_remove_two; [done|done|by subst|done|done].
Qed.
End entries.

(** ** Walks

    The first and the last entry, and the entries after and before an entry, are those of
    the list of the entries in order. *)

Definition first (l : list ptr) : ptr := hd NULL l.
Definition final (l : list ptr) : ptr := List.last l NULL.

Lemma wp_leftmost fuel F k r (Q : ptr → rb_mem → Prop) m :
  rep F (plug k r) m → r ≠ Leaf → (height r ≤ fuel)%nat → Q (first (nodes r)) m → wp (leftmost fuel (rootp r)) Q m.
Proof.
  intros Hm Hr Hf HQ. destruct (leftmost_run fuel F k r m Hm Hr Hf) as (k2 & c & s & x & -> & Hb & Hrun).
  unfold wp. rewrite Hrun. rewrite nodes_plug, Hb in HQ. exact HQ.
Qed.

Lemma final_app l x : final (l ++ [x]) = x.
Proof. apply last_last. Qed.

Lemma final_node l p r : r ≠ Leaf → final (l ++ p :: nodes r) = final (nodes r).
Proof.
  intros Hr. destruct (exists_last (l := nodes r)) as (l' & x & E).
  { intros E. apply rootp_elem in Hr. rewrite E in Hr. by apply elem_of_nil in Hr. }
  rewrite E, app_comm_cons, app_assoc. by rewrite !final_app.
Qed.

Lemma wp_rightmost fuel F k r (Q : ptr → rb_mem → Prop) m :
  rep F (plug k r) m → r ≠ Leaf → (height r ≤ fuel)%nat → Q (final (nodes r)) m → wp (rightmost fuel (rootp r)) Q m.
Proof.
  revert fuel k. induction r as [|c l _ p r IHr]; intros fuel k Hm Hr Hf HQ; [done|].
  destruct fuel as [|fuel]; [simpl in Hf; lia|]. destruct (rep_node _ _ _ _ _ _ _ Hm) as [He Hnull].
  cbn [rightmost rootp]. repeat rb_step. destruct r as [|cr lr pr rr].
  - simpl. simpl in HQ. by rewrite final_app in HQ.
  - destruct (rep_node F (InR c l p :: k) _ _ _ _ _ Hm) as [_ Hn]. cbn [rootp]. rewrite (proj2 (Z.eqb_neq _ _) Hn).
    apply (IHr fuel (InR c l p :: k)); [done|done|simpl in *; lia|]. by rewrite <-(final_node (nodes l) p).
Qed.

(** Up to the first ancestor on the other side, whose parent is the next entry. *)
Lemma wp_climb_right fuel F k s (Q : ptr → rb_mem → Prop) m :
  rep F (plug k s) m → s ≠ Leaf → (length k < fuel)%nat →
  Q (first (after k)) m → wp (rbe ← climb_right fuel (rootp s); RBE_PARENT rbe) Q m.
Proof.
  revert k s. induction fuel as [|fuel IH]; intros k s Hm Hs Hf HQ; [lia|].
  destruct s as [|c l p r]; [done|]. clear Hs. destruct (rep_node _ _ _ _ _ _ _ Hm) as [He Hnull].
  destruct k as [|f k]; [cbn [climb_right rootp]; by repeat rb_step|].
  destruct f as [cf pf rf|cf lf pf]; open Hm k; cbn [climb_right rootp]; repeat rb_step; [exact HQ|].
  apply wp_bind_inv. apply (IH k (Node cf lf pf (Node c l p r))); [done|done|simpl in Hf; lia|done].
Qed.

Lemma wp_climb_left fuel F k s (Q : ptr → rb_mem → Prop) m :
  rep F (plug k s) m → s ≠ Leaf → (length k < fuel)%nat →
  Q (final (before k)) m → wp (rbe ← climb_left fuel (rootp s); RBE_PARENT rbe) Q m.
Proof.
  revert k s. induction fuel as [|fuel IH]; intros k s Hm Hs Hf HQ; [lia|].
  destruct s as [|c l p r]; [done|]. clear Hs. destruct (rep_node _ _ _ _ _ _ _ Hm) as [He Hnull].
  destruct k as [|f k]; [cbn [climb_left rootp]; by repeat rb_step|].
  destruct f as [cf pf rf|cf lf pf]; open Hm k; cbn [climb_left rootp]; repeat rb_step.
  - apply wp_bind_inv. apply (IH k (Node cf (Node c l p r) pf rf)); [done|done|simpl in Hf; lia|done].
  - simpl in HQ. by rewrite app_assoc, final_app in HQ.
Qed.

(** * The red-black tree implements an ordered list

    The contract of the tree ([openbsd_tree.h]) is an ordered list of elements: this file
    states the operations on the list and proves that the operations on the links in
    memory return the same results and represent the same list, for every sequence of
    operations, and that a search takes at most twice the logarithm of the number of
    elements. *)

(** ** Keys and lists *)

(** The comparison of the elements that satisfy [D] is a total preorder. *)
Class KeyOrder (D : ptr → Prop) (cmp : ptr → ptr → Z) : Prop := {
  ko_sym x y : D x → D y → cmp y x < 0 ↔ 0 < cmp x y;
  ko_le_lt x y z : D x → D y → D z → cmp x y ≤ 0 → cmp y z < 0 → cmp x z < 0;
  ko_lt_le x y z : D x → D y → D z → cmp x y < 0 → cmp y z ≤ 0 → cmp x z < 0
}.

Section lists.
Context (cmp : ptr → ptr → Z).

Fixpoint sfind (key : ptr) (l : list ptr) : ptr :=
  match l with
  | [] => NULL
  | x :: l' => if cmp key x =? 0 then x else sfind key l'
  end.

(** The first element that is not below [key], or [d]. *)
Fixpoint snfind (key : ptr) (l : list ptr) (d : ptr) : ptr :=
  match l with
  | [] => d
  | x :: l' => if cmp key x <=? 0 then x else snfind key l' d
  end.

Fixpoint sinsert (e : ptr) (l : list ptr) : list ptr :=
  match l with
  | [] => [e]
  | x :: l' => if cmp e x <? 0 then e :: l else if cmp e x >? 0 then x :: sinsert e l' else l
  end.

Definition sorted (l : list ptr) : Prop := StronglySorted (λ a b, cmp a b < 0) l.

Lemma sfind_app key l1 l2 : Forall (λ x, cmp key x ≠ 0) l1 → sfind key (l1 ++ l2) = sfind key l2.
Proof. induction 1 as [|x l1 Hx _ IH]; simpl; [done|]. by rewrite (proj2 (Z.eqb_neq _ _) Hx). Qed.

Lemma sfind_absent key l : Forall (λ x, cmp key x ≠ 0) l → sfind key l = NULL.
Proof. intros H. rewrite <-(app_nil_r l). by rewrite sfind_app. Qed.

Lemma sfind_stop key l1 x l2 : Forall (λ y, cmp key y < 0) (x :: l2) → sfind key (l1 ++ x :: l2) = sfind key l1.
Proof.
  intros Hx. induction l1 as [|y l1 IH]; simpl.
  - apply (sfind_absent key (x :: l2)). eapply Forall_impl; [exact Hx|]. simpl. lia.
  - by rewrite IH.
Qed.

Lemma snfind_app key l1 l2 d : Forall (λ x, 0 < cmp key x) l1 → snfind key (l1 ++ l2) d = snfind key l2 d.
Proof. induction 1 as [|x l1 Hx _ IH]; simpl; [done|]. by rewrite (proj2 (Z.leb_gt _ _) Hx). Qed.

Lemma snfind_stop key l1 x l2 d : cmp key x ≤ 0 → snfind key (l1 ++ x :: l2) d = snfind key l1 x.
Proof. intros Hx. induction l1 as [|y l1 IH]; simpl; [by rewrite (proj2 (Z.leb_le _ _) Hx)|by rewrite IH]. Qed.

Lemma sinsert_split e la lb :
  Forall (λ x, 0 < cmp e x) la → Forall (λ x, cmp e x < 0) lb → sinsert e (la ++ lb) = la ++ e :: lb.
Proof.
  intros Ha Hb. induction Ha as [|x la Hx _ IH]; simpl.
  - destruct Hb as [|x lb Hx _]; simpl; [done|]. by rewrite (proj2 (Z.ltb_lt _ _) Hx).
  - rewrite (proj2 (Z.ltb_ge _ _)) by lia. rewrite Z.gtb_ltb, (proj2 (Z.ltb_lt _ _)) by lia. by rewrite IH.
Qed.

Context (D : ptr → Prop) `{!KeyOrder D cmp}.

Lemma cmp_refl x : D x → cmp x x = 0.
Proof. intros Hx. pose proof (ko_sym x x Hx Hx). lia. Qed.

(** In an ordered list, what is known of an element carries over to those after it and
    before it. *)
Lemma sorted_above key l1 x l2 :
  D key → Forall D (l1 ++ x :: l2) → sorted (l1 ++ x :: l2) → cmp key x ≤ 0 → Forall (λ y, cmp key y < 0) l2.
Proof.
  intros Hk HD Hs Hx. apply Forall_app in HD as [_ HD]. inversion HD as [|? ? Dx HD2]; subst.
  apply StronglySorted_app_1_r in Hs. apply StronglySorted_inv in Hs as [_ Hs].
  rewrite Forall_forall in Hs, HD2 |- *. intros y Hy. apply ko_le_lt with x; auto.
Qed.

Lemma sorted_below key l1 x l2 :
  D key → Forall D (l1 ++ x :: l2) → sorted (l1 ++ x :: l2) → 0 ≤ cmp key x → Forall (λ y, 0 < cmp key y) l1.
Proof.
  intros Hk HD Hs Hx. apply Forall_app in HD as [HD1 HD2]. inversion HD2 as [|? ? Dx _]; subst.
  rewrite Forall_forall in HD1 |- *. intros y Hy. apply ko_sym; [done|auto|].
  apply ko_lt_le with x; auto.
  - eapply (StronglySorted_app_1_elem_of (λ a b, cmp a b < 0)); [exact Hs|done|set_solver].
  - pose proof (ko_sym x key). pose proof (ko_sym key x). naive_solver lia.
Qed.
Lemma found_spec e l y :
  D e → Forall D l → sorted l → y ∈ l → cmp e y = 0 → sfind e l = y ∧ sinsert e l = l.
Proof.
  intros De HD Hs (l1 & l2 & ->)%list_elem_of_split Hy.
  assert (Forall (λ z, 0 < cmp e z) l1) as Hl1 by (apply (sorted_below e l1 y l2); auto; lia).
  split.
  - rewrite sfind_app; [simpl; by rewrite Hy|]. eapply Forall_impl; [exact Hl1|]. simpl. lia.
  - clear HD Hs. induction Hl1 as [|z l1 Hz _ IH]; simpl.
    + by rewrite Z.gtb_ltb, Hy.
    + rewrite (proj2 (Z.ltb_ge _ _)) by lia. rewrite Z.gtb_ltb, (proj2 (Z.ltb_lt _ _)) by lia. by rewrite IH.
Qed.
End lists.
