(* ===== verification/RbRefine.v ===== *)
(** * The red-black tree refines the ordered list

    Every operation of [RbTree.v] on a memory that holds the elements [l] in order, from
    the lemmas about entries ([RbOps.v]) and lists ([RbSpec.v]); then
    sequences of operations. *)

From stdpp Require Import sorting.
From S2P Require Import Prelude CMem State Machine Port RbTree RbRep RbInsert RbRemove RbOps.
#[local] Open Scope Z_scope.

(** The element and its entry are inside of the address space. *)
Definition rb_addr (t : rb_type) (e : ptr) : Prop := 0 < e ∧ 0 ≤ t_offset t ∧ e + t_offset t < 2 ^ 64.

Lemma e2n_n2e t e : rb_addr t e → rb_e2n t (rb_n2e t e) = e.
Proof.
  intros (H1 & H2 & H3). unfold rb_e2n, rb_n2e. rewrite Zminus_mod_idemp_l.
  replace (e + t_offset t - t_offset t) with e by lia. apply Z.mod_small. lia.
Qed.

Lemma n2e_null t e : rb_addr t e → rb_n2e t e ≠ NULL.
Proof. intros (H1 & H2 & H3). unfold rb_n2e, NULL. rewrite Z.mod_small; lia. Qed.

Lemma n2e_inj t e e' : rb_addr t e → rb_addr t e' → rb_n2e t e = rb_n2e t e' → e = e'.
Proof. intros H H' E. rewrite <-(e2n_n2e t e H), <-(e2n_n2e t e' H'). by rewrite E. Qed.

Lemma n2e_elem t e l : rb_addr t e → Forall (rb_addr t) l → rb_n2e t e ∈ rb_n2e t <$> l → e ∈ l.
Proof.
  intros He Hl (e' & E & H')%list_elem_of_fmap. rewrite Forall_forall in Hl.
  by rewrite (n2e_inj t e e' He (Hl e' H') E).
Qed.

Lemma result_first t l : Forall (rb_addr t) l → rb_result t (first (rb_n2e t <$> l)) = first l.
Proof.
  unfold rb_result. destruct 1 as [|e l He _]; simpl; [done|].
  by rewrite (proj2 (Z.eqb_neq _ _) (n2e_null t e He)), e2n_n2e.
Qed.

Lemma result_final t l : Forall (rb_addr t) l → rb_result t (final (rb_n2e t <$> l)) = final l.
Proof.
  intros H. destruct l as [|e l' _] using rev_ind; [done|]. apply Forall_app in H as [_ H].
  inversion H as [|? ? He _]; subst. rewrite fmap_app. simpl. rewrite !final_app. unfold rb_result.
  by rewrite (proj2 (Z.eqb_neq _ _) (n2e_null t e He)), e2n_n2e.
Qed.

Lemma final_above l l' : l' ≠ [] → final (l ++ l') = final l'.
Proof. intros H. destruct (exists_last H) as (l2 & x & ->). by rewrite app_assoc, !final_app. Qed.

(** The memory holds a red-black tree with the elements [l], in order. *)
Record rbtree (t : rb_type) (D : ptr → Prop) (l : list ptr) (m : rb_mem) : Prop := {
  rt_shape : ∃ T n, rep (rb_heap m) T m ∧ rb RB_BLACK n T ∧ nodes T = rb_n2e t <$> l;
  rt_addr : Forall (rb_addr t) l;
  rt_keys : Forall D l;
  rt_sorted : sorted (t_compare t) l
}.

Lemma rep_self F T m : rep F T m → rep (rb_heap m) T m.
Proof. intros [H1 H2 H3 H4]. by split. Qed.

Section walks.
Context (t : rb_type) (D : ptr → Prop).

Lemma rbtree_focus l1 e l2 m :
  rbtree t D (l1 ++ e :: l2) m →
  ∃ k c l r, rep (rb_heap m) (plug k (Node c l (rb_n2e t e) r)) m
    ∧ rb_n2e t <$> l1 = before k ++ nodes l ∧ rb_n2e t <$> l2 = nodes r ++ after k.
Proof.
  intros [(T & n & Hm & _ & Hn) _ _ _]. rewrite fmap_app in Hn. simpl in Hn.
  destruct (rep_focus _ _ _ _ _ _ Hm Hn) as (k & c & l & r & -> & H1 & H2). by exists k, c, l, r.
Qed.

Ltac walks :=
  repeat lazymatch goal with
  | |- wp (climb_right _ _ ≫= _) _ _ => fail
  | |- wp (climb_left _ _ ≫= _) _ _ => fail
  | |- wp (leftmost _ _) _ _ => fail
  | |- wp (rightmost _ _) _ _ => fail
  | _ => rb_step
  end.

Lemma rb_next_run l1 e l2 m : rbtree t D (l1 ++ e :: l2) m → _rb_next t e m = Ok (first l2) m.
Proof.
  intros H. pose proof (rt_addr _ _ _ _ H) as Ha. apply Forall_app in Ha as [_ Ha]. inversion Ha as [|? ? _ Hl2]; subst.
  destruct (rbtree_focus _ _ _ _ H) as (k & c & l & r & Hm & _ & E). pose proof (rep_path _ _ _ _ Hm) as Hf.
  enough (wp (_rb_next t e) (λ x m', x = first l2 ∧ m' = m) m) as (x & m' & Hrun & -> & ->)%wp_ok by exact Hrun.
  destruct (rep_node _ _ _ _ _ _ _ Hm) as [He Hnull].
  unfold _rb_next, rb_fuel. apply wp_bind, wp_gets. rewrite <-(result_first t l2 Hl2), E.
  set (s := Node c l (rb_n2e t e) r). destruct r as [|cr lr pr rr].
  - destruct k as [|[cf pf rf|cf lf pf] k]; [|open Hm k..]; walks; [|done|].
    + eapply (wp_climb_right _ _ [] s); [exact Hm|done|simpl; lia|]. walks. done.
    + eapply (wp_climb_right _ _ (InR cf lf pf :: k) s); [exact Hm|done|simpl in *; lia|]. walks. done.
  - destruct (rep_node _ (InR c l (rb_n2e t e) :: k) _ _ _ _ _ Hm) as [_ Hn]. walks.
    eapply (wp_leftmost _ _ (InR c l (rb_n2e t e) :: k) (Node cr lr pr rr)); [exact Hm|done|simpl in *; lia|].
    walks. split; [|done]. f_equal. simpl. by destruct (nodes lr).
Qed.

Lemma rb_prev_run l1 e l2 m : rbtree t D (l1 ++ e :: l2) m → _rb_prev t e m = Ok (final l1) m.
Proof.
  intros H. pose proof (rt_addr _ _ _ _ H) as Ha. apply Forall_app in Ha as [Hl1 _].
  destruct (rbtree_focus _ _ _ _ H) as (k & c & l & r & Hm & E & _). pose proof (rep_path _ _ _ _ Hm) as Hf.
  enough (wp (_rb_prev t e) (λ x m', x = final l1 ∧ m' = m) m) as (x & m' & Hrun & -> & ->)%wp_ok by exact Hrun.
  destruct (rep_node _ _ _ _ _ _ _ Hm) as [He Hnull].
  unfold _rb_prev, rb_fuel. apply wp_bind, wp_gets. rewrite <-(result_final t l1 Hl1), E.
  set (s := Node c l (rb_n2e t e) r). destruct l as [|cl ll pl rl].
  - destruct k as [|[cf pf rf|cf lf pf] k]; [|open Hm k..]; walks.
    + eapply (wp_climb_left _ _ [] s); [exact Hm|done|simpl; lia|]. walks. done.
    + eapply (wp_climb_left _ _ (InL cf pf rf :: k) s); [exact Hm|done|simpl in *; lia|]. walks. by rewrite app_nil_r.
    + simpl. rewrite app_nil_r, app_assoc, final_app. done.
  - destruct (rep_node _ (InL c (rb_n2e t e) r :: k) _ _ _ _ _ Hm) as [_ Hn]. walks.
    eapply (wp_rightmost _ _ (InL c (rb_n2e t e) r :: k) (Node cl ll pl rl)); [exact Hm|done|simpl in *; lia|].
    walks. split; [|done]. f_equal. symmetry. apply final_above. simpl. by destruct (nodes ll).
Qed.

Lemma rb_min_run l m : rbtree t D l m → _rb_min t m = Ok (first l) m.
Proof.
  intros [(T & n & Hm & _ & Hn) Ha _ _]. pose proof (rep_path _ [] _ _ Hm) as Hf.
  enough (wp (_rb_min t) (λ x m', x = first l ∧ m' = m) m) as (x & m' & Hrun & -> & ->)%wp_ok by exact Hrun.
  unfold _rb_min, rb_fuel. apply wp_bind, wp_gets. rewrite <-(result_first t l Ha), <-Hn. walks.
  rewrite (rep_root _ _ _ Hm). destruct T as [|c a p b]; [walks; done|].
  destruct (rep_node _ [] _ _ _ _ _ Hm) as [_ Hnull]. walks.
  eapply (wp_leftmost _ _ [] (Node c a p b)); [exact Hm|done|simpl in *; lia|]. walks. done.
Qed.

Lemma rb_max_run l m : rbtree t D l m → _rb_max t m = Ok (final l) m.
Proof.
  intros [(T & n & Hm & _ & Hn) Ha _ _]. pose proof (rep_path _ [] _ _ Hm) as Hf.
  enough (wp (_rb_max t) (λ x m', x = final l ∧ m' = m) m) as (x & m' & Hrun & -> & ->)%wp_ok by exact Hrun.
  unfold _rb_max, rb_fuel. apply wp_bind, wp_gets. rewrite <-(result_final t l Ha), <-Hn. walks.
  rewrite (rep_root _ _ _ Hm). destruct T as [|c a p b]; [walks; done|].
  destruct (rep_node _ [] _ _ _ _ _ Hm) as [_ Hnull]. walks.
  eapply (wp_rightmost _ _ [] (Node c a p b)); [exact Hm|done|simpl in *; lia|]. walks. done.
Qed.
End walks.

(** ** Lookups *)

Section searches.
Context (t : rb_type) (D : ptr → Prop) `{!KeyOrder D (t_compare t)}.

(** The elements of a subtree. *)
Record subtree (k : ctx) (s : tree) (ls : list ptr) (m : rb_mem) : Prop := {
  st_rep : rep (rb_heap m) (plug k s) m;
  st_nodes : nodes s = rb_n2e t <$> ls;
  st_addr : Forall (rb_addr t) ls;
  st_keys : Forall D ls;
  st_sorted : sorted (t_compare t) ls
}.

Lemma subtree_node k c l p r ls m :
  subtree k (Node c l p r) ls m →
  ∃ la e lb, ls = la ++ e :: lb ∧ p = rb_n2e t e ∧ D e ∧ rb_e2n t p = e
    ∧ rb_heap m !! p = Some (mkRb (parp k) (rootp l) (rootp r) c) ∧ p ≠ NULL
    ∧ subtree (InL c p r :: k) l la m ∧ subtree (InR c l p :: k) r lb m.
Proof.
  intros [Hm Hn Ha HD Hs]. destruct (rep_node _ _ _ _ _ _ _ Hm) as [He Hnull]. simpl in Hn.
  symmetry in Hn. apply fmap_app_inv in Hn as (la & lx & Hla & Hlx & ->).
  symmetry in Hlx. apply fmap_cons_inv in Hlx as (e & lb & -> & Hlb & ->). exists la, e, lb.
  apply Forall_app in Ha as [Ha1 Ha2]. apply Forall_app in HD as [HD1 HD2].
  inversion Ha2; subst. inversion HD2; subst.
  split; [done|]. split; [done|]. split; [done|]. split; [by apply e2n_n2e|]. split; [done|]. split; [done|].
  split; split; try done.
  - by eapply StronglySorted_app_1_l.
  - apply StronglySorted_app_1_r in Hs. by apply StronglySorted_inv in Hs as [Hs _].
Qed.

Lemma subtree_whole l m : rbtree t D l m → ∃ T n, rb RB_BLACK n T ∧ subtree [] T l m.
Proof. intros [(T & n & Hm & Hn & E) Ha HD Hs]. exists T, n. split; [done|]. by split. Qed.

Lemma find_loop_run fuel key k s ls m :
  D key → subtree k s ls m → (height s < fuel)%nat →
  find_loop fuel t key (rootp s) m = Ok (sfind (t_compare t) key ls) m.
Proof.
  intros Hk. revert k s ls. induction fuel as [|fuel IH]; intros k s ls Hs Hf; [lia|].
  destruct s as [|c l p r].
  { pose proof (st_nodes _ _ _ _ Hs) as E. simpl in E. symmetry in E. apply fmap_nil_inv in E as ->. done. }
  destruct (subtree_node _ _ _ _ _ _ _ Hs) as (la & e & lb & -> & Ep & De & E2 & He & Hnull & Hl & Hr).
  pose proof (st_keys _ _ _ _ Hs) as HD. pose proof (st_sorted _ _ _ _ Hs) as Hsort. simpl in Hf.
  simpl. rewrite (proj2 (Z.eqb_neq _ _) Hnull). cbv zeta. rewrite E2, Z.gtb_ltb.
  unfold RBE_LEFT, RBE_RIGHT, RBE, mbind, M_bind.
  destruct (Z.ltb_spec (t_compare t key e) 0) as [Hc|Hc]; [|destruct (Z.ltb_spec 0 (t_compare t key e)) as [Hc'|Hc']].
  - rewrite He. simpl. rewrite (IH _ _ _ Hl) by lia. rewrite sfind_stop; [done|].
    constructor; [done|]. apply (sorted_above _ D key la e lb); auto; lia.
  - rewrite He. simpl. rewrite (IH _ _ _ Hr) by lia. rewrite sfind_app.
    + simpl. by rewrite (proj2 (Z.eqb_neq _ _)) by lia.
    + eapply Forall_impl; [apply (sorted_below _ D key la e lb); auto; lia|]. simpl. lia.
  - rewrite sfind_app.
    + simpl. by rewrite (proj2 (Z.eqb_eq _ _)) by lia.
    + eapply Forall_impl; [apply (sorted_below _ D key la e lb); auto; lia|]. simpl. lia.
Qed.

Lemma nfind_loop_run fuel key k s ls res m :
  D key → subtree k s ls m → (height s < fuel)%nat →
  nfind_loop fuel t key (rootp s) res m = Ok (snfind (t_compare t) key ls res) m.
Proof.
  intros Hk. revert k s ls res. induction fuel as [|fuel IH]; intros k s ls res Hs Hf; [lia|].
  destruct s as [|c l p r].
  { pose proof (st_nodes _ _ _ _ Hs) as E. simpl in E. symmetry in E. apply fmap_nil_inv in E as ->. done. }
  destruct (subtree_node _ _ _ _ _ _ _ Hs) as (la & e & lb & -> & Ep & De & E2 & He & Hnull & Hl & Hr).
  pose proof (st_keys _ _ _ _ Hs) as HD. pose proof (st_sorted _ _ _ _ Hs) as Hsort. simpl in Hf.
  simpl. rewrite (proj2 (Z.eqb_neq _ _) Hnull). cbv zeta. rewrite E2, Z.gtb_ltb.
  unfold RBE_LEFT, RBE_RIGHT, RBE, mbind, M_bind.
  destruct (Z.ltb_spec (t_compare t key e) 0) as [Hc|Hc]; [|destruct (Z.ltb_spec 0 (t_compare t key e)) as [Hc'|Hc']].
  - rewrite He. simpl. rewrite (IH _ _ _ _ Hl) by lia. rewrite snfind_stop; [done|lia].
  - rewrite He. simpl. rewrite (IH _ _ _ _ Hr) by lia. rewrite snfind_app.
    + simpl. by rewrite (proj2 (Z.leb_gt _ _)) by lia.
    + apply (sorted_below _ D key la e lb); auto; lia.
  - rewrite snfind_app.
    + simpl. by rewrite (proj2 (Z.leb_le _ _)) by lia.
    + apply (sorted_below _ D key la e lb); auto; lia.
Qed.

Lemma rb_search_run l key m : rbtree t D l m → D key → _rb_find t key m = Ok (sfind (t_compare t) key l) m.
Proof.
  intros (T & n & _ & HT)%subtree_whole Hk. pose proof (rep_path _ _ _ _ (st_rep _ _ _ _ HT)) as Hf.
  unfold _rb_find, rb_fuel, RBH_ROOT, mbind, M_bind, gets. cbv beta iota. rewrite (rep_root _ _ _ (st_rep _ _ _ _ HT)).
  apply (find_loop_run _ _ [] T); [done|done|simpl in *; lia].
Qed.

Lemma rb_nfind_run l key m : rbtree t D l m → D key → _rb_nfind t key m = Ok (snfind (t_compare t) key l NULL) m.
Proof.
  intros (T & n & _ & HT)%subtree_whole Hk. pose proof (rep_path _ _ _ _ (st_rep _ _ _ _ HT)) as Hf.
  unfold _rb_nfind, rb_fuel, RBH_ROOT, mbind, M_bind, gets. cbv beta iota. rewrite (rep_root _ _ _ (st_rep _ _ _ _ HT)).
  apply (nfind_loop_run _ _ [] T); [done|done|simpl in *; lia].
Qed.
(** The search of an insertion: an equal element, or the place between the smaller ones
    [la] and the larger ones [lb]. *)
Lemma insert_search_run fuel e k s ls comp m :
  D e → subtree k s ls m → (height s < fuel)%nat → (s = Leaf → toward k comp) →
  ∃ res, insert_search fuel t e (rootp s) (parp k) comp m = Ok res m
    ∧ match res with
      | inl y => y ∈ ls ∧ t_compare t e y = 0
      | inr (parent, comp') =>
          ∃ k' la lb, plug k s = plug k' Leaf ∧ parent = parp k' ∧ toward k' comp' ∧ ls = la ++ lb
            ∧ before k' = before k ++ (rb_n2e t <$> la) ∧ after k' = (rb_n2e t <$> lb) ++ after k
            ∧ Forall (λ y, 0 < t_compare t e y) la ∧ Forall (λ y, t_compare t e y < 0) lb
      end.
Proof.
  intros Hk. revert k s ls comp. induction fuel as [|fuel IH]; intros k s ls comp Hs Hf Hc; [lia|].
  destruct s as [|c l p r].
  { pose proof (st_nodes _ _ _ _ Hs) as E. simpl in E. symmetry in E. apply fmap_nil_inv in E as ->.
    eexists. split; [done|]. exists k, [], []. simpl. rewrite app_nil_r. auto 10. }
  destruct (subtree_node _ _ _ _ _ _ _ Hs) as (la & y & lb & -> & Ep & De & E2 & He & Hnull & Hl & Hr).
  pose proof (st_keys _ _ _ _ Hs) as HD. pose proof (st_sorted _ _ _ _ Hs) as Hsort. simpl in Hf. clear Hc.
  pose proof (sorted_above _ D e la y lb Hk HD Hsort) as Hab. pose proof (sorted_below _ D e la y lb Hk HD Hsort) as Hbe.
  simpl. rewrite (proj2 (Z.eqb_neq _ _) Hnull). cbv zeta. rewrite E2, Z.gtb_ltb.
  unfold RBE_LEFT, RBE_RIGHT, RBE, mbind, M_bind.
  destruct (Z.ltb_spec (t_compare t e y) 0) as [Hc|Hc]; [|destruct (Z.ltb_spec 0 (t_compare t e y)) as [Hc'|Hc']].
  - rewrite He. simpl. destruct (IH (InL c p r :: k) l la (t_compare t e y) Hl) as (res & Hrun & Hres); [lia|done|].
    exists res. split; [exact Hrun|]. destruct res as [z|[par comp']]; [destruct Hres; split; [set_solver|done]|].
    destruct Hres as (k' & l1 & l2 & E & -> & Ht & -> & Eb & Ea & H1 & H2). exists k', l1, (l2 ++ y :: lb).
    split; [exact E|]. split; [done|]. split; [done|]. split; [by rewrite <-app_assoc|]. split; [exact Eb|]. split.
    + rewrite Ea. simpl. rewrite fmap_app. simpl. rewrite <-Ep, (st_nodes _ _ _ _ Hr). by rewrite <-app_assoc.
    + split; [done|]. apply Forall_app. split; [done|]. constructor; [done|]. apply Hab. lia.
  - rewrite He. simpl. destruct (IH (InR c l p :: k) r lb (t_compare t e y) Hr) as (res & Hrun & Hres); [lia|done|].
    exists res. split; [exact Hrun|]. destruct res as [z|[par comp']]; [destruct Hres; split; [set_solver|done]|].
    destruct Hres as (k' & l1 & l2 & E & -> & Ht & -> & Eb & Ea & H1 & H2). exists k', (la ++ y :: l1), l2.
    split; [exact E|]. split; [done|]. split; [done|]. split; [by rewrite <-app_assoc|]. split; [|split; [exact Ea|]].
    + rewrite Eb. simpl. rewrite fmap_app. simpl. rewrite <-Ep, (st_nodes _ _ _ _ Hl). by rewrite <-!app_assoc.
    + split; [|done]. apply Forall_app. split; [apply Hbe; lia|]. by constructor.
  - eexists. split; [done|]. split; [set_solver|lia].
Qed.
End searches.

(** ** Changes *)

(** Entries other than those of [L] are as before, and no entry is added or lost. *)
Definition unchanged (L : list ptr) (m m' : rb_mem) : Prop :=
  (∀ q, q ∉ L → rb_heap m' !! q = rb_heap m !! q)
  ∧ ∀ q, is_Some (rb_heap m' !! q) ↔ is_Some (rb_heap m !! q).

Lemma unchanged_refl L m : unchanged L m m.
Proof. by split. Qed.

Lemma unchanged_trans L m1 m2 m3 : unchanged L m1 m2 → unchanged L m2 m3 → unchanged L m1 m3.
Proof.
  intros [A1 B1] [A2 B2]. split; intros q; [intros Hq; by rewrite A2, A1|]. by rewrite B2, B1.
Qed.

Lemma unchanged_weaken L L' m m' : L ⊆ L' → unchanged L m m' → unchanged L' m m'.
Proof. intros HL [A B]. split; [|done]. intros q Hq. apply A. set_solver. Qed.

(** An entry outside of the tree and as before, or in the tree. *)
Lemma rep_unchanged F T L m m' :
  rep F T m' → nodes T ⊆ L → (∀ q, q ∈ L → is_Some (rb_heap m !! q)) →
  (∀ q, q ∈ L → q ∉ nodes T → is_Some (F !! q)) → (∀ q, q ∉ L → F !! q = rb_heap m !! q) → unchanged L m m'.
Proof.
  intros [_ Ht _ Hf] Hsub HL HF Hout. split; intros q.
  - intros Hq. rewrite Hf by set_solver. by apply Hout.
  - destruct (decide (q ∈ nodes T)) as [Hq|Hq].
    + pose proof (linked_at_entry _ _ _ _ Ht Hq). pose proof (HL q (Hsub q Hq)). done.
    + rewrite Hf by done. destruct (decide (q ∈ L)) as [Hq'|Hq']; [|by rewrite Hout].
      pose proof (HF q Hq' Hq). pose proof (HL q Hq'). done.
Qed.

Section changes.
Context (t : rb_type) (Haug : t_augment t = None) (D : ptr → Prop) `{!KeyOrder D (t_compare t)}.

Lemma rbtree_entries l m q : rbtree t D l m → q ∈ rb_n2e t <$> l → is_Some (rb_heap m !! q).
Proof. intros [(T & n & [_ Ht _ _] & _ & E) _ _ _] Hq. rewrite <-E in Hq. by eapply linked_at_entry. Qed.

Lemma sorted_insert e la lb :
  D e → Forall D (la ++ lb) → sorted (t_compare t) (la ++ lb) →
  Forall (λ y, 0 < t_compare t e y) la → Forall (λ y, t_compare t e y < 0) lb → sorted (t_compare t) (la ++ e :: lb).
Proof.
  intros De HD Hs Ha Hb. apply Forall_app in HD as [HDa HDb]. unfold sorted in *.
  apply StronglySorted_app in Hs as (Hab & Hsa & Hsb). apply StronglySorted_app.
  rewrite Forall_forall in Ha, HDa. split; [|split; [done|by constructor]].
  intros x y Hx [->|Hy]%elem_of_cons; [|by apply Hab]. apply ko_sym; auto.
Qed.

Lemma not_among e la lb :
  D e → Forall (λ y, 0 < t_compare t e y) la → Forall (λ y, t_compare t e y < 0) lb → e ∉ la ++ lb.
Proof.
  intros De Ha Hb. pose proof (cmp_refl _ D e De) as H0. rewrite elem_of_app, Forall_forall in *.
  intros [H|H]; [specialize (Ha e H)|specialize (Hb e H)]; lia.
Qed.

Lemma rb_insert_run l e m :
  rbtree t D l m → rb_addr t e → D e → is_Some (rb_heap m !! rb_n2e t e) →
  ∃ m', _rb_insert t e m = Ok (sfind (t_compare t) e l) m' ∧ rbtree t D (sinsert (t_compare t) e l) m'
    ∧ unchanged (rb_n2e t <$> e :: l) m m'.
Proof.
  intros H He De [e0 Hent]. pose proof H as [_ Ha HD Hs]. destruct (subtree_whole t D l m H) as (T & n & Hn & HT).
  pose proof (st_rep _ _ _ _ _ _ HT) as Hm. pose proof (rep_path _ _ _ _ Hm) as Hf.
  destruct (insert_search_run t D (S (S (size (rb_heap m)))) e [] T l 0 m De HT) as (res & Hrun & Hres); [simpl in *; lia|done|].
  enough (wp (_rb_insert t e) (λ x m', x = sfind (t_compare t) e l ∧ rbtree t D (sinsert (t_compare t) e l) m'
    ∧ unchanged (rb_n2e t <$> e :: l) m m') m) as (x & m' & Hx & -> & Hr)%wp_ok by eauto.
  unfold _rb_insert, rb_fuel. apply wp_bind, wp_gets. apply wp_bind, wp_root. rewrite (rep_root _ _ _ Hm).
  apply wp_bind. unfold wp at 1. change (parp []) with NULL in Hrun. simpl plug. rewrite Hrun.
  destruct res as [y|[par comp]].
  - destruct Hres as [Hy Hc]. destruct (found_spec _ D e l y De HD Hs Hy Hc) as [-> ->].
    apply wp_ret. split; [done|]. split; [done|apply unchanged_refl].
  - destruct Hres as (k & la & lb & E & -> & Ht & -> & Eb & Ea & Hla & Hlb). simpl in E, Eb, Ea. rewrite E in Hm.
    rewrite app_nil_r in Ea. rewrite sinsert_split by done.
    assert (e ∉ la ++ lb) as Hnew by by by apply not_among.
    assert (rb_n2e t e ∉ nodes (plug k Leaf)) as Hout.
    { rewrite nodes_plug, Eb, Ea. simpl. rewrite <-fmap_app. intros Hin. by apply Hnew, (n2e_elem t). }
    assert (rb RB_BLACK n (plug k Leaf)) as Hn' by by rewrite <-E.
    destruct (rb_plug _ _ _ Hn') as (c & n' & Hleaf & Hk). inversion Hleaf; subst.
    pose proof (wp_link t Haug (rb_heap m) k (rb_n2e t e) e0 comp
      (λ _, rep (rb_heap m) (plug k (Node RB_RED Leaf (rb_n2e t e) Leaf))) m Hm Hout
      (not_eq_sym (n2e_null t e He)) Hent Ht (λ _ H', H')) as Hlink.
    apply wp_bind_inv in Hlink. apply wp_bind. eapply wp_mono; [exact Hlink|]. intros [] m0 H0.
    apply wp_bind. eapply wp_mono; [exact H0|]. intros [] m1 Hm1. apply wp_bind.
    eapply (wp_insert_color t Haug); [split; [exact Hm1|]; eauto with rb|].
    intros T' m' n2 HT' Hn2 HN. apply wp_ret. rewrite Eb, Ea in HN. split; [|split].
    + symmetry. apply sfind_absent, Forall_app. split; (eapply Forall_impl; [eassumption|]; simpl; lia).
    + split; [|..|by apply sorted_insert].
      * exists T', n2. split; [by eapply rep_self|]. split; [done|]. by rewrite HN, fmap_app.
      * apply Forall_app in Ha as [??]. apply Forall_app. split; [done|by constructor].
      * apply Forall_app in HD as [??]. apply Forall_app. split; [done|by constructor].
    + assert (∀ q, q ∈ rb_n2e t <$> e :: la ++ lb → is_Some (rb_heap m !! q)) as Hin.
      { intros q [->|Hq]%elem_of_cons; [by exists e0|]. by eapply rbtree_entries. }
      eapply rep_unchanged; [exact HT'| |exact Hin|auto|done]. rewrite HN. simpl. rewrite fmap_app. set_solver.
Qed.
Lemma rbtree_nodup l m : rbtree t D l m → NoDup l.
Proof.
  intros [(T & n & [_ _ Hd _] & _ & E) _ _ _]. apply NoDup_cons in Hd as [_ Hd]. rewrite E in Hd.
  by apply NoDup_fmap_1 in Hd.
Qed.

Lemma list_del_split (e : ptr) l1 l2 : NoDup (l1 ++ e :: l2) → list_del e (l1 ++ e :: l2) = l1 ++ l2.
Proof.
  intros Hd. apply NoDup_app in Hd as (_ & Hd & Hcons). apply NoDup_cons in Hcons as [Hl2 _].
  unfold list_del. rewrite filter_app, filter_cons_False by auto.
  f_equal; apply list_del_absent; [|done]. intros H. apply (Hd e H). set_solver.
Qed.

Lemma rb_remove_run l e m :
  rbtree t D l m → e ∈ l →
  ∃ m', _rb_remove t e m = Ok e m' ∧ rbtree t D (list_del e l) m' ∧ unchanged (rb_n2e t <$> l) m m'.
Proof.
  intros H Hin. pose proof (rbtree_nodup l m H) as Hd. pose proof H as [(T & n & Hm & Hn & E) Ha HD Hs].
  destruct (list_elem_of_split l e Hin) as (l1 & l2 & ->). rewrite list_del_split by done.
  assert (rb_addr t e) as He by (apply Forall_app in Ha as [_ Ha]; by inversion Ha).
  enough (wp (_rb_remove t e) (λ x m', x = e ∧ rbtree t D (l1 ++ l2) m' ∧ unchanged (rb_n2e t <$> l1 ++ e :: l2) m m') m)
    as (x & m' & Hx & -> & Hr)%wp_ok by eauto.
  unfold _rb_remove. apply wp_bind. rewrite fmap_app in E. simpl in E.
  eapply (wp_remove t Haug); [exact Hm|exact Hn|exact E|].
  intros T' m' n' F' HT' Hn' HN Hsome Hframe. apply wp_ret. split; [|split].
  - unfold rb_result. by rewrite (proj2 (Z.eqb_neq _ _) (n2e_null t e He)), e2n_n2e.
  - apply Forall_app in Ha as [Ha1 Ha2]. apply Forall_app in HD as [HD1 HD2]. inversion Ha2; subst. inversion HD2; subst.
    split; [|by apply Forall_app..|].
    + exists T', n'. split; [by eapply rep_self|]. split; [done|]. by rewrite HN, fmap_app.
    + unfold sorted in *. apply StronglySorted_app in Hs as (Hab & Hsa & Hsb).
      apply StronglySorted_inv in Hsb as [Hsb _]. apply StronglySorted_app. split; [|done]. set_solver.
  - eapply rep_unchanged; [exact HT'| | |..].
    + rewrite HN, fmap_app. simpl. set_solver.
    + intros q Hq. by eapply rbtree_entries.
    + intros q Hq Hqn. rewrite HN in Hqn. rewrite fmap_app in Hq. simpl in Hq.
      destruct (decide (q = rb_n2e t e)) as [->|Hne]; [done|]. set_solver.
    + intros q Hq. rewrite fmap_app in Hq. simpl in Hq. apply Hframe; set_solver.
Qed.

(** [RB_FOREACH] visits the elements in order. *)
Lemma foreach_loop_run fuel l1 l2 m :
  rbtree t D (l1 ++ l2) m → (length l2 < fuel)%nat → foreach_loop fuel t (first l2) m = Ok l2 m.
Proof.
  revert l1 l2. induction fuel as [|fuel IH]; intros l1 l2 H Hf; [lia|]. destruct l2 as [|e l2]; [done|].
  assert (e ≠ NULL) as He.
  { pose proof (rt_addr _ _ _ _ H) as Ha. apply Forall_app in Ha as [_ Ha]. inversion Ha as [|? ? [? _] _]; subst.
    unfold NULL. lia. }
  simpl. rewrite (proj2 (Z.eqb_neq _ _) He). rewrite (bind_ok _ _ _ _ _ (rb_next_run t D l1 e l2 m H)).
  rewrite (bind_ok _ _ _ l2 m); [done|]. apply (IH (l1 ++ [e])); [by rewrite <-app_assoc|simpl in Hf; lia].
Qed.

Lemma rb_foreach_run l m : rbtree t D l m → RB_FOREACH t m = Ok l m.
Proof.
  intros H. pose proof H as [(T & n & Hm & _ & E) _ _ _]. pose proof (rep_size _ _ _ Hm) as Hsize.
  rewrite E, length_fmap in Hsize.
  unfold RB_FOREACH. rewrite (bind_ok rb_fuel _ m (S (S (size (rb_heap m)))) m) by done.
  rewrite (bind_ok _ _ _ _ _ (rb_min_run t D l m H)). apply (foreach_loop_run _ [] l); [done|lia].
Qed.
End changes.
