(* ===== verification/RbContract.v ===== *)
(** * The contract of the red-black tree

    Sequences of operations on a tree, from [RB_INIT], answer as the ordered list does;
    a search makes at most twice as many comparisons as the logarithm of the number of
    elements. *)

From stdpp Require Import sorting.
From S2P Require Import Prelude CMem State Machine Port RbTree RbRep RbInsert RbRemove RbOps RbRefine.
#[local] Open Scope Z_scope.

(** ** Operations and answers *)

Inductive rb_op : Type :=
| OpInsert (e : ptr)      (** [RB_INSERT] *)
| OpRemove (e : ptr)      (** [RB_REMOVE] *)
| OpClear (e : ptr)       (** [MAC_RB_REMOVE], [VLAN_RB_REMOVE] *)
| OpFind (key : ptr)      (** [RB_FIND] *)
| OpNfind (key : ptr)     (** [RB_NFIND] *)
| OpMin | OpMax           (** [RB_MIN], [RB_MAX] *)
| OpNext (e : ptr)        (** [RB_NEXT] *)
| OpPrev (e : ptr)        (** [RB_PREV] *)
| OpForeach               (** [RB_FOREACH] *)
| OpEmpty.                (** [RB_EMPTY] *)

Inductive rb_answer : Type :=
| APtr (p : ptr)
| AList (l : list ptr)
| ABool (b : bool)
| ANone.

(** On the links in memory. *)
Definition rb_exec (t : rb_type) (op : rb_op) : R rb_answer :=
  match op with
  | OpInsert e => p ← _rb_insert t e; mret (APtr p)
  | OpRemove e => p ← _rb_remove t e; mret (APtr p)
  | OpClear e => RB_REMOVE_clear t e;; mret ANone
  | OpFind key => p ← _rb_find t key; mret (APtr p)
  | OpNfind key => p ← _rb_nfind t key; mret (APtr p)
  | OpMin => p ← _rb_min t; mret (APtr p)
  | OpMax => p ← _rb_max t; mret (APtr p)
  | OpNext e => p ← _rb_next t e; mret (APtr p)
  | OpPrev e => p ← _rb_prev t e; mret (APtr p)
  | OpForeach => l ← RB_FOREACH t; mret (AList l)
  | OpEmpty => b ← _rb_empty; mret (ABool b)
  end.

Fixpoint rb_run (t : rb_type) (ops : list rb_op) : R (list rb_answer) :=
  match ops with
  | [] => mret []
  | op :: ops' => a ← rb_exec t op; rest ← rb_run t ops'; mret (a :: rest)
  end.

(** The elements after and before [e]. *)
Fixpoint snext (e : ptr) (l : list ptr) : ptr :=
  match l with
  | [] => NULL
  | x :: l' => if x =? e then first l' else snext e l'
  end.

Definition sprev (e : ptr) (l : list ptr) : ptr := snext e (reverse l).

(** On the ordered list. *)
Definition list_exec (cmp : ptr → ptr → Z) (op : rb_op) (l : list ptr) : rb_answer * list ptr :=
  match op with
  | OpInsert e => (APtr (sfind cmp e l), sinsert cmp e l)
  | OpRemove e => (APtr e, list_del e l)
  | OpClear e => (ANone, list_del e l)
  | OpFind key => (APtr (sfind cmp key l), l)
  | OpNfind key => (APtr (snfind cmp key l NULL), l)
  | OpMin => (APtr (first l), l)
  | OpMax => (APtr (final l), l)
  | OpNext e => (APtr (snext e l), l)
  | OpPrev e => (APtr (sprev e l), l)
  | OpForeach => (AList l, l)
  | OpEmpty => (ABool (bool_decide (l = [])), l)
  end.

Fixpoint list_run (cmp : ptr → ptr → Z) (ops : list rb_op) (l : list ptr) : list rb_answer * list ptr :=
  match ops with
  | [] => ([], l)
  | op :: ops' =>
      let '(a, l') := list_exec cmp op l in
      let '(rest, l'') := list_run cmp ops' l' in (a :: rest, l'')
  end.

(** The uses the contract allows: elements of the pool [P] are inserted, only elements of
    the tree are removed or walked from, and keys are comparable. *)
Definition allowed (D : ptr → Prop) (P : list ptr) (op : rb_op) (l : list ptr) : Prop :=
  match op with
  | OpInsert e => e ∈ P
  | OpRemove e | OpClear e | OpNext e | OpPrev e => e ∈ l
  | OpFind key | OpNfind key => D key
  | OpMin | OpMax | OpForeach | OpEmpty => True
  end.

Fixpoint all_allowed (D : ptr → Prop) (P : list ptr) (cmp : ptr → ptr → Z) (ops : list rb_op) (l : list ptr) : Prop :=
  match ops with
  | [] => True
  | op :: ops' => allowed D P op l ∧ all_allowed D P cmp ops' (snd (list_exec cmp op l))
  end.

(** The elements that may be linked: in the address space, comparable, in memory. *)
Record pool (t : rb_type) (D : ptr → Prop) (P : list ptr) (m : rb_mem) : Prop := {
  pl_addr : Forall (rb_addr t) P;
  pl_keys : Forall D P;
  pl_entries : Forall (λ e, is_Some (rb_heap m !! rb_n2e t e)) P
}.

Lemma pool_unchanged t D P L m m' : pool t D P m → unchanged L m m' → pool t D P m'.
Proof.
  intros [H1 H2 H3] [_ Hs]. split; [done|done|]. eapply Forall_impl; [exact H3|]. simpl. intros e. by rewrite Hs.
Qed.

(** ** One operation *)

Lemma snext_split e l1 l2 : NoDup (l1 ++ e :: l2) → snext e (l1 ++ e :: l2) = first l2.
Proof.
  induction l1 as [|x l1 IH]; simpl; [by rewrite Z.eqb_refl|]. intros [Hx Hd]%NoDup_cons.
  rewrite (proj2 (Z.eqb_neq x e)); [by apply IH|]. set_solver.
Qed.

Lemma first_reverse l : first (reverse l) = final l.
Proof.
  destruct l as [|x l _] using rev_ind; [done|]. by rewrite reverse_snoc, final_app.
Qed.

Lemma sprev_split e l1 l2 : NoDup (l1 ++ e :: l2) → sprev e (l1 ++ e :: l2) = final l1.
Proof.
  intros Hd. rewrite <-reverse_Permutation in Hd. unfold sprev.
  rewrite reverse_app, reverse_cons, <-app_assoc in *. simpl in *. rewrite snext_split by done. apply first_reverse.
Qed.

Lemma sinsert_elem cmp e l x : x ∈ sinsert cmp e l → x = e ∨ x ∈ l.
Proof. induction l as [|y l IH]; simpl; [set_solver|]. repeat case_match; set_solver. Qed.

Section operations.
Context (t : rb_type) (Haug : t_augment t = None) (D : ptr → Prop) `{!KeyOrder D (t_compare t)}.

(** A write to an entry outside of the tree. *)
Lemma rbtree_outside l q x m :
  rbtree t D l m → q ∉ rb_n2e t <$> l → rbtree t D l (mkRbMem (rbt_root m) (<[q := x]> (rb_heap m))).
Proof.
  intros [(T & n & [H1 H2 H3 H4] & Hn & E) Ha HD Hs] Hq. split; [|done..]. exists T, n. split; [|done].
  split; [done| |done|done]. apply linked_at_insert; [by rewrite E|done].
Qed.

(** The links of a removed element are cleared. *)
Lemma rb_clear_run l e m :
  rbtree t D l m → e ∈ l →
  ∃ m', RB_REMOVE_clear t e m = Ok tt m' ∧ rbtree t D (list_del e l) m' ∧ unchanged (rb_n2e t <$> l) m m'
    ∧ ∃ c, rb_heap m' !! rb_n2e t e = Some (mkRb NULL NULL NULL c).
Proof.
  intros H Hin. destruct (rb_remove_run t Haug D l e m H Hin) as (m1 & Hrun & H1 & Hu).
  pose proof (rt_addr _ _ _ _ H) as Ha. pose proof (rt_addr _ _ _ _ H1) as Ha1.
  assert (rb_addr t e) as He by (rewrite Forall_forall in Ha; auto).
  assert (rb_n2e t e ∈ rb_n2e t <$> l) as Hq by by apply list_elem_of_fmap_2.
  assert (rb_n2e t e ∉ rb_n2e t <$> list_del e l) as Hout.
  { intros Hx%(n2e_elem t e) ; [|done..]. by apply list_elem_of_filter in Hx as [Hx _]. }
  destruct (proj2 (proj2 Hu _) (rbtree_entries t D l m _ H Hq)) as [x Hx].
  unfold RB_REMOVE_clear. rewrite (bind_ok _ _ _ _ _ Hrun).
  unfold set_PARENT, set_LEFT, set_RIGHT, RBE_upd, mbind, M_bind. rewrite Hx. simpl.
  rewrite lookup_insert_eq. simpl. rewrite lookup_insert_eq. eexists. split; [done|]. split; [|split].
  - do 3 (apply (rbtree_outside (list_del e l) (rb_n2e t e) _ (mkRbMem _ _)); [|done]). by destruct m1.
  - eapply unchanged_trans; [exact Hu|]. split; simpl; intros q.
    + intros Hn. by rewrite !lookup_insert_ne by set_solver.
    + destruct (decide (q = rb_n2e t e)) as [->|Hne]; [|by rewrite !lookup_insert_ne by auto].
      rewrite lookup_insert_eq. split; [by eexists|done].
  - exists (rbt_color x). simpl. by rewrite lookup_insert_eq.
Qed.
(** One operation answers as the list does and represents what it becomes. *)
Lemma exec_refines P op l m :
  pool t D P m → l ⊆ P → rbtree t D l m → allowed D P op l →
  let '(a, l') := list_exec (t_compare t) op l in
  ∃ m', rb_exec t op m = Ok a m' ∧ rbtree t D l' m' ∧ unchanged (rb_n2e t <$> P) m m' ∧ l' ⊆ P.
Proof.
  intros [Pa Pd Pe] HP H Hop. pose proof (rbtree_nodup t D l m H) as Hd.
  assert (rb_n2e t <$> l ⊆ rb_n2e t <$> P) as HL by (intros q (e & -> & He)%list_elem_of_fmap; apply list_elem_of_fmap_2; auto).
  assert (∀ e, list_del e l ⊆ P) as Hdel by (intros e x [_ Hx]%list_elem_of_filter; auto).
  assert (∀ A (f : R A) a (g : A → rb_answer), f m = Ok a m →
    ∃ m', (x ← f; mret (g x)) m = Ok (g a) m' ∧ rbtree t D l m' ∧ unchanged (rb_n2e t <$> P) m m' ∧ l ⊆ P) as Hread.
  { intros A f a g Hf. exists m. rewrite (bind_ok _ _ _ _ _ Hf). split; [done|]. split; [done|]. split; [apply unchanged_refl|done]. }
  destruct op as [e|e|e|key|key| | |e|e| |]; simpl in Hop |- *; rewrite Forall_forall in Pa, Pd, Pe.
  - destruct (rb_insert_run t Haug D l e m H (Pa e Hop) (Pd e Hop) (Pe e Hop)) as (m' & Hrun & H' & Hu).
    exists m'. rewrite (bind_ok _ _ _ _ _ Hrun). split; [done|]. split; [done|]. split.
    + eapply unchanged_weaken; [|exact Hu]. simpl. intros q [->|Hq]%elem_of_cons; [by apply list_elem_of_fmap_2|auto].
    + intros x Hx%sinsert_elem. destruct Hx as [->|Hx]; auto.
  - destruct (rb_remove_run t Haug D l e m H Hop) as (m' & Hrun & H' & Hu).
    exists m'. rewrite (bind_ok _ _ _ _ _ Hrun). split; [done|]. split; [done|]. split; [by eapply unchanged_weaken|done].
  - destruct (rb_clear_run l e m H Hop) as (m' & Hrun & H' & Hu & _).
    exists m'. rewrite (bind_ok _ _ _ _ _ Hrun). split; [done|]. split; [done|]. split; [by eapply unchanged_weaken|done].
  - by apply Hread, rb_search_run with D.
  - by apply Hread, rb_nfind_run with D.
  - by apply Hread, rb_min_run with D.
  - by apply Hread, rb_max_run with D.
  - destruct (list_elem_of_split l e Hop) as (l1 & l2 & ->). rewrite snext_split by done. by eapply Hread, rb_next_run.
  - destruct (list_elem_of_split l e Hop) as (l1 & l2 & ->). rewrite sprev_split by done. by eapply Hread, rb_prev_run.
  - by apply Hread, rb_foreach_run with D.
  - apply Hread. pose proof H as [(T & n & Hm & _ & E) Ha _ _]. unfold _rb_empty, RBH_ROOT, mbind, M_bind, gets.
    rewrite (rep_root _ _ _ Hm). f_equal. destruct T as [|c a p b]; simpl in E.
    + symmetry in E. apply fmap_nil_inv in E as ->. done.
    + destruct (rep_node _ [] _ _ _ _ _ Hm) as [_ Hn]. simpl. rewrite (proj2 (Z.eqb_neq _ _) Hn).
      destruct l; [by destruct (nodes a)|done].
Qed.

Lemma run_refines P ops l m :
  pool t D P m → l ⊆ P → rbtree t D l m → all_allowed D P (t_compare t) ops l →
  let '(answers, l') := list_run (t_compare t) ops l in
  ∃ m', rb_run t ops m = Ok answers m' ∧ rbtree t D l' m' ∧ unchanged (rb_n2e t <$> P) m m'.
Proof.
  revert l m. induction ops as [|op ops IH]; intros l m HP Hsub H Hops; simpl.
  { exists m. split; [done|]. split; [done|apply unchanged_refl]. }
  destruct Hops as [Hop Hops]. pose proof (exec_refines P op l m HP Hsub H Hop) as Hx.
  destruct (list_exec (t_compare t) op l) as [a l1]. destruct Hx as (m1 & Hrun & H1 & Hu & Hsub1).
  specialize (IH l1 m1 (pool_unchanged _ _ _ _ _ _ HP Hu) Hsub1 H1 Hops).
  destruct (list_run (t_compare t) ops l1) as [rest l2]. destruct IH as (m2 & Hrun2 & H2 & Hu2).
  exists m2. rewrite (bind_ok _ _ _ _ _ Hrun), (bind_ok _ _ _ _ _ Hrun2). split; [done|]. split; [done|].
  by eapply unchanged_trans.
Qed.

Lemma init_run m : ∃ m', _rb_init m = Ok tt m' ∧ rb_heap m' = rb_heap m ∧ rbtree t D [] m'.
Proof.
  eexists. split; [done|]. split; [done|]. split; [|constructor..]. exists Leaf, 0%nat.
  split; [|split; [constructor|done]]. split; [done|done| |done]. apply NoDup_singleton.
Qed.
End operations.

(** ** The theorems *)

(** C34. The red-black tree code refines the ordered list.  From [RB_INIT], in any memory,
    every sequence of insertions, removals, lookups and walks that the contract allows
    runs without a fault and ends; each operation answers exactly what the ordered list
    answers; afterwards the links form a red-black tree (colours, parent links, order)
    of the list's elements, and no entry outside of the pool has changed. *)
Theorem rb_refines cmp offset D P ops m :
  KeyOrder D cmp → pool (RB_GENERATE cmp offset) D P m → all_allowed D P cmp ops [] →
  ∃ m', (_rb_init;; rb_run (RB_GENERATE cmp offset) ops) m = Ok (fst (list_run cmp ops [])) m'
    ∧ rbtree (RB_GENERATE cmp offset) D (snd (list_run cmp ops [])) m'
    ∧ ∀ q, q ∉ rb_n2e (RB_GENERATE cmp offset) <$> P → rb_heap m' !! q = rb_heap m !! q.
Proof.
  intros Hko HP Hops. set (t := RB_GENERATE cmp offset) in *.
  destruct (init_run t D m) as (m0 & Hinit & Eh & H0).
  assert (pool t D P m0) as HP0 by (destruct HP as [H1 H2 H3]; split; [done|done|by rewrite Eh]).
  pose proof (run_refines t eq_refl D P ops [] m0 HP0 ltac:(set_solver) H0 Hops) as Hr. simpl in Hr.
  destruct (list_run cmp ops []) as [answers l]. destruct Hr as (m' & Hrun & H' & Hu & _).
  exists m'. rewrite (bind_ok _ _ _ _ _ Hinit). split; [exact Hrun|]. split; [exact H'|].
  intros q Hq. rewrite Hu by done. by rewrite Eh.
Qed.

(** Five elements with the entry at offset 16, ordered by address. *)
#[export] Instance address_order : KeyOrder (λ _, True) Z.sub.
Proof. split; lia. Qed.

Definition five : list ptr := [100; 200; 300; 400; 500].
Lemma five_addr : Forall (rb_addr (RB_GENERATE Z.sub 16)) five.
Proof. unfold five. repeat (apply Forall_cons; split; [split_and!; by vm_compute|]). apply Forall_nil. done. Qed.

Definition five_mem : rb_mem :=
  mkRbMem 77 (list_to_map ((λ e, (e + 16, mkRb 0 0 0 0)) <$> five)).
Definition five_ops : list rb_op :=
  [OpEmpty; OpInsert 300; OpInsert 100; OpInsert 200; OpInsert 500; OpInsert 400; OpInsert 400; OpForeach;
   OpFind 200; OpNfind 250; OpNext 300; OpPrev 100; OpClear 300; OpRemove 100; OpMin; OpMax; OpForeach].

Lemma rb_refines_witness :
  ∃ m', (_rb_init;; rb_run (RB_GENERATE Z.sub 16) five_ops) five_mem
    = Ok [ABool true; APtr 0; APtr 0; APtr 0; APtr 0; APtr 0; APtr 400; AList [100; 200; 300; 400; 500];
          APtr 200; APtr 300; APtr 400; APtr 0; ANone; APtr 100; APtr 200; APtr 500; AList [200; 400; 500]] m'
    ∧ rbtree (RB_GENERATE Z.sub 16) (λ _, True) [200; 400; 500] m'.
Proof.
  destruct (rb_refines Z.sub 16 (λ _, True) five five_ops five_mem _) as (m' & Hrun & H & _).
  - split.
    + exact five_addr.
    + repeat constructor.
    + repeat constructor; vm_compute; by eexists.
  - repeat split; vm_compute; repeat constructor.
  - exists m'. split; [exact Hrun|exact H].
Defined.

(** ** Height *)

Lemma rb_height c n t : rb c n t → (height t ≤ 2 * n + Z.to_nat c)%nat ∧ (2 ^ n ≤ S (length (nodes t)))%nat.
Proof.
  induction 1 as [|n l p r Hl [IHl1 IHl2] Hr [IHr1 IHr2]|n cl cr l p r Hl [IHl1 IHl2] Hr [IHr1 IHr2]]; simpl.
  - done.
  - rewrite length_app. simpl in *. unfold RB_BLACK, RB_RED in *. lia.
  - rewrite length_app. simpl in *. apply rb_colors in Hl as [-> | ->], Hr as [-> | ->]; unfold RB_BLACK, RB_RED in *; lia.
Qed.

(** C35. A search makes at most [2 * log2 (n + 1)] comparisons in a tree of [n] elements,
    the bound that the header of the tree states: the loop of [RB_FIND], started at the
    root with any larger number of rounds, ends with the result of the ordered list. *)
Theorem rb_search_bound t D l key m rounds :
  KeyOrder D (t_compare t) → rbtree t D l m → D key → (2 * Nat.log2 (length l + 1) < rounds)%nat →
  find_loop rounds t key (rbt_root m) m = Ok (sfind (t_compare t) key l) m.
Proof.
  intros Hko (T & n & Hn & HT)%subtree_whole Hk Hr. destruct (rb_height _ _ _ Hn) as [Hh Hs].
  rewrite (rep_root _ _ _ (st_rep _ _ _ _ _ _ HT)). apply (find_loop_run t D _ _ [] T); [done|done|].
  rewrite (st_nodes _ _ _ _ _ _ HT), length_fmap in Hs.
  assert (n ≤ Nat.log2 (length l + 1))%nat by (apply Nat.log2_le_pow2; lia). unfold RB_BLACK in Hh. lia.
Qed.

Lemma rb_three : ∃ m, rbtree (RB_GENERATE Z.sub 16) (λ _, True) [200; 400; 500] m.
Proof.
  destruct (init_run (RB_GENERATE Z.sub 16) (λ _, True) five_mem) as (m0 & _ & Eh & H0).
  assert (pool (RB_GENERATE Z.sub 16) (λ _, True) five m0) as HP.
  { split; [exact five_addr|repeat constructor|]. rewrite Eh. repeat constructor; vm_compute; by eexists. }
  destruct (run_refines (RB_GENERATE Z.sub 16) eq_refl (λ _, True) five [OpInsert 400; OpInsert 200; OpInsert 500] [] m0 HP)
    as (m' & _ & H & _); [set_solver|done|repeat split; vm_compute; repeat constructor|]. by exists m'.
Qed.

Lemma rb_search_bound_witness : ∃ m,
  rbtree (RB_GENERATE Z.sub 16) (λ _, True) [200; 400; 500] m
  ∧ find_loop 5 (RB_GENERATE Z.sub 16) 500 (rbt_root m) m = Ok 500 m.
Proof.
  destruct rb_three as (m & H). exists m. split; [exact H|].
  exact (rb_search_bound (RB_GENERATE Z.sub 16) (λ _, True) [200; 400; 500] 500 m 5 _ H I ltac:(vm_compute; lia)).
Defined.
