(* ===== verification/SyncdStream.v ===== *)
(** * The stream of mclagsyncd

    The handlers of a message of mclagsyncd read nothing behind the message, and the
    messages that one reception delivered are handled one by one, in order, as if
    each had come alone.  A reception that fails leaves everything but the counters
    as it was. *)

From S2P Require Import Prelude CMem CString MsgFormat State Machine IccpMsg IccpQueue SyncPrepare.
From S2P Require Import Port Syncd Standby MacTable MacUpdate LinkHandler AppCsm IccpCsm Ifm Cli.
From S2P Require Import SyncdCfg MlacpFsm Scheduler SyncdRecv Boot.
#[local] Open Scope Z_scope.

(** ** Reads within a message *)

(** A message of mclagsyncd: version 1, the length of the header that of the message,
    and a null byte at its end, so that its strings end in it. *)
Record whole_message (m : list Z) : Prop := {
  wm_len : rd16 (offsetof IccpSyncdHDr "len") m = Some (Z.of_nat (length m));
  wm_ver : rd8 (offsetof IccpSyncdHDr "ver") m = Some 1;
  wm_size : Z.of_nat (sizeof IccpSyncdHDr) < Z.of_nat (length m) < 2 ^ 16;
  wm_nul : last m = Some 0
}.

(** What the handlers rely on: the length of the header is that of the message, at least
    that of a header, and there is a null byte at the end. *)
Record framed_message (m : list Z) : Prop := {
  fm_len : rd16 (offsetof IccpSyncdHDr "len") m = Some (Z.of_nat (length m));
  fm_size : Z.of_nat (sizeof IccpSyncdHDr) ≤ Z.of_nat (length m) < 2 ^ 16;
  fm_nul : last m = Some 0
}.

Lemma whole_framed m : whole_message m → framed_message m.
Proof. intros [Hl _ Hs Hn]. split; [done|lia|done]. Qed.

Lemma cstr_prefix l rest : 0 ∈ l → cstr (l ++ rest) = cstr l.
Proof.
  induction l as [|c l IH]; [by intros ?%elem_of_nil|]. intros H. simpl.
  destruct (Z.eqb_spec c 0); [done|]. f_equal. apply IH. set_solver.
Qed.

Lemma string_prefix off m rest : last m = Some 0 → (off < length m)%nat →
  string_at off (m ++ rest) = string_at off m.
Proof.
  intros Hl Ho. unfold string_at. rewrite drop_app_le by lia. apply cstr_prefix.
  rewrite last_lookup in Hl. apply list_elem_of_lookup. exists (pred (length m) - off)%nat.
  rewrite lookup_drop. by replace (off + (pred (length m) - off))%nat with (pred (length m)) by lia.
Qed.

(** The entries of a message are in it. *)
Lemma entry_in_message (s : struct) (len : Z) i :
  Z.of_nat (sizeof IccpSyncdHDr) ≤ len < 2 ^ 16 → (i < Z.to_nat (entry_count len s))%nat →
  (0 < sizeof s)%nat ∧ Z.of_nat (entry_off s i + sizeof s) ≤ len.
Proof.
  intros Hl Hi. unfold entry_count, entry_off in *. change (sizeof IccpSyncdHDr) with 4%nat in *.
  set (z := sizeof s) in *. unfold u64 in Hi. rewrite (Z.mod_small (len - _)) in Hi by lia.
  destruct (decide (z = 0%nat)) as [->|Hz].
  { change (Z.of_nat 0) with 0 in Hi. rewrite Zdiv_0_r, to_int_small in Hi by lia. lia. }
  split; [lia|].
  assert (0 ≤ (len - 4) / Z.of_nat z ≤ len - 4) as Hq.
  { split; [apply Z.div_pos; lia|]. apply Z.div_le_upper_bound; nia. }
  rewrite to_int_small in Hi by lia.
  pose proof (Z.mul_div_le (len - 4) (Z.of_nat z)). nia.
Qed.

(** A message and what is behind it in the buffer. *)
Section message.
Context (m rest : list Z) (Hm : framed_message m).

Lemma count_prefix s : read_count s (m ++ rest) ≡w mret (Z.to_nat (entry_count (Z.of_nat (length m)) s)).
Proof.
  destruct Hm as [Hl Hs _]. intros w. unfold read_count.
  rewrite rd16_prefix by (change (sizeof IccpSyncdHDr) with 4%nat in Hs; simpl; lia). by rewrite Hl.
Qed.

(** The part of entry [i] at offset [o] of [n] bytes is in the message. *)
Lemma entry_part (s : struct) i o n :
  (i < Z.to_nat (entry_count (Z.of_nat (length m)) s))%nat → (o + n ≤ sizeof s)%nat →
  (entry_off s i + o + n ≤ length m)%nat.
Proof.
  intros Hi Ho. destruct Hm as [_ Hs _]. destruct (entry_in_message s (Z.of_nat (length m)) i) as [_ H]; lia.
Qed.

Lemma rd32_entry s i name :
  (i < Z.to_nat (entry_count (Z.of_nat (length m)) s))%nat → (offsetof s name + 4 ≤ sizeof s)%nat →
  rd32 (entry_off s i + offsetof s name) (m ++ rest) = rd32 (entry_off s i + offsetof s name) m.
Proof. intros Hi Ho. apply rd32_prefix. by apply entry_part. Qed.

Lemma rd16_entry s i name :
  (i < Z.to_nat (entry_count (Z.of_nat (length m)) s))%nat → (offsetof s name + 2 ≤ sizeof s)%nat →
  rd16 (entry_off s i + offsetof s name) (m ++ rest) = rd16 (entry_off s i + offsetof s name) m.
Proof. intros Hi Ho. apply rd16_prefix. by apply entry_part. Qed.

Lemma rd_bytes_prefix off n : (off + n ≤ length m)%nat → rd_bytes off n (m ++ rest) = rd_bytes off n m.
Proof.
  intros H. unfold rd_bytes. rewrite length_app, !leb_correct by lia. f_equal.
  rewrite drop_app_le by lia. rewrite take_app_le; [done|]. rewrite length_drop. lia.
Qed.

Lemma rd_bytes_entry s i name n :
  (i < Z.to_nat (entry_count (Z.of_nat (length m)) s))%nat → (offsetof s name + n ≤ sizeof s)%nat →
  rd_bytes (entry_off s i + offsetof s name) n (m ++ rest) = rd_bytes (entry_off s i + offsetof s name) n m.
Proof. intros Hi Ho. apply rd_bytes_prefix. by apply entry_part. Qed.

Lemma entry_int_prefix s i name :
  (i < Z.to_nat (entry_count (Z.of_nat (length m)) s))%nat → (offsetof s name + 4 ≤ sizeof s)%nat →
  entry_int s i name (m ++ rest) = entry_int s i name m.
Proof. intros Hi Ho. unfold entry_int. by rewrite rd32_entry. Qed.

Lemma entry_str_prefix s i name :
  (i < Z.to_nat (entry_count (Z.of_nat (length m)) s))%nat → (offsetof s name + 1 ≤ sizeof s)%nat →
  entry_str s i name (m ++ rest) = entry_str s i name m.
Proof.
  intros Hi Ho. unfold entry_str. pose proof (entry_part s i (offsetof s name) 1 Hi Ho).
  destruct Hm. apply string_prefix; [done|lia].
Qed.
End message.

(** A read at an entry, by the lemma that fits; the offsets are computed. *)
Ltac entry_reads :=
  repeat (first [ rewrite entry_int_prefix by (done || (apply leb_complete; reflexivity))
                | rewrite entry_str_prefix by (done || (apply leb_complete; reflexivity))
                | rewrite rd32_entry by (done || (apply leb_complete; reflexivity))
                | rewrite rd16_entry by (done || (apply leb_complete; reflexivity))
                | rewrite rd_bytes_entry by (done || (apply leb_complete; reflexivity)) ]).

Section handlers.
Context (m rest : list Z) (Hm : framed_message m).

Lemma count_alone s : read_count s (m ++ rest) ≡w read_count s m.
Proof. rewrite (count_prefix m rest Hm). by rewrite <-(count_prefix m [] Hm), app_nil_r. Qed.

Lemma count_bind {A} s (k : nat → W A) :
  (n ← read_count s m; k n) ≡w k (Z.to_nat (entry_count (Z.of_nat (length m)) s)).
Proof. rewrite <-(app_nil_r m) at 1. by rewrite (count_prefix m [] Hm). Qed.

(** The loop of a handler over the entries. *)
Ltac entries :=
  rewrite count_alone, !count_bind; apply weq_bind; [|done];
  apply weq_foreach; intros i [_ Hi]%elem_of_seq; simpl in Hi; entry_reads; try done.

Lemma fdb_prefix : iccp_receive_fdb_handler_from_syncd (m ++ rest) ≡w iccp_receive_fdb_handler_from_syncd m.
Proof. unfold iccp_receive_fdb_handler_from_syncd. entries. Qed.

Lemma domain_prefix :
  iccp_mclagsyncd_mclag_domain_cfg_handler (m ++ rest) ≡w iccp_mclagsyncd_mclag_domain_cfg_handler m.
Proof. unfold iccp_mclagsyncd_mclag_domain_cfg_handler, read_domain_cfg. entries. Qed.

Lemma iface_prefix :
  iccp_mclagsyncd_mclag_iface_cfg_handler (m ++ rest) ≡w iccp_mclagsyncd_mclag_iface_cfg_handler m.
Proof. unfold iccp_mclagsyncd_mclag_iface_cfg_handler. entries. Qed.

Lemma vlan_mbr_prefix :
  iccp_mclagsyncd_vlan_mbr_update_handler (m ++ rest) ≡w iccp_mclagsyncd_vlan_mbr_update_handler m.
Proof. unfold iccp_mclagsyncd_vlan_mbr_update_handler. entries. Qed.

Lemma unique_walk_prefix n i v :
  (i + n ≤ Z.to_nat (entry_count (Z.of_nat (length m)) mclag_unique_ip_cfg_info))%nat →
  unique_ip_walk (m ++ rest) i n v ≡w unique_ip_walk m i n v.
Proof.
  revert i v. induction n as [|n IH]; intros i v H; simpl; [done|].
  assert (i < Z.to_nat (entry_count (Z.of_nat (length m)) mclag_unique_ip_cfg_info))%nat by lia.
  entry_reads. repeat (apply weq_bind_r; intros ?). case_match; [done|].
  repeat (apply weq_bind_r; intros ?). apply IH. lia.
Qed.

Lemma unique_prefix :
  iccp_mclagsyncd_mclag_unique_ip_cfg_handler (m ++ rest) ≡w iccp_mclagsyncd_mclag_unique_ip_cfg_handler m.
Proof.
  unfold iccp_mclagsyncd_mclag_unique_ip_cfg_handler. rewrite count_alone, !count_bind.
  apply weq_bind; [|done]. by apply unique_walk_prefix.
Qed.

Lemma dispatch_prefix t : syncd_dispatch t (m ++ rest) ≡w syncd_dispatch t m.
Proof.
  unfold syncd_dispatch.
  repeat case_match; try done; apply weq_bind; try done;
    [apply fdb_prefix|apply domain_prefix|apply iface_prefix|apply unique_prefix|apply vlan_mbr_prefix].
Qed.
End handlers.

(** ** The messages of a reception *)

(** What one message does. *)
Definition handle_message (m : list Z) : W unit :=
  type ← oob (rd8 (offsetof IccpSyncdHDr "type") m);
  known ← syncd_dispatch type m;
  when known (SYSTEM_SET_SYNCD_RX_DBG_COUNTER type ICCP_DBG_CNTR_STS_OK).

Lemma rd8_behind pre off l : rd8 (length pre + off) (pre ++ l) = rd8 off l.
Proof. unfold rd8. rewrite lookup_app_r by lia. f_equal. lia. Qed.

Lemma rd16_at pre off l : rd16 (length pre + off) (pre ++ l) = rd16 off l.
Proof. unfold rd16. rewrite <-Nat.add_assoc, !rd8_behind. done. Qed.

Lemma one_message rxed pre m rest n :
  whole_message m → Z.of_nat (length pre + length m) ≤ rxed →
  syncd_one_message rxed (Z.of_nat (length pre)) n (pre ++ m ++ rest)
  ≡w (handle_message m;; mret (Some (Z.of_nat (length pre + length m), n, pre ++ m ++ rest))).
Proof.
  intros Hm Hr w. pose proof Hm as [Hl Hv Hs _]. revert Hl Hv Hs.
  unfold syncd_one_message, handle_message. cbv zeta. rewrite Nat2Z.id. eval_layout. intros Hl Hv Hs.
  destruct (Z.ltb_spec (rxed - Z.of_nat (length pre)) 4); [lia|].
  cbv beta iota delta [mbind M_bind mret M_ret].
  rewrite !rd16_at, !rd8_behind, rd16_prefix, !rd8_prefix by (simpl; lia). rewrite Hl, Hv.
  simpl. rewrite (proj2 (Z.eqb_neq (Z.of_nat (length m)) 0)) by lia.
  rewrite Z.gtb_ltb. destruct (Z.ltb_spec rxed (Z.of_nat (length pre) + Z.of_nat (length m))); [lia|].
  cbv beta iota. rewrite rd8_behind, rd8_prefix, drop_app_length by lia.
  destruct (rd8 1 m) as [t|]; [|done]. simpl.
  rewrite (dispatch_prefix m rest (whole_framed m Hm)). destruct (syncd_dispatch t m w) as [known w1|]; [|done].
  rewrite rd16_at, rd16_prefix, Hl by lia. simpl.
  destruct (when known _ w1); [|done]. by rewrite Nat2Z.inj_add.
Qed.

Lemma messages_in_order fuel ms pre rest n :
  Forall whole_message ms → (length ms < fuel)%nat →
  syncd_messages fuel (Z.of_nat (length (pre ++ concat ms))) (Z.of_nat (length pre)) n (pre ++ concat ms ++ rest)
  ≡w (mforeach ms handle_message;; mret 0).
Proof.
  intros Hms. revert fuel pre. induction Hms as [|m ms Hm Hms IH]; intros [|f] pre Hf; simpl in Hf; try lia; simpl.
  - rewrite app_nil_r, Z.geb_leb, Z.leb_refl. done.
  - rewrite Z.geb_leb. destruct (Z.leb_spec (Z.of_nat (length (pre ++ m ++ concat ms))) (Z.of_nat (length pre))).
    { destruct Hm as [_ _ Hs _]. rewrite !length_app in *. lia. }
    rewrite <-(app_assoc m), one_message, !weq_assoc by (done || (rewrite !length_app; lia)).
    apply weq_bind_r. intros []. specialize (IH f (pre ++ m)). rewrite <-!app_assoc, (length_app pre m) in IH.
    apply IH. lia.
Qed.

(** ** The handler *)

Lemma first_reception ms rest buf w w1 :
  Forall whole_message ms → ms ≠ [] →
  syncd_recv buf w = Ok (Z.of_nat (length (concat ms)), concat ms ++ rest) w1 →
  (r ← syncd_recv_first buf;
   match r with
   | None => mret MCLAG_ERROR
   | Some (rxed, buf) => syncd_messages (S (S (Z.to_nat rxed))) rxed 0 0 buf
   end) w = (mforeach ms handle_message;; mret 0) w1.
Proof.
  intros Hms Hne Hrecv. unfold syncd_recv_first.
  assert (length ms ≤ length (concat ms) ∧ length ms ≠ 0)%nat as [Hle Hz].
  { split; [|by destruct ms]. clear -Hms. induction Hms as [|m ms [_ _ Hs _] _ IH]; simpl; [done|].
    rewrite length_app. lia. }
  rewrite bind_assoc, (bind_ok _ _ _ _ _ Hrecv). cbv beta iota.
  rewrite (proj2 (Z.eqb_neq _ _)), (proj2 (Z.ltb_ge _ _)) by lia.
  unfold mbind at 1, M_bind at 1. cbv beta iota delta [mret M_ret].
  rewrite Nat2Z.id. apply (messages_in_order _ ms [] rest 0); [done|lia].
Qed.

(** C14. The messages that one reception delivers are handled one after the other,
    in order and once each, as if each had come alone: the handler returns 0 after
    the last one, whatever the buffer holds behind them. *)
Theorem syncd_stream ms rest w w1 :
  Forall whole_message ms → ms ≠ [] →
  syncd_recv g_iccp_mlagsyncd_recv_buf w = Ok (Z.of_nat (length (concat ms)), concat ms ++ rest) w1 →
  iccp_mclagsyncd_msg_handler w = (mforeach ms handle_message;; mret 0) w1.
Proof. apply first_reception. Qed.

(** C22. The handler of a message whose header gives its length, at least the four bytes of a
    header, and which ends in a null byte, reads nothing behind it: what follows in the
    buffer makes no difference, whatever the type and the entries of the message. *)
Theorem syncd_message_bounds t m rest w :
  framed_message m → syncd_dispatch t (m ++ rest) w = syncd_dispatch t m w.
Proof. intros Hm. by apply dispatch_prefix. Qed.

(** ** Receptions that fail *)

(** The state after a reception that failed: the trace and the counters of errors. *)
Definition failed_recv (w w' : World) : Prop :=
  ∃ tr a b c d, w' = w <| w_trace := tr |>
    <| w_sys ::= λ s, s <| rx_read_sock_zero_len_counter := a |> <| rx_retry_fail_counter := b |>
                        <| rx_peer_hdr_read_sock_err_counter := c |>
                        <| rx_peer_hdr_read_sock_zero_len_counter := d |> |>.

Ltac failed_here :=
  match goal with
  | |- failed_recv ?w ?w' =>
      exists (w_trace w'), (rx_read_sock_zero_len_counter (w_sys w')), (rx_retry_fail_counter (w_sys w')),
        (rx_peer_hdr_read_sock_err_counter (w_sys w')), (rx_peer_hdr_read_sock_zero_len_counter (w_sys w'));
      by destruct w as [[]]
  end.

Lemma failed_refl w : failed_recv w w.
Proof. failed_here. Qed.

Lemma failed_trans w1 w2 w3 : failed_recv w1 w2 → failed_recv w2 w3 → failed_recv w1 w3.
Proof.
  intros (tr & a & b & c & d & ->) (tr' & a' & b' & c' & d' & ->).
  exists tr', a', b', c', d'. reflexivity.
Qed.

Lemma failed_trace w e : failed_recv w (w <| w_trace ::= cons e |>).
Proof. failed_here. Qed.

(** The connection delivers nothing. *)
Definition recv_fails (w : World) : Prop :=
  ∀ tr len, w_env w tr (SysRecv (sync_fd (w_sys w)) len MSG_DONTWAIT) ≤ 0.

Lemma recv_fails_kept w w' : failed_recv w w' → recv_fails w → recv_fails w'.
Proof. by intros (tr & a & b & c & d & ->). Qed.

Lemma syncd_recv_fails buf w : recv_fails w → ∃ r w', syncd_recv buf w = Ok (r, buf) w' ∧ r ≤ 0 ∧ failed_recv w w'.
Proof.
  intros Hf. unfold syncd_recv, recv_into, mbind, M_bind, gets, sys.
  set (len := _ - _). specialize (Hf (w_trace w) len). simpl.
  rewrite (proj2 (Z.leb_le _ _) Hf). eexists _, _. split; [reflexivity|]. split; [done|]. apply failed_trace.
Qed.

(** The retries end with an error. *)
Lemma syncd_retry_fails fuel n buf w :
  recv_fails w → n ≤ SYNCD_RECV_RETRY_MAX → SYNCD_RECV_RETRY_MAX - n < Z.of_nat fuel →
  ∃ w', syncd_recv_retry fuel n buf w = Ok None w' ∧ failed_recv w w'.
Proof.
  unfold SYNCD_RECV_RETRY_MAX. revert n w. induction fuel as [|f IH]; intros n w Hf Hn Hfuel; [lia|]. simpl.
  destruct (syncd_recv_fails buf w Hf) as (r & w1 & E & Hr & F1). rewrite (bind_ok _ _ _ _ _ E).
  cbv beta iota. pose proof (recv_fails_kept _ _ F1 Hf) as Hf1.
  destruct (Z.ltb_spec r 0); [destruct (r =? - EAGAIN)|].
  - unfold SYNCD_RECV_RETRY_MAX. destruct (Z.gtb_spec (n + 1) 5).
    + eexists. split; [reflexivity|]. eapply failed_trans; [exact F1|]. clear. failed_here.
    + rewrite sys_bind. set (w2 := _ <| w_trace ::= _ |>).
      assert (failed_recv w1 w2) as F2 by apply failed_trace.
      destruct (IH (n + 1) w2) as (w3 & E3 & F3); [by eapply recv_fails_kept|lia|lia|].
      exists w3. split; [exact E3|]. eapply failed_trans; [exact F1|]. exact (failed_trans _ _ _ F2 F3).
  - eexists. split; [reflexivity|]. eapply failed_trans; [exact F1|]. clear. failed_here.
  - rewrite (proj2 (Z.eqb_eq r 0)) by lia.
    eexists. split; [reflexivity|]. eapply failed_trans; [exact F1|]. clear. failed_here.
Qed.

Lemma first_reception_fails buf w (k : Z → list Z → W Z) : recv_fails w →
  ∃ w', (r ← syncd_recv_first buf; match r with None => mret MCLAG_ERROR | Some (n, b) => k n b end) w
        = Ok MCLAG_ERROR w' ∧ failed_recv w w'.
Proof.
  intros Hf. unfold syncd_recv_first. destruct (syncd_recv_fails buf w Hf) as (r & w1 & E & Hr & F1).
  rewrite bind_assoc, (bind_ok _ _ _ _ _ E). cbv beta iota. destruct (Z.eqb_spec r 0).
  - eexists. split; [reflexivity|]. eapply failed_trans; [exact F1|]. clear. failed_here.
  - rewrite (proj2 (Z.ltb_lt r 0)) by lia.
    destruct (syncd_retry_fails (Z.to_nat SYNCD_RECV_RETRY_MAX + 2) 0 buf w1) as (w2 & E2 & F2);
      [by eapply recv_fails_kept|done|done|].
    exists w2. rewrite (bind_ok _ _ _ _ _ E2). split; [done|]. exact (failed_trans _ _ _ F1 F2).
Qed.

(** When the connection delivers nothing (it is closed, fails, or has no data for all
    the attempts), the handler gives up with an error: it handles no message, and
    changes nothing but the counters of the errors. *)
Theorem syncd_recv_error w : recv_fails w →
  ∃ w', iccp_mclagsyncd_msg_handler w = Ok MCLAG_ERROR w' ∧ failed_recv w w'.
Proof. apply first_reception_fails. Qed.

(** ** Examples *)

(** The bytes a connection delivers. *)
Definition bytes_of (f : Z → Z) (i : Z) (n : nat) : list Z := map (λ k, u8 (f (i + Z.of_nat k))) (seq 0 n).

Lemma recv_bytes_run fd f i n w :
  (∀ tr k, w_env w tr (SysRecvByte fd k) = f k) →
  ∃ tr, recv_bytes fd i n w = Ok (bytes_of f i n) (w <| w_trace := tr |>).
Proof.
  revert i w. induction n as [|n IH]; intros i w Hf; simpl; [exists (w_trace w); by destruct w|].
  rewrite sys_bind, Hf. edestruct (IH (i + 1)) as [tr E]; [|rewrite (bind_ok _ _ _ _ _ E)]; [exact Hf|].
  exists tr. unfold bytes_of. simpl. rewrite Z.add_0_r, <-seq_shift, map_map.
  rewrite (map_ext (λ k, u8 (f (i + Z.of_nat (S k)))) (λ k, u8 (f (i + 1 + Z.of_nat k))))
    by (intros k; do 2 f_equal; lia).
  reflexivity.
Qed.

(** A reception that delivers [n] bytes. *)
Lemma syncd_recv_run f (n : nat) buf w :
  (∀ tr k, w_env w tr (SysRecvByte (sync_fd (w_sys w)) k) = f k) →
  (∀ tr len, w_env w tr (SysRecv (sync_fd (w_sys w)) len MSG_DONTWAIT) = Z.of_nat n) →
  (0 < n ≤ length buf)%nat → Z.of_nat n ≤ ICCP_MLAGSYNCD_RECV_MSG_BUFFER_SIZE - MCLAG_MAX_MSG_LEN →
  ∃ tr, syncd_recv buf w = Ok (Z.of_nat n, bytes_of f 0 n ++ drop n buf) (w <| w_trace := tr |>).
Proof.
  intros Hf Hr Hn Hmax. unfold syncd_recv, recv_into. unfold mbind at 1, M_bind at 1, gets.
  set (len := _ - _) in *. rewrite sys_bind, Hr, (proj2 (Z.leb_gt _ _)) by lia. cbv zeta.
  rewrite Z.min_l, Nat2Z.id by lia.
  set (w1 := w <| w_trace ::= _ |>).
  destruct (recv_bytes_run (sync_fd (w_sys w)) f 0 n w1 Hf) as [tr E]. rewrite (bind_ok _ _ _ _ _ E).
  exists tr. assert (length (bytes_of f 0 n) = n) as Hl by (unfold bytes_of; by rewrite length_map, length_seq).
  rewrite put_ok, Hl by (rewrite Hl; simpl; lia). reflexivity.
Qed.

(** mclagsyncd sends [data] on the descriptor 0. *)
Definition sends (data : list Z) (tr : list event) (c : syscall) : Z :=
  match c with
  | SysRecv _ _ _ => Z.of_nat (length data)
  | SysRecvByte _ i => nth (Z.to_nat i) data 0
  | _ => calm tr c
  end.

(** Ethernet8 becomes a member of the VLANs 10 and 20: two messages. *)
Definition member_message (v : Z) : list Z :=
  [1; MCLAG_SYNCD_MSG_TYPE_VLAN_MBR_UPDATES] ++ le16 32 ++ le32 MCLAG_CFG_OPER_ADD ++ le32 v
  ++ str "Ethernet8" ++ replicate 11 0.

Lemma member_message_whole v : 0 ≤ v < 256 → whole_message (member_message v).
Proof. intros Hv. by split. Qed.

Definition member_messages : list (list Z) := [member_message 10; member_message 20].

Lemma member_messages_whole : Forall whole_message member_messages.
Proof. repeat (apply Forall_cons; split; [by apply member_message_whole|]). apply Forall_nil_2. Qed.

Lemma member_messages_received :
  ∃ tr, syncd_recv g_iccp_mlagsyncd_recv_buf (boot (sends (concat member_messages)))
        = Ok (Z.of_nat (length (concat member_messages)),
              concat member_messages ++ drop 64 g_iccp_mlagsyncd_recv_buf)
             (boot (sends (concat member_messages)) <| w_trace := tr |>).
Proof.
  apply (syncd_recv_run (λ i, nth (Z.to_nat i) (concat member_messages) 0) 64); [done|done| |done].
  unfold g_iccp_mlagsyncd_recv_buf. rewrite length_replicate.
  unfold ICCP_MLAGSYNCD_RECV_MSG_BUFFER_SIZE, MCLAG_MAX_MSG_LEN. lia.
Qed.

(** Both VLANs are kept for the interface, which does not exist yet. *)
Definition member_vlans (o : outcome World Z) : option (list (list Z)) :=
  match o with
  | Ok _ w => Some (map (λ e, map vid (snd e)) (pending_vlan_mbr_if_list (w_sys w)))
  | Fault _ => None
  end.

Lemma syncd_stream_witness : ∃ tr, let w := boot (sends (concat member_messages)) in
  iccp_mclagsyncd_msg_handler w = (mforeach member_messages handle_message;; mret 0) (w <| w_trace := tr |>)
  ∧ member_vlans ((mforeach member_messages handle_message;; mret 0) (w <| w_trace := tr |>)) = Some [[10; 20]].
Proof.
  destruct member_messages_received as [tr E]. exists tr. split; [|vm_compute; reflexivity].
  refine (syncd_stream member_messages _ _ _ member_messages_whole _ E). discriminate.
Defined.

Lemma syncd_message_bounds_witness :
  framed_message (member_message 10)
  ∧ syncd_dispatch 4 (member_message 10 ++ [255; 255]) (boot calm) = syncd_dispatch 4 (member_message 10) (boot calm).
Proof.
  assert (framed_message (member_message 10)) as H by by apply whole_framed, member_message_whole.
  split; [exact H|exact (syncd_message_bounds 4 _ [255; 255] (boot calm) H)].
Defined.

Lemma syncd_recv_error_witness : ∃ w',
  iccp_mclagsyncd_msg_handler (boot calm) = Ok MCLAG_ERROR w' ∧ failed_recv (boot calm) w'.
Proof. apply (syncd_recv_error (boot calm)). intros tr len. apply Z.le_refl. Defined.
