(* ===== verification/Inputs.v ===== *)
(** * Notifications and packets within their bounds

    The attributes of a notification of the kernel and the fields of a packet are read
    inside the bytes that were received, and reading inverts the encoding. *)

From S2P Require Import Prelude CMem CString MsgFormat State Machine IccpMsg Port NeighLearn Boot.
#[local] Open Scope Z_scope.

(** ** Attributes of a notification *)

Lemma RTA_ALIGN_bounds n : 0 ≤ n → n ≤ RTA_ALIGN n < n + 4.
Proof.
  intros Hn. unfold RTA_ALIGN. change (Z.lnot 3) with (Z.lnot (Z.ones 2)).
  rewrite <-Z.ldiff_land, Z.ldiff_ones_r by lia. rewrite Z.shiftl_mul_pow2, Z.shiftr_div_pow2 by lia. zdiv.
Qed.

(** The payload of an attribute is in the message. *)
Definition in_message (n : list Z) (a : option attr) : Prop :=
  match a with
  | Some (o, len) => 0 ≤ len ∧ Z.of_nat o + len ≤ Z.of_nat (length n)
  | None => True
  end.

Lemma rd16_some off l : (off + 2 ≤ length l)%nat → ∃ v, rd16 off l = Some v.
Proof.
  intros H. unfold rd16, rd8.
  destruct (lookup_lt_is_Some_2 l off) as [a ->]; [lia|].
  destruct (lookup_lt_is_Some_2 l (off + 1)) as [b ->]; [lia|]. by eexists.
Qed.

Lemma parse_bounds fuel n rta len d l w :
  (Z.to_nat len < fuel)%nat → Z.of_nat rta + len ≤ Z.of_nat (length n) → in_message n d → in_message n l →
  ∃ d' l', ifm_parse_rtattr fuel n rta len d l w = Ok (d', l') w ∧ in_message n d' ∧ in_message n l'.
Proof.
  revert rta len d l. induction fuel as [|f IH]; intros rta len d l Hf Hlen Hd Hl; [lia|]. simpl.
  eval_layout. destruct (Z.ltb_spec len 4); [by eexists _, _|].
  destruct (rd16_some (rta + 0) n) as [rl Erl]; [lia|]. destruct (rd16_some (rta + 2) n) as [rt Ert]; [lia|].
  rewrite (oob_bind _ _ _ _ Erl). destruct ((rl <? 4) || (rl >? len)) eqn:E; [by eexists _, _|].
  apply orb_false_iff in E as [E1%Z.ltb_ge E2]. rewrite Z.gtb_ltb in E2. apply Z.ltb_ge in E2.
  pose proof (RTA_ALIGN_bounds rl). rewrite (oob_bind _ _ _ _ Ert). cbv zeta.
  apply IH; [lia|lia|case_match; [simpl; lia|done]..].
Qed.

(** C23. Whatever the attributes of a notification claim, their parsing reads inside the
    message, ends, and finds only payloads that lie inside the message. *)
Theorem rtattr_bounds n rta len w :
  Z.of_nat rta + len ≤ Z.of_nat (length n) →
  ∃ dst lladdr, ifm_parse_rtattr (S (Z.to_nat len)) n rta len None None w = Ok (dst, lladdr) w
    ∧ in_message n dst ∧ in_message n lladdr.
Proof. intros H. apply parse_bounds; [lia|done|done|done]. Qed.

(** An attribute as the kernel writes it: its length, its type, the payload, and the
    bytes that fill the last word. *)
Definition encode_attr (a : Z * list Z) : list Z :=
  let len := 4 + Z.of_nat (length a.2) in
  le16 len ++ le16 a.1 ++ a.2 ++ replicate (Z.to_nat (RTA_ALIGN len - len)) 0.

Definition encode_attrs (l : list (Z * list Z)) : list Z := concat (map encode_attr l).

Definition attr_ok (a : Z * list Z) : Prop := 0 ≤ a.1 < 2 ^ 16 ∧ Z.of_nat (length a.2) < 2 ^ 16 - 4.

(** The payload of the last attribute of a type. *)
Fixpoint last_payload (t : Z) (l : list (Z * list Z)) : option (list Z) :=
  match l with
  | [] => None
  | a :: l' => match last_payload t l' with
               | Some p => Some p
               | None => if a.1 =? t then Some a.2 else None
               end
  end.

(** Where the parser finds it. *)
Fixpoint locate (t : Z) (off : nat) (l : list (Z * list Z)) (acc : option attr) : option attr :=
  match l with
  | [] => acc
  | a :: l' => locate t (off + length (encode_attr a)) l'
                 (if a.1 =? t then Some ((off + 4)%nat, Z.of_nat (length a.2)) else acc)
  end.

Lemma encode_attr_length a : Z.of_nat (length (encode_attr a)) = RTA_ALIGN (4 + Z.of_nat (length a.2)).
Proof.
  unfold encode_attr. rewrite !length_app, length_replicate. simpl.
  pose proof (RTA_ALIGN_bounds (4 + Z.of_nat (length a.2))). lia.
Qed.

Lemma rd16_app pre v l : 0 ≤ v < 2 ^ 16 → rd16 (length pre) (pre ++ le16 v ++ l) = Some v.
Proof.
  intros Hv. unfold rd16, rd8.
  rewrite (lookup_app_r _ _ (length pre)), (lookup_app_r _ _ (length pre + 1)) by lia.
  replace (length pre - length pre)%nat with 0%nat by lia.
  replace (length pre + 1 - length pre)%nat with 1%nat by lia. simpl. f_equal. zdiv.
Qed.

Lemma parse_encoded l pre rest fuel d ll w :
  Forall attr_ok l → (length (encode_attrs l) < fuel)%nat →
  ifm_parse_rtattr fuel (pre ++ encode_attrs l ++ rest) (length pre) (Z.of_nat (length (encode_attrs l))) d ll w
  = Ok (locate NDA_DST (length pre) l d, locate NDA_LLADDR (length pre) l ll) w.
Proof.
  intros Hl. revert pre fuel d ll. induction Hl as [|a l [Ht Hp] Hl IH]; intros pre [|f] d ll Hf; try lia; [done|].
  unfold encode_attrs in *. cbn [map concat locate] in *. rewrite length_app in Hf.
  pose proof (encode_attr_length a) as Ha. set (len := 4 + Z.of_nat (length a.2)) in *.
  pose proof (RTA_ALIGN_bounds len). set (tl := concat (map encode_attr l)) in *.
  assert (∀ x, (pre ++ (encode_attr a ++ tl) ++ rest) = x →
    rd16 (length pre) x = Some len ∧ rd16 (length pre + 2) x = Some a.1) as Hrd.
  { intros x <-. unfold encode_attr. fold len. rewrite <-!app_assoc. split; [apply rd16_app; lia|].
    rewrite (app_assoc pre). replace (length pre + 2)%nat with (length (pre ++ le16 len))
      by (rewrite length_app; done).
    by apply rd16_app. }
  destruct (Hrd _ eq_refl) as [R1 R2]. cbn [ifm_parse_rtattr]. eval_layout. rewrite Nat.add_0_r.
  rewrite (length_app (encode_attr a) tl), Nat2Z.inj_add, Ha, (proj2 (Z.ltb_ge _ 4)) by lia.
  rewrite (oob_bind _ _ _ _ R1), (proj2 (Z.ltb_ge len 4)), Z.gtb_ltb by lia.
  rewrite (proj2 (Z.ltb_ge _ len)) by lia. simpl. rewrite (oob_bind _ _ _ _ R2).
  specialize (IH (pre ++ encode_attr a) f). rewrite length_app, <-!app_assoc in IH. rewrite <-app_assoc.
  replace (Z.to_nat (RTA_ALIGN len)) with (length (encode_attr a)) by lia.
  replace (RTA_ALIGN len + Z.of_nat (length tl) - RTA_ALIGN len) with (Z.of_nat (length tl)) by lia.
  replace (len - 4) with (Z.of_nat (length a.2)) by lia. apply IH. lia.
Qed.

Lemma rd_bytes_app pre p rest : rd_bytes (length pre) (length p) (pre ++ p ++ rest) = Some p.
Proof.
  unfold rd_bytes. rewrite !length_app, leb_correct by lia. by rewrite drop_app_length, take_app_length.
Qed.

Lemma payload_located t l pre rest acc w :
  attr_payload (pre ++ encode_attrs l ++ rest) (locate t (length pre) l acc) w
  = match last_payload t l with
    | Some p => Ok (Some p) w
    | None => attr_payload (pre ++ encode_attrs l ++ rest) acc w
    end.
Proof.
  revert pre acc. induction l as [|a l IH]; intros pre acc; [done|].
  unfold encode_attrs in *. cbn [locate last_payload map concat].
  specialize (IH (pre ++ encode_attr a)). rewrite length_app, <-!app_assoc in IH. rewrite <-app_assoc, IH.
  destruct (last_payload t l); [done|]. destruct (a.1 =? t); [|done].
  unfold attr_payload. rewrite Nat2Z.id, oob_bind with (b := a.2); [done|].
  unfold encode_attr. rewrite <-!app_assoc, (app_assoc pre), (app_assoc (pre ++ _)).
  set (q := (pre ++ _) ++ _). replace (length pre + 4)%nat with (length q); [apply rd_bytes_app|].
  unfold q. rewrite !length_app. simpl. lia.
Qed.

(** C33. Parsing the attributes of a notification inverts their encoding: the payloads found
    for the destination and the link-layer address are those of the last attribute of
    that type, byte for byte, and absent when there is none. *)
Theorem rtattr_roundtrip l pre rest w :
  Forall attr_ok l →
  let n := pre ++ encode_attrs l ++ rest in
  let len := length (encode_attrs l) in
  ∃ dst lladdr,
    ifm_parse_rtattr (S len) n (length pre) (Z.of_nat len) None None w = Ok (dst, lladdr) w
    ∧ attr_payload n dst w = Ok (last_payload NDA_DST l) w
    ∧ attr_payload n lladdr w = Ok (last_payload NDA_LLADDR l) w.
Proof.
  intros Hl. eexists _, _. split; [by apply parse_encoded; [|lia]|].
  split; rewrite payload_located; by case_match.
Qed.

(** A destination, an attribute of another kind and a link-layer address. *)
Definition sample_attrs : list (Z * list Z) :=
  [(NDA_DST, [10; 0; 0; 7]); (3, [1; 2; 3; 4; 5]); (NDA_LLADDR, [2; 0; 0; 0; 0; 9])].

Lemma rtattr_bounds_witness :
  ∃ dst lladdr, ifm_parse_rtattr 33 (replicate 40 8) 8 32 None None (boot calm) = Ok (dst, lladdr) (boot calm)
    ∧ in_message (replicate 40 8) dst ∧ in_message (replicate 40 8) lladdr.
Proof. apply (rtattr_bounds (replicate 40 8) 8 32 (boot calm)). vm_compute. discriminate. Defined.

Lemma rtattr_roundtrip_witness :
  let n := replicate 28 0 ++ encode_attrs sample_attrs ++ [] in
  ∃ dst lladdr,
    ifm_parse_rtattr 33 n 28 32 None None (boot calm) = Ok (dst, lladdr) (boot calm)
    ∧ attr_payload n dst (boot calm) = Ok (Some [10; 0; 0; 7]) (boot calm)
    ∧ attr_payload n lladdr (boot calm) = Ok (Some [2; 0; 0; 0; 0; 9]) (boot calm).
Proof.
  refine (rtattr_roundtrip sample_attrs (replicate 28 0) [] (boot calm) _).
  repeat apply Forall_cons_2; [..|apply Forall_nil_2]; split; vm_compute; (split; [discriminate|reflexivity]) || reflexivity.
Defined.

(** ** ARP replies *)

(** The sender of an ARP reply for IPv4, from the bytes of the packet alone: the
    hardware address and the address. *)
Definition arp_sender (pkt : list Z) (halen : Z) : option (list Z * list Z) :=
  op ← rd16 6 pkt;
  pln ← rd8 5 pkt;
  pro ← rd16 2 pkt;
  hln ← rd8 4 pkt;
  if (op =? htons ARPOP_REPLY) && (pln =? 4) && (pro =? htons ETH_P_IP) && (hln =? halen)
     && (16 + 2 * hln <=? Z.of_nat (length pkt))
  then mac ← rd_bytes 8 6 pkt; ip ← rd_bytes (8 + Z.to_nat hln) 4 pkt; Some (mac, ip)
  else None.

Lemma rd8_byte o (l : list Z) v : Forall is_byte l → rd8 o l = Some v → is_byte v.
Proof. intros Hl H. rewrite Forall_lookup in Hl. by eapply Hl. Qed.

Lemma rd_bytes_inside o n (l rest : list Z) :
  (o + n ≤ length l)%nat → ∃ b, rd_bytes o n l = Some b ∧ rd_bytes o n (l ++ rest) = Some b.
Proof.
  intros H. unfold rd_bytes. rewrite length_app, !leb_correct by lia. eexists. split; [done|]. f_equal.
  rewrite drop_app_le by lia. rewrite take_app_le; [done|]. rewrite length_drop. lia.
Qed.

Lemma arp_fields pkt : (8 ≤ length pkt)%nat → ∃ op pln pro hln, ∀ rest,
  rd16 6 (pkt ++ rest) = Some op ∧ rd8 5 (pkt ++ rest) = Some pln
  ∧ rd16 2 (pkt ++ rest) = Some pro ∧ rd8 4 (pkt ++ rest) = Some hln.
Proof.
  intros H. do 8 (destruct pkt as [|? pkt]; [simpl in H; lia|]).
  eexists _, _, _, _. intros rest. repeat split.
Qed.

(** C24. The ARP handler is the reference above: it answers exactly the ARP replies for
    IPv4 that hold their addresses completely, it takes the sender from the packet,
    and what the array holds behind the packet makes no difference. *)
Theorem arp_handler_reference pkt halen ifindex w :
  Forall is_byte pkt →
  iccp_receive_arp_packet_handler (Some pkt) halen ifindex w
  = (_ ← packet_buf ARP_BUF_SIZE pkt;
     match arp_sender (take ARP_BUF_SIZE pkt) halen with
     | None => mret 0
     | Some (mac, ip) =>
         c ← system_get_first_csm;
         if c =? NULL then mret 0 else do_arp_update_from_reply_packet ifindex ip mac;; mret 0
     end) w.
Proof.
  intros Hb. unfold iccp_receive_arp_packet_handler, packet_buf. set (p := take ARP_BUF_SIZE pkt).
  assert (Forall is_byte p) as Hp by (by apply Forall_take). clearbody p. cbv zeta. rewrite !bind_assoc.
  apply weq_bind_r. intros rest w1. rewrite !ret_bind. unfold arp_sender. eval_layout. destruct (Z.ltb_spec (Z.of_nat (length p)) 8).
  { assert (rd16 6 p = None) as ->; [|done]. unfold rd16, rd8. rewrite (lookup_ge_None_2 p (6 + 1)) by lia.
    by destruct (p !! 6%nat). }
  destruct (arp_fields p) as (op & pln & pro & hln & Hf); [lia|].
  destruct (Hf rest) as (R1 & R2 & R3 & R4). destruct (Hf []) as (P1 & P2 & P3 & P4).
  rewrite app_nil_r in P1, P2, P3, P4. rewrite P1, P2, P3, P4.
  rewrite (oob_bind _ _ _ _ R1), (oob_bind _ _ _ _ R2), (oob_bind _ _ _ _ R3), (oob_bind _ _ _ _ R4).
  pose proof (rd8_byte _ _ _ Hp P4) as [Hh _]. simpl.
  change (8 + 2 * 4) with 16. rewrite Z.gtb_ltb, Z.ltb_antisym.
  destruct (op =? _), (pln =? 4), (pro =? _), (hln =? halen); try done; simpl.
  destruct (Z.leb_spec (16 + 2 * hln) (Z.of_nat (length p))); [|done]. simpl.
  destruct (rd_bytes_inside 8 6 p rest) as (mac & -> & Q1); [lia|].
  destruct (rd_bytes_inside (8 + Z.to_nat hln) 4 p rest) as (ip & E2 & Q2); [lia|]. simpl in E2, Q2 |- *.
  rewrite E2. simpl. apply weq_bind_r. intros c w2. destruct (c =? NULL); [done|].
  by rewrite (oob_bind _ _ _ _ Q1), (oob_bind _ _ _ _ Q2).
Qed.

(** ** Neighbour advertisements *)

(** An option: its type, its length in units of eight bytes, its data. *)
Definition nd_option (o : Z * list Z) : list Z := o.1 :: (2 + Z.of_nat (length o.2)) / 8 :: o.2.
Definition nd_encoded (l : list (Z * list Z)) : list Z := concat (map nd_option l).

Definition nd_option_ok (o : Z * list Z) : Prop :=
  ∃ k, 0 < k < 256 ∧ 2 + Z.of_nat (length o.2) = 8 * k.

(** The link-layer address of the first option of that kind, or zeroes. *)
Fixpoint nd_target (l : list (Z * list Z)) : list Z :=
  match l with
  | [] => null_mac
  | o :: l' => if o.1 =? ND_OPT_TARGET_LL_ADDR then take 6 o.2 else nd_target l'
  end.

Lemma nd_option_length o : length (nd_option o) = (2 + length o.2)%nat.
Proof. done. Qed.

Lemma rd8_here pre (x : Z) l : rd8 (length pre + 0) (pre ++ x :: l) = Some x.
Proof. unfold rd8. rewrite Nat.add_0_r. by apply list_lookup_middle. Qed.

Lemma nd_options_encoded l pre rest fuel w :
  Forall nd_option_ok l → (length l < fuel)%nat → Z.of_nat (length (nd_encoded l)) < 2 ^ 31 →
  nd_options fuel (pre ++ nd_encoded l ++ rest) (length pre) (Z.of_nat (length (nd_encoded l))) w
  = Ok (Some (nd_target l)) w.
Proof.
  intros Hl. revert pre fuel. unfold nd_encoded.
  induction Hl as [|o l [k [Hk Ho]] Hl IH]; intros pre [|f] Hf Hmax; simpl in Hf; try lia; [done|].
  cbn [nd_options map concat nd_target] in *. set (tl := concat (map nd_option l)) in *.
  eval_layout. rewrite length_app, nd_option_length in Hmax |- *.
  set (len := Z.of_nat (2 + length o.2 + length tl)) in *.
  assert (len = 8 * k + Z.of_nat (length tl)) as Hlen by (unfold len; lia). clearbody len.
  rewrite (proj2 (Z.eqb_neq _ _)) by lia. unfold u64. rewrite Z.mod_small, (proj2 (Z.ltb_ge _ _)) by lia.
  rewrite <-app_assoc. set (buf := pre ++ nd_option o ++ tl ++ rest).
  assert (rd8 (length pre + 1) buf = Some k) as R1.
  { unfold buf, rd8. rewrite lookup_app_r by lia. replace (length pre + 1 - length pre)%nat with 1%nat by lia.
    simpl. f_equal. rewrite Ho, Z.mul_comm. by apply Z.div_mul. }
  rewrite (oob_bind _ _ _ _ R1). cbv zeta. unfold u8.
  rewrite Z.mod_small, Z.shiftl_mul_pow2 by lia. change (2 ^ 3) with 8. rewrite (proj2 (Z.eqb_neq _ _)) by lia.
  rewrite oob_bind with (b := o.1) by apply rd8_here.
  destruct (o.1 =? ND_OPT_TARGET_LL_ADDR).
  - rewrite oob_bind with (b := take 6 o.2); [done|]. unfold rd_bytes, buf, ETHER_ADDR_LEN.
    rewrite !length_app, nd_option_length, leb_correct by lia. f_equal.
    rewrite drop_app_ge by lia. replace (length pre + 2 - length pre)%nat with 2%nat by lia. simpl.
    rewrite drop_0, take_app_le; [done|lia].
  - specialize (IH (pre ++ nd_option o) f). rewrite length_app, <-!app_assoc, nd_option_length in IH.
    replace (Z.to_nat (k * 8)) with (2 + length o.2)%nat by lia.
    replace (len - k * 8) with (Z.of_nat (length tl)) by lia. apply IH; lia.
Qed.

(** A neighbour advertisement. *)
Definition advertisement (head target : list Z) (opts : list (Z * list Z)) : list Z :=
  (NDISC_NEIGHBOUR_ADVERTISEMENT :: head) ++ target ++ nd_encoded opts.

(** C25. The handler of neighbour advertisements inverts their encoding: it learns the
    target of the packet with the link-layer address of the first option of that kind,
    or with no address when there is none, whatever the array holds behind. *)
Theorem advertisement_roundtrip head target opts ifindex w :
  length head = 7%nat → length target = 16%nat → Forall nd_option_ok opts →
  (length (advertisement head target opts) ≤ ND_BUF_SIZE)%nat →
  iccp_receive_ndisc_packet_handler (Some (advertisement head target opts)) ifindex w
  = (_ ← packet_buf ND_BUF_SIZE (advertisement head target opts);
     c ← system_get_first_csm;
     if c =? NULL then mret 0
     else do_ndisc_update_from_reply_packet ifindex target (nd_target opts);; mret 0) w.
Proof.
  intros Hh Ht Ho Hlen. unfold iccp_receive_ndisc_packet_handler, packet_buf. cbv zeta.
  rewrite take_ge by lia. rewrite !bind_assoc. apply weq_bind_r. intros rest w1. rewrite !ret_bind.
  apply weq_bind_r. intros c w2. destruct (c =? NULL); [done|].
  assert (Z.of_nat ND_BUF_SIZE = 4096) as Hsize by done. set (size := ND_BUF_SIZE) in *.
  unfold advertisement in *. set (pre := NDISC_NEIGHBOUR_ADVERTISEMENT :: head) in *.
  assert (length pre = 8%nat) as Hpre by (unfold pre; simpl; lia).
  rewrite !length_app in Hlen |- *. eval_layout. rewrite <-!app_assoc.
  rewrite oob_bind with (b := NDISC_NEIGHBOUR_ADVERTISEMENT) by done. rewrite Z.eqb_refl. cbv iota beta delta [negb].
  rewrite oob_bind with (b := target); [|rewrite <-Ht, <-Hpre; apply rd_bytes_app].
  replace (Z.of_nat (length pre + (length target + length (nd_encoded opts))) - 24)
    with (Z.of_nat (length (nd_encoded opts))) by lia.
  assert (nd_options (S size) (pre ++ target ++ nd_encoded opts ++ rest) 24
            (Z.of_nat (length (nd_encoded opts))) w2 = Ok (Some (nd_target opts)) w2) as E.
  { replace 24%nat with (length (pre ++ target)) by (rewrite length_app; lia). rewrite app_assoc.
    apply nd_options_encoded; [done| |lia].
    assert (length opts ≤ length (nd_encoded opts))%nat; [|lia].
    clear. unfold nd_encoded. induction opts as [|o l IH]; simpl; [done|]. rewrite length_app. lia. }
  destruct (Z.gtb_spec (Z.of_nat (length (nd_encoded opts))) 0) as [Hgt|Hle].
  - by rewrite (bind_ok _ _ _ _ _ E).
  - destruct opts as [|o l]; [done|]. unfold nd_encoded in Hle. simpl in Hle. lia.
Qed.

(** A reply of 10.0.0.7 with the address 02:00:00:00:00:09, on the interface 3. *)
Definition arp_packet : list Z :=
  be16 1 ++ be16 ETH_P_IP ++ [6; 4] ++ be16 ARPOP_REPLY ++ [2; 0; 0; 0; 0; 9] ++ [10; 0; 0; 7] ++ replicate 10 0.

Lemma arp_handler_reference_witness :
  arp_sender (take ARP_BUF_SIZE arp_packet) 6 = Some ([2; 0; 0; 0; 0; 9], [10; 0; 0; 7])
  ∧ iccp_receive_arp_packet_handler (Some arp_packet) 6 3 (boot calm)
    = (_ ← packet_buf ARP_BUF_SIZE arp_packet;
       match arp_sender (take ARP_BUF_SIZE arp_packet) 6 with
       | None => mret 0
       | Some (mac, ip) =>
           c ← system_get_first_csm;
           if c =? NULL then mret 0 else do_arp_update_from_reply_packet 3 ip mac;; mret 0
       end) (boot calm).
Proof.
  split; [vm_compute; reflexivity|]. apply (arp_handler_reference arp_packet 6 3 (boot calm)).
  repeat apply Forall_cons_2; [..|apply Forall_nil_2]; split; vm_compute; discriminate || reflexivity.
Defined.

Lemma advertisement_roundtrip_witness :
  let opts := [(1, replicate 6 7); (ND_OPT_TARGET_LL_ADDR, [2; 0; 0; 0; 0; 9])] in
  let pkt := advertisement (replicate 7 0) (replicate 16 1) opts in
  nd_target opts = [2; 0; 0; 0; 0; 9]
  ∧ iccp_receive_ndisc_packet_handler (Some pkt) 3 (boot calm)
    = (_ ← packet_buf ND_BUF_SIZE pkt;
       c ← system_get_first_csm;
       if c =? NULL then mret 0
       else do_ndisc_update_from_reply_packet 3 (replicate 16 1) (nd_target opts);; mret 0) (boot calm).
Proof.
  intros opts pkt. split; [reflexivity|].
  refine (advertisement_roundtrip (replicate 7 0) (replicate 16 1) opts 3 (boot calm) eq_refl eq_refl _ _).
  - repeat apply Forall_cons_2; [..|apply Forall_nil_2]; exists 1; split; (reflexivity || split; reflexivity).
  - apply leb_complete. vm_compute. reflexivity.
Defined.
