(* ===== verification/SyncdSend.v ===== *)
(** * Sending to mclagsyncd

    The socket of mclagsyncd may take a message in pieces, and may be busy.  The loop of
    [iccp_send_to_mclagsyncd] sends the rest, and waits a bounded number of times. *)

From S2P Require Import Prelude CMem CString MsgFormat State Machine IccpMsg Port Syncd Boot.
#[local] Open Scope Z_scope.

(** The bytes a [send] took, and those of a trace, which has the last event first. *)
Definition taken (fd : Z) (e : event) : list Z :=
  match e.1 with
  | SysSend fd' data => if fd' =? fd then take (Z.to_nat e.2) data else []
  | _ => []
  end.
Definition delivered (fd : Z) (tr : list event) : list Z := concat (map (taken fd) (reverse tr)).

Lemma delivered_app fd tr1 tr2 : delivered fd (tr1 ++ tr2) = delivered fd tr2 ++ delivered fd tr1.
Proof. unfold delivered. by rewrite reverse_app, map_app, concat_app. Qed.

(** What sending leaves alone: everything but the trace and the counters. *)
Definition sending (w w' : World) : Prop :=
  ∃ tr n, w' = w <| w_trace := tr |> <| w_sys ::= set syncd_tx_counters (λ _, n) |>.

Lemma sending_refl w : sending w w.
Proof. exists (w_trace w), (syncd_tx_counters (w_sys w)). by destruct w as [[]]. Qed.

Lemma sending_trace w e : sending w (w <| w_trace ::= cons e |>).
Proof. exists (e :: w_trace w), (syncd_tx_counters (w_sys w)). by destruct w as [[]]. Qed.

Lemma sending_trans w1 w2 w3 : sending w1 w2 → sending w2 w3 → sending w1 w3.
Proof. intros (tr & n & ->) (tr' & n' & ->). by exists tr', n'. Qed.

(** The outcome of the loop with [rest] left of the message at position [pos]. *)
Definition send_outcome (fd : Z) (rest : list Z) (pos : Z) (w : World) (o : outcome World Z) : Prop :=
  ∃ r w' ev, o = Ok r w' ∧ sending w w' ∧ w_trace w' = ev ++ w_trace w
    ∧ ((r = pos + Z.of_nat (length rest) ∧ delivered fd ev = rest)
       ∨ (r = MCLAG_ERROR ∧ delivered fd ev `prefix_of` rest)).

Lemma counter_run t s w : ∃ w', SYSTEM_SET_SYNCD_TX_DBG_COUNTER t s w = Ok tt w' ∧ sending w w' ∧ w_trace w' = w_trace w.
Proof.
  unfold SYSTEM_SET_SYNCD_TX_DBG_COUNTER. destruct (_ && _); [|by exists w; split; [|split; [apply sending_refl|]]].
  eexists. split; [reflexivity|]. split; [|done].
  exists (w_trace w). eexists. by destruct w as [[]].
Qed.

Lemma counted_error fd rest pos w t w0 ev :
  sending w w0 → w_trace w0 = ev ++ w_trace w → delivered fd ev = [] →
  send_outcome fd rest pos w ((SYSTEM_SET_SYNCD_TX_DBG_COUNTER t ICCP_DBG_CNTR_STS_ERR;; mret MCLAG_ERROR) w0).
Proof.
  intros Hs Ht Hd. destruct (counter_run t ICCP_DBG_CNTR_STS_ERR w0) as (w1 & E & S1 & T1).
  rewrite (bind_ok _ _ _ _ _ E). exists MCLAG_ERROR, w1, ev. split; [done|].
  split; [by eapply sending_trans|]. split; [congruence|]. right. split; [done|]. rewrite Hd. apply prefix_nil.
Qed.

(** After a step that delivered [got], the loop goes on with the rest. *)
Lemma send_outcome_step fd got rest pos w w0 ev o :
  sending w w0 → w_trace w0 = ev ++ w_trace w → delivered fd ev = got →
  send_outcome fd rest (pos + Z.of_nat (length got)) w0 o → send_outcome fd (got ++ rest) pos w o.
Proof.
  intros Hs Ht Hd (r & w' & ev' & -> & S' & T' & C). exists r, w', (ev' ++ ev). split; [done|].
  split; [by eapply sending_trans|]. split; [rewrite T', Ht; by rewrite app_assoc|].
  rewrite delivered_app, Hd, length_app.
  destruct C as [[-> ->]|[-> P]]; [left; split; [lia|done]|right]. split; [done|]. by apply prefix_app.
Qed.

Lemma delivered_one fd e : delivered fd [e] = taken fd e.
Proof. unfold delivered. simpl. apply app_nil_r. Qed.

Lemma send_loop_run fuel fd t rest n pos w :
  n ≤ SYNCD_SEND_RETRY_MAX → Z.of_nat (length rest) + (SYNCD_SEND_RETRY_MAX - n) < Z.of_nat fuel →
  send_outcome fd rest pos w (syncd_send_loop fuel fd t rest n pos w).
Proof.
  unfold SYNCD_SEND_RETRY_MAX. revert rest n pos w. induction fuel as [|f IH]; intros rest n pos w Hn Hf; [lia|]. simpl.
  destruct (Nat.eqb_spec (length rest) 0) as [Hr|Hr].
  { destruct (counter_run t ICCP_DBG_CNTR_STS_OK w) as (w1 & E & S1 & T1). rewrite (bind_ok _ _ _ _ _ E).
    destruct rest; [|done]. exists pos, w1, []. repeat split; [done|done|]. left. split; [simpl; lia|done]. }
  rewrite sys_bind. set (len := w_env w (w_trace w) (SysSend fd rest)).
  set (e := (SysSend fd rest, len)). set (w1 := w <| w_trace ::= cons e |>).
  assert (taken fd e = take (Z.to_nat len) rest) as He by (unfold taken; simpl; by rewrite Z.eqb_refl).
  assert (sending w w1) as S1 by apply sending_trace.
  assert (len ≤ 0 → delivered fd [e] = []) as Hnone.
  { intros H. rewrite delivered_one, He. replace (Z.to_nat len) with 0%nat by lia. done. }
  destruct (Z.ltb_spec len 0); [destruct (- len =? EAGAIN)|destruct (Z.eqb_spec len 0)];
    try (by apply (counted_error _ _ _ _ _ w1 [e]); [done|done|apply Hnone; lia]).
  - unfold SYNCD_SEND_RETRY_MAX. destruct (Z.gtb_spec (n + 1) 5);
      [by apply (counted_error _ _ _ _ _ w1 [e]); [done|done|apply Hnone; lia]|].
    rewrite sys_bind. set (e2 := (SysUsleep _, _)). set (w2 := w1 <| w_trace ::= cons e2 |>).
    apply (send_outcome_step fd [] rest pos w w2 [e2; e]);
      [eapply sending_trans; [exact S1|apply sending_trace]|done|change [e2; e] with ([e2] ++ [e]); rewrite delivered_app, Hnone by lia; done|].
    simpl. rewrite Z.add_0_r. apply IH; lia.
  - set (k := Nat.min (Z.to_nat len) (length rest)).
    rewrite <-(take_drop k rest) at 1.
    assert (length (take k rest) = k) as Hk by (rewrite length_take; unfold k; lia).
    apply (send_outcome_step fd (take k rest) (drop k rest) pos w w1 [e]); [done|done| |].
    + rewrite delivered_one, He. unfold k. destruct (Nat.min_spec (Z.to_nat len) (length rest)) as [[? ->]|[? ->]]; [done|].
      rewrite !take_ge by lia. done.
    + rewrite Hk. apply IH; [lia|]. rewrite length_drop. unfold k. lia.
Qed.

(** A request whose message fits the buffer returns, and changes nothing else. *)
Lemma request_run t subs w :
  (4 + length subs ≤ ICCP_MLAGSYNCD_SEND_MSG_BUFFER_SIZE)%nat →
  ∃ r w', syncd_request t subs w = Ok r w' ∧ sending w w'.
Proof.
  intros Hl. unfold syncd_request, syncd_build. set (m := syncd_msg t subs).
  assert (length m ≤ ICCP_MLAGSYNCD_SEND_MSG_BUFFER_SIZE)%nat as Hm by exact Hl.
  rewrite (proj2 (Nat.leb_le _ _) Hm).
  unfold iccp_send_to_mclagsyncd, gets, mbind, M_bind.
  set (fuel := (length m + Z.to_nat SYNCD_SEND_RETRY_MAX + 2)%nat). cbn [mret M_ret].
  destruct (Z.eqb_spec (sync_fd (w_sys w)) 0) as [Hz|Hz].
  { eexists _, w. split; [reflexivity|apply sending_refl]. }
  destruct (send_loop_run fuel (sync_fd (w_sys w)) t m 0 0 w)
    as (r & w' & ev & E & S & _); [done|unfold fuel, SYNCD_SEND_RETRY_MAX; lia|].
  rewrite (proj2 (Z.eqb_neq _ _) Hz). fold fuel. rewrite E. destruct (_ || _); (eexists _, w'; split; [reflexivity|exact S]).
Qed.

(** C21. A message for mclagsyncd is delivered exactly or reported: whatever pieces the socket
    takes and however often it is busy, the call ends without a fault and changes
    nothing but its counters; it returns the length of the message when the bytes the
    socket took are exactly the message, in order and once, and an error otherwise,
    when they are a beginning of it. *)
Theorem syncd_send_exact t data w :
  sync_fd (w_sys w) ≠ 0 →
  ∃ r w' ev, iccp_send_to_mclagsyncd t data w = Ok r w' ∧ sending w w' ∧ w_trace w' = ev ++ w_trace w
    ∧ ((r = Z.of_nat (length data) ∧ delivered (sync_fd (w_sys w)) ev = data)
       ∨ (r = MCLAG_ERROR ∧ delivered (sync_fd (w_sys w)) ev `prefix_of` data)).
Proof.
  intros Hfd. unfold iccp_send_to_mclagsyncd, gets, mbind, M_bind. rewrite (proj2 (Z.eqb_neq _ _) Hfd).
  apply send_loop_run; unfold SYNCD_SEND_RETRY_MAX; lia.
Qed.

Lemma syncd_send_exact_witness : ∃ r w' ev,
  iccp_send_to_mclagsyncd MCLAG_MSG_TYPE_SET_FDB [1; 2; 3] (boot calm) = Ok r w' ∧ sending (boot calm) w'
  ∧ w_trace w' = ev ++ []
  ∧ ((r = 3 ∧ delivered (-1) ev = [1; 2; 3]) ∨ (r = MCLAG_ERROR ∧ delivered (-1) ev `prefix_of` [1; 2; 3])).
Proof. apply (syncd_send_exact MCLAG_MSG_TYPE_SET_FDB [1; 2; 3] (boot calm)). discriminate. Defined.
