(* ===== verification/Agreement.v ===== *)
(** * What the consistency check decides

    [iccp_consistency_check] compares the two ends of a port channel; here, that the
    comparison is the agreement on the mode, the address and the set of VLANs. *)

From S2P Require Import Prelude CMem CString MsgFormat State Machine Port Lookup SyncUpdate Boot.
#[local] Open Scope Z_scope.

(** ** What the check decides *)

(** The VLANs of a tree, as a set. *)
Definition vlan_set (t : list VLAN_ID) : gset Z := list_to_set (vid <$> t).

(** The first of the mode, the address and the VLANs that the two ends do not share. *)
Definition disagreement (l : LocalInterface) (p : PeerInterface) : Z :=
  if decide (pif_l3_mode p ≠ lif_l3_mode l) then REASON_INTERRFACE_MODE_IS_ASYNC
  else if decide (pif_ipv4_addr p ≠ lif_ipv4_addr l) then REASON_PEER_IF_IP_IS_ASYNC
  else if decide (vlan_set (lif_vlan_tree l) ≠ vlan_set (pif_vlan_tree p)) then REASON_PEER_IF_VLAN_IS_ASYNC
  else REASON_NONE.

(** The two ends of the port channel [ifname]. *)
Definition both_ends (ifname : list Z) (w : World) (l : LocalInterface) (p : PeerInterface) : Prop :=
  ∃ lp pp, local_if_find_by_name ifname w = Ok lp w ∧ lp ≠ NULL ∧ w_lifs w !! lp = Some l ∧ lif_csm l ≠ NULL
    ∧ peer_if_find_by_name (lif_csm l) ifname w = Ok pp w ∧ pp ≠ NULL ∧ w_pifs w !! pp = Some p.

Lemma with_both_run ifname k w l p : both_ends ifname w l p → with_both_ends ifname k w = Ok (k l p) w.
Proof.
  intros (lp & pp & E1 & H1 & L1 & Hc & E2 & H2 & L2). unfold with_both_ends.
  rewrite (bind_ok _ _ _ _ _ E1), eqb_null by done. rewrite (deref_bind w_lifs _ _ _ _ L1), eqb_null by done.
  rewrite (bind_ok _ _ _ _ _ E2), eqb_null by done. by rewrite (deref_bind w_pifs _ _ _ _ L2).
Qed.

Lemma vlan_find_elem k t : is_Some (vlan_find k t) ↔ k ∈ vlan_set t.
Proof.
  unfold vlan_find, vlan_set. rewrite elem_of_list_to_set, list_elem_of_fmap, fmap_is_Some. split.
  - intros [[i v] H]. apply list_find_Some in H as (H & E & _). exists v. split; [done|].
    by eapply list_elem_of_lookup_2.
  - intros (v & -> & Hv). by eapply list_find_elem_of.
Qed.

Lemma vlans_in_subset l t : vlans_in l t = bool_decide (vlan_set l ⊆ vlan_set t).
Proof.
  induction l as [|v l IH]; simpl; [by rewrite bool_decide_true by (unfold vlan_set; set_solver)|].
  pose proof (vlan_find_elem (vid v) t) as Hv.
  assert (vlan_set (v :: l) ⊆ vlan_set t ↔ vid v ∈ vlan_set t ∧ vlan_set l ⊆ vlan_set t) as Hs
    by (unfold vlan_set; simpl; set_solver).
  rewrite (bool_decide_ext _ _ Hs), bool_decide_and. destruct (vlan_find (vid v) t) eqn:E.
  - rewrite (bool_decide_true (vid v ∈ _)) by (apply Hv; eauto). by rewrite IH.
  - rewrite (bool_decide_false (vid v ∈ _)); [done|]. intros [? ?]%Hv. done.
Qed.

(** The walks over the two trees compare them as sets. *)
Lemma vlan_code_spec l p : vlan_code l p = 1 ↔ vlan_set (lif_vlan_tree l) = vlan_set (pif_vlan_tree p).
Proof.
  unfold vlan_code. rewrite !vlans_in_subset.
  destruct (decide (vlan_set (lif_vlan_tree l) ⊆ vlan_set (pif_vlan_tree p)));
    [rewrite (bool_decide_true (vlan_set (lif_vlan_tree l) ⊆ _)) by done
    |rewrite (bool_decide_false (vlan_set (lif_vlan_tree l) ⊆ _)) by done; simpl; set_solver].
  destruct (decide (vlan_set (pif_vlan_tree p) ⊆ vlan_set (lif_vlan_tree l)));
    [rewrite bool_decide_true by done|rewrite bool_decide_false by done; simpl; set_solver].
  simpl. set_solver.
Qed.

(** C20. The consistency check of a port channel decides agreement: it returns the first of
    the mode, the address and the set of VLANs that the two ends do not share, so
    [REASON_NONE] exactly when they share them all; it changes nothing. *)
Theorem consistency_check_decides ifname w l p :
  both_ends ifname w l p → iccp_consistency_check ifname w = Ok (disagreement l p) w.
Proof.
  intros Hb. assert (∀ k, with_both_ends ifname k w = Ok (k l p) w) as Hk by (intros k; by apply with_both_run).
  unfold iccp_consistency_check. simpl.
  unfold iccp_check_interface_mode, iccp_check_interface_layer3_addr, iccp_check_interface_vlan.
  rewrite (bind_ok _ _ _ _ _ (Hk _)). unfold mode_code, disagreement.
  destruct (Z.eqb_spec (pif_l3_mode p) (lif_l3_mode l)); [|by rewrite decide_True by done].
  rewrite (decide_False (P := pif_l3_mode p ≠ _)) by (intros H; done). simpl.
  rewrite (bind_ok _ _ _ _ _ (Hk _)). unfold addr_code.
  destruct (Z.eqb_spec (pif_ipv4_addr p) (lif_ipv4_addr l)); [|by rewrite decide_True by done].
  rewrite (decide_False (P := pif_ipv4_addr p ≠ _)) by (intros H; done). simpl.
  rewrite (bind_ok _ _ _ _ _ (Hk _)). pose proof (vlan_code_spec l p) as Hv.
  destruct (Z.eqb_spec (vlan_code l p) 1) as [E|E]; simpl.
  - rewrite decide_False; [done|]. intros H. by apply H, Hv.
  - rewrite decide_True; [done|]. intros H. by apply E, Hv.
Qed.

(** PortChannel5 with the VLANs 10 and 20 here, and 10 and 30 at the peer. *)
Definition agreement_lif : LocalInterface :=
  local_if_init <| lif_name := str "PortChannel5" |> <| lif_csm := 1 |>
                <| lif_vlan_tree := [mkVLAN_ID 10 0 NULL; mkVLAN_ID 20 0 NULL] |>.
Definition agreement_pif : PeerInterface :=
  peer_if_zero <| pif_name := str "PortChannel5" |>
               <| pif_vlan_tree := [mkVLAN_ID 10 0 NULL; mkVLAN_ID 30 0 NULL] |>.
Definition agreement_csm : CSM := set_MLACP (set pif_list (λ _, [20])) (session_csm 100).
Definition agreement_world : World :=
  with_csm 1 agreement_csm (boot calm)
    <| w_lifs := {[10 := agreement_lif]} |> <| w_pifs := {[20 := agreement_pif]} |>
    <| w_sys ::= set sys_lif_list (λ _, [10]) |>.

Lemma consistency_check_decides_witness :
  disagreement agreement_lif agreement_pif = REASON_PEER_IF_VLAN_IS_ASYNC
  ∧ iccp_consistency_check (str "PortChannel5") agreement_world
    = Ok (disagreement agreement_lif agreement_pif) agreement_world.
Proof.
  split; [vm_compute; reflexivity|]. apply consistency_check_decides.
  exists 10, 20. split; [|split; [discriminate|split; [reflexivity|split; [discriminate|split;
    [|split; [discriminate|reflexivity]]]]]].
  - apply (lif_find_run (str "PortChannel5") agreement_world), all_live_Forall.
    constructor; [by exists agreement_lif|constructor].
  - apply (pif_find_run 1 agreement_csm (str "PortChannel5") agreement_world); [discriminate|reflexivity|].
    apply all_live_Forall. constructor; [by exists agreement_pif|constructor].
Defined.
