(* ===== verification/Pending.v ===== *)
(** * VLANs of interfaces that do not exist yet

    mclagsyncd reports the members of VLANs before the kernel has created the
    interfaces.  The reports for an interface that is not there are kept, by name, and
    given to the interface when it is created. *)

From S2P Require Import Prelude CMem CString MsgFormat State Machine Port Lookup Syncd Standby.
From S2P Require Import SyncUpdate Ifm Boot Agreement.
#[local] Open Scope Z_scope.

(** ** VLAN trees as sets *)

Lemma vlan_set_cons v t : vlan_set (v :: t) = {[vid v]} ∪ vlan_set t.
Proof. done. Qed.

Lemma vlan_set_insert v t : vlan_set (vlan_insert v t) = {[vid v]} ∪ vlan_set t.
Proof.
  induction t as [|u t IH]; [done|]. simpl. unfold vlan_node_compare.
  destruct (Z.ltb_spec (vid v) (vid u)); [done|]. rewrite Z.gtb_ltb.
  destruct (Z.ltb_spec (vid u) (vid v)); simpl.
  - rewrite !vlan_set_cons, IH. set_solver.
  - assert (vid v = vid u) as -> by lia. rewrite vlan_set_cons. set_solver.
Qed.

Lemma vlan_set_remove k t : vlan_set (vlan_remove k t) = vlan_set t ∖ {[k]}.
Proof.
  unfold vlan_set, vlan_remove. apply set_eq. intros j.
  rewrite elem_of_difference, !elem_of_list_to_set, !list_elem_of_fmap.
  setoid_rewrite list_elem_of_filter. set_solver.
Qed.

(** ** What is kept for a name *)

Definition names (n : list Z) (e : list Z * list VLAN_ID) : Prop := str_eqb (fst e) n = true.

Fixpoint pending_for (n : list Z) (l : list (list Z * list VLAN_ID)) : gset Z :=
  match l with
  | [] => ∅
  | e :: l' => if str_eqb (fst e) n then vlan_set (snd e) else pending_for n l'
  end.

Definition pending_set (n : list Z) (w : World) : gset Z := pending_for n (pending_vlan_mbr_if_list (w_sys w)).

Lemma str_eqb_true a b : str_eqb a b = true ↔ cstr a = cstr b.
Proof. unfold str_eqb. apply bool_decide_eq_true. Qed.

Lemma str_eqb_cong a b c : cstr a = cstr b → str_eqb a c = str_eqb b c ∧ str_eqb c a = str_eqb c b.
Proof. unfold str_eqb. by intros ->. Qed.

(** An element that is found, and changed. *)
Lemma pending_alter name n l i e f :
  list_find (λ e, str_eqb (fst e) name = true) l = Some (i, e) →
  l !! i = Some e ∧ pending_for name l = vlan_set (snd e)
  ∧ pending_for n (alter (λ e, (fst e, f (snd e))) i l)
    = if str_eqb n name then vlan_set (f (snd e)) else pending_for n l.
Proof.
  revert i. induction l as [|[m t] l IH]; intros i; simpl; [done|].
  case_decide as Hm.
  - intros [= <- <-]. split; [done|]. simpl in *. rewrite Hm. split; [done|].
    apply str_eqb_true in Hm. destruct (str_eqb_cong m name n Hm) as [-> _].
    unfold str_eqb. rewrite (bool_decide_ext (cstr name = cstr n) (cstr n = cstr name)) by (split; congruence).
    by destruct (bool_decide _).
  - intros H. destruct (list_find _ l) as [[j e']|] eqn:Hf; simplify_eq/=.
    destruct (IH j eq_refl) as (H1 & H2 & H3). split; [done|].
    apply not_true_is_false in Hm. rewrite Hm. split; [done|]. rewrite H3.
    destruct (str_eqb m n) eqn:Hmn; [|done]. destruct (str_eqb n name) eqn:Hn; [|done].
    apply str_eqb_true in Hmn, Hn. by rewrite (proj2 (str_eqb_true _ _)) in Hm by congruence.
Qed.

Lemma pending_none name l :
  list_find (λ e, str_eqb (fst e) name = true) l = None → pending_for name l = ∅.
Proof.
  induction l as [|[m t] l IH]; simpl; [done|]. case_decide as Hm; [done|].
  apply not_true_is_false in Hm. rewrite Hm. destruct (list_find _ l); [done|]. auto.
Qed.

(** ** Reports for an interface that is not there *)

Definition mallocs (w : World) : Prop := ∀ tr n, w_env w tr (SysMalloc n) ≠ 0.

(** The list of the system is replaced, and nothing else but the trace changes. *)
Definition with_pending (l : list (list Z * list VLAN_ID)) (f : list event → list event) (w : World) : World :=
  w <| w_sys ::= set pending_vlan_mbr_if_list (λ _, l) |> <| w_trace ::= f |>.

(** One report for the element [i]. *)
Lemma apply_run name v (add : bool) i e w :
  mallocs w → list_find (λ e, str_eqb (fst e) name = true) (pending_vlan_mbr_if_list (w_sys w)) = Some (i, e) →
  ∃ l f, (if add then _ ← add_pending_vlan_mbr i v; mret tt else del_pending_vlan_mbr i v) w
         = Ok tt (with_pending l f w)
    ∧ ∀ n, pending_for n l = if str_eqb n name
                             then (if add then {[v]} ∪ pending_set name w else pending_set name w ∖ {[v]})
                             else pending_set n w.
Proof.
  intros Hm Hf. set (l := pending_vlan_mbr_if_list (w_sys w)) in *. unfold pending_set. fold l.
  assert (∀ n f, pending_for n (alter (λ e, (fst e, f (snd e))) i l)
    = if str_eqb n name then vlan_set (f (snd e)) else pending_for n l) as Halter
    by (intros n f; apply (pending_alter name n l i e f Hf)).
  destruct (pending_alter name name l i e id Hf) as (Hi & Hs & _). rewrite Hs.
  assert (∀ n, pending_for n l = if str_eqb n name then vlan_set (snd e) else pending_for n l) as Hsame.
  { intros n. rewrite <-(Halter n id) at 1. f_equal. symmetry. apply list_alter_id. by intros []. }
  assert (w = with_pending l id w) as Hid by (unfold l; by destruct w as [[]]).
  pose proof (vlan_find_elem v (snd e)) as Hv.
  assert (pending_tree i w = Ok (snd e) w) as Ht by (unfold pending_tree, mbind, M_bind, gets; fold l; by rewrite Hi).
  destruct add.
  - unfold add_pending_vlan_mbr. rewrite bind_assoc, (bind_ok _ _ _ _ _ Ht).
    destruct (vlan_find v (snd e)) eqn:Ev.
    + exists l, id. rewrite <-Hid. split; [done|]. intros n. rewrite (Hsame n). case_match; [|done].
      assert (v ∈ vlan_set (snd e)) by (apply Hv; by eexists). set_solver.
    + rewrite bind_assoc, sys_bind, (proj2 (Z.eqb_neq _ _)) by apply Hm. eexists _, _. split; [reflexivity|].
      intros n. rewrite Halter. case_match; [|done]. by rewrite vlan_set_insert.
  - unfold del_pending_vlan_mbr. rewrite (bind_ok _ _ _ _ _ Ht). destruct (vlan_find v (snd e)) eqn:Ev.
    + exists (alter (λ e, (fst e, vlan_remove v (snd e))) i l), id. split; [by unfold with_pending, l; destruct w as [[]]|].
      intros n. rewrite Halter. case_match; [|done]. by rewrite vlan_set_remove.
    + exists l, id. rewrite <-Hid. split; [done|]. intros n. rewrite (Hsame n). case_match; [|done].
      assert (v ∉ vlan_set (snd e)); [|set_solver]. intros [? ?]%Hv. done.
Qed.

(** C30. The VLANs kept for an interface that does not exist are those the reports said: a
    report of an addition adds the VLAN to what is kept under the name of the
    interface, a report of a removal takes it away, each whatever was reported before,
    and the other names keep theirs. *)
Theorem pending_reports name v add w :
  mallocs w → strlen name < Z.of_nat MAX_L_PORT_NAME →
  ∃ w', update_pending_vlan_mbr name v add w = Ok tt w'
    ∧ ∀ n, pending_set n w' = if str_eqb n name
                              then (if add then {[u16 v]} ∪ pending_set name w else pending_set name w ∖ {[u16 v]})
                              else pending_set n w.
Proof.
  intros Hm Hlen. unfold update_pending_vlan_mbr, find_pending_vlan_mbr_if.
  set (l := pending_vlan_mbr_if_list (w_sys w)). unfold mbind at 1, M_bind at 1. unfold mbind at 1, M_bind at 1, gets.
  fold l. cbv beta iota delta [mret M_ret]. destruct (list_find _ l) as [[i e]|] eqn:Hf; simpl.
  - destruct (apply_run name (u16 v) add i e w Hm Hf) as (l' & f & E & Hl). exists (with_pending l' f w).
    split; [by destruct add|done].
  - destruct add; simpl.
    + rewrite sys_bind, (proj2 (Z.eqb_neq _ _)) by apply Hm. unfold sys_upd, mbind at 1, M_bind at 1, modify.
      set (w1 := set w_sys _ _).
      assert (cstr (snprintf_s MAX_L_PORT_NAME name) = cstr name) as Hc.
      { unfold snprintf_s, strlen in *. rewrite take_ge by (unfold MAX_L_PORT_NAME in *; lia).
        destruct (MAX_L_PORT_NAME - length (cstr name))%nat eqn:E; [lia|]. simpl. apply cstr_app_nul, cstr_nonzero. }
      assert (list_find (λ e, str_eqb (fst e) name = true) (pending_vlan_mbr_if_list (w_sys w1))
              = Some (0%nat, (snprintf_s MAX_L_PORT_NAME name, []))) as Hf1.
      { simpl. rewrite decide_True; [done|]. by apply str_eqb_true. }
      destruct (apply_run name (u16 v) true 0 _ w1 Hm Hf1) as (l' & f & E & Hl). exists (with_pending l' f w1).
      split; [exact E|]. intros n. change (pending_set n (with_pending l' f w1)) with (pending_for n l').
      rewrite Hl. assert (∀ k, pending_set k w1 = if str_eqb k name then ∅ else pending_set k w) as Hw1.
      { intros k. change (pending_set k w1)
          with (if str_eqb (snprintf_s MAX_L_PORT_NAME name) k then vlan_set [] else pending_set k w).
        destruct (str_eqb_cong _ _ k Hc) as [-> _]. unfold str_eqb.
        by rewrite (bool_decide_ext (cstr name = cstr k) (cstr k = cstr name)) by (split; congruence). }
      rewrite !Hw1, str_eqb_refl. change (pending_set name w) with (pending_for name l).
      rewrite (pending_none name l Hf). by destruct (str_eqb n name).
    + exists w. split; [done|]. intros n. case_match eqn:Hn; [|done]. apply str_eqb_true in Hn.
      unfold pending_set. fold l. rewrite (pending_none name l Hf), (pending_none n l); [set_solver|].
      rewrite <-Hf. apply list_find_ext. intros e. by rewrite (proj2 (str_eqb_cong n name (fst e) Hn)).
Qed.

(** ** The interface is created *)

Lemma vlan_set_update k f t : (∀ v, vid (f v) = vid v) → vlan_set (vlan_update k f t) = vlan_set t.
Proof.
  intros Hf. unfold vlan_set, vlan_update. f_equal. rewrite <-list_fmap_compose. apply list_fmap_ext.
  intros i v _. simpl. case_match; [apply Hf|done].
Qed.

(** The same interface with other VLANs. *)
Definition same_port (l' l : LocalInterface) : Prop :=
  lif_name l' = lif_name l ∧ lif_is_peer_link l' = lif_is_peer_link l.

(** The interface [p] is replaced, and nothing else but the trace changes. *)
Definition with_lif (p : ptr) (l : LocalInterface) (f : list event → list event) (w : World) : World :=
  w <| w_lifs ::= <[p := l]> |> <| w_trace ::= f |>.

Lemma add_vlan_run p v l w :
  mallocs w → all_live (w_lifs w) (sys_lif_list (w_sys w)) → w_lifs w !! p = Some l → lif_is_peer_link l = 0 →
  ∃ l' f, local_if_add_vlan p v w = Ok 0 (with_lif p l' f w)
    ∧ vlan_set (lif_vlan_tree l') = {[v]} ∪ vlan_set (lif_vlan_tree l) ∧ same_port l' l.
Proof.
  intros Hm Hl Hp Hpl. unfold local_if_add_vlan. rewrite (deref_bind w_lifs _ _ _ _ Hp).
  assert (∃ l1 f, (match vlan_find v (lif_vlan_tree l) with
           | Some _ => mret true
           | None =>
               r ← sys (SysMalloc 48);
               if r =? 0 then mret false
               else
                 itf ← local_if_find_by_name (str "Vlan" ++ fmt_d v);
                 lif_upd p (λ l,
                   l <| lif_vlan_count ::= λ n, u32 (n + 1) |>
                     <| lif_port_config_sync := 1 |>
                     <| lif_vlan_tree ::= vlan_insert (vlan_info_init <| vid := v |> <| vlan_itf := itf |>) |>);;
                 mret true
           end) w = Ok true (with_lif p l1 f w)
      ∧ vlan_set (lif_vlan_tree l1) = {[v]} ∪ vlan_set (lif_vlan_tree l) ∧ same_port l1 l) as (l1 & f & E & Hs & Hsp).
  { destruct (vlan_find v (lif_vlan_tree l)) eqn:Ev.
    - exists l, id. assert (with_lif p l id w = w) as ->
        by (unfold with_lif; destruct w; unfold set, set_w_lifs, set_w_trace; simpl in *; by rewrite insert_id).
      split; [done|]. split; [|done]. assert (v ∈ vlan_set (lif_vlan_tree l)); [|set_solver].
      apply vlan_find_elem. by eexists.
    - rewrite sys_bind, (proj2 (Z.eqb_neq _ _)) by apply Hm. set (w1 := w <| w_trace ::= _ |>).
      rewrite (bind_ok _ _ _ _ _ (lif_find_run _ w1 Hl)). unfold lif_upd. rewrite (update_bind w_lifs p _ l) by exact Hp.
      eexists _, _. split; [reflexivity|]. split; [|done]. apply vlan_set_insert. }
  rewrite (bind_ok _ _ _ _ _ E). cbv iota beta delta [negb].
  unfold lif_upd. rewrite (update_bind w_lifs p _ l1) by apply lookup_insert_eq.
  set (l2 := set lif_vlan_tree _ l1). rewrite (deref_bind w_lifs p l2) by apply lookup_insert_eq.
  change (lif_is_peer_link l2) with (lif_is_peer_link l1). rewrite (proj2 Hsp), Hpl, Z.eqb_refl.
  exists l2, f. split; [|split; [|done]].
  - assert (set w_lifs <[p := l2]> (with_lif p l1 f w) = with_lif p l2 f w) as ->.
    { unfold with_lif. clear. destruct w as [s cs ls ps ms k i b r o lg e t].
      cbv beta iota delta [set set_w_lifs set_w_trace w_sys w_csms w_lifs w_pifs w_macs w_next w_msg_id w_csm_buf
        w_prev_state w_once_connected w_logger w_env w_trace].
      by rewrite insert_insert_eq. }
    destruct (vlan_find v (lif_vlan_tree l2)); [|done]. by rewrite andb_false_r.
  - rewrite <-Hs. by apply vlan_set_update.
Qed.

Lemma delete_alter {A} (f : A → A) (i : nat) (l : list A) : delete i (alter f i l) = delete i l.
Proof.
  revert i. induction l as [|x l IH]; intros [|i]; try done.
  change (x :: delete i (alter f i l) = x :: delete i l). by rewrite IH.
Qed.

Lemma tree_at i e w : pending_vlan_mbr_if_list (w_sys w) !! i = Some e → pending_tree i w = Ok (snd e) w.
Proof. intros H. unfold pending_tree, mbind, M_bind, gets. by rewrite H. Qed.

(** A VLAN is taken from the element [i]. *)
Lemma del_pending_run i v w :
  (i < length (pending_vlan_mbr_if_list (w_sys w)))%nat →
  ∃ l, del_pending_vlan_mbr i v w = Ok tt (with_pending l id w)
    ∧ length l = length (pending_vlan_mbr_if_list (w_sys w))
    ∧ delete i l = delete i (pending_vlan_mbr_if_list (w_sys w)).
Proof.
  intros Hi. destruct (lookup_lt_is_Some_2 _ _ Hi) as [e He]. unfold del_pending_vlan_mbr.
  rewrite (bind_ok _ _ _ _ _ (tree_at i e w He)). destruct (vlan_find v (snd e)).
  - exists (alter (λ e, (fst e, vlan_remove v (snd e))) i (pending_vlan_mbr_if_list (w_sys w))).
    split; [clear; by destruct w as [[]]|]. split; [apply length_alter|apply delete_alter].
  - exists (pending_vlan_mbr_if_list (w_sys w)). split; [unfold with_pending; by destruct w as [[]]|done].
Qed.

(** During the move: the interface is [l0], and the elements but [i] are those of [w]. *)
Record moving (p : ptr) (i : nat) (w w0 : World) (l0 : LocalInterface) : Prop := {
  mv_env : mallocs w0;
  mv_live : all_live (w_lifs w0) (sys_lif_list (w_sys w0));
  mv_lif : w_lifs w0 = <[p := l0]> (w_lifs w);
  mv_port : lif_is_peer_link l0 = 0;
  mv_len : (i < length (pending_vlan_mbr_if_list (w_sys w0)))%nat;
  mv_others : delete i (pending_vlan_mbr_if_list (w_sys w0)) = delete i (pending_vlan_mbr_if_list (w_sys w))
}.

Lemma move_loop p i w t w0 l0 :
  moving p i w w0 l0 →
  ∃ w1 l1, mforeach t (λ v, _ ← local_if_add_vlan p (vid v); del_pending_vlan_mbr i (vid v)) w0 = Ok tt w1
    ∧ moving p i w w1 l1 ∧ vlan_set (lif_vlan_tree l1) = vlan_set (lif_vlan_tree l0) ∪ vlan_set t.
Proof.
  revert w0 l0. induction t as [|v t IH]; intros w0 l0 H.
  - exists w0, l0. split; [done|]. split; [done|]. unfold vlan_set. simpl. set_solver.
  - pose proof H as [He Hl Hw Hp Hi Ho].
    destruct (add_vlan_run p (vid v) l0 w0 He Hl) as (l1 & f & E1 & S1 & [_ P1]); [by rewrite Hw, lookup_insert_eq|done|].
    destruct (del_pending_run i (vid v) (with_lif p l1 f w0) Hi) as (pl & E2 & L2 & D2).
    destruct (IH (with_pending pl id (with_lif p l1 f w0)) l1) as (w2 & l2 & E3 & H2 & S2).
    { constructor; [exact He| |change (<[p := l1]> (w_lifs w0) = <[p := l1]> (w_lifs w)); by rewrite Hw, insert_insert_eq
        |congruence|change (i < length pl)%nat; rewrite L2; exact Hi|rewrite <-Ho; exact D2].
      intros q Hq. change (is_Some (<[p := l1]> (w_lifs w0) !! q)). destruct (decide (p = q)) as [->|Hne];
        [rewrite lookup_insert_eq; by eexists|rewrite lookup_insert_ne by done; by apply Hl]. }
    exists w2, l2. split; [|split; [done|rewrite S2, S1, vlan_set_cons; set_solver]].
    simpl. by rewrite bind_assoc, (bind_ok _ _ _ _ _ E1), (bind_ok _ _ _ _ _ E2).
Qed.

(** When an interface is created, the VLANs kept for its name become its VLANs, in
    addition to those it has, and what was kept for it is dropped; the other names keep
    theirs. *)
Theorem pending_moved p l i e w :
  mallocs w → all_live (w_lifs w) (sys_lif_list (w_sys w)) → w_lifs w !! p = Some l → lif_is_peer_link l = 0 →
  list_find (λ e, str_eqb (fst e) (lif_name l) = true) (pending_vlan_mbr_if_list (w_sys w)) = Some (i, e) →
  ∃ w' l', move_pending_vlan_mbr_to_lif p w = Ok tt w'
    ∧ w_lifs w' = <[p := l']> (w_lifs w)
    ∧ vlan_set (lif_vlan_tree l') = vlan_set (lif_vlan_tree l) ∪ pending_set (lif_name l) w
    ∧ pending_vlan_mbr_if_list (w_sys w') = delete i (pending_vlan_mbr_if_list (w_sys w)).
Proof.
  intros Hm Hl Hp Hpl Hf. unfold move_pending_vlan_mbr_to_lif.
  rewrite (deref_bind w_lifs _ _ _ _ Hp). set (pl := pending_vlan_mbr_if_list (w_sys w)) in *.
  destruct (pending_alter (lif_name l) (lif_name l) pl i e id Hf) as (Hi & Hset & _).
  assert (find_pending_vlan_mbr_if (lif_name l) w = Ok (Some i) w) as Efind.
  { unfold find_pending_vlan_mbr_if, mbind, M_bind, gets, mret, M_ret. fold pl. by rewrite Hf. }
  rewrite (bind_ok _ _ _ _ _ Efind), (bind_ok _ _ _ _ _ (tree_at i e w Hi)).
  destruct (move_loop p i w (snd e) w l) as (w1 & l1 & E1 & [_ _ H1 _ _ H2] & S1).
  { split; [done|done|by rewrite insert_id|done|by eapply lookup_lt_Some|done]. }
  rewrite (bind_ok _ _ _ _ _ E1). eexists _, l1. split; [reflexivity|]. split; [exact H1|].
  split; [|exact H2]. rewrite S1. unfold pending_set. fold pl. by rewrite Hset.
Qed.

(** Ethernet8, for which the VLANs 10 and 20 were reported. *)
Definition pending_lif : LocalInterface := local_if_init <| lif_name := str "Ethernet8" |>.
Definition pending_world : World :=
  boot calm <| w_lifs := {[50 := pending_lif]} |>
    <| w_sys ::= λ s, s <| sys_lif_list := [50] |>
         <| pending_vlan_mbr_if_list := [(str "Ethernet8", [mkVLAN_ID 10 0 NULL; mkVLAN_ID 20 0 NULL])] |> |>.

Lemma pending_reports_witness : ∃ w',
  update_pending_vlan_mbr (str "Ethernet8") 30 true pending_world = Ok tt w'
  ∧ pending_set (str "Ethernet8") w' = {[30; 10; 20]}.
Proof.
  destruct (pending_reports (str "Ethernet8") 30 true pending_world) as (w' & E & H); [discriminate|reflexivity|].
  exists w'. split; [exact E|]. rewrite (H (str "Ethernet8")). vm_compute. reflexivity.
Defined.

Lemma pending_moved_witness : ∃ w' l',
  move_pending_vlan_mbr_to_lif 50 pending_world = Ok tt w' ∧ w_lifs w' = <[50 := l']> (w_lifs pending_world)
  ∧ vlan_set (lif_vlan_tree l') = {[10; 20]} ∧ pending_vlan_mbr_if_list (w_sys w') = [].
Proof.
  destruct (pending_moved 50 pending_lif 0 (str "Ethernet8", [mkVLAN_ID 10 0 NULL; mkVLAN_ID 20 0 NULL])
    pending_world) as (w' & l' & E & H1 & H2 & H3); [discriminate| |reflexivity|reflexivity|reflexivity|].
  - apply all_live_Forall. constructor; [by exists pending_lif|constructor].
  - exists w', l'. split; [exact E|]. split; [exact H1|]. split; [|exact H3]. rewrite H2. vm_compute. reflexivity.
Defined.
