(* ===== verification/ConfigFile.v ===== *)
(** * What the lines of the configuration file mean

    A line that the administrator writes for a command runs this command, for the
    domain of the last line that named one. *)

From S2P Require Import Prelude CMem CString MsgFormat State Machine Port Syncd IccpCsm Ifm Cli SyncdCfg Boot.
#[local] Open Scope Z_scope.

(** ** Lines *)

(** The commands of the file. *)
Inductive file_command : Type :=
| FileId (mid : Z)
| FileLocalIp (addr : list Z)
| FilePeerIp (addr : list Z)
| FilePeerLink (name : list Z)
| FileInterfaces (name : list Z) (names : list (list Z))
| FileSystemMac (mac : list Z).

Definition keyword (k : file_command) : string :=
  match k with
  | FileId _ => "mclag_id"
  | FileLocalIp _ => "local_ip"
  | FilePeerIp _ => "peer_ip"
  | FilePeerLink _ => "peer_link"
  | FileInterfaces _ _ => "mclag_interface"
  | FileSystemMac _ => "system_mac"
  end.

(** The names of a list, a comma before each name but the first. *)
Definition joined (name : list Z) (names : list (list Z)) : list Z := name ++ concat (map (cons 44) names).

Definition operand (k : file_command) : list Z :=
  match k with
  | FileId mid => fmt_d mid
  | FileLocalIp s | FilePeerIp s | FilePeerLink s | FileSystemMac s => s
  | FileInterfaces name names => joined name names
  end.

(** The text of a command: keyword, colon, operand. *)
Definition text (k : file_command) : list Z := str (keyword k) ++ [58] ++ operand k.

(** A character of a word. *)
Definition word_char (ch : Z) : Prop := is_space ch = false ∧ ch ≠ 0.

(** The name of an interface in a list. *)
Definition list_name (name : list Z) : Prop := name ≠ [] ∧ Forall (λ ch, word_char ch ∧ ch ≠ 44) name.

Definition command_ok (k : file_command) : Prop :=
  match k with
  | FileId mid => 0 ≤ mid < 2 ^ 31
  | FileLocalIp s | FilePeerIp s | FilePeerLink s | FileSystemMac s => Forall word_char s
  | FileInterfaces name names => Forall list_name (name :: names)
  end.

(** The array holds the line of [k]: spaces, the text, the end of the line. *)
Definition holds_line (k : file_command) (line : list Z) : Prop :=
  ∃ pre rest, Forall (λ ch, is_space ch = true) pre ∧ line = pre ++ text k ++ [10; 0] ++ rest.

(** ** The commands *)

(** The interfaces of a list, as long as no name is longer than [len]: the length of
    the name before it. *)
Fixpoint attach_list (mid : Z) (len : nat) (names : list (list Z)) : W unit :=
  match names with
  | [] => mret tt
  | name :: names' =>
      if (len <? length name)%nat then mret tt
      else
        ignore (iccp_cli_attach_mclag_domain_to_port_channel mid name);;
        attach_list mid (length name) names'
  end.

(** The bound on the first name is the length of the string that the stack happens
    to hold in the array of the names. *)
Definition attach_interfaces (mid : Z) (names : list (list Z)) : W unit :=
  token ← uninit TOKEN_SIZE;
  len ← oob (scan (λ _, true) token);
  attach_list mid len names.

Definition run_file_command (mid : Z) (k : file_command) : W unit :=
  match k with
  | FileId n => ignore (set_mc_lag_by_id (u16 n))
  | FileLocalIp s => ignore (set_local_address mid s)
  | FilePeerIp s => ignore (set_peer_address mid s)
  | FilePeerLink s => ignore (set_peer_link mid s)
  | FileInterfaces name names => attach_interfaces mid (name :: names)
  | FileSystemMac s => ignore (set_local_system_id s)
  end.

Definition domain_after (mid : Z) (k : file_command) : Z := match k with FileId n => n | _ => mid end.

Fixpoint run_file (mid : Z) (ks : list file_command) : W unit :=
  match ks with
  | [] => mret tt
  | k :: ks' => run_file_command mid k;; run_file (domain_after mid k) ks'
  end.

(** ** Facts *)

Lemma scan_all f l c rest :
  Forall (λ ch, f ch = true ∧ ch ≠ 0) l → f c && negb (c =? 0) = false →
  scan f (l ++ c :: rest) = Some (length l).
Proof.
  intros Hl Hc. induction Hl as [|ch l [Hf Hz] Hl IH]; simpl; [by rewrite Hc|].
  by rewrite Hf, (proj2 (Z.eqb_neq ch 0) Hz), IH.
Qed.

Lemma fmt_d_word n : 0 ≤ n < 2 ^ 31 → Forall word_char (fmt_d n).
Proof.
  intros Hn. unfold fmt_d. rewrite (proj2 (Z.ltb_ge n 0)) by lia.
  destruct (digits_spec 10 n []) as (l & -> & _ & Hd & _); [lia|lia|]. rewrite app_nil_r.
  eapply Forall_impl; [exact Hd|]. intros c Hc%is_digit_range. split; [|lia].
  unfold is_space. rewrite orb_false_iff, Z.eqb_neq, andb_false_iff, !Z.leb_gt. lia.
Qed.

Lemma list_name_word name : list_name name → Forall word_char name.
Proof. intros [_ H]. eapply Forall_impl; [exact H|]. by intros ch []. Qed.

Lemma joined_word name names : Forall list_name (name :: names) → Forall word_char (joined name names).
Proof.
  intros [Hn Hs]%Forall_cons. apply Forall_app_2; [by apply list_name_word|].
  induction Hs as [|m ms Hm Hs IH]; simpl; [constructor|]. constructor; [done|].
  apply Forall_app_2; [by apply list_name_word|done].
Qed.

Lemma operand_word k : command_ok k → Forall word_char (operand k).
Proof. destruct k; simpl; [apply fmt_d_word|done..|apply joined_word|done]. Qed.

Lemma keyword_word k : Forall word_char (str (keyword k)).
Proof. destruct k; by repeat constructor. Qed.

Lemma text_word k : command_ok k → Forall word_char (text k).
Proof.
  intros Hk. apply Forall_app_2; [apply keyword_word|].
  apply Forall_app_2; [by repeat constructor|by apply operand_word].
Qed.

(** The string at a position followed by a word and a terminator is this word. *)
Lemma argument_word pre l rest w :
  Forall word_char l → argument (pre ++ l ++ 0 :: rest) (length pre) w = Ok l w.
Proof.
  intros Hl. unfold argument. rewrite drop_app_length.
  rewrite (oob_bind (scan (λ _, true) (l ++ 0 :: rest)) (length l)).
  - by rewrite take_app_length.
  - apply scan_all; [|done]. eapply Forall_impl; [exact Hl|]. by intros ch [].
Qed.

Lemma has_keyword p k rest :
  command_ok k → has_prefix p (text k ++ 0 :: rest) = bool_decide (is_Some (CString.strip_prefix (str p) (text k))).
Proof.
  intros Hk. unfold has_prefix. rewrite cstr_app_nul; [done|].
  eapply Forall_impl; [by apply text_word|]. by intros ch [].
Qed.

Lemma operand_argument k pre rest w :
  command_ok k →
  argument (pre ++ text k ++ 0 :: rest) (length pre + String.length (keyword k) + 1) w = Ok (operand k) w.
Proof.
  intros Hk. replace (length pre + String.length (keyword k) + 1)%nat with (length (pre ++ str (keyword k) ++ [58])).
  - unfold text. rewrite <-!app_assoc. rewrite !(app_assoc pre), (app_assoc (pre ++ str (keyword k))).
    rewrite <-(app_assoc pre). apply argument_word. by apply operand_word.
  - rewrite !length_app. destruct k; simpl; lia.
Qed.

Lemma ignore_bind {A B} (m : W A) (k : W B) w : (ignore m;; k) w = (_ ← m; k) w.
Proof. unfold ignore, mbind, M_bind. by destruct (m w). Qed.

Lemma atoi_fmt_d n : 0 ≤ n < 2 ^ 31 → atoi (fmt_d n) = n.
Proof.
  intros Hn. unfold atoi. rewrite cstr_id by apply fmt_d_nonzero.
  by rewrite <-(app_nil_r (fmt_d n)), scan_d_fmt_d.
Qed.

(** ** Lists of interfaces *)

(** The interface a string names depends on the characters up to its terminator. *)
Lemma attach_cstr mid a b : cstr a = cstr b →
  iccp_cli_attach_mclag_domain_to_port_channel mid a = iccp_cli_attach_mclag_domain_to_port_channel mid b.
Proof.
  intros H. unfold iccp_cli_attach_mclag_domain_to_port_channel, mlacp_bind_port_channel_to_csm,
    local_if_find_by_name, has_prefix, str_eqb, snprintf_s. by rewrite H.
Qed.

Lemma list_name_scan name c rest : list_name name → is_separator c || (c =? 0) = true →
  scan (λ ch, negb (is_separator ch)) (name ++ c :: rest) = Some (length name).
Proof.
  intros [_ Hn] Hc. apply scan_all.
  - eapply Forall_impl; [exact Hn|]. intros ch [[Hs Hz] H44]. split; [|done].
    unfold is_space, is_separator in *. rewrite orb_false_iff, Z.eqb_neq, andb_false_iff, !Z.leb_gt in Hs.
    rewrite negb_true_iff, !orb_false_iff, !Z.eqb_neq. lia.
  - destruct (is_separator c); [done|]. simpl in *. by rewrite Hc.
Qed.

(** The string the array holds after a name was copied to it. *)
Lemma token_scan len token name :
  scan (λ _, true) token = Some len → (length name ≤ len)%nat → list_name name →
  ∃ token', put 0 (name ++ [0]) token = Some token' ∧ scan (λ _, true) token' = Some (length name)
    ∧ cstr token' = cstr name.
Proof.
  intros Hs Hl Hn. assert (len < length token)%nat as Hlen.
  { clear Hl. revert len Hs. induction token as [|ch t IH]; intros len; simpl; [done|].
    destruct (ch =? 0); simpl; [intros [= <-]; lia|]. destruct (scan _ t) as [n|]; [|done].
    intros [= <-]. specialize (IH n eq_refl). lia. }
  assert (Forall (λ c, c ≠ 0) name) as Hz.
  { eapply Forall_impl; [by apply list_name_word|]. by intros ch []. }
  exists (name ++ 0 :: drop (length name + 1) token). split; [|split].
  - unfold put. rewrite length_app. simpl. rewrite (proj2 (Nat.leb_le _ _)) by lia.
    by rewrite <-app_assoc.
  - apply scan_all; [|done]. eapply Forall_impl; [exact Hz|done].
  - by rewrite cstr_app_nul, cstr_id.
Qed.

Lemma joined_cons name m ms c rest :
  joined name (m :: ms) ++ c :: rest = name ++ 44 :: joined m ms ++ c :: rest.
Proof. unfold joined. rewrite <-app_assoc. simpl. by rewrite <-!app_assoc. Qed.

(** A list begins with a character of a name. *)
Lemma joined_head m ms c rest : list_name m →
  ∃ ch tail, joined m ms ++ c :: rest = ch :: tail ∧ ch ≠ 0
    ∧ (is_space ch || is_separator ch) && negb (ch =? 0) = false.
Proof.
  intros [Hm0 Hm]. destruct m as [|ch m]; [done|]. apply Forall_cons in Hm as [[[Hsp Hz] H44] _].
  exists ch. eexists. split; [reflexivity|]. split; [done|]. apply andb_false_intro1.
  rewrite Hsp. unfold is_space, is_separator in *.
  rewrite orb_false_iff, Z.eqb_neq, andb_false_iff, !Z.leb_gt in Hsp.
  rewrite !orb_false_iff, !Z.eqb_neq. lia.
Qed.

(** One round: a name and the separators behind it. *)
Lemma attach_round f mid pre name c tail token token' len skip ch w :
  list_name name → is_separator c || (c =? 0) = true →
  scan (λ _, true) token = Some len → (length name ≤ len)%nat →
  put 0 (name ++ [0]) token = Some token' → cstr token' = cstr name →
  scan (λ ch, is_space ch || is_separator ch) (c :: tail) = Some skip → (c :: tail) !! skip = Some ch →
  attach_names (S f) mid (pre ++ name ++ c :: tail) (length pre) token w
  = (_ ← iccp_cli_attach_mclag_domain_to_port_channel mid name;
     if ch =? 0 then mret 1
     else attach_names f mid (pre ++ name ++ c :: tail) (length pre + length name + skip) token') w.
Proof.
  intros Hn Hc Ht Hl Hp Hs Hk Hch. cbn [attach_names]. rewrite drop_app_length.
  rewrite (oob_bind _ _ _ _ (list_name_scan _ _ _ Hn Hc)), (oob_bind _ _ _ _ Ht).
  rewrite (proj2 (Nat.ltb_ge _ _) Hl), take_app_length, (oob_bind _ _ _ _ Hp), (attach_cstr mid _ _ Hs).
  apply weq_bind_r. intros r w'.
  rewrite (oob_bind _ skip).
  - rewrite (oob_bind _ ch); [done|].
    rewrite lookup_app_r, lookup_app_r by lia. rewrite <-Hch. f_equal. lia.
  - by rewrite <-(length_app pre), app_assoc, drop_app_length.
Qed.

Lemma attach_names_list mid names : ∀ name fuel pre rest len token w,
  Forall list_name (name :: names) → scan (λ _, true) token = Some len → (length names < fuel)%nat →
  ignore (attach_names fuel mid (pre ++ joined name names ++ 0 :: rest) (length pre) token) w
  = attach_list mid len (name :: names) w.
Proof.
  induction names as [|m ms IH]; intros name fuel pre rest len token w [Hn Hs]%Forall_cons Ht Hf;
    (destruct fuel as [|f]; [simpl in Hf; lia|]).
  all: destruct (len <? length name)%nat eqn:Hl; simpl attach_list; rewrite Hl.
  - unfold joined, ignore. simpl. rewrite app_nil_r, drop_app_length. unfold mbind, M_bind.
    rewrite (list_name_scan _ _ _ Hn), Ht by done. simpl. by rewrite Hl.
  - apply Nat.ltb_ge in Hl. destruct (token_scan _ _ _ Ht Hl Hn) as (token' & Hp & _ & Hc).
    unfold joined, ignore. simpl concat. rewrite app_nil_r.
    unfold mbind at 1, M_bind at 1. rewrite (attach_round f mid pre name 0 rest token token' len 0 0 w) by done.
    unfold mbind, M_bind. by destruct (iccp_cli_attach_mclag_domain_to_port_channel mid name w).
  - unfold joined, ignore. simpl. rewrite <-!app_assoc, drop_app_length. simpl. unfold mbind, M_bind.
    rewrite (list_name_scan _ _ _ Hn), Ht by done. simpl. by rewrite Hl.
  - apply Nat.ltb_ge in Hl. destruct (token_scan _ _ _ Ht Hl Hn) as (token' & Hp & Ht' & Hc).
    pose proof Hs as [Hm _]%Forall_cons. destruct (joined_head m ms 0 rest Hm) as (ch & tail & Hj & Hz & Hk).
    rewrite joined_cons. unfold ignore. unfold mbind at 1, M_bind at 1.
    rewrite (attach_round f mid pre name 44 _ token token' len 1 ch w); [|done..| |by rewrite Hj].
    2:{ rewrite Hj. simpl. by rewrite Hk. }
    rewrite (proj2 (Z.eqb_neq ch 0) Hz). unfold mbind, M_bind.
    destruct (iccp_cli_attach_mclag_domain_to_port_channel mid name w) as [r w'|]; [|done].
    etrans; [|apply (IH m f (pre ++ name ++ [44]) rest (length name) token' w' Hs Ht'); simpl in Hf; lia].
    unfold ignore, mbind, M_bind. rewrite !length_app, <-!app_assoc. simpl. by rewrite Nat.add_assoc.
Qed.

Lemma joined_length name names : (length names ≤ length (joined name names))%nat.
Proof.
  unfold joined. rewrite length_app. induction names as [|m ms IH]; simpl; [lia|]. rewrite length_app. lia.
Qed.

(** The list of a line attaches its interfaces. *)
Lemma attach_line mid name names pre rest w :
  Forall list_name (name :: names) →
  let k := FileInterfaces name names in
  let line := pre ++ text k ++ 0 :: rest in
  (token ← uninit TOKEN_SIZE;
   ignore (attach_names (length line + 2) mid line (length pre + String.length (keyword k) + 1) token)) w
  = attach_interfaces mid (name :: names) w.
Proof.
  intros Hs k line. unfold attach_interfaces. apply weq_bind_r. clear w. intros token w.
  replace line with ((pre ++ str (keyword k) ++ [58]) ++ joined name names ++ 0 :: rest)
    by (unfold line, text; by rewrite <-!app_assoc).
  replace (length pre + String.length (keyword k) + 1)%nat with (length (pre ++ str (keyword k) ++ [58]))
    by (rewrite !length_app; simpl; lia).
  set (pre' := pre ++ _ ++ _). clearbody pre'. destruct (scan (λ _, true) token) as [len|] eqn:Ht.
  - rewrite (oob_bind _ len) by done. apply attach_names_list; [done..|].
    pose proof (joined_length name names). rewrite !length_app. lia.
  - apply Forall_cons in Hs as [Hn _]. rewrite Nat.add_comm. unfold ignore. simpl. rewrite drop_app_length.
    assert (∃ c tail, joined name names ++ 0 :: rest = name ++ c :: tail ∧ is_separator c || (c =? 0) = true)
      as (c & tail & -> & Hc).
    { destruct names as [|m ms]; [exists 0, rest; unfold joined; by rewrite app_nil_r|].
      rewrite joined_cons. by eexists 44, _. }
    unfold mbind, M_bind. by rewrite (list_name_scan _ _ _ Hn Hc), Ht.
Qed.

(** A line runs its command. *)
Lemma config_line mid k line w :
  command_ok k → holds_line k line →
  (r ← iccp_config_from_command mid line; mret (fst r)) w = (run_file_command mid k;; mret (domain_after mid k)) w.
Proof.
  intros Hk (pre & rest & Hpre & ->). pose proof (text_word k Hk) as Ht.
  assert (∃ c t, text k = c :: t ∧ word_char c) as (c & t & Ec & Hc).
  { destruct (text k) as [|c t] eqn:E; [by destruct k|]. exists c, t. split; [done|]. by inversion Ht. }
  unfold iccp_config_from_command. rewrite weq_assoc.
  rewrite (oob_bind _ (length pre)).
  2:{ rewrite Ec. apply scan_all; [|by rewrite (proj1 Hc)].
      eapply Forall_impl; [exact Hpre|]. intros ch Hch. split; [done|]. by intros ->. }
  rewrite weq_assoc, (oob_bind _ c) by (rewrite Ec, lookup_app_r, Nat.sub_diag by lia; done).
  rewrite (proj2 (Z.eqb_neq c 0) (proj2 Hc)), drop_app_length.
  rewrite weq_assoc, (oob_bind _ (length (text k))).
  2:{ apply scan_all; [|done]. eapply Forall_impl; [exact Ht|]. intros ch [Hs Hz]. by rewrite Hs. }
  replace (<[(length pre + length (text k))%nat:=0]> (pre ++ text k ++ [10; 0] ++ rest))
    with (pre ++ text k ++ 0 :: 0 :: rest).
  2:{ rewrite insert_app_r, insert_app_r_alt, Nat.sub_diag by lia. done. }
  cbv zeta. rewrite !drop_app_length, !has_keyword by done.
  pose proof (operand_argument k pre (0 :: rest) w Hk) as Ha.
  pose proof (λ name names, attach_line mid name names pre (0 :: rest) w) as Hi.
  destruct k; cbn [text keyword operand] in *;
    repeat match goal with |- context [bool_decide ?P] =>
      let b := eval vm_compute in (bool_decide P) in change (bool_decide P) with b end; cbv iota.
  5:{ cbn [run_file_command domain_after]. rewrite weq_assoc. unfold mbind at 4, M_bind at 4.
      rewrite <-(Hi name names Hk). unfold ignore, mbind, M_bind.
      destruct (uninit TOKEN_SIZE w) as [token w1|]; [|done].
      by destruct (attach_names _ mid _ _ token w1). }
  all: rewrite weq_assoc, (bind_ok _ _ _ _ _ Ha), ?atoi_fmt_d by exact Hk; cbn [run_file_command domain_after];
    rewrite ignore_bind; apply weq_assoc.
Qed.


(** The file of a small domain. *)
Definition sample_file : list file_command :=
  [FileId 100; FileLocalIp (str "10.0.0.3"); FilePeerIp (str "10.0.0.2"); FilePeerLink (str "PortChannel3");
   FileInterfaces (str "PortChannel12") [str "PortChannel7"]; FileSystemMac (str "00:1b:ff:02:a9:70")].


