(* ===== verification/Findings.v ===== *)
(** * Deviations of the code from its intention

    Facts about the modelled functions that show where the code does not do what its
    comments or its other half intend. *)

From S2P Require Import Prelude CMem CString MsgFormat ShowFormat State Machine IccpMsg IccpQueue SyncPrepare Port Syncd Standby.
From S2P Require Import MacTable LinkHandler NeighUpdate NeighLearn AppCsm IccpCsm Ifm Cli SyncdCfg MlacpFsm Scheduler SyncdRecv.
From S2P Require Import EventLoop Boot Show Ctl SyncdStream.
#[local] Open Scope Z_scope.

(** ** Neighbour discovery: a change of a known entry is lost *)

Lemma memcmp_self a : negb (memcmp a a =? 0) = false.
Proof. by rewrite memcmp_refl. Qed.

(** The test for a change compares the stored entry with itself: a known IPv6 neighbour
    that is reported with another link-layer address or interface is neither
    rewritten nor announced to the peer; the ARP function compares with the report. *)
Lemma ndisc_change_lost c x i m d buf w :
  w_csms w !! c = Some x → neigh_index ndisc_kind d 0 (ndisc_list (MLACP x)) w = Ok (Some i) w →
  ndisc_list (MLACP x) !! i = Some m → (sizeof NDISCMsg ≤ length (msg_buf m))%nat →
  learn_from_kernel ndisc_kind ndisc_same_entry c d RTM_NEWNEIGH buf w = Ok tt w.
Proof.
  intros Hx Hi Hm Hlen. unfold learn_from_kernel. rewrite (deref_bind w_csms _ _ _ _ Hx).
  cbn [nk_list ndisc_kind]. rewrite (bind_ok _ _ _ _ _ Hi). simpl (RTM_NEWNEIGH =? RTM_DELNEIGH). cbv iota.
  rewrite (oob_bind _ _ _ _ Hm). assert (ndisc_same_entry d m w = Ok false w) as E.
  { unfold ndisc_same_entry, field_u8, field_bytes. revert Hlen. eval_layout. intros Hlen.
    destruct (lookup_lt_is_Some_2 (msg_buf m) 0) as [op Hop]; [lia|]. rewrite (oob_bind _ _ _ _ Hop).
    assert (∀ o n, (o + n ≤ 48)%nat → ∃ b, rd_bytes o n (msg_buf m) = Some b) as Hrd.
    { intros o n Ho. unfold rd_bytes. rewrite leb_correct by lia. by eexists. }
    destruct (Hrd 3%nat MAX_L_PORT_NAME) as [name Hn]; [unfold MAX_L_PORT_NAME; lia|]. rewrite (oob_bind _ _ _ _ Hn).
    destruct (Hrd 40%nat ETHER_ADDR_LEN) as [mac Hmac]; [unfold ETHER_ADDR_LEN; lia|]. rewrite (oob_bind _ _ _ _ Hmac).
    by rewrite Z.eqb_refl, str_eqb_refl, memcmp_self. }
  by rewrite (bind_ok _ _ _ _ _ E).
Qed.

(** ** Reception from mclagsyncd *)

(** After an attempt that failed, a reception of [n] bytes counts as [n - 1]: the last
    byte of the last message is missing. *)
Lemma syncd_retry_loses_byte buf buf' w w1 w2 e n :
  syncd_recv buf w = Ok (e, buf) w1 → e < 0 → syncd_recv buf w1 = Ok (n, buf') w2 → 0 < n →
  syncd_recv_first buf w = Ok (Some (n - 1, buf')) w2.
Proof.
  intros E1 He E2 Hn. unfold syncd_recv_first. rewrite (bind_ok _ _ _ _ _ E1).
  rewrite (proj2 (Z.eqb_neq e 0)), (proj2 (Z.ltb_lt e 0)) by lia.
  change (Z.to_nat SYNCD_RECV_RETRY_MAX + 2)%nat with 7%nat. cbn [syncd_recv_retry].
  rewrite (bind_ok _ _ _ _ _ E2), (proj2 (Z.ltb_ge n 0)), (proj2 (Z.eqb_neq n 0)) by lia.
  by replace (-1 + n) with (n - 1) by lia.
Qed.

(** ** A header shorter than a header *)

(** Only the length 0 is refused: for the lengths 1 to 3 the number of entries is the remainder of
    a difference that wrapped, and the handler of MAC addresses reads behind the message. *)
Lemma short_header_overrun len w :
  1 ≤ len ≤ 3 → 0 < entry_count len mclag_fdb_info
    ∧ iccp_receive_fdb_handler_from_syncd [1; MCLAG_SYNCD_MSG_TYPE_FDB_OPERATION; len; 0] w = Fault OutOfBounds.
Proof.
  intros Hl. assert (0 < entry_count len mclag_fdb_info) as Hc.
  { assert (len = 1 ∨ len = 2 ∨ len = 3) as [-> | [-> | ->]] by lia; vm_compute; reflexivity. }
  split; [done|]. unfold iccp_receive_fdb_handler_from_syncd, read_count. rewrite bind_assoc.
  rewrite (oob_bind _ len) by (unfold rd16; simpl; f_equal; lia).
  destruct (Z.to_nat (entry_count len mclag_fdb_info)) as [|n] eqn:E; [lia|].
  change (n0 ← mret (S n); ?k n0) with (k (S n)). reflexivity.
Qed.

(** A connection that was closed keeps its descriptor, so the daemon does not connect
    again: the next round finds a descriptor. *)
Lemma closed_syncd_kept w : recv_fails w → 0 < sync_fd (w_sys w) →
  ∃ w', iccp_mclagsyncd_msg_handler w = Ok MCLAG_ERROR w' ∧ iccp_connect_syncd w' = Ok 0 w'.
Proof.
  intros Hr Hfd. destruct (first_reception_fails g_iccp_mlagsyncd_recv_buf w
    (λ n b, syncd_messages (S (S (Z.to_nat n))) n 0 0 b) Hr) as (w' & E & tr & a & b & c & d & ->).
  eexists. split; [exact E|]. unfold iccp_connect_syncd, mbind, M_bind, gets.
  change (sync_fd (w_sys _)) with (sync_fd (w_sys w)). rewrite Z.geb_leb.
  by rewrite (proj2 (Z.leb_le 0 (sync_fd (w_sys w)))) by lia.
Qed.

(** The variables of the loop over the unique addresses are not reset: an interface
    without an IPv4 address is announced with one when an earlier one had it. *)
Lemma unique_ip_stale op lif v w r w' :
  ui_v4 v = true → unique_ip_lif op lif v w = Ok r w' → ui_v4 r = true.
Proof.
  intros Hv. unfold unique_ip_lif, mbind, M_bind, deref. destruct (w_lifs w !! lif) as [l|] eqn:El; [|done].
  assert (∀ m (o : outcome World unit) z, match o with Ok _ s => Ok (z : unique_ip_vars) s | Fault f => Fault f end = Ok r w' →
    m = z → ui_v4 m = true → ui_v4 r = true) as H.
  { intros m [[] s|f] z; [|done]. by intros [= <- _] ->. }
  unfold lif_upd, update, mret, M_ret.
  destruct (op =? MCLAG_CFG_OPER_ADD); [|destruct (op =? MCLAG_CFG_OPER_DEL)]; cbv beta; rewrite ?El; intros E;
    (eapply H; [exact E|reflexivity|]); simpl; by rewrite ?Hv.
Qed.

(** ** Packets and addresses *)

(** An option that ends behind the packet makes the rest negative, and a negative rest
    passes for a large one: the address is taken from behind the packet.  The packet
    is the first 28 bytes here. *)
Lemma nd_option_overrun w :
  nd_options 8 (replicate 24 0 ++ [1; 1; 0; 0] ++ replicate 4 0 ++ [ND_OPT_TARGET_LL_ADDR; 1; 9; 9; 9; 9; 9; 9]) 24 4 w
  = Ok (Some [9; 9; 9; 9; 9; 9]) w.
Proof. reflexivity. Qed.

(** An address of 16 characters is accepted and fills the array without a terminator. *)
Lemma address_unterminated : copy_address (replicate 16 49) = Some (replicate 16 49).
Proof. reflexivity. Qed.

(** ** State machines *)

(** A MAC entry that is aged here and not by the peer stays in the tree while its
    deletion is queued; when the queue is cleared the entry is freed, and the walk over
    the tree that follows reads it. *)
Definition aged_entry : World :=
  with_csm 1 (set_MLACP (λ m, m <| mac_rb := [30] |> <| mlacp_current_state := MLACP_STATE_EXCHANGE |>) (session_csm 100))
    (boot calm) <| w_macs := {[30 := mac_key 10 [2; 0; 0; 0; 0; 9]]} |>.

Lemma aged_entry_freed : (mac_set_age 1 30 1 1;; mlacp_mac_msg_queue_reinit 1) aged_entry = Fault DanglingDeref.
Proof. vm_compute. reflexivity. Qed.

(** A request for synchronisation that comes in the exchange state is answered, and then
    moves the machine on to the state behind it, which is the error state. *)
Definition exchanging : World :=
  with_csm 1 (set_MLACP (set mlacp_current_state (λ _, MLACP_STATE_EXCHANGE)) (session_csm 100)) (boot calm).

Definition state_after (o : outcome World unit) : option Z :=
  match o with
  | Ok _ w => (λ x, mlacp_current_state (MLACP x)) <$> w_csms w !! 1
  | Fault _ => None
  end.

Lemma exchange_left_on_request :
  state_after (mlacp_sync_send_all_info_handler 1 exchanging) = Some MLACP_STATE_ERROR.
Proof. vm_compute. reflexivity. Qed.

(** The disconnection clears the pointer to the peer link, so the code that clears the
    mark of the interface after it is never reached: an interface that is no longer the
    peer link keeps its mark. *)
Definition linked_world : World :=
  with_csm 1 (session_csm 100 <| peer_link_if := 40 |> <| peer_itf_name := str "PortChannel1" ++ replicate 4 0 |>)
    (boot calm)
    <| w_lifs := {[40 := local_if_init <| lif_name := str "PortChannel1" ++ replicate 8 0 |> <| lif_is_peer_link := 1 |>]} |>
    <| w_sys ::= set sys_lif_list (λ _, [40]) |>.

Definition mark_after (o : outcome World Z) : option Z :=
  match o with Ok _ w => lif_is_peer_link <$> w_lifs w !! 40 | Fault _ => None end.

Lemma peer_link_mark_kept : mark_after (unset_peer_link 100 linked_world) = Some 1.
Proof. vm_compute. reflexivity. Qed.

(** ** The configuration file *)

(** The names in a list of interfaces are bounded by the length of the name before, so a
    list whose second name is longer is refused, whatever the array held at first. *)
Definition result_of {A} (o : outcome World A) : option A :=
  match o with Ok a _ => Some a | Fault _ => None end.

Lemma longer_name_refused :
  result_of (attach_names 3 100 (str "PortChannel1,PortChannel10" ++ [0]) 0 (replicate 63 65 ++ [0]) (boot calm))
  = Some MCLAG_ERROR.
Proof. vm_compute. reflexivity. Qed.

(** ** The show commands *)

(** The length of the list of port channels goes on from the machine before, and the list
    of the next machine is written behind a zero: it is shown empty. *)
Definition channel_world : World :=
  boot calm <| w_lifs := {[40 := local_if_init <| lif_name := str "PortChannel1" ++ replicate 8 0 |>
                                               <| lif_type := IF_T_PORT_CHANNEL |>]} |>.

Lemma second_domain_without_channels :
  match result_of (enabled_po [40] 0 channel_world) with
  | Some (po, len) => cstr po = str "PortChannel1"
      ∧ (λ r, cstr (fst r)) <$> result_of (enabled_po [40] len channel_world) = Some []
  | None => False
  end.
Proof. vm_compute. split; reflexivity. Qed.

(** A VLAN of four digits is printed with room for three of them. *)
Lemma vlan_cut :
  (λ b, drop 55 (cstr b)) <$> vlanlist ((λ v, mkVLAN_ID v 0 NULL)
     <$> [10; 12; 14; 1000; 1002; 1004; 1006; 1008; 1010; 1012; 1014; 1016; 1018; 4094])
  = Some (str "018 409").
Proof. vm_compute. reflexivity. Qed.

(** The reply to a change of the log level has no data, and the client reads an [int] of it. *)
Lemma loglevel_reply_empty k : mclagdctl_parse_config_loglevel [] 0 k = Fault OutOfBounds.
Proof. reflexivity. Qed.

(** The name of an unknown type is copied without its last letter. *)
Lemma unknown_type_cut : if_type_text 6 IF_T_UNKNOW = str "Unknow".
Proof. reflexivity. Qed.
