(* ===== verification/MacTree.v ===== *)
(** * The tree of MAC entries

    The tree of a state machine holds each VLAN and address once, in the order of
    [MACMsg_compare]; insertion and removal keep it so, and a lookup finds exactly the
    entry of its key. *)

From Stdlib Require Import Sorted.
From S2P Require Import Prelude CMem CString MsgFormat State Machine Port Lookup MacTable Boot.
#[local] Open Scope Z_scope.

(** ** The order *)

Lemma memcmp_values a b : memcmp a b = -1 ∨ memcmp a b = 0 ∨ memcmp a b = 1.
Proof.
  revert b. induction a as [|x a IH]; intros [|y b]; simpl; auto.
  destruct (x <? y); [auto|]. destruct (y <? x); auto.
Qed.

Lemma memcmp_trans a b c :
  length a = length b → length b = length c → memcmp a b = -1 → memcmp b c = -1 → memcmp a c = -1.
Proof.
  revert b c. induction a as [|x a IH]; intros [|y b] [|z c]; simpl; try done. intros [= H1] [= H2].
  destruct (Z.ltb_spec x y), (Z.ltb_spec y x), (Z.ltb_spec y z), (Z.ltb_spec z y), (Z.ltb_spec x z),
    (Z.ltb_spec z x); try done; try lia. by apply IH.
Qed.

(** The entries of a switch have addresses of six bytes. *)
Definition mac_wf (m : MACMsg) : Prop := length (mac_addr m) = ETHER_ADDR_LEN.

Definition mac_lt (m n : MACMsg) : Prop := MACMsg_compare m n = -1.

(** The same VLAN and address. *)
Definition same_key (m n : MACMsg) : Prop := mac_vid m = mac_vid n ∧ mac_addr m = mac_addr n.

Lemma compare_values m n : MACMsg_compare m n = -1 ∨ MACMsg_compare m n = 0 ∨ MACMsg_compare m n = 1.
Proof. unfold MACMsg_compare. repeat case_match; auto. Qed.

Lemma compare_zero m n : mac_wf m → mac_wf n → (MACMsg_compare m n = 0 ↔ same_key m n).
Proof.
  intros Hm Hn. unfold MACMsg_compare, same_key. rewrite !Z.gtb_ltb. split.
  - destruct (Z.ltb_spec (mac_vid m) (mac_vid n)); [done|]. destruct (Z.ltb_spec (mac_vid n) (mac_vid m)); [done|].
    destruct (Z.ltb_spec (memcmp (mac_addr m) (mac_addr n)) 0); [done|].
    destruct (Z.ltb_spec 0 (memcmp (mac_addr m) (mac_addr n))); [done|]. intros _. split; [lia|].
    apply memcmp_eq; [by unfold mac_wf in *; congruence|lia].
  - intros [-> ->]. by rewrite memcmp_refl, Z.ltb_irrefl.
Qed.

Lemma compare_antisym m n : MACMsg_compare n m = - MACMsg_compare m n.
Proof.
  unfold MACMsg_compare. rewrite (memcmp_antisym (mac_addr m) (mac_addr n)), !Z.gtb_ltb.
  destruct (Z.ltb_spec (mac_vid m) (mac_vid n)), (Z.ltb_spec (mac_vid n) (mac_vid m)); try lia.
  destruct (memcmp_values (mac_addr m) (mac_addr n)) as [-> | [-> | ->]]; done.
Qed.

Lemma mac_lt_trans m n o : mac_wf m → mac_wf n → mac_wf o → mac_lt m n → mac_lt n o → mac_lt m o.
Proof.
  unfold mac_lt, MACMsg_compare, mac_wf. rewrite !Z.gtb_ltb. intros Hm Hn Ho.
  pose proof (memcmp_trans (mac_addr m) (mac_addr n) (mac_addr o)) as T.
  destruct (memcmp_values (mac_addr m) (mac_addr n)) as [E1 | [E1 | E1]],
    (memcmp_values (mac_addr n) (mac_addr o)) as [E2 | [E2 | E2]]; rewrite ?E1, ?E2; simpl;
    destruct (Z.ltb_spec (mac_vid m) (mac_vid n)), (Z.ltb_spec (mac_vid n) (mac_vid m)),
      (Z.ltb_spec (mac_vid n) (mac_vid o)), (Z.ltb_spec (mac_vid o) (mac_vid n)),
      (Z.ltb_spec (mac_vid m) (mac_vid o)), (Z.ltb_spec (mac_vid o) (mac_vid m)); try done; try lia.
  all: intros _ _; rewrite T by (done || congruence); done.
Qed.

(** ** The tree *)

(** The tree [l] in the heap [h], with its entries [ms]. *)
Record mac_tree (h : gmap Z MACMsg) (l : list ptr) (ms : list MACMsg) : Prop := {
  mt_entries : Forall2 (λ p m, h !! p = Some m) l ms;
  mt_wf : Forall mac_wf ms;
  mt_sorted : StronglySorted mac_lt ms
}.

Lemma mac_tree_live h l ms : mac_tree h l ms → all_live h l.
Proof.
  intros [He _ _] p Hp. apply list_elem_of_lookup in Hp as [i Hi].
  destruct (Forall2_lookup_l _ _ _ _ _ He Hi) as (m & _ & Hm). by exists m.
Qed.

Lemma mac_lt_all m n l :
  mac_wf m → mac_wf n → mac_lt m n → Forall mac_wf l → Forall (mac_lt n) l → Forall (mac_lt m) l.
Proof.
  intros Hm Hn Hlt Hw H. rewrite Forall_forall in Hw, H |- *. intros o Ho.
  apply mac_lt_trans with n; auto.
Qed.

Lemma mac_lt_key m n : mac_wf m → mac_wf n → mac_lt m n → ¬ same_key m n.
Proof. unfold mac_lt. intros Hm Hn H K%compare_zero; [|done..]. lia. Qed.

(** The entry of [m] is placed in order, unless its key is there. *)
Lemma place_run m p l ms w :
  mac_wf m → w_macs w !! p = Some m → mac_tree (w_macs w) l ms →
  ∃ t ts, mac_rb_place m p l w = Ok t w ∧ mac_tree (w_macs w) t ts
    ∧ ((Exists (same_key m) ms ∧ t = l ∧ ts = ms)
       ∨ (Forall (λ n, ¬ same_key m n) ms ∧ t ≡ₚ p :: l ∧ ts ≡ₚ m :: ms)).
Proof.
  intros Hm Hp. revert ms. induction l as [|q l IH]; intros ms [He Hw Hs].
  - inversion He; subst. exists [p], [m]. split; [done|]. split; [|by right].
    split; [by repeat constructor|by repeat constructor|by repeat constructor].
  - inversion He as [|? n ? ms' Hq He' E1 E2]; subst. inversion Hw as [|? ? Hn Hw']; subst.
    apply StronglySorted_inv in Hs as [Hs Hlt]. simpl. rewrite (deref_bind w_macs _ _ _ _ Hq).
    pose proof (compare_zero m n Hm Hn) as Hz.
    destruct (compare_values m n) as [E | [E | E]]; rewrite E; simpl.
    + exists (p :: q :: l), (m :: n :: ms'). pose proof (mac_lt_all m n ms' Hm Hn E Hw' Hlt) as Hall.
      split; [done|]. split; [split; [by repeat constructor|by repeat constructor|by repeat constructor]|].
      right. split; [|done]. constructor; [by apply mac_lt_key|].
      rewrite Forall_forall in Hw', Hall |- *. intros o Ho. apply mac_lt_key; auto.
    + exists (q :: l), (n :: ms'). split; [done|]. split; [by split; [..|by constructor]|]. left.
      split; [|done]. by constructor; apply Hz.
    + destruct (IH ms') as (t & ts & Ep & [Te Tw Ts] & Hcase); [by split|]. rewrite (bind_ok _ _ _ _ _ Ep).
      assert (mac_lt n m) as Hnm by (unfold mac_lt; rewrite compare_antisym; lia).
      exists (q :: t), (n :: ts). split; [done|]. split.
      * split; [by constructor|by constructor|]. constructor; [done|].
        destruct Hcase as [(_ & _ & ->)|(_ & _ & ->)]; [done|by constructor].
      * destruct Hcase as [(Hx & -> & ->)|(Hx & Pt & Pm)]; [left|right].
        -- split; [by apply Exists_cons_tl|done].
        -- split; [|split; [rewrite Pt; constructor|rewrite Pm; constructor]]. constructor; [|done].
           intros K%Hz. lia.
Qed.

(** The lookup of a key. *)
Lemma find_run key l ms w :
  mac_wf key → mac_tree (w_macs w) l ms →
  ∃ q, mac_rb_find key l w = Ok q w
    ∧ (∀ p m, p ∈ l → w_macs w !! p = Some m → same_key key m → q = p)
    ∧ (Forall (λ m, ¬ same_key key m) ms → q = NULL).
Proof.
  intros Hk Ht. pose proof (mac_tree_live _ _ _ Ht) as Hl. unfold mac_rb_find.
  rewrite (mfind_run w_macs (λ m, MACMsg_compare key m =? 0)) by done. eexists. split; [done|].
  destruct Ht as [He Hw Hs]. clear Hl. revert ms He Hw Hs. induction l as [|q l IH]; intros ms He Hw Hs.
  { split; [by intros p m Hp%elem_of_nil|done]. }
  inversion He as [|? n ? ms' Hq He' E1 E2]; subst. inversion Hw as [|? ? Hn Hw']; subst.
  apply StronglySorted_inv in Hs as [Hs Hlt]. simpl. rewrite Hq.
  destruct (IH ms' He' Hw' Hs) as [IH1 IH2]. pose proof (compare_zero key n Hk Hn) as Hz.
  destruct (Z.eqb_spec (MACMsg_compare key n) 0) as [E|E]; split.
  - intros p m [->|Hp]%elem_of_cons Hm K; [done|]. exfalso.
    apply list_elem_of_lookup in Hp as [i Hi]. destruct (Forall2_lookup_l _ _ _ _ _ He' Hi) as (m' & Hi' & Hm').
    replace m' with m in * by congruence. rewrite Forall_lookup in Hlt, Hw'.
    apply (mac_lt_key n m); [done|by eapply Hw'|by eapply Hlt|].
    apply Hz in E as [E1 E2]. destruct K. split; congruence.
  - intros H. inversion H. by destruct H2; apply Hz.
  - intros p m [->|Hp]%elem_of_cons Hm K; [|by eapply IH1]. replace m with n in * by congruence. by apply Hz in K.
  - intros H. apply IH2. by inversion H.
Qed.

(** Removal of an entry of the tree takes away this entry and no other. *)
Lemma tree_delete h p m l ms : mac_tree h l ms → p ∈ l → h !! p = Some m →
  ∃ ms', mac_tree h (list_del p l) ms' ∧ ms ≡ₚ m :: ms' ∧ Forall (λ n, ¬ same_key m n) ms'.
Proof.
  intros [He Hw Hs] Hp Hm. revert ms He Hw Hs. induction l as [|q l IH]; intros ms He Hw Hs.
  { by apply elem_of_nil in Hp. }
  inversion He as [|? n ? ms1 Hq He' E1 E2]; subst. inversion Hw as [|? ? Hn Hw']; subst.
  apply StronglySorted_inv in Hs as [Hs Hlt]. unfold list_del. rewrite filter_cons. fold (list_del p l).
  assert (∀ r o, r ∈ l → h !! r = Some o → mac_wf o ∧ mac_lt n o) as Hl.
  { intros r o Hr Ho. apply list_elem_of_lookup in Hr as [i Hi].
    destruct (Forall2_lookup_l _ _ _ _ _ He' Hi) as (o' & Hi' & Ho'). replace o' with o in * by congruence.
    rewrite Forall_lookup in Hlt, Hw'. eauto. }
  destruct (decide (q = p)) as [->|Hne].
  - rewrite decide_False by (intros H; by apply H). replace n with m in * by congruence.
    assert (p ∉ l) as Hnin.
    { intros Hin. destruct (Hl p m Hin Hm) as [_ H]. by apply (mac_lt_key m m). }
    exists ms1. rewrite list_del_absent by done.
    split; [by split|]. split; [done|]. rewrite Forall_lookup in Hlt, Hw' |- *. intros i o Ho.
    apply mac_lt_key; eauto.
  - rewrite decide_True by done. apply elem_of_cons in Hp as [->|Hp]; [done|].
    destruct (IH Hp ms1 He' Hw' Hs) as (ms2 & [He2 Hw2 Hs2] & Pm & Hd). exists (n :: ms2).
    split; [split; [by constructor|by constructor|]|split].
    + constructor; [done|]. rewrite Forall_forall in Hlt |- *. intros o Ho. apply Hlt. rewrite Pm. set_solver.
    + rewrite Pm. apply Permutation_swap.
    + constructor; [|done]. destruct (Hl p m Hp Hm) as [Hwm Hnm]. intros [K1 K2].
      by apply (mac_lt_key n m).
Qed.

Lemma remove_run c p x w : w_csms w !! c = Some x → p ∈ mac_rb (MLACP x) →
  mac_rb_remove c p w
  = Ok tt (csm_set c (set_MLACP (set mac_rb (λ _, list_del p (mac_rb (MLACP x)))) x) w).
Proof.
  intros Hx Hp. unfold mac_rb_remove, mlacp_upd. rewrite (csm_upd_run c _ x) by done. do 2 f_equal.
  transitivity (set_MLACP (set mac_rb (λ _, if bool_decide (p ∈ mac_rb (MLACP x)) then list_del p (mac_rb (MLACP x)) else [])) x);
    [reflexivity|]. by rewrite bool_decide_eq_true_2.
Qed.

(** A change of the heap that keeps the keys of the tree's entries keeps the tree. *)
Lemma compare_keys m n m' n' : same_key m m' → same_key n n' → MACMsg_compare m' n' = MACMsg_compare m n.
Proof. unfold MACMsg_compare. by intros [-> ->] [-> ->]. Qed.

Lemma tree_keys h h' l ms :
  mac_tree h l ms →
  (∀ p m, p ∈ l → h !! p = Some m → ∃ m', h' !! p = Some m' ∧ same_key m m') →
  ∃ ms', mac_tree h' l ms' ∧ Forall2 same_key ms ms'.
Proof.
  intros [He Hw Hs]. revert ms He Hw Hs. induction l as [|q l IH]; intros ms He Hw Hs Hh.
  - inversion He; subst. exists []. by repeat split.
  - inversion He as [|? n ? ms' Hq He' E1 E2]; subst. inversion Hw as [|? ? Hn Hw']; subst.
    apply StronglySorted_inv in Hs as [Hs Hlt].
    destruct (IH ms' He' Hw' Hs) as (ms2 & [He2 Hw2 Hs2] & Hk); [intros p m Hp; apply Hh; set_solver|].
    destruct (Hh q n) as (n' & Hn' & K); [set_solver|done|].
    exists (n' :: ms2). split; [|by constructor]. split; [by constructor| |].
    + constructor; [|done]. unfold mac_wf in *. by rewrite <-(proj2 K).
    + constructor; [done|]. rewrite Forall_lookup in Hlt |- *. intros i o Ho.
      destruct (Forall2_lookup_r _ _ _ _ _ Hk Ho) as (o' & Ho' & K'). unfold mac_lt.
      rewrite (compare_keys n o') by done. by eapply Hlt.
Qed.

(** C15. The tree of MAC entries is well formed, and stays so: it holds every VLAN and
    address once, in order.  [RB_INSERT] of an entry whose key is not there adds this
    entry and no other, and a lookup of the key then finds it; of one whose key is
    there, it changes nothing.  [MAC_RB_REMOVE] of an entry of the tree takes away this
    entry and no other, and a lookup of its key then finds nothing. *)
Theorem mac_tree_insert c p m x w ms :
  w_csms w !! c = Some x → mac_wf m → w_macs w !! p = Some m → mac_tree (w_macs w) (mac_rb (MLACP x)) ms →
  (∃ t ts, let w' := csm_set c (set_MLACP (set mac_rb (λ _, t)) x) w in
     mac_rb_insert c p w = Ok tt w' ∧ mac_tree (w_macs w) t ts
     ∧ ((Exists (same_key m) ms ∧ t = mac_rb (MLACP x))
        ∨ (Forall (λ n, ¬ same_key m n) ms ∧ t ≡ₚ p :: mac_rb (MLACP x)
           ∧ mac_rb_find (mac_key (mac_vid m) (mac_addr m)) t w' = Ok p w')))
  ∧ (p ∈ mac_rb (MLACP x) →
     ∃ ms', let t := list_del p (mac_rb (MLACP x)) in
     let w' := csm_set c (set_MLACP (set mac_rb (λ _, t)) x) w in
     mac_rb_remove c p w = Ok tt w' ∧ mac_tree (w_macs w) t ms' ∧ ms ≡ₚ m :: ms'
     ∧ mac_rb_find (mac_key (mac_vid m) (mac_addr m)) t w' = Ok NULL w').
Proof.
  intros Hx Hm Hp Ht. split.
  - destruct (place_run m p _ ms w Hm Hp Ht) as (t & ts & E & Hts & Hc). exists t, ts.
    split; [|split; [done|]].
    + unfold mac_rb_insert. rewrite (deref_bind w_macs _ _ _ _ Hp), (deref_bind w_csms _ _ _ _ Hx).
      rewrite (bind_ok _ _ _ _ _ E). by apply csm_upd_run.
    + destruct Hc as [(Hk & -> & _)|(Hk & Pt & _)]; [by left|right]. split; [done|]. split; [done|].
      set (w' := csm_set c _ w). destruct (find_run (mac_key (mac_vid m) (mac_addr m)) t ts w' Hm Hts) as (q & -> & Hf & _).
      f_equal. apply (Hf p m); [|done|done]. rewrite Pt. set_solver.
  - intros Hin. destruct (tree_delete _ p m _ _ Ht Hin Hp) as (ms' & Ht' & Pm & Hd). exists ms'. cbv zeta.
    set (w' := csm_set c _ w). split; [|split; [done|split; [done|]]].
    + by apply remove_run.
    + destruct (find_run (mac_key (mac_vid m) (mac_addr m)) _ ms' w' Hm Ht') as (q & -> & _ & Hf). by rewrite Hf.
Qed.

(** Two entries, of the VLANs 10 and 20, and a third one in between. *)
Definition tree_entry (v : Z) : MACMsg := mac_key v [2; 0; 0; 0; 0; 9].
Definition tree_csm : CSM := set_MLACP (set mac_rb (λ _, [30; 31])) (session_csm 100).
Definition tree_world : World :=
  with_csm 1 tree_csm (boot calm)
    <| w_macs := {[30 := tree_entry 10; 31 := tree_entry 20; 32 := tree_entry 15]} |>.

Lemma tree_world_ok : mac_tree (w_macs tree_world) (mac_rb (MLACP tree_csm)) [tree_entry 10; tree_entry 20].
Proof. split; [by repeat constructor|by repeat constructor|by repeat constructor]. Qed.

Lemma mac_tree_insert_witness :
  (∃ t, mac_rb_insert 1 32 tree_world = Ok tt (csm_set 1 (set_MLACP (set mac_rb (λ _, t)) tree_csm) tree_world)
     ∧ t ≡ₚ [32; 30; 31])
  ∧ mac_rb_remove 1 30 tree_world = Ok tt (csm_set 1 (set_MLACP (set mac_rb (λ _, [31])) tree_csm) tree_world).
Proof.
  split.
  - destruct (mac_tree_insert 1 32 (tree_entry 15) tree_csm tree_world [tree_entry 10; tree_entry 20]
      eq_refl eq_refl eq_refl tree_world_ok) as [(t & ts & E & _ & [[H _]|[_ [P _]]]) _].
    + exfalso. inversion_clear H as [? ? [H1 _]|? ? H1]; [discriminate H1|].
      inversion_clear H1 as [? ? [H2 _]|? ? H2]; [discriminate H2|inversion H2].
    + exists t. split; [exact E|exact P].
  - destruct (mac_tree_insert 1 30 (tree_entry 10) tree_csm tree_world [tree_entry 10; tree_entry 20]
      eq_refl eq_refl eq_refl tree_world_ok) as [_ Hr]. destruct Hr as (ms' & E & _); [apply list_elem_of_here|exact E].
Defined.
