(* ===== verification/RbMac.v ===== *)
(** * The tree of MAC entries in memory

    The model of the daemon keeps the MAC tree as the list of its entries
    ([MacTable.v]).  Here the list is connected to the links: a memory in which the
    entries of the list form a red-black tree ordered by [MACMsg_compare] follows every
    operation of the daemon on the list. *)

From stdpp Require Import sorting.
From S2P Require Import Prelude CMem CString MsgFormat State Machine Port Lookup MacTable Boot MacTree.
From S2P Require Import RbTree RbRep RbInsert RbOps RbRefine RbContract.
#[local] Open Scope Z_scope.

(** The MAC entry at an address, and the comparison of two. *)
Definition mac_at (h : gmap Z MACMsg) (p : ptr) : MACMsg := default mac_zero (h !! p).
Definition mac_cmp (h : gmap Z MACMsg) (a b : ptr) : Z := MACMsg_compare (mac_at h a) (mac_at h b).
Definition mac_comparable (h : gmap Z MACMsg) (p : ptr) : Prop := is_Some (h !! p) ∧ mac_wf (mac_at h p).

(** [RB_GENERATE(mac_rb_tree, MACMsg, mac_entry_rb, MACMsg_compare)] *)
Definition mac_rb_type (h : gmap Z MACMsg) (offset : Z) : rb_type := RB_GENERATE (mac_cmp h) offset.

Lemma compare_same m n o : mac_wf m → mac_wf n → MACMsg_compare m n = 0 → MACMsg_compare m o = MACMsg_compare n o.
Proof. intros Hm Hn H%compare_zero; [|done..]. symmetry. by apply compare_keys. Qed.

#[export] Instance mac_order h : KeyOrder (mac_comparable h) (mac_cmp h).
Proof.
  unfold mac_cmp. split.
  - intros x y _ _. rewrite compare_antisym. lia.
  - intros x y z [_ Hx] [_ Hy] [_ Hz] H1 H2. destruct (compare_values (mac_at h x) (mac_at h y)) as [E|[E|E]]; [|by rewrite (compare_same _ _ _ Hx Hy E)|lia].
    destruct (compare_values (mac_at h y) (mac_at h z)) as [E'|[E'|E']]; [|lia..].
    pose proof (mac_lt_trans _ _ _ Hx Hy Hz E E') as T. unfold mac_lt in T. lia.
  - intros x y z [_ Hx] [_ Hy] [_ Hz] H1 H2. destruct (compare_values (mac_at h y) (mac_at h z)) as [E|[E|E]]; [| |lia].
    + destruct (compare_values (mac_at h x) (mac_at h y)) as [E'|[E'|E']]; [|lia..].
      pose proof (mac_lt_trans _ _ _ Hx Hy Hz E' E) as T. unfold mac_lt in T. lia.
    + rewrite compare_antisym, (compare_same (mac_at h z) (mac_at h y) _ Hz Hy), compare_antisym; [lia|].
      rewrite compare_antisym. lia.
Qed.

(** ** The operations on lists *)

Lemma mac_at_some h p m : h !! p = Some m → mac_at h p = m.
Proof. unfold mac_at. by intros ->. Qed.

Lemma place_sinsert m p l w :
  w_macs w !! p = Some m → all_live (w_macs w) l →
  mac_rb_place m p l w = Ok (sinsert (mac_cmp (w_macs w)) p l) w.
Proof.
  intros Hp. induction l as [|q l IH]; intros Hl; simpl; [done|].
  destruct (Hl q) as [x Hx]; [set_solver|]. rewrite (deref_bind w_macs _ _ _ _ Hx).
  unfold mac_cmp at 1 2. rewrite (mac_at_some _ p m Hp), (mac_at_some _ q x Hx).
  destruct (compare_values m x) as [E|[E|E]]; rewrite E; simpl; [done|done|].
  rewrite (bind_ok _ _ _ _ _ (IH (λ r Hr, Hl r (list_elem_of_further _ _ _ Hr)))). done.
Qed.

Lemma find_sfind key kp l w :
  all_live (w_macs w) l → kp ∉ l →
  mac_rb_find key l w = Ok (sfind (mac_cmp (<[kp := key]> (w_macs w))) kp l) w.
Proof.
  intros Hl Hk. unfold mac_rb_find. rewrite (mfind_run w_macs (λ m, MACMsg_compare key m =? 0)) by done. f_equal.
  induction l as [|q l IH]; simpl; [done|]. destruct (Hl q) as [x Hx]; [set_solver|]. apply not_elem_of_cons in Hk as [Hq Hk].
  rewrite Hx. unfold mac_cmp at 1. rewrite (mac_at_some _ kp key (lookup_insert_eq _ _ _)).
  rewrite (mac_at_some _ q x) by by rewrite lookup_insert_ne.
  case_match; [done|]. apply IH; [|done]. intros r Hr. apply Hl. set_solver.
Qed.

(** A tree stays one when the comparison agrees on its elements. *)
Lemma rbtree_agree cmp cmp' (D D' : ptr → Prop) offset l m :
  rbtree (RB_GENERATE cmp offset) D l m → (∀ x, x ∈ l → D' x) → (∀ x y, x ∈ l → y ∈ l → cmp' x y = cmp x y) →
  rbtree (RB_GENERATE cmp' offset) D' l m.
Proof.
  intros [Hs Ha HD Hsort] HD' Hc. split; [exact Hs|exact Ha|by apply Forall_forall|]. unfold sorted in *. simpl in *.
  clear Hs Ha HD HD'. induction Hsort as [|x l Hl IH Hx]; constructor.
  - apply IH. intros a b Ha Hb. apply Hc; set_solver.
  - rewrite Forall_forall in Hx |- *. intros y Hy. rewrite Hc by set_solver. auto.
Qed.

(** ** The links of a machine's MAC tree *)

(** The entries of the machine's list form a red-black tree in the memory of links [m]. *)
Definition mac_linked (offset : Z) (w : World) (x : CSM) (m : rb_mem) : Prop :=
  rbtree (mac_rb_type (w_macs w) offset) (mac_comparable (w_macs w)) (mac_rb (MLACP x)) m.

Lemma linked_live offset w x m : mac_linked offset w x m → all_live (w_macs w) (mac_rb (MLACP x)).
Proof. intros [_ _ HD _] p Hp. rewrite Forall_forall in HD. by apply HD. Qed.

(** C36. The daemon's operations on the MAC tree are those of the red-black tree code on
    the links in memory.  Where the entries of a machine's list are linked, [RB_INSERT] of
    an entry, [MAC_RB_REMOVE] of an entry of the tree, [RB_FIND] of a key on the stack and
    [RB_FOREACH] run on the links with the results of the operations on the list, and the
    entries of the new list are linked again. *)
Theorem mac_tree_linked offset c p y kp key x w m :
  w_csms w !! c = Some x → w_macs w !! p = Some y → mac_wf y → mac_wf key → kp ∉ mac_rb (MLACP x) →
  mac_linked offset w x m →
  let t := mac_rb_type (w_macs w) offset in
  rb_addr t p → is_Some (rb_heap m !! rb_n2e t p) →
  (∃ w' x' r m', mac_rb_insert c p w = Ok tt w' ∧ _rb_insert t p m = Ok r m'
     ∧ w_csms w' !! c = Some x' ∧ mac_linked offset w' x' m')
  ∧ (p ∈ mac_rb (MLACP x) →
     ∃ w' x' m', mac_rb_remove c p w = Ok tt w' ∧ RB_REMOVE_clear t p m = Ok tt m'
       ∧ w_csms w' !! c = Some x' ∧ mac_linked offset w' x' m')
  ∧ (∃ r, mac_rb_find key (mac_rb (MLACP x)) w = Ok r w
       ∧ _rb_find (mac_rb_type (<[kp := key]> (w_macs w)) offset) kp m = Ok r m)
  ∧ RB_FOREACH t m = Ok (mac_rb (MLACP x)) m.
Proof.
  intros Hx Hp Hy Hkey Hkp Hm t Ha He. pose proof (linked_live _ _ _ _ Hm) as Hl.
  assert (mac_comparable (w_macs w) p) as Hok by (split; [by exists y|by rewrite (mac_at_some _ _ _ Hp)]).
  split; [|split; [|split]].
  - destruct (rb_insert_run t eq_refl _ _ p m Hm Ha Hok He) as (m' & Hrun & H' & _).
    eexists _, _, _, m'. split; [|split; [exact Hrun|split]].
    + unfold mac_rb_insert. rewrite (deref_bind w_macs _ _ _ _ Hp), (deref_bind w_csms _ _ _ _ Hx).
      rewrite (bind_ok _ _ _ _ _ (place_sinsert y p _ w Hp Hl)). by apply csm_upd_run.
    + apply lookup_insert_eq.
    + exact H'.
  - intros Hin. destruct (rb_clear_run t eq_refl _ _ p m Hm Hin) as (m' & Hrun & H' & _).
    eexists _, _, m'. split; [|split; [exact Hrun|split]].
    + by apply remove_run.
    + apply lookup_insert_eq.
    + exact H'.
  - eexists. split; [by apply find_sfind|].
    assert (mac_comparable (<[kp := key]> (w_macs w)) kp) as Hk.
    { split; [rewrite lookup_insert_eq; by eexists|]. by rewrite (mac_at_some _ kp key (lookup_insert_eq _ _ _)). }
    assert (∀ q, q ∈ mac_rb (MLACP x) → mac_at (<[kp := key]> (w_macs w)) q = mac_at (w_macs w) q) as Heq.
    { intros q Hq. unfold mac_at. rewrite lookup_insert_ne; [done|]. intros ->. done. }
    apply (rb_search_run (mac_rb_type (<[kp := key]> (w_macs w)) offset) (mac_comparable (<[kp := key]> (w_macs w)))); [|exact Hk].
    eapply rbtree_agree; [exact Hm| |].
    + intros q Hq. pose proof (rt_keys _ _ _ _ Hm) as HD. rewrite Forall_forall in HD. destruct (HD q Hq) as [Hs Hw].
      split; [|by rewrite Heq]. rewrite lookup_insert_ne; [done|]. by intros ->.
    + intros a b Hqa Hqb. unfold mac_cmp. by rewrite !Heq.
  - by eapply rb_foreach_run.
Qed.

(** The entries 30 and 31 linked, 32 in memory. *)
Definition mac_links : rb_mem := mkRbMem 0 (list_to_map ((λ e, (e + 40, mkRb 0 0 0 0)) <$> [30; 31; 32])).

Lemma mac_links_linked : ∃ m,
  mac_linked 40 tree_world tree_csm m ∧ is_Some (rb_heap m !! rb_n2e (mac_rb_type (w_macs tree_world) 40) 32).
Proof.
  set (t := mac_rb_type (w_macs tree_world) 40). set (D := mac_comparable (w_macs tree_world)).
  destruct (init_run t D mac_links) as (m0 & _ & Eh & H0).
  assert (pool t D [30; 31; 32] m0) as HP.
  { split; [repeat (apply Forall_cons; split; [split_and!; by vm_compute|]); by apply Forall_nil| |].
    - repeat (apply Forall_cons; split; [split; [by eexists|done]|]). by apply Forall_nil.
    - rewrite Eh. repeat (apply Forall_cons; split; [vm_compute; by eexists|]). by apply Forall_nil. }
  destruct (run_refines t eq_refl D [30; 31; 32] [OpInsert 31; OpInsert 30] [] m0 HP) as (m & _ & H & Hu);
    [set_solver|exact H0|repeat split; set_solver|].
  exists m. split; [exact H|]. apply (proj2 Hu). rewrite Eh. vm_compute. by eexists.
Qed.

Lemma mac_tree_linked_witness : ∃ m w' x' r m',
  mac_linked 40 tree_world tree_csm m
  ∧ mac_rb_insert 1 32 tree_world = Ok tt w'
  ∧ _rb_insert (mac_rb_type (w_macs tree_world) 40) 32 m = Ok r m'
  ∧ w_csms w' !! 1 = Some x' ∧ mac_linked 40 w' x' m'.
Proof.
  destruct mac_links_linked as (m & Hm & He).
  destruct (mac_tree_linked 40 1 32 (tree_entry 15) 1000 (tree_entry 20) tree_csm tree_world m eq_refl eq_refl eq_refl
    eq_refl ltac:(intros H; vm_compute in H; set_solver) Hm ltac:(split_and!; by vm_compute) He)
    as [(w' & x' & r & m' & H1 & H2 & H3 & H4) _].
  exists m, w', x', r, m'. split; [exact Hm|]. split; [exact H1|]. split; [exact H2|]. split; [exact H3|exact H4].
Defined.
