(* ===== verification/MacLearn.v ===== *)
(** * Learning and ageing of MAC addresses

    What [set_mac_local_age_flag] does to the flag and to the queue to the peer, and
    what becomes of a new address that mclagsyncd reports on a port that is up. *)

From Stdlib Require Import Sorted.
From S2P Require Import Prelude CMem CString MsgFormat State Machine IccpMsg Port Lookup MacTable MacUpdate.
From S2P Require Import SyncdCfg Boot MacTree.
#[local] Open Scope Z_scope.

(** ** The age flag *)

(** The flag with the local bit as it is set. *)
Definition age_flag (s old : Z) : Z :=
  if s =? 0 then Z.ldiff old MAC_AGE_LOCAL else Z.lor old MAC_AGE_LOCAL.

(** The entry [p] waits for the peer, once, with the operation [op]. *)
Definition mac_told (c p : ptr) (op : Z) (m : MACMsg) (x : CSM) (w : World) : World :=
  let m' := m <| mac_op_type := op |> in
  if mac_in_msg_list m then w <| w_macs ::= <[p := m']> |>
  else csm_set c (set_MLACP (set mac_msg_list (λ q, q ++ [p])) x)
         (w <| w_macs ::= <[p := m' <| mac_in_msg_list := true |>]> |>).

(** Only a change is told, in the exchange, and when the caller wants it. *)
Definition age_tells (s u old : Z) (x : CSM) : bool :=
  negb (age_flag s old =? old) && (mlacp_current_state (MLACP x) =? MLACP_STATE_EXCHANGE) && negb (u =? 0).

Lemma age_flag_cases old : 0 ≤ old < 256 →
  (Z.land old MAC_AGE_LOCAL =? 0) = (age_flag 0 old =? old)
  ∧ (Z.land old MAC_AGE_LOCAL =? 0) = negb (age_flag 1 old =? old)
  ∧ Z.land old (u8 (Z.lnot MAC_AGE_LOCAL)) = age_flag 0 old.
Proof.
  intros H.
  assert (forallb (λ n, let o := Z.of_nat n in
    Bool.eqb (Z.land o MAC_AGE_LOCAL =? 0) (age_flag 0 o =? o)
    && Bool.eqb (Z.land o MAC_AGE_LOCAL =? 0) (negb (age_flag 1 o =? o))
    && (Z.land o (u8 (Z.lnot MAC_AGE_LOCAL)) =? age_flag 0 o)) (seq 0 256) = true) as F
    by (vm_compute; reflexivity).
  rewrite forallb_forall in F. specialize (F (Z.to_nat old)). cbv zeta in F. rewrite Z2Nat.id in F by lia.
  rewrite !andb_true_iff, !eqb_true_iff, Z.eqb_eq in F. destruct F as [[F1 F2] F3]; [apply in_seq; lia|]. done.
Qed.

Lemma tell_run c p op m x w (cond : bool) :
  w_csms w !! c = Some x → w_macs w !! p = Some m →
  (csm ← deref w_csms c;
   when ((mlacp_current_state (MLACP csm) =? MLACP_STATE_EXCHANGE) && cond)
     (mac_upd p (set mac_op_type (λ _, op));; mac_msg_enqueue c p)) w
  = Ok tt (if (mlacp_current_state (MLACP x) =? MLACP_STATE_EXCHANGE) && cond then mac_told c p op m x w else w).
Proof.
  intros Hx Hp. rewrite (deref_bind w_csms _ _ _ _ Hx). destruct (_ && _); [|done]. simpl.
  unfold mac_upd. rewrite (update_bind w_macs _ _ _ _ _ Hp). unfold mac_msg_enqueue, mac_told.
  set (m' := m <| mac_op_type := op |>). change (set mac_op_type (λ _, op) m) with m'.
  set (w1 := set w_macs <[p := m']> w).
  assert (w_macs w1 !! p = Some m') as Hp1 by apply lookup_insert_eq.
  rewrite (deref_bind w_macs _ _ _ _ Hp1). change (mac_in_msg_list m') with (mac_in_msg_list m).
  destruct (mac_in_msg_list m); [done|]. unfold mlacp_upd. rewrite (csm_upd_bind c _ x) by exact Hx.
  unfold mac_upd, update. change (w_macs (csm_set c ?y w1)) with (w_macs w1). rewrite Hp1. f_equal.
  clear. unfold w1. generalize (set_MLACP (set mac_msg_list (λ q, q ++ [p])) x). intros y.
  generalize (set mac_in_msg_list (λ _, true) m'). intros n. destruct w as [s cs ls ps ms k i b r o lg v t].
  cbv beta iota delta [csm_set set set_w_csms set_w_macs w_sys w_csms w_lifs w_pifs w_macs w_next w_msg_id w_csm_buf
    w_prev_state w_once_connected w_logger w_env w_trace].
  by rewrite insert_insert_eq.
Qed.

(** C27. The local age flag of an entry is set or cleared as asked, and the peer is told of a
    change and of nothing else: the entry is queued for it, once, as an addition when
    the flag is cleared and as a deletion when it is set, and only in the exchange and
    when the caller asks for it; otherwise nothing changes. *)
Theorem age_flag_told c p s u m x w :
  w_csms w !! c = Some x → w_macs w !! p = Some m → 0 ≤ mac_age_flag m < 256 →
  let old := mac_age_flag m in
  set_mac_local_age_flag c p s u w
  = Ok (age_flag s old)
       (if age_tells s u old x then mac_told c p (if s =? 0 then MAC_SYNC_ADD else MAC_SYNC_DEL) m x w else w).
Proof.
  intros Hx Hp Ho old. unfold set_mac_local_age_flag. rewrite (deref_bind w_macs _ _ _ _ Hp). fold old.
  destruct (age_flag_cases old Ho) as (A0 & A1 & A2). rewrite A2. unfold age_tells, age_flag in *.
  cbn [Z.eqb] in A0, A1.
  destruct (s =? 0).
  - rewrite A0. destruct (Z.ldiff old MAC_AGE_LOCAL =? old) eqn:E; simpl; [by apply Z.eqb_eq in E; rewrite E|].
    rewrite (bind_ok _ _ _ _ _ (tell_run c p MAC_SYNC_ADD m x w (negb (u =? 0)) Hx Hp)). done.
  - rewrite A1. destruct (Z.lor old MAC_AGE_LOCAL =? old) eqn:E; simpl; [by apply Z.eqb_eq in E; rewrite E|].
    rewrite (bind_ok _ _ _ _ _ (tell_run c p MAC_SYNC_DEL m x w (negb (u =? 0)) Hx Hp)). done.
Qed.

(** ** A new address *)

(** The entry that is stored. *)
Definition learned (m : MACMsg) : MACMsg :=
  m <| mac_age_flag ::= λ f, Z.lor f MAC_AGE_PEER |> <| mac_op_type := MAC_SYNC_ADD |>.

Lemma learned_insert c p m x w ms :
  w_csms w !! c = Some x → mac_wf m → w_macs w !! p = Some m → mac_tree (w_macs w) (mac_rb (MLACP x)) ms →
  Forall (λ n, ¬ same_key m n) ms →
  ∃ t ts, mac_rb_insert c p w = Ok tt (csm_set c (set_MLACP (set mac_rb (λ _, t)) x) w)
    ∧ mac_tree (w_macs w) t ts ∧ t ≡ₚ p :: mac_rb (MLACP x).
Proof.
  intros Hx Hm Hp Ht Hn. destruct (place_run m p _ ms w Hm Hp Ht) as (t & ts & E & Hts & Hc). exists t, ts.
  unfold mac_rb_insert. rewrite (deref_bind w_macs _ _ _ _ Hp), (deref_bind w_csms _ _ _ _ Hx).
  rewrite (bind_ok _ _ _ _ _ E). split; [by apply csm_upd_run|]. split; [done|].
  destruct Hc as [(Hk & _)|(_ & Pt & _)]; [|done].
  apply Exists_exists in Hk as (n & Hn' & K). rewrite Forall_forall in Hn. by destruct (Hn n Hn').
Qed.

(** The heap with the stored copy: the tree is as it was. *)
Lemma tree_beside h sp p m l ms (n : MACMsg) :
  mac_tree h l ms → sp ∉ l → h !! p = None → Forall (λ k, ¬ same_key m k) ms → same_key m n →
  ∃ ms', mac_tree (<[p := n]> (<[sp := n]> h)) l ms' ∧ Forall (λ k, ¬ same_key n k) ms'.
Proof.
  intros Ht Hsp Hp Hnew [K1 K2]. pose proof (mac_tree_live _ _ _ Ht) as Hl.
  destruct (tree_keys h (<[p := n]> (<[sp := n]> h)) l ms Ht) as (ms' & Ht' & Hk).
  - intros q k Hq Hqk. exists k. split; [|done].
    rewrite !lookup_insert_ne; [done|by intros ->|]. intros ->. destruct (Hl q Hq). congruence.
  - exists ms'. split; [done|]. rewrite Forall_lookup in Hnew |- *. intros i k Hi [J1 J2].
    destruct (Forall2_lookup_r _ _ _ _ _ Hk Hi) as (k' & Hk' & [L1 L2]).
    apply (Hnew i k' Hk'). split; congruence.
Qed.


(** Ethernet8 is up, and the address of the VLAN 15 is not in the tree. *)
Definition learn_csm : CSM := set_MLACP (set mlacp_current_state (λ _, MLACP_STATE_EXCHANGE)) tree_csm.
Definition learn_lif : LocalInterface := local_if_init <| lif_state := PORT_STATE_UP |>.
Definition learn_world : World := csm_set 1 learn_csm tree_world <| w_lifs := {[50 := learn_lif]} |>.


(** Outside the exchange nothing is told; in the exchange the entry of the VLAN 10 is queued. *)
Lemma age_flag_told_witness :
  set_mac_local_age_flag 1 30 1 1 tree_world = Ok MAC_AGE_LOCAL tree_world
  ∧ set_mac_local_age_flag 1 30 1 1 learn_world
    = Ok MAC_AGE_LOCAL (mac_told 1 30 MAC_SYNC_DEL (tree_entry 10) learn_csm learn_world).
Proof.
  split.
  - exact (age_flag_told 1 30 1 1 (tree_entry 10) tree_csm tree_world eq_refl eq_refl (conj (Z.le_refl 0) eq_refl)).
  - exact (age_flag_told 1 30 1 1 (tree_entry 10) learn_csm learn_world eq_refl eq_refl (conj (Z.le_refl 0) eq_refl)).
Defined.
