(* ===== verification/FrameSend.v ===== *)
(** * Frames of the builders and senders

    Building and sending messages, programming the switch and the kernel: these
    change no state machine beyond the log of sent messages and the counters, so
    their specifications hold for every relation that allows those. *)

From S2P Require Import Prelude CMem CString MsgFormat State Machine Frame IccpMsg SyncPrepare.
From S2P Require Import Port Syncd Standby MacTable LinkHandler MlacpFsm.
#[local] Open Scope Z_scope.

(** What building and sending a message does to a state machine. *)
Class SendFrame (le : CSM → CSM → Prop) : Prop := {
  sf_preorder :: PreOrder le;
  sf_log x e log : log_sent e (msg_log x) = Some log → le (x <| msg_log := log |>) x;
  sf_count x dir tlv status : le (set_MLACP (count_iccp dir tlv status) x) x;
  sf_req_num x f : le (set_MLACP (set sync_req_num f) x) x
}.

#[export] Hint Extern 0 (PreOrder _) => typeclasses eauto : frame.
#[export] Hint Extern 0 (SendFrame _) => typeclasses eauto : frame.
#[export] Hint Extern 3 => apply sf_count : frame.
#[export] Hint Extern 3 => apply sf_req_num : frame.
#[export] Hint Resolve spec_stores spec_memset0 spec_deref spec_sys : frame.

Section quiet.
Context (le : CSM → CSM → Prop) `{!SendFrame le}.
#[local] Notation spec := (spec le).
#[local] Notation any := (λ _, True).

(** ** Builders: the buffer keeps its length *)

#[local] Notation builds buf := (λ r : Z * list Z, length (snd r) = length buf).

Lemma next_msg_id_frame : spec any next_msg_id.
Proof. intros w. split; [|done]. split; [done|]. intros p x H. by exists x. Qed.
Hint Resolve next_msg_id_frame : frame.

Lemma rg_id_frame c buf : spec (λ b, length b = length buf) (iccp_csm_fill_icc_rg_id_tlv c buf).
Proof. unfold iccp_csm_fill_icc_rg_id_tlv. frame. Qed.
Hint Resolve rg_id_frame : frame.

Lemma fill_header_frame c buf len : spec (builds buf) (mlacp_fill_icc_header c buf len).
Proof. unfold mlacp_fill_icc_header. frame. simpl. congruence. Qed.
Hint Resolve fill_header_frame : frame.

Ltac builder := frame; simpl in *; congruence.

Lemma sync_request_frame c buf n : spec (builds buf) (mlacp_prepare_for_sync_request_tlv c buf n).
Proof. unfold mlacp_prepare_for_sync_request_tlv. builder. Qed.
Lemma sync_data_frame c buf n e : spec (builds buf) (mlacp_prepare_for_sync_data_tlv c buf n e).
Proof. unfold mlacp_prepare_for_sync_data_tlv. builder. Qed.
Lemma sys_config_frame c buf n : spec (builds buf) (mlacp_prepare_for_sys_config c buf n).
Proof. unfold mlacp_prepare_for_sys_config. builder. Qed.
Lemma agg_state_frame c buf n p : spec (builds buf) (mlacp_prepare_for_Aggport_state c buf n p).
Proof. unfold mlacp_prepare_for_Aggport_state. builder. Qed.
Lemma agg_config_frame c buf n p u : spec (builds buf) (mlacp_prepare_for_Aggport_config c buf n p u).
Proof. unfold mlacp_prepare_for_Aggport_config. builder. Qed.
Lemma mac_info_frame c buf n p i : spec (builds buf) (mlacp_prepare_for_mac_info_to_peer c buf n p i).
Proof. unfold mlacp_prepare_for_mac_info_to_peer. builder. Qed.
Lemma arp_info_frame c buf n m i : spec (builds buf) (mlacp_prepare_for_arp_info c buf n m i).
Proof. unfold mlacp_prepare_for_arp_info, field_u8, field_u32, field_bytes. builder. Qed.
Lemma ndisc_info_frame c buf n m i : spec (builds buf) (mlacp_prepare_for_ndisc_info c buf n m i).
Proof. unfold mlacp_prepare_for_ndisc_info, field_u8, field_u32, field_bytes. builder. Qed.
Lemma port_channel_frame c buf n p : spec (builds buf) (mlacp_prepare_for_port_channel_info c buf n p).
Proof. unfold mlacp_prepare_for_port_channel_info. builder. Qed.
Lemma peerlink_frame c buf n p : spec (builds buf) (mlacp_prepare_for_port_peerlink_info c buf n p).
Proof. unfold mlacp_prepare_for_port_peerlink_info. builder. Qed.
Lemma heartbeat_frame c buf n : spec (builds buf) (mlacp_prepare_for_heartbeat c buf n).
Proof. unfold mlacp_prepare_for_heartbeat. builder. Qed.
Lemma warmboot_frame c buf n : spec (builds buf) (mlacp_prepare_for_warm_reboot c buf n).
Proof. unfold mlacp_prepare_for_warm_reboot. builder. Qed.
Lemma if_up_ack_frame c buf n t i o : spec (builds buf) (mlacp_prepare_for_if_up_ack c buf n t i o).
Proof. unfold mlacp_prepare_for_if_up_ack. builder. Qed.
Lemma capability_frame c buf n : spec (builds buf) (iccp_csm_prepare_capability_msg c buf n).
Proof. unfold iccp_csm_prepare_capability_msg. builder. Qed.
Lemma nak_frame c buf n : spec (builds buf) (iccp_csm_prepare_nak_msg c buf n).
Proof. unfold iccp_csm_prepare_nak_msg. builder. Qed.
Lemma rg_connect_frame c buf n : spec (builds buf) (iccp_csm_prepare_rg_connect_msg c buf n).
Proof. unfold iccp_csm_prepare_rg_connect_msg. builder. Qed.
Lemma rg_disconnect_frame c buf n : spec (builds buf) (iccp_csm_prepare_rg_disconnect_msg c buf n).
Proof. unfold iccp_csm_prepare_rg_disconnect_msg. builder. Qed.
Lemma app_nak_frame c buf n : spec (builds buf) (app_csm_prepare_nak_msg c buf n).
Proof. unfold app_csm_prepare_nak_msg. builder. Qed.
Hint Resolve sync_request_frame sync_data_frame sys_config_frame agg_state_frame agg_config_frame
  mac_info_frame arp_info_frame ndisc_info_frame port_channel_frame peerlink_frame heartbeat_frame
  warmboot_frame if_up_ack_frame capability_frame nak_frame rg_connect_frame rg_disconnect_frame
  app_nak_frame : frame.

Lemma iccp_msg_frame c buf n : spec (builds buf) (iccp_csm_prepare_iccp_msg c buf n).
Proof. unfold iccp_csm_prepare_iccp_msg. builder. Qed.
Hint Resolve iccp_msg_frame : frame.

(** ** Sending to the peer *)

Lemma tx_count_frame c t s : spec any (MLACP_SET_ICCP_TX_DBG_COUNTER c t s).
Proof. unfold MLACP_SET_ICCP_TX_DBG_COUNTER. frame. Qed.
Lemma rx_count_frame c t s : spec any (MLACP_SET_ICCP_RX_DBG_COUNTER c t s).
Proof. unfold MLACP_SET_ICCP_RX_DBG_COUNTER. frame. Qed.
Hint Resolve tx_count_frame rx_count_frame : frame.

(** The log is that of the machine the message is sent on. *)
Lemma send_frame c b len : spec any (iccp_csm_send c b len).
Proof.
  unfold iccp_csm_send. destruct (c =? NULL); [frame|]. intros w.
  destruct (w_csms w !! c) as [x|] eqn:Hx.
  2: { unfold mbind, M_bind, deref. rewrite Hx. apply bad_ptr_fuel. }
  rewrite (deref_bind _ _ x) by done. destruct (_ || _); [by apply spec_ret; [apply _|]|].
  destruct (sent_entry b) as [e|]; [|done]. rewrite (oob_bind _ e) by done.
  destruct (log_sent e (msg_log x)) as [log|] eqn:Hlog; [|done]. rewrite (oob_bind _ log) by done.
  rewrite (csm_upd_bind c _ x) by done.
  apply spec_from; [apply _| |frame]. eapply kept_csm_set; [apply _|exact Hx|]. by eapply sf_log.
Qed.
Hint Resolve send_frame : frame.

Lemma build_and_send_frame c f :
  (∀ b, spec (builds b) (f b CSM_BUFFER_SIZE)) → spec any (build_and_send c f).
Proof. unfold build_and_send. frame. Qed.
Lemma prepare_and_send_frame c f :
  (∀ b, spec (builds b) (f b CSM_BUFFER_SIZE)) → spec any (prepare_and_send c f).
Proof. unfold prepare_and_send. frame. Qed.

(** ** Lookups *)

Lemma mfind_frame l f : (∀ p, spec any (f p)) → spec any (mfind l f).
Proof. intros Hf. induction l as [|p l IH]; simpl; frame. Qed.

Ltac lookup := frame; try (apply mfind_frame; frame).

Lemma find_by_name_frame n : spec any (local_if_find_by_name n).
Proof. unfold local_if_find_by_name. lookup. Qed.
Lemma find_by_ifindex_frame n : spec any (local_if_find_by_ifindex n).
Proof. unfold local_if_find_by_ifindex. lookup. Qed.
Lemma find_by_po_id_frame n : spec any (local_if_find_by_po_id n).
Proof. unfold local_if_find_by_po_id. lookup. Qed.
Lemma is_l3_mode_frame p : spec any (local_if_is_l3_mode p).
Proof. unfold local_if_is_l3_mode. lookup. Qed.
Lemma peer_find_frame c n : spec any (peer_if_find_by_name c n).
Proof. unfold peer_if_find_by_name. lookup. Qed.
Lemma csm_by_ip_frame ip : spec any (system_get_csm_by_peer_ip ip).
Proof. unfold system_get_csm_by_peer_ip. lookup. Qed.
Lemma first_csm_frame : spec any system_get_first_csm.
Proof. unfold system_get_first_csm. lookup. Qed.
Hint Resolve mfind_frame find_by_name_frame find_by_ifindex_frame find_by_po_id_frame is_l3_mode_frame
  peer_find_frame csm_by_ip_frame first_csm_frame : frame.

(** ** Requests to mclagsyncd and to the kernel *)

Lemma syncd_count_frame t s : spec any (SYSTEM_SET_SYNCD_TX_DBG_COUNTER t s).
Proof. unfold SYSTEM_SET_SYNCD_TX_DBG_COUNTER, sys_upd. frame. Qed.
Lemma syncd_build_frame t s : spec any (syncd_build t s).
Proof. unfold syncd_build. frame. Qed.
Hint Resolve syncd_count_frame syncd_build_frame : frame.

(** The send loop: a round sends a byte or counts a retry. *)
Lemma syncd_loop_frame fuel fd t rest retry pos :
  0 ≤ retry ≤ SYNCD_SEND_RETRY_MAX →
  (length rest + Z.to_nat (SYNCD_SEND_RETRY_MAX - retry) + 1 < fuel)%nat →
  spec any (syncd_send_loop fuel fd t rest retry pos).
Proof.
  revert rest retry pos. induction fuel as [|f IH]; intros rest retry pos Hr Hf; [lia|]. simpl.
  unfold SYNCD_SEND_RETRY_MAX in *. destruct (length rest =? 0)%nat eqn:Hl; [frame|].
  apply Nat.eqb_neq in Hl. frame_step. destruct (a <? 0) eqn:Ha.
  - destruct (- a =? EAGAIN); [|frame]. destruct (retry + 1 >? 5) eqn:Hm; [frame|].
    frame_step. apply IH; lia.
  - destruct (a =? 0) eqn:Ha0; [frame|]. apply IH; [lia|]. rewrite length_drop. lia.
Qed.

Lemma send_to_syncd_frame t m : spec any (iccp_send_to_mclagsyncd t m).
Proof.
  unfold iccp_send_to_mclagsyncd. frame. apply syncd_loop_frame; unfold SYNCD_SEND_RETRY_MAX; lia.
Qed.
Hint Resolve send_to_syncd_frame : frame.

Lemma syncd_request_frame t s : spec any (syncd_request t s).
Proof. unfold syncd_request. frame. Qed.
Hint Resolve syncd_request_frame : frame.
Lemma syncd_request_counted_frame t s : spec any (syncd_request_counted t s).
Proof. unfold syncd_request_counted. frame. Qed.
Lemma syncd_write_frame t s : spec any (syncd_write t s).
Proof. unfold syncd_write. frame. Qed.
Hint Resolve syncd_request_counted_frame syncd_write_frame : frame.

Lemma port_learn_frame p e : spec any (set_peerlink_mlag_port_learn p e).
Proof. unfold set_peerlink_mlag_port_learn. frame. Qed.
Lemma traffic_dist_frame n e : spec any (mlacp_link_set_traffic_dist_mode n e).
Proof. unfold mlacp_link_set_traffic_dist_mode. frame. Qed.
Lemma iccp_state_frame i b : spec any (mlacp_link_set_iccp_state i b).
Proof. unfold mlacp_link_set_iccp_state. frame. Qed.
Lemma iccp_role_frame i b s : spec any (mlacp_link_set_iccp_role i b s).
Proof. unfold mlacp_link_set_iccp_role. frame. Qed.
Lemma iccp_system_id_frame i s : spec any (mlacp_link_set_iccp_system_id i s).
Proof. unfold mlacp_link_set_iccp_system_id. frame. Qed.
Lemma remote_if_state_frame i n b : spec any (mlacp_link_set_remote_if_state i n b).
Proof. unfold mlacp_link_set_remote_if_state. frame. Qed.
Lemma del_remote_if_frame i n : spec any (mlacp_link_del_remote_if_info i n).
Proof. unfold mlacp_link_del_remote_if_info. frame. Qed.
Lemma port_isolation_frame i n b : spec any (mlacp_link_set_peerlink_port_isolation i n b).
Proof. unfold mlacp_link_set_peerlink_port_isolation. frame. Qed.
Hint Resolve port_learn_frame traffic_dist_frame iccp_state_frame iccp_role_frame
  iccp_system_id_frame remote_if_state_frame del_remote_if_frame port_isolation_frame : frame.

Lemma disable_traffic_frame p : spec any (mlacp_link_disable_traffic_distribution p).
Proof. unfold mlacp_link_disable_traffic_distribution, lif_upd. frame. Qed.
Lemma enable_traffic_frame p : spec any (mlacp_link_enable_traffic_distribution p).
Proof. unfold mlacp_link_enable_traffic_distribution, lif_upd. frame. Qed.
Lemma peer_mac_kernel_frame m v a : spec any (set_peer_mac_in_kernel m v a).
Proof. unfold set_peer_mac_in_kernel. frame. Qed.
Lemma fix_bridge_frame c : spec any (mlacp_fix_bridge_mac c).
Proof. unfold mlacp_fix_bridge_mac. frame. Qed.
Lemma neighbor_request_frame f a d m n p : spec any (iccp_netlink_neighbor_request f a d m n p).
Proof. unfold iccp_netlink_neighbor_request. frame. Qed.
Lemma ipadd_mac_frame p m : spec any (iccp_set_interface_ipadd_mac p m).
Proof. unfold iccp_set_interface_ipadd_mac. frame. Qed.
Lemma hwaddr_refresh_frame i m : spec any (hwaddr_refresh i m).
Proof.
  unfold hwaddr_refresh, iccp_netlink_if_hwaddr_set, iccp_netlink_if_shutdown_set,
    iccp_netlink_if_startup_set. frame.
Qed.
Hint Resolve disable_traffic_frame enable_traffic_frame peer_mac_kernel_frame fix_bridge_frame
  neighbor_request_frame ipadd_mac_frame hwaddr_refresh_frame : frame.

(** ** Interface addresses *)

Lemma update_ipmac_frame p : spec any (update_if_ipmac_on_standby p).
Proof. unfold update_if_ipmac_on_standby, lif_upd. frame. Qed.
Lemma recover_ipmac_frame p : spec any (recover_if_ipmac_on_standby p).
Proof. unfold recover_if_ipmac_on_standby, lif_upd. frame. Qed.
Lemma vlan_csm_frame v : spec any (vlan_csm v).
Proof. unfold vlan_csm. lookup. Qed.
Hint Resolve update_ipmac_frame recover_ipmac_frame vlan_csm_frame : frame.
Lemma update_vlan_mac_frame p : spec any (update_vlan_if_mac_on_standby p).
Proof. unfold update_vlan_if_mac_on_standby, lif_upd. frame. Qed.
Lemma recover_vlan_mac_frame p m : spec any (recover_vlan_if_mac_on_standby p m).
Proof. unfold recover_vlan_if_mac_on_standby, lif_upd. lookup. Qed.
Hint Resolve update_vlan_mac_frame recover_vlan_mac_frame : frame.
Lemma vlan_mac_iccp_up_frame p b m : spec any (update_vlan_if_mac_on_iccp_up p b m).
Proof. unfold update_vlan_if_mac_on_iccp_up. frame. Qed.
Hint Resolve vlan_mac_iccp_up_frame : frame.

(** ** MAC entries in the switch *)

Lemma fdb_entry_frame p t o : spec any (iccp_send_fdb_entry_to_syncd p t o).
Proof. unfold iccp_send_fdb_entry_to_syncd, mac_upd. frame. Qed.
Hint Resolve fdb_entry_frame : frame.
Lemma add_chip_frame p t : spec any (add_mac_to_chip p t).
Proof. unfold add_mac_to_chip. frame. Qed.
Lemma del_chip_frame p : spec any (del_mac_from_chip p).
Proof. unfold del_mac_from_chip. frame. Qed.
Lemma rb_find_frame k t : spec any (mac_rb_find k t).
Proof. unfold mac_rb_find. lookup. Qed.
Lemma rb_place_frame m p t : spec any (mac_rb_place m p t).
Proof. induction t as [|q t IH]; simpl; frame. Qed.
Lemma peer_link_up_frame x : spec any (peer_link_up x).
Proof. unfold peer_link_up. frame. Qed.
Lemma redirect_frame x p : spec any (redirect_to_peer_link x p).
Proof. unfold redirect_to_peer_link, mac_upd. frame. Qed.
Lemma free_unless_frame p : spec any (mac_free_unless_queued p).
Proof. unfold mac_free_unless_queued. frame. Qed.
Hint Resolve add_chip_frame del_chip_frame rb_find_frame rb_place_frame peer_link_up_frame
  redirect_frame free_unless_frame : frame.
Lemma free_sent_frame c p : spec any (mac_free_sent c p).
Proof. unfold mac_free_sent. frame. Qed.
End quiet.

#[export] Hint Resolve next_msg_id_frame rg_id_frame fill_header_frame sync_request_frame sync_data_frame
  sys_config_frame agg_state_frame agg_config_frame mac_info_frame arp_info_frame ndisc_info_frame
  port_channel_frame peerlink_frame heartbeat_frame warmboot_frame if_up_ack_frame capability_frame
  nak_frame rg_connect_frame rg_disconnect_frame app_nak_frame iccp_msg_frame tx_count_frame
  rx_count_frame send_frame mfind_frame find_by_name_frame find_by_ifindex_frame find_by_po_id_frame
  is_l3_mode_frame peer_find_frame csm_by_ip_frame first_csm_frame syncd_count_frame syncd_build_frame
  send_to_syncd_frame syncd_request_frame syncd_request_counted_frame syncd_write_frame
  port_learn_frame traffic_dist_frame iccp_state_frame iccp_role_frame iccp_system_id_frame
  remote_if_state_frame del_remote_if_frame port_isolation_frame disable_traffic_frame
  enable_traffic_frame peer_mac_kernel_frame fix_bridge_frame neighbor_request_frame ipadd_mac_frame
  hwaddr_refresh_frame update_ipmac_frame recover_ipmac_frame vlan_csm_frame update_vlan_mac_frame
  recover_vlan_mac_frame vlan_mac_iccp_up_frame fdb_entry_frame add_chip_frame del_chip_frame
  rb_find_frame rb_place_frame peer_link_up_frame redirect_frame free_unless_frame free_sent_frame
  : frame.
