(* ===== verification/FrameSteps.v ===== *)
(** * Frames of the daemon

    One step of the daemon, of whatever kind: it ends, the ring of sent messages
    of every state machine stays within its bounds, the global buffer keeps its
    length, and no handler but the reception from the socket puts a message in the
    queue of the mLACP machine.  The relation [csm_step] says so of one state
    machine; each function of the daemon satisfies it. *)

From S2P Require Import Prelude CMem CString MsgFormat State Machine Frame IccpMsg IccpQueue SyncPrepare Port.
From S2P Require Import Syncd Standby MacTable MacUpdate LinkHandler NeighUpdate SyncUpdate AppCsm IccpCsm.
From S2P Require Import MlacpFsm Scheduler FrameSend.
#[local] Open Scope Z_scope.

(** The ring of sent messages: [MAX_MSG_LOG_SIZE] entries, and an index of one. *)
Definition log_ok (l : MsgLog) : Prop :=
  length (log_msg l) = MAX_MSG_LOG_SIZE ∧ 0 ≤ log_end_index l < Z.of_nat MAX_MSG_LOG_SIZE.

Definition queue_len (x : CSM) : nat := length (mlacp_msg_list (MLACP x)).

(** With [q], the queue of the mLACP machine does not grow, and the machine does
    not go back to its initial state. *)
Record csm_step (q : bool) (x' x : CSM) : Prop := {
  step_queue : q = true → (queue_len x' ≤ queue_len x)%nat;
  step_state : q = true → 1 ≤ mlacp_current_state (MLACP x) → 1 ≤ mlacp_current_state (MLACP x');
  step_log : log_ok (msg_log x) → log_ok (msg_log x')
}.

#[export] Instance csm_step_preorder q : PreOrder (csm_step q).
Proof.
  split.
  - intros x. by split.
  - intros x y z [Q1 S1 L1] [Q2 S2 L2]. split; [| |by auto]; intros Hq.
    + specialize (Q1 Hq). specialize (Q2 Hq). lia.
    + auto.
Qed.

(** Every entry stored goes to the slot of the index, which then moves on. *)
Lemma log_sent_ok e l l' : log_sent e l = Some l' → log_ok l → log_ok l'.
Proof.
  unfold log_sent, log_ok. case_bool_decide as Hi; [|done]. intros [= <-] [Hl Hr]. simpl.
  rewrite length_insert. split; [done|].
  destruct (log_end_index l + 1 >=? 128) eqn:E; unfold MAX_MSG_LOG_SIZE in *; lia.
Qed.

#[export] Instance csm_step_send q : SendFrame (csm_step q).
Proof.
  split; [apply _| | |].
  - intros x e log H. split; [done|done|]. simpl. by eapply log_sent_ok.
  - intros x dir t s. unfold set_MLACP, count_iccp. destruct (_ && _); by split.
  - intros x f. by split.
Qed.

(** What the senders leave alone, whatever else they do. *)
Definition same_queues (x' x : CSM) : Prop :=
  mac_msg_list (MLACP x') = mac_msg_list (MLACP x)
  ∧ arp_msg_list (MLACP x') = arp_msg_list (MLACP x)
  ∧ ndisc_msg_list (MLACP x') = ndisc_msg_list (MLACP x)
  ∧ sync_state (MLACP x') = sync_state (MLACP x)
  ∧ mlacp_current_state (MLACP x') = mlacp_current_state (MLACP x).

#[export] Instance same_queues_preorder : PreOrder same_queues.
Proof.
  split; [done|]. intros x y z (?&?&?&?&?) (?&?&?&?&?). repeat split; congruence.
Qed.

#[export] Instance same_queues_send : SendFrame same_queues.
Proof.
  split; [apply _|done| |done].
  intros x dir t s. unfold same_queues, MLACP, set_MLACP, count_iccp. simpl. by destruct (_ && _).
Qed.

#[export] Instance both_send le1 le2 : SendFrame le1 → SendFrame le2 → SendFrame (both le1 le2).
Proof.
  intros S1 S2. split; [apply _| | |].
  - intros x e log H. split; by eapply sf_log.
  - intros x dir t s. split; apply sf_count.
  - intros x f. split; apply sf_req_num.
Qed.

(** An update of other members. *)
Lemma step_other q x' x :
  mlacp_msg_list (MLACP x') = mlacp_msg_list (MLACP x) →
  mlacp_current_state (MLACP x') = mlacp_current_state (MLACP x) → msg_log x' = msg_log x →
  csm_step q x' x.
Proof. intros Hq Hs Hl. split; [|by rewrite Hs|by rewrite Hl]. unfold queue_len. by rewrite Hq. Qed.

Lemma step_succ q f x :
  (∀ m, mlacp_msg_list (f m) = mlacp_msg_list m) →
  (∀ m, mlacp_current_state (f m) = Z.succ (mlacp_current_state m)) →
  csm_step q (set_MLACP f x) x.
Proof.
  intros Hq Hs. unfold set_MLACP. split; simpl; [|unfold MLACP; simpl; rewrite Hs; lia|done].
  unfold queue_len, MLACP. simpl. by rewrite Hq.
Qed.

#[export] Hint Extern 1 (csm_step _ _ _) => first [ apply step_other; reflexivity | apply step_succ; reflexivity ] : frame.

Section steps.
Context (q : bool).
#[local] Notation spec := (spec (csm_step q)).
#[local] Notation any := (λ _, True).

(** ** Ports *)
Lemma purge_del_frame p : spec any (local_if_mlacp_purge_del p).
Proof. unfold local_if_mlacp_purge_del. frame. Qed.
Lemma del_all_vlan_frame p : spec any (local_if_del_all_vlan p).
Proof. unfold local_if_del_all_vlan, lif_upd. frame. Qed.
Hint Resolve purge_del_frame del_all_vlan_frame : frame.
Lemma purge_clear_frame : spec any local_if_purge_clear.
Proof. unfold local_if_purge_clear, sys_upd. frame. Qed.
Lemma peer_create_frame c n t : spec any (peer_if_create c n t).
Proof. unfold peer_if_create, alloc. frame. Qed.
Lemma peer_del_vlan_frame p : spec any (peer_if_del_all_vlan p).
Proof. unfold peer_if_del_all_vlan, pif_upd. frame. Qed.
Hint Resolve purge_clear_frame peer_create_frame peer_del_vlan_frame : frame.
Lemma peer_destroy_frame c p : spec any (peer_if_destroy c p).
Proof. unfold peer_if_destroy. frame. Qed.
Lemma peer_add_vlan_frame p v : spec any (peer_if_add_vlan p v).
Proof. unfold peer_if_add_vlan, pif_upd. frame. Qed.
Lemma clean_vlan_frame p : spec any (peer_if_clean_unused_vlan p).
Proof.
  assert (∀ prev, spec any (clean_pending p prev)) as Hp by (unfold clean_pending, pif_upd; frame).
  assert (∀ l prev, spec any (clean_walk p prev l)) as Hw.
  { induction l as [|v l IH]; intros prev; simpl; frame. }
  unfold peer_if_clean_unused_vlan. frame.
Qed.
Hint Resolve peer_destroy_frame peer_add_vlan_frame clean_vlan_frame : frame.

(** ** MAC entries *)
Lemma learn_kernel_frame c e : spec any (set_peerlink_learn_kernel c e).
Proof. unfold set_peerlink_learn_kernel. frame. Qed.
Lemma rb_insert_frame c p : spec any (mac_rb_insert c p).
Proof. unfold mac_rb_insert. frame. Qed.
Lemma rb_remove_frame c p : spec any (mac_rb_remove c p).
Proof. unfold mac_rb_remove. frame. Qed.
Lemma mac_enqueue_frame c p : spec any (mac_msg_enqueue c p).
Proof. unfold mac_msg_enqueue, mac_upd. frame. Qed.
Lemma mac_reinit_frame c : spec any (mlacp_mac_msg_queue_reinit c).
Proof. unfold mlacp_mac_msg_queue_reinit, mac_upd. frame. Qed.
Hint Resolve learn_kernel_frame rb_insert_frame rb_remove_frame mac_enqueue_frame mac_reinit_frame : frame.
Lemma age_flag_frame c p s u : spec any (set_mac_local_age_flag c p s u).
Proof. unfold set_mac_local_age_flag, mac_upd. frame. Qed.
Lemma mac_drop_frame c p : spec any (mac_drop c p).
Proof. unfold mac_drop. frame. Qed.
Hint Resolve age_flag_frame mac_drop_frame : frame.
Lemma set_age_frame c p s u : spec any (mac_set_age c p s u).
Proof. unfold mac_set_age, mac_upd. frame. Qed.
Lemma clear_pending_frame c p : spec any (mac_clear_pending c p).
Proof. unfold mac_clear_pending, mac_upd. frame. Qed.
Hint Resolve set_age_frame clear_pending_frame : frame.
Lemma port_down_frame c x pif p : spec any (mac_port_down c x pif p).
Proof. unfold mac_port_down, mac_upd. frame. Qed.
Lemma port_up_frame c x p : spec any (mac_port_up c x p).
Proof. unfold mac_port_up, mac_upd. frame. Qed.
Hint Resolve port_down_frame port_up_frame : frame.
Lemma l2_mac_frame c p s : spec any (update_l2_mac_state c p s).
Proof. unfold update_l2_mac_state, lif_upd. frame. Qed.
Lemma orphan_frame c p s : spec any (update_orphan_port_mac c p s).
Proof. unfold update_orphan_port_mac, mac_upd. frame. Qed.
Lemma convert_frame c n : spec any (mlacp_convert_remote_mac_to_local c n).
Proof. unfold mlacp_convert_remote_mac_to_local, mac_upd. frame. Qed.
Lemma remote_macs_frame c p : spec any (update_remote_macs_to_peerlink c p).
Proof. unfold update_remote_macs_to_peerlink. frame. Qed.
Lemma lif_pending_frame c p : spec any (mlacp_local_lif_clear_pending_mac c p).
Proof. unfold mlacp_local_lif_clear_pending_mac. frame. Qed.
Lemma sync_mac_frame c : spec any (mlacp_sync_mac c).
Proof. unfold mlacp_sync_mac, mac_upd. frame. Qed.
Lemma disconn_fdb_frame c : spec any (mlacp_peer_disconn_fdb_handler c).
Proof. unfold mlacp_peer_disconn_fdb_handler, mac_upd. frame. Qed.
Hint Resolve l2_mac_frame orphan_frame convert_frame remote_macs_frame lif_pending_frame sync_mac_frame
  disconn_fdb_frame : frame.

(** ** MAC entries of the peer *)
Lemma read_mac_frame o b : spec any (read_mac_data o b).
Proof. unfold read_mac_data. frame. Qed.
Lemma mclag_intf_frame x n : spec any (mac_mclag_intf x n).
Proof. unfold mac_mclag_intf. apply mfind_frame; [apply _|]. frame. Qed.
Lemma not_forwarding_frame p : spec any (not_forwarding p).
Proof. unfold not_forwarding. frame. Qed.
Lemma to_peer_link_frame c p : spec any (mac_point_to_peer_link c p).
Proof. unfold mac_point_to_peer_link. frame. Qed.
Lemma no_peer_link_frame c p l d : spec any (mac_without_peer_link c p l d).
Proof. unfold mac_without_peer_link, mac_upd. frame. Qed.
Hint Resolve read_mac_frame mclag_intf_frame not_forwarding_frame to_peer_link_frame
  no_peer_link_frame : frame.
Lemma moved_frame c p l d : spec any (mac_moved c p l d).
Proof. unfold mac_moved, mac_upd. frame. Qed.
Hint Resolve moved_frame : frame.
Lemma add_known_frame c p l d : spec any (mac_add_known c p l d).
Proof. unfold mac_add_known, mac_upd. frame. Qed.
Lemma del_known_frame c p : spec any (mac_del_known c p).
Proof. unfold mac_del_known, mac_upd. frame. Qed.
Lemma store_new_frame c p l : spec any (mac_store_new c p l).
Proof. unfold mac_store_new, iccp_csm_init_mac_msg, alloc. frame. Qed.
Hint Resolve add_known_frame del_known_frame store_new_frame : frame.
Lemma add_new_frame c l d : spec any (mac_add_new c l d).
Proof. unfold mac_add_new. frame. Qed.
Hint Resolve add_new_frame : frame.
Lemma mac_entry_frame c d : spec any (mlacp_fsm_update_mac_entry_from_peer c d).
Proof. unfold mlacp_fsm_update_mac_entry_from_peer. frame. Qed.
Hint Resolve mac_entry_frame : frame.
Lemma mac_from_peer_frame c b : spec any (mlacp_fsm_update_mac_info_from_peer c b).
Proof. unfold mlacp_fsm_update_mac_info_from_peer. frame. Qed.
Hint Resolve mac_from_peer_frame : frame.

(** ** Link events *)
Lemma neigh_walk_frame s f a m n d : spec any (neigh_set_walk s f a m n d).
Proof. unfold neigh_set_walk, field_u8, field_bytes. frame. Qed.
Hint Resolve neigh_walk_frame : frame.
Lemma arp_set_frame c p a : spec any (arp_set_handler c p a).
Proof. unfold arp_set_handler. frame. Qed.
Lemma ndisc_set_frame c p a : spec any (ndisc_set_handler c p a).
Proof. unfold ndisc_set_handler. frame. Qed.
Hint Resolve arp_set_frame ndisc_set_frame : frame.
Lemma l3_itf_frame c p r : spec any (set_l3_itf_state c p r).
Proof. unfold set_l3_itf_state. frame. Qed.
Lemma po_alive_frame c i : spec any (peer_po_is_alive c i).
Proof. unfold peer_po_is_alive. frame. all: apply mfind_frame; [apply _|]; frame. Qed.
Lemma init_msg_frame d l : spec any (iccp_csm_init_msg d l).
Proof. unfold iccp_csm_init_msg. frame. Qed.
Hint Resolve l3_itf_frame po_alive_frame init_msg_frame : frame.

Lemma syn_arp_frame c p : spec any (syn_arp_info_to_peer c p).
Proof. unfold syn_arp_info_to_peer, neigh_resend, field_bytes. frame. Qed.
Lemma syn_ndisc_frame c p : spec any (syn_ndisc_info_to_peer c p).
Proof. unfold syn_ndisc_info_to_peer, neigh_resend, field_bytes. frame. Qed.
Lemma resync_arp_frame c : spec any (mlacp_resync_arp c).
Proof. unfold mlacp_resync_arp, neigh_resend. frame. Qed.
Lemma resync_ndisc_frame c : spec any (mlacp_resync_ndisc c).
Proof. unfold mlacp_resync_ndisc, neigh_resend. frame. Qed.
Lemma isolate_dst_frame l b : spec any (isolate_dst l b).
Proof. revert b. induction l as [|p l IH]; intros b; simpl; frame. Qed.
Hint Resolve syn_arp_frame syn_ndisc_frame resync_arp_frame resync_ndisc_frame isolate_dst_frame : frame.
Lemma isolate_all_frame c : spec any (update_peerlink_isolate_from_all_csm_lif c).
Proof. unfold update_peerlink_isolate_from_all_csm_lif. frame. Qed.
Lemma kernel_forward_frame c p e : spec any (set_peerlink_mlag_port_kernel_forward c p e).
Proof. unfold set_peerlink_mlag_port_kernel_forward. frame. Qed.
Hint Resolve isolate_all_frame kernel_forward_frame : frame.
Lemma port_isolate_frame c p e b : spec any (set_peerlink_mlag_port_isolate c p e b).
Proof. unfold set_peerlink_mlag_port_isolate, lif_upd. frame. Qed.
Hint Resolve port_isolate_frame : frame.
Lemma isolate_cleanup_frame c : spec any (peerlink_port_isolate_cleanup c).
Proof. unfold peerlink_port_isolate_cleanup. frame. Qed.
Lemma isolate_pif_frame c p s n : spec any (update_peerlink_isolate_from_pif c p s n).
Proof. unfold update_peerlink_isolate_from_pif. frame. all: apply mfind_frame; [apply _|]; frame. Qed.
Lemma isolate_lif_frame c p s : spec any (update_peerlink_isolate_from_lif c p s).
Proof. unfold update_peerlink_isolate_from_lif. frame. all: apply mfind_frame; [apply _|]; frame. Qed.
Lemma l3_info_frame c p : spec any (update_l3_if_info c p).
Proof. unfold update_l3_if_info, lif_upd. frame. Qed.
Lemma po_info_frame c p s : spec any (update_po_if_info c p s).
Proof. unfold update_po_if_info, lif_upd. frame. Qed.
Hint Resolve isolate_cleanup_frame isolate_pif_frame isolate_lif_frame l3_info_frame po_info_frame : frame.
Lemma l2_po_frame c p s : spec any (update_l2_po_state c p s).
Proof. unfold update_l2_po_state. frame. Qed.
Lemma l3_po_frame c p s : spec any (update_l3_po_state c p s).
Proof. unfold update_l3_po_state. frame. Qed.
Hint Resolve l2_po_frame l3_po_frame : frame.
Lemma po_state_frame c p s : spec any (update_po_state c p s).
Proof. unfold update_po_state. frame. Qed.
Hint Resolve po_state_frame : frame.
Lemma portchannel_state_frame c p s : spec any (mlacp_portchannel_state_handler c p s).
Proof. unfold mlacp_portchannel_state_handler. frame. Qed.
Lemma link_del_frame c p : spec any (mlacp_mlag_link_del_handler c p).
Proof. unfold mlacp_mlag_link_del_handler. frame. Qed.
Lemma link_add_frame c p : spec any (mlacp_mlag_link_add_handler c p).
Proof. unfold mlacp_mlag_link_add_handler. frame. Qed.
Hint Resolve portchannel_state_frame link_del_frame link_add_frame : frame.
Lemma detach_frame c p : spec any (mlacp_mlag_intf_detach_handler c p).
Proof. unfold mlacp_mlag_intf_detach_handler. frame. Qed.
Lemma intf_delete_frame c n : spec any (mlacp_peer_mlag_intf_delete_handler c n).
Proof. unfold mlacp_peer_mlag_intf_delete_handler. frame. Qed.
Lemma stp_itf_frame c p i s : spec any (stp_peer_link_itf c p i s).
Proof. unfold stp_peer_link_itf. frame. Qed.
Hint Resolve detach_frame intf_delete_frame stp_itf_frame : frame.
Lemma stp_peer_link_frame c p s n : spec any (update_stp_peer_link c p s n).
Proof. unfold update_stp_peer_link. frame. all: apply mfind_frame; [apply _|]; frame. Qed.
Hint Resolve stp_peer_link_frame : frame.

(** ** Own addresses, session up and down *)
Lemma local_mac_frame c p a s : spec any (syn_local_mac_info_to_peer c p a s).
Proof.
  unfold syn_local_mac_info_to_peer. frame. all: apply build_and_send_frame; [apply _|]; frame.
Qed.
Lemma local_arp_frame c p a k : spec any (syn_local_arp_info_to_peer c p a k).
Proof.
  unfold syn_local_arp_info_to_peer. frame. all: apply build_and_send_frame; [apply _|]; frame.
Qed.
Lemma local_nd_frame c p a k l : spec any (syn_local_nd_info_to_peer c p a k l).
Proof.
  unfold syn_local_nd_info_to_peer. frame. all: apply build_and_send_frame; [apply _|]; frame.
Qed.
Hint Resolve local_mac_frame local_arp_frame local_nd_frame : frame.
Lemma local_neigh_frame p a v4 v6 m k l : spec any (syn_local_neigh_mac_info_to_peer p a v4 v6 m k l).
Proof. unfold syn_local_neigh_mac_info_to_peer. frame. Qed.
Hint Resolve local_neigh_frame : frame.
Lemma ack_neigh_frame n l : spec any (syn_ack_local_neigh_mac_info_to_peer n l).
Proof. unfold syn_ack_local_neigh_mac_info_to_peer. frame. Qed.
Hint Resolve ack_neigh_frame : frame.
Lemma unique_ip_frame : spec any sync_unique_ip.
Proof. unfold sync_unique_ip. frame. Qed.
Hint Resolve unique_ip_frame : frame.
Lemma peer_conn_frame c : spec any (mlacp_peer_conn_handler c).
Proof. unfold mlacp_peer_conn_handler, sys_upd. frame. Qed.
Lemma peer_disconn_frame c : spec any (mlacp_peer_disconn_handler c).
Proof. unfold mlacp_peer_disconn_handler, sys_upd. frame. Qed.
Hint Resolve peer_conn_frame peer_disconn_frame : frame.

(** ** Neighbour entries of the peer *)
Lemma read_neigh_frame k o b : spec any (read_neigh k o b).
Proof. unfold read_neigh. frame. Qed.
Lemma check_peer_link_frame k c d : spec any (neigh_check_peer_link k c d).
Proof. unfold neigh_check_peer_link. frame. Qed.
Lemma check_mlag_frame k d l m : spec any (neigh_check_mlag k d l m).
Proof. revert m. induction l as [|p l IH]; intros m; simpl; frame. Qed.
Lemma set_kernel_frame k d : spec any (neigh_set_kernel k d).
Proof. unfold neigh_set_kernel. frame. Qed.
Lemma neigh_index_frame k d i l : spec any (neigh_index k d i l).
Proof. revert i. induction l as [|m l IH]; intros i; simpl; unfold same_addr, field_bytes; frame. Qed.
Lemma neigh_write_frame k d m : spec any (neigh_write k d m).
Proof. unfold neigh_write, field_bytes. frame. Qed.
Hint Resolve read_neigh_frame check_peer_link_frame check_mlag_frame set_kernel_frame neigh_index_frame
  neigh_write_frame : frame.
End steps.

#[export] Hint Resolve purge_del_frame del_all_vlan_frame purge_clear_frame peer_create_frame
  peer_destroy_frame peer_add_vlan_frame clean_vlan_frame learn_kernel_frame mac_enqueue_frame
  mac_reinit_frame lif_pending_frame convert_frame mac_from_peer_frame init_msg_frame
  resync_arp_frame resync_ndisc_frame isolate_pif_frame isolate_lif_frame port_isolate_frame
  portchannel_state_frame link_del_frame link_add_frame detach_frame intf_delete_frame
  stp_peer_link_frame ack_neigh_frame peer_conn_frame peer_disconn_frame read_neigh_frame
  check_peer_link_frame check_mlag_frame set_kernel_frame neigh_index_frame neigh_write_frame : frame.

(** ** Loops *)

(** A loop with an invariant, and a variant that decreases in every round that
    continues. *)
Lemma post_mwhile le `{!PreOrder le} (I : World → Prop) (v : World → nat) body w0 fuel w :
  (∀ w, I w → match body w with
              | Ok b w' => kept le w w' ∧ (b = true → I w' ∧ (v w' < v w)%nat)
              | Fault f => f ≠ OutOfFuel
              end) →
  I w → kept le w0 w → (v w < fuel)%nat → post (kept le w0) (mwhile fuel body w).
Proof.
  intros Hb. revert w. induction fuel as [|n IH]; intros w HI K Hv; [lia|]. simpl.
  specialize (Hb w HI). unfold mbind, M_bind. destruct (body w) as [b w1|f]; [|done].
  destruct Hb as [K1 Hb]. destruct b; [|simpl; by etrans].
  destruct (Hb eq_refl) as [HI1 Hv1]. apply IH; [done|by etrans|lia].
Qed.

(** The kinds of neighbour entries: the lists are members of their own. *)
Class NeighKindOk (k : neigh_kind) : Prop := {
  nko_list f x : mlacp_msg_list (set (nk_list k) f x) = mlacp_msg_list x
                 ∧ mlacp_current_state (set (nk_list k) f x) = mlacp_current_state x;
  nko_queue f x : mlacp_msg_list (set (nk_queue k) f x) = mlacp_msg_list x
                  ∧ mlacp_current_state (set (nk_queue k) f x) = mlacp_current_state x;
  nko_get f x : nk_queue k (set (nk_queue k) f x) = f (nk_queue k x)
}.
#[export] Instance arp_kind_ok : NeighKindOk arp_kind.
Proof. done. Qed.
#[export] Instance ndisc_kind_ok : NeighKindOk ndisc_kind.
Proof. done. Qed.

(** The search for an entry does not change anything. *)
Lemma neigh_index_run k d i l w :
  match neigh_index k d i l w with
  | Ok r w' => w' = w ∧ ∀ j, r = Some j → (i ≤ j < i + length l)%nat
  | Fault f => f ≠ OutOfFuel
  end.
Proof.
  revert i. induction l as [|m l IH]; intros i; simpl; [done|].
  unfold same_addr, field_bytes, oob, from_option_or, mbind at 1, M_bind at 1.
  destruct (rd_bytes _ _ (msg_buf m)) as [a|]; [|done]. simpl.
  case_bool_decide; [split; [done|]; intros j [= <-]; lia|].
  specialize (IH (S i)). destruct (neigh_index k d (S i) l w) as [r w'|]; [|done].
  destruct IH as [-> Hr]. split; [done|]. intros j Hj. specialize (Hr j Hj). lia.
Qed.

(** * What sending does

    [iccp_csm_send] on a connected machine: one [write] with exactly the bytes of
    the message, one entry of the log, one counter.  The lemmas here compute the
    result of the code that builds and sends one message. *)

(** A state machine that can send: it is connected and its log is sound. *)
Record sender_ok (x : CSM) : Prop := {
  so_fd : 0 < sock_fd x;
  so_log : log_ok (msg_log x)
}.

(** The machine after a message: only the log and the counters differ. *)
Definition sent_csm (log : MsgLog) (cnt : gmap (Z * Z * Z) Z) (x : CSM) : CSM :=
  set_MLACP (set iccp_counters (λ _, cnt)) (x <| msg_log := log |>).

(** The world after a [write]. *)
Definition written (fd : Z) (data : list Z) (w : World) : World :=
  w <| w_trace ::= cons (SysWrite fd data, w_env w (w_trace w) (SysWrite fd data)) |>.

Definition write_result (fd : Z) (data : list Z) (w : World) : Z :=
  w_env w (w_trace w) (SysWrite fd data).

Lemma rd16_in off b : (off + 2 ≤ length b)%nat → is_Some (rd16 off b).
Proof.
  intros H. unfold rd16, rd8. destruct (lookup_lt_is_Some_2 b off) as [x ->]; [lia|].
  destruct (lookup_lt_is_Some_2 b (off + 1)) as [y Hy]; [lia|]. simpl. rewrite Hy. by eexists.
Qed.

Lemma rd32_some off b : (off + 4 ≤ length b)%nat → is_Some (rd32 off b).
Proof.
  intros H. unfold rd32. destruct (rd16_in off b) as [x ->]; [lia|].
  destruct (rd16_in (off + 2) b) as [y Hy]; [lia|]. simpl. rewrite Hy. by eexists.
Qed.

Lemma sent_entry_some b : (18 ≤ length b)%nat → is_Some (sent_entry b).
Proof.
  intros H. unfold sent_entry. destruct (rd16_in 0 b) as [x ->]; [lia|]. simpl.
  destruct (rd32_some (offsetof LDPHdr "msg_id") b) as [y ->]; [vm_compute (offsetof _ _); lia|]. simpl.
  match goal with |- context [rd16 ?o b] => destruct (rd16_in o b) as [z ->] end; [|by eexists].
  case_match; vm_compute (sizeof _); lia.
Qed.

Lemma log_sent_some e l : log_ok l → ∃ l', log_sent e l = Some l' ∧ log_ok l'.
Proof.
  intros [Hl Hi]. destruct (log_sent e l) as [l'|] eqn:E.
  - exists l'. split; [done|]. by eapply log_sent_ok.
  - unfold log_sent in E. case_bool_decide as H; [done|]. lia.
Qed.

Lemma sent_csm_count dir t s log x :
  set_MLACP (count_iccp dir t s) (x <| msg_log := log |>)
  = sent_csm log (iccp_counters (count_iccp dir t s (MLACP x))) x.
Proof.
  destruct x as [? ? ? ? ? ? ? ? ? ? ? ? ? ? ? ? ? ? [m] ?]. unfold sent_csm, set_MLACP, MLACP, count_iccp.
  simpl. destruct (_ && _); by destruct m.
Qed.

(** One message sent. *)
Lemma send_run c x b len w :
  w_csms w !! c = Some x → c ≠ NULL → sender_ok x → (18 ≤ length b)%nat →
  0 < len ≤ Z.of_nat (length b) →
  ∃ log cnt, log_ok log ∧
    iccp_csm_send c b len w
    = Ok (write_result (sock_fd x) (take (Z.to_nat len) b) w)
         (csm_set c (sent_csm log cnt x) (written (sock_fd x) (take (Z.to_nat len) b) w)).
Proof.
  intros Hx Hc [Hfd Hlog] Hb Hlen. unfold iccp_csm_send. rewrite eqb_null by done.
  rewrite (deref_bind _ _ x) by done.
  rewrite (proj2 (Z.leb_gt _ _)), (proj2 (Z.leb_gt len _)) by lia. simpl.
  destruct (sent_entry_some b Hb) as [e ->]. rewrite (oob_bind _ e) by done.
  destruct (log_sent_some e _ Hlog) as (log & -> & Hok). rewrite (oob_bind _ log) by done.
  rewrite (csm_upd_bind c _ x) by done.
  rewrite (oob_bind _ (take (Z.to_nat len) b)).
  2: { unfold rd_bytes. rewrite drop_0. case_match eqn:E; [done|]. apply Nat.leb_gt in E. lia. }
  rewrite sys_bind. set (w1 := written _ _ _).
  set (data := take (Z.to_nat len) b) in *. change (w_trace (csm_set c _ w)) with (w_trace w).
  change (w_env (csm_set c _ w)) with (w_env w).
  change (csm_set c (x <| msg_log := log |>) w <| w_trace ::= _ |>)
    with (csm_set c (x <| msg_log := log |>) w1).
  assert (∃ cnt, ∀ r,
    ((if (r <=? 0) || negb (r =? len)
      then MLACP_SET_ICCP_TX_DBG_COUNTER c (log_tlv e) ICCP_DBG_CNTR_STS_ERR
      else MLACP_SET_ICCP_TX_DBG_COUNTER c (log_tlv e) ICCP_DBG_CNTR_STS_OK);; mret r)
     (csm_set c (x <| msg_log := log |>) w1)
    = Ok r (csm_set c (sent_csm log (cnt r) x) w1)) as [cnt H].
  { exists (λ r, iccp_counters (count_iccp ICCP_DBG_CNTR_DIR_TX (log_tlv e)
              (if (r <=? 0) || negb (r =? len) then ICCP_DBG_CNTR_STS_ERR else ICCP_DBG_CNTR_STS_OK)
              (MLACP x))).
    intros r. unfold MLACP_SET_ICCP_TX_DBG_COUNTER, mlacp_upd.
    destruct (_ || _); (rewrite (csm_upd_bind c _ (x <| msg_log := log |>)) by done);
      by rewrite csm_set_set, sent_csm_count. }
  exists log, (cnt (w_env w (w_trace w) (SysWrite (sock_fd x) data))). split; [done|]. apply H.
Qed.

(** A builder run on the global buffer. *)
Lemma in_csm_buf_run f len b' w w' :
  f (w_csm_buf w) CSM_BUFFER_SIZE w = Ok (len, b') w' →
  in_csm_buf f w = Ok len (w' <| w_csm_buf := b' |>).
Proof. intros H. unfold in_csm_buf, gets, mbind, M_bind. by rewrite H. Qed.

Lemma clear_run w : length (w_csm_buf w) = CSM_BUFFER_SIZE →
  clear_csm_buf w = Ok tt (w <| w_csm_buf := replicate CSM_BUFFER_SIZE 0 |>).
Proof. intros Hb. unfold clear_csm_buf, gets, mbind, M_bind. by rewrite memset0_all. Qed.

Lemma in_buffer_length m n : (length m ≤ n)%nat → length (in_buffer m n) = n.
Proof. intros H. unfold in_buffer. rewrite length_app, length_replicate. lia. Qed.

Lemma in_buffer_take m n : take (length m) (in_buffer m n) = m.
Proof. unfold in_buffer. by rewrite take_app_length. Qed.

(** Sending what a builder left in the buffer. *)
Lemma send_built_run c x data w :
  w_csms w !! c = Some x → c ≠ NULL → sender_ok x → (0 < length data ≤ CSM_BUFFER_SIZE)%nat →
  w_csm_buf w = in_buffer data CSM_BUFFER_SIZE →
  ∃ log cnt, log_ok log ∧
    (b ← gets w_csm_buf; iccp_csm_send c b (Z.of_nat (length data))) w
    = Ok (write_result (sock_fd x) data w) (csm_set c (sent_csm log cnt x) (written (sock_fd x) data w)).
Proof.
  intros Hx Hc Hs Hl Hb. unfold gets, mbind, M_bind. rewrite Hb.
  assert (length (in_buffer data CSM_BUFFER_SIZE) = CSM_BUFFER_SIZE) as Hbl by (apply in_buffer_length; lia).
  destruct (send_run c x (in_buffer data CSM_BUFFER_SIZE) (Z.of_nat (length data)) w)
    as (log & cnt & Hlog & Hsend); [done..|rewrite Hbl; unfold CSM_BUFFER_SIZE; lia|lia|].
  rewrite Nat2Z.id, in_buffer_take in Hsend. eauto.
Qed.
