(* ===== verification/Batches.v ===== *)
(** * Messages that carry several entries

    The queues of MAC entries and of neighbours are sent in batches: the messages
    carry exactly the entries of the queue, in order, each message as many as fit
    the limit of the code, and the queue is empty afterwards. *)

From S2P Require Import Prelude CMem CString MsgFormat State Machine Frame IccpMsg IccpQueue SyncPrepare.
From S2P Require Import Port MacTable IccpCsm MlacpFsm Boot FrameSteps.
#[local] Open Scope Z_scope.

(** The data written on a descriptor, the last first. *)
Definition write_data (fd : Z) (e : event) : option (list Z) :=
  match e with
  | (SysWrite fd' data, _) => if fd' =? fd then Some data else None
  | _ => None
  end.
Definition sent_on (fd : Z) (w : World) : list (list Z) := omap (write_data fd) (w_trace w).

(** A list cut in groups: all but the last have [n] elements, the last at most [n],
    and none is empty. *)
Definition cut {V} (n : nat) (groups : list (list V)) (l : list V) : Prop :=
  concat groups = l
  ∧ ∃ full last, groups = full ++ last ∧ Forall (λ g, length g = n) full
      ∧ (last = [] ∨ ∃ g, last = [g] ∧ 0 < length g ≤ n)%nat.

(** A message of one batch. *)
Definition is_batch {V} (rg : Z) (type : Z) (sz : nat) (entry : V → list Z) (d : list Z) (g : list V) : Prop :=
  ∃ id, d = app_data_wire (Z.of_nat (22 + sz * length g)) id rg type (batch_body sz (entry <$> g)).

Lemma sent_on_written fd data w : sent_on fd (written fd data w) = data :: sent_on fd w.
Proof. unfold sent_on, written. simpl. by rewrite Z.eqb_refl. Qed.

Lemma batch_buffer_rg x y id type sz es n : rg_of x = rg_of y → batch_buffer x id type sz es n = batch_buffer y id type sz es n.
Proof. intros H. unfold batch_buffer, batch_wire. by rewrite H. Qed.

Lemma batch_buffer_wire x id type sz es n : es ≠ [] → batch_buffer x id type sz es n = in_buffer (batch_wire x id type sz es) n.
Proof. by destruct es. Qed.

Section batches.
Context {E V : Type} (qu : mLACP → list E) `{!Settable qu}.
Context (c : ptr) (rg fd type : Z) (sz limit : nat) (entry : V → list Z) (P : V → Prop) (build : E → nat → W Z).
(** What the entries of the queue rely on: the elements and what they stand for, the
    tree, and the heap of MAC entries. *)
Context (I : list E → list V → list ptr → gmap Z MACMsg → Prop).

Hypothesis qu_get : ∀ l m, qu (set qu (λ _, l) m) = l.
Hypothesis qu_rb : ∀ l m, mac_rb (set qu (λ _, l) m) = mac_rb m.
Hypothesis qu_count : ∀ n m, qu (set iccp_counters n m) = qu m.
Hypothesis Hc : c ≠ NULL.
Hypothesis P_ok : ∀ v, P v → entry_ok sz (entry v).
Hypothesis Hlimit : (0 < limit)%nat.
Hypothesis Hsize : (22 + sz * limit ≤ CSM_BUFFER_SIZE)%nat.
Hypothesis I_nil : ∀ vs t h, I [] vs t h → vs = [].
Hypothesis I_cons : ∀ e rest vs t h, I (e :: rest) vs t h → ∃ v vs', vs = v :: vs'.

Record ready (rest : list E) (vs cur : list V) (x : CSM) (w : World) : Prop := {
  rd_csm : w_csms w !! c = Some x;
  rd_send : sender_ok x;
  rd_fd : sock_fd x = fd;
  rd_rg : rg_of x = rg;
  rd_inv : I rest vs (mac_rb (MLACP x)) (w_macs w);
  rd_cur : Forall P cur;
  rd_buf : ∃ id, w_csm_buf w = batch_buffer x id type sz (entry <$> cur) CSM_BUFFER_SIZE
}.

(** One entry added to the message in the buffer. *)
Hypothesis build_ok : ∀ e rest v vs cur x w,
  ready (e :: rest) (v :: vs) cur x w → (length cur < limit)%nat →
  ∃ w', build e (length cur) w = Ok (Z.of_nat (22 + sz * (length cur + 1))) w'
    ∧ ready rest vs (cur ++ [v]) x w' ∧ sent_on fd w' = sent_on fd w.

Lemma entries_ok cur : Forall P cur → Forall (entry_ok sz) (entry <$> cur).
Proof. intros H. apply Forall_fmap. by eapply Forall_impl. Qed.

Lemma batch_is_wire x id g : rg_of x = rg → is_batch rg type sz entry (batch_wire x id type sz (entry <$> g)) g.
Proof. intros H. exists id. unfold batch_wire. by rewrite H, length_fmap. Qed.

Lemma ready_nil rest vs cur x w b :
  ready rest vs cur x w → b = replicate CSM_BUFFER_SIZE 0 → ready rest vs [] x (w <| w_csm_buf := b |>).
Proof. intros [] ->. constructor; [done..|by constructor|by exists 0]. Qed.

(** Sending the message in the buffer. *)
Lemma send_batch_run rest vs cur x w :
  ready rest vs cur x w → (0 < length cur ≤ limit)%nat →
  ∃ log cnt d w', log_ok log ∧ is_batch rg type sz entry d cur
    ∧ (b ← gets w_csm_buf; iccp_csm_send c b (Z.of_nat (22 + sz * length cur))) w
      = Ok (write_result fd d w) w'
    ∧ ready rest vs cur (sent_csm log cnt x) w' ∧ sent_on fd w' = d :: sent_on fd w
    ∧ length (w_csm_buf w') = CSM_BUFFER_SIZE.
Proof.
  intros [Hx Hs Hfd Hr HI Hcur [id Hb]] Hl.
  assert (length (batch_wire x id type sz (entry <$> cur)) = 22 + sz * length cur)%nat as Hlen.
  { rewrite batch_wire_length by by apply entries_ok. by rewrite length_fmap. }
  rewrite batch_buffer_wire in Hb by (destruct cur; [simpl in Hl; lia|done]).
  assert (sz * length cur ≤ sz * limit)%nat by (apply Nat.mul_le_mono_l; lia).
  destruct (send_built_run c x (batch_wire x id type sz (entry <$> cur)) w) as (log & cnt & Hlog & Hsend);
    [done|done|done|lia|done|].
  rewrite Hlen, Hfd in Hsend.
  exists log, cnt, (batch_wire x id type sz (entry <$> cur)). eexists. split; [done|].
  split; [by apply batch_is_wire|]. split; [exact Hsend|]. split; [|split].
  - constructor; [apply csm_set_lookup| |exact Hfd|exact Hr|exact HI|exact Hcur|].
    + destruct Hs. by split.
    + exists id. rewrite (batch_buffer_wire (sent_csm log cnt x)) by (destruct cur; [simpl in Hl; lia|done]).
      exact Hb.
  - exact (sent_on_written fd _ w).
  - change (length (w_csm_buf w) = CSM_BUFFER_SIZE). rewrite Hb. apply in_buffer_length. lia.
Qed.

Definition body (e : E) (count : nat) : W (nat * Z) :=
  msg_len ← build e count; flush_batch c limit (S count) msg_len.

(** One element: built, and the message sent when it is full. *)
Lemma body_run e rest v vs cur x w :
  ready (e :: rest) (v :: vs) cur x w → (length cur < limit)%nat → qu (MLACP x) = rest →
  ∃ x' w' cur' ds groups,
    body e (length cur) w = Ok (length cur', Z.of_nat (22 + sz * (length cur + 1))) w'
    ∧ ready rest vs cur' x' w' ∧ qu (MLACP x') = rest ∧ (length cur' < limit)%nat
    ∧ concat groups ++ cur' = cur ++ [v] ∧ Forall (λ g, length g = limit) groups
    ∧ Forall2 (is_batch rg type sz entry) ds groups
    ∧ sent_on fd w' = reverse ds ++ sent_on fd w
    ∧ (cur' = [] ∨ length cur' = length cur + 1)%nat.
Proof.
  intros Hr Hl Hq. destruct (build_ok e rest v vs cur x w Hr Hl) as (w1 & E1 & Hr1 & S1).
  unfold body. rewrite (bind_ok _ _ _ _ _ E1). unfold flush_batch.
  destruct (Nat.leb_spec limit (S (length cur))) as [Hf|Hf].
  - assert (length (cur ++ [v]) = limit) as Hlen by (rewrite length_app; simpl; lia).
    destruct (send_batch_run rest vs (cur ++ [v]) x w1) as (log & cnt & d & w2 & Hlog & Hd & E2 & Hr2 & S2 & Hb2);
      [done|lia|].
    rewrite length_app in E2. simpl in E2. rewrite <-bind_assoc, (bind_ok _ _ _ _ _ E2).
    rewrite (bind_ok _ _ _ _ _ (clear_run w2 Hb2)).
    exists (sent_csm log cnt x). eexists. exists [], [d], [cur ++ [v]]. split; [done|].
    split; [by eapply ready_nil|]. split; [|split_and!].
    + rewrite <-Hq. apply qu_count.
    + done.
    + simpl. by rewrite !app_nil_r.
    + by constructor.
    + by repeat constructor.
    + change (sent_on fd w2 = [d] ++ sent_on fd w). by rewrite S2, S1.
    + by left.
  - assert (length (cur ++ [v]) = S (length cur)) as Hlen by (rewrite length_app; simpl; lia).
    exists x, w1, (cur ++ [v]), [], []. rewrite Hlen.
    split_and!; try done. right; lia.
Qed.

Lemma drain_run fuel rest vs cur len x w :
  (length rest < fuel)%nat → ready rest vs cur x w → (length cur < limit)%nat → qu (MLACP x) = rest →
  (cur ≠ [] → len = Z.of_nat (22 + sz * length cur)) →
  ∃ x' w' cur' len' ds groups,
    drain qu body c fuel (length cur) len w = Ok (length cur', len') w'
    ∧ ready [] [] cur' x' w' ∧ qu (MLACP x') = [] ∧ (length cur' < limit)%nat
    ∧ concat groups ++ cur' = cur ++ vs ∧ Forall (λ g, length g = limit) groups
    ∧ Forall2 (is_batch rg type sz entry) ds groups
    ∧ sent_on fd w' = reverse ds ++ sent_on fd w
    ∧ (cur' ≠ [] → len' = Z.of_nat (22 + sz * length cur')).
Proof.
  revert rest vs cur len x w. induction fuel as [|fuel IH]; intros rest vs cur len x w Hf Hr Hl Hq Hlen; [lia|].
  simpl. rewrite (deref_bind _ _ x) by apply Hr. rewrite Hq. destruct rest as [|e rest].
  - rewrite (I_nil _ _ _ (rd_inv _ _ _ _ _ Hr)) in Hr |- *.
    exists x, w, cur, len, [], []. simpl. rewrite app_nil_r. split_and!; done.
  - destruct (I_cons _ _ _ _ _ (rd_inv _ _ _ _ _ Hr)) as (v & vs' & ->).
    set (x1 := set_MLACP (set qu (λ _, rest)) x). set (w1 := csm_set c x1 w).
    assert (mlacp_upd c (set qu (λ _, rest)) w = Ok tt w1) as E1 by (apply csm_upd_run; apply Hr).
    rewrite (bind_ok _ _ _ _ _ E1).
    assert (ready (e :: rest) (v :: vs') cur x1 w1) as Hr1.
    { destruct Hr as [Hx [Hs1 Hs2] Hfd Hrg HI Hcur [id Hb]].
      constructor; [apply csm_set_lookup|by split|exact Hfd|exact Hrg| |exact Hcur|by exists id].
      unfold x1, MLACP. simpl. by rewrite qu_rb. }
    destruct (body_run e rest v vs' cur x1 w1 Hr1 Hl) as (x2 & w2 & cur2 & ds & gs & E2 & Hr2 & Hq2 & Hl2 & Hg & Hgl & Hd & Hs & Hcl).
    { unfold x1, MLACP. simpl. by rewrite qu_get. }
    rewrite (bind_ok _ _ _ _ _ E2).
    destruct (IH rest vs' cur2 (Z.of_nat (22 + sz * (length cur + 1))) x2 w2)
      as (x' & w' & cur' & len' & ds' & gs' & E' & Hr' & Hq' & Hl' & Hg' & Hgl' & Hd' & Hs' & Hcl');
      [simpl in Hf; lia|done|done|done|by destruct Hcl as [->|<-]|].
    exists x', w', cur', len', (ds ++ ds'), (gs ++ gs'). split; [done|]. split; [done|]. split; [done|].
    split; [done|]. split; [|split; [by apply Forall_app|split; [by apply Forall2_app|split; [|done]]]].
    + rewrite concat_app, <-app_assoc, Hg', app_assoc, Hg. by rewrite <-app_assoc.
    + rewrite Hs', Hs, reverse_app, <-app_assoc. done.
Qed.

(** The whole queue. *)
Lemma send_batches_run vs x w :
  w_csms w !! c = Some x → sender_ok x → sock_fd x = fd → rg_of x = rg →
  length (w_csm_buf w) = CSM_BUFFER_SIZE → I (qu (MLACP x)) vs (mac_rb (MLACP x)) (w_macs w) →
  ∃ w' x' ds groups,
    send_batches qu body c w = Ok tt w' ∧ w_csms w' !! c = Some x' ∧ qu (MLACP x') = []
    ∧ cut limit groups vs ∧ Forall2 (is_batch rg type sz entry) ds groups
    ∧ sent_on fd w' = reverse ds ++ sent_on fd w.
Proof.
  intros Hx Hs Hfd Hrg Hb HI. unfold send_batches. rewrite (bind_ok _ _ _ _ _ (clear_run w Hb)).
  set (w1 := w <| w_csm_buf := _ |>).
  rewrite (deref_bind _ _ x) by done.
  assert (ready (qu (MLACP x)) vs [] x w1) as Hr.
  { constructor; [done..|by constructor|by exists 0]. }
  destruct (drain_run (S (length (qu (MLACP x)))) _ _ [] 0 x w1 (Nat.lt_succ_diag_r _) Hr Hlimit eq_refl)
    as (x2 & w2 & cur & len & ds & gs & E2 & Hr2 & Hq2 & Hl2 & Hg & Hgl & Hd & Hsent & Hlen); [done|].
  simpl in E2, Hg. rewrite (bind_ok _ _ _ _ _ E2). unfold send_rest.
  destruct cur as [|v cur].
  - simpl. exists w2, x2, ds, gs. split; [done|]. split; [apply Hr2|]. split; [done|]. split; [|done].
    rewrite app_nil_r in Hg. split; [done|]. exists gs, []. rewrite app_nil_r. auto.
  - rewrite (Hlen ltac:(done)).
    destruct (send_batch_run [] [] (v :: cur) x2 w2 Hr2) as (log & cnt & d & w3 & Hlog & Hd3 & E3 & Hr3 & S3 & _).
    { simpl in Hl2 |- *. lia. }
    change ((length (v :: cur) =? 0)%nat) with false. cbv iota.
    rewrite <-bind_assoc, (bind_ok _ _ _ _ _ E3).
    exists w3, (sent_csm log cnt x2), (ds ++ [d]), (gs ++ [v :: cur]). split; [done|].
    split; [apply Hr3|]. split; [rewrite <-Hq2; apply qu_count|]. split; [|split].
    + split; [by rewrite concat_app; simpl; rewrite app_nil_r|]. exists gs, [v :: cur].
      split; [done|]. split; [done|]. right. exists (v :: cur). split; [done|]. simpl in Hl2 |- *. lia.
    + apply Forall2_app; [done|]. by repeat constructor.
    + rewrite S3, Hsent, reverse_app. done.
Qed.
End batches.

(** ** Neighbours *)

(** A queued message is the memory of a neighbour entry with an address of [k] bytes. *)
Definition queued_neigh (k : nat) (m : Msg) (v : neigh) : Prop :=
  neigh_ok k v ∧ ∃ p1 p2 p3, msg_buf m = neigh_bytes v p1 p2 p3.

Definition neigh_inv (k : nat) (rest : list Msg) (vs : list neigh) (t : list ptr) (h : gmap Z MACMsg) : Prop :=
  Forall2 (queued_neigh k) rest vs.

(** Building one entry, for a builder [f] of the layout of its kind. *)
Lemma neigh_build_ok c rg fd type k f e rest v vs cur x w :
  c ≠ NULL → (k ≤ 16)%nat →
  (∀ x m p1 p2 p3 id ms n w,
    w_csms w !! c = Some x → c ≠ NULL → neigh_ok k m → Forall (neigh_ok k) ms →
    (22 + (32 + k) * (length ms + 1) ≤ n)%nat →
    f (batch_buffer x id type (32 + k) (neigh_entry <$> ms) n) n (neigh_bytes m p1 p2 p3) (length ms) w
    = Ok (Z.of_nat (22 + (32 + k) * (length ms + 1)),
          batch_buffer x (w_msg_id w) type (32 + k) (neigh_entry <$> ms ++ [m]) n) (bump_msg_id w)) →
  ready c rg fd type (32 + k) neigh_entry (neigh_ok k) (neigh_inv k) (e :: rest) (v :: vs) cur x w →
  (length cur < MAX_NEIGH_ENTRY_NUM)%nat →
  ∃ w', in_csm_buf (λ b n, f b n (msg_buf e) (length cur)) w = Ok (Z.of_nat (22 + (32 + k) * (length cur + 1))) w'
    ∧ ready c rg fd type (32 + k) neigh_entry (neigh_ok k) (neigh_inv k) rest vs (cur ++ [v]) x w'
    ∧ sent_on fd w' = sent_on fd w.
Proof.
  intros Hc Hk Hf [Hx Hs Hfd Hr HI Hcur [id Hb]] Hl.
  apply Forall2_cons_1 in HI as [[Hv (p1 & p2 & p3 & He)] HI].
  pose proof (Hf x v p1 p2 p3 id cur CSM_BUFFER_SIZE w Hx Hc Hv Hcur) as Hrun. rewrite <-Hb, <-He in Hrun.
  eexists. split; [apply in_csm_buf_run, Hrun|].
  { unfold CSM_BUFFER_SIZE, MAX_NEIGH_ENTRY_NUM in *. nia. }
  split; [|done]. constructor; [exact Hx|exact Hs|exact Hfd|exact Hr|exact HI| |].
  - apply Forall_app. split; [exact Hcur|]. by constructor.
  - by exists (w_msg_id w).
Qed.

Lemma neigh_batches c k type (qu : mLACP → list Msg) `{!Settable qu} f x w ms :
  (∀ l m, qu (set qu (λ _, l) m) = l) → (∀ l m, mac_rb (set qu (λ _, l) m) = mac_rb m) →
  (∀ n m, qu (set iccp_counters n m) = qu m) →
  c ≠ NULL → (k ≤ 16)%nat →
  (∀ x m p1 p2 p3 id ms n w,
    w_csms w !! c = Some x → c ≠ NULL → neigh_ok k m → Forall (neigh_ok k) ms →
    (22 + (32 + k) * (length ms + 1) ≤ n)%nat →
    f (batch_buffer x id type (32 + k) (neigh_entry <$> ms) n) n (neigh_bytes m p1 p2 p3) (length ms) w
    = Ok (Z.of_nat (22 + (32 + k) * (length ms + 1)),
          batch_buffer x (w_msg_id w) type (32 + k) (neigh_entry <$> ms ++ [m]) n) (bump_msg_id w)) →
  w_csms w !! c = Some x → sender_ok x → length (w_csm_buf w) = CSM_BUFFER_SIZE →
  Forall2 (queued_neigh k) (qu (MLACP x)) ms →
  ∃ w' x' ds groups,
    send_batches qu (send_neigh f c) c w = Ok tt w' ∧ w_csms w' !! c = Some x' ∧ qu (MLACP x') = []
    ∧ cut MAX_NEIGH_ENTRY_NUM groups ms
    ∧ Forall2 (is_batch (rg_of x) type (32 + k) neigh_entry) ds groups
    ∧ sent_on (sock_fd x) w' = reverse ds ++ sent_on (sock_fd x) w.
Proof.
  intros H1 H2 H3 Hc Hk Hf Hx Hs Hb HI.
  eapply (send_batches_run qu c (rg_of x) (sock_fd x) type (32 + k) MAX_NEIGH_ENTRY_NUM neigh_entry (neigh_ok k)
    (λ e count, in_csm_buf (λ b n, f b n (msg_buf e) count)) (neigh_inv k)); try done.
  - intros v. apply neigh_entry_ok.
  - unfold MAX_NEIGH_ENTRY_NUM. lia.
  - unfold CSM_BUFFER_SIZE, MAX_NEIGH_ENTRY_NUM. lia.
  - intros vs t h HI'. by apply Forall2_nil_inv_l in HI'.
  - intros e rest vs t h HI'. apply Forall2_cons_inv_l in HI' as (v & vs' & _ & _ & ->). eauto.
  - intros. by eapply neigh_build_ok.
Qed.

(** C28. [mlacp_sync_send_syncArpInfo] sends the whole ARP queue: the messages written on
    the session socket carry exactly the queued entries, in order; each carries
    forty, the last one what is left; each has the layout of the ARP TLV, with the
    redundancy group, the lengths and the count of its entries; and the queue is
    empty afterwards. *)
Theorem arp_queue_sent c x w ms :
  w_csms w !! c = Some x → c ≠ NULL → sender_ok x → length (w_csm_buf w) = CSM_BUFFER_SIZE →
  Forall2 (queued_neigh 4) (arp_msg_list (MLACP x)) ms →
  ∃ w' x' ds groups,
    mlacp_sync_send_syncArpInfo c w = Ok tt w' ∧ w_csms w' !! c = Some x' ∧ arp_msg_list (MLACP x') = []
    ∧ cut MAX_NEIGH_ENTRY_NUM groups ms
    ∧ Forall2 (is_batch (rg_of x) TLV_T_MLACP_ARP_INFO 36 neigh_entry) ds groups
    ∧ sent_on (sock_fd x) w' = reverse ds ++ sent_on (sock_fd x) w.
Proof.
  intros Hx Hc Hs Hb HI. apply (neigh_batches c 4 TLV_T_MLACP_ARP_INFO arp_msg_list); try done; [lia|].
  intros. by apply arp_info_run.
Qed.

(** [mlacp_sync_send_syncNdiscInfo] does the same with the neighbour-discovery queue
    and its TLV. *)
Theorem ndisc_queue_sent c x w ms :
  w_csms w !! c = Some x → c ≠ NULL → sender_ok x → length (w_csm_buf w) = CSM_BUFFER_SIZE →
  Forall2 (queued_neigh 16) (ndisc_msg_list (MLACP x)) ms →
  ∃ w' x' ds groups,
    mlacp_sync_send_syncNdiscInfo c w = Ok tt w' ∧ w_csms w' !! c = Some x' ∧ ndisc_msg_list (MLACP x') = []
    ∧ cut MAX_NEIGH_ENTRY_NUM groups ms
    ∧ Forall2 (is_batch (rg_of x) TLV_T_MLACP_NDISC_INFO 48 neigh_entry) ds groups
    ∧ sent_on (sock_fd x) w' = reverse ds ++ sent_on (sock_fd x) w.
Proof.
  intros Hx Hc Hs Hb HI. apply (neigh_batches c 16 TLV_T_MLACP_NDISC_INFO ndisc_msg_list); try done.
  intros. by apply ndisc_info_run.
Qed.

(** ** MAC entries *)

Lemma compare_key m : MACMsg_compare (mac_key (mac_vid m) (mac_addr m)) m = 0.
Proof.
  unfold MACMsg_compare. simpl. rewrite memcmp_refl, Z.ltb_irrefl.
  replace (mac_vid m >? mac_vid m) with false by lia. done.
Qed.

(** The entries of the queue are live and distinct; those of the tree are live. *)
Record mac_inv (rest : list ptr) (vs : list MACMsg) (t : list ptr) (h : gmap Z MACMsg) : Prop := {
  mi_queue : Forall2 (λ p v, h !! p = Some v ∧ mac_ok v) rest vs;
  mi_distinct : NoDup rest;
  mi_tree : Forall (λ q, q ≠ NULL ∧ is_Some (h !! q)) t
}.

(** [RB_FIND] on a live tree. *)
Lemma rb_find_run key t w :
  Forall (λ q, q ≠ NULL ∧ is_Some (w_macs w !! q)) t →
  ∃ r, mac_rb_find key t w = Ok r w
    ∧ (∀ p m, p ∈ t → w_macs w !! p = Some m → MACMsg_compare key m = 0 → r ≠ NULL).
Proof.
  unfold mac_rb_find. induction 1 as [|q t [Hq [m Hm]] _ (r & Hr & IH)].
  - exists NULL. split; [done|]. intros p m Hp. by apply not_elem_of_nil in Hp.
  - cbn [mfind]. rewrite bind_assoc, (deref_bind _ _ m) by done.
    rewrite (bind_ok (mret _) _ w _ w eq_refl).
    destruct (MACMsg_compare key m =? 0) eqn:E.
    + exists q. split; [done|]. done.
    + exists r. split; [done|]. intros p m' [->|Hp]%elem_of_cons Hm' Hz; [|by eauto].
      simplify_eq. by rewrite Hz in E.
Qed.

(** An entry that has been sent is freed only if it leaves no trace in the tree. *)
Lemma free_sent_run c p x m w rest vs :
  w_csms w !! c = Some x → w_macs w !! p = Some m → p ∉ rest →
  mac_inv rest vs (mac_rb (MLACP x)) (w_macs w) →
  ∃ h tr, mac_free_sent c p w = Ok tt (w <| w_macs := h |> <| w_trace := tr |>)
    ∧ mac_inv rest vs (mac_rb (MLACP x)) h
    ∧ ∀ fd, omap (write_data fd) tr = omap (write_data fd) (w_trace w).
Proof.
  intros Hx Hp Hnot [Hq Hd Ht]. unfold mac_free_sent. rewrite (deref_bind _ _ m) by done.
  destruct (mac_op_type m =? MAC_SYNC_DEL); cbn [when].
  2: { exists (w_macs w), (w_trace w). split; [by destruct w|]. done. }
  rewrite (deref_bind _ _ x) by done.
  set (act := if bool_decide (p ∈ mac_rb (MLACP x)) then sys (TreeParent p) else mret 0).
  assert (∃ r tr, act w = Ok r (w <| w_trace := tr |>) ∧ ∀ fd, omap (write_data fd) tr = omap (write_data fd) (w_trace w))
    as (r & tr & Ha & Htr).
  { unfold act. case_bool_decide; [by eexists _, _|]. exists 0, (w_trace w). split; [by destruct w|done]. }
  rewrite (bind_ok _ _ _ _ _ Ha). clear Ha act. set (w1 := w <| w_trace := tr |>).
  destruct (r =? 0); cbn [when]; [|by exists (w_macs w), tr].
  destruct (rb_find_run (mac_key (mac_vid m) (mac_addr m)) (mac_rb (MLACP x)) w1) as (q & Hfind & Hin); [done|].
  rewrite (bind_ok _ _ _ _ _ Hfind). destruct (q =? NULL) eqn:Eq; cbn [when]; [|by exists (w_macs w), tr].
  assert (p ∉ mac_rb (MLACP x)) as Hpt.
  { intros Hin'. apply Z.eqb_eq in Eq. by apply (Hin p m Hin' Hp (compare_key m)). }
  exists (delete p (w_macs w)), tr. split; [unfold free; simpl; by rewrite Hp|]. split; [|done].
  split; [|done|].
  - apply Forall2_same_length_lookup. pose proof (Forall2_length _ _ _ Hq) as Hlen. split; [done|].
    intros i p' v Hi Hv. rewrite Forall2_lookup in Hq. specialize (Hq i). rewrite Hi, Hv in Hq.
    inversion Hq as [? ? [Hl Hok]|]; subst. split; [|done]. rewrite lookup_delete_ne; [done|].
    intros <-. apply Hnot. by eapply list_elem_of_lookup_2.
  - apply Forall_forall. intros q' Hq'. rewrite Forall_forall in Ht. destruct (Ht q' Hq') as [Hn Hs].
    split; [done|]. rewrite lookup_delete_ne; [done|]. by intros <-.
Qed.

(** The part of [send_mac] that precedes the flush. *)
Definition mac_build (c p : ptr) (count : nat) : W Z :=
  mac_upd p (set mac_in_msg_list (λ _, false));;
  msg_len ← in_csm_buf (λ b n, mlacp_prepare_for_mac_info_to_peer c b n p count);
  mac_free_sent c p;;
  mret msg_len.

Lemma send_mac_build c p count w : send_mac c p count w = body c MAX_MAC_ENTRY_NUM (mac_build c) p count w.
Proof.
  unfold send_mac, body, mac_build, mbind, M_bind. destruct (mac_upd _ _ w); [|done].
  destruct (in_csm_buf _ _); [|done]. by destruct (mac_free_sent _ _ _).
Qed.

Lemma drain_ext {E} (qu : mLACP → list E) `{!Settable qu} b1 b2 c fuel n l w :
  (∀ e n w, b1 e n w = b2 e n w) → drain qu b1 c fuel n l w = drain qu b2 c fuel n l w.
Proof.
  intros H. revert n l w. induction fuel as [|fuel IH]; intros n l w; [done|]. simpl.
  unfold mbind, M_bind. destruct (deref w_csms c w) as [x w1|]; [|done].
  destruct (qu (MLACP x)) as [|e rest]; [done|].
  destruct (mlacp_upd _ _ w1) as [[] w2|]; [|done]. rewrite H. destruct (b2 e n w2) as [[n' l'] w3|]; [|done].
  apply IH.
Qed.

Lemma mac_inv_upd p v f rest vs t h :
  mac_inv (p :: rest) (v :: vs) t h → mac_ok (f v) → mac_inv (p :: rest) (f v :: vs) t (<[p := f v]> h).
Proof.
  intros [Hq Hd Ht] Hok. apply Forall2_cons_1 in Hq as [_ Hq]. pose proof Hd as [Hp _]%NoDup_cons.
  split; [|done|].
  - constructor; [by rewrite lookup_insert_eq|]. apply Forall2_same_length_lookup.
    pose proof (Forall2_length _ _ _ Hq). split; [done|]. intros i q u Hi Hu.
    rewrite Forall2_lookup in Hq. specialize (Hq i). rewrite Hi, Hu in Hq.
    inversion Hq as [? ? [Hl Hu']|]; subst. split; [|done]. rewrite lookup_insert_ne; [done|].
    intros <-. apply Hp. by eapply list_elem_of_lookup_2.
  - eapply Forall_impl; [exact Ht|]. intros q [Hn Hs]. split; [done|].
    destruct (decide (p = q)) as [->|Hne]; [rewrite lookup_insert_eq; eauto|by rewrite lookup_insert_ne].
Qed.

Lemma mac_build_ok c rg fd e rest v vs cur x w :
  c ≠ NULL →
  ready c rg fd TLV_T_MLACP_MAC_INFO 30 mac_entry mac_ok mac_inv (e :: rest) (v :: vs) cur x w →
  (length cur < MAX_MAC_ENTRY_NUM)%nat →
  ∃ w', mac_build c e (length cur) w = Ok (Z.of_nat (22 + 30 * (length cur + 1))) w'
    ∧ ready c rg fd TLV_T_MLACP_MAC_INFO 30 mac_entry mac_ok mac_inv rest vs (cur ++ [v]) x w'
    ∧ sent_on fd w' = sent_on fd w.
Proof.
  intros Hc [Hx Hs Hfd Hr HI Hcur [id Hb]] Hl. unfold mac_build.
  pose proof (mi_queue _ _ _ _ HI) as Hq. apply Forall2_cons_1 in Hq as [[Hv Hok] _].
  set (v' := v <| mac_in_msg_list := false |>).
  assert (mac_ok v') as Hok' by exact Hok.
  pose proof (mac_inv_upd e v (set mac_in_msg_list (λ _, false)) _ _ _ _ HI Hok') as HI1.
  change (set mac_in_msg_list (λ _, false) v) with v' in HI1.
  unfold mac_upd. rewrite (update_bind w_macs e _ v) by done.
  set (w1 := set w_macs _ w).
  assert (in_csm_buf (λ b n, mlacp_prepare_for_mac_info_to_peer c b n e (length cur)) w1
    = Ok (Z.of_nat (22 + 30 * (length cur + 1)))
         (bump_msg_id w1 <| w_csm_buf := mac_buffer x (w_msg_id w1) (cur ++ [v']) CSM_BUFFER_SIZE |>)) as E2.
  { apply in_csm_buf_run. change (w_csm_buf w1) with (w_csm_buf w). rewrite Hb.
    apply (mac_info_run c x e v' id cur CSM_BUFFER_SIZE w1); [exact Hx|exact Hc|apply lookup_insert_eq|done|done|].
    unfold CSM_BUFFER_SIZE, MAX_MAC_ENTRY_NUM in *. lia. }
  rewrite (bind_ok _ _ _ _ _ E2). set (w2 := bump_msg_id w1 <| w_csm_buf := _ |>).
  destruct HI1 as [Hq1 Hd1 Ht1]. apply Forall2_cons_1 in Hq1 as [_ Hq1]. apply NoDup_cons in Hd1 as [Hn1 Hd1].
  destruct (free_sent_run c e x v' w2 rest vs) as (h & tr & E3 & HI3 & Htr);
    [exact Hx|apply lookup_insert_eq|exact Hn1|by split|].
  rewrite (bind_ok _ _ _ _ _ E3). eexists. split; [reflexivity|]. split.
  - constructor; [exact Hx|exact Hs|exact Hfd|exact Hr|exact HI3|apply Forall_app; split; [done|by constructor]|].
    exists (w_msg_id w1). change (w_csm_buf _) with (mac_buffer x (w_msg_id w1) (cur ++ [v']) CSM_BUFFER_SIZE).
    unfold mac_buffer. by rewrite !fmap_app.
  - unfold sent_on. exact (Htr fd).
Qed.

(** C5. [mlacp_sync_send_syncMacInfo] sends the whole queue of MAC entries, thirty in a
    message, in order and in the layout of the MAC TLV, and empties the queue; it
    never touches a freed entry, although it frees the deleted entries as it goes:
    what it needs is that the queued entries are live and distinct and that the
    entries of the tree are live. *)
Theorem mac_queue_sent c x w ms :
  w_csms w !! c = Some x → c ≠ NULL → sender_ok x → length (w_csm_buf w) = CSM_BUFFER_SIZE →
  mac_inv (mac_msg_list (MLACP x)) ms (mac_rb (MLACP x)) (w_macs w) →
  ∃ w' x' ds groups,
    mlacp_sync_send_syncMacInfo c w = Ok tt w' ∧ w_csms w' !! c = Some x' ∧ mac_msg_list (MLACP x') = []
    ∧ cut MAX_MAC_ENTRY_NUM groups ms
    ∧ Forall2 (is_batch (rg_of x) TLV_T_MLACP_MAC_INFO 30 mac_entry) ds groups
    ∧ sent_on (sock_fd x) w' = reverse ds ++ sent_on (sock_fd x) w.
Proof.
  intros Hx Hc Hs Hb HI.
  destruct (send_batches_run mac_msg_list c (rg_of x) (sock_fd x) TLV_T_MLACP_MAC_INFO 30 MAX_MAC_ENTRY_NUM
    mac_entry mac_ok (mac_build c) mac_inv) with (vs := ms) (x := x) (w := w) as (w' & x' & ds & gs & E & R); try done.
  - intros v. apply mac_entry_ok.
  - unfold MAX_MAC_ENTRY_NUM. lia.
  - unfold CSM_BUFFER_SIZE, MAX_MAC_ENTRY_NUM. lia.
  - intros vs t h [Hq _ _]. by apply Forall2_nil_inv_l in Hq.
  - intros e rest vs t h [Hq _ _]. apply Forall2_cons_inv_l in Hq as (v & vs' & _ & _ & ->). eauto.
  - intros. by eapply mac_build_ok.
  - exists w', x', ds, gs. split; [|exact R]. rewrite <-E.
    unfold mlacp_sync_send_syncMacInfo, send_batches. rewrite !(bind_ok _ _ _ _ _ (clear_run w Hb)).
    rewrite !(deref_bind _ _ x) by done. unfold mbind, M_bind.
    by rewrite (drain_ext mac_msg_list _ _ c _ _ _ _ (send_mac_build c)).
Qed.

(** ** Examples *)

Definition queue_csm (f : mLACP → mLACP) : CSM := set_MLACP f (session_csm 100).
Definition queue_world (f : mLACP → mLACP) : World := with_csm 1 (queue_csm f) (boot calm).

Lemma queue_sender f : sender_ok (queue_csm f).
Proof. by split. Qed.

Definition neigh_sample (addr : list Z) : neigh :=
  mkNeigh NEIGH_SYNC_ADD 0 1 (name20 (str "Vlan10")) addr [2; 0; 0; 0; 0; 7].
Definition neigh_msg (addr : list Z) : Msg := mkMsg (neigh_bytes (neigh_sample addr) 0 0 0) 48.

Ltac bytes := simpl; repeat (apply Forall_cons_2; [unfold is_byte; lia|]); apply Forall_nil_2.

Lemma neigh_sample_ok k addr : length addr = k → Forall is_byte addr → queued_neigh k (neigh_msg addr) (neigh_sample addr).
Proof.
  intros Hl Hb. split; [|by eexists _, _, _].
  split_and!; [done|done|done|simpl; lia|done|done|bytes|done|bytes].
Qed.

Lemma arp_queue_sent_witness :
  let f := set arp_msg_list (λ _, [neigh_msg [10; 0; 0; 1]; neigh_msg [10; 0; 0; 2]]) in
  ∃ w' x' ds groups, mlacp_sync_send_syncArpInfo 1 (queue_world f) = Ok tt w'
    ∧ w_csms w' !! 1 = Some x' ∧ arp_msg_list (MLACP x') = []
    ∧ cut MAX_NEIGH_ENTRY_NUM groups [neigh_sample [10; 0; 0; 1]; neigh_sample [10; 0; 0; 2]]
    ∧ Forall2 (is_batch (rg_of (queue_csm f)) TLV_T_MLACP_ARP_INFO 36 neigh_entry) ds groups
    ∧ sent_on 5 w' = reverse ds ++ sent_on 5 (queue_world f).
Proof.
  intros f.
  apply (arp_queue_sent 1 (queue_csm f) (queue_world f));
    [apply lookup_insert_eq|discriminate|apply queue_sender|apply length_replicate|].
  repeat (apply Forall2_cons_2; [apply neigh_sample_ok; [reflexivity|bytes]|]). apply Forall2_nil_2.
Defined.

Lemma ndisc_queue_sent_witness :
  let a := [32; 1; 13; 184; 0; 0; 0; 0; 0; 0; 0; 0; 0; 0; 0; 1] in
  let f := set ndisc_msg_list (λ _, [neigh_msg a]) in
  ∃ w' x' ds groups, mlacp_sync_send_syncNdiscInfo 1 (queue_world f) = Ok tt w'
    ∧ w_csms w' !! 1 = Some x' ∧ ndisc_msg_list (MLACP x') = []
    ∧ cut MAX_NEIGH_ENTRY_NUM groups [neigh_sample a]
    ∧ Forall2 (is_batch (rg_of (queue_csm f)) TLV_T_MLACP_NDISC_INFO 48 neigh_entry) ds groups
    ∧ sent_on 5 w' = reverse ds ++ sent_on 5 (queue_world f).
Proof.
  intros a f.
  apply (ndisc_queue_sent 1 (queue_csm f) (queue_world f));
    [apply lookup_insert_eq|discriminate|apply queue_sender|apply length_replicate|].
  repeat (apply Forall2_cons_2; [apply neigh_sample_ok; [reflexivity|bytes]|]). apply Forall2_nil_2.
Defined.

(** A deleted entry outside the tree and a live one inside. *)
Definition mac_sample (n op : Z) : MACMsg :=
  mac_key 10 [2; 0; 0; 0; 0; n] <| mac_op_type := op |> <| mac_in_msg_list := true |>
    <| mac_origin_ifname := name20 (str "PortChannel1") |>.

Lemma mac_queue_sent_witness :
  let f := λ m, m <| mac_msg_list := [8; 9] |> <| mac_rb := [9] |> in
  let w := queue_world f <| w_macs := {[8 := mac_sample 1 MAC_SYNC_DEL; 9 := mac_sample 2 MAC_SYNC_ADD]} |> in
  ∃ w' x' ds groups, mlacp_sync_send_syncMacInfo 1 w = Ok tt w'
    ∧ w_csms w' !! 1 = Some x' ∧ mac_msg_list (MLACP x') = []
    ∧ cut MAX_MAC_ENTRY_NUM groups [mac_sample 1 MAC_SYNC_DEL; mac_sample 2 MAC_SYNC_ADD]
    ∧ Forall2 (is_batch (rg_of (queue_csm f)) TLV_T_MLACP_MAC_INFO 30 mac_entry) ds groups
    ∧ sent_on 5 w' = reverse ds ++ sent_on 5 w.
Proof.
  intros f w.
  apply (mac_queue_sent 1 (queue_csm f) w);
    [apply lookup_insert_eq|discriminate|apply queue_sender|apply length_replicate|].
  assert (∀ n op, is_byte n → mac_ok (mac_sample n op)) as Hok.
  { intros n op Hn. unfold is_byte in Hn. split_and!; [done|simpl; lia|bytes|bytes]. }
  assert (is_byte 1 ∧ is_byte 2) as [H1 H2] by (unfold is_byte; lia).
  split.
  - repeat (apply Forall2_cons_2; [split; [reflexivity|by apply Hok]|]). apply Forall2_nil_2.
  - apply NoDup_cons_2; [by rewrite list_elem_of_singleton|apply NoDup_singleton].
  - apply Forall_cons_2; [split; [discriminate|by eexists]|apply Forall_nil_2].
Defined.
