(* ===== verification/RoundTrip.v ===== *)
(** * What one node announces, the other one reads

    A message built by a sender of one node, received and queued by the other, is
    read back entry by entry: handling the message is handling the announced
    entries, in order. *)

From S2P Require Import Prelude CMem CString MsgFormat State Machine Frame IccpMsg IccpQueue SyncPrepare.
From S2P Require Import Port Syncd Standby MacTable MacUpdate LinkHandler NeighUpdate SyncUpdate.
From S2P Require Import IccpCsm Boot FrameSteps Batches.
#[local] Open Scope Z_scope.

(** ** Entries at their place *)

Lemma entry_at (d sz : nat) pre es i (e : list Z) :
  length pre = d → Forall (λ e, length e = sz) es → es !! i = Some e →
  ∃ p q, pre ++ concat es = p ++ e ++ q ∧ length p = (d + sz * i)%nat.
Proof.
  intros <- Hes Hi. exists (pre ++ concat (take i es)), (concat (drop (S i) es)). split.
  - rewrite <-app_assoc. f_equal. rewrite <-(take_drop_middle es i e Hi) at 1. by rewrite concat_app.
  - rewrite length_app. f_equal. apply lookup_lt_Some in Hi as Hlt.
    assert (length (take i es) = i) as Hl by (rewrite length_take; lia). rewrite <-Hl at 2.
    assert (Forall (λ e, length e = sz) (take i es)) as Ht by by apply Forall_take.
    clear -Ht. induction Ht as [|e l He _ IH]; [simpl; lia|]. rewrite concat_cons, length_app, IH, He. simpl. lia.
Qed.

(** A loop over indices that reads the entries is a loop over the entries. *)
Lemma mforeach_read {S A B} (read : nat → M S A) (f : A → M S unit) (g : B → A) (l : list B) k s :
  (∀ i b s', l !! i = Some b → read (k + i)%nat s' = Ok (g b) s') →
  mforeach (seq k (length l)) (λ i, d ← read i; f d) s = mforeach l (λ b, f (g b)) s.
Proof.
  revert k s. induction l as [|b l IH]; intros k s H; [done|]. simpl. unfold mbind, M_bind.
  pose proof (H 0%nat b s eq_refl) as H0. rewrite Nat.add_0_r in H0. rewrite H0.
  destruct (f (g b) s) as [[] s1|]; [|done]. apply IH. intros i b' s' Hi.
  replace (Datatypes.S k + i)%nat with (k + Datatypes.S i)%nat by lia. by apply H.
Qed.

(** A name of 20 bytes, read as a string. *)
Lemma cstr_name20 nm rest : (length (cstr nm) < 20)%nat → cstr (name20 nm ++ rest) = cstr nm.
Proof.
  intros Hl. unfold name20. rewrite <-app_assoc.
  destruct (20 - length (cstr nm))%nat eqn:E; [lia|]. simpl. apply cstr_app_nul, cstr_nonzero.
Qed.

(** ** MAC entries *)

(** The data a receiver gets of an entry. *)
Definition mac_data (m : MACMsg) : MACData :=
  mkMACData (u8 (mac_op_type m)) (u8 (mac_fdb_type m)) (mac_addr m) (u16 (mac_vid m))
    (name20 (mac_origin_ifname m)) (cstr (mac_origin_ifname m)).

Lemma name20_length nm : (length (cstr nm) < 20)%nat → length (name20 nm) = 20%nat.
Proof. intros H. unfold name20. rewrite length_app, length_replicate. lia. Qed.

Lemma ntohs_htons v : ntohs (htons v) = u16 v.
Proof. rewrite <-(ntohs_u16 v). apply htons_swap. unfold u16. apply Z.mod_pos_bound. lia. Qed.

Lemma read_mac_at m p q off w :
  mac_ok m → length p = off → read_mac_data off (p ++ mac_entry m ++ q) w = Ok (mac_data m) w.
Proof.
  intros (Ha & Hn & _ & _) <-. unfold read_mac_data, mac_entry, string_at. eval_layout.
  pose proof (name20_length _ Hn) as Hn20. set (nm := name20 (mac_origin_ifname m)) in *.
  rewrite <-!app_assoc. set (op := u8 (mac_op_type m)). set (fdb := u8 (mac_fdb_type m)).
  assert (length (p ++ [op; fdb]) = length p + 2)%nat as H2 by (rewrite length_app; done).
  assert (length ((p ++ [op; fdb]) ++ mac_addr m) = length p + 8)%nat as H8 by (rewrite length_app, Ha, H2; lia).
  assert (length (((p ++ [op; fdb]) ++ mac_addr m) ++ be16 (mac_vid m)) = length p + 10)%nat as H10
    by (rewrite length_app, H8; simpl; lia).
  rewrite Nat.add_0_r, (oob_bind _ op) by by apply rd8_at.
  rewrite (oob_bind _ fdb) by (change (p ++ [op; fdb] ++ ?l) with (p ++ [op] ++ fdb :: l); rewrite app_assoc;
    apply rd8_at; rewrite length_app; done).
  rewrite !(app_assoc p), (oob_bind _ (mac_addr m)) by by apply rd_bytes_at.
  rewrite !(app_assoc (p ++ [op; fdb])), (oob_bind _ (htons (mac_vid m))) by by apply rd16_be_at.
  rewrite !(app_assoc ((p ++ [op; fdb]) ++ mac_addr m)), (oob_bind _ nm) by by apply rd_bytes_at.
  unfold mac_data. rewrite ntohs_htons, <-H10, drop_app_length.
  unfold nm. by rewrite cstr_name20.
Qed.

Lemma app_data_host_batch len id rg type sz es :
  ∃ pre, app_data_host len id rg type (batch_body sz es) = pre ++ concat es ∧ length pre = 22%nat
    ∧ rd16 20 (app_data_host len id rg type (batch_body sz es)) = Some (htons (Z.of_nat (length es)))
    ∧ rd16 18 (app_data_host len id rg type (batch_body sz es)) = Some (htons (Z.of_nat (2 + sz * length es))).
Proof.
  unfold app_data_host, batch_body.
  set (h := le16 MSG_T_RG_APP_DATA ++ drop 2 (icc_header MSG_T_RG_APP_DATA len id rg)).
  assert (length h = 16%nat) as Hh by (unfold h; rewrite length_app, length_drop, icc_header_length; done).
  exists (h ++ le16 type ++ be16 (Z.of_nat (2 + sz * length es)) ++ be16 (Z.of_nat (length es))).
  split_and!.
  - by rewrite <-!app_assoc.
  - rewrite !length_app, Hh. done.
  - rewrite !app_assoc, <-(app_assoc _ _ (concat es)). apply rd16_be_at. rewrite !length_app, Hh. done.
  - rewrite app_assoc. apply rd16_be_at. rewrite !length_app, Hh. done.
Qed.

(** C6. The receiver of a MAC message handles exactly the entries the sender put in:
    on a message of the layout of [mlacp_sync_send_syncMacInfo], queued,
    [mlacp_fsm_update_mac_info_from_peer] is the update by each entry, in order, with
    the operation, the type, the address, the VLAN and the name of the entry. *)
Theorem mac_message_roundtrip c len id rg ms w :
  c ≠ NULL → Forall mac_ok ms → Z.of_nat (length ms) < 2 ^ 16 →
  mlacp_fsm_update_mac_info_from_peer c
    (app_data_host len id rg TLV_T_MLACP_MAC_INFO (batch_body 30 (mac_entry <$> ms))) w
  = mforeach ms (λ m, _ ← mlacp_fsm_update_mac_entry_from_peer c (mac_data m); mret tt) w.
Proof.
  intros Hc Hok Hn.
  destruct (app_data_host_batch len id rg TLV_T_MLACP_MAC_INFO 30 (mac_entry <$> ms)) as (pre & Hb & Hpre & Hcount & _).
  unfold mlacp_fsm_update_mac_info_from_peer. rewrite eqb_null by done. eval_layout.
  rewrite (oob_bind _ _ _ _ Hcount), ntohs_htons, length_fmap. unfold u16. rewrite Z.mod_small by lia.
  rewrite Nat2Z.id, Hb.
  rewrite (mforeach_read (λ i, read_mac_data _ _) _ mac_data ms 0 w); [done|].
  intros i m w' Hi. simpl.
  destruct (entry_at 22 30 pre (mac_entry <$> ms) i (mac_entry m)) as (p & q & -> & Hp).
  - done.
  - apply Forall_fmap. eapply Forall_impl; [exact Hok|]. intros m' Hm'. apply (mac_entry_ok m' Hm').
  - by rewrite list_lookup_fmap, Hi.
  - apply read_mac_at; [|by rewrite Hp]. rewrite Forall_lookup in Hok. by apply (Hok i).
Qed.

Lemma mac_message_roundtrip_witness :
  let ms := [mac_sample 1 MAC_SYNC_ADD; mac_sample 2 MAC_SYNC_DEL] in
  mlacp_fsm_update_mac_info_from_peer 1
    (app_data_host 82 7 100 TLV_T_MLACP_MAC_INFO (batch_body 30 (mac_entry <$> ms))) (queue_world (λ m, m))
  = mforeach ms (λ m, _ ← mlacp_fsm_update_mac_entry_from_peer 1 (mac_data m); mret tt) (queue_world (λ m, m)).
Proof.
  intros ms. apply (mac_message_roundtrip 1 82 7 100 ms); [discriminate| |simpl; lia].
  repeat (apply Forall_cons_2; [split_and!; [reflexivity|simpl; lia|bytes|bytes]|]). apply Forall_nil_2.
Defined.

(** ** Neighbours *)

Definition neigh_data (m : neigh) : NeighData :=
  mkNeighData (nb_op m) (nb_flag m) (cstr (nb_ifname m)) (nb_addr m) (nb_mac m).

(** The place of the members of an entry, for both kinds. *)
Class NeighLayout (k : neigh_kind) (n : nat) : Prop := {
  nl_alen : nk_alen k = n;
  nl_op : offsetof (nk_struct k) "op_type" = 0%nat;
  nl_flag : offsetof (nk_struct k) "flag" = 1%nat;
  nl_name : offsetof (nk_struct k) "ifname" = 3%nat;
  nl_addr : offsetof (nk_struct k) (nk_addr k) = 24%nat;
  nl_mac : offsetof (nk_struct k) "mac_addr" = (24 + n)%nat;
  nl_size : sizeof (nk_struct k) = (32 + n)%nat
}.

#[export] Instance arp_layout : NeighLayout arp_kind 4.
Proof. by constructor. Qed.
#[export] Instance ndisc_layout : NeighLayout ndisc_kind 16.
Proof. by constructor. Qed.

Lemma read_neigh_at k n `{!NeighLayout k n} m p q off w :
  neigh_ok n m → length p = off → read_neigh k off (p ++ neigh_entry m ++ q) w = Ok (neigh_data m) w.
Proof.
  intros (_ & _ & Hl & Hn & Ha & Hm & _) <-. unfold read_neigh, neigh_entry, string_at.
  rewrite nl_op, nl_flag, nl_name, nl_addr, nl_mac, nl_alen.
  pose proof (name20_length _ Hn) as Hn20. set (nm := name20 (nb_ifname m)) in *.
  rewrite <-!app_assoc. set (a3 := [nb_op m; nb_flag m; 0]).
  assert (length (p ++ a3) = length p + 3)%nat as H3 by (rewrite length_app; done).
  assert (length (((p ++ a3) ++ nm) ++ [0]) = (length p + 24)%nat) as H24
    by (rewrite !length_app, Hn20; simpl; lia).
  assert (length ((((p ++ a3) ++ nm) ++ [0]) ++ nb_addr m) = (length p + (24 + n))%nat) as H24n
    by (rewrite length_app, Ha, H24; lia).
  rewrite Nat.add_0_r, (oob_bind _ (nb_op m)) by by apply rd8_at.
  rewrite (oob_bind _ (nb_flag m)) by (unfold a3; change (p ++ [nb_op m; nb_flag m; 0] ++ ?l) with
    (p ++ [nb_op m] ++ nb_flag m :: [0] ++ l); rewrite app_assoc; apply rd8_at; rewrite length_app; done).
  rewrite !(app_assoc p), !(app_assoc (p ++ a3)), !(app_assoc ((p ++ a3) ++ nm)).
  rewrite (oob_bind _ (nb_addr m)) by by apply rd_bytes_at.
  rewrite !(app_assoc (((p ++ a3) ++ nm) ++ [0])), (oob_bind _ (nb_mac m)) by by apply rd_bytes_at.
  unfold neigh_data. rewrite <-!app_assoc, (app_assoc p), <-H3, drop_app_length.
  unfold nm. by rewrite cstr_name20.
Qed.

Lemma neigh_message_read k n `{!NeighLayout k n} c len id rg type ms w :
  c ≠ NULL → Forall (neigh_ok n) ms → Z.of_nat (2 + (32 + n) * length ms) < 2 ^ 16 →
  update_neigh_info k c (app_data_host len id rg type (batch_body (32 + n) (neigh_entry <$> ms))) w
  = (mforeach ms (λ m, _ ← update_neigh_entry k c (neigh_data m); mret tt);; mret 0) w.
Proof.
  intros Hc Hok Hn.
  destruct (app_data_host_batch len id rg type (32 + n) (neigh_entry <$> ms)) as (pre & Hb & Hpre & Hcount & Hlen).
  rewrite length_fmap in Hcount, Hlen.
  unfold update_neigh_info. rewrite eqb_null by done. rewrite nl_size. eval_layout.
  rewrite (oob_bind _ _ _ _ Hcount), (oob_bind _ _ _ _ Hlen), !ntohs_htons. unfold u16.
  rewrite !Z.mod_small by nia. rewrite Nat2Z.id.
  rewrite (proj2 (Z.ltb_ge _ _)) by nia. rewrite Hb. unfold mbind at 1 4, M_bind at 1 4.
  rewrite (mforeach_read (λ i, read_neigh _ _ _) _ neigh_data ms 0 w); [done|].
  intros i m w' Hi. simpl.
  destruct (entry_at 22 (32 + n) pre (neigh_entry <$> ms) i (neigh_entry m)) as (p & q & -> & Hp).
  - done.
  - apply Forall_fmap. eapply Forall_impl; [exact Hok|]. intros m' Hm'. apply (neigh_entry_ok n m' Hm').
  - by rewrite list_lookup_fmap, Hi.
  - apply (read_neigh_at k n); [|by rewrite Hp]. rewrite Forall_lookup in Hok. by apply (Hok i).
Qed.

(** C29. The receiver of an ARP message handles exactly the entries the sender put in:
    on a message of the layout of [mlacp_sync_send_syncArpInfo], queued,
    [mlacp_fsm_update_arp_info] succeeds with the update by each entry, in order, with
    the operation, the flag, the interface name, the address and the MAC address of
    the entry. *)
Theorem arp_message_roundtrip c len id rg ms w :
  c ≠ NULL → Forall (neigh_ok 4) ms → Z.of_nat (2 + 36 * length ms) < 2 ^ 16 →
  mlacp_fsm_update_arp_info c
    (app_data_host len id rg TLV_T_MLACP_ARP_INFO (batch_body 36 (neigh_entry <$> ms))) w
  = (mforeach ms (λ m, _ ← mlacp_fsm_update_arp_entry c (neigh_data m); mret tt);; mret 0) w.
Proof. apply (neigh_message_read arp_kind 4). Qed.

(** The same of the neighbour-discovery messages and [mlacp_fsm_update_ndisc_info]. *)
Theorem ndisc_message_roundtrip c len id rg ms w :
  c ≠ NULL → Forall (neigh_ok 16) ms → Z.of_nat (2 + 48 * length ms) < 2 ^ 16 →
  mlacp_fsm_update_ndisc_info c
    (app_data_host len id rg TLV_T_MLACP_NDISC_INFO (batch_body 48 (neigh_entry <$> ms))) w
  = (mforeach ms (λ m, _ ← mlacp_fsm_update_ndisc_entry c (neigh_data m); mret tt);; mret 0) w.
Proof. apply (neigh_message_read ndisc_kind 16). Qed.

Lemma arp_message_roundtrip_witness :
  let ms := [neigh_sample [10; 0; 0; 1]; neigh_sample [10; 0; 0; 2]] in
  mlacp_fsm_update_arp_info 1
    (app_data_host 94 7 100 TLV_T_MLACP_ARP_INFO (batch_body 36 (neigh_entry <$> ms))) (queue_world (λ m, m))
  = (mforeach ms (λ m, _ ← mlacp_fsm_update_arp_entry 1 (neigh_data m); mret tt);; mret 0) (queue_world (λ m, m)).
Proof.
  intros ms. apply (arp_message_roundtrip 1 94 7 100 ms); [discriminate| |simpl; lia].
  repeat (apply Forall_cons_2; [apply neigh_sample_ok; [reflexivity|bytes]|]). apply Forall_nil_2.
Defined.

Lemma ndisc_message_roundtrip_witness :
  let ms := [neigh_sample [32; 1; 13; 184; 0; 0; 0; 0; 0; 0; 0; 0; 0; 0; 0; 1]] in
  mlacp_fsm_update_ndisc_info 1
    (app_data_host 70 7 100 TLV_T_MLACP_NDISC_INFO (batch_body 48 (neigh_entry <$> ms))) (queue_world (λ m, m))
  = (mforeach ms (λ m, _ ← mlacp_fsm_update_ndisc_entry 1 (neigh_data m); mret tt);; mret 0) (queue_world (λ m, m)).
Proof.
  intros ms. apply (ndisc_message_roundtrip 1 70 7 100 ms); [discriminate| |simpl; lia].
  repeat (apply Forall_cons_2; [apply neigh_sample_ok; [reflexivity|bytes]|]). apply Forall_nil_2.
Defined.
