(* ===== verification/Vlans.v ===== *)
(** * VLAN trees

    The VLAN trees are ordered by identifier, without repetition; the operations
    keep them so.  The VLANs of a port channel of the peer are, after each
    announcement, exactly the announced ones. *)

From stdpp Require Import sorting.
From S2P Require Import Prelude CMem CString MsgFormat State Machine Port SyncUpdate Boot.
#[local] Open Scope Z_scope.

(** ** The tree as an ordered list *)

Definition vlan_lt (a b : VLAN_ID) : Prop := vid a < vid b.
Definition vlan_sorted (t : list VLAN_ID) : Prop := StronglySorted vlan_lt t.

(** What [peer_if_add_vlan] does to the tree when memory is available. *)
Definition vlan_add (v : Z) (t : list VLAN_ID) : list VLAN_ID :=
  match vlan_find v t with
  | Some _ => vlan_update v (set vlan_removed (λ _, 0)) t
  | None => vlan_insert (vlan_info_init <| vid := v |> <| vlan_removed := 0 |>) t
  end.

Lemma compare_lt a b : (vlan_node_compare a b =? -1) = (vid a <? vid b).
Proof. unfold vlan_node_compare. destruct (vid a <? vid b); [done|]. by destruct (vid a >? vid b). Qed.

Lemma compare_gt a b : (vlan_node_compare a b =? 1) = (vid b <? vid a).
Proof.
  unfold vlan_node_compare. destruct (Z.ltb_spec (vid a) (vid b)); [symmetry; apply Z.ltb_ge; lia|].
  rewrite Z.gtb_ltb. by destruct (vid b <? vid a).
Qed.

Lemma insert_elem v x t :
  x ∈ vlan_insert v t → x = v ∨ x ∈ t.
Proof.
  induction t as [|y t IH]; simpl; [by intros ->%list_elem_of_singleton; left|].
  repeat case_match; rewrite ?elem_of_cons; naive_solver.
Qed.

Lemma insert_old v x t : x ∈ t → x ∈ vlan_insert v t.
Proof. induction t as [|y t IH]; simpl; [by intros ?%elem_of_nil|]. repeat case_match; rewrite ?elem_of_cons; naive_solver. Qed.

Lemma vlan_insert_new v t : Forall (λ x, vid x ≠ vid v) t → v ∈ vlan_insert v t.
Proof.
  induction 1 as [|y t Hy Ht IH]; simpl; [by apply list_elem_of_singleton|].
  rewrite compare_lt, compare_gt. destruct (Z.ltb_spec (vid v) (vid y)); [apply elem_of_cons; by left|].
  destruct (Z.ltb_spec (vid y) (vid v)); [apply elem_of_cons; by right|lia].
Qed.

Lemma insert_sorted v t : vlan_sorted t → vlan_sorted (vlan_insert v t).
Proof.
  unfold vlan_sorted. induction 1 as [|y t Hs IH Hy]; simpl; [by repeat constructor|].
  rewrite compare_lt, compare_gt. destruct (Z.ltb_spec (vid v) (vid y)).
  - constructor; [by constructor|]. constructor; [done|]. eapply Forall_impl; [exact Hy|].
    unfold vlan_lt. simpl. lia.
  - destruct (Z.ltb_spec (vid y) (vid v)); [|by constructor]. constructor; [done|].
    apply Forall_forall. intros x [->|Hx]%insert_elem; [done|]. rewrite Forall_forall in Hy. by apply Hy.
Qed.

Lemma map_sorted f t : (∀ v, vid (f v) = vid v) → vlan_sorted t → vlan_sorted (f <$> t).
Proof.
  intros Hf. unfold vlan_sorted. induction 1 as [|y t Hs IH Hy]; [constructor|]. constructor; [done|].
  apply Forall_fmap. eapply Forall_impl; [exact Hy|]. unfold vlan_lt, compose. intros x. by rewrite !Hf.
Qed.

Lemma filter_sorted (P : VLAN_ID → Prop) `{∀ v, Decision (P v)} t : vlan_sorted t → vlan_sorted (filter P t).
Proof.
  unfold vlan_sorted. induction 1 as [|y t Hs IH Hy]; [constructor|]. rewrite filter_cons. case_decide; [|done].
  constructor; [done|]. apply Forall_forall. intros x [_ Hx]%list_elem_of_filter.
  rewrite Forall_forall in Hy. by apply Hy.
Qed.

(** Identifiers are not repeated. *)
Lemma sorted_unique t u v : vlan_sorted t → u ∈ t → v ∈ t → vid u = vid v → u = v.
Proof.
  unfold vlan_sorted. induction 1 as [|y t Hs IH Hy]; [by intros ?%elem_of_nil|].
  rewrite Forall_forall in Hy. unfold vlan_lt in Hy.
  intros [->|Hu]%elem_of_cons [->|Hv]%elem_of_cons He; [done| | |by apply IH].
  - specialize (Hy v Hv). lia.
  - specialize (Hy u Hu). lia.
Qed.

Lemma find_some key t v : vlan_find key t = Some v → v ∈ t ∧ vid v = key.
Proof.
  unfold vlan_find. intros (p & H & ->)%fmap_Some. destruct p as [i x].
  apply list_find_Some in H as (Hi & He & _). split; [by eapply list_elem_of_lookup_2|done].
Qed.

Lemma find_none key t : vlan_find key t = None → Forall (λ v, vid v ≠ key) t.
Proof. unfold vlan_find. intros H%fmap_None. by apply list_find_None in H. Qed.

Lemma find_spec key t v : vlan_sorted t → vlan_find key t = Some v ↔ v ∈ t ∧ vid v = key.
Proof.
  intros Hs. split; [apply find_some|]. intros [Hv He].
  destruct (vlan_find key t) as [u|] eqn:Hf.
  - apply find_some in Hf as [Hu Hk]. f_equal. apply (sorted_unique t); congruence.
  - apply find_none in Hf. rewrite Forall_forall in Hf. by destruct (Hf v Hv).
Qed.

(** The VLAN tree is a map from identifiers: in an ordered tree, [RB_FIND] after
    [RB_INSERT] of a new VLAN finds it, a lookup of any other key is unchanged,
    insertion and removal keep the order, and after [VLAN_RB_REMOVE] the key is gone
    and every other one is found as before. *)
Theorem vlan_tree_map t v k :
  vlan_sorted t → vlan_find (vid v) t = None →
  vlan_sorted (vlan_insert v t) ∧ vlan_sorted (vlan_remove k t)
  ∧ vlan_find k (vlan_insert v t) = (if decide (k = vid v) then Some v else vlan_find k t)
  ∧ ∀ k', vlan_find k' (vlan_remove k t) = if decide (k' = k) then None else vlan_find k' t.
Proof.
  intros Hs Hn. pose proof (insert_sorted v t Hs) as Hi. pose proof (find_none _ _ Hn) as Hnew.
  assert (vlan_sorted (vlan_remove k t)) as Hr by by apply filter_sorted.
  split; [done|]. split; [done|]. split.
  - case_decide as Hk.
    + apply find_spec; [done|]. split; [by apply vlan_insert_new|done].
    + apply option_eq. intros u. rewrite !find_spec by done. split; intros [Hu Hv]; (split; [|done]).
      * apply insert_elem in Hu as [->|Hu]; [congruence|done].
      * by apply insert_old.
  - intros k'. case_decide as Hk.
    + destruct (vlan_find k' (vlan_remove k t)) as [u|] eqn:Hu; [|done].
      apply find_some in Hu as [[Hne _]%list_elem_of_filter He]. congruence.
    + apply option_eq. intros u. rewrite !find_spec by done. unfold vlan_remove. rewrite list_elem_of_filter.
      split; [intros [[_ ?] ?]; done|]. intros [Hu He]. split; [split; [congruence|done]|done].
Qed.

Lemma vlan_tree_map_witness :
  let t := [mkVLAN_ID 10 0 NULL; mkVLAN_ID 20 0 NULL] in
  vlan_sorted t ∧ vlan_find 15 t = None
  ∧ vlan_find 15 (vlan_insert (mkVLAN_ID 15 0 NULL) t) = Some (mkVLAN_ID 15 0 NULL).
Proof.
  intros t. assert (vlan_sorted t) as Hs by (repeat constructor; unfold vlan_lt; simpl; lia).
  split; [exact Hs|]. split; [reflexivity|].
  exact (proj1 (proj2 (proj2 (vlan_tree_map t (mkVLAN_ID 15 0 NULL) 15 Hs eq_refl)))).
Defined.

(** ** The announced VLANs *)

(** What [port_channel_vlans] does to the tree. *)
Definition vlan_mark (t : list VLAN_ID) : list VLAN_ID := set vlan_removed (λ _, 1) <$> t.
Definition vlan_clean (t : list VLAN_ID) : list VLAN_ID := filter (λ v, vlan_removed v ≠ 1) t.
Definition vlan_announce (vids : list Z) (t : list VLAN_ID) : list VLAN_ID :=
  vlan_clean (foldl (λ t v, vlan_add v t) (vlan_mark t) vids).

(** Marked are those not announced so far. *)
Record marked (seen : list Z) (t : list VLAN_ID) : Prop := {
  mk_sorted : vlan_sorted t;
  mk_mark u : u ∈ t → (vlan_removed u ≠ 1 ↔ vid u ∈ seen);
  mk_all v : v ∈ seen → ∃ u, u ∈ t ∧ vid u = v
}.

Lemma add_marked v seen t : marked seen t → marked (v :: seen) (vlan_add v t).
Proof.
  intros [Hs Hm Ha]. unfold vlan_add. destruct (vlan_find v t) as [x|] eqn:Hf.
  - apply find_some in Hf as [Hx Hv]. unfold vlan_update. split.
    + apply map_sorted; [|done]. intros u. by case_match.
    + intros u (y & -> & Hy)%list_elem_of_fmap. rewrite elem_of_cons.
      destruct (Z.eqb_spec (vid y) v) as [E|E]; simpl.
      * split; [by left|done].
      * rewrite (Hm y Hy). naive_solver.
    + intros k [->|Hk]%elem_of_cons.
      * exists (if vid x =? v then set vlan_removed (λ _, 0) x else x). split; [|by case_match].
        apply list_elem_of_fmap. eauto.
      * destruct (Ha k Hk) as (u & Hu & Hk'). exists (if vid u =? v then set vlan_removed (λ _, 0) u else u).
        split; [|by case_match]. apply list_elem_of_fmap. eauto.
  - pose proof (find_none _ _ Hf) as Hn. rewrite Forall_forall in Hn. split.
    + by apply insert_sorted.
    + intros u [->|Hu]%insert_elem; rewrite elem_of_cons; simpl.
      * split; [by left|done].
      * rewrite (Hm u Hu). split; [by right|]. intros [E|?]; [by destruct (Hn u Hu E)|done].
    + intros k [->|Hk]%elem_of_cons.
      * eexists. split; [apply vlan_insert_new|done]. apply Forall_forall. exact Hn.
      * destruct (Ha k Hk) as (u & Hu & Hk'). exists u. split; [by apply insert_old|done].
Qed.

Lemma announce_spec vids t :
  vlan_sorted t → vlan_sorted (vlan_announce vids t) ∧ ∀ k, k ∈ vid <$> vlan_announce vids t ↔ k ∈ vids.
Proof.
  intros Hs. assert (∀ l seen t, marked seen t → marked (reverse l ++ seen) (foldl (λ t v, vlan_add v t) t l)) as Hfold.
  { induction l as [|v l IH]; intros seen t' Ht; [done|]. simpl. rewrite reverse_cons, <-app_assoc.
    apply IH. by apply add_marked. }
  destruct (Hfold vids [] (vlan_mark t)) as [Hs' Hm Ha].
  { split; [by apply map_sorted| |by intros ? ?%elem_of_nil].
    intros u (y & -> & Hy)%list_elem_of_fmap. simpl. rewrite elem_of_nil. naive_solver. }
  rewrite app_nil_r in *. split; [by apply filter_sorted|]. intros k. rewrite list_elem_of_fmap.
  unfold vlan_announce, vlan_clean. setoid_rewrite list_elem_of_filter. split.
  - intros (u & -> & Hu & Hin). rewrite <-elem_of_reverse. by apply Hm.
  - intros Hk. rewrite <-elem_of_reverse in Hk. destruct (Ha k Hk) as (u & Hu & <-).
    exists u. split; [done|]. split; [by apply Hm|done].
Qed.

(** ** The code *)

(** [m] changes the tree of the interface [p] by [f], and no other interface. *)
Definition tree_run {A} (p : ptr) (f : list VLAN_ID → list VLAN_ID) (m : W A) (r : A) : Prop := ∀ w x,
  w_pifs w !! p = Some x → (∀ tr n, w_env w tr (SysMalloc n) ≠ 0) →
  ∃ w', m w = Ok r w' ∧ w_env w' = w_env w ∧ w_pifs w' = <[p := x <| pif_vlan_tree ::= f |>]> (w_pifs w).

Lemma tree_ret {A} p (r : A) : tree_run p id (mret r) r.
Proof.
  intros w x Hx _. exists w. split; [done|]. split; [done|]. rewrite insert_id; [done|].
  rewrite Hx. by destruct x.
Qed.

Lemma tree_bind {A B} p f g (m : W A) a (k : A → W B) b :
  tree_run p f m a → tree_run p g (k a) b → tree_run p (g ∘ f) (m ≫= k) b.
Proof.
  intros Hm Hk w x Hx He. destruct (Hm w x Hx He) as (w1 & E1 & V1 & P1).
  destruct (Hk w1 (x <| pif_vlan_tree ::= f |>)) as (w2 & E2 & V2 & P2).
  - by rewrite P1, lookup_insert_eq.
  - by rewrite V1.
  - exists w2. rewrite (bind_ok _ _ _ _ _ E1). split; [done|]. split; [congruence|].
    rewrite P2, P1, insert_insert_eq. by destruct x.
Qed.

Lemma tree_upd p f : tree_run p f (pif_upd p (set pif_vlan_tree f)) tt.
Proof. intros w x Hx _. unfold pif_upd. rewrite (update_run w_pifs p _ x) by done. by eexists. Qed.

Lemma set_tree_ext f g x :
  f (pif_vlan_tree x) = g (pif_vlan_tree x) → x <| pif_vlan_tree ::= f |> = x <| pif_vlan_tree ::= g |>.
Proof. unfold set, set_pif_vlan_tree. by intros ->. Qed.

Lemma tree_eq {A} p f g (m : W A) r : (∀ t, f t = g t) → tree_run p f m r → tree_run p g m r.
Proof.
  intros H Hm w x Hx He. destruct (Hm w x Hx He) as (w1 & E1 & V1 & P1). exists w1.
  split; [done|]. split; [done|]. rewrite P1. f_equal. by apply set_tree_ext.
Qed.

Lemma add_run p v : tree_run p (vlan_add v) (peer_if_add_vlan p v) 0.
Proof.
  intros w x Hx He. unfold peer_if_add_vlan, vlan_add. rewrite (deref_bind _ _ x) by done.
  destruct (vlan_find v (pif_vlan_tree x)) as [u|] eqn:Hf.
  - destruct (tree_upd p (vlan_update v (set vlan_removed (λ _, 0))) w x Hx He) as (w' & E & V & P).
    exists w'. rewrite (bind_ok _ _ _ _ _ E). split; [done|]. split; [done|]. rewrite P.
    f_equal. apply set_tree_ext. by rewrite Hf.
  - rewrite sys_bind, (proj2 (Z.eqb_neq _ _) (He _ _)). set (w1 := w <| w_trace ::= _ |>).
    destruct (tree_upd p (vlan_insert (vlan_info_init <| vid := v |> <| vlan_removed := 0 |>)) w1 x Hx He)
      as (w' & E & V & P).
    exists w'. rewrite (bind_ok _ _ _ _ _ E). split; [done|]. split; [done|]. rewrite P.
    f_equal. apply set_tree_ext. by rewrite Hf.
Qed.

Lemma adds_run p vids :
  tree_run p (λ t, foldl (λ t v, vlan_add v t) t vids) (mforeach vids (λ v, _ ← peer_if_add_vlan p v; mret tt)) tt.
Proof.
  induction vids as [|v vids IH]; [apply tree_ret|]. simpl.
  eapply (tree_eq p ((λ t, foldl (λ t v, vlan_add v t) t vids) ∘ (id ∘ vlan_add v))); [done|].
  eapply tree_bind; [eapply tree_bind; [apply add_run|apply tree_ret]|exact IH].
Qed.

(** Removing the nodes of a list. *)
Definition remove_all (l t : list VLAN_ID) : list VLAN_ID := foldl (λ t v, vlan_remove (vid v) t) t l.

Lemma pending_run p prev : tree_run p (remove_all (option_list prev)) (clean_pending p prev) tt.
Proof. destruct prev as [v|]; [apply tree_upd|apply tree_ret]. Qed.

Lemma walk_run p l prev :
  tree_run p (remove_all (option_list prev ++ filter (λ v, vlan_removed v = 1) l))
    (last ← clean_walk p prev l; clean_pending p last) tt.
Proof.
  revert prev. induction l as [|v l IH]; intros prev; simpl.
  - rewrite app_nil_r. eapply tree_eq; [|eapply tree_bind; [apply tree_ret|apply pending_run]]. done.
  - intros w x Hx He. rewrite bind_assoc. revert w x Hx He.
    eapply tree_eq; [|eapply tree_bind; [apply pending_run|apply IH]].
    intros t. unfold compose, remove_all. rewrite !foldl_app, filter_cons.
    destruct (Z.eqb_spec (vlan_removed v) 1); [rewrite decide_True by done|rewrite decide_False by done]; done.
Qed.

Lemma remove_all_filter l t :
  remove_all l t = filter (λ v, vid v ∉ vid <$> l) t.
Proof.
  revert t. induction l as [|u l IH]; intros t; simpl.
  - unfold remove_all. simpl. induction t as [|v t IHt]; [done|]. rewrite filter_cons_True; [by f_equal|].
    apply not_elem_of_nil.
  - unfold remove_all in *. simpl. rewrite IH. unfold vlan_remove.
    rewrite list_filter_filter. apply list_filter_iff. intros v. rewrite not_elem_of_cons. naive_solver.
Qed.

Lemma filter_agree (P Q : VLAN_ID → Prop) `{∀ v, Decision (P v)} `{∀ v, Decision (Q v)} (t : list VLAN_ID) :
  (∀ v, v ∈ t → P v ↔ Q v) → filter P t = filter Q t.
Proof.
  induction t as [|v t IH]; intros Hpq; [done|]. rewrite !filter_cons.
  rewrite IH by (intros u Hu; apply Hpq, elem_of_cons; by right).
  pose proof (Hpq v ltac:(apply elem_of_cons; by left)). repeat case_decide; naive_solver.
Qed.

(** On an ordered tree, the walk removes exactly the marked nodes. *)
Lemma clean_tree t : vlan_sorted t → remove_all (filter (λ v, vlan_removed v = 1) t) t = vlan_clean t.
Proof.
  intros Hs. rewrite remove_all_filter. apply filter_agree. intros v Hv. rewrite list_elem_of_fmap.
  setoid_rewrite list_elem_of_filter. split.
  - intros Hn H1. apply Hn. by exists v.
  - intros Hn (u & E & Hr & Hu). by rewrite (sorted_unique t v u Hs Hv Hu E) in Hn.
Qed.

Lemma clean_run p w x :
  vlan_sorted (pif_vlan_tree x) → w_pifs w !! p = Some x → (∀ tr n, w_env w tr (SysMalloc n) ≠ 0) →
  ∃ w', peer_if_clean_unused_vlan p w = Ok 0 w' ∧ w_env w' = w_env w
    ∧ w_pifs w' = <[p := x <| pif_vlan_tree ::= vlan_clean |>]> (w_pifs w).
Proof.
  intros Hs Hx He. unfold peer_if_clean_unused_vlan. rewrite (deref_bind _ _ x) by done.
  destruct (walk_run p (pif_vlan_tree x) None w x Hx He) as (w' & E & V & P).
  exists w'. rewrite <-bind_assoc, (bind_ok _ _ _ _ _ E). split; [done|]. split; [done|]. rewrite P.
  f_equal. apply set_tree_ext. by apply clean_tree.
Qed.

(** [peer_if_clean_unused_vlan] removes exactly the VLANs marked for removal: on an
    ordered tree the walk, which removes nodes from the tree it follows, leaves the
    unmarked nodes, in order, and touches no other interface. *)
Theorem clean_unused_vlans p w x :
  vlan_sorted (pif_vlan_tree x) → w_pifs w !! p = Some x → (∀ tr n, w_env w tr (SysMalloc n) ≠ 0) →
  ∃ w', peer_if_clean_unused_vlan p w = Ok 0 w'
    ∧ w_pifs w' = <[p := x <| pif_vlan_tree ::= filter (λ v, vlan_removed v ≠ 1) |>]> (w_pifs w).
Proof. intros Hs Hx He. destruct (clean_run p w x Hs Hx He) as (w' & E & _ & P). by exists w'. Qed.

(** C19. The VLANs of a port channel of the peer are those of its last announcement:
    the update of [mlacp_fsm_update_port_channel_info] (all VLANs marked, the
    announced ones added or unmarked, the marked ones removed) succeeds, keeps the
    tree ordered, and leaves in it exactly the announced identifiers, whatever was
    there before; no other interface changes. *)
Theorem announced_vlans p vids w x :
  vlan_sorted (pif_vlan_tree x) → w_pifs w !! p = Some x → (∀ tr n, w_env w tr (SysMalloc n) ≠ 0) →
  ∃ w' t, port_channel_vlans p vids w = Ok tt w'
    ∧ w_pifs w' = <[p := x <| pif_vlan_tree := t |>]> (w_pifs w)
    ∧ vlan_sorted t ∧ ∀ k, k ∈ vid <$> t ↔ k ∈ vids.
Proof.
  intros Hs Hx He. unfold port_channel_vlans.
  destruct (tree_upd p vlan_mark w x Hx He) as (w1 & E1 & V1 & P1).
  change (fmap (set vlan_removed (λ _, 1))) with vlan_mark. rewrite (bind_ok _ _ _ _ _ E1).
  destruct (adds_run p vids w1 (x <| pif_vlan_tree ::= vlan_mark |>)) as (w2 & E2 & V2 & P2);
    [by rewrite P1, lookup_insert_eq|by rewrite V1|].
  rewrite (bind_ok _ _ _ _ _ E2).
  set (t2 := foldl (λ t v, vlan_add v t) (vlan_mark (pif_vlan_tree x)) vids).
  assert (vlan_sorted t2) as Hs2.
  { unfold t2. assert (vlan_sorted (vlan_mark (pif_vlan_tree x))) as Hm by by apply map_sorted.
    clear -Hm. revert Hm. generalize (vlan_mark (pif_vlan_tree x)). induction vids as [|v l IH]; intros t Ht; [done|].
    simpl. apply IH. unfold vlan_add. case_match; [|by apply insert_sorted].
    apply map_sorted; [|done]. intros u. by case_match. }
  destruct (clean_run p w2 (x <| pif_vlan_tree := t2 |>)) as (w3 & E3 & V3 & P3);
    [done|rewrite P2, lookup_insert_eq; by destruct x|by rewrite V2, V1|].
  rewrite (bind_ok _ _ _ _ _ E3). exists w3, (vlan_announce vids (pif_vlan_tree x)). split; [done|].
  split; [|by apply announce_spec]. rewrite P3, P2, P1, !insert_insert_eq. done.
Qed.

(** ** Examples *)

Definition vlan_pif : PeerInterface :=
  peer_if_zero <| pif_vlan_tree := [mkVLAN_ID 10 1 NULL; mkVLAN_ID 20 0 NULL] |>.
Definition vlan_world : World := boot calm <| w_pifs := {[7 := vlan_pif]} |>.

Lemma vlan_pif_sorted : vlan_sorted (pif_vlan_tree vlan_pif).
Proof. repeat constructor; unfold vlan_lt; simpl; lia. Qed.

Lemma clean_unused_vlans_witness : ∃ w', peer_if_clean_unused_vlan 7 vlan_world = Ok 0 w'
  ∧ w_pifs w' = <[7 := vlan_pif <| pif_vlan_tree ::= filter (λ v, vlan_removed v ≠ 1) |>]> (w_pifs vlan_world).
Proof. apply clean_unused_vlans; [exact vlan_pif_sorted|reflexivity|intros; discriminate]. Defined.

Lemma announced_vlans_witness : ∃ w' t, port_channel_vlans 7 [30; 20; 30] vlan_world = Ok tt w'
  ∧ w_pifs w' = <[7 := vlan_pif <| pif_vlan_tree := t |>]> (w_pifs vlan_world)
  ∧ vlan_sorted t ∧ ∀ k, k ∈ vid <$> t ↔ k ∈ [30; 20; 30].
Proof. apply announced_vlans; [exact vlan_pif_sorted|reflexivity|done]. Defined.
