(* ===== verification/Connection.v ===== *)
(** * The connection of two nodes

    The contract of [iccp_csm_transit]: a transition reads at most one message,
    updates the flags, sends at most one message, and moves to the next state.
    [conn_transit] says which, on the flags alone; [transit_run] shows that
    the code does exactly that, down to the bytes on the wire.  Two such machines
    joined by two channels then reach the operational state. *)

From S2P Require Import Prelude CMem CString MsgFormat State Machine Frame IccpMsg IccpQueue SyncPrepare.
From S2P Require Import Port Syncd Standby MacTable LinkHandler AppCsm IccpCsm FrameSend FrameSteps.
#[local] Open Scope Z_scope.

(** ** The contract *)

(** The messages of the connection. *)
Inductive conn_msg : Type :=
| CmCapability (flag : Z)
| CmConnect (rg : Z) (name : list Z)
| CmDisconnect (rg status : Z)
| CmNak (rg status rejected : Z).

(** On the wire, with the identifier of the message. *)
Definition wire (id : Z) (m : conn_msg) : list Z :=
  match m with
  | CmCapability flag => capability_wire id flag
  | CmConnect rg name => rg_connect_wire id rg name
  | CmDisconnect rg status => rg_disconnect_wire id rg status
  | CmNak rg status rejected => nak_wire id rg status rejected
  end.

Definition conn_type (m : conn_msg) : Z :=
  match m with
  | CmCapability _ => MSG_T_CAPABILITY
  | CmConnect _ _ => MSG_T_RG_CONNECT
  | CmDisconnect _ _ => MSG_T_RG_DISCONNECT
  | CmNak _ _ _ => MSG_T_NOTIFICATION
  end.

(** In the queue of the receiver, the first unit in host order. *)
Definition queued (id : Z) (m : conn_msg) (n : Z) : Msg :=
  mkMsg (ldp_host (conn_type m) (drop 2 (wire id m))) n.

(** What a message does to the flags. *)
Definition absorb (m : option conn_msg) (i : IccpInfo) : IccpInfo :=
  match m with
  | None => i
  | Some (CmCapability flag) => if flag =? 1 then i <| peer_capability_flag := 1 |> else i
  | Some (CmConnect rg _) => check_id_info rg i <| peer_rg_connect_flag := 1 |>
  | Some (CmDisconnect rg status) =>
      let i := check_id_info rg i in
      if status =? STATUS_CODE_ICCP_RG_REMOVED
      then i <| sender_rg_connect_flag := 0 |> <| peer_rg_connect_flag := 0 |> else i
  | Some (CmNak rg _ _) => check_id_info rg i
  end.

(** The message a state sends. *)
Definition emit (s : ICCP_CONNECTION_STATE) (i : IccpInfo) : option conn_msg :=
  let nak := CmNak (icc_rg_id i) STATUS_CODE_U_ICCP_RG (rejected_msg_id i) in
  match s with
  | ICCP_INITIALIZED => Some (CmCapability (sender_capability_flag i))
  | ICCP_CAPREC =>
      if status_code i >? 0 then Some nak else Some (CmConnect (icc_rg_id i) (cstr (sender_name i)))
  | ICCP_CONNECTING => if status_code i >? 0 then Some nak else None
  | ICCP_OPERATIONAL =>
      if peer_rg_connect_flag i =? 0 then Some (CmDisconnect (icc_rg_id i) (status_code i)) else None
  | _ => None
  end.

Definition next_state (s : ICCP_CONNECTION_STATE) (i : IccpInfo) : ICCP_CONNECTION_STATE :=
  match s with
  | ICCP_NONEXISTENT => ICCP_NONEXISTENT
  | ICCP_INITIALIZED =>
      if (sender_capability_flag i =? 1) && (peer_capability_flag i =? 0) then ICCP_CAPSENT
      else if (sender_capability_flag i =? 1) && (peer_capability_flag i =? 1) then ICCP_CAPREC
      else ICCP_INITIALIZED
  | ICCP_CAPSENT =>
      if (sender_capability_flag i =? 1) && (peer_capability_flag i =? 1) then ICCP_CAPREC else ICCP_CAPSENT
  | ICCP_CAPREC =>
      if (peer_rg_connect_flag i =? 0) && (status_code i =? 0) then ICCP_CONNECTING
      else if (peer_rg_connect_flag i =? 1) && (status_code i =? 0) then ICCP_OPERATIONAL
      else ICCP_CAPREC
  | ICCP_CONNECTING =>
      if status_code i >? 0 then ICCP_CAPREC
      else if (peer_rg_connect_flag i =? 1) && (status_code i =? 0) then ICCP_OPERATIONAL
      else ICCP_CONNECTING
  | ICCP_OPERATIONAL =>
      if (sender_rg_connect_flag i =? 0) || (peer_rg_connect_flag i =? 0) then ICCP_CAPREC
      else ICCP_OPERATIONAL
  end.

(** The flags on entering a state. *)
Definition entered (s : ICCP_CONNECTION_STATE) (i : IccpInfo) : IccpInfo :=
  match s with
  | ICCP_INITIALIZED => i <| sender_capability_flag := 1 |>
  | ICCP_CAPREC => i <| sender_capability_flag := 1 |> <| peer_capability_flag := 1 |>
  | ICCP_CONNECTING => i <| sender_rg_connect_flag := 1 |>
  | ICCP_OPERATIONAL => i <| sender_rg_connect_flag := 1 |> <| peer_rg_connect_flag := 1 |>
  | _ => i
  end.

(** In the operational state, and in [ICCP_CAPSENT], nothing is sent unless the
    connection is lost. *)
Definition sends (s : ICCP_CONNECTION_STATE) (i : IccpInfo) : bool :=
  match s with
  | ICCP_OPERATIONAL => (sender_rg_connect_flag i =? 0) || (peer_rg_connect_flag i =? 0)
  | _ => true
  end.

Definition conn_transit (s : ICCP_CONNECTION_STATE) (i : IccpInfo) (m : option conn_msg)
  : ICCP_CONNECTION_STATE * IccpInfo * option conn_msg :=
  let i := absorb m i in
  let out := if sends s i then emit s i else None in
  let s' := next_state s i in
  (s', if negb (bool_decide (s = s')) || bool_decide (is_Some m) then entered s' i else i, out).

(** ** Sound states *)

Record info_ok (i : IccpInfo) : Prop := {
  io_scap : sender_capability_flag i = 0 ∨ sender_capability_flag i = 1;
  io_pcap : peer_capability_flag i = 0 ∨ peer_capability_flag i = 1;
  io_srg : sender_rg_connect_flag i = 0 ∨ sender_rg_connect_flag i = 1;
  io_prg : peer_rg_connect_flag i = 0 ∨ peer_rg_connect_flag i = 1;
  io_status : status_code i = 0 ∨ status_code i = STATUS_CODE_U_ICCP_RG;
  io_rg : 0 ≤ icc_rg_id i < 2 ^ 32;
  io_name : length (sender_name i) = MAX_L_ICC_SENDER_NAME
}.

(** A message the machine handles: the identifiers fit their fields. *)
Definition msg_ok (m : conn_msg) : Prop :=
  match m with
  | CmCapability flag => flag = 0 ∨ flag = 1
  | CmConnect rg _ => 0 ≤ rg < 2 ^ 32
  | CmDisconnect rg status => 0 ≤ rg < 2 ^ 32 ∧ 0 ≤ status < 2 ^ 32
  | CmNak _ _ _ => False
  end.

Section refinement.
(** The environment, which answers the system calls. *)
Context (env : list event → syscall → Z).

Record conn_ok (c : ptr) (x : CSM) (w : World) : Prop := {
  co_null : c ≠ NULL;
  co_csm : w_csms w !! c = Some x;
  co_send : sender_ok x;
  co_info : info_ok (iccp_info x);
  co_buf : length (w_csm_buf w) = CSM_BUFFER_SIZE;
  co_env : w_env w = env
}.

(** The part of a machine the connection is about. *)
Definition conn_view (x : CSM) := (current_state x, iccp_info x, msg_list x, sock_fd x).

(** The [write] of the message sent, if any, before the events so far. *)
Definition sent_events (fd : Z) (out : option conn_msg) (w : World) : list event :=
  match out with
  | Some m => [(SysWrite fd (wire (w_msg_id w) m), write_result fd (wire (w_msg_id w) m) w)]
  | None => []
  end.

Lemma name_length i : info_ok i → (length (cstr (sender_name i)) ≤ 80)%nat.
Proof. intros H. pose proof (cstr_length (sender_name i)). rewrite (io_name i H) in H0. done. Qed.

Lemma wire_length id s i m :
  info_ok i → emit s i = Some m → (16 ≤ length (wire id m) ≤ 100)%nat.
Proof.
  intros Hi. pose proof (name_length i Hi). unfold emit.
  destruct s; repeat case_match; intros Hm; simplify_eq; cbn; lia.
Qed.

(** The builder of a state. *)
Lemma prepare_run c x buf w :
  w_csms w !! c = Some x → c ≠ NULL → info_ok (iccp_info x) → length buf = CSM_BUFFER_SIZE →
  iccp_csm_prepare_iccp_msg c buf CSM_BUFFER_SIZE w =
  match emit (current_state x) (iccp_info x) with
  | Some m => Ok (Z.of_nat (length (wire (w_msg_id w) m)), in_buffer (wire (w_msg_id w) m) CSM_BUFFER_SIZE)
                 (bump_msg_id w)
  | None => Ok (-1, buf) w
  end.
Proof.
  intros Hx Hc Hi Hb. pose proof (name_length _ Hi) as Hn.
  assert (100 ≤ length buf)%nat as Hl by (rewrite Hb; unfold CSM_BUFFER_SIZE; lia). rewrite <-Hb.
  unfold iccp_csm_prepare_iccp_msg. rewrite eqb_null by done. rewrite (deref_bind _ _ x) by done.
  unfold emit. destruct (current_state x); try done.
  - rewrite (capability_run c x) by (done || lia || apply Hi). done.
  - destruct (status_code (iccp_info x) >? 0) eqn:Es.
    + rewrite (nak_run c x); [done..|lia|]. destruct (io_status _ Hi); lia.
    + rewrite (rg_connect_run c x) by (done || lia). cbn [wire]. do 3 f_equal. unfold strlen, rg_connect_wire.
      rewrite !length_app, icc_header_length. simpl. lia.
  - destruct (status_code (iccp_info x) >? 0) eqn:Es; [|done].
    rewrite (nak_run c x); [done..|lia|]. destruct (io_status _ Hi); lia.
  - destruct (peer_rg_connect_flag (iccp_info x) =? 0); [|done].
    by rewrite (rg_disconnect_run c x) by (done || lia).
Qed.

Lemma conn_ok_sent c x w log cnt :
  conn_ok c x w → log_ok log → conn_ok c (sent_csm log cnt x) (csm_set c (sent_csm log cnt x) w).
Proof.
  intros [Hc Hx [Hfd Hl] Hi Hb He] Hlog. by split.
Qed.

(** Build the message of the state and send it. *)
Lemma transit_send_run c x w clr :
  conn_ok c x w →
  ∃ x' w', transit_send c clr w = Ok tt w' ∧ conn_ok c x' w' ∧ conn_view x' = conn_view x
    ∧ w_trace w' = sent_events (sock_fd x) (emit (current_state x) (iccp_info x)) w ++ w_trace w.
Proof.
  intros Hok. pose proof Hok as [Hc Hx Hs Hi Hb He]. unfold transit_send.
  assert (∃ w1, when clr clear_csm_buf w = Ok tt w1 ∧ conn_ok c x w1
                ∧ w_trace w1 = w_trace w ∧ w_msg_id w1 = w_msg_id w)
    as (w1 & Hw1 & Hok1 & Ht & Hid).
  { destruct clr; [|by exists w]. unfold when. rewrite clear_run by done. eexists. split; [done|].
    split; [|done]. constructor; [exact Hc|exact Hx|exact Hs|exact Hi| |exact He]. apply length_replicate. }
  rewrite (bind_ok _ _ _ _ _ Hw1). clear Hw1. destruct Hok1 as [_ Hx1 _ _ Hb1 He1].
  pose proof (prepare_run c x (w_csm_buf w1) w1 Hx1 Hc Hi Hb1) as Hp.
  destruct (emit (current_state x) (iccp_info x)) as [m|] eqn:Hm.
  - rewrite (bind_ok _ _ _ _ _ (in_csm_buf_run _ _ _ _ _ Hp)).
    pose proof (wire_length (w_msg_id w1) _ _ _ Hi Hm) as Hl.
    set (w2 := bump_msg_id w1 <| w_csm_buf := _ |>).
    destruct (send_built_run c x (wire (w_msg_id w1) m) w2) as (log & cnt & Hlog & Hsend);
      [done..|unfold CSM_BUFFER_SIZE; lia|done|].
    rewrite <-bind_assoc, (bind_ok _ _ _ _ _ Hsend).
    eexists (sent_csm log cnt x), _. split; [done|]. split; [|split; [done|]].
    + apply conn_ok_sent; [|done]. split; try done. simpl. apply in_buffer_length. unfold CSM_BUFFER_SIZE. lia.
    + simpl. unfold sent_events, write_result. simpl. by rewrite Ht, Hid, He, He1.
  - rewrite (bind_ok _ _ _ _ _ (in_csm_buf_run _ _ _ _ _ Hp)).
    exists x. eexists. split; [|split; [|split; [done|]]].
    + unfold gets, mbind, M_bind, iccp_csm_send. rewrite eqb_null by done. unfold deref, mbind, M_bind.
      simpl. rewrite Hx1. by rewrite orb_true_r.
    + by split.
    + simpl. done.
Qed.

(** ** The code does what the contract says *)

Lemma absorb_ok m i : info_ok i → info_ok (absorb m i).
Proof.
  intros Hi. destruct Hi. unfold absorb, check_id_info.
  destruct m as [[flag|rg nm|rg st|rg st rj]|]; repeat case_match; split; simpl; auto.
Qed.

Lemma entered_ok s i : info_ok i → info_ok (entered s i).
Proof. intros Hi. destruct Hi. destruct s; split; simpl; auto. Qed.

(** The message at the head of the queue, if any. *)
Definition head_of (id n : Z) (m : option conn_msg) : option Msg := (λ m, queued id m n) <$> m.

Lemma conn_ok_set c x y w :
  conn_ok c x w → sock_fd y = sock_fd x → msg_log y = msg_log x → info_ok (iccp_info y) →
  conn_ok c y (csm_set c y w).
Proof.
  intros [Hc Hx [Hfd Hl] Hi Hb He] Hf Hm Hy. constructor; [exact Hc|apply csm_set_lookup| |exact Hy|exact Hb|exact He].
  split; congruence.
Qed.

Lemma correspond_run c x w id n m :
  conn_ok c x w → (∀ k, m = Some k → msg_ok k) →
  correspond c (head_of id n m) w = Ok tt (csm_set c (set_info (absorb m) x) w).
Proof.
  intros [Hc Hx _ _ _ _] Hm. destruct m as [k|]; simpl.
  2: { change (absorb None) with (@Datatypes.id IccpInfo). by rewrite set_info_id, csm_set_id. }
  specialize (Hm k eq_refl). destruct k as [flag|rg nm|rg st|rg st rj]; simpl in Hm; [| | |done].
  - by apply correspond_capability_run.
  - by apply correspond_rg_connect_run.
  - destruct Hm. by apply correspond_rg_disconnect_run.
Qed.

Lemma enter_run c x w s :
  conn_ok c x w → s ≠ ICCP_NONEXISTENT →
  iccp_csm_enter_state c s w = Ok tt (csm_set c (set_info (entered s) x) w).
Proof.
  intros [Hc Hx _ _ _ _] Hs.
  unfold iccp_csm_enter_state, iccp_csm_enter_state_initialized, iccp_csm_enter_state_caprec,
    iccp_csm_enter_state_connecting, iccp_csm_enter_state_operational, info_upd.
  rewrite eqb_null by done. destruct s; try done; try (by rewrite (csm_upd_run c _ x)).
  change (entered ICCP_CAPSENT) with (@Datatypes.id IccpInfo). by rewrite set_info_id, csm_set_id.
Qed.

(** The moves of the machine at the end of a transition. *)
Definition move (s' : ICCP_CONNECTION_STATE) (c : ptr) (s : ICCP_CONNECTION_STATE) : W unit :=
  if bool_decide (s = s') then mret tt else goto_state c s'.

Lemma move_run c x w s' :
  conn_ok c x w →
  ∃ x' w', move s' c (current_state x) w = Ok tt w' ∧ conn_ok c x' w'
    ∧ conn_view x' = (s', iccp_info x, msg_list x, sock_fd x) ∧ w_trace w' = w_trace w.
Proof.
  intros Hok. unfold move. case_bool_decide as E.
  - exists x, w. split; [done|]. split; [done|]. split; [|done]. unfold conn_view. by rewrite E.
  - unfold goto_state. rewrite (csm_upd_run c _ x) by apply Hok. eexists _, _. split; [done|].
    split; [eapply conn_ok_set; [exact Hok|reflexivity|reflexivity|exact (co_info _ _ _ Hok)]|]. done.
Qed.

(** The last part of the switch, once the message has been handled and sent. *)
Definition decide_next (c : ptr) (s : ICCP_CONNECTION_STATE) : W unit :=
  csm ← deref w_csms c; move (next_state s (iccp_info csm)) c s.

(** The state after a transition: moved, the message handled, the events of [out]. *)
Definition moved (c : ptr) (x : CSM) (i : IccpInfo) (evs : list event) (m : W unit) (w : World) : Prop :=
  ∃ x' w', m w = Ok tt w' ∧ conn_ok c x' w'
    ∧ conn_view x' = (next_state (current_state x) i, i, msg_list x, sock_fd x)
    ∧ w_trace w' = evs ++ w_trace w.

Lemma decide_run c x x2 w2 :
  conn_ok c x2 w2 → conn_view x2 = conn_view x →
  moved c x (iccp_info x) [] (decide_next c (current_state x)) w2.
Proof.
  intros Hok V. injection V as Vs Vi Vm Vf. unfold moved, decide_next.
  rewrite (deref_bind _ _ x2) by apply Hok. rewrite <-Vs, <-Vi, <-Vm, <-Vf.
  destruct (move_run c x2 w2 (next_state (current_state x2) (iccp_info x2)) Hok) as (x' & w' & E & Hok' & V' & T').
  by exists x', w'.
Qed.

(** Send, then move: [k] is the end of the [case]. *)
Lemma send_decide_run c x w b k :
  conn_ok c x w →
  (∀ x2 w2, conn_ok c x2 w2 → conn_view x2 = conn_view x → k w2 = decide_next c (current_state x) w2) →
  moved c x (iccp_info x) (sent_events (sock_fd x) (emit (current_state x) (iccp_info x)) w)
    (transit_send c b;; k) w.
Proof.
  intros Hok Hk. destruct (transit_send_run c x w b Hok) as (x2 & w2 & E2 & Hok2 & V2 & T2).
  unfold moved. rewrite (bind_ok _ _ _ _ _ E2), (Hk x2 w2 Hok2 V2).
  destruct (decide_run c x x2 w2 Hok2 V2) as (x' & w' & E & Hok' & V & T).
  exists x', w'. rewrite T, T2. auto.
Qed.

(** The tests of the code at the end of a state are those of [next_state]. *)
Ltac switch_tail x :=
  unfold decide_next, move; rewrite ?(deref_bind _ _ x) by (match goal with H : conn_ok _ x _ |- _ => apply H end);
  unfold when, next_state; repeat case_match; done.

Lemma switch_run c x w id n m :
  conn_ok c x w → (∀ k, m = Some k → msg_ok k) → current_state x ≠ ICCP_NONEXISTENT →
  let i := absorb m (iccp_info x) in
  moved c x i (sent_events (sock_fd x) (if sends (current_state x) i then emit (current_state x) i else None) w)
    (iccp_csm_transit_switch c (head_of id n m)) w.
Proof.
  intros Hok Hm Hs i. set (x1 := set_info (absorb m) x). set (w1 := csm_set c x1 w).
  assert (conn_ok c x1 w1) as Hok1.
  { eapply conn_ok_set; [exact Hok|done|done|]. simpl. apply absorb_ok, Hok. }
  pose proof (correspond_run c x w id n m Hok Hm) as Hco. fold x1 w1 in Hco.
  unfold moved, iccp_csm_transit_switch. rewrite (deref_bind _ _ x) by apply Hok.
  pose proof (send_decide_run c x1 w1) as Hsd. change (current_state x1) with (current_state x) in Hsd.
  pose proof (decide_run c x1 x1 w1 Hok1 eq_refl) as Hd. change (current_state x1) with (current_state x) in Hd.
  unfold moved in *.
  change (current_state x1) with (current_state x) in *. change (iccp_info x1) with i in *.
  destruct (current_state x); [done|..]; rewrite (bind_ok _ _ _ _ _ Hco); cbn [sends].
  - apply Hsd; [done|]. intros x2 w2 Hok2 _. switch_tail x2.
  - destruct Hd as (x' & w' & E & R). exists x', w'. rewrite <-E. split; [|exact R]. switch_tail x1.
  - apply Hsd; [done|]. intros x2 w2 Hok2 _. switch_tail x2.
  - apply Hsd; [done|]. intros x2 w2 Hok2 _. switch_tail x2.
  - rewrite (deref_bind _ _ x1) by apply Hok1. change (iccp_info x1) with i.
    destruct ((sender_rg_connect_flag i =? 0) || (peer_rg_connect_flag i =? 0)) eqn:El; cbn [when].
    + apply Hsd; [done|]. intros x2 w2 Hok2 V2. unfold decide_next. rewrite (deref_bind _ _ x2) by apply Hok2.
      injection V2 as _ -> _ _. unfold next_state. fold i. by rewrite El.
    + destruct Hd as (x' & w' & E & R). exists x', w'. rewrite <-E. split; [|exact R].
      unfold decide_next. rewrite (deref_bind _ _ x1) by apply Hok1. change (iccp_info x1) with i.
      unfold next_state. by rewrite El.
Qed.

Lemma next_state_live s i : s ≠ ICCP_NONEXISTENT → next_state s i ≠ ICCP_NONEXISTENT.
Proof. intros Hs. destruct s; unfold next_state; repeat case_match; done. Qed.

(** What [iccp_csm_transit] does on a connected machine with [m] at the head of its
    queue, or with an empty queue. *)
Lemma transit_refines c x w id n m rest :
  conn_ok c x w → current_state x ≠ ICCP_NONEXISTENT → (∀ k, m = Some k → msg_ok k) →
  msg_list x = option_list (head_of id n m) ++ rest → (m = None → rest = []) →
  let r := conn_transit (current_state x) (iccp_info x) m in
  ∃ x' w', iccp_csm_transit c w = Ok tt w' ∧ conn_ok c x' w'
    ∧ conn_view x' = (r.1.1, r.1.2, rest, sock_fd x)
    ∧ w_trace w' = sent_events (sock_fd x) r.2 w ++ w_trace w.
Proof.
  intros Hok Hs Hm Hq Hrest r. pose proof Hok as [Hc Hx [Hfd Hl] Hi Hb He].
  unfold iccp_csm_transit. rewrite eqb_null by done. rewrite (deref_bind _ _ x) by done.
  rewrite (proj2 (Z.leb_gt _ _)), andb_false_r by lia.
  set (x0 := x <| msg_list := rest |>). set (w0 := csm_set c x0 w).
  assert (iccp_csm_dequeue_msg c w = Ok (head_of id n m) w0 ∧ conn_ok c x0 w0) as [Hd Hok0].
  { split; [|by eapply conn_ok_set]. unfold iccp_csm_dequeue_msg. rewrite (deref_bind _ _ x), Hq by done.
    destruct m as [k|]; simpl.
    - by rewrite (csm_upd_bind c _ x).
    - simpl in Hq. unfold w0, x0. rewrite Hrest in Hq |- * by done.
      replace (x <| msg_list := [] |>) with x by (rewrite <-Hq; by destruct x). by rewrite csm_set_id. }
  rewrite (bind_ok _ _ _ _ _ Hd).
  destruct (switch_run c x0 w0 id n m Hok0 Hm Hs) as (x1 & w1 & E1 & Hok1 & V1 & T1).
  rewrite (bind_ok _ _ _ _ _ E1). injection V1 as Vs Vi Vm Vf.
  rewrite (deref_bind _ _ x1) by apply Hok1. rewrite Vs.
  change (current_state x0) with (current_state x) in *. change (iccp_info x0) with (iccp_info x) in *.
  pose proof (next_state_live _ (absorb m (iccp_info x)) Hs) as Hlive.
  rewrite (bool_decide_false _ Hlive), andb_true_l. unfold r, conn_transit. cbv zeta. cbn [fst snd].
  replace (bool_decide (is_Some (head_of id n m))) with (bool_decide (is_Some m))
    by (apply bool_decide_ext; unfold head_of; by rewrite fmap_is_Some).
  destruct (negb _ || _); cbn [when].
  - rewrite (enter_run c x1) by done. eexists _, _. split; [done|]. split; [|split].
    + eapply conn_ok_set; [exact Hok1|done|done|]. simpl. apply entered_ok, Hok1.
    + unfold conn_view. simpl. by rewrite Vs, Vi, Vm, Vf.
    + exact T1.
  - exists x1, w1. split; [done|]. split; [done|]. split; [|exact T1]. unfold conn_view.
    by rewrite Vs, Vi, Vm, Vf.
Qed.
End refinement.
