(* ===== verification/FrameFsm.v ===== *)
(** * Frames of the state machines and of the scheduler

    The loops of the mLACP machine and of the reception, and everything above
    them: a pass of the scheduler over all state machines, and the reception of a
    message, end. *)

From S2P Require Import Prelude CMem CString MsgFormat State Machine Frame IccpMsg IccpQueue SyncPrepare.
From S2P Require Import Port Syncd Standby MacTable MacUpdate LinkHandler NeighUpdate.
From S2P Require Import SyncUpdate AppCsm IccpCsm MlacpFsm Scheduler FrameSend FrameSteps.
#[local] Open Scope Z_scope.

Section neighbours.
Context (q : bool) (k : neigh_kind) `{!NeighKindOk k}.
#[local] Notation spec := (spec (csm_step q)).
#[local] Notation any := (λ _, True).

Lemma step_list f x : csm_step q (set_MLACP (set (nk_list k) f) x) x.
Proof. apply step_other; [apply nko_list|apply nko_list|done]. Qed.
Lemma step_nqueue f x : csm_step q (set_MLACP (set (nk_queue k) f) x) x.
Proof. apply step_other; [apply nko_queue|apply nko_queue|done]. Qed.
Hint Resolve step_list step_nqueue : frame.

Lemma enqueue_neigh_frame c m : spec any (mlacp_enqueue_neigh k c m).
Proof. unfold mlacp_enqueue_neigh, field_u8. frame. Qed.
Hint Resolve enqueue_neigh_frame : frame.
Lemma update_list_frame c d : spec any (neigh_update_list k c d).
Proof. unfold neigh_update_list. frame. Qed.

(** The queue of the machine, as a variant. *)
Definition queue_at (c : ptr) (w : World) : nat :=
  match w_csms w !! c with Some x => length (nk_queue k (MLACP x)) | None => 0%nat end.

Lemma purge_queue_frame c d : spec any (neigh_purge_queue k c d).
Proof.
  intros w. unfold neigh_purge_queue. destruct (w_csms w !! c) as [x|] eqn:Hx.
  2: { unfold mbind, M_bind, deref. rewrite Hx. apply bad_ptr_fuel. }
  rewrite (deref_bind _ _ x) by done.
  assert (queue_at c w < S (length (nk_queue k (MLACP x))))%nat as Hv by (unfold queue_at; rewrite Hx; lia).
  match goal with |- match mwhile ?n ?b w with _ => _ end =>
    assert (post (kept (csm_step q) w) (mwhile n b w)) as HP end.
  2: { destruct (mwhile _ _ w); done. }
  apply (post_mwhile _ (λ _, True) (queue_at c)); [|done..]. clear - NeighKindOk0. intros w _.
  destruct (w_csms w !! c) as [x|] eqn:Hx.
  2: { unfold mbind, M_bind, deref. rewrite Hx. apply bad_ptr_fuel. }
  rewrite (deref_bind _ _ x) by done.
  pose proof (neigh_index_run k d 0 (nk_queue k (MLACP x)) w) as Hi.
  unfold mbind, M_bind. destruct (neigh_index k d 0 (nk_queue k (MLACP x)) w) as [r w'|]; [|done].
  destruct Hi as [-> Hr]. destruct r as [i|]; [|done]. unfold mlacp_upd.
  rewrite (csm_upd_run c _ x) by done. split.
  - eapply kept_csm_set; [apply _|done|]. apply step_nqueue.
  - intros _. split; [done|]. unfold queue_at. rewrite csm_set_lookup, Hx. unfold MLACP, set_MLACP. simpl.
    rewrite nko_get. specialize (Hr i eq_refl). destruct Hr as [_ Hr]. unfold MLACP in Hr.
    rewrite length_delete by (by apply lookup_lt_is_Some). lia.
Qed.
Hint Resolve update_list_frame purge_queue_frame : frame.

Lemma neigh_entry_frame c d : spec any (update_neigh_entry k c d).
Proof. unfold update_neigh_entry. frame. Qed.
Hint Resolve neigh_entry_frame : frame.
Lemma neigh_info_frame c b : spec any (update_neigh_info k c b).
Proof. unfold update_neigh_info. frame. Qed.
End neighbours.

#[export] Hint Resolve neigh_info_frame : frame.
#[export] Hint Extern 0 (NeighKindOk _) => typeclasses eauto : frame.

(** ** The loops that send batches *)

(** A property of one machine that the senders keep. *)
Lemma kept_queue {T} (f : CSM → T) le c v w w' :
  (∀ x' x, le x' x → f x' = f x) → kept le w w' →
  (∀ x, w_csms w !! c = Some x → f x = v) → ∀ x, w_csms w' !! c = Some x → f x = v.
Proof. intros Hle [_ K] Hw x Hx. destruct (K _ _ Hx) as (y & Hy & Hl). rewrite (Hle _ _ Hl). auto. Qed.

Section batches.
Context (le : CSM → CSM → Prop) `{!SendFrame le}.
#[local] Notation spec := (spec le).
#[local] Notation any := (λ _, True).

Lemma flush_frame c limit count len : spec any (flush_batch c limit count len).
Proof. unfold flush_batch. frame. Qed.
Lemma send_rest_frame c r : spec any (send_rest c r).
Proof. unfold send_rest. frame. Qed.
Hint Resolve flush_frame send_rest_frame : frame.
Lemma send_mac_frame c p n : spec any (send_mac c p n).
Proof. unfold send_mac, mac_upd. frame. Qed.
Lemma send_arp_frame c m n : spec any (send_neigh (mlacp_prepare_for_arp_info c) c m n).
Proof. unfold send_neigh. frame. Qed.
Lemma send_ndisc_frame c m n : spec any (send_neigh (mlacp_prepare_for_ndisc_info c) c m n).
Proof. unfold send_neigh. frame. Qed.
End batches.
#[export] Hint Resolve flush_frame send_rest_frame send_mac_frame send_arp_frame send_ndisc_frame : frame.

Section drain.
Context (le : CSM → CSM → Prop) `{!SendFrame le}.
#[local] Notation any := (λ _, True).
Context {E : Type} (qu : mLACP → list E) `{!Settable qu}.
Context (get_set : ∀ f m, qu (set qu f m) = f (qu m)).
Context (le_set : ∀ f x, le (set_MLACP (set qu f) x) x).
Context (same : ∀ x' x, same_queues x' x → qu (MLACP x') = qu (MLACP x)).
Context (body : E → nat → W (nat * Z)) (c : ptr).
Context (body_frame : ∀ e n, spec (both le same_queues) any (body e n)).

(** The body does not touch the queue, so the queue gets shorter. *)
Lemma drain_post fuel count len w0 w :
  kept le w0 w → (0 < fuel)%nat → (∀ x, w_csms w !! c = Some x → (length (qu (MLACP x)) < fuel)%nat) →
  post (kept le w0) (drain qu body c fuel count len w).
Proof.
  revert count len w. induction fuel as [|n IH]; intros count len w K H0 Hf; [lia|]. simpl.
  destruct (w_csms w !! c) as [x|] eqn:Hx.
  2: { unfold mbind, M_bind, deref. rewrite Hx. apply bad_ptr_fuel. }
  rewrite (deref_bind _ _ x) by done. specialize (Hf x eq_refl).
  destruct (qu (MLACP x)) as [|e l] eqn:Hq; [done|]. simpl in Hf.
  unfold mlacp_upd. rewrite (csm_upd_bind c _ x) by done.
  eapply (post_bind (both le same_queues)); [apply body_frame|].
  intros [count' len'] w2 [K1 K2]%kept_both _. apply IH; [|lia|].
  - etrans; [exact K|]. etrans; [|exact K1]. eapply kept_csm_set; [apply _|done|apply le_set].
  - intros y Hy. destruct (kept_csms _ _ _ K2 _ _ Hy) as (z & Hz & Hs).
    rewrite csm_set_lookup in Hz. injection Hz as <-. rewrite (same _ _ Hs).
    unfold MLACP, set_MLACP. simpl. rewrite get_set. lia.
Qed.

Lemma send_batches_frame : spec le any (send_batches qu body c).
Proof.
  unfold send_batches. frame_step; [frame|]. intros w.
  destruct (w_csms w !! c) as [x|] eqn:Hx.
  2: { unfold mbind, M_bind, deref. rewrite Hx. apply bad_ptr_fuel. }
  rewrite (deref_bind _ _ x) by done.
  pose proof (drain_post (S (length (qu (MLACP x)))) 0 0 w w) as Hd.
  unfold mbind, M_bind. destruct (drain _ _ _ _ _ _ w) as [r w1|f]; simpl in Hd.
  - apply spec_from; [apply _| |apply send_rest_frame; apply _].
    apply Hd; [done|lia|]. intros y Hy. rewrite Hx in Hy. injection Hy as <-. lia.
  - apply Hd; [done|lia|]. intros y Hy. rewrite Hx in Hy. injection Hy as <-. lia.
Qed.
End drain.

(** ** Senders *)

Definition same_sync (x' x : CSM) : Prop := sync_state (MLACP x') = sync_state (MLACP x).

#[export] Instance same_sync_preorder : PreOrder same_sync.
Proof. unfold same_sync. split; [done|]. intros x y z H1 H2. congruence. Qed.

#[export] Instance same_sync_send : SendFrame same_sync.
Proof.
  split; [apply _|done| |done].
  intros x dir t s. unfold same_sync, MLACP, set_MLACP, count_iccp. simpl. by destruct (_ && _).
Qed.

#[export] Hint Extern 1 (both _ _ _ _) => split : frame.
#[export] Hint Extern 1 (same_sync _ _) => reflexivity : frame.

Section senders.
Context (q : bool).
#[local] Notation le := (both (csm_step q) same_sync).
#[local] Notation spec := (spec le).
#[local] Notation any := (λ _, True).

Lemma send_sysconf_frame c : spec any (mlacp_sync_send_sysConf c).
Proof. unfold mlacp_sync_send_sysConf. frame. apply build_and_send_frame; [apply _|]. frame. Qed.
Lemma send_each_frame c f d :
  (∀ p b, spec (λ r, length (snd r) = length b) (f p b CSM_BUFFER_SIZE)) → spec any (send_each_po c f d).
Proof.
  intros Hf. unfold send_each_po, lif_upd. frame. apply prepare_and_send_frame; [apply _|]. frame.
Qed.
Lemma send_arps_frame c : spec any (mlacp_sync_send_syncArpInfo c).
Proof.
  unfold mlacp_sync_send_syncArpInfo. apply send_batches_frame; [apply _|done| | |frame].
  - intros f x. split; [by apply step_other|done].
  - by intros x' x (?&?&?&?&?).
Qed.
Lemma send_ndiscs_frame c : spec any (mlacp_sync_send_syncNdiscInfo c).
Proof.
  unfold mlacp_sync_send_syncNdiscInfo. apply send_batches_frame; [apply _|done| | |frame].
  - intros f x. split; [by apply step_other|done].
  - by intros x' x (?&?&?&?&?).
Qed.
Lemma send_peerlink_frame c : spec any (mlacp_sync_send_syncPeerLinkInfo c).
Proof. unfold mlacp_sync_send_syncPeerLinkInfo. frame. all: apply prepare_and_send_frame; [apply _|]; frame. Qed.
Lemma send_done_frame c : spec any (mlacp_sync_send_syncDoneData c).
Proof. unfold mlacp_sync_send_syncDoneData. frame. all: apply prepare_and_send_frame; [apply _|]; frame. Qed.
Hint Resolve send_sysconf_frame send_arps_frame send_ndiscs_frame send_peerlink_frame send_done_frame : frame.

Lemma sender_frame c : spec any (mlacp_sync_sender_handler c).
Proof.
  unfold mlacp_sync_sender_handler, mlacp_sync_send_aggConf, mlacp_sync_send_aggState,
    mlacp_sync_send_syncPortChannelInfo. frame. all: apply send_each_frame; frame.
Qed.
End senders.

(** A specification for two relations gives one for each. *)
Lemma spec_left {A} le1 le2 (Q : A → Prop) m : spec (both le1 le2) Q m → spec le1 Q m.
Proof. intros H w. specialize (H w). destruct (m w); [|done]. destruct H as [[? _]%kept_both ?]. done. Qed.

Lemma post_left {A} (R R' : World → Prop) (o : outcome World A) :
  (∀ w, R w → R' w) → post R o → post R' o.
Proof. intros H. destruct o; simpl; auto. Qed.

(** ** Sending everything: eight rounds *)

Definition sync_of (c : ptr) (w : World) : Z :=
  match w_csms w !! c with Some x => sync_state (MLACP x) | None => 0 end.

Section send_all.
Context (q : bool).
#[local] Notation spec := (spec (csm_step q)).
#[local] Notation any := (λ _, True).

Lemma send_all_round_run c w :
  0 ≤ sync_of c w ≤ MLACP_SYNC_DONE →
  match send_all_round c w with
  | Ok b w' => kept (csm_step q) w w'
               ∧ (b = true → sync_of c w' = sync_of c w + 1 ∧ sync_of c w < MLACP_SYNC_DONE)
  | Fault f => f ≠ OutOfFuel
  end.
Proof.
  intros Hs. unfold send_all_round. pose proof (sender_frame q c w) as Hsend.
  unfold mbind at 1, M_bind at 1. destruct (mlacp_sync_sender_handler c w) as [[] w1|f]; [|done].
  destruct Hsend as [[K1 [_ K2]]%kept_both _].
  destruct (w_csms w1 !! c) as [y|] eqn:Hy.
  2: { unfold mbind, M_bind, deref. rewrite Hy. apply bad_ptr_fuel. }
  destruct (K2 _ _ Hy) as (x & Hx & Hxy). unfold same_sync in Hxy.
  rewrite (deref_bind _ _ y) by done. unfold mlacp_upd.
  destruct (sync_state (MLACP y) =? MLACP_SYNC_DONE) eqn:Hd; simpl.
  - rewrite (csm_upd_bind c _ y) by done. split; [|done].
    etrans; [exact K1|]. eapply kept_csm_set; [apply _|done|]. by apply step_succ.
  - rewrite (csm_upd_bind c _ y) by done. split.
    + etrans; [exact K1|]. eapply kept_csm_set; [apply _|done|]. by apply step_other.
    + intros _. unfold sync_of in *. rewrite csm_set_lookup, Hx in *. unfold MLACP, set_MLACP in *. simpl.
      apply Z.eqb_neq in Hd. unfold MLACP_SYNC_DONE in *. lia.
Qed.

Lemma send_all_frame c : spec any (mlacp_sync_send_all_info_handler c).
Proof.
  unfold mlacp_sync_send_all_info_handler. frame_step; [apply prepare_and_send_frame; [apply _|]; frame|].
  intros w. unfold mlacp_upd. destruct (w_csms w !! c) as [x|] eqn:Hx.
  2: { unfold mbind, M_bind, csm_upd, update. rewrite Hx. apply bad_ptr_fuel. }
  rewrite (csm_upd_bind c _ x) by done.
  match goal with |- match mwhile ?n ?b ?w1 with _ => _ end =>
    assert (post (kept (csm_step q) w) (mwhile n b w1)) as HP; [|destruct (mwhile n b w1); done] end.
  apply (post_mwhile _ (λ w, 0 ≤ sync_of c w ≤ MLACP_SYNC_DONE)
           (λ w, Z.to_nat (MLACP_SYNC_DONE - sync_of c w))).
  - intros w1 H1. pose proof (send_all_round_run c w1 H1) as Hr.
    destruct (send_all_round c w1); [|done]. destruct Hr as [Hk Hr]. split; [done|].
    intros Hb. destruct (Hr Hb) as [-> Hlt]. unfold MLACP_SYNC_DONE in *. lia.
  - unfold sync_of. by rewrite csm_set_lookup.
  - eapply kept_csm_set; [apply _|done|]. by apply step_other.
  - unfold sync_of. rewrite csm_set_lookup. unfold SEND_ALL_ROUNDS, MLACP, set_MLACP. vm_compute. lia.
Qed.
End send_all.
#[export] Hint Resolve send_all_frame : frame.

(** ** Receivers and handlers *)

Section handlers.
Context (q : bool).
#[local] Notation spec := (spec (csm_step q)).
#[local] Notation any := (λ _, True).
Ltac sends := frame; try (first [apply prepare_and_send_frame | apply build_and_send_frame]; [apply _|]; frame).

Lemma send_macs_frame c : spec any (mlacp_sync_send_syncMacInfo c).
Proof.
  unfold mlacp_sync_send_syncMacInfo. apply send_batches_frame; [apply _|done| | |frame].
  - intros f x. by apply step_other.
  - by intros x' x (?&?&?&?&?).
Qed.
Lemma send_arps_step c : spec any (mlacp_sync_send_syncArpInfo c).
Proof. eapply spec_left, send_arps_frame. Qed.
Lemma send_ndiscs_step c : spec any (mlacp_sync_send_syncNdiscInfo c).
Proof. eapply spec_left, send_ndiscs_frame. Qed.
Lemma send_peerlink_step c : spec any (mlacp_sync_send_syncPeerLinkInfo c).
Proof. eapply spec_left, send_peerlink_frame. Qed.
Hint Resolve send_macs_frame send_arps_step send_ndiscs_step send_peerlink_step : frame.
Lemma send_heartbeat_frame c : spec any (mlacp_sync_send_heartbeat c).
Proof. unfold mlacp_sync_send_heartbeat. sends. Qed.
Lemma send_ack_frame c t i o : spec any (mlacp_fsm_send_if_up_ack c t i o).
Proof. unfold mlacp_fsm_send_if_up_ack. sends. Qed.
Lemma send_nak_frame c m : spec any (mlacp_sync_send_nak_handler c m).
Proof. unfold mlacp_sync_send_nak_handler. frame. Qed.
Lemma recv_nak_frame c m : spec any (mlacp_sync_recv_nak_handler c m).
Proof. unfold mlacp_sync_recv_nak_handler. frame. Qed.
Lemma param_type_frame m : spec any (param_type m).
Proof. unfold param_type. frame. Qed.
Lemma header_type_frame m : spec any (header_type m).
Proof. unfold header_type. frame. Qed.
Hint Resolve send_heartbeat_frame send_ack_frame send_nak_frame recv_nak_frame param_type_frame
  header_type_frame : frame.
Lemma count_rx_frame c m s : spec any (count_rx c m s).
Proof. unfold count_rx. frame. Qed.
Hint Resolve count_rx_frame : frame.
Lemma recv_or_nak_frame c m u : spec any u → spec any (recv_or_nak c m u).
Proof. intros Hu. unfold recv_or_nak. frame. Qed.
Lemma checked_frame m t s n k : spec any k → spec any (checked_entries m t s n k).
Proof. intros Hk. unfold checked_entries. frame. Qed.

Lemma system_conf_frame c b : spec any (mlacp_fsm_update_system_conf c b).
Proof. unfold mlacp_fsm_update_system_conf. frame. Qed.
Lemma agg_purge_frame c p : spec any (agg_conf_purge c p).
Proof. unfold agg_conf_purge. frame. Qed.
Lemma agg_update_frame c p n b : spec any (agg_conf_update c p n b).
Proof. unfold agg_conf_update, pif_upd. frame. Qed.
Hint Resolve system_conf_frame agg_purge_frame agg_update_frame : frame.
Lemma agg_conf_frame c b : spec any (mlacp_fsm_update_Agg_conf c b).
Proof. unfold mlacp_fsm_update_Agg_conf. frame. Qed.
Lemma po_by_id_frame x i : spec any (peer_po_by_id x i).
Proof. unfold peer_po_by_id. apply mfind_frame; [apply _|]. frame. Qed.
Hint Resolve agg_conf_frame po_by_id_frame : frame.
Lemma aggport_state_frame c b : spec any (mlacp_fsm_update_Aggport_state c b).
Proof. unfold mlacp_fsm_update_Aggport_state, pif_upd. frame. Qed.
Lemma read_vlans_frame b i n : spec any (read_vlans b i n).
Proof. revert i. induction n as [|n IH]; intros i; cbn [read_vlans]; frame. Qed.
Lemma po_vlans_frame p v : spec any (port_channel_vlans p v).
Proof. unfold port_channel_vlans, pif_upd. frame. Qed.
Lemma both_ends_frame n f : spec any (with_both_ends n f).
Proof. unfold with_both_ends. frame. Qed.
Hint Resolve aggport_state_frame read_vlans_frame po_vlans_frame both_ends_frame : frame.
Lemma consistency_frame n : spec any (iccp_consistency_check n).
Proof.
  unfold iccp_consistency_check. generalize REASON_INTERRFACE_MODE_IS_ASYNC at 1.
  generalize (Z.to_nat (REASON_MAX_ARRAY_SIZE - REASON_INTERRFACE_MODE_IS_ASYNC)).
  intros k. induction k as [|k IH]; intros i; simpl; [frame|].
  assert (∀ f, check_func i = Some f → spec any (f n)) as Hf.
  { unfold check_func, iccp_check_interface_mode, iccp_check_interface_layer3_addr,
      iccp_check_interface_vlan. intros f. repeat (case_match; [intros [= <-]; frame|]). done. }
  destruct (check_func i) as [f|]; [|apply IH]. specialize (Hf f eq_refl). frame.
Qed.
Hint Resolve consistency_frame : frame.
Lemma po_info_recv_frame c b : spec any (mlacp_fsm_update_port_channel_info c b).
Proof. unfold mlacp_fsm_update_port_channel_info, pif_upd. frame. Qed.
Lemma peerlink_recv_frame c b : spec any (mlacp_fsm_update_peerlink_info c b).
Proof. unfold mlacp_fsm_update_peerlink_info. frame. Qed.
Hint Resolve po_info_recv_frame peerlink_recv_frame : frame.

Lemma receiver_frame c m : spec any (mlacp_sync_receiver_handler c m).
Proof.
  unfold mlacp_sync_receiver_handler, mlacp_sync_recv_sysConf, mlacp_sync_recv_aggConf,
    mlacp_sync_recv_aggState, mlacp_sync_recv_syncData, mlacp_sync_recv_syncReq,
    mlacp_sync_recv_portChanInfo, mlacp_sync_recv_peerLlinkInfo, mlacp_sync_recv_macInfo,
    mlacp_sync_recv_arpInfo, mlacp_sync_recv_ndiscInfo, mlacp_sync_recv_heartbeat,
    mlacp_sync_recv_warmboot, mlacp_fsm_recv_if_up_ack, mlacp_fsm_update_heartbeat,
    mlacp_fsm_update_warmboot, mlacp_fsm_update_arp_info, mlacp_fsm_update_ndisc_info.
  frame. all: try (apply recv_or_nak_frame; frame). all: try (apply checked_frame; frame).
  all: try (apply recv_or_nak_frame; frame).
Qed.
Hint Resolve receiver_frame : frame.
Lemma lif_mac_timer_frame c : spec any (mlacp_local_lif_state_mac_handler c).
Proof. unfold mlacp_local_lif_state_mac_handler, lif_upd. frame. Qed.
Lemma learning_timer_frame c : spec any (mlacp_peer_link_learning_handler c).
Proof. unfold mlacp_peer_link_learning_handler. frame. Qed.
Lemma stage_send_frame c m : spec any (mlacp_stage_sync_send_handler c m).
Proof. unfold mlacp_stage_sync_send_handler. frame. Qed.
Lemma stage_request_frame c m : spec any (mlacp_stage_sync_request_handler c m).
Proof. unfold mlacp_stage_sync_request_handler. sends. Qed.
Hint Resolve lif_mac_timer_frame learning_timer_frame stage_send_frame stage_request_frame : frame.
Lemma stage_frame c m : spec any (mlacp_stage_handler c m).
Proof. unfold mlacp_stage_handler. frame. Qed.
Lemma exchange_config_frame c : spec any (exchange_config c).
Proof. unfold exchange_config. sends. Qed.
Lemma exchange_purge_frame c : spec any (exchange_purge c).
Proof. unfold exchange_purge. sends. Qed.
Lemma exchange_lif_frame c p : spec any (exchange_lif c p).
Proof. unfold exchange_lif, lif_upd. sends. Qed.
Hint Resolve stage_frame exchange_config_frame exchange_purge_frame exchange_lif_frame : frame.
Lemma exchange_frame c m : spec any (mlacp_exchange_handler c m).
Proof. unfold mlacp_exchange_handler. frame. Qed.
Hint Resolve exchange_frame : frame.
Lemma enter_frame c : spec any (mlacp_enter_state c).
Proof. unfold mlacp_enter_state. frame. Qed.
Lemma switch_frame c m : spec any (mlacp_fsm_switch c m).
Proof. unfold mlacp_fsm_switch. frame. Qed.
Lemma leave_init_frame c : spec any (mlacp_leave_init c).
Proof. unfold mlacp_leave_init. frame. split; done. Qed.
Hint Resolve enter_frame switch_frame leave_init_frame : frame.
Lemma fsm_step_frame c m : spec any (mlacp_fsm_step c m).
Proof. unfold mlacp_fsm_step. frame. Qed.
End handlers.
#[export] Hint Resolve send_heartbeat_frame recv_nak_frame lif_mac_timer_frame learning_timer_frame
  param_type_frame header_type_frame switch_frame fsm_step_frame : frame.

(** ** The transition of the mLACP machine *)

(** The messages to take, and one more round for the initial state. *)
Definition rounds_left (c : ptr) (w : World) : nat :=
  match w_csms w !! c with
  | Some x => queue_len x + (if (1 <=? mlacp_current_state (MLACP x))%Z then 0 else 1)
  | None => 0
  end%nat.

Lemma rounds_left_kept c w w' x x' :
  kept (csm_step true) w w' → w_csms w !! c = Some x → w_csms w' !! c = Some x' →
  (queue_len x' ≤ queue_len x)%nat ∧ (1 ≤ mlacp_current_state (MLACP x) → 1 ≤ mlacp_current_state (MLACP x')).
Proof.
  intros [_ K] Hx Hx'. destruct (K _ _ Hx') as (y & Hy & S).
  rewrite Hx in Hy. injection Hy as <-. split; by apply S.
Qed.

(** The first round leaves the initial state. *)
Lemma init_step_run c w x :
  w_csms w !! c = Some x → mlacp_current_state (MLACP x) = MLACP_STATE_INIT →
  match mlacp_fsm_step c None w with
  | Ok _ w' => kept (csm_step true) w w'
               ∧ ∀ x', w_csms w' !! c = Some x' →
                   (queue_len x' ≤ queue_len x)%nat ∧ 1 ≤ mlacp_current_state (MLACP x')
  | Fault f => f ≠ OutOfFuel
  end.
Proof.
  intros Hx Hs. unfold mlacp_fsm_step.
  assert (∃ w1, mlacp_enter_state c w = Ok tt w1 ∧ kept (csm_step true) w w1 ∧ w_csms w1 = w_csms w)
    as (w1 & H1 & K1 & C1).
  { unfold mlacp_enter_state. rewrite (deref_bind _ _ x) by done. rewrite Hs. unfold gets, mbind, M_bind.
    destruct (w_prev_state w =? MLACP_STATE_INIT); [by exists w|].
    unfold when, deref. simpl. rewrite Hx. eexists. split; [done|]. split; [|done]. split; [done|].
    intros p y Hy. by exists y. }
  rewrite (bind_ok _ _ _ _ _ H1). unfold mlacp_leave_init.
  rewrite <-C1 in Hx. rewrite bind_assoc, (deref_bind _ _ x) by done. rewrite Hs. simpl.
  unfold mlacp_upd. rewrite bind_assoc, (csm_upd_bind c _ x) by done.
  match goal with |- match ?m ?w2 with _ => _ end =>
    assert (spec (csm_step true) (λ _, True) m) as Hm by frame; specialize (Hm w2);
    destruct (m w2) as [[] w3|]; [|done] end.
  destruct Hm as [K3 _]. split.
  - etrans; [exact K1|]. etrans; [|exact K3]. eapply kept_csm_set; [apply _|done|]. by split.
  - intros x' Hx'. destruct (rounds_left_kept _ _ _ _ _ K3 (csm_set_lookup _ _ _) Hx') as [Hq Hst].
    split; [exact Hq|]. by apply Hst.
Qed.

Lemma fsm_round_run c w :
  match mlacp_fsm_round c w with
  | Ok b w' => kept (csm_step true) w w' ∧ (b = true → (rounds_left c w' < rounds_left c w)%nat)
  | Fault f => f ≠ OutOfFuel
  end.
Proof.
  unfold mlacp_fsm_round. destruct (w_csms w !! c) as [x|] eqn:Hx.
  2: { unfold mbind, M_bind, deref. rewrite Hx. apply bad_ptr_fuel. }
  rewrite (deref_bind _ _ x) by done.
  destruct (mlacp_current_state (MLACP x) =? MLACP_STATE_INIT) eqn:Hs.
  - apply Z.eqb_eq in Hs. pose proof (init_step_run c w x Hx Hs) as Hr. unfold mbind, M_bind.
    destruct (mlacp_fsm_step c None w) as [[] w'|]; [|done]. destruct Hr as [K Hr]. split; [done|].
    intros _. unfold rounds_left. rewrite Hx, Hs.
    destruct (w_csms w' !! c) as [x'|] eqn:Hx'; [|simpl; lia]. destruct (Hr x' eq_refl) as [Hq H1].
    rewrite (proj2 (Z.leb_le 1 _)) by done. simpl. lia.
  - unfold mlacp_dequeue_msg. rewrite bind_assoc, (deref_bind _ _ x) by done.
    destruct (mlacp_msg_list (MLACP x)) as [|m l] eqn:Hq; simpl.
    { unfold mbind, M_bind, mret, M_ret. pose proof (fsm_step_frame true c None w) as Hf.
      destruct (mlacp_fsm_step c None w); [|done]. by destruct Hf. }
    unfold mlacp_upd. rewrite bind_assoc, (csm_upd_bind c _ x) by done.
    match goal with |- match ?m ?w2 with _ => _ end =>
      assert (spec (csm_step true) (λ _, True) m) as Hm by frame; specialize (Hm w2);
      destruct (m w2) as [b w3|]; [|done] end.
    destruct Hm as [K3 _].
    assert (kept (csm_step true) w w3) as K.
    { etrans; [|exact K3]. eapply kept_csm_set; [apply _|done|]. split; [|done|done].
      intros _. unfold queue_len. rewrite Hq. unfold MLACP, set_MLACP. simpl. lia. }
    split; [done|]. intros _. unfold rounds_left. rewrite Hx.
    destruct (w_csms w3 !! c) as [x3|] eqn:Hx3; [|unfold queue_len; rewrite Hq; simpl; lia].
    destruct (rounds_left_kept _ _ _ _ _ K3 (csm_set_lookup _ _ _) Hx3) as [Hq3 Hst3].
    unfold queue_len in *. unfold MLACP, set_MLACP in *. simpl in *. rewrite Hq. simpl.
    destruct (1 <=? mlacp_current_state (mlacp (app_csm x))) eqn:E1.
    + apply Z.leb_le, Hst3 in E1. rewrite (proj2 (Z.leb_le 1 _)) by done. lia.
    + case_match; lia.
Qed.

Lemma kept_weaken le1 le2 w w' : (∀ x' x, le1 x' x → le2 x' x) → kept le1 w w' → kept le2 w w'.
Proof.
  intros H [B C]. split; [done|]. intros c x' Hx'. destruct (C _ _ Hx') as (x & Hx & Hl). exists x. auto.
Qed.

Lemma csm_step_false q x' x : csm_step q x' x → csm_step false x' x.
Proof. intros []. by split. Qed.

(** ** Connection, application and scheduler *)

Section machines.
#[local] Notation spec := (spec (csm_step false)).
#[local] Notation any := (λ _, True).

(** Here the queue of the mLACP machine may change. *)
Lemma step_log_same x' x : msg_log x' = msg_log x → csm_step false x' x.
Proof. intros H. split; [done|done|by rewrite H]. Qed.
Lemma log_zero_ok : log_ok msg_log_zero.
Proof. by vm_compute. Qed.
Lemma step_log_zero x' x : msg_log x' = msg_log_zero → csm_step false x' x.
Proof. intros H. split; [done|done|]. rewrite H. intros _. apply log_zero_ok. Qed.
Hint Extern 2 (csm_step false _ _) =>
  first [ apply step_log_same; reflexivity | apply step_log_zero; reflexivity ] : frame.

Lemma fsm_loop_frame c :
  spec any (csm ← deref w_csms c; mwhile (length (mlacp_msg_list (MLACP csm)) + 3) (mlacp_fsm_round c)).
Proof.
  intros w. destruct (w_csms w !! c) as [x|] eqn:Hx.
  2: { unfold mbind, M_bind, deref. rewrite Hx. apply bad_ptr_fuel. }
  rewrite (deref_bind _ _ x) by done.
  match goal with |- match mwhile ?n ?b w with _ => _ end =>
    assert (post (kept (csm_step true) w) (mwhile n b w)) as HP end.
  - apply (post_mwhile _ (λ _, True) (rounds_left c)); [|done..|].
    + intros w1 _. pose proof (fsm_round_run c w1) as Hr. destruct (mlacp_fsm_round c w1); [|done].
      destruct Hr. auto.
    + unfold rounds_left, queue_len. rewrite Hx. case_match; lia.
  - destruct (mwhile _ _ w); [|done]. split; [|done]. eapply kept_weaken; [|exact HP]. apply csm_step_false.
Qed.
Lemma socket_cleanup_frame c : spec any (scheduler_csm_socket_cleanup c).
Proof. unfold scheduler_csm_socket_cleanup, sys_upd. frame. Qed.
Hint Resolve fsm_loop_frame socket_cleanup_frame : frame.
Lemma torn_down_frame c : spec any (mlacp_torn_down c).
Proof. unfold mlacp_torn_down, sys_upd. frame. Qed.
Hint Resolve torn_down_frame : frame.
Lemma fsm_transit_frame c : spec any (mlacp_fsm_transit c).
Proof. unfold mlacp_fsm_transit. repeat first [ apply fsm_loop_frame | progress intros | frame_step ]. Qed.

Lemma lif_reinit_frame c : spec any (lif_queue_reinit c).
Proof. unfold lif_queue_reinit, lif_upd. frame. Qed.
Lemma pif_reinit_frame c : spec any (pif_queue_reinit c).
Proof. unfold pif_queue_reinit. frame. Qed.
Hint Resolve fsm_transit_frame lif_reinit_frame pif_reinit_frame : frame.
Lemma mlacp_init_frame c a : spec any (mlacp_init c a).
Proof. unfold mlacp_init. frame. Qed.
Lemma mlacp_finalize_frame c : spec any (mlacp_finalize c).
Proof. unfold mlacp_finalize. frame. Qed.
Hint Resolve mlacp_init_frame mlacp_finalize_frame : frame.
Lemma app_init_frame c a : spec any (app_csm_init c a).
Proof. unfold app_csm_init. frame. Qed.
Lemma app_finalize_frame c : spec any (app_csm_finalize c).
Proof. unfold app_csm_finalize. frame. Qed.
Lemma app_transit_frame c : spec any (app_csm_transit c).
Proof. unfold app_csm_transit. frame. Qed.
Hint Resolve app_init_frame app_finalize_frame app_transit_frame : frame.
Lemma status_reset_frame c a : spec any (iccp_csm_status_reset c a).
Proof. unfold iccp_csm_status_reset. frame. Qed.
Lemma role_count_frame c : spec any (iccp_csm_stp_role_count c).
Proof. unfold iccp_csm_stp_role_count. frame. Qed.
Hint Resolve status_reset_frame role_count_frame : frame.
Lemma check_config_frame c : spec any (scheduler_check_csm_config c).
Proof. unfold scheduler_check_csm_config, lif_upd. frame. Qed.
Lemma client_conn_frame c : spec any (session_client_conn_handler c).
Proof. unfold session_client_conn_handler, sys_upd. frame. Qed.
Hint Resolve check_config_frame client_conn_frame : frame.
Lemma prepare_session_frame c : spec any (scheduler_prepare_session c).
Proof. unfold scheduler_prepare_session. frame. Qed.
Lemma unregister_frame c : spec any (scheduler_unregister_sock_read_event_callback c).
Proof. unfold scheduler_unregister_sock_read_event_callback, sys_upd. frame. Qed.
Hint Resolve prepare_session_frame unregister_frame : frame.
Lemma session_disconnect_frame c : spec any (scheduler_session_disconnect_handler c).
Proof. unfold scheduler_session_disconnect_handler. frame. Qed.
Hint Resolve session_disconnect_frame : frame.
Lemma heartbeat_update_frame c : spec any (heartbeat_update c).
Proof. unfold heartbeat_update, heartbeat_check. frame. Qed.
Lemma unbind_frame p : spec any (mlacp_unbind_local_if p).
Proof. unfold mlacp_unbind_local_if, lif_upd. frame. Qed.
Hint Resolve heartbeat_update_frame unbind_frame : frame.
Lemma detach_cli_frame n : spec any (iccp_cli_detach_mclag_domain_to_port_channel n).
Proof. unfold iccp_cli_detach_mclag_domain_to_port_channel. frame. Qed.
Hint Resolve detach_cli_frame : frame.
Lemma finalize_frame c : spec any (iccp_csm_finalize c).
Proof. unfold iccp_csm_finalize, lif_upd, sys_upd. frame. Qed.
Hint Resolve finalize_frame : frame.
Lemma enter_state_frame c s : spec any (iccp_csm_enter_state c s).
Proof.
  unfold iccp_csm_enter_state, iccp_csm_enter_state_nonexistent, iccp_csm_enter_state_initialized,
    iccp_csm_enter_state_caprec, iccp_csm_enter_state_connecting, iccp_csm_enter_state_operational. frame.
Qed.
Lemma correspond_frame c m : spec any (correspond c m).
Proof.
  unfold correspond, iccp_csm_correspond_from_msg, iccp_csm_check_id_from_msg,
    iccp_csm_correspond_from_capability_msg, iccp_csm_correspond_from_rg_connect_msg,
    iccp_csm_correspond_from_rg_disconnect_msg. frame.
Qed.
Lemma transit_send_frame c b : spec any (transit_send c b).
Proof. unfold transit_send. frame. Qed.
Lemma goto_frame c s : spec any (goto_state c s).
Proof. unfold goto_state. frame. Qed.
Hint Resolve enter_state_frame correspond_frame transit_send_frame goto_frame : frame.
Lemma iccp_switch_frame c m : spec any (iccp_csm_transit_switch c m).
Proof. unfold iccp_csm_transit_switch. frame. Qed.
Hint Resolve iccp_switch_frame : frame.
Lemma iccp_transit_frame c : spec any (iccp_csm_transit c).
Proof. unfold iccp_csm_transit, iccp_csm_enter_state_nonexistent, iccp_csm_dequeue_msg. frame. Qed.
Hint Resolve iccp_transit_frame : frame.
Lemma transit_all_frame : spec any scheduler_transit_fsm.
Proof. unfold scheduler_transit_fsm. frame. Qed.

(** ** Reception *)

Lemma enqueue_frame c m : spec any (iccp_csm_enqueue_msg c m).
Proof. unfold iccp_csm_enqueue_msg, app_csm_enqueue_msg, mlacp_enqueue_msg. frame. Qed.
Lemma recv_bytes_frame fd i n : spec any (recv_bytes fd i n).
Proof. revert i. induction n as [|n IH]; intros i; simpl; frame. Qed.
Hint Resolve enqueue_frame recv_bytes_frame : frame.

(** At most [len] bytes are received. *)
Lemma recv_at_frame fd off len flags : 0 ≤ len → spec (λ r, r ≤ len) (recv_at fd off len flags).
Proof.
  intros Hl. unfold recv_at. frame_step. destruct (a <=? 0) eqn:Ha; [apply spec_ret; [apply _|lia]|].
  frame_step. intros w. unfold gets, mbind, M_bind, oob, from_option_or.
  destruct (put off a0 (w_csm_buf w)) as [b|] eqn:Hb; [|done]. apply put_length in Hb.
  split; [|lia]. split; [done|]. intros p x Hx. by exists x.
Qed.
Lemma recv_header_frame fd fuel n :
  0 ≤ n ≤ 8 → (Z.to_nat (8 - n) < fuel)%nat → spec any (recv_header fd fuel n).
Proof.
  revert n. induction fuel as [|f IH]; intros n Hn Hf; [lia|]. cbn [recv_header].
  change (Z.of_nat (sizeof LDPHdr)) with 8. destruct (n =? 8) eqn:E; [frame|]. apply Z.eqb_neq in E.
  eapply (spec_bind _ _); [apply recv_at_frame; lia|]. intros r Hr.
  destruct (r <? 0) eqn:E1; [unfold sys_upd; frame|]. destruct (r =? 0) eqn:E2; [unfold sys_upd; frame|].
  cbv beta in Hr. apply IH; lia.
Qed.
Lemma recv_retry_frame x s :
  spec (λ o, ∀ s', o = Some s' → rs_data_len s' = rs_data_len s ∧ rs_num_retry s' = rs_num_retry s + 1
                                 ∧ rs_num_retry s' ≤ RECV_RETRY_MAX) (recv_retry x s).
Proof.
  unfold recv_retry, sys_upd. destruct (_ >? _) eqn:E; [frame|].
  destruct (_ =? _); (frame_step; apply spec_ret; [apply _|]; intros s' [= <-]; simpl; repeat split; lia).
Qed.
Lemma recv_data_frame x fuel s :
  0 ≤ rs_num_retry s ≤ RECV_RETRY_MAX →
  (Z.to_nat (rs_data_len s) + Z.to_nat (RECV_RETRY_MAX - rs_num_retry s) < fuel)%nat →
  spec any (recv_data x fuel s).
Proof.
  revert s. induction fuel as [|f IH]; intros s Hr Hf; [lia|]. cbn [recv_data].
  destruct (rs_data_len s <=? 0) eqn:E; [frame|].
  eapply (spec_bind _ _); [apply recv_at_frame; lia|]. cbv beta. intros r Hlen.
  destruct (r <? 0) eqn:E1.
  - destruct (r =? - EAGAIN); [|unfold sys_upd; frame].
    eapply (spec_bind _ _); [apply recv_retry_frame|]. intros [s'|] Hs'; [|frame].
    destruct (Hs' s' eq_refl) as (H1 & H2 & H3). apply IH; lia.
  - destruct (r =? 0) eqn:E2; [unfold sys_upd; frame|]. apply IH; simpl; lia.
Qed.
Lemma recv_message_frame x : spec any (recv_message x).
Proof.
  unfold recv_message. frame_step; [apply recv_header_frame; [lia|vm_compute; lia]|].
  destruct a; simpl; [|frame]. frame_step; [frame|]. frame_step; [frame|].
  destruct (_ <? _) eqn:E; [unfold sys_upd; frame|].
  frame_step; [|unfold sys_upd; frame].
  apply recv_data_frame; simpl; unfold RECV_RETRY_MAX, MSG_L_INCLUD_U_BIT_MSG_T_L_FIELDS in *; lia.
Qed.
Hint Resolve recv_message_frame : frame.
Lemma read_callback_frame c : spec any (scheduler_csm_read_callback c).
Proof. unfold scheduler_csm_read_callback, csm_read_message. frame. Qed.
Lemma accept_frame : spec any scheduler_server_accept.
Proof. unfold scheduler_server_accept, sys_upd. frame. Qed.
Lemma warmboot_flag_frame' : spec any mlacp_sync_send_warmboot_flag.
Proof. unfold mlacp_sync_send_warmboot_flag. frame. apply prepare_and_send_frame; [apply _|]; frame. Qed.
Hint Resolve warmboot_flag_frame' : frame.
Lemma signal_frame : spec any iccp_receive_signal_handler.
Proof. unfold iccp_receive_signal_handler, sys_upd. frame. Qed.
Lemma kernel_sync_frame : spec any mlacp_sync_with_kernel_callback.
Proof. unfold mlacp_sync_with_kernel_callback. frame. Qed.
End machines.
