(* ===== verification/Session.v ===== *)
(** * Sessions and roles

    The node with the smaller address is the active one, on both sides; and a session
    that ends leaves nothing of itself in the state machine. *)

From S2P Require Import Prelude CMem CString MsgFormat State Machine Frame IccpMsg IccpQueue SyncPrepare.
From S2P Require Import Port Syncd Standby MacTable LinkHandler AppCsm IccpCsm Boot SyncdSend FrameSend FrameSteps FrameFsm.
#[local] Open Scope Z_scope.

(** ** What a computation makes of one state machine *)

(** When [P] holds of the machine [c] before, [Q] holds of it after; the machine may be
    gone. *)
Definition leaves {A} (c : ptr) (P : CSM → Prop) (m : W A) (Q : CSM → Prop) : Prop := ∀ w,
  (∀ x, w_csms w !! c = Some x → P x) →
  match m w with
  | Ok _ w' => ∀ x, w_csms w' !! c = Some x → Q x
  | Fault _ => True
  end.

Section leaves.
Context (c : ptr).

Lemma leaves_bind {A B} P R Q (m : W A) (k : A → W B) :
  leaves c P m R → (∀ a, leaves c R (k a) Q) → leaves c P (m ≫= k) Q.
Proof.
  intros Hm Hk w HP. specialize (Hm w HP). unfold mbind, M_bind. destruct (m w) as [a w1|]; [|done].
  by apply Hk.
Qed.

Lemma leaves_ret {A} P (a : A) : leaves c P (mret a) P.
Proof. by intros w HP. Qed.

Lemma leaves_upd (P Q : CSM → Prop) f : (∀ x, P x → Q (f x)) → leaves c P (csm_upd c f) Q.
Proof.
  intros Hf w HP. unfold csm_upd, update. destruct (w_csms w !! c) as [x|] eqn:Hx; [|done].
  simpl. intros y. rewrite lookup_insert_eq. intros [= <-]. by apply Hf, HP.
Qed.

(** A frame that respects [P] keeps it. *)
Lemma leaves_frame {A} le (R : A → Prop) (P : CSM → Prop) (m : W A) :
  spec le R m → (∀ x x', le x' x → P x → P x') → leaves c P m P.
Proof.
  intros Hm Hle w HP. specialize (Hm w). destruct (m w) as [a w'|]; [|done].
  destruct Hm as [[_ Hk] _]. intros x' Hx'. destruct (Hk c x' Hx') as (x & Hx & H). eauto.
Qed.

Lemma leaves_deref {A} (P Q : CSM → Prop) (k : CSM → W A) :
  (∀ x, P x → leaves c (λ y, y = x) (k x) Q) → leaves c P (x ← deref w_csms c; k x) Q.
Proof.
  intros Hk w HP. unfold deref, mbind, M_bind. destruct (w_csms w !! c) as [x|] eqn:Hx; [|done].
  apply Hk; [by apply HP|]. congruence.
Qed.

Lemma leaves_any {A} P (m : W A) : leaves c P m (λ _, True).
Proof. intros w _. by destruct (m w). Qed.

Lemma leaves_mono {A} (P P' Q Q' : CSM → Prop) (m : W A) :
  leaves c P m Q → (∀ x, P' x → P x) → (∀ x, Q x → Q' x) → leaves c P' m Q'.
Proof.
  intros Hm HP HQ w H. specialize (Hm w). destruct (m w); [|done]. intros x Hx. eauto.
Qed.
End leaves.

(** ** Roles *)

(** The role the addresses of a machine give it. *)
Definition role_of (x : CSM) : stp_role_type :=
  if inet_addr (sender_ip x) <? inet_addr (peer_ip x) then STP_ROLE_ACTIVE else STP_ROLE_STANDBY.

(** The decision returns, and changes nothing but the role in the memory of machines. *)
Lemma role_count_run c x w :
  w_csms w !! c = Some x → role_type x = STP_ROLE_NONE → length (system_id (MLACP x)) = ETHER_ADDR_LEN →
  ∃ w', iccp_csm_stp_role_count c w = Ok tt w'
    ∧ w_csms w' = <[c := x <| role_type := role_of x |>]> (w_csms w).
Proof.
  intros Hx Hr Hid. unfold iccp_csm_stp_role_count. rewrite (deref_bind _ _ _ _ _ Hx), Hr. simpl. unfold role_of.
  set (w0 r := w <| w_csms ::= <[c := x <| role_type := r |>]> |>).
  assert (∀ r, csm_upd c (set role_type (λ _, r)) w = Ok tt (w0 r)) as Hupd.
  { intros r. unfold csm_upd, update. by rewrite Hx. }
  assert (∀ r b id, (length id ≤ 6)%nat → ∃ z w', mlacp_link_set_iccp_role (mlag_id x) b id (w0 r) = Ok z w'
            ∧ w_csms w' = w_csms (w0 r)) as Hreq.
  { intros r b id Hb. unfold mlacp_link_set_iccp_role.
    destruct (request_run MCLAG_MSG_TYPE_SET_ICCP_ROLE
      (sub_option MCLAG_SUB_OPTION_TYPE_MCLAG_ID (le32 (mlag_id x))
       ++ sub_option MCLAG_SUB_OPTION_TYPE_ICCP_ROLE (c_bool b)
       ++ (if b then sub_option MCLAG_SUB_OPTION_TYPE_SYSTEM_ID id else [])) (w0 r)) as (z & w' & E & tr & n & ->).
    { unfold ICCP_MLAGSYNCD_SEND_MSG_BUFFER_SIZE, c_bool. rewrite Nat2Z.inj_le, Z2Nat.id by lia.
      destruct b; simpl; lia. }
    by eexists z, _. }
  destruct (_ <? _); rewrite (bind_ok _ _ _ _ _ (Hupd _)).
  - destruct (Hreq STP_ROLE_ACTIVE true (system_id (MLACP x))) as (z & w' & E & Hc); [by rewrite Hid|].
    rewrite (bind_ok _ _ _ _ _ E). by exists w'.
  - destruct (Hreq STP_ROLE_STANDBY false []) as (z & w' & E & Hc); [simpl; lia|].
    rewrite (bind_ok _ _ _ _ _ E). unfold mlacp_fix_bridge_mac.
    assert (w_csms w' !! c = Some (x <| role_type := STP_ROLE_STANDBY |>)) as Hx'.
    { rewrite Hc. apply lookup_insert_eq. }
    rewrite (deref_bind _ _ _ _ _ Hx'). destruct (_ =? 0); [by exists w'|]. rewrite sys_bind. by eexists.
Qed.

(** C7. The two nodes of a pair decide their roles alike: when each has the other's address
    as its peer and the addresses differ, both decisions return, and exactly one of the
    nodes is active and the other is standby; nothing else of their machines changes. *)
Theorem roles_complementary c1 c2 w1 w2 x1 x2 :
  w_csms w1 !! c1 = Some x1 → w_csms w2 !! c2 = Some x2 →
  role_type x1 = STP_ROLE_NONE → role_type x2 = STP_ROLE_NONE →
  length (system_id (MLACP x1)) = ETHER_ADDR_LEN → length (system_id (MLACP x2)) = ETHER_ADDR_LEN →
  inet_addr (sender_ip x1) = inet_addr (peer_ip x2) → inet_addr (peer_ip x1) = inet_addr (sender_ip x2) →
  inet_addr (sender_ip x1) ≠ inet_addr (sender_ip x2) →
  ∃ w1' w2', iccp_csm_stp_role_count c1 w1 = Ok tt w1' ∧ iccp_csm_stp_role_count c2 w2 = Ok tt w2'
    ∧ w_csms w1' = <[c1 := x1 <| role_type := role_of x1 |>]> (w_csms w1)
    ∧ w_csms w2' = <[c2 := x2 <| role_type := role_of x2 |>]> (w_csms w2)
    ∧ ((role_of x1 = STP_ROLE_ACTIVE ∧ role_of x2 = STP_ROLE_STANDBY)
       ∨ (role_of x1 = STP_ROLE_STANDBY ∧ role_of x2 = STP_ROLE_ACTIVE)).
Proof.
  intros H1 H2 R1 R2 L1 L2 E1 E2 Hne.
  destruct (role_count_run c1 x1 w1 H1 R1 L1) as (w1' & O1 & K1).
  destruct (role_count_run c2 x2 w2 H2 R2 L2) as (w2' & O2 & K2).
  exists w1', w2'. do 4 (split; [done|]). unfold role_of. rewrite E2, <-E1.
  destruct (Z.ltb_spec (inet_addr (sender_ip x1)) (inet_addr (sender_ip x2)));
    destruct (Z.ltb_spec (inet_addr (sender_ip x2)) (inet_addr (sender_ip x1))); auto; lia.
Qed.

(** ** The end of a session *)

(** Nothing of a session: no socket, the machines in their first states, no role, no
    message in any queue, no interface of the peer. *)
Record session_over (x : CSM) : Prop := {
  so_sock : sock_fd x = -1;
  so_state : current_state x = ICCP_NONEXISTENT;
  so_app : app_current_state (app_csm x) = APP_NONEXISTENT;
  so_mlacp : mlacp_current_state (MLACP x) = MLACP_STATE_INIT;
  so_role : role_type x = STP_ROLE_NONE;
  so_link : peer_link_if x = NULL;
  so_caps : sender_capability_flag (iccp_info x) = 0 ∧ peer_capability_flag (iccp_info x) = 0
            ∧ sender_rg_connect_flag (iccp_info x) = 0 ∧ peer_rg_connect_flag (iccp_info x) = 0;
  so_msgs : msg_list x = [] ∧ app_msg_list (app_csm x) = [] ∧ mlacp_msg_list (MLACP x) = [];
  so_neighs : arp_msg_list (MLACP x) = [] ∧ ndisc_msg_list (MLACP x) = [];
  so_macs : mac_msg_list (MLACP x) = [];
  so_pifs : pif_list (MLACP x) = []
}.

(** What the clearing of the queue of MAC entries and of the interfaces of the peer
    leaves alone. *)
Definition session_key (x : CSM) :=
  (sock_fd x, current_state x, app_current_state (app_csm x), mlacp_current_state (MLACP x), role_type x,
   peer_link_if x, (sender_capability_flag (iccp_info x), peer_capability_flag (iccp_info x),
                    sender_rg_connect_flag (iccp_info x), peer_rg_connect_flag (iccp_info x)),
   (msg_list x, app_msg_list (app_csm x), mlacp_msg_list (MLACP x)),
   (arp_msg_list (MLACP x), ndisc_msg_list (MLACP x))).

Definition key_over (x : CSM) : Prop :=
  session_key x = (-1, ICCP_NONEXISTENT, APP_NONEXISTENT, MLACP_STATE_INIT, STP_ROLE_NONE, NULL,
                   (0, 0, 0, 0), ([], [], []), ([], [])).

Definition clearing (x' x : CSM) : Prop :=
  session_key x' = session_key x ∧ (mac_msg_list (MLACP x) = [] → mac_msg_list (MLACP x') = [])
  ∧ (pif_list (MLACP x) = [] → pif_list (MLACP x') = []).

#[export] Instance clearing_preorder : PreOrder clearing.
Proof.
  split; [done|]. intros x y z (K1 & M1 & P1) (K2 & M2 & P2). split; [congruence|]. split; auto.
Qed.

Section clearing.

(** An update that empties a list keeps it empty. *)
Ltac clears :=
  split; [reflexivity|]; unfold MLACP, set_MLACP; split; intros Hnil; simpl; rewrite ?Hnil; done.
#[local] Hint Extern 2 (clearing _ _) => clears : frame.

(** The queue of MAC entries is empty, and then there is no interface of the peer. *)
Definition macs_over (x : CSM) : Prop := key_over x ∧ mac_msg_list (MLACP x) = [].
Definition pifs_over (x : CSM) : Prop := macs_over x ∧ pif_list (MLACP x) = [].

Lemma key_kept {A} c (m : W A) : spec clearing (λ _, True) m → leaves c key_over m key_over.
Proof. intros H. eapply leaves_frame; [exact H|]. unfold key_over. by intros x x' [-> _]. Qed.

Lemma macs_kept {A} c (m : W A) : spec clearing (λ _, True) m → leaves c macs_over m macs_over.
Proof.
  intros H. eapply leaves_frame; [exact H|]. unfold macs_over, key_over. intros x x' (-> & M & _) []. auto.
Qed.

Lemma mac_reinit_leaves c : leaves c key_over (mlacp_mac_msg_queue_reinit c) macs_over.
Proof.
  unfold mlacp_mac_msg_queue_reinit, mac_upd.
  eapply leaves_bind; [apply key_kept; frame|]. intros csm. eapply leaves_bind; [apply key_kept; frame|]. intros _.
  eapply leaves_bind; [apply (leaves_upd c key_over macs_over); by intros x H|]. intros _.
  eapply leaves_bind; [apply macs_kept; frame|]. intros csm'. apply macs_kept; frame.
Qed.

Lemma pif_reinit_leaves c : leaves c macs_over (pif_queue_reinit c) pifs_over.
Proof.
  unfold pif_queue_reinit. eapply leaves_bind; [apply macs_kept; frame|]. intros csm.
  eapply leaves_bind; [apply macs_kept; frame|]. intros _. apply leaves_upd. by intros x H.
Qed.
End clearing.

Lemma status_reset_leaves c : c ≠ NULL → leaves c (λ _, True) (iccp_csm_status_reset c false) session_over.
Proof.
  intros Hc. unfold iccp_csm_status_reset, app_csm_init, mlacp_init. rewrite eqb_null by done.
  apply leaves_bind with (λ x, msg_list x = []); [by apply leaves_upd|]. intros _.
  eapply leaves_bind; [apply leaves_ret|]. intros _.
  set (P x := (sock_fd x, current_state x, role_type x, peer_link_if x, msg_list x)
              = (-1, ICCP_NONEXISTENT, STP_ROLE_NONE, NULL, [])
              ∧ (sender_capability_flag (iccp_info x), peer_capability_flag (iccp_info x),
                 sender_rg_connect_flag (iccp_info x), peer_rg_connect_flag (iccp_info x)) = (0, 0, 0, 0)).
  apply leaves_bind with P; [apply leaves_upd; intros x Hx; split; [|done]; unfold P; simpl; by rewrite Hx|]. intros _.
  apply leaves_bind with session_over; [|intros _; apply leaves_upd; intros x []; by split].
  apply leaves_bind with (λ x, P x ∧ app_msg_list (app_csm x) = []); [by apply leaves_upd|]. intros _.
  eapply leaves_bind; [apply leaves_ret|]. intros _.
  apply leaves_bind with (λ x, P x ∧ app_msg_list (app_csm x) = [] ∧ app_current_state (app_csm x) = APP_NONEXISTENT).
  { apply leaves_upd. by intros x []. }
  intros _. apply leaves_bind with key_over.
  { apply leaves_upd. unfold P, key_over, session_key, MLACP, set_MLACP. simpl.
    intros x ([[= -> -> -> -> ->] [= -> -> -> ->]] & -> & ->). done. }
  intros _. eapply leaves_bind; [apply mac_reinit_leaves|]. intros _.
  eapply leaves_bind; [apply pif_reinit_leaves|]. intros _.
  eapply leaves_bind; [|intros ?; apply leaves_ret]. apply leaves_upd.
  intros x [[[= ? ? ? ? ? ? ? ? ? ? ? ? ? ? ?] ?] ?]. split; done.
Qed.

(** A computation that ends with an update of the machine leaves it there. *)
Definition present {A} (c : ptr) (m : W A) : Prop := ∀ w,
  match m w with Ok _ w' => is_Some (w_csms w' !! c) | Fault _ => True end.

Lemma present_bind {A B} c (m : W A) (k : A → W B) : (∀ a, present c (k a)) → present c (m ≫= k).
Proof. intros Hk w. unfold mbind, M_bind. destruct (m w); [apply Hk|done]. Qed.

Lemma present_upd c f : present c (csm_upd c f).
Proof.
  intros w. unfold csm_upd, update. destruct (w_csms w !! c); [|done]. simpl. rewrite lookup_insert_eq. by eexists.
Qed.

Lemma disconnect_leaves c : c ≠ NULL →
  leaves c (λ _, True) (scheduler_session_disconnect_handler c) session_over
  ∧ present c (scheduler_session_disconnect_handler c).
Proof.
  intros Hc. unfold scheduler_session_disconnect_handler. rewrite eqb_null by done. split.
  - do 5 (eapply leaves_bind; [apply leaves_any|]; intros ?).
    eapply leaves_bind; [by apply status_reset_leaves|]. intros _.
    eapply leaves_bind; [eapply leaves_frame; [apply (spec_sys eq)|]; congruence|]. intros t.
    apply leaves_upd. intros x []. by split.
  - do 7 (apply present_bind; intros ?). apply present_upd.
Qed.

(** C8. A session that ends leaves nothing of itself.  From any memory, the disconnection
    handler comes to an end; unless it meets a pointer to memory that is not there, it
    leaves the machine with its socket closed, the three state machines in their
    initial states, the role undecided, and the queues of messages, of neighbours and
    of MAC entries and the list of the peer's interfaces empty. *)
Theorem disconnect_resets c w : c ≠ NULL →
  match scheduler_session_disconnect_handler c w with
  | Ok _ w' => ∃ x, w_csms w' !! c = Some x ∧ session_over x
  | Fault f => f ≠ OutOfFuel
  end.
Proof.
  intros Hc. destruct (disconnect_leaves c Hc) as [L Hp]. specialize (L w). specialize (Hp w).
  pose proof (session_disconnect_frame c w) as F.
  destruct (scheduler_session_disconnect_handler c w) as [[] w'|f]; [|done].
  destruct Hp as [x Hx]. exists x. split; [done|]. by apply L.
Qed.

(** ** Examples *)

(** The pair 10.0.0.2 and 10.0.0.3, before the roles are decided. *)
Definition paired (ip peer : string) : World :=
  with_csm 1 (session_csm 100 <| sender_ip := str ip |> <| peer_ip := str peer |>) (boot calm).

(** The machine after a computation that returned. *)
Definition returned {A} (c : ptr) (o : outcome World A) : bool :=
  match o with Ok _ w => match w_csms w !! c with Some _ => true | None => false end | Fault _ => false end.

Lemma returned_run {A} c (o : outcome World A) :
  returned c o = true → ∃ a w x, o = Ok a w ∧ w_csms w !! c = Some x.
Proof.
  unfold returned. destruct o as [a w|]; [|done]. destruct (w_csms w !! c) as [x|] eqn:E; [|done].
  intros _. by exists a, w, x.
Qed.

Lemma roles_complementary_witness : ∃ w1 w2 y1 y2,
  iccp_csm_stp_role_count 1 (paired "10.0.0.2" "10.0.0.3") = Ok tt w1 ∧ w_csms w1 !! 1 = Some y1
  ∧ iccp_csm_stp_role_count 1 (paired "10.0.0.3" "10.0.0.2") = Ok tt w2 ∧ w_csms w2 !! 1 = Some y2
  ∧ role_type y1 = STP_ROLE_ACTIVE ∧ role_type y2 = STP_ROLE_STANDBY.
Proof.
  destruct (roles_complementary 1 1 (paired "10.0.0.2" "10.0.0.3") (paired "10.0.0.3" "10.0.0.2")
    (session_csm 100 <| sender_ip := str "10.0.0.2" |> <| peer_ip := str "10.0.0.3" |>)
    (session_csm 100 <| sender_ip := str "10.0.0.3" |> <| peer_ip := str "10.0.0.2" |>))
    as (w1 & w2 & E1 & E2 & H1 & H2 & _);
    [reflexivity|reflexivity|reflexivity|reflexivity|reflexivity|reflexivity|reflexivity|reflexivity|
     vm_compute; discriminate|].
  eexists w1, w2, _, _. split; [exact E1|]. split; [rewrite H1; apply lookup_insert_eq|].
  split; [exact E2|]. split; [rewrite H2; apply lookup_insert_eq|]. split; vm_compute; reflexivity.
Defined.

Lemma disconnect_resets_witness : ∃ w' x,
  scheduler_session_disconnect_handler 1 (paired "10.0.0.2" "10.0.0.3") = Ok tt w'
  ∧ w_csms w' !! 1 = Some x ∧ session_over x.
Proof.
  destruct (returned_run 1 (scheduler_session_disconnect_handler 1 (paired "10.0.0.2" "10.0.0.3")))
    as ([] & w1 & y1 & E1 & K1); [vm_compute; reflexivity|].
  pose proof (disconnect_resets 1 (paired "10.0.0.2" "10.0.0.3") ltac:(discriminate)) as H. rewrite E1 in H.
  destruct H as (x & Hx & Ho). exists w1, x. split; [exact E1|]. split; [exact Hx|exact Ho].
Defined.
