(* ===== verification/FrameIo.v ===== *)
(** * Frames of the inputs of the daemon

    The handlers of the notifications of the kernel, of the packets, of the reports
    and of the configuration of [mclagsyncd] end, and leave alone what [csm_step]
    says; those that create a state machine are in [Daemon.v]. *)

From S2P Require Import Prelude CMem CString MsgFormat ShowFormat State Machine Frame IccpMsg IccpQueue.
From S2P Require Import SyncPrepare Port Show Syncd Standby MacTable MacUpdate LinkHandler.
From S2P Require Import NeighUpdate NeighLearn SyncUpdate AppCsm IccpCsm Ifm Netlink Cli SyncdCfg MlacpFsm.
From S2P Require Import Scheduler Control SyncdRecv EventLoop FrameSend FrameSteps FrameFsm.
#[local] Open Scope Z_scope.

#[export] Hint Resolve session_disconnect_frame finalize_frame detach_cli_frame unbind_frame : frame.
#[export] Hint Resolve mclag_intf_frame set_age_frame mac_drop_frame rb_insert_frame orphan_frame isolate_all_frame
  l2_mac_frame : frame.

#[local] Notation spec := (spec (csm_step false)).
#[local] Notation any := (λ _, True).
#[local] Hint Extern 2 (csm_step false _ _) => apply step_log_same; reflexivity : frame.

(** ** Reports of MAC addresses *)

Lemma syncd_intf_frame cs n : spec any (syncd_mac_intf cs n).
Proof. induction cs; simpl; frame. Qed.
Lemma pif_state_frame p s : spec any (pif_state_is p s).
Proof. unfold pif_state_is. frame. Qed.
#[export] Hint Resolve syncd_intf_frame pif_state_frame : frame.
Lemma via_peer_frame c sp p : spec any (syncd_mac_via_peer c sp p).
Proof. unfold syncd_mac_via_peer, mac_upd. frame. Qed.
Lemma refresh_frame c sp p : spec any (syncd_mac_refresh c sp p).
Proof. unfold syncd_mac_refresh, mac_upd. frame. Qed.
#[export] Hint Resolve via_peer_frame refresh_frame : frame.
Lemma known_frame c sp p l i f : spec any (syncd_mac_known c sp p l i f).
Proof. unfold syncd_mac_known. frame. Qed.
Lemma mac_store_frame c sp l i f : spec any (syncd_mac_store c sp l i f).
Proof. unfold syncd_mac_store, iccp_csm_init_mac_msg, alloc, mac_upd. frame. Qed.
#[export] Hint Resolve known_frame mac_store_frame : frame.
Lemma mac_new_frame c sp l i f : spec any (syncd_mac_new c sp l i f).
Proof. unfold syncd_mac_new. frame. Qed.
#[export] Hint Resolve mac_new_frame : frame.
Lemma syncd_add_frame c sp p i f n : spec any (syncd_mac_add c sp p i f n).
Proof. unfold syncd_mac_add, mac_upd. frame. Qed.
Lemma forget_frame c p : spec any (syncd_mac_forget c p).
Proof. unfold syncd_mac_forget. frame. Qed.
#[export] Hint Resolve syncd_add_frame forget_frame : frame.
Lemma del_pl_frame c p : spec any (syncd_mac_del_peer_link c p).
Proof. unfold syncd_mac_del_peer_link. frame. Qed.
Lemma restore_frame c p l : spec any (syncd_mac_restore c p l).
Proof. unfold syncd_mac_restore. frame. Qed.
#[export] Hint Resolve del_pl_frame restore_frame : frame.
Lemma syncd_del_frame c p l : spec any (syncd_mac_del c p l).
Proof. unfold syncd_mac_del. frame. Qed.
#[export] Hint Resolve syncd_del_frame : frame.
Lemma mac_update_frame a v n t o : spec any (do_mac_update_from_syncd a v n t o).
Proof. unfold do_mac_update_from_syncd. frame. Qed.
#[export] Hint Resolve mac_update_frame : frame.

(** ** Neighbours *)

Lemma vlan_on_frame i k l : spec any (vlan_on i k l).
Proof. unfold vlan_on. frame. Qed.
#[export] Hint Resolve vlan_on_frame : frame.
Lemma on_mlag_frame i k l : spec any (learn_on_mlag i k l).
Proof. induction l; simpl; frame. Qed.
Lemma on_peer_link_frame i k x : spec any (learn_on_peer_link i k x).
Proof. unfold learn_on_peer_link. frame. Qed.
#[export] Hint Resolve on_mlag_frame on_peer_link_frame : frame.
Lemma learn_port_frame i k cs : spec any (learn_port i k cs).
Proof. induction cs; simpl; frame. Qed.
Lemma payload_frame n a : spec any (attr_payload n a).
Proof. unfold attr_payload. frame. Qed.
#[export] Hint Resolve learn_port_frame payload_frame : frame.

Section kinds.
Context (k : neigh_kind) `{!NeighKindOk k}.
Hint Resolve step_list step_nqueue : frame.
Lemma learn_entry_frame n a m : spec any (learn_entry k n a m).
Proof. unfold learn_entry. frame. Qed.
Lemma read_neigh_frame' o b : spec any (read_neigh k o b).
Proof. unfold read_neigh. frame. Qed.
Lemma learn_own_frame v i a : spec any (learn_own k v i a).
Proof. unfold learn_own. frame. Qed.
Lemma differs_frame d m : spec any (learn_differs k d m).
Proof. unfold learn_differs, field_u8, field_bytes. frame. Qed.
Lemma rewrite_frame c d i m : spec any (learn_rewrite k c d i m).
Proof. unfold learn_rewrite. frame. Qed.
Lemma learn_store_frame c b : spec any (learn_store k c b).
Proof. unfold learn_store. pose proof enqueue_neigh_frame. frame. Qed.
Lemma announce_frame c o b : spec any (learn_announce k c o b).
Proof. unfold learn_announce. frame. Qed.
Hint Resolve rewrite_frame learn_store_frame announce_frame differs_frame : frame.
Lemma from_kernel_frame f c d t b : (∀ d m, spec any (f d m)) → spec any (learn_from_kernel k f c d t b).
Proof. intros Hf. unfold learn_from_kernel. frame. Qed.
Lemma learn_refresh_frame c d i : spec any (learn_refresh k c d i).
Proof. unfold learn_refresh. frame. Qed.
Lemma del_self_frame a cs : spec any (del_self_ip k a cs).
Proof. induction cs; simpl; frame. Qed.
End kinds.
#[export] Hint Resolve learn_entry_frame read_neigh_frame' learn_own_frame differs_frame learn_store_frame announce_frame
  learn_refresh_frame del_self_frame : frame.

(** ** The functions of the learning *)

Lemma ndisc_same_frame d m : spec any (ndisc_same_entry d m).
Proof. unfold ndisc_same_entry, field_u8, field_bytes. frame. Qed.
Lemma arp_learn_frame i n d l t b : spec any (do_arp_learn_from_kernel i n d l t b).
Proof. unfold do_arp_learn_from_kernel. frame. apply from_kernel_frame; [apply _|frame]. Qed.
Lemma ndisc_learn_frame i n d l t b : spec any (do_ndisc_learn_from_kernel i n d l t b).
Proof. unfold do_ndisc_learn_from_kernel. frame. apply from_kernel_frame; [apply _|apply ndisc_same_frame]. Qed.
Lemma arp_reply_frame i a m : spec any (do_arp_update_from_reply_packet i a m).
Proof. unfold do_arp_update_from_reply_packet. frame. Qed.
Lemma known_mac_frame c i b : spec any (ndisc_known_mac c i b).
Proof. unfold ndisc_known_mac, field_bytes. frame. Qed.
Lemma ndisc_announce_frame c b : spec any (ndisc_set_and_announce c b).
Proof. unfold ndisc_set_and_announce. frame. Qed.
#[export] Hint Resolve arp_learn_frame ndisc_learn_frame arp_reply_frame known_mac_frame ndisc_announce_frame : frame.
Lemma ndisc_reply_frame i a m : spec any (do_ndisc_update_from_reply_packet i a m).
Proof. unfold do_ndisc_update_from_reply_packet. frame. Qed.
#[export] Hint Resolve ndisc_reply_frame : frame.

(** An attribute is four bytes at least, so the length decreases. *)
Lemma RTA_ALIGN_ge n : 0 ≤ n → n ≤ RTA_ALIGN n < n + 4.
Proof.
  intros Hn. unfold RTA_ALIGN. change (Z.lnot 3) with (Z.lnot (Z.ones 2)).
  rewrite <-Z.ldiff_land, Z.ldiff_ones_r by lia. rewrite Z.shiftl_mul_pow2, Z.shiftr_div_pow2 by lia. zdiv.
Qed.

Lemma rtattr_frame fuel n rta len d l :
  (Z.to_nat len < fuel)%nat → spec any (ifm_parse_rtattr fuel n rta len d l).
Proof.
  revert rta len d l. induction fuel as [|f IH]; intros rta len d l Hf; [lia|]. simpl.
  change (Z.of_nat (sizeof rtattr)) with 4. destruct (Z.ltb_spec len 4); [frame|].
  frame_step; [frame|]. destruct ((a <? 4) || (a >? len)) eqn:E; [frame|].
  apply orb_false_iff in E as [Ha%Z.ltb_ge _].
  frame_step; [frame|]. apply IH. pose proof (RTA_ALIGN_ge a). lia.
Qed.

Lemma neigh_request_frame n : spec any (do_one_neigh_request n).
Proof. unfold do_one_neigh_request. frame. apply rtattr_frame. lia. Qed.
#[export] Hint Resolve neigh_request_frame : frame.

(** ** Packets *)

Lemma packet_buf_frame n pkt : spec (λ r, length (snd r) = n) (packet_buf n pkt).
Proof.
  unfold packet_buf. assert (∀ m, spec (λ l, length l = m) (uninit m)) as Hu.
  { induction m; simpl; [apply spec_ret; [apply _|done]|]. frame_step.
    eapply spec_bind; [apply _|apply IHm|]. intros l Hl. apply spec_ret; try apply _. by f_equal/=. }
  eapply spec_bind; [apply _|apply Hu|]. intros l Hl. apply spec_ret; try apply _.
  simpl. rewrite length_app, length_take in *. lia.
Qed.

Lemma arp_packet_frame pkt h i : spec any (iccp_receive_arp_packet_handler pkt h i).
Proof. unfold iccp_receive_arp_packet_handler. pose proof packet_buf_frame. frame. Qed.

(** The options advance by eight bytes, so they leave the array or end. *)
Lemma nd_options_frame fuel buf o len :
  (0 < fuel)%nat → (length buf < o + fuel)%nat → spec any (nd_options fuel buf o len).
Proof.
  revert o len. induction fuel as [|f IH]; intros o len H0 Hf; [lia|]. simpl.
  destruct (len =? 0); [frame|]. destruct (u64 len <? _); [frame|].
  change (offsetof nd_opt_hdr "nd_opt_len") with 1%nat.
  destruct (rd8 (o + 1) buf) as [l|] eqn:Hl; [|intros w; done].
  apply lookup_lt_Some in Hl as Hlt. frame_step; [frame|]. destruct (Z.eqb_spec (Z.shiftl (u8 a) 3) 0) as [|Ha]; [frame|].
  assert (0 < Z.shiftl (u8 a) 3) 
    by (pose proof (Z.mod_pos_bound a (2 ^ 8)); rewrite Z.shiftl_mul_pow2 in Ha |- * by lia; unfold u8 in *; lia).
  frame_step; [frame|]. destruct (_ =? _); [frame|]. apply IH; lia.
Qed.

Lemma ndisc_packet_frame pkt i : spec any (iccp_receive_ndisc_packet_handler pkt i).
Proof.
  unfold iccp_receive_ndisc_packet_handler. destruct pkt as [pkt|]; [|frame].
  eapply spec_bind; [apply _|apply packet_buf_frame|]. intros [len buf] Hb. simpl in Hb. frame.
  all: apply nd_options_frame; [lia|]. all: rewrite Hb; unfold ND_BUF_SIZE; lia.
Qed.
#[export] Hint Resolve arp_packet_frame ndisc_packet_frame : frame.

(** ** Interfaces *)

Lemma find_pending_frame n : spec any (find_pending_vlan_mbr_if n).
Proof. unfold find_pending_vlan_mbr_if. frame. Qed.
Lemma pending_tree_frame i : spec any (pending_tree i).
Proof. unfold pending_tree. frame. Qed.
Lemma pending_upd_frame i f : spec any (pending_upd i f).
Proof. unfold pending_upd, sys_upd. frame. Qed.
#[export] Hint Resolve find_pending_frame pending_tree_frame pending_upd_frame : frame.
Lemma add_pending_frame i v : spec any (add_pending_vlan_mbr i v).
Proof. unfold add_pending_vlan_mbr. frame. Qed.
Lemma del_pending_frame i v : spec any (del_pending_vlan_mbr i v).
Proof. unfold del_pending_vlan_mbr. frame. Qed.
#[export] Hint Resolve add_pending_frame del_pending_frame : frame.
Lemma update_pending_frame n v a : spec any (update_pending_vlan_mbr n v a).
Proof. unfold update_pending_vlan_mbr, sys_upd. frame. Qed.
Lemma if_add_vlan_frame p v : spec any (local_if_add_vlan p v).
Proof. unfold local_if_add_vlan, lif_upd. frame. Qed.
Lemma if_del_vlan_frame p v : spec any (local_if_del_vlan p v).
Proof. unfold local_if_del_vlan, lif_upd. frame. Qed.
#[export] Hint Resolve update_pending_frame if_add_vlan_frame if_del_vlan_frame : frame.
Lemma move_pending_frame p : spec any (move_pending_vlan_mbr_to_lif p).
Proof. unfold move_pending_vlan_mbr_to_lif, sys_upd. frame. Qed.
Lemma bind_frame c p : spec any (mlacp_bind_local_if c p).
Proof. unfold mlacp_bind_local_if, lif_upd. frame. all: apply mfind_frame; [apply _|]; frame. Qed.
#[export] Hint Resolve move_pending_frame bind_frame : frame.

Lemma member_names_frame i l st : spec any (member_names i l st).
Proof. revert st. induction l; intros st; simpl; frame. Qed.
Lemma member_buf_frame p n : spec any (set_member_buf p n).
Proof. unfold set_member_buf, lif_upd. frame. Qed.
Lemma team_walk_frame f l : (∀ m r, spec any (f m r)) → spec any (team_walk f l).
Proof. intros Hf. induction l as [|[[]|] l IH]; simpl; frame. Qed.
Lemma mlag_member_frame p m r : spec any (mlag_member p m r).
Proof. unfold mlag_member, lif_upd. frame. Qed.
Lemma peer_member_frame c p m r : spec any (peer_link_member c p m r).
Proof. unfold peer_link_member, lif_upd. frame. Qed.
#[export] Hint Resolve member_names_frame member_buf_frame mlag_member_frame peer_member_frame : frame.
Lemma mlag_members_frame c p l : spec any (mlag_members c p l).
Proof. unfold mlag_members. frame. apply team_walk_frame; frame. Qed.
Lemma peer_members_frame p l : spec any (peer_link_members p l).
Proof.
  unfold peer_link_members. frame; [apply mfind_frame; [apply _|]; frame|apply team_walk_frame; frame].
Qed.
#[export] Hint Resolve mlag_members_frame peer_members_frame : frame.
Lemma team_handler_frame m : spec any (iccp_get_portchannel_member_list_handler m).
Proof. unfold iccp_get_portchannel_member_list_handler. frame. Qed.
Lemma team_ports_frame i n : spec any (team_ports i n).
Proof. revert i. induction n; intros i; simpl; frame. Qed.
#[export] Hint Resolve team_handler_frame team_ports_frame : frame.
Lemma team_reply_frame : spec any team_reply.
Proof. unfold team_reply. frame. Qed.
#[export] Hint Resolve team_reply_frame : frame.
Lemma member_list_frame p : spec any (iccp_get_port_member_list p).
Proof. unfold iccp_get_port_member_list. frame. Qed.
#[export] Hint Resolve member_list_frame : frame.
Lemma bind_po_frame c n : spec any (mlacp_bind_port_channel_to_csm c n).
Proof. unfold mlacp_bind_port_channel_to_csm. frame. Qed.
#[export] Hint Resolve bind_po_frame : frame.
Lemma attach_created_frame p n : spec any (attach_created p n).
Proof. unfold attach_created, lif_upd. frame. Qed.
Lemma unique_configured_frame n : spec any (is_unique_ip_configured n).
Proof. unfold is_unique_ip_configured. frame. Qed.
#[export] Hint Resolve attach_created_frame unique_configured_frame : frame.
Lemma create_if_frame i n t s : spec any (local_if_create i n t s).
Proof. unfold local_if_create, alloc, lif_upd, sys_upd. frame. Qed.
Lemma csm_by_ifname_frame n : spec any (system_get_csm_by_peer_ifname n).
Proof. unfold system_get_csm_by_peer_ifname. frame. apply mfind_frame; [apply _|]; frame. Qed.
Lemma csm_by_id_frame id : spec any (system_get_csm_by_mlacp_id id).
Proof. unfold system_get_csm_by_mlacp_id. frame. apply mfind_frame; [apply _|]; frame. Qed.
#[export] Hint Resolve create_if_frame csm_by_ifname_frame csm_by_id_frame : frame.
Lemma destroy_if_frame n : spec any (local_if_destroy n).
Proof.
  unfold local_if_destroy, local_if_vlan_remove, local_if_po_remove, local_if_remove, lif_upd, sys_upd. frame.
Qed.
Lemma mbrship_frame v n a : spec any (vlan_mbrship_change_handler v n a).
Proof. unfold vlan_mbrship_change_handler. frame. Qed.
Lemma set_peer_link_frame i n : spec any (set_peer_link i n).
Proof. unfold set_peer_link, lif_upd. frame. Qed.
Lemma attach_cli_frame i n : spec any (iccp_cli_attach_mclag_domain_to_port_channel i n).
Proof. unfold iccp_cli_attach_mclag_domain_to_port_channel. frame. Qed.
#[export] Hint Resolve destroy_if_frame mbrship_frame set_peer_link_frame attach_cli_frame : frame.
Lemma mclag_port_frame n a c l f : spec any (mclag_port_state n a c l f).
Proof. revert f. induction l; intros f; simpl; frame. Qed.
Lemma peerlink_up_frame c : spec any (mlacp_peerlink_up_handler c).
Proof. unfold mlacp_peerlink_up_handler. frame. Qed.
Lemma peerlink_down_frame c : spec any (mlacp_peerlink_down_handler c).
Proof. unfold mlacp_peerlink_down_handler, sys_upd. frame. Qed.
#[export] Hint Resolve mclag_port_frame peerlink_up_frame peerlink_down_frame : frame.
Lemma port_walk_frame n a f cs : spec any (port_state_walk n a f cs).
Proof. revert f. induction cs; intros f; simpl; frame. Qed.
#[export] Hint Resolve port_walk_frame : frame.
Lemma port_state_handler_frame n s : spec any (iccp_from_netlink_port_state_handler n s).
Proof. unfold iccp_from_netlink_port_state_handler. frame. Qed.
#[export] Hint Resolve port_state_handler_frame : frame.

(** ** Notifications of the kernel *)

Lemma link_mac_frame p k : spec any (set_link_mac p k).
Proof. unfold set_link_mac, lif_upd. frame. Qed.
Lemma vxlan_frame k : spec any (newlink_vxlan k).
Proof. unfold newlink_vxlan, lif_upd. frame. Qed.
Lemma count_netlink_frame i : spec any (count_netlink i).
Proof. unfold count_netlink, sys_upd. frame. Qed.
#[export] Hint Resolve link_mac_frame vxlan_frame count_netlink_frame : frame.
Lemma newlink_create_frame k p : spec any (newlink_create k p).
Proof. unfold newlink_create, sys_upd. frame. Qed.
Lemma carrier_frame k p : spec any (newlink_carrier k p).
Proof. unfold newlink_carrier, lif_upd. frame. Qed.
Lemma master_frame k p : spec any (newlink_master k p).
Proof. unfold newlink_master, lif_upd. frame. Qed.
#[export] Hint Resolve newlink_create_frame carrier_frame master_frame : frame.
Lemma newlink_update_frame k p : spec any (newlink_update k p).
Proof. unfold newlink_update, lif_upd. frame. Qed.
#[export] Hint Resolve newlink_update_frame : frame.
Lemma newlink_frame k : spec any (iccp_event_handler_obj_input_newlink k).
Proof. unfold iccp_event_handler_obj_input_newlink, lif_upd. frame. Qed.
Lemma dellink_frame i : spec any (iccp_event_handler_obj_input_dellink i).
Proof. unfold iccp_event_handler_obj_input_dellink. frame. Qed.
Lemma self_ip_frame p f : spec any (iccp_del_self_ip_from_neigh_table p f).
Proof. unfold iccp_del_self_ip_from_neigh_table. frame. Qed.
Lemma sync_neigh_frame p a v4 v6 m k l : spec any (syn_local_neigh_mac_info_to_peer p a v4 v6 m k l).
Proof.
  unfold syn_local_neigh_mac_info_to_peer.
  pose proof (local_mac_frame false). pose proof (local_arp_frame false). pose proof (local_nd_frame false). frame.
Qed.
#[export] Hint Resolve newlink_frame dellink_frame self_ip_frame sync_neigh_frame : frame.
Lemma newaddr_frame a : spec any (iccp_event_handler_obj_input_newaddr a).
Proof. unfold iccp_event_handler_obj_input_newaddr, newaddr_v4, newaddr_v6, lif_upd. frame. Qed.
Lemma deladdr_frame a : spec any (iccp_event_handler_obj_input_deladdr a).
Proof. unfold iccp_event_handler_obj_input_deladdr, deladdr_v4, deladdr_v6, lif_upd. frame. Qed.
#[export] Hint Resolve newaddr_frame deladdr_frame : frame.
Lemma route_frame m : spec any (iccp_route_event_handler m).
Proof. unfold iccp_route_event_handler, system_update_netlink_counters. frame. Qed.
#[export] Hint Resolve route_frame : frame.
Lemma dump_frame l : spec any (iccp_sys_local_if_list_get_init l).
Proof. unfold iccp_sys_local_if_list_get_init. frame. Qed.
#[export] Hint Resolve dump_frame : frame.
Lemma sync_again_frame l : spec any (iccp_netlink_sync_again l).
Proof. unfold iccp_netlink_sync_again, sys_upd. frame. Qed.
#[export] Hint Resolve sync_again_frame : frame.
Lemma route_sock_frame l r d : spec any (iccp_netlink_route_sock_event_handler l r d).
Proof. unfold iccp_netlink_route_sock_event_handler, sys_upd. frame. Qed.
Lemma team_sock_frame l r : spec any (iccp_netlink_genic_sock_event_handler l r).
Proof. unfold iccp_netlink_genic_sock_event_handler, sys_upd. frame. Qed.
Lemma heartbeat_seen_frame c : spec any (mlacp_fsm_update_heartbeat c).
Proof. unfold mlacp_fsm_update_heartbeat. frame. Qed.
#[export] Hint Resolve route_sock_frame team_sock_frame heartbeat_seen_frame : frame.
Lemma peer_readable_frame fd : spec any (peer_readable fd).
Proof.
  unfold peer_readable. pose proof read_callback_frame. frame. apply mfind_frame; [apply _|]; frame.
Qed.
Lemma connect_syncd_frame : spec any iccp_connect_syncd.
Proof. unfold iccp_connect_syncd, sys_upd. frame. Qed.

(** ** Messages of mclagsyncd *)

Lemma read_count_frame s b : spec any (read_count s b).
Proof. unfold read_count. frame. Qed.
Lemma entry_int_frame s i n b : spec any (entry_int s i n b).
Proof. unfold entry_int. frame. Qed.
#[export] Hint Resolve read_count_frame entry_int_frame : frame.
Lemma iface_cfg_frame b : spec any (iccp_mclagsyncd_mclag_iface_cfg_handler b).
Proof. unfold iccp_mclagsyncd_mclag_iface_cfg_handler, ignore. frame. Qed.
Lemma unique_list_frame o n : spec any (unique_ip_list o n).
Proof. unfold unique_ip_list, sys_upd. frame. Qed.
Lemma unique_lif_frame o p v : spec any (unique_ip_lif o p v).
Proof. unfold unique_ip_lif, ignore, lif_upd. frame. Qed.
#[export] Hint Resolve unique_list_frame unique_lif_frame : frame.
Lemma unique_walk_frame b i n v : spec any (unique_ip_walk b i n v).
Proof. revert i v. induction n; intros i v; simpl; frame. Qed.
#[export] Hint Resolve unique_walk_frame : frame.
Lemma unique_cfg_frame b : spec any (iccp_mclagsyncd_mclag_unique_ip_cfg_handler b).
Proof. unfold iccp_mclagsyncd_mclag_unique_ip_cfg_handler. frame. Qed.
Lemma vlan_mbr_frame b : spec any (iccp_mclagsyncd_vlan_mbr_update_handler b).
Proof. unfold iccp_mclagsyncd_vlan_mbr_update_handler. frame. Qed.
Lemma fdb_frame b : spec any (iccp_receive_fdb_handler_from_syncd b).
Proof. unfold iccp_receive_fdb_handler_from_syncd. frame. Qed.
Lemma syncd_rx_frame t s : spec any (SYSTEM_SET_SYNCD_RX_DBG_COUNTER t s).
Proof. unfold SYSTEM_SET_SYNCD_RX_DBG_COUNTER, sys_upd. frame. Qed.
Lemma read_domain_frame i b : spec any (read_domain_cfg i b).
Proof. unfold read_domain_cfg. frame. Qed.
#[export] Hint Resolve iface_cfg_frame unique_cfg_frame vlan_mbr_frame fdb_frame syncd_rx_frame read_domain_frame : frame.

Lemma unset_id_frame i : spec any (unset_mc_lag_by_id i).
Proof. unfold unset_mc_lag_by_id, unset_mc_lag_id, mlacp_link_del_iccp_info. frame. Qed.
Lemma set_system_id_frame m : spec any (set_local_system_id m).
Proof. unfold set_local_system_id. frame. Qed.
Lemma unset_system_id_frame : spec any unset_local_system_id.
Proof. unfold unset_local_system_id. frame. Qed.
Lemma set_local_frame i a : spec any (set_local_address i a).
Proof. unfold set_local_address. frame. Qed.
Lemma unset_local_frame i : spec any (unset_local_address i).
Proof. unfold unset_local_address. frame. Qed.
Lemma set_peer_frame i a : spec any (set_peer_address i a).
Proof. unfold set_peer_address. frame. Qed.
Lemma unset_peer_frame i : spec any (unset_peer_address i).
Proof. unfold unset_peer_address. frame. Qed.
Lemma unset_peer_link_frame i : spec any (unset_peer_link i).
Proof. unfold unset_peer_link, lif_upd. frame. Qed.
Lemma keepalive_frame i t : spec any (set_keepalive_time i t).
Proof. unfold set_keepalive_time. frame. Qed.
Lemma timeout_frame i t : spec any (set_session_timeout i t).
Proof. unfold set_session_timeout. frame. Qed.
#[export] Hint Resolve unset_id_frame set_system_id_frame set_local_frame unset_local_frame set_peer_frame unset_peer_frame
  unset_peer_link_frame keepalive_frame timeout_frame : frame.
Lemma unset_attr_frame d : spec any (domain_unset_attr d).
Proof. unfold domain_unset_attr, ignore. frame. Qed.

(** ** Reception from mclagsyncd *)

Lemma recv_into_frame o len b : 0 ≤ len → spec (λ r, fst r ≤ len) (recv_into o len b).
Proof.
  intros Hl. unfold recv_into. frame_step; [frame|]. frame_step. destruct (Z.leb_spec a0 0).
  - apply spec_ret; [apply _|]. simpl. lia.
  - eapply spec_bind; [apply _|apply recv_bytes_frame|]. intros bs _. frame_step; [frame|].
    apply spec_ret; [apply _|]. simpl. lia.
Qed.

Lemma recv_any_frame o len b : spec any (recv_into o len b).
Proof. unfold recv_into. frame. eapply spec_true, recv_bytes_frame. Qed.

Lemma incr_frame (f : System → Z) `{!Settable f} : spec any (incr f).
Proof. unfold incr, sys_upd. frame. Qed.
Lemma count_recv_frame h z : spec any (count_recv h z).
Proof. destruct h, z; apply incr_frame. Qed.
#[export] Hint Resolve incr_frame count_recv_frame : frame.

(** The retries are bounded. *)
Definition retry_ok (n : Z) : Prop := 0 ≤ n ≤ SYNCD_RECV_RETRY_MAX.

Lemma syncd_recv_frame b : spec any (syncd_recv b).
Proof. eapply spec_true, recv_into_frame. done. Qed.
#[export] Hint Resolve syncd_recv_frame : frame.

Lemma retry_frame fuel n b :
  retry_ok n → SYNCD_RECV_RETRY_MAX - n < Z.of_nat fuel → spec any (syncd_recv_retry fuel n b).
Proof.
  unfold retry_ok, SYNCD_RECV_RETRY_MAX. revert n b. induction fuel as [|f IH]; intros n b Hn Hf; [lia|].
  simpl. frame_step. destruct a as [r b']. destruct (r <? 0); [|frame].
  destruct (r =? - EAGAIN); [|frame]. unfold SYNCD_RECV_RETRY_MAX. destruct (Z.gtb_spec (n + 1) 5); [frame|].
  frame_step. apply IH; lia.
Qed.

Lemma recv_first_frame b : spec any (syncd_recv_first b).
Proof.
  unfold syncd_recv_first. frame_step. destruct a as [r b']. destruct (r =? 0); [frame|].
  destruct (r <? 0); [|frame]. apply retry_frame; unfold retry_ok, SYNCD_RECV_RETRY_MAX; lia.
Qed.

(** The rest of a message: every round receives a byte or counts a retry. *)
Definition retries_left {A} (r : option (Z * A)) : Prop :=
  match r with Some (n, _) => retry_ok n | None => True end.

Lemma recv_pending_frame fuel h base p r n b :
  retry_ok n → Z.max 0 (p - r) + (SYNCD_RECV_RETRY_MAX - n) < Z.of_nat fuel →
  spec retries_left (syncd_recv_pending fuel h base p r n b).
Proof.
  unfold retry_ok, SYNCD_RECV_RETRY_MAX. revert r n b.
  induction fuel as [|f IH]; intros r n b Hn Hf; [lia|]. simpl.
  rewrite Z.geb_leb. destruct (Z.leb_spec p r); [by apply spec_ret; [apply _|]|].
  eapply spec_bind; [apply _|apply recv_into_frame; lia|]. intros [len b'] Hlen. simpl in Hlen.
  destruct (Z.eqb_spec len 0); [frame|]. destruct (Z.ltb_spec len 0); [|apply IH; lia].
  destruct (len =? - EAGAIN); [|frame]. unfold SYNCD_RECV_RETRY_MAX. destruct (Z.gtb_spec (n + 1) 5); [frame|].
  frame_step. apply IH; lia.
Qed.

Lemma syncd_pending_frame h base p n b : retry_ok n → spec retries_left (syncd_pending h base p n b).
Proof.
  intros Hn. unfold syncd_pending. destruct (Z.leb_spec p 0).
  - rewrite Nat.add_comm. simpl. rewrite Z.geb_leb. destruct (Z.leb_spec p 0); [|lia].
    by apply spec_ret; [apply _|].
  - apply recv_pending_frame; [done|]. unfold retry_ok, SYNCD_RECV_RETRY_MAX in *. lia.
Qed.

(** * Frames of the control socket

    A request is answered in finitely many steps whatever the client sends and
    however it reads, and answering changes no state machine. *)


(** ** Dumps *)

Lemma dump_walk_frame {A D} (l : list A) (f : A → D → W (option D)) d :
  (∀ x d, spec any (f x d)) → spec any (dump_walk l f d).
Proof. intros Hf. revert d. induction l as [|x l IH]; intros d; simpl; frame. Qed.

Lemma dump_append_frame s e d : spec any (dump_append s e d).
Proof. unfold dump_append. frame. Qed.
Lemma dump_alloc_frame : spec any dump_alloc.
Proof. unfold dump_alloc. frame. Qed.
Lemma filled_frame s ss : spec any (filled s ss).
Proof. unfold filled. frame. Qed.
Lemma copy_frame n l : spec any (copy n l).
Proof. unfold copy. frame. Qed.
#[export] Hint Resolve dump_append_frame dump_alloc_frame filled_frame copy_frame : frame.

Lemma dump_machines_frame {D} id (f : ptr → D → W (option D)) d :
  (∀ c d, spec any (f c d)) → spec any (dump_machines id f d).
Proof.
  intros Hf. unfold dump_machines. frame. apply dump_walk_frame. intros c [i d'].
  frame.
Qed.

Lemma dump_objects_frame id f : (∀ c d, spec any (f c d)) → spec any (dump_objects id f).
Proof.
  intros Hf. unfold dump_objects. frame. by apply dump_machines_frame.
Qed.

Lemma mac_show_frame p : spec any (mac_show p).
Proof. unfold mac_show. frame. Qed.
Lemma arp_show_frame b : spec any (arp_show b).
Proof. unfold arp_show, field_u8, field_u32, field_bytes. frame. Qed.
Lemma ndisc_show_frame b : spec any (ndisc_show b).
Proof. unfold ndisc_show, field_u8, field_u32, field_bytes. frame. Qed.
Lemma local_if_show_frame n p : spec any (local_if_show n p).
Proof. unfold local_if_show, local_if_is_l3_mode. frame. Qed.
Lemma peer_if_show_frame p : spec any (peer_if_show p).
Proof. unfold peer_if_show. frame. Qed.
Lemma unique_ip_show_frame n : spec any (unique_ip_show n).
Proof. unfold unique_ip_show, local_if_l3_proto_enabled. frame. Qed.
#[export] Hint Resolve mac_show_frame arp_show_frame ndisc_show_frame local_if_show_frame peer_if_show_frame
  unique_ip_show_frame : frame.

Lemma enabled_po_loop_frame ls po len : spec any (enabled_po_loop ls po len).
Proof. revert po len. induction ls as [|p ls IH]; intros; simpl; frame; apply IH. Qed.
#[export] Hint Resolve enabled_po_loop_frame : frame.

Lemma enabled_po_frame ls len : spec any (enabled_po ls len).
Proof. unfold enabled_po. frame. Qed.
Lemma logger_frame : spec any logger_get_configuration.
Proof. unfold logger_get_configuration. frame. Qed.
#[export] Hint Resolve enabled_po_frame logger_frame : frame.
Lemma state_show_frame c len : spec any (state_show c len).
Proof. unfold state_show. frame. Qed.
#[export] Hint Resolve state_show_frame : frame.

Ltac dump := first [apply dump_objects_frame | apply dump_machines_frame | apply dump_walk_frame]; intros.

Lemma mac_dump_frame id : spec any (iccp_mac_dump id).
Proof. dump. frame. dump. frame. Qed.
Lemma arp_dump_frame id : spec any (iccp_arp_dump id).
Proof. dump. frame. dump. frame. Qed.
Lemma ndisc_dump_frame id : spec any (iccp_ndisc_dump id).
Proof. dump. frame. dump. frame. Qed.
Lemma local_if_dump_frame id : spec any (iccp_local_if_dump id).
Proof. dump. frame. dump. frame. Qed.
Lemma peer_if_dump_frame id : spec any (iccp_peer_if_dump id).
Proof. dump. frame. dump. frame. Qed.
Lemma unique_ip_dump_frame id : spec any (iccp_unique_ip_if_dump id).
Proof.
  unfold iccp_unique_ip_if_dump. frame. dump. frame.
Qed.
Lemma config_dump_frame id : spec any (iccp_mclag_config_dump id).
Proof.
  unfold iccp_mclag_config_dump. frame. dump. frame.
Qed.
Lemma counter_dump_frame id : spec any (iccp_cmd_dbg_counter_dump id).
Proof.
  unfold iccp_cmd_dbg_counter_dump. frame. dump. frame.
Qed.
#[export] Hint Resolve mac_dump_frame arp_dump_frame ndisc_dump_frame local_if_dump_frame peer_if_dump_frame
  unique_ip_dump_frame config_dump_frame counter_dump_frame : frame.

(** ** The socket *)

Lemma ctl_write_loop_frame fuel fd b n total :
  Z.max 0 (total - n) < Z.of_nat fuel → spec any (ctl_write_loop fuel fd b n total).
Proof.
  revert n. induction fuel as [|f IH]; intros n Hf; [lia|]. simpl.
  rewrite Z.geb_leb. destruct (Z.leb_spec total n); [frame|]. do 2 frame_step.
  destruct (Z.leb_spec a0 0); [frame|]. apply IH. lia.
Qed.

Lemma ctl_write_frame fd b total : spec any (mclagd_ctl_sock_write fd b total).
Proof. apply ctl_write_loop_frame. lia. Qed.

Lemma ctl_read_loop_frame fuel fd b n total :
  Z.max 0 (total - n) < Z.of_nat fuel → spec any (ctl_read_loop fuel fd b n total).
Proof.
  revert n b. induction fuel as [|f IH]; intros n b Hf; [lia|]. simpl.
  rewrite Z.geb_leb. destruct (Z.leb_spec total n); [frame|]. frame_step.
  destruct (a <=? 0); [frame|]. frame_step. destruct (Z.leb_spec a0 0); [frame|].
  cbv zeta. frame_step; [eapply spec_true, recv_bytes_frame|]. frame_step; [frame|]. apply IH. lia.
Qed.

Lemma ctl_read_frame fd b total : spec any (mclagd_ctl_sock_read fd b total).
Proof. apply ctl_read_loop_frame. lia. Qed.
#[export] Hint Resolve ctl_write_frame ctl_read_frame : frame.

(** ** Requests *)

Lemma reply_error_frame fd t r : spec any (reply_error fd t r).
Proof. unfold reply_error. frame. Qed.
Lemma reply_data_frame fd t b n : spec any (reply_data fd t b n).
Proof. unfold reply_data. frame. Qed.
#[export] Hint Resolve reply_error_frame reply_data_frame : frame.
Lemma reply_dump_frame fd t e s r : spec any (reply_dump fd t e s r).
Proof. unfold reply_dump. frame. Qed.
#[export] Hint Resolve reply_dump_frame : frame.

Lemma loglevel_frame fd l : spec any (mclagd_ctl_handle_config_loglevel fd l).
Proof. unfold mclagd_ctl_handle_config_loglevel, logger_set_configuration. frame. Qed.
Lemma counters_frame fd id : spec any (mclagd_ctl_handle_dump_dbg_counters fd id).
Proof. unfold mclagd_ctl_handle_dump_dbg_counters. frame. Qed.
#[export] Hint Resolve loglevel_frame counters_frame : frame.

Lemma ctl_dispatch_frame fd t id : spec any (ctl_dispatch fd t id).
Proof.
  unfold ctl_dispatch, mclagd_ctl_handle_dump_state, mclagd_ctl_handle_dump_arp, mclagd_ctl_handle_dump_ndisc,
    mclagd_ctl_handle_dump_mac, mclagd_ctl_handle_dump_local_portlist, mclagd_ctl_handle_dump_peer_portlist,
    mclagd_ctl_handle_dump_unique_ip. frame.
Qed.
#[export] Hint Resolve ctl_dispatch_frame : frame.

Lemma ctl_readable_frame : spec any ctl_readable.
Proof. unfold ctl_readable, mclagd_ctl_sock_accept, mclagd_ctl_interactive_process. frame. Qed.

Lemma ctl_create_frame path : spec any (mclagd_ctl_sock_create path).
Proof. unfold mclagd_ctl_sock_create, sys_upd. frame. Qed.
#[export] Hint Resolve ctl_readable_frame ctl_create_frame : frame.
