(* ===== verification/ShowFacts.v ===== *)
(** * What the show commands answer

    A show command changes nothing of the daemon: it looks.  Its buffer holds, behind
    the room for the header, the structures appended so far, and always has room for
    one more, so that no write leaves it however many objects there are. *)

From S2P Require Import Prelude CMem CString MsgFormat ShowFormat State Machine IccpMsg IccpQueue SyncPrepare.
From S2P Require Import Port Show Scheduler Control.
#[local] Open Scope Z_scope.

(** ** Computations that look *)

(** What the process wrote to [fd] in the events [ev], which are the newest first. *)
Definition put_on (fd : Z) (e : event) : list Z :=
  match e with
  | (SysWrite fd' data, r) => if fd' =? fd then take (Z.to_nat r) data else []
  | _ => []
  end.
Definition wrote (fd : Z) (ev : list event) : list Z := concat (map (put_on fd) (reverse ev)).

Lemma wrote_app fd ev1 ev2 : wrote fd (ev1 ++ ev2) = wrote fd ev2 ++ wrote fd ev1.
Proof. unfold wrote. by rewrite reverse_app, map_app, concat_app. Qed.

Definition silent (ev : list event) : Prop := ∀ fd, wrote fd ev = [].

Lemma silent_app ev1 ev2 : silent ev1 → silent ev2 → silent (ev1 ++ ev2).
Proof. intros H1 H2 fd. by rewrite wrote_app, H1, H2. Qed.

(** An allocation failed. *)
Definition starved (ev : list event) : Prop := ∃ n, (SysMalloc n, 0) ∈ ev ∨ (SysRealloc n, 0) ∈ ev.

Lemma starved_app_l ev1 ev2 : starved ev1 → starved (ev1 ++ ev2).
Proof. intros (n & H). exists n. rewrite !elem_of_app. tauto. Qed.
Lemma starved_app_r ev1 ev2 : starved ev2 → starved (ev1 ++ ev2).
Proof. intros (n & H). exists n. rewrite !elem_of_app. tauto. Qed.

(** The world after some calls; the logger may have been initialised. *)
Definition after (ev : list event) (lg : LoggerConfig) (w : World) : World :=
  w <| w_trace := ev ++ w_trace w |> <| w_logger := lg |>.

Lemma after_after ev1 ev2 lg1 lg2 w : after ev2 lg2 (after ev1 lg1 w) = after (ev2 ++ ev1) lg2 w.
Proof. unfold after. simpl. by rewrite app_assoc. Qed.

Lemma after_nil w : after [] (w_logger w) w = w.
Proof. by destruct w. Qed.

(** The replies of the events are those of the environment. *)
Fixpoint answers (env : list event → syscall → Z) (ev tr : list event) : Prop :=
  match ev with
  | [] => True
  | (c, r) :: ev' => r = env (ev' ++ tr) c ∧ answers env ev' tr
  end.

Lemma answers_app env ev1 ev2 tr : answers env ev1 (ev2 ++ tr) → answers env ev2 tr → answers env (ev1 ++ ev2) tr.
Proof.
  induction ev1 as [|[c r] ev1 IH]; simpl; [done|]. intros [-> H1] H2. rewrite <-app_assoc. by split; [|apply IH].
Qed.

(** An environment with enough memory *)
Definition plentiful (env : list event → syscall → Z) : Prop :=
  ∀ tr n, env tr (SysMalloc n) ≠ 0 ∧ env tr (SysRealloc n) ≠ 0.

Lemma plentiful_fed env ev tr : plentiful env → answers env ev tr → ¬ starved ev.
Proof.
  intros Hp Ha (n & H). induction ev as [|[c r] ev IH]; [destruct H as [H|H]; by apply elem_of_nil in H|].
  simpl in Ha. destruct Ha as [-> Ha]. rewrite !elem_of_cons in H. destruct (Hp (ev ++ tr) n) as [H1 H2].
  destruct H as [[[= <- Hz]|H]|[[= <- Hz]|H]]; [by symmetry in Hz|apply IH; auto|by symmetry in Hz|apply IH; auto].
Qed.

(** [m] returns, writes nothing, and leaves the daemon as it was. *)
Definition looks {A} (m : W A) (Q : A → list event → Prop) (w : World) : Prop :=
  ∃ a ev lg, m w = Ok a (after ev lg w) ∧ silent ev ∧ answers (w_env w) ev (w_trace w) ∧ Q a ev.

(** The memory of [w] in a later world. *)
Definition memory (w w0 : World) : Prop := ∃ ev lg, w0 = after ev lg w.

Lemma memory_refl w : memory w w.
Proof. exists [], (w_logger w). by rewrite after_nil. Qed.

Lemma memory_after w w0 ev lg : memory w w0 → memory w (after ev lg w0).
Proof. intros (ev0 & lg0 & ->). exists (ev ++ ev0), lg. apply after_after. Qed.
#[export] Hint Resolve memory_refl memory_after : core.

Section rules.
Context {A B : Type}.

Lemma looks_ret (a : A) (Q : A → list event → Prop) w : Q a [] → looks (mret a) Q w.
Proof. intros HQ. exists a, [], (w_logger w). rewrite after_nil. by repeat split. Qed.

Lemma looks_bind (m : W A) (k : A → W B) (P : A → list event → Prop) (Q : B → list event → Prop) w :
  looks m P w →
  (∀ a ev lg, P a ev → looks (k a) (λ b ev', Q b (ev' ++ ev)) (after ev lg w)) →
  looks (m ≫= k) Q w.
Proof.
  intros (a & ev & lg & E & S & N & HP) Hk. destruct (Hk a ev lg HP) as (b & ev' & lg' & E' & S' & N' & HQ).
  exists b, (ev' ++ ev), lg'. rewrite (bind_ok _ _ _ _ _ E), E'. rewrite after_after.
  split; [done|]. split; [by apply silent_app|]. split; [by apply answers_app|done].
Qed.

Lemma looks_mono (m : W A) (P Q : A → list event → Prop) w :
  looks m P w → (∀ a ev, P a ev → Q a ev) → looks m Q w.
Proof. intros (a & ev & lg & E & S & N & HP) H. exists a, ev, lg. eauto. Qed.

(** A computation that only reads. *)
Lemma looks_run (m : W A) a (Q : A → list event → Prop) w : m w = Ok a w → Q a [] → looks m Q w.
Proof. intros E HQ. exists a, [], (w_logger w). rewrite after_nil. by repeat split. Qed.
End rules.

Lemma looks_sys c (Q : Z → list event → Prop) w :
  (∀ fd, put_on fd (c, w_env w (w_trace w) c) = []) →
  Q (w_env w (w_trace w) c) [(c, w_env w (w_trace w) c)] → looks (sys c) Q w.
Proof.
  intros Hs HQ. exists (w_env w (w_trace w) c), [(c, w_env w (w_trace w) c)], (w_logger w).
  split; [by destruct w|]. split; [|by repeat split]. intros fd. unfold wrote. rewrite reverse_singleton.
  cbn [map concat]. by rewrite Hs.
Qed.

Lemma looks_uninit n w : looks (uninit n) (λ bs _, length bs = n) w.
Proof.
  revert w. induction n as [|n IH]; intros w; simpl; [by apply looks_ret|].
  eapply looks_bind; [by apply (looks_sys _ (λ _ _, True))|]. intros b ev lg _.
  eapply looks_bind; [apply IH|]. intros l ev' lg' Hl. apply looks_ret. simpl. by rewrite Hl.
Qed.

(** ** The buffer *)

#[local] Opaque MCLAGD_REPLY_INFO_HDR MCLAGDCTL_CMD_SIZE sizeof.

Record dump_ok (s : struct) (es : list (list Z)) (d : dump_buf) : Prop := {
  do_size : Z.of_nat (length (db_bytes d)) = u64 (db_size d);
  do_int : - 2 ^ 31 ≤ db_size d < 2 ^ 31;
  do_num : db_num d = Z.of_nat (length es);
  do_len : Forall (λ e, length e = sizeof s) es;
  do_bytes : ∃ hd tl, db_bytes d = hd ++ concat es ++ tl ∧ length hd = MCLAGD_REPLY_INFO_HDR;
  do_room : (MCLAGD_REPLY_INFO_HDR + (length es + 1) * sizeof s ≤ length (db_bytes d))%nat
}.

Lemma concat_length s (es : list (list Z)) : Forall (λ e, length e = s) es → length (concat es) = (length es * s)%nat.
Proof. induction 1 as [|e es He Hes IH]; simpl; [done|]. rewrite length_app, He, IH. lia. Qed.

(** The loops of the dumps end with [None] only after an allocation failed. *)
Definition unless_starved {D} (P : D → Prop) (r : option D) (ev : list event) : Prop :=
  match r with Some d => P d | None => starved ev end.

Lemma dump_alloc_looks s w : (MCLAGD_REPLY_INFO_HDR + sizeof s ≤ Z.to_nat MCLAGDCTL_CMD_SIZE)%nat →
  looks dump_alloc (unless_starved (dump_ok s [])) w.
Proof.
  intros Hs. unfold dump_alloc. eapply looks_bind; [apply (looks_sys _ (λ r ev, r = 0 → starved ev)); [done|]|].
  { intros H. exists MCLAGDCTL_CMD_SIZE. left. rewrite H. set_solver. }
  intros r ev lg Hr. destruct (Z.eqb_spec r 0); [apply looks_ret; simpl; auto|].
  eapply looks_bind; [apply looks_uninit|]. intros bs ev' lg' Hb. cbv beta in *. apply looks_ret. simpl.
  split; simpl; [by rewrite Hb|done|done|done| |lia].
  exists (take MCLAGD_REPLY_INFO_HDR bs), (drop MCLAGD_REPLY_INFO_HDR bs).
  split; [by rewrite take_drop|]. rewrite length_take. lia.
Qed.

Lemma dump_put s es d e : dump_ok s es d → length e = sizeof s →
  ∃ bs, put (Z.to_nat (u64 (Z.of_nat MCLAGD_REPLY_INFO_HDR + db_num d * Z.of_nat (sizeof s)))) e (db_bytes d) = Some bs
    ∧ length bs = length (db_bytes d)
    ∧ ∃ hd tl, bs = hd ++ concat (es ++ [e]) ++ tl ∧ length hd = MCLAGD_REPLY_INFO_HDR.
Proof.
  intros [Hsz Hi Hn Hl (hd & tl & Hb & Hh) Hr] He. pose proof (concat_length _ _ Hl) as Hc.
  replace (Z.to_nat _) with (MCLAGD_REPLY_INFO_HDR + length es * sizeof s)%nat.
  2: { rewrite Hn. unfold u64 in *. rewrite Z.mod_small; [lia|]. pose proof (Z.mod_pos_bound (db_size d) (2 ^ 64)). lia. }
  assert (sizeof s ≤ length tl)%nat as Ht by (rewrite Hb, !length_app, Hh, Hc in Hr; lia).
  exists (hd ++ concat (es ++ [e]) ++ drop (sizeof s) tl). split; [|split; [|by eauto]].
  - rewrite Hb, <-(take_drop (sizeof s) tl) at 1. rewrite !app_assoc, <-app_assoc.
    rewrite (put_at _ (take (sizeof s) tl)); [|rewrite length_app; lia|rewrite length_take; lia].
    rewrite concat_app. simpl. by rewrite app_nil_r, !app_assoc.
  - rewrite Hb, !length_app, concat_app, length_app, length_drop. simpl. rewrite app_nil_r. lia.
Qed.

(** The size in bytes after the buffer grew: at least [MCLAGDCTL_CMD_SIZE] more, also when the
    [int] wrapped around. *)
Lemma grown_size size : 0 ≤ size < 2 ^ 31 →
  size + MCLAGDCTL_CMD_SIZE ≤ u64 (to_int (size + MCLAGDCTL_CMD_SIZE))
  ∧ - 2 ^ 31 ≤ to_int (size + MCLAGDCTL_CMD_SIZE) < 2 ^ 31.
Proof.
  intros H. change MCLAGDCTL_CMD_SIZE with 4096. unfold u64, to_int.
  destruct (Z.lt_ge_cases (size + 4096) (2 ^ 31)).
  - rewrite (Z.mod_small (_ + _ + _) (2 ^ 32)) by lia. rewrite Z.mod_small; lia.
  - replace ((size + 4096 + 2 ^ 31) mod 2 ^ 32) with (size + 4096 + 2 ^ 31 - 2 ^ 32)
      by (apply Z.mod_unique with 1; lia).
    replace ((size + 4096 + 2 ^ 31 - 2 ^ 32 - 2 ^ 31) mod 2 ^ 64) with (size + 4096 - 2 ^ 32 + 2 ^ 64)
      by (apply Z.mod_unique with (-1); lia). lia.
Qed.

(** The comparison that decides whether the buffer grows. *)
Lemma room_test size hdr n sz :
  0 ≤ hdr ≤ u64 size → - 2 ^ 31 ≤ size < 2 ^ 31 → 0 ≤ n → n + 2 < 2 ^ 31 → 0 ≤ sz ≤ 4096 →
  u64 (to_int (to_int (n + 1) + 1) * sz) = (n + 2) * sz ∧ u64 (size - hdr) = u64 size - hdr
  ∧ (u64 size < 2 ^ 44 → u64 size = size).
Proof.
  intros Hh Hs H0 Hn Hz. rewrite !to_int_small by (rewrite ?to_int_small; lia).
  replace (n + 1 + 1) with (n + 2) by lia.
  assert (0 ≤ (n + 2) * sz ≤ 2 ^ 31 * 4096) by (split; [lia|]; apply Z.mul_le_mono_nonneg; lia).
  unfold u64 in *. split; [apply Z.mod_small; lia|]. split.
  - rewrite <-Zminus_mod_idemp_l, Z.mod_small; [done|]. pose proof (Z.mod_pos_bound size (2 ^ 64)). lia.
  - intros Hb. apply Z.mod_small. split; [|lia]. destruct (Z.lt_ge_cases size 0) as [Hneg|]; [|done].
    replace (size mod 2 ^ 64) with (size + 2 ^ 64) in Hb by (apply Z.mod_unique with (-1); lia). lia.
Qed.

Lemma dump_append_looks s es d e w :
  dump_ok s es d → length e = sizeof s → (sizeof s ≤ Z.to_nat MCLAGDCTL_CMD_SIZE)%nat →
  Z.of_nat (length es) + 2 < 2 ^ 31 →
  looks (dump_append s e d) (unless_starved (dump_ok s (es ++ [e]))) w.
Proof.
  intros Hd He Hs Hsm. destruct (dump_put s es d e Hd He) as (bs & Hp & Hb & hd & tl & Hbs & Hh).
  destruct Hd as [Hsz Hi Hn Hl _ Hr]. assert (Forall (λ e, length e = sizeof s) (es ++ [e])) as Hl'.
  { apply Forall_app. by repeat constructor. }
  assert (sizeof s ≤ 4096)%nat as Hs' by exact Hs.
  destruct (room_test (db_size d) (Z.of_nat MCLAGD_REPLY_INFO_HDR) (Z.of_nat (length es)) (Z.of_nat (sizeof s)))
    as (E1 & E2 & E3); [lia..|].
  assert (to_int (Z.of_nat (length es) + 1) = Z.of_nat (length (es ++ [e]))) as Hnum
    by (rewrite to_int_small, length_app; simpl; lia).
  unfold dump_append. rewrite Hp. eapply looks_bind; [by apply (looks_run _ bs (λ b _, b = bs))|].
  intros ? ev0 lg0 ->. rewrite Hn, E1, E2.
  destruct (Z.gtb_spec ((Z.of_nat (length es) + 2) * Z.of_nat (sizeof s))
    (u64 (db_size d) - Z.of_nat MCLAGD_REPLY_INFO_HDR)) as [Hg|Hg]; simpl.
  - assert (u64 (db_size d) = db_size d) as E.
    { apply E3. assert ((Z.of_nat (length es) + 2) * Z.of_nat (sizeof s) ≤ 2 ^ 31 * 4096) by (apply Z.mul_le_mono_nonneg; lia).
      change MCLAGD_REPLY_INFO_HDR with 16%nat in Hg. lia. }
    destruct (grown_size (db_size d)) as [Hgr Hint]; [lia|]. set (size := to_int (db_size d + _)) in *.
    eapply looks_bind; [apply (looks_sys _ (λ r ev, r = 0 → starved ev)); [done|]|].
    { intros H. exists (u64 size). right. rewrite H. set_solver. }
    intros r ev lg Hstv. destruct (Z.eqb_spec r 0); [apply looks_ret; simpl; apply starved_app_l; auto|].
    assert (Z.to_nat MCLAGDCTL_CMD_SIZE + length bs ≤ Z.to_nat (u64 size))%nat as Hroom by (rewrite Hb; lia).
    eapply looks_bind; [apply looks_uninit|]. intros more ev' lg' Hm. cbv beta in *. apply looks_ret.
    assert (length (bs ++ more) = Z.to_nat (u64 size)) as Hlen by (rewrite length_app; lia).
    rewrite (take_ge bs) by lia. split; cbn [db_bytes db_size db_num]; [|done|done|done| |].
    + rewrite Hlen, Z2Nat.id; [done|]. unfold u64. by apply Z.mod_pos_bound.
    + exists hd, (tl ++ more). by rewrite Hbs, <-!app_assoc.
    + rewrite Hlen, length_app. simpl. lia.
  - apply looks_ret.
    split; cbn [db_bytes db_size db_num]; [by rewrite Hb|done|done|done|by eauto|].
    rewrite length_app, Hb. simpl. lia.
Qed.

(** ** Loops *)

Lemma walk_looks_from {A D} (I : list A → D → Prop) (f : A → D → W (option D)) w all :
  (∀ x past d w0, past ++ [x] `prefix_of` all → memory w w0 → I past d →
     looks (f x d) (unless_starved (I (past ++ [x]))) w0) →
  ∀ l past d w0, all = past ++ l → memory w w0 → I past d →
    looks (dump_walk l f d) (unless_starved (I (past ++ l))) w0.
Proof.
  intros Hf. induction l as [|x l IH]; intros past d w0 -> Hw HI; simpl; [apply looks_ret; by rewrite app_nil_r|].
  eapply looks_bind; [eapply Hf; [exists l; by rewrite <-app_assoc|done..]|].
  intros [d'|] ev lg Hr; cbv beta in Hr.
  - eapply looks_mono; [apply (IH (past ++ [x])); [by rewrite <-app_assoc|auto|exact Hr]|].
    intros [d''|] ev' H; simpl in *; [by rewrite <-app_assoc in H|by apply starved_app_l].
  - apply looks_ret. by apply starved_app_r.
Qed.

Lemma walk_looks {A D} (I : list A → D → Prop) (f : A → D → W (option D)) w l d :
  (∀ x past d w0, past ++ [x] `prefix_of` l → memory w w0 → I past d →
     looks (f x d) (unless_starved (I (past ++ [x]))) w0) →
  I [] d → looks (dump_walk l f d) (unless_starved (I l)) w.
Proof. intros Hf HI. by apply (walk_looks_from I f w l Hf l []). Qed.

(** The machines a command is about. *)
Definition machines (w : World) : list CSM := omap (λ c, w_csms w !! c) (csm_list (w_sys w)).
Definition selected (mclag_id : Z) (w : World) : list CSM :=
  filter (λ x, mclag_id ≤ 0 ∨ mlag_id x = mclag_id) (machines w).

(** The list of the machines holds no dangling pointer. *)
Definition csms_linked (w : World) : Prop := ∀ c, c ∈ csm_list (w_sys w) → is_Some (w_csms w !! c).

Section machines.
Context {D : Type} (I : list CSM → D → Prop) (mclag_id : Z) (f : ptr → D → W (option D)) (w : World).
Hypothesis linked : csms_linked w.
Hypothesis step : ∀ c x past d w0, past ++ [x] `prefix_of` selected mclag_id w → w_csms w !! c = Some x → memory w w0 → I past d →
  looks (f c d) (unless_starved (I (past ++ [x]))) w0.

(** The machines among the pointers [cs], and those selected. *)
Let at_ptrs (cs : list ptr) : list CSM :=
  filter (λ x, mclag_id ≤ 0 ∨ mlag_id x = mclag_id) (omap (λ c, w_csms w !! c) cs).
Let J (cs : list ptr) (r : bool * D) : Prop :=
  I (at_ptrs cs) (snd r) ∧ fst r = (mclag_id >? 0) && negb (bool_decide (at_ptrs cs = [])).

Lemma at_ptrs_snoc cs c x : w_csms w !! c = Some x →
  at_ptrs (cs ++ [c]) = at_ptrs cs ++ (if decide (mclag_id ≤ 0 ∨ mlag_id x = mclag_id) then [x] else []).
Proof.
  intros Hx. unfold at_ptrs. rewrite omap_app, filter_app. simpl. rewrite Hx.
  destruct (decide _) as [H|H]; [by rewrite filter_cons_True|by rewrite filter_cons_False].
Qed.

Lemma dump_machines_looks d : I [] d →
  looks (dump_machines mclag_id f d) (unless_starved (λ '(b, d'),
    I (selected mclag_id w) d' ∧ b = (mclag_id >? 0) && negb (bool_decide (selected mclag_id w = [])))) w.
Proof.
  intros HI. unfold dump_machines.
  eapply looks_bind; [by apply (looks_run _ (csm_list (w_sys w)) (λ cs _, cs = csm_list (w_sys w)))|].
  intros ? ev lg ->. eapply looks_mono.
  - apply (walk_looks J); [|split; [exact HI|simpl; by rewrite andb_false_r]].
    intros c past [b d'] w0 Hpre Hw [HJ Hb]. simpl in HJ, Hb.
    assert (c ∈ csm_list (w_sys w)) as Hc.
    { destruct Hpre as [more ->]. rewrite <-app_assoc. apply elem_of_app. right. left. }
    assert (memory w w0) as Hw' by (destruct Hw as (ev1 & lg1 & ->); auto). clear Hw.
    destruct (linked c Hc) as [x Hx].
    eapply looks_bind; [apply (looks_run _ x (λ y _, y = x)); [|done]|].
    { destruct Hw' as (ev1 & lg1 & ->). by apply deref_run. }
    intros ? ev1 lg1 ->. pose proof (at_ptrs_snoc past c x Hx) as Hsn.
    destruct (decide (mclag_id ≤ 0 ∨ mlag_id x = mclag_id)) as [Hsel|Hsel].
    + assert ((mclag_id >? 0) && negb (mlag_id x =? mclag_id) = false) as -> by lia.
      eapply looks_bind; [apply (step c x (at_ptrs past)); [|done|auto|done]|].
      * rewrite <-Hsn. destruct Hpre as [more E]. exists (at_ptrs more).
        unfold selected, machines, at_ptrs in *. by rewrite E, omap_app, filter_app.
      * intros [d''|] ev2 lg2 Hr; apply looks_ret; simpl in *; [|by apply starved_app_l].
        split; simpl; rewrite Hsn; [done|]. rewrite Hb, (bool_decide_eq_false_2 (at_ptrs past ++ [x] = [])) by (by intros [_ ?]%app_nil).
        by destruct (mclag_id >? 0), (bool_decide (at_ptrs past = [])).
    + assert ((mclag_id >? 0) && negb (mlag_id x =? mclag_id) = true) as -> by lia.
      apply looks_ret. simpl. split; simpl; by rewrite Hsn, app_nil_r.
  - intros [[b d']|] ev' H; simpl in *; [exact H|by apply starved_app_l].
Qed.
End machines.

(** ** Objects

    The dumps of the objects of the machines: [objs] lists those of a machine, [entry]
    builds the structure of one. *)
Section objects.
Context {O : Type} (s : struct) (objs : CSM → list O) (entry : O → W (list Z)) (w : World).

(** The structure of an object of the memory; building it changes nothing. *)
Definition shows (o : O) (e : list Z) : Prop :=
  length e = sizeof s ∧ ∀ w0, memory w w0 → entry o w0 = Ok e w0.

Lemma objects_looks os es past d : Forall2 shows os es → dump_ok s past d →
  (sizeof s ≤ Z.to_nat MCLAGDCTL_CMD_SIZE)%nat → Z.of_nat (length (past ++ es)) + 1 < 2 ^ 31 → ∀ w0, memory w w0 →
  looks (dump_walk os (λ o d, e ← entry o; dump_append s e d) d) (unless_starved (dump_ok s (past ++ es))) w0.
Proof.
  intros Hos. revert past d. induction Hos as [|o e os es [Hl He] Hos IH]; intros past d Hd Hs Hsm w0 Hw; simpl.
  - apply looks_ret. by rewrite app_nil_r.
  - eapply (looks_bind _ _ (unless_starved (dump_ok s (past ++ [e])))).
    { eapply looks_bind; [apply (looks_run _ e (λ b _, b = e)); [by apply He|done]|]. intros ? ev lg ->.
      eapply looks_mono; [eapply dump_append_looks; [done..|]; rewrite length_app in Hsm; simpl in Hsm; lia|]. intros [d'|] ev' H; [exact H|].
      by apply starved_app_l. }
    intros [d'|] ev lg Hr; cbv beta in Hr; [|apply looks_ret; by apply starved_app_r].
    eapply looks_mono; [apply IH; [exact Hr|done|by rewrite <-app_assoc|auto]|].
    intros [d''|] ev' H; simpl in *; [by rewrite <-app_assoc in H|by apply starved_app_l].
Qed.
End objects.

(** What a dump leaves to its caller, for the machines [xs] and their structures [es]. *)
Definition dump_answer (s : struct) (mclag_id : Z) (xs : list CSM) (es : list (list Z))
  (r : option dump_buf * Z) (ev : list event) : Prop :=
  match r with
  | (Some d, ret) =>
      dump_ok s es d
      ∧ ret = (if (mclag_id >? 0) && bool_decide (xs = []) then EXEC_TYPE_NO_EXIST_MCLAGID else EXEC_TYPE_SUCCESS)
  | (None, ret) => ret = EXEC_TYPE_FAILED ∧ starved ev
  end.

Lemma dump_end_answer s id xs es (r : option (bool * dump_buf)) ev :
  unless_starved (λ '(b, d), dump_ok s es d ∧ b = (id >? 0) && negb (bool_decide (xs = []))) r ev →
  dump_answer s id xs es (dump_end id r) ev.
Proof.
  destruct r as [[b d]|]; [|done]. intros [Hd ->]. split; [done|].
  by destruct (id >? 0), (bool_decide (xs = [])).
Qed.

Lemma answer_later s id xs es r ev ev' : dump_answer s id xs es r ev → dump_answer s id xs es r (ev ++ ev').
Proof. destruct r as [[d|] ret]; simpl; [done|]. intros [-> H]. split; [done|]. by apply starved_app_l. Qed.

Lemma dump_objects_looks s (g : CSM → list (list Z)) id f w :
  csms_linked w → (MCLAGD_REPLY_INFO_HDR + sizeof s ≤ Z.to_nat MCLAGDCTL_CMD_SIZE)%nat →
  (∀ c x past d w0, x ∈ selected id w → w_csms w !! c = Some x → memory w w0 → dump_ok s past d →
     (length (past ++ g x) ≤ length (concat (g <$> selected id w)))%nat →
     looks (f c d) (unless_starved (dump_ok s (past ++ g x))) w0) →
  looks (dump_objects id f) (dump_answer s id (selected id w) (concat (g <$> selected id w))) w.
Proof.
  intros Hl Hs Hf. unfold dump_objects. eapply looks_bind; [by apply (dump_alloc_looks s)|].
  intros [d|] ev lg Hd; cbv beta in Hd; [|by apply looks_ret].
  eapply looks_bind.
  - apply (dump_machines_looks (λ xs d, dump_ok s (concat (g <$> xs)) d) id f (after ev lg w)); [exact Hl| |exact Hd].
    intros c x past d' w0 [more Hx] Hc Hw HI. change (selected id (after ev lg w)) with (selected id w) in Hx.
    rewrite fmap_app, concat_app. simpl. rewrite app_nil_r.
    apply (Hf c x); [|done| |done|].
    + rewrite Hx, <-app_assoc. apply elem_of_app. right. left.
    + destruct Hw as (ev1 & lg1 & ->). auto.
    + rewrite Hx, !fmap_app, !concat_app, !length_app. simpl. rewrite app_nil_r. lia.
  - intros r ev' lg' Hr. apply looks_ret. apply (answer_later _ _ _ _ _ _ _ (dump_end_answer _ _ _ _ _ _ Hr)).
Qed.

(** A walk over the objects of the machine, as the dumps begin. *)
Lemma machine_walk_looks {O} s (objs : CSM → list O) (entry : O → W (list Z)) w c x es past d w0 :
  (sizeof s ≤ Z.to_nat MCLAGDCTL_CMD_SIZE)%nat →
  w_csms w !! c = Some x → memory w w0 → dump_ok s past d → Forall2 (shows s entry w) (objs x) es →
  Z.of_nat (length (past ++ es)) + 1 < 2 ^ 31 →
  looks (csm ← deref w_csms c; dump_walk (objs csm) (λ o d, e ← entry o; dump_append s e d) d)
    (unless_starved (dump_ok s (past ++ es))) w0.
Proof.
  intros Hs Hc Hw Hd Hes Hsm. eapply looks_bind; [apply (looks_run _ x (λ y _, y = x)); [|done]|].
  - destruct Hw as (ev & lg & ->). by apply deref_run.
  - intros ? ev lg ->. eapply looks_mono; [apply (objects_looks s entry w _ es past); auto|].
    intros [d'|] ev' H; [done|]. by apply starved_app_l.
Qed.

Lemma walk_app {A D} (l1 l2 : list A) (f : A → D → W (option D)) d w :
  dump_walk (l1 ++ l2) f d w
  = (r ← dump_walk l1 f d; match r with None => mret None | Some d => dump_walk l2 f d end) w.
Proof.
  revert d w. induction l1 as [|x l1 IH]; intros d w; simpl; [done|]. rewrite bind_assoc.
  destruct (f x d w) as [[d'|] w'|] eqn:E; [|by unfold mbind, M_bind; rewrite E..].
  rewrite !(bind_ok _ _ _ _ _ E). apply IH.
Qed.

Lemma walk_fmap {A B D} (h : A → B) (l : list A) (f : B → D → W (option D)) d w :
  dump_walk (h <$> l) f d w = dump_walk l (λ x, f (h x)) d w.
Proof.
  revert d w. induction l as [|x l IH]; intros d w; simpl; [done|].
  unfold mbind, M_bind. destruct (f (h x) d w) as [[d'|] w'|]; [apply IH|done|done].
Qed.

(** ** Writing the reply *)

(** The socket takes at least a byte of what it is given. *)
Definition accepts (env : list event → syscall → Z) : Prop :=
  ∀ tr fd data, data ≠ [] → 0 < env tr (SysWrite fd data) ≤ Z.of_nat (length data).

(** The daemon wrote to [fd] a beginning of [bytes], all of it to a socket that accepts. *)
Definition answered (fd : Z) (bytes : list Z) (w : World) (ev : list event) : Prop :=
  wrote fd ev `prefix_of` bytes ∧ (accepts (w_env w) → wrote fd ev = bytes).

Lemma wrote_one fd e : wrote fd [e] = put_on fd e.
Proof. unfold wrote. rewrite reverse_singleton. cbn [map concat]. apply app_nil_r. Qed.

(** The reply is at the start of its buffer. *)
Lemma ctl_write_run fuel fd bytes tail n w :
  (n ≤ length bytes)%nat → (length bytes - n < fuel)%nat →
  ∃ ret ev lg, ctl_write_loop fuel fd (bytes ++ tail) (Z.of_nat n) (Z.of_nat (length bytes)) w = Ok ret (after ev lg w)
    ∧ answered fd (drop n bytes) w ev.
Proof.
  revert n w. induction fuel as [|f IH]; intros n w Hn Hf; [lia|]. simpl.
  rewrite Z.geb_leb. destruct (Z.leb_spec (Z.of_nat (length bytes)) (Z.of_nat n)) as [Hle|Hgt].
  { eexists _, [], (w_logger w). rewrite after_nil. split; [reflexivity|].
    rewrite drop_ge by lia. split; [apply prefix_nil|done]. }
  set (rest := drop n bytes).
  assert (length rest = (length bytes - n)%nat) as Hr by (unfold rest; by rewrite length_drop).
  assert (rd_bytes (Z.to_nat (Z.of_nat n)) (Z.to_nat (Z.of_nat (length bytes) - Z.of_nat n)) (bytes ++ tail) = Some rest)
    as ->.
  { unfold rd_bytes. rewrite Nat2Z.id, (proj2 (Nat.leb_le _ _)) by (rewrite length_app; lia). f_equal.
    rewrite drop_app_le by lia. fold rest. rewrite take_app_le by lia. apply take_ge. lia. }
  rewrite (oob_bind _ rest), sys_bind by done. set (r := w_env w (w_trace w) (SysWrite fd rest)).
  set (e := (SysWrite fd rest, r)).
  assert (put_on fd e = take (Z.to_nat r) rest) as He by (simpl; by rewrite Z.eqb_refl).
  destruct (Z.leb_spec r 0) as [Hz|Hpos].
  { exists 0, [e], (w_logger w). split; [by destruct w|]. split; rewrite wrote_one, He.
    - apply prefix_take.
    - intros Hacc. assert (rest ≠ []) as Hne by (intros H0; rewrite H0 in Hr; simpl in Hr; lia).
      pose proof (Hacc (w_trace w) fd rest Hne). fold r in H. lia. }
  set (w1 := w <| w_trace ::= cons e |>).
  destruct (Z.le_gt_cases r (Z.of_nat (length rest))) as [Hle|Hbig].
  - destruct (IH (n + Z.to_nat r)%nat w1) as (ret & ev & lg & E & Hp & Ha); [lia|lia|].
    replace (Z.of_nat n + r) with (Z.of_nat (n + Z.to_nat r)) by lia. rewrite E.
    exists ret, (ev ++ [e]), lg. split; [unfold after, w1; simpl; by rewrite <-app_assoc|].
    assert (rest = take (Z.to_nat r) rest ++ drop (n + Z.to_nat r) bytes) as Hsplit.
    { rewrite <-(take_drop (Z.to_nat r) rest) at 1. f_equal. unfold rest. by rewrite drop_drop. }
    split; rewrite wrote_app, wrote_one, He.
    + rewrite Hsplit at 2. by apply prefix_app.
    + intros Hacc. rewrite (Ha Hacc). by symmetry.
  - destruct f as [|f]; [lia|]. simpl. rewrite Z.geb_leb, (proj2 (Z.leb_le _ _)) by lia.
    exists (Z.of_nat n + r), [e], (w_logger w). split; [by destruct w|].
    split; rewrite wrote_one, He, take_ge by lia; done.
Qed.
