(* ===== verification/ShowReply.v ===== *)
(** * Replies to the show commands

    The objects of a well-formed memory can all be shown, and the reply to a show
    command is the header and the structures of the objects of the machines asked for,
    in the order of the lists and trees. *)

From S2P Require Import Prelude CMem CString MsgFormat ShowFormat State Machine IccpMsg IccpQueue SyncPrepare.
From S2P Require Import Port Show Scheduler Control ShowFacts Boot IccpCsm.
#[local] Open Scope Z_scope.

(** ** Structures *)

Lemma put_fits off bs buf : (off + length bs ≤ length buf)%nat →
  ∃ buf', put off bs buf = Some buf' ∧ length buf' = length buf.
Proof.
  intros H. destruct (put off bs buf) as [b|] eqn:E.
  - exists b. split; [done|]. by eapply put_length.
  - unfold put in E. by rewrite (proj2 (Nat.leb_le _ _)) in E by lia.
Qed.

(** Plain assignments inside the structure succeed. *)
Definition plain (n : nat) (s : store) : Prop :=
  match s with
  | WBits _ _ _ _ | WSwap16 _ => False
  | _ => (store_end s ≤ n)%nat
  end.

Lemma stores_fit ss buf : Forall (plain (length buf)) ss →
  ∃ buf', apply_stores ss buf = Some buf' ∧ length buf' = length buf.
Proof.
  revert buf. induction ss as [|s ss IH]; intros buf H; [by exists buf|].
  apply Forall_cons in H as [Hs Hss]. simpl.
  assert (∃ b, apply_store s buf = Some b ∧ length b = length buf) as (b & -> & Hb).
  { destruct s; simpl in *; try done; apply put_fits; simpl; lia. }
  simpl. destruct (IH b) as (b' & -> & Hb'); [by rewrite Hb|]. exists b'. by rewrite Hb', Hb.
Qed.

Lemma filled_run s ss : Forall (plain (sizeof s)) ss →
  ∃ e, length e = sizeof s ∧ ∀ w, filled s ss w = Ok e w.
Proof.
  intros H. destruct (stores_fit ss (replicate (sizeof s) 0)) as (e & E & He); rewrite length_replicate in *; [done|].
  exists e. split; [done|]. intros w. unfold filled. by rewrite E.
Qed.

Lemma copy_run n l w : (n ≤ length l)%nat → copy n l w = Ok (take n l) w.
Proof. intros H. unfold copy, rd_bytes. rewrite (proj2 (Nat.leb_le _ _)) by lia. done. Qed.

Lemma copy_bind {A} n l (k : list Z → W A) w : (n ≤ length l)%nat → (b ← copy n l; k b) w = k (take n l) w.
Proof. intros H. by rewrite (bind_ok _ _ _ _ _ (copy_run n l w H)). Qed.

(** The assignments of a structure, one goal for each that is not closed. *)
Ltac fits :=
  unfold ETHER_ADDR_LEN, MAX_L_PORT_NAME, ICCP_MAX_IP_STR_LEN, ICCP_MAX_PORT_NAME, MCLAGDCTL_PARA3_LEN in *;
  repeat (apply Forall_cons; split); try apply Forall_nil;
  cbn [plain store_end]; eval_layout; rewrite ?length_take; try lia.

(** ** The list of VLANs *)

Lemma digits_length fuel n k acc : (0 < k)%nat → 0 ≤ n < 10 ^ Z.of_nat k →
  (length (digits fuel n acc) ≤ k + length acc)%nat.
Proof.
  revert n k acc. induction fuel as [|f IH]; intros n k acc Hk Hn; simpl; [lia|].
  destruct (Z.eqb_spec (n / 10) 0) as [H0|H0]; [simpl; lia|].
  destruct k as [|k]; [lia|]. rewrite Nat2Z.inj_succ, Z.pow_succ_r in Hn by lia.
  assert (0 < k)%nat as Hk'.
  { destruct k; [|lia]. exfalso. apply H0. apply Z.div_small. simpl in Hn. lia. }
  specialize (IH (n / 10) k ((48 + n mod 10) :: acc) Hk'). simpl in IH.
  assert (0 ≤ n / 10 < 10 ^ Z.of_nat k) as Hq.
  { split; [apply Z.div_pos; lia|]. apply Z.div_lt_upper_bound; lia. }
  specialize (IH Hq). lia.
Qed.

(** A VLAN identifier is a [uint16_t]: at most five digits. *)
Definition vid_ok (v : Z) : Prop := 0 ≤ v < 2 ^ 16.

Lemma fmt_vid_length v : vid_ok v → (length (fmt_d v) ≤ 5)%nat.
Proof.
  intros H. unfold vid_ok in H. unfold fmt_d. rewrite (proj2 (Z.ltb_ge _ _)) by lia.
  pose proof (digits_length 10 v 5 [] (Nat.lt_0_succ 4)) as Hd. cbn [length] in Hd. rewrite Nat.add_0_r in Hd.
  apply Hd. change (10 ^ Z.of_nat 5) with 100000. change (2 ^ 16) with 65536 in H. lia.
Qed.

(** The array keeps its size and its last byte, which ends the string. *)
Record vlan_inv (t : vlan_text) : Prop := {
  vi_len : 0 ≤ vt_len t;
  vi_buf : length (vt_buf t) = MCLAGDCTL_PARA3_LEN;
  vi_nul : vt_buf t !! 63%nat = Some 0;
  vi_prev : vid_ok (vt_prev t)
}.

Lemma put_keeps off bs buf buf' i : put off bs buf = Some buf' → (off + length bs ≤ i)%nat → buf' !! i = buf !! i.
Proof.
  unfold put. destruct (Nat.leb_spec (off + length bs) (length buf)) as [H|]; [|done]. intros [= <-] Hi.
  rewrite app_assoc, lookup_app_r; rewrite length_app, length_take, Nat.min_l by lia; [|lia].
  rewrite lookup_drop. f_equal. lia.
Qed.

Lemma vlan_print_ok text t : vlan_inv t → vt_len t ≤ VLAN_STR_SIZE →
  ∃ t', vlan_print text t = Some t' ∧ vlan_inv t' ∧ vt_len t' = vt_len t + Z.of_nat (length text)
    ∧ vt_prev t' = vt_prev t ∧ vt_range t' = vt_range t.
Proof.
  intros [Hl Hb Hn Hp] Hs. unfold vlan_print, snprintf_at.
  change VLAN_STR_SIZE with 63 in *. change MCLAGDCTL_PARA3_LEN with 64%nat in *.
  replace (u64 (63 - vt_len t)) with (63 - vt_len t) by (unfold u64; rewrite Z.mod_small; lia).
  destruct (Z.eqb_spec (63 - vt_len t) 0) as [H0|H0]; [|].
  { simpl. eexists. split; [done|]. split; [|done]. split; simpl; [lia|done..]. }
  set (txt := (if 63 - vt_len t - 1 <? Z.of_nat (length text)
               then take (Z.to_nat (63 - vt_len t - 1)) text else text) ++ [0]).
  assert (Z.to_nat (vt_len t) + length txt ≤ 63)%nat as Ht.
  { unfold txt. rewrite length_app. simpl. destruct (Z.ltb_spec (63 - vt_len t - 1) (Z.of_nat (length text)));
      rewrite ?length_take; lia. }
  destruct (put_fits (Z.to_nat (vt_len t)) txt (vt_buf t)) as (b & E & Hlb); [lia|]. rewrite E. simpl.
  eexists. split; [done|]. split; [|done]. split; simpl; [lia|by rewrite Hlb| |done].
  rewrite (put_keeps _ _ _ _ 63 E Ht). done.
Qed.

Lemma vlan_loop_ok vs t : Forall (λ v, vid_ok (vid v)) vs → vlan_inv t →
  ∃ t', vlan_loop vs t = Some t' ∧ vlan_inv t'.
Proof.
  intros Hvs. revert t. induction Hvs as [|v vs Hv Hvs IH]; intros t Ht; cbn [vlan_loop]; [by eauto|].
  destruct (Z.ltb_spec (VLAN_STR_SIZE - vt_len t) 4) as [|Hroom]; [by eauto|].
  destruct ((vt_prev t =? 0) || negb (vid v =? vt_prev t + 1)).
  2: { apply IH. destruct Ht. split; done. }
  destruct (vt_range t && (VLAN_STR_SIZE - vt_len t <? vlan_room (vt_range t))) eqn:Hr; [by eauto|].
  assert (∃ t1, (if vt_range t then vlan_print (str "- " ++ fmt_d (vt_prev t) ++ [32]) t else Some t) = Some t1
    ∧ vlan_inv t1 ∧ vt_len t1 ≤ VLAN_STR_SIZE) as (t1 & -> & Ht1 & Hl1).
  { destruct (vt_range t); [|exists t; split; [done|split; [done|lia]]].
    destruct (vlan_print_ok (str "- " ++ fmt_d (vt_prev t) ++ [32]) t) as (t1 & E & Hi & Hl & _); [done|lia|].
    exists t1. split; [done|]. split; [done|]. rewrite Hl, !length_app.
    pose proof (fmt_vid_length (vt_prev t) (vi_prev t Ht)). unfold vlan_room in Hr. simpl in Hr |- *. lia. }
  cbn [mbind option_bind].
  destruct (vlan_print_ok (fmt_d (vid v) ++ [32]) t1) as (t2 & E & Hi & _); [done|done|].
  rewrite E. cbn [mbind option_bind]. apply IH. destruct Hi. split; done.
Qed.

Lemma vlanlist_ok vs : Forall (λ v, vid_ok (vid v)) vs →
  ∃ b, vlanlist vs = Some b ∧ length b = MCLAGDCTL_PARA3_LEN ∧ last b = Some 0.
Proof.
  intros Hvs. unfold vlanlist.
  destruct (vlan_loop_ok vs (VlanText (replicate MCLAGDCTL_PARA3_LEN 0) 0 0 false false) Hvs) as (t & E & Ht).
  { split; done. }
  rewrite E. cbn [mbind option_bind].
  assert (∀ t, vlan_inv t → length (vt_buf t) = MCLAGDCTL_PARA3_LEN ∧ last (vt_buf t) = Some 0) as Hend.
  { intros t' [_ Hb Hn _]. split; [done|]. by rewrite last_lookup, Hb. }
  destruct (_ && _ && _) eqn:Hc; [|by eauto].
  destruct (vlan_print_ok ((if vt_range t then str "- " else []) ++ fmt_d (vt_prev t) ++ [32]) t)
    as (t' & E' & Hi & _); [done| |rewrite E'; by eauto].
  unfold vlan_room in Hc. destruct (vt_range t); lia.
Qed.

(** ** Objects that can be shown

    The arrays of an object have their sizes. *)

Definition mac_fits (m : MACMsg) : Prop :=
  length (mac_ifname m) = MAX_L_PORT_NAME ∧ length (mac_origin_ifname m) = MAX_L_PORT_NAME.

Definition pif_fits (x : PeerInterface) : Prop :=
  length (pif_name x) = MAX_L_PORT_NAME ∧ length (pif_mac_addr x) = ETHER_ADDR_LEN.

Definition lif_fits (l : LocalInterface) : Prop :=
  length (lif_name l) = MAX_L_PORT_NAME ∧ length (lif_mac_addr l) = ETHER_ADDR_LEN
  ∧ length (lif_portchannel_member_buf l) = 512%nat ∧ Forall (λ v, vid_ok (vid v)) (lif_vlan_tree l).

Lemma if_type_text_length n t : (length (if_type_text n t) ≤ 11)%nat.
Proof.
  unfold if_type_text. destruct (t =? IF_T_UNKNOW); [rewrite length_take; simpl; lia|].
  destruct (t =? IF_T_PORT); [simpl; lia|]. destruct (t =? IF_T_PORT_CHANNEL); simpl; lia.
Qed.

Lemma if_state_text_length t : (length (if_state_text t) ≤ 10)%nat.
Proof. unfold if_state_text. repeat case_match; simpl; lia. Qed.

Lemma mlacp_state_text_length t : (length (mlacp_state_text t) ≤ 8)%nat.
Proof. unfold mlacp_state_text. repeat case_match; simpl; lia. Qed.

(** The objects of the memory [w] and the structures of them *)
Section shown.
Context (w : World).

Lemma mac_shows p m : w_macs w !! p = Some m → mac_fits m → ∃ e, shows mclagd_mac_msg mac_show w p e.
Proof.
  intros Hp [Hn Ho]. destruct (filled_run mclagd_mac_msg (mac_stores m)) as (e & He & E).
  { pose proof (cstr_length (mac_ifname m)). pose proof (cstr_length (mac_origin_ifname m)).
    unfold mac_stores. fits. }
  exists e. split; [done|]. intros w0 (ev & lg & ->). unfold mac_show. by rewrite (deref_bind w_macs p m).
Qed.

(** Computations that only read *)
Definition reads {A} (m : W A) (a : A) : Prop := ∀ w, m w = Ok a w.

Lemma reads_bind {A B} (m : W A) a (k : A → W B) w0 : reads m a → (x ← m; k x) w0 = k a w0.
Proof. intros H. by rewrite (bind_ok _ _ _ _ _ (H w0)). Qed.

(** A member of a message of the right size *)
Lemma field_u8_run s name b : (offsetof s name + 1 ≤ length b)%nat → ∃ v, reads (field_u8 s name b) v.
Proof.
  intros H. destruct (lookup_lt_is_Some_2 b (offsetof s name)) as [v E]; [lia|]. exists v. intros w0.
  unfold field_u8, rd8. by rewrite E.
Qed.
Lemma field_u32_run s name b : (offsetof s name + 4 ≤ length b)%nat → ∃ v, reads (field_u32 s name b) v.
Proof.
  intros H. destruct (lookup_lt_is_Some_2 b (offsetof s name)) as [v0 E0]; [lia|].
  destruct (lookup_lt_is_Some_2 b (offsetof s name + 1)) as [v1 E1]; [lia|].
  destruct (lookup_lt_is_Some_2 b (offsetof s name + 2)) as [v2 E2]; [lia|].
  destruct (lookup_lt_is_Some_2 b (offsetof s name + 2 + 1)) as [v3 E3]; [lia|].
  eexists. intros w0. unfold field_u32, rd32, rd16, rd8. rewrite E0, E1. simpl. by rewrite E2, E3.
Qed.
Lemma field_bytes_run s name n b : (offsetof s name + n ≤ length b)%nat →
  reads (field_bytes s name n b) (take n (drop (offsetof s name) b)).
Proof. intros H w0. unfold field_bytes, rd_bytes. by rewrite (proj2 (Nat.leb_le _ _)) by lia. Qed.

(** A member of the messages of neighbours: the offsets are computed. *)
Ltac member_in H := revert H; eval_layout; intros H; unfold MAX_L_PORT_NAME, ETHER_ADDR_LEN; lia.

Lemma arp_shows m : length (msg_buf m) = sizeof ARPMsg →
  ∃ e, shows mclagd_arp_msg (λ m, arp_show (msg_buf m)) w m e.
Proof.
  intros Hl. set (b := msg_buf m) in *.
  destruct (field_u8_run ARPMsg "op_type" b) as [op Hop]; [member_in Hl|].
  destruct (field_u8_run ARPMsg "learn_flag" b) as [learn Hlearn]; [member_in Hl|].
  destruct (field_u32_run ARPMsg "ipv4_addr" b) as [ip Hip]; [member_in Hl|].
  pose proof (field_bytes_run ARPMsg "ifname" MAX_L_PORT_NAME b) as Hname.
  pose proof (field_bytes_run ARPMsg "mac_addr" ETHER_ADDR_LEN b) as Hmac.
  set (name := take MAX_L_PORT_NAME _) in Hname. set (mac := take ETHER_ADDR_LEN _) in Hmac.
  destruct (filled_run mclagd_arp_msg
    [W8 (offsetof mclagd_arp_msg "op_type") op; W8 (offsetof mclagd_arp_msg "learn_flag") learn;
     WB (offsetof mclagd_arp_msg "ifname") (cstr name);
     WB (offsetof mclagd_arp_msg "ipv4_addr") (take 16 (show_ip_str ip));
     WB (offsetof mclagd_arp_msg "mac_addr") mac]) as (e & He & E).
  { pose proof (cstr_length name). assert (length name ≤ 20)%nat by (unfold name, MAX_L_PORT_NAME; rewrite length_take; lia).
    assert (length mac ≤ 6)%nat by (unfold mac, ETHER_ADDR_LEN; rewrite length_take; lia). fits. }
  exists e. split; [done|]. intros w0 _. unfold arp_show. rewrite (reads_bind _ op), (reads_bind _ learn) by done.
  rewrite (reads_bind _ name) by (apply Hname; member_in Hl). rewrite (reads_bind _ ip) by done.
  rewrite (reads_bind _ mac) by (apply Hmac; member_in Hl). apply E.
Qed.

Lemma ndisc_shows m : length (msg_buf m) = sizeof NDISCMsg →
  ∃ e, shows mclagd_ndisc_msg (λ m, ndisc_show (msg_buf m)) w m e.
Proof.
  intros Hl. set (b := msg_buf m) in *.
  destruct (field_u8_run NDISCMsg "op_type" b) as [op Hop]; [member_in Hl|].
  destruct (field_u8_run NDISCMsg "learn_flag" b) as [learn Hlearn]; [member_in Hl|].
  pose proof (field_bytes_run NDISCMsg "ifname" MAX_L_PORT_NAME b) as Hname.
  pose proof (field_bytes_run NDISCMsg "ipv6_addr" 16 b) as Hip.
  pose proof (field_bytes_run NDISCMsg "mac_addr" ETHER_ADDR_LEN b) as Hmac.
  set (name := take MAX_L_PORT_NAME _) in Hname. set (mac := take ETHER_ADDR_LEN _) in Hmac. set (ip := take 16 _) in Hip.
  destruct (filled_run mclagd_ndisc_msg
    [W8 (offsetof mclagd_ndisc_msg "op_type") op; W8 (offsetof mclagd_ndisc_msg "learn_flag") learn;
     WB (offsetof mclagd_ndisc_msg "ifname") (cstr name);
     WB (offsetof mclagd_ndisc_msg "ipv6_addr") (take 46 (show_ipv6_str ip));
     WB (offsetof mclagd_ndisc_msg "mac_addr") mac]) as (e & He & E).
  { pose proof (cstr_length name). assert (length name ≤ 20)%nat by (unfold name, MAX_L_PORT_NAME; rewrite length_take; lia).
    assert (length mac ≤ 6)%nat by (unfold mac, ETHER_ADDR_LEN; rewrite length_take; lia). fits. }
  exists e. split; [done|]. intros w0 _. unfold ndisc_show. rewrite (reads_bind _ op), (reads_bind _ learn) by done.
  rewrite (reads_bind _ name) by (apply Hname; member_in Hl).
  rewrite (reads_bind _ ip) by (apply Hip; member_in Hl).
  rewrite (reads_bind _ mac) by (apply Hmac; member_in Hl). apply E.
Qed.

Lemma pif_shows p x : w_pifs w !! p = Some x → pif_fits x → ∃ e, shows mclagd_peer_if peer_if_show w p e.
Proof.
  intros Hp [Hn Hm]. eassert (Forall _ _) as Hss; [|destruct (filled_run mclagd_peer_if _ Hss) as (e & He & E)].
  2: { exists e. split; [done|]. intros w0 (ev & lg & ->). unfold peer_if_show. cbv zeta.
       rewrite (deref_bind w_pifs p x), !copy_bind by (done || lia). apply E. }
  pose proof (if_type_text_length 6 (pif_type x)). pose proof (if_state_text_length (pif_state x)). fits.
Qed.

Lemma lif_shows n p l : w_lifs w !! p = Some l → p ≠ NULL → lif_fits l →
  ∃ e, shows mclagd_local_if (local_if_show n) w p e.
Proof.
  intros Hp Hnull (Hn & Hm & Hb & Hv). destruct (vlanlist_ok _ Hv) as (b & Ev & Hvl & _).
  eassert (Forall _ _) as Hss; [|destruct (filled_run mclagd_local_if _ Hss) as (e & He & E)].
  2: { exists e. split; [done|]. intros w0 (ev & lg & ->). unfold local_if_show. cbv zeta.
       rewrite (deref_bind w_lifs p l), !copy_bind by (done || lia).
       unfold local_if_is_l3_mode. rewrite eqb_null by done.
       rewrite bind_assoc, (deref_bind w_lifs p l), (reads_bind _ (is_l3 l)), copy_bind by (done || lia).
       rewrite (oob_bind _ b) by done. apply E. }
  pose proof (if_type_text_length n (lif_type l)). pose proof (if_state_text_length (lif_state l)).
  pose proof (mlacp_state_text_length (lif_mlacp_state l)). fits.
Qed.
End shown.

(** ** The reply *)

Definition header (info_type data_len result : Z) : list Z :=
  le32 (data_len + Z.of_nat (sizeof mclagd_reply_hdr)) ++ le32 info_type ++ le32 data_len ++ le32 result.

(** The reply without data, and the one with the structures [es]. *)
Definition error_reply (info_type result : Z) : list Z := header info_type 0 result.
Definition data_reply (info_type : Z) (es : list (list Z)) : list Z :=
  header info_type (Z.of_nat (length (concat es))) EXEC_TYPE_SUCCESS ++ concat es.

Lemma header_length i n r : length (header i n r) = MCLAGD_REPLY_INFO_HDR.
Proof. reflexivity. Qed.

Lemma header_stores hd rest i n r : length hd = MCLAGD_REPLY_INFO_HDR →
  apply_stores (reply_stores i n r) (hd ++ rest) = Some (header i n r ++ rest).
Proof.
  intros Hl. change MCLAGD_REPLY_INFO_HDR with 16%nat in Hl.
  rewrite apply_stores_prefix by (rewrite Hl; repeat constructor; cbn [store_end reply_stores]; eval_layout; lia).
  do 16 (destruct hd as [|? hd]; [discriminate Hl|]). destruct hd; [|discriminate Hl]. reflexivity.
Qed.

(** The length of a reply with the structures [es] is an [int]. *)
Definition reply_fits (es : list (list Z)) : Prop :=
  Z.of_nat MCLAGD_REPLY_INFO_HDR + Z.of_nat (length (concat es)) < 2 ^ 31.

Section replies.
Context (fd : Z).

Lemma reply_write_run bytes tail w :
  ∃ ret ev lg, mclagd_ctl_sock_write fd (bytes ++ tail) (Z.of_nat (length bytes)) w = Ok ret (after ev lg w)
    ∧ answered fd bytes w ev.
Proof. unfold mclagd_ctl_sock_write. apply (ctl_write_run _ fd bytes tail 0 w); lia. Qed.

Lemma reply_error_run info ret w :
  ∃ ev lg, reply_error fd info ret w = Ok tt (after ev lg w) ∧ answered fd (error_reply info ret) w ev.
Proof.
  unfold reply_error. rewrite (oob_bind _ (header info 0 ret ++ replicate 496 0)).
  2: { change (replicate 512 0) with (replicate 16 0 ++ replicate 496 0). by apply header_stores. }
  destruct (reply_write_run (header info 0 ret) (replicate 496 0) w) as (n & ev & lg & E & Ha).
  rewrite header_length in E. rewrite (bind_ok _ _ _ _ _ E). by exists ev, lg.
Qed.

Lemma reply_data_run s info es d w : dump_ok s es d → reply_fits es →
  ∃ ev lg, reply_data fd info (db_bytes d) (db_num d * Z.of_nat (sizeof s)) w = Ok tt (after ev lg w)
    ∧ answered fd (data_reply info es) w ev.
Proof.
  intros [Hsz Hi Hn Hl (hd & tl & Hb & Hh) Hr] Hfit. unfold reply_data, reply_fits in *.
  rewrite Hn, <-Nat2Z.inj_mul, <-(concat_length _ _ Hl), Hb. set (n := Z.of_nat (length (concat es))) in *.
  rewrite !(to_int_small n), to_int_small by lia.
  rewrite (oob_bind _ (data_reply info es ++ tl)).
  2: { unfold data_reply. rewrite <-app_assoc. by apply header_stores. }
  destruct (reply_write_run (data_reply info es) tl w) as (k & ev & lg & E & Ha).
  replace (Z.of_nat MCLAGD_REPLY_INFO_HDR + n) with (Z.of_nat (length (data_reply info es))).
  2: { unfold data_reply. rewrite length_app, header_length. lia. }
  rewrite (bind_ok _ _ _ _ _ E). by exists ev, lg.
Qed.
End replies.

(** ** The commands on the objects of the machines *)

Inductive show_kind : Type := ShowArp | ShowNdisc | ShowMac | ShowLocal | ShowPeer.

Definition show_struct (k : show_kind) : struct :=
  match k with
  | ShowArp => mclagd_arp_msg
  | ShowNdisc => mclagd_ndisc_msg
  | ShowMac => mclagd_mac_msg
  | ShowLocal => mclagd_local_if
  | ShowPeer => mclagd_peer_if
  end.

Definition show_info (k : show_kind) : Z :=
  match k with
  | ShowArp => INFO_TYPE_DUMP_ARP
  | ShowNdisc => INFO_TYPE_DUMP_NDISC
  | ShowMac => INFO_TYPE_DUMP_MAC
  | ShowLocal => INFO_TYPE_DUMP_LOCAL_PORTLIST
  | ShowPeer => INFO_TYPE_DUMP_PEER_PORTLIST
  end.

Definition show_handler (k : show_kind) : Z → Z → W unit :=
  match k with
  | ShowArp => mclagd_ctl_handle_dump_arp
  | ShowNdisc => mclagd_ctl_handle_dump_ndisc
  | ShowMac => mclagd_ctl_handle_dump_mac
  | ShowLocal => mclagd_ctl_handle_dump_local_portlist
  | ShowPeer => mclagd_ctl_handle_dump_peer_portlist
  end.

Definition show_dump (k : show_kind) : Z → W (option dump_buf * Z) :=
  match k with
  | ShowArp => iccp_arp_dump
  | ShowNdisc => iccp_ndisc_dump
  | ShowMac => iccp_mac_dump
  | ShowLocal => iccp_local_if_dump
  | ShowPeer => iccp_peer_if_dump
  end.

(** The interfaces of a machine: its port channels, then its peer link. *)
Definition local_objs (x : CSM) : list (nat * ptr) :=
  (pair 6%nat <$> lif_list (MLACP x)) ++ (if peer_link_if x =? NULL then [] else [(7%nat, peer_link_if x)]).

Definition local_obj_show (o : nat * ptr) : W (list Z) := local_if_show (fst o) (snd o).
Definition arp_msg_show (m : Msg) : W (list Z) := arp_show (msg_buf m).
Definition ndisc_msg_show (m : Msg) : W (list Z) := ndisc_show (msg_buf m).

(** The structures of the objects of a machine, in order. *)
Definition built {O} (entry : O → W (list Z)) (w : World) (o : O) : option (list Z) :=
  match entry o w with Ok e _ => Some e | Fault _ => None end.

Definition structures (k : show_kind) (w : World) (x : CSM) : list (list Z) :=
  match k with
  | ShowArp => omap (built arp_msg_show w) (arp_list (MLACP x))
  | ShowNdisc => omap (built ndisc_msg_show w) (ndisc_list (MLACP x))
  | ShowMac => omap (built mac_show w) (mac_rb (MLACP x))
  | ShowLocal => omap (built local_obj_show w) (local_objs x)
  | ShowPeer => omap (built peer_if_show w) (pif_list (MLACP x))
  end.

(** The objects of a machine are in memory and their arrays have their sizes. *)
Definition machine_fits (k : show_kind) (w : World) (x : CSM) : Prop :=
  match k with
  | ShowArp => Forall (λ m, length (msg_buf m) = sizeof ARPMsg) (arp_list (MLACP x))
  | ShowNdisc => Forall (λ m, length (msg_buf m) = sizeof NDISCMsg) (ndisc_list (MLACP x))
  | ShowMac => Forall (λ p, ∃ m, w_macs w !! p = Some m ∧ mac_fits m) (mac_rb (MLACP x))
  | ShowLocal =>
      Forall (λ o : nat * ptr, ∃ l, w_lifs w !! snd o = Some l ∧ snd o ≠ NULL ∧ lif_fits l) (local_objs x)
  | ShowPeer => Forall (λ p, ∃ y, w_pifs w !! p = Some y ∧ pif_fits y) (pif_list (MLACP x))
  end.

Lemma built_shows {O} s (entry : O → W (list Z)) w os :
  Forall (λ o, ∃ e, shows s entry w o e) os → Forall2 (shows s entry w) os (omap (built entry w) os).
Proof.
  induction 1 as [|o os (e & He) Hos IH]; simpl; [constructor|]. unfold built at 1.
  rewrite (proj2 He w) by done. by constructor.
Qed.

Lemma struct_fits k :
  (MCLAGD_REPLY_INFO_HDR + sizeof (show_struct k) ≤ Z.to_nat MCLAGDCTL_CMD_SIZE)%nat.
Proof. apply leb_complete. by destruct k. Qed.

Lemma struct_small k : (sizeof (show_struct k) ≤ Z.to_nat MCLAGDCTL_CMD_SIZE)%nat.
Proof. pose proof (struct_fits k). lia. Qed.

(** The structures of a machine whose objects fit *)
Lemma machine_shows k w x : machine_fits k w x →
  match k with
  | ShowArp => Forall2 (shows mclagd_arp_msg arp_msg_show w) (arp_list (MLACP x)) (structures k w x)
  | ShowNdisc => Forall2 (shows mclagd_ndisc_msg ndisc_msg_show w) (ndisc_list (MLACP x)) (structures k w x)
  | ShowMac => Forall2 (shows mclagd_mac_msg mac_show w) (mac_rb (MLACP x)) (structures k w x)
  | ShowLocal => Forall2 (shows mclagd_local_if local_obj_show w) (local_objs x) (structures k w x)
  | ShowPeer => Forall2 (shows mclagd_peer_if peer_if_show w) (pif_list (MLACP x)) (structures k w x)
  end.
Proof.
  destruct k; simpl; intros H; apply built_shows; (eapply Forall_impl; [exact H|]); simpl.
  - intros m. apply arp_shows.
  - intros m. apply ndisc_shows.
  - intros p (m & Hp & Hm). by eapply mac_shows.
  - intros [n p] (l & Hp & Hnull & Hl). destruct (lif_shows w n p l) as (e & He & E); [done..|]. by exists e.
  - intros p (y & Hp & Hy). by eapply pif_shows.
Qed.

(** The loop of [iccp_local_if_dump] and the peer link behind it are one walk. *)
Lemma local_walk x d w0 :
  (r ← dump_walk (lif_list (MLACP x)) (λ p d, e ← local_if_show 6 p; dump_append mclagd_local_if e d) d;
   match r with
   | None => mret None
   | Some d =>
       if peer_link_if x =? NULL then mret (Some d)
       else e ← local_if_show 7 (peer_link_if x); dump_append mclagd_local_if e d
   end) w0
  = dump_walk (local_objs x) (λ o d, e ← local_obj_show o; dump_append mclagd_local_if e d) d w0.
Proof.
  unfold local_objs. rewrite walk_app.
  set (m1 := dump_walk _ _ d). set (m2 := dump_walk (pair 6%nat <$> _) _ d).
  assert (m2 w0 = m1 w0) as E by apply walk_fmap.
  destruct (m1 w0) as [r w1|] eqn:E1; [|by unfold mbind, M_bind; rewrite E, E1].
  rewrite (bind_ok _ _ _ _ _ E1), (bind_ok _ _ _ _ _ E). destruct r as [d'|]; [|done].
  destruct (peer_link_if x =? NULL); [done|]. cbn [dump_walk]. unfold local_obj_show. cbn [fst snd].
  set (m := local_if_show _ _ ≫= _). unfold mbind, M_bind. by destruct (m w1) as [[|]|].
Qed.

Lemma structures_length k w x : machine_fits k w x →
  Forall (λ e, length e = sizeof (show_struct k)) (structures k w x).
Proof.
  intros H%machine_shows. destruct k; simpl in H; (eapply Forall2_Forall_r; [exact H|]; apply Forall_true; by intros o e []).
Qed.

(** The structures of a reply that fits are fewer than an [int] counts. *)
Lemma reply_fits_count k w xs : Forall (machine_fits k w) xs →
  reply_fits (concat (structures k w <$> xs)) → Z.of_nat (length (concat (structures k w <$> xs))) + 1 < 2 ^ 31.
Proof.
  intros Hm Hf. unfold reply_fits in Hf. rewrite (concat_length (sizeof (show_struct k))) in Hf.
  - assert (0 < sizeof (show_struct k))%nat by (apply leb_complete; by destruct k).
    change MCLAGD_REPLY_INFO_HDR with 16%nat in Hf. nia.
  - clear Hf. induction Hm as [|x xs Hx Hm IH]; simpl; [constructor|].
    apply Forall_app. split; [by apply structures_length|done].
Qed.

Lemma reply_fits_le (a b : nat) : (a ≤ b)%nat → Z.of_nat b + 1 < 2 ^ 31 → Z.of_nat a + 1 < 2 ^ 31.
Proof. lia. Qed.

Lemma show_dump_looks k id w : csms_linked w → Forall (machine_fits k w) (selected id w) →
  reply_fits (concat (structures k w <$> selected id w)) →
  looks (show_dump k id)
    (dump_answer (show_struct k) id (selected id w) (concat (structures k w <$> selected id w))) w.
Proof.
  intros Hl Hfit Hrep. pose proof (reply_fits_count k w _ Hfit Hrep) as Hsm.
  destruct k;
    match goal with |- looks _ (dump_answer _ _ _ (concat (?g <$> _))) _ =>
      apply (dump_objects_looks _ g); [done|apply struct_fits|] end;
    intros c x past d w0 Hx Hc Hw Hd Hle; pose proof (reply_fits_le _ _ Hle Hsm) as Hsm';
    pose proof (machine_shows _ _ _ (proj1 (Forall_forall _ _) Hfit x Hx)) as Hes; cbv iota in Hes.
  - by apply (machine_walk_looks mclagd_arp_msg (λ x, arp_list (MLACP x)) arp_msg_show w c x); [apply (struct_small ShowArp)|..].
  - by apply (machine_walk_looks mclagd_ndisc_msg (λ x, ndisc_list (MLACP x)) ndisc_msg_show w c x); [apply (struct_small ShowNdisc)|..].
  - by apply (machine_walk_looks mclagd_mac_msg (λ x, mac_rb (MLACP x)) mac_show w c x); [apply (struct_small ShowMac)|..].
  - destruct (machine_walk_looks mclagd_local_if local_objs local_obj_show w c x _ past d w0 (struct_small ShowLocal) Hc Hw Hd Hes Hsm')
      as (r & ev & lg & E & H).
    exists r, ev, lg. split; [|exact H]. rewrite <-E.
    assert (w_csms w0 !! c = Some x) as Hc0 by (by destruct Hw as (ev0 & lg0 & ->)).
    rewrite !(deref_bind w_csms c x) by done. apply local_walk.
  - by apply (machine_walk_looks mclagd_peer_if (λ x, pif_list (MLACP x)) peer_if_show w c x); [apply (struct_small ShowPeer)|..].
Qed.

(** The reply to a command about the machines [xs] with the structures [es]. *)
Definition show_reply (k : show_kind) (id : Z) (xs : list CSM) (es : list (list Z)) : list Z :=
  if (id >? 0) && bool_decide (xs = []) then error_reply (show_info k) EXEC_TYPE_NO_EXIST_MCLAGID
  else data_reply (show_info k) es.

Lemma show_handler_dump k fd id :
  show_handler k fd id = (r ← show_dump k id; reply_dump fd (show_info k) (show_info k) (show_struct k) r).
Proof. by destruct k. Qed.

Lemma show_handler_run k fd id w :
  csms_linked w → Forall (machine_fits k w) (selected id w) →
  reply_fits (concat (structures k w <$> selected id w)) →
  ∃ ev lg reply,
    show_handler k fd id w = Ok tt (after ev lg w)
    ∧ (reply = show_reply k id (selected id w) (concat (structures k w <$> selected id w))
       ∨ reply = error_reply (show_info k) EXEC_TYPE_FAILED ∧ starved ev ∧ ¬ plentiful (w_env w))
    ∧ answered fd reply w ev.
Proof.
  intros Hl Hfit Hrep. destruct (show_dump_looks k id w Hl Hfit Hrep) as ([b ret] & ev & lg & E & Hs & N & Ha).
  rewrite show_handler_dump, (bind_ok _ _ _ _ _ E). unfold reply_dump.
  assert (∀ bytes ev', answered fd bytes (after ev lg w) ev' → answered fd bytes w (ev' ++ ev)) as Hans.
  { intros bytes ev' H. unfold answered. by rewrite wrote_app, Hs. }
  destruct b as [d|]; simpl in Ha; destruct Ha as [Hd Hret].
  - unfold show_reply. rewrite Hret. destruct ((id >? 0) && bool_decide (selected id w = [])); simpl.
    + destruct (reply_error_run fd (show_info k) EXEC_TYPE_NO_EXIST_MCLAGID (after ev lg w)) as (ev' & lg' & E' & H').
      rewrite E', after_after. exists (ev' ++ ev), lg', (error_reply (show_info k) EXEC_TYPE_NO_EXIST_MCLAGID).
      split; [done|]. split; [by left|]. by apply Hans.
    + destruct (reply_data_run fd (show_struct k) (show_info k) _ d (after ev lg w) Hd Hrep) as (ev' & lg' & E' & H').
      rewrite E', after_after. exists (ev' ++ ev), lg'. eexists. split; [done|]. split; [by left|]. by apply Hans.
  - subst ret. simpl.
    destruct (reply_error_run fd (show_info k) EXEC_TYPE_FAILED (after ev lg w)) as (ev' & lg' & E' & H').
    rewrite E', after_after. exists (ev' ++ ev), lg', (error_reply (show_info k) EXEC_TYPE_FAILED).
    split; [done|]. split; [|by apply Hans]. right. split; [done|]. split; [by apply starved_app_r|].
    intros Hp. by apply (plentiful_fed _ _ _ Hp N).
Qed.

(** C37. The reply to a show command about ARP entries, neighbour-discovery entries, MAC
    entries, local interfaces or peer interfaces.  In a memory whose pointers are valid and
    whose arrays have their sizes, when the whole reply is shorter than [2^31] bytes (the
    code counts it in an [int]) and whatever the environment does, the handler returns without leaving its buffer and without changing
    the daemon (but for the initialisation of the logger).  What it writes to the client is a
    beginning of one reply, all of it when the socket accepts what it is given: the structures
    of the objects of the machines asked for, each once and in order, behind a header with
    their length, or an error when no machine has the identifier.  Only when an allocation
    failed is it the error that says so. *)
Theorem show_reply_exact k fd id w :
  csms_linked w → Forall (machine_fits k w) (selected id w) →
  reply_fits (concat (structures k w <$> selected id w)) →
  ∃ ev lg reply,
    show_handler k fd id w = Ok tt (after ev lg w)
    ∧ (reply = show_reply k id (selected id w) (concat (structures k w <$> selected id w))
       ∨ reply = error_reply (show_info k) EXEC_TYPE_FAILED ∧ starved ev ∧ ¬ plentiful (w_env w))
    ∧ wrote fd ev `prefix_of` reply ∧ (accepts (w_env w) → wrote fd ev = reply).
Proof. apply show_handler_run. Qed.

(** A daemon with the domain 100 and one MAC entry. *)
Definition shown_mac : MACMsg := {|
  mac_vid := 10; mac_addr := [2; 0; 0; 0; 0; 7]; mac_op_type := MAC_SYNC_ADD; mac_fdb_type := MAC_TYPE_DYNAMIC;
  mac_ifname := str "PortChannel1" ++ replicate 8 0; mac_origin_ifname := str "PortChannel1" ++ replicate 8 0;
  mac_age_flag := 0; mac_pending_local_del := 0; mac_add_to_syncd := 0; mac_in_msg_list := false |}.

Definition show_world (env : list event → syscall → Z) : World :=
  with_csm 1 (set_MLACP (set mac_rb (λ _, [9])) (session_csm 100)) (boot env) <| w_macs := {[9 := shown_mac]} |>.

Lemma show_world_linked env : csms_linked (show_world env).
Proof. intros c Hc%list_elem_of_singleton. subst c. by eexists. Qed.

Lemma show_world_fits env : Forall (machine_fits ShowMac (show_world env)) (selected 100 (show_world env)).
Proof.
  assert (selected 100 (show_world env) = [set_MLACP (set mac_rb (λ _, [9])) (session_csm 100)]) as -> by reflexivity.
  apply Forall_singleton, Forall_singleton. exists shown_mac. split; [apply lookup_singleton_eq|]. by split.
Qed.

Lemma calm_accepts : accepts calm.
Proof. intros tr fd data Hd. unfold calm. destruct data; [congruence|]. cbn [length]. lia. Qed.

Lemma calm_plentiful : plentiful calm.
Proof. by intros tr n. Qed.

Lemma show_reply_exact_witness : ∃ ev lg,
  show_handler ShowMac 7 100 (show_world calm) = Ok tt (after ev lg (show_world calm))
  ∧ wrote 7 ev = show_reply ShowMac 100 (selected 100 (show_world calm))
      (concat (structures ShowMac (show_world calm) <$> selected 100 (show_world calm))).
Proof.
  destruct (show_reply_exact ShowMac 7 100 (show_world calm)) as (ev & lg & reply & E & H & _ & Ha).
  - apply show_world_linked.
  - apply show_world_fits.
  - vm_compute. reflexivity.
  - exists ev, lg. split; [exact E|]. destruct H as [->|(_ & _ & H)]; [|destruct (H calm_plentiful)].
    apply Ha. exact calm_accepts.
Defined.
