(* ===== verification/CtlFacts.v ===== *)
(** * What the control program prints

    Printing the structures of a reply: every structure is read inside the message and
    printed once, in order.  The commands of the table and how words select them. *)

From S2P Require Import Prelude CMem CString MsgFormat ShowFormat State Show Ctl SyncdStream ShowFacts ShowReply.
#[local] Open Scope Z_scope.

(** ** Computations that print *)

(** [m] returns [a] and prints [out], and does nothing else. *)
Definition prints {A} (m : C A) (a : A) (out : list Z) : Prop :=
  ∀ k, m k = Ok a (k <| k_out ::= λ o, o ++ out |>).

Lemma print_nil k : k <| k_out ::= λ o, o ++ [] |> = k.
Proof. destruct k. unfold set, set_k_out. simpl. by rewrite app_nil_r. Qed.

Lemma prints_ret {A} (a : A) : prints (mret a) a [].
Proof. intros k. by rewrite print_nil. Qed.

Lemma prints_bind {A B} (m : C A) (f : A → C B) a b o1 o2 :
  prints m a o1 → prints (f a) b o2 → prints (m ≫= f) b (o1 ++ o2).
Proof.
  intros Hm Hf k. rewrite (bind_ok _ _ _ _ _ (Hm k)), Hf. f_equal.
  destruct k. unfold set, set_k_out. simpl. by rewrite <-app_assoc.
Qed.

Lemma prints_print s : prints (print s) tt s.
Proof. done. Qed.

Lemma prints_in {A} (o : option A) a : o = Some a → prints (in_bounds o) a [].
Proof. intros -> k. by rewrite print_nil. Qed.

Lemma prints_out {A} (m : C A) a o1 o2 : prints m a o1 → o1 = o2 → prints m a o2.
Proof. by intros ? <-. Qed.

(** A step that reads and prints nothing. *)
Lemma prints_read {A B} (m : C A) (f : A → C B) a b out :
  prints m a [] → prints (f a) b out → prints (m ≫= f) b out.
Proof. intros Hm Hf. exact (prints_bind _ _ _ _ _ _ Hm Hf). Qed.

(** ** The loop over the structures *)

Section entries.
Context (s : struct) (body : nat → C unit) (row : nat → list Z → list Z).
Hypothesis s_pos : (0 < sizeof s)%nat.

Lemma each_entry_prints es fuel count :
  Forall (λ e, length e = sizeof s) es →
  (∀ i e, es !! i = Some e → prints (body (count + i)%nat) tt (row (count + i)%nat e)) →
  (length es < fuel)%nat →
  prints (each_entry fuel s (Z.of_nat (length es * sizeof s)) count body) (count + length es)%nat
    (concat (imap (λ i e, row (count + i)%nat e) es)).
Proof.
  revert fuel count. induction es as [|e es IH]; intros fuel count Hl Hb Hf.
  - destruct fuel as [|f]; [simpl in Hf; lia|]. cbn [each_entry].
    rewrite Z.geb_leb, (proj2 (Z.leb_gt _ _)) by (simpl; lia).
    rewrite Nat.add_0_r. apply prints_ret.
  - destruct fuel as [|f]; [simpl in Hf; lia|]. cbn [each_entry].
    rewrite Z.geb_leb, (proj2 (Z.leb_le _ _)) by (simpl; lia).
    apply Forall_cons in Hl as [He Hl]. rewrite imap_cons. cbn [concat].
    pose proof (Hb 0%nat e eq_refl) as H0. rewrite Nat.add_0_r in *.
    eapply prints_bind; [exact H0|].
    replace (Z.of_nat (length (e :: es) * sizeof s) - Z.of_nat (sizeof s))
      with (Z.of_nat (length es * sizeof s)) by (simpl; lia).
    eapply prints_out.
    + replace (count + length (e :: es))%nat with (S count + length es)%nat by (simpl; lia).
      apply IH; [done| |simpl in Hf; lia]. intros i e' Hi.
      replace (S count + i)%nat with (count + S i)%nat by lia. by apply Hb.
    + f_equal. apply imap_ext. intros i e' _. simpl. by replace (count + S i)%nat with (S (count + i)) by lia.
Qed.

Lemma entries_prints es :
  Forall (λ e, length e = sizeof s) es →
  (∀ i e, es !! i = Some e → prints (body i) tt (row i e)) →
  prints (entries s (Z.of_nat (length (concat es))) body) (length es) (concat (imap row es)).
Proof.
  intros Hl Hb. unfold entries. rewrite (concat_length _ _ Hl).
  apply (each_entry_prints es _ 0); [done..|]. nia.
Qed.
End entries.

(** A structure of a message: what is before and behind it. *)
Lemma concat_split n (es : list (list Z)) i e : Forall (λ e, length e = n) es → es !! i = Some e →
  ∃ pre post, concat es = pre ++ e ++ post ∧ length pre = (n * i)%nat.
Proof.
  intros Hl Hi. exists (concat (take i es)), (concat (drop (S i) es)). split.
  - rewrite <-(take_drop_middle es i e Hi) at 1. rewrite concat_app. simpl. done.
  - rewrite (concat_length n) by (by apply Forall_take). rewrite length_take.
    apply lookup_lt_Some in Hi. lia.
Qed.

(** Reads of a member, inside the structure *)
Section members.
Context (s : struct) (es : list (list Z)) (i : nat) (e : list Z).
Context (Hl : Forall (λ e, length e = sizeof s) es) (Hi : es !! i = Some e).

Lemma get_u8_prints name v : rd8 (offsetof s name) e = Some v → prints (get_u8 s i (concat es) name) v [].
Proof.
  intros H. destruct (concat_split _ _ _ _ Hl Hi) as (pre & post & -> & Hp). apply prints_in.
  unfold member_off. rewrite <-Hp, rd8_suffix by lia. replace (length pre + offsetof s name - length pre)%nat
    with (offsetof s name) by lia. rewrite rd8_prefix; [done|]. by apply lookup_lt_Some in H.
Qed.

Lemma get_u16_prints name v : (offsetof s name + 2 ≤ length e)%nat → rd16 (offsetof s name) e = Some v →
  prints (get_u16 s i (concat es) name) v [].
Proof.
  intros Hn H. destruct (concat_split _ _ _ _ Hl Hi) as (pre & post & -> & Hp). apply prints_in.
  unfold member_off. rewrite <-Hp, rd16_suffix by lia. replace (length pre + offsetof s name - length pre)%nat
    with (offsetof s name) by lia. by rewrite rd16_prefix.
Qed.

Lemma get_mac_prints name v : rd_bytes (offsetof s name) ETHER_ADDR_LEN e = Some v →
  prints (get_mac s i (concat es) name) v [].
Proof.
  intros H. destruct (concat_split _ _ _ _ Hl Hi) as (pre & post & -> & Hp). apply prints_in.
  unfold member_off. rewrite <-Hp. revert H. unfold rd_bytes.
  destruct (Nat.leb_spec (offsetof s name + ETHER_ADDR_LEN) (length e)) as [Hn|]; [|done]. intros [= <-].
  rewrite (proj2 (Nat.leb_le _ _)) by (rewrite !length_app; lia). f_equal.
  rewrite drop_app_add, drop_app_le by lia. rewrite take_app_le; [done|]. rewrite length_drop. lia.
Qed.

Lemma get_str_prints name v : string_in (offsetof s name) e = Some v → prints (get_str s i (concat es) name) v [].
Proof.
  intros H. destruct (concat_split _ _ _ _ Hl Hi) as (pre & post & -> & Hp). apply prints_in.
  unfold member_off, string_in in *. rewrite <-Hp, drop_app_add.
  case_bool_decide as H0; [|done]. injection H as <-.
  assert (offsetof s name ≤ length e)%nat as Hn.
  { destruct (Nat.le_gt_cases (offsetof s name) (length e)); [done|]. rewrite drop_ge in H0 by lia. by apply elem_of_nil in H0. }
  rewrite drop_app_le by lia. rewrite bool_decide_eq_true_2 by (apply elem_of_app; by left).
  f_equal. by apply cstr_prefix.
Qed.
End members.

(** ** MAC entries *)

(** A member of [n] bytes that holds [l] and zeroes *)
Definition field (n : nat) (l : list Z) : list Z := l ++ replicate (n - length l) 0.

(** The structure of a MAC entry, byte by byte *)
Definition mac_struct (m : MACMsg) : list Z :=
  [u8 (mac_op_type m); u8 (mac_fdb_type m)] ++ mac_addr m ++ le16 (mac_vid m)
  ++ field 32 (cstr (mac_ifname m)) ++ field 32 (cstr (mac_origin_ifname m)) ++ [u8 (mac_age_flag m); 0].

(** An assignment to one of the segments of a buffer; the others stay. *)
Lemma put_segment (segs : list (list Z)) k n bs off : segs !! k = Some (replicate n 0) →
  (length bs ≤ n)%nat → off = length (concat (take k segs)) →
  put off bs (concat segs) = Some (concat (<[k := field n bs]> segs)).
Proof.
  intros Hk Hb ->. rewrite <-(take_drop_middle segs k _ Hk) at 2. rewrite insert_take_drop by (by eapply lookup_lt_Some).
  rewrite !concat_app. cbn [concat]. unfold field.
  rewrite (replicate_split (length bs) n Hb) at 1. rewrite <-!app_assoc.
  apply put_at; [done|by rewrite length_replicate].
Qed.

Lemma stores_cons s ss b b1 b2 : apply_store s b = Some b1 → apply_stores ss b1 = Some b2 →
  apply_stores (s :: ss) b = Some b2.
Proof. intros H1 H2. cbn [apply_stores]. by rewrite H1. Qed.

(** The next assignment goes to segment [k], of [n] bytes. *)
Ltac segment k n :=
  eapply stores_cons;
  [ eapply (put_segment _ k n); [reflexivity|cbn [length le16]; lia|];
    cbn [take insert list_insert concat app]; unfold field; rewrite ?length_app, ?length_replicate; cbn [length le16]; lia
  | ].

Lemma field_length n l : (length l ≤ n)%nat → length (field n l) = n.
Proof. intros H. unfold field. rewrite length_app, length_replicate. lia. Qed.

Definition mac_whole (m : MACMsg) : Prop := mac_fits m ∧ length (mac_addr m) = ETHER_ADDR_LEN.

Lemma mac_struct_length m : mac_whole m → length (mac_struct m) = sizeof mclagd_mac_msg.
Proof.
  intros [[Hn Ho] Ha]. pose proof (cstr_length (mac_ifname m)). pose proof (cstr_length (mac_origin_ifname m)).
  unfold MAX_L_PORT_NAME, ETHER_ADDR_LEN in *. unfold mac_struct.
  rewrite !length_app, !field_length, Ha by lia. reflexivity.
Qed.

Lemma mac_stores_run m : mac_whole m →
  apply_stores (mac_stores m) (replicate (sizeof mclagd_mac_msg) 0) = Some (mac_struct m).
Proof.
  intros [[Hn Ho] Ha]. pose proof (cstr_length (mac_ifname m)). pose proof (cstr_length (mac_origin_ifname m)).
  unfold mac_stores. unfold MAX_L_PORT_NAME, ETHER_ADDR_LEN in *. rewrite (take_ge (mac_addr m)) by lia.
  set (a := mac_addr m) in *. set (i := cstr (mac_ifname m)) in *. set (o := cstr (mac_origin_ifname m)) in *.
  change (replicate (sizeof mclagd_mac_msg) 0)
    with (concat [[0]; [0]; replicate 6 0; replicate 2 0; replicate 32 0; replicate 32 0; [0]; [0]]).
  eval_layout.
  segment 0%nat 1%nat.
  segment 1%nat 1%nat. segment 2%nat 6%nat. segment 3%nat 2%nat. segment 4%nat 32%nat.
  segment 5%nat 32%nat. segment 6%nat 1%nat.
  f_equal. cbn. unfold field. cbn. rewrite Ha. cbn [replicate Nat.sub]. by rewrite app_nil_r.
Qed.

Lemma string_in_field pre n l post off : Forall (λ c, c ≠ 0) l → (length l < n)%nat → length pre = off →
  string_in off (pre ++ field n l ++ post) = Some l.
Proof.
  intros Hz Hl <-. unfold string_in, field. rewrite drop_app_length.
  destruct (n - length l)%nat as [|k] eqn:E; [lia|]. rewrite <-app_assoc. cbn [replicate app].
  rewrite bool_decide_eq_true_2 by set_solver. by rewrite cstr_app_nul.
Qed.

(** The line of a MAC entry *)
Definition mac_row (i : nat) (m : MACMsg) : list Z :=
  pad 6 (fmt_d (Z.of_nat i + 1)) ++ pad 5 (fdb_text (u8 (mac_fdb_type m))) ++ pad 20 (mac_addr_to_str (mac_addr m))
  ++ pad 5 (fmt_d (u16 (mac_vid m))) ++ pad 20 (cstr (mac_ifname m)) ++ pad 20 (cstr (mac_origin_ifname m))
  ++ pad 5 (age_text (u8 (mac_age_flag m))) ++ [10].

(** The table that shows the entries [ms] *)
Definition mac_table (ms : list MACMsg) : list Z := mac_head ++ concat (imap mac_row ms).

Section mac_members.
Context (m : MACMsg) (Hm : mac_whole m).
Let a := mac_addr m.
Let i := cstr (mac_ifname m).
Let o := cstr (mac_origin_ifname m).

Lemma mac_lengths : length a = 6%nat ∧ (length i ≤ 20)%nat ∧ (length o ≤ 20)%nat.
Proof.
  destruct Hm as [[Hn Ho] Ha]. pose proof (cstr_length (mac_ifname m)). pose proof (cstr_length (mac_origin_ifname m)).
  unfold MAX_L_PORT_NAME, ETHER_ADDR_LEN in *. subst a i o. lia.
Qed.

Lemma mac_member_fdb : rd8 (offsetof mclagd_mac_msg "fdb_type") (mac_struct m) = Some (u8 (mac_fdb_type m)).
Proof. reflexivity. Qed.

Lemma mac_member_addr : rd_bytes (offsetof mclagd_mac_msg "mac_addr") ETHER_ADDR_LEN (mac_struct m) = Some a.
Proof. destruct mac_lengths as (Ha & _). eval_layout. unfold mac_struct. apply rd_bytes_at; [done|exact Ha]. Qed.

Lemma mac_member_vid : rd16 (offsetof mclagd_mac_msg "vid") (mac_struct m) = Some (u16 (mac_vid m)).
Proof.
  destruct mac_lengths as (Ha & _). eval_layout. unfold mac_struct. rewrite app_assoc.
  rewrite <-le16_mod. apply rd16_le_at; [|apply Z.mod_pos_bound; lia]. rewrite length_app. fold a. rewrite Ha. done.
Qed.

Lemma mac_member_ifname : string_in (offsetof mclagd_mac_msg "ifname") (mac_struct m) = Some i.
Proof.
  destruct mac_lengths as (Ha & Hi & _). eval_layout. unfold mac_struct.
  rewrite (app_assoc (mac_addr m) (le16 _)), app_assoc. apply string_in_field; [apply cstr_nonzero|fold i; lia|].
  rewrite !length_app. fold a. rewrite Ha. done.
Qed.

Lemma mac_member_origin : string_in (offsetof mclagd_mac_msg "origin_ifname") (mac_struct m) = Some o.
Proof.
  destruct mac_lengths as (Ha & Hi & Ho). eval_layout. unfold mac_struct.
  rewrite (app_assoc (le16 _)), (app_assoc (mac_addr m)), app_assoc. apply string_in_field; [apply cstr_nonzero|fold o; lia|].
  rewrite !length_app, field_length by (fold i; lia). fold a. rewrite Ha. done.
Qed.

Lemma mac_member_age : rd8 (offsetof mclagd_mac_msg "age_flag") (mac_struct m) = Some (u8 (mac_age_flag m)).
Proof.
  destruct mac_lengths as (Ha & Hi & Ho). eval_layout. unfold mac_struct. rewrite !app_assoc.
  apply rd8_at.
  rewrite !length_app, !field_length by (fold i o; lia). fold a. rewrite Ha. done.
Qed.
End mac_members.

Lemma parse_mac_prints ms : Forall mac_whole ms →
  prints (mclagdctl_parse_dump_mac (concat (mac_struct <$> ms)) (Z.of_nat (length (concat (mac_struct <$> ms))))) 0
    (mac_table ms).
Proof.
  intros Hms. set (es := mac_struct <$> ms).
  assert (Forall (λ e, length e = sizeof mclagd_mac_msg) es) as Hl.
  { apply Forall_fmap. eapply Forall_impl; [exact Hms|]. intros m. apply mac_struct_length. }
  set (row := λ i (e : list Z), default [] (mac_row i <$> ms !! i)).
  unfold mclagdctl_parse_dump_mac. eapply prints_bind; [apply prints_print|].
  eapply prints_out; [eapply prints_bind; [apply (entries_prints mclagd_mac_msg _ row); [apply leb_complete; reflexivity|exact Hl|]|apply prints_ret]|].
  - intros i e Hi. pose proof Hi as Hm. unfold es in Hm. apply list_lookup_fmap_Some in Hm as (m & -> & Hm).
    assert (mac_whole m) as Hw by (by eapply Forall_lookup_1).
    eapply prints_read; [apply (get_u8_prints _ _ _ _ Hl Hi), mac_member_fdb|].
    eapply prints_read; [by apply (get_mac_prints _ _ _ _ Hl Hi), mac_member_addr|].
    eapply prints_read; [apply (get_u16_prints _ _ _ _ Hl Hi); [|by apply mac_member_vid]|].
    { rewrite (mac_struct_length m Hw). apply leb_complete. reflexivity. }
    eapply prints_read; [by apply (get_str_prints _ _ _ _ Hl Hi), mac_member_ifname|].
    eapply prints_read; [by apply (get_str_prints _ _ _ _ Hl Hi), mac_member_origin|].
    eapply prints_read; [by apply (get_u8_prints _ _ _ _ Hl Hi), mac_member_age|].
    unfold row. rewrite Hm. apply prints_print.
  - rewrite app_nil_r. f_equal. unfold es. rewrite imap_fmap. apply imap_ext. intros i m Hm.
    unfold row, compose. by rewrite Hm.
Qed.

(** ** Commands *)

(** The words of a command, from the root of the table; [mclagdctl_print_cmd] prints
    them. *)
Fixpoint words_of (fuel : nat) (c : command_type) : list (list Z) :=
  match fuel with
  | O => []
  | S f => match get_cmd_by_id (ct_parent c) with Some p => words_of f p | None => [] end ++ [ct_name c]
  end.
Definition cmd_words (c : command_type) : list (list Z) := words_of (length command_types) c.

(** The table: a command below another one is named behind it, and no command has
    parameters. *)
Lemma table_tree :
  Forall (λ c, ct_params c = [] ∧ (ct_parent c = ID_CMDTYPE_NONE → cmd_words c = [ct_name c])
    ∧ Forall (λ p, ct_parent c = ct_id p → cmd_words c = cmd_words p ++ [ct_name c]) command_types) command_types.
Proof. apply (bool_decide_unpack _). vm_compute. exact I. Qed.

Lemma get_cmd_by_parent_Some word parent c : get_cmd_by_parent word parent = Some c →
  c ∈ command_types ∧ is_prefix word (ct_name c) = true ∧ ct_parent c = parent.
Proof.
  unfold get_cmd_by_parent. intros H. apply head_Some_elem_of in H.
  apply list_elem_of_filter in H as [[Hp Hc] Hin]. split; [done|]. split; [by apply Is_true_true|done].
Qed.

Lemma find_cmd_from parent pw args c rest :
  (parent = ID_CMDTYPE_NONE ∧ pw = [] ∨ ∃ p, p ∈ command_types ∧ ct_id p = parent ∧ cmd_words p = pw) →
  find_cmd parent args = inl (c, rest) →
  c ∈ command_types ∧ cmd_executable c = true ∧ rest = []
  ∧ ∃ names, cmd_words c = pw ++ names ∧ Forall2 (λ w n, is_prefix w n = true) args names.
Proof.
  revert parent pw. induction args as [|word args IH]; intros parent pw Hpw; cbn [find_cmd]; [done|].
  destruct (get_cmd_by_parent word parent) as [d|] eqn:E; [|done].
  apply get_cmd_by_parent_Some in E as (Hin & Hpre & Hpar).
  destruct (proj1 (Forall_forall _ _) table_tree d Hin) as (Hparams & Hroot & Hbelow).
  assert (cmd_words d = pw ++ [ct_name d]) as Hw.
  { destruct Hpw as [[-> ->]|(p & Hp & <- & <-)]; [by apply Hroot|].
    by apply (proj1 (Forall_forall _ _) Hbelow p Hp). }
  destruct (cmd_executable d && (length args <=? cmd_param_cnt d)%nat) eqn:Hex.
  - intros [= <- <-]. apply andb_true_iff in Hex as [Hex Hlen]. unfold cmd_param_cnt in Hlen.
    rewrite Hparams in Hlen. destruct args; [|done]. split; [done|]. split; [done|]. split; [done|].
    exists [ct_name d]. split; [done|]. by repeat constructor.
  - intros Hf. destruct (IH (ct_id d) (pw ++ [ct_name d])) as (H1 & H2 & H3 & names & Hn & Hall); [|done|].
    { right. by exists d. }
    split; [done|]. split; [done|]. split; [done|]. exists (ct_name d :: names).
    split; [by rewrite Hn, <-app_assoc|]. by constructor.
Qed.

(** C39. The words of the command line select a command of [mclagdctl] exactly as its table
    says: the words [mclagdctl_print_help] shows for a command find that command, and whatever
    is found can be executed and is named by the words, each an abbreviation of one of its
    words, with none left over. *)
Theorem find_cmd_words :
  Forall (λ c, cmd_executable c = true → mclagdctl_find_cmd (cmd_words c) = inl (c, [])) command_types
  ∧ ∀ args c rest, mclagdctl_find_cmd args = inl (c, rest) →
      c ∈ command_types ∧ cmd_executable c = true ∧ rest = []
      ∧ Forall2 (λ w n, is_prefix w n = true) args (cmd_words c).
Proof.
  split.
  - repeat (apply Forall_cons; split); [intros H; (discriminate H || reflexivity)..|constructor].
  - intros args c rest H. destruct (find_cmd_from ID_CMDTYPE_NONE [] args c rest) as (H1 & H2 & H3 & names & Hn & Hall);
      [by left|done|]. split; [done|]. split; [done|]. split; [done|]. simpl in Hn. by rewrite Hn.
Qed.

(** The command [dump mac] *)
Definition cmd_dump_mac : command_type :=
  CommandType ID_CMDTYPE_D_A ID_CMDTYPE_D INFO_TYPE_DUMP_MAC (str "mac") []
    (Some (mclagdctl_enca_dump_mac, mclagdctl_parse_dump_mac)).

Lemma find_cmd_words_witness :
  mclagdctl_find_cmd [str "d"; str "m"] = inl (cmd_dump_mac, []) ∧ cmd_executable cmd_dump_mac = true
  ∧ Forall2 (λ w n, is_prefix w n = true) [str "d"; str "m"] (cmd_words cmd_dump_mac).
Proof.
  destruct (proj2 find_cmd_words [str "d"; str "m"] cmd_dump_mac [] eq_refl) as (_ & H1 & _ & H2). done.
Defined.
