(* ===== verification/VlanShow.v ===== *)
(** * The list of VLANs shown for an interface

    [iccp_local_if_dump] prints the VLANs of an interface as ranges into an array of 64
    bytes.  The text is that of a reference that first finds the ranges, and the array
    is never left. *)

From S2P Require Import Prelude CMem CString MsgFormat ShowFormat State Machine Show ShowReply CtlFacts.
#[local] Open Scope Z_scope.

(** ** The reference *)

(** The maximal runs of consecutive identifiers, first and last of each. *)
Fixpoint vlan_ranges (vs : list Z) : list (Z * Z) :=
  match vs with
  | [] => []
  | v :: vs' =>
      match vlan_ranges vs' with
      | (a, b) :: rs => if a =? v + 1 then (v, b) :: rs else (v, v) :: (a, b) :: rs
      | [] => [(v, v)]
      end
  end.

(** [%d] for a single VLAN, [%d - %d] for a range, and a space behind. *)
Definition range_end (b : Z) : list Z := str "- " ++ fmt_d b ++ [32].
Definition range_text (r : Z * Z) : list Z :=
  fmt_d (fst r) ++ [32] ++ (if fst r =? snd r then [] else range_end (snd r)).
Definition vlans_text (vs : list Z) : list Z := concat (range_text <$> vlan_ranges vs).

(** What is still to be printed when the last one printed or skipped is [p], and [r]
    says whether it was skipped. *)
Definition pending_text (r : bool) (p : Z) (vs : list Z) : list Z :=
  match vlan_ranges (p :: vs) with
  | (_, b) :: rs => (if r || negb (b =? p) then range_end b else []) ++ concat (range_text <$> rs)
  | [] => []
  end.

Lemma ranges_head v vs : ∃ b rs, vlan_ranges (v :: vs) = (v, b) :: rs ∧ v ≤ b.
Proof.
  revert v. induction vs as [|v' vs IH]; intros v; [by exists v, []|].
  destruct (IH v') as (b & rs & E & Hb). cbn [vlan_ranges] in *. rewrite E.
  destruct (Z.eqb_spec v' (v + 1)) as [->|]; eexists _, _; (split; [reflexivity|lia]).
Qed.

Lemma text_pending v vs : vlans_text (v :: vs) = fmt_d v ++ [32] ++ pending_text false v vs.
Proof.
  unfold vlans_text, pending_text. destruct (ranges_head v vs) as (b & rs & E & _). rewrite E.
  cbn [fmap list_fmap concat]. unfold range_text at 1. cbn [fst snd]. rewrite (Z.eqb_sym v b), <-!app_assoc.
  cbn [orb]. by destruct (b =? v).
Qed.

Lemma pending_next r p vs : pending_text r p (p + 1 :: vs) = pending_text true (p + 1) vs.
Proof.
  unfold pending_text. destruct (ranges_head (p + 1) vs) as (b & rs & E & Hb).
  cbn [vlan_ranges] in E |- *. rewrite E, Z.eqb_refl. rewrite (proj2 (Z.eqb_neq b p)) by lia. by rewrite orb_true_r.
Qed.

Lemma pending_gap r p v vs : v ≠ p + 1 →
  pending_text r p (v :: vs) = (if r then range_end p else []) ++ fmt_d v ++ [32] ++ pending_text false v vs.
Proof.
  intros Hv. rewrite <-text_pending. unfold pending_text, vlans_text. destruct (ranges_head v vs) as (b & rs & E & Hb).
  cbn [vlan_ranges] in E |- *. rewrite E, (proj2 (Z.eqb_neq v (p + 1))) by done. rewrite Z.eqb_refl. by rewrite orb_false_r.
Qed.

(** ** The loop *)

(** The array holds [text]. *)
Definition holds (text : list Z) (p : Z) (r : bool) : vlan_text :=
  VlanText (field MCLAGDCTL_PARA3_LEN text) (Z.of_nat (length text)) p r r.

Lemma vlan_print_text text more p r : (length text + length more ≤ 62)%nat →
  vlan_print more (holds text p r) = Some (holds (text ++ more) p r).
Proof.
  intros Hl. unfold vlan_print, holds, snprintf_at. cbn [vt_len vt_buf vt_prev vt_range vt_to_be_printed].
  change VLAN_STR_SIZE with 63. change MCLAGDCTL_PARA3_LEN with 64%nat.
  replace (u64 (63 - Z.of_nat (length text))) with (63 - Z.of_nat (length text)) by (unfold u64; rewrite Z.mod_small; lia).
  rewrite (proj2 (Z.eqb_neq _ _)), (proj2 (Z.ltb_ge _ _)) by lia. rewrite Nat2Z.id. unfold field.
  rewrite (replicate_split (length more + 1) (64 - length text)) by lia.
  rewrite (put_at text _ (more ++ [0])) by (rewrite ?length_replicate, ?length_app; simpl; lia).
  cbn [mbind option_bind]. f_equal. f_equal; [|rewrite length_app; lia].
  rewrite <-!app_assoc. f_equal. f_equal. rewrite length_app.
  replace (64 - (length text + length more))%nat with (S (64 - length text - (length more + 1))) by lia. done.
Qed.

(** The loop and what follows it *)
Definition vlan_finish (t : vlan_text) : option (list Z) :=
  if vt_to_be_printed t && (VLAN_STR_SIZE - vt_len t >? vlan_room (vt_range t)) && negb (vt_prev t =? 0)
  then t ← vlan_print ((if vt_range t then str "- " else []) ++ fmt_d (vt_prev t) ++ [32]) t; Some (vt_buf t)
  else Some (vt_buf t).

Lemma vlan_loop_text vs text p r : 0 < p → Forall (λ v, 0 < vid v) vs →
  (length (text ++ pending_text r p (vid <$> vs)) ≤ 50)%nat →
  (t ← vlan_loop vs (holds text p r); vlan_finish t)
  = Some (field MCLAGDCTL_PARA3_LEN (text ++ pending_text r p (vid <$> vs))).
Proof.
  intros Hp Hvs. revert text p r Hp. induction Hvs as [|v vs Hv Hvs IH]; intros text p r Hp Hl.
  - cbn [vlan_loop mbind option_bind fmap list_fmap] in *. unfold vlan_finish. cbn [holds vt_len vt_prev vt_range vt_to_be_printed].
    unfold pending_text in *. cbn [vlan_ranges fmap list_fmap concat] in *. rewrite Z.eqb_refl, orb_false_r in *.
    rewrite app_nil_r in *. rewrite (proj2 (Z.eqb_neq p 0)) by lia. destruct r; cbn [andb negb]; [|by rewrite app_nil_r].
    rewrite length_app in Hl. change VLAN_STR_SIZE with 63. unfold vlan_room. rewrite Z.gtb_ltb, (proj2 (Z.ltb_lt _ _)) by lia.
    cbn [andb]. fold (holds text p true). fold (range_end p). rewrite vlan_print_text by lia. reflexivity.
  - cbn [vlan_loop fmap list_fmap] in *. change (vt_len (holds text p r)) with (Z.of_nat (length text)).
    change (vt_prev (holds text p r)) with p. change (vt_range (holds text p r)) with r.
    rewrite length_app in Hl. change VLAN_STR_SIZE with 63. rewrite (proj2 (Z.ltb_ge _ 4)) by lia.
    rewrite (proj2 (Z.eqb_neq p 0)) by lia. cbn [orb].
    destruct (Z.eqb_spec (vid v) (p + 1)) as [E|E]; cbn [negb].
    + rewrite E, pending_next in *. change (VlanText _ _ _ true true) with (holds text (p + 1) true).
      apply IH; [lia|]. by rewrite length_app.
    + rewrite (pending_gap r p (vid v)) in * by done. unfold vlan_room.
      assert (∀ b, b && (63 - Z.of_nat (length text) <? 4 + (if b then 8 else 0)) = false) as ->.
      { intros []; [|done]. cbn [andb]. apply Z.ltb_ge. lia. }
      rewrite !length_app in Hl.
      assert ((if r then vlan_print (str "- " ++ fmt_d p ++ [32]) (holds text p r) else Some (holds text p r))
        = Some (holds (text ++ (if r then range_end p else [])) p r)) as ->.
      { destruct r; [|by rewrite app_nil_r]. apply vlan_print_text. fold (range_end p). lia. }
      cbn [mbind option_bind]. rewrite vlan_print_text by (rewrite !length_app; lia). cbn [mbind option_bind].
      change (VlanText _ _ _ false false) with (holds ((text ++ (if r then range_end p else [])) ++ fmt_d (vid v) ++ [32]) (vid v) false).
      rewrite IH by (try done; rewrite !length_app; lia). by rewrite <-!app_assoc.
Qed.

Lemma fmt_text_nonzero vs : Forall (λ c, c ≠ 0) (vlans_text vs).
Proof.
  unfold vlans_text. apply Forall_concat, Forall_fmap. apply Forall_forall. intros [a b] _.
  unfold compose, range_text, range_end. destruct (_ =? _); repeat (apply Forall_app; split);
    try apply fmt_d_nonzero; by repeat constructor.
Qed.

(** C40. The VLANs of an interface in the reply to [dump portlist local].  Whatever VLANs it
    has, the text is written inside its array of 64 bytes and the last byte stays zero; when
    the ranges of consecutive VLANs, each printed as its first and its last one, take at
    most 50 characters, the array holds exactly them. *)
Theorem vlanlist_ranges vs : Forall (λ v, 0 < vid v < 2 ^ 16) vs →
  ∃ b, vlanlist vs = Some b ∧ length b = MCLAGDCTL_PARA3_LEN ∧ last b = Some 0
    ∧ ((length (vlans_text (vid <$> vs)) ≤ 50)%nat → cstr b = vlans_text (vid <$> vs)).
Proof.
  intros Hvs. destruct (vlanlist_ok vs) as (b & E & Hl & H0).
  { eapply Forall_impl; [exact Hvs|]. intros v Hv. cbv beta in *. unfold vid_ok. lia. }
  exists b. split; [done|]. split; [done|]. split; [done|]. intros Hshort.
  assert (vlanlist vs = Some (field MCLAGDCTL_PARA3_LEN (vlans_text (vid <$> vs)))) as E'.
  { destruct vs as [|v vs]; [reflexivity|]. apply Forall_cons in Hvs as [Hv Hvs]. cbn [fmap list_fmap] in Hshort |- *.
    rewrite text_pending in *. unfold vlanlist. cbn [vlan_loop]. cbn [vt_len vt_prev vt_range].
    change (VLAN_STR_SIZE - 0 <? 4) with false. change (0 =? 0) with true. cbn [orb andb mbind option_bind].
    change (VlanText (replicate MCLAGDCTL_PARA3_LEN 0) 0 0 false false) with (holds [] 0 false).
    rewrite !length_app in Hshort.
    rewrite vlan_print_text by (rewrite length_app; simpl in *; lia). cbn [mbind option_bind].
    change (VlanText _ _ (vid v) false false) with (holds (fmt_d (vid v) ++ [32]) (vid v) false).
    pose proof (vlan_loop_text vs (fmt_d (vid v) ++ [32]) (vid v) false) as HL. rewrite <-app_assoc in HL.
    apply HL; [lia| |rewrite !length_app; lia]. eapply Forall_impl; [exact Hvs|]. simpl. lia. }
  rewrite E in E'. injection E' as ->. unfold field.
  destruct (MCLAGDCTL_PARA3_LEN - length (vlans_text (vid <$> vs)))%nat as [|n] eqn:En.
  { change MCLAGDCTL_PARA3_LEN with 64%nat in En. lia. }
  cbn [replicate]. apply cstr_app_nul. apply fmt_text_nonzero.
Qed.

Lemma vlanlist_ranges_witness : ∃ b,
  vlanlist ((λ v, mkVLAN_ID v 0 NULL) <$> [10; 20; 21; 22; 4094]) = Some b ∧ cstr b = str "10 20 - 22 4094 ".
Proof.
  destruct (vlanlist_ranges ((λ v, mkVLAN_ID v 0 NULL) <$> [10; 20; 21; 22; 4094])) as (b & E & _ & _ & H).
  - repeat constructor; lia.
  - exists b. split; [exact E|]. rewrite H; [reflexivity|]. apply leb_complete. reflexivity.
Defined.
