(* ===== verification/ShowTrip.v ===== *)
(** * From the daemon's tables to the screen

    [mclagdctl -i N dump mac] against the daemon: the request it sends is the one the
    daemon understands, and the table it prints is that of the MAC entries of the
    domain, each once and in the order of the trees. *)

From S2P Require Import Prelude CMem CString MsgFormat ShowFormat State Machine Port Show Scheduler Control Ctl.
From S2P Require Import ShowFacts ShowReply CtlFacts Boot ConfigFile.
#[local] Open Scope Z_scope.

(** ** A socket that delivers a stream *)

(** How many bytes were read from [fd], and how many before the last [read]. *)
Fixpoint consumed (fd : Z) (tr : list event) : nat :=
  match tr with
  | [] => 0
  | (SysRead fd' _, r) :: tr' => (if fd' =? fd then Z.to_nat r else 0) + consumed fd tr'
  | _ :: tr' => consumed fd tr'
  end.

Fixpoint last_start (fd : Z) (tr : list event) : nat :=
  match tr with
  | [] => 0
  | (SysRead fd' _, _) :: tr' => if fd' =? fd then consumed fd tr' else last_start fd tr'
  | _ :: tr' => last_start fd tr'
  end.

(** The environment delivers the bytes [s] on [fd], in pieces of its choice. *)
Record serves (fd : Z) (s : list Z) (env : list event → syscall → Z) : Prop := {
  sv_bytes : Forall is_byte s;
  sv_select : ∀ tr, 0 < env tr (SysSelect fd);
  sv_read : ∀ tr len, 0 < len → (consumed fd tr < length s)%nat →
    0 < env tr (SysRead fd len) ≤ Z.min len (Z.of_nat (length s - consumed fd tr));
  sv_byte : ∀ tr i, (last_start fd tr + i < length s)%nat →
    env tr (SysRecvByte fd (Z.of_nat i)) = default 0 (s !! (last_start fd tr + i)%nat)
}.

(** Events that read nothing more and write nothing. *)
Definition idle (fd : Z) (ev : list event) : Prop :=
  wrote fd ev = [] ∧ ∀ tr, consumed fd (ev ++ tr) = consumed fd tr ∧ last_start fd (ev ++ tr) = last_start fd tr.

Lemma idle_nil fd : idle fd [].
Proof. by split. Qed.

Lemma idle_app fd ev1 ev2 : idle fd ev1 → idle fd ev2 → idle fd (ev1 ++ ev2).
Proof.
  intros [W1 H1] [W2 H2]. split; [by rewrite wrote_app, W1, W2|]. intros tr. rewrite <-app_assoc.
  destruct (H1 (ev2 ++ tr)) as [-> ->]. apply H2.
Qed.

Lemma idle_byte fd i r : idle fd [(SysRecvByte fd i, r)].
Proof. split; [done|]. by intros tr. Qed.

Lemma stream_piece (s : list Z) n p : (p + n < length s)%nat →
  take (S n) (drop p s) = default 0 (s !! p) :: take n (drop (S p) s).
Proof.
  intros H. destruct (lookup_lt_is_Some_2 s p) as [b Hb]; [lia|]. rewrite (drop_S s b p Hb), Hb. done.
Qed.

Lemma stream_byte s p : Forall is_byte s → (p < length s)%nat → u8 (default 0 (s !! p)) = default 0 (s !! p).
Proof.
  intros Hs Hp. destruct (lookup_lt_is_Some_2 s p Hp) as [b Hb]. rewrite Hb. simpl.
  pose proof (Forall_lookup_1 _ _ _ _ Hs Hb). unfold is_byte in *. unfold u8. apply Z.mod_small. lia.
Qed.

(** ** The daemon reads *)

Section daemon.
Context (fd : Z) (s : list Z).

Lemma recv_stream_run n i w : serves fd s (w_env w) → (last_start fd (w_trace w) + i + n ≤ length s)%nat →
  ∃ ev, recv_bytes fd (Z.of_nat i) n w
      = Ok (take n (drop (last_start fd (w_trace w) + i) s)) (after ev (w_logger w) w) ∧ idle fd ev.
Proof.
  intros Hs. revert i w Hs. induction n as [|n IH]; intros i w Hs Hl; cbn [recv_bytes].
  { exists []. rewrite after_nil. split; [done|apply idle_nil]. }
  set (p := (last_start fd (w_trace w) + i)%nat) in *.
  set (e := (SysRecvByte fd (Z.of_nat i), w_env w (w_trace w) (SysRecvByte fd (Z.of_nat i)))).
  destruct (IH (S i) (w <| w_trace ::= cons e |>)) as (ev & E & Hi); [exact Hs|simpl; lia|].
  rewrite sys_bind. replace (Z.of_nat i + 1) with (Z.of_nat (S i)) by lia. fold e. rewrite (bind_ok _ _ _ _ _ E).
  exists (ev ++ [e]). split; [|by apply idle_app, idle_byte].
  rewrite stream_piece by lia. rewrite (sv_byte _ _ _ Hs), stream_byte by (apply Hs || (fold p; lia)).
  fold p. simpl. replace (last_start fd (w_trace w) + S i)%nat with (S p) by lia.
  unfold mret, M_ret. f_equal. unfold after. simpl. by rewrite <-app_assoc.
Qed.

(** [m] more bytes behind the [got] that were read. *)
Lemma ctl_read_run fuel got rest m w :
  serves fd s (w_env w) → (m ≤ length rest)%nat → (m < fuel)%nat →
  (consumed fd (w_trace w) + m ≤ length s)%nat →
  ∃ ev, ctl_read_loop fuel fd (got ++ rest) (Z.of_nat (length got)) (Z.of_nat (length got + m)) w
      = Ok (Z.of_nat (length got + m), got ++ take m (drop (consumed fd (w_trace w)) s) ++ drop m rest)
          (after ev (w_logger w) w)
    ∧ wrote fd ev = [].
Proof.
  revert got rest m w. induction fuel as [|f IH]; intros got rest m w Hs Hm Hf Hc; [lia|]. cbn [ctl_read_loop].
  rewrite Z.geb_leb. destruct (Z.leb_spec (Z.of_nat (length got + m)) (Z.of_nat (length got))) as [Hle|Hgt].
  { assert (m = 0%nat) as -> by lia. exists []. rewrite after_nil, Nat.add_0_r. done. }
  rewrite sys_bind. pose proof (sv_select _ _ _ Hs (w_trace w)) as Hsel.
  set (e1 := (SysSelect fd, w_env w (w_trace w) (SysSelect fd))).
  rewrite (proj2 (Z.leb_gt _ _)) by exact Hsel. set (w1 := w <| w_trace ::= cons e1 |>).
  rewrite sys_bind. replace (Z.of_nat (length got + m) - Z.of_nat (length got)) with (Z.of_nat m) by lia.
  pose proof (sv_read _ _ _ Hs (w_trace w1) (Z.of_nat m)) as Hrd. simpl in Hrd.
  destruct Hrd as [Hr1 Hr2]; [lia|lia|]. set (r := w_env w (e1 :: w_trace w) (SysRead fd (Z.of_nat m))) in *.
  change (w_env w1 (w_trace w1) (SysRead fd (Z.of_nat m))) with r.
  rewrite (proj2 (Z.leb_gt _ _)) by exact Hr1. cbv zeta.
  rewrite (Z.min_l r) by lia. set (c := Z.to_nat r). set (w2 := w1 <| w_trace ::= cons (SysRead fd (Z.of_nat m), r) |>).
  set (p := consumed fd (w_trace w)) in *.
  assert (last_start fd (w_trace w2) = p) as Hst by (simpl; by rewrite Z.eqb_refl).
  assert (consumed fd (w_trace w2) = (c + p)%nat) as Hco by (simpl; by rewrite Z.eqb_refl).
  destruct (recv_stream_run c 0 w2) as (ev & E & Hid); [exact Hs|rewrite Hst; lia|].
  rewrite (bind_ok _ _ _ _ _ E). rewrite Hst, Nat.add_0_r, Nat2Z.id. set (bs := take c (drop p s)).
  assert (length bs = c) as Hbs by (unfold bs; rewrite length_take, length_drop; lia).
  rewrite (oob_bind _ (got ++ bs ++ drop c rest)).
  2: { rewrite <-(take_drop c rest) at 1. apply put_at; [done|]. rewrite length_take. lia. }
  set (w3 := after ev (w_logger w2) w2).
  destruct (IH (got ++ bs) (drop c rest) (m - c)%nat w3) as (ev' & E' & Hw').
  { exact Hs. } { rewrite length_drop. lia. } { lia. }
  { change (w_trace w3) with (ev ++ w_trace w2). rewrite (proj1 (proj2 Hid (w_trace w2))), Hco. lia. }
  rewrite length_app, Hbs in E'. rewrite <-app_assoc in E'.
  replace (Z.of_nat (length got) + r) with (Z.of_nat (length got + c)) by lia.
  replace (length got + m)%nat with (length got + c + (m - c))%nat by lia. rewrite E'.
  exists (ev' ++ ev ++ [(SysRead fd (Z.of_nat m), r); e1]). split.
  - f_equal.
    + f_equal. rewrite <-app_assoc. f_equal. rewrite drop_drop. replace (c + (m - c))%nat with m by lia.
      rewrite app_assoc. f_equal. change (w_trace w3) with (ev ++ w_trace w2).
      rewrite (proj1 (proj2 Hid (w_trace w2))), Hco. unfold bs.
      rewrite (Nat.add_comm c p), <-drop_drop, take_take_drop. f_equal. lia.
    + unfold w3, w2, w1, after. simpl. by rewrite <-!app_assoc.
  - rewrite !wrote_app, Hw', (proj1 Hid). done.
Qed.
End daemon.

(** ** The request *)

Definition request (info_type mclag_id : Z) : list Z := le32 info_type ++ le32 mclag_id ++ replicate 96 0.

Lemma rd32_le_at pre v rest off : length pre = off → rd32 off (pre ++ le32 v ++ rest) = Some (u32 v).
Proof.
  intros <-. rewrite rd32_suffix, Nat.sub_diag by lia. unfold rd32, rd16, rd8. simpl. f_equal. unfold u32. zdiv.
Qed.

Definition is_int (v : Z) : Prop := - 2 ^ 31 ≤ v < 2 ^ 31.

Lemma to_int_u32 v : is_int v → to_int (u32 v) = v.
Proof.
  intros H. unfold is_int in H. unfold to_int, u32. rewrite Zplus_mod_idemp_l, Z.mod_small by lia. lia.
Qed.

(** The daemon answers the request it reads. *)
Lemma interactive_run fd info id w : 0 ≤ fd → is_int info → is_int id →
  serves fd (request info id) (w_env w) → consumed fd (w_trace w) = 0%nat →
  ∃ ev, mclagd_ctl_interactive_process fd w = ctl_dispatch fd info id (after ev (w_logger w) w) ∧ wrote fd ev = [].
Proof.
  intros Hfd Hi Hid Hs Hc. unfold mclagd_ctl_interactive_process, mclagd_ctl_sock_read.
  rewrite (proj2 (Z.ltb_ge _ _)) by done.
  destruct (ctl_read_run fd (request info id) (S (Z.to_nat (Z.of_nat (sizeof mclagdctl_req_hdr)))) []
    (replicate 512 0) 104 w) as (ev & E & Hw); [done|rewrite length_replicate; lia|apply leb_complete; reflexivity|rewrite Hc; apply leb_complete; reflexivity|].
  rewrite Hc in E. exists ev. split; [|done].
  change (Z.of_nat (sizeof mclagdctl_req_hdr)) with (Z.of_nat (length (A := Z) [] + 104)).
  change ([] ++ replicate 512 0) with (replicate 512 0) in E.
  rewrite (bind_ok _ _ _ _ _ E). cbv beta iota.
  change (Z.of_nat (length (A := Z) [] + 104) <? 0) with false. cbv iota.
  change (take 104 (drop 0 (request info id))) with (request info id).
  change ([] ++ request info id ++ drop 104 (replicate 512 0)) with ([] ++ le32 info ++ le32 id ++ replicate 504 0).
  rewrite (oob_bind _ (u32 info)) by (by apply rd32_le_at).
  rewrite (oob_bind _ (u32 id)) by (rewrite app_assoc; by apply rd32_le_at).
  by rewrite !to_int_u32.
Qed.

(** ** MAC entries of the memory *)

(** The entries of the tree of a machine. *)
Definition macs_of (w : World) (x : CSM) : list MACMsg := omap (λ p, w_macs w !! p) (mac_rb (MLACP x)).

(** The tree holds no dangling pointer, and the entries are as C has them. *)
Definition mac_bytes (m : MACMsg) : Prop :=
  mac_whole m ∧ Forall is_byte (mac_addr m) ∧ Forall is_byte (mac_ifname m) ∧ Forall is_byte (mac_origin_ifname m).
Definition macs_whole (w : World) (x : CSM) : Prop :=
  Forall (λ p, ∃ m, w_macs w !! p = Some m ∧ mac_bytes m) (mac_rb (MLACP x)).

Lemma macs_whole_fits w x : macs_whole w x → machine_fits ShowMac w x.
Proof. intros H. eapply Forall_impl; [exact H|]. intros p (m & Hp & [Hm _] & _). by exists m. Qed.

Lemma macs_whole_list w x : macs_whole w x → Forall mac_bytes (macs_of w x).
Proof.
  unfold macs_whole, macs_of. induction 1 as [|p ps (m & Hp & Hm) Hps IH]; simpl; [constructor|].
  rewrite Hp. by constructor.
Qed.

Lemma mac_structures w x : macs_whole w x → structures ShowMac w x = mac_struct <$> macs_of w x.
Proof.
  unfold macs_whole, structures, macs_of. induction 1 as [|p ps (m & Hp & [Hm _]) Hps IH]; simpl; [done|].
  rewrite Hp. unfold built at 1, mac_show. rewrite (deref_bind w_macs p m) by done.
  unfold filled. rewrite (mac_stores_run m Hm). simpl. by f_equal.
Qed.

Lemma mac_struct_bytes m : mac_bytes m → Forall is_byte (mac_struct m).
Proof.
  intros (_ & Ha & Hi & Ho). unfold mac_struct, field, u8, le16.
  repeat (apply Forall_app; split); try done; try apply replicate_bytes; try (by apply cstr_Forall);
    repeat constructor; apply mod256_byte || (unfold is_byte; lia) || idtac.
Qed.

(** ** The control program reads and writes *)

(** The program after some calls. *)
Definition later (ev : list event) (k : ctl) : ctl := k <| k_trace := ev ++ k_trace k |>.

Lemma later_nil k : later [] k = k.
Proof. by destruct k. Qed.

Lemma later_later ev1 ev2 k : later ev2 (later ev1 k) = later (ev2 ++ ev1) k.
Proof. unfold later. simpl. by rewrite app_assoc. Qed.

Lemma csys_bind {A} c (f : Z → C A) k :
  (r ← csys c; f r) k = f (k_env k (k_trace k) c) (later [(c, k_env k (k_trace k) c)] k).
Proof. done. Qed.

Lemma in_bounds_bind {A B} (o : option A) a (f : A → C B) k : o = Some a → (x ← in_bounds o; f x) k = f a k.
Proof. by intros ->. Qed.

Lemma cret_bind {A B} (a : A) (f : A → C B) k : (mret a ≫= f) k = f a k.
Proof. done. Qed.

Lemma cmodify_bind {A} h (f : unit → C A) k : (modify h ≫= f) k = f tt (h k).
Proof. done. Qed.

Section client.
Context (fd : Z).

Lemma write_run fuel bytes tail n k :
  accepts (k_env k) → (n ≤ length bytes)%nat → (length bytes - n < fuel)%nat →
  ∃ ev, write_loop fuel fd (bytes ++ tail) (Z.of_nat n) (Z.of_nat (length bytes)) k
      = Ok (Z.of_nat (length bytes)) (later ev k)
    ∧ wrote fd ev = drop n bytes ∧ ∀ tr, consumed fd (ev ++ tr) = consumed fd tr.
Proof.
  intros Hacc. revert n k Hacc. induction fuel as [|f IH]; intros n k Hacc Hn Hf; [lia|]. cbn [write_loop].
  rewrite Z.geb_leb. destruct (Z.leb_spec (Z.of_nat (length bytes)) (Z.of_nat n)) as [Hle|Hgt].
  { exists []. rewrite later_nil. assert (n = length bytes) as -> by lia. by rewrite drop_all. }
  set (rest := drop n bytes).
  assert (length rest = (length bytes - n)%nat) as Hr by (unfold rest; by rewrite length_drop).
  rewrite (in_bounds_bind _ rest).
  2: { unfold rd_bytes. rewrite Nat2Z.id, (proj2 (Nat.leb_le _ _)) by (rewrite length_app; lia). f_equal.
       rewrite drop_app_le by lia. fold rest. rewrite take_app_le by lia. apply take_ge. lia. }
  rewrite csys_bind. assert (rest ≠ []) as Hne by (intros H0; rewrite H0 in Hr; simpl in Hr; lia).
  destruct (Hacc (k_trace k) fd rest Hne) as [Hr1 Hr2].
  set (r := k_env k (k_trace k) (SysWrite fd rest)) in *. set (e := (SysWrite fd rest, r)).
  rewrite (proj2 (Z.leb_gt _ _)) by exact Hr1.
  destruct (IH (n + Z.to_nat r)%nat (later [e] k)) as (ev & E & Hw & Hc); [exact Hacc|lia|lia|].
  replace (Z.of_nat n + r) with (Z.of_nat (n + Z.to_nat r)) by lia. rewrite E, later_later.
  exists (ev ++ [e]). split; [done|]. split.
  - rewrite wrote_app, wrote_one, Hw. simpl. rewrite Z.eqb_refl. unfold rest. rewrite <-drop_drop. apply take_drop.
  - intros tr. rewrite <-app_assoc, Hc. done.
Qed.

Context (s : list Z).

Lemma read_stream_run n i k : serves fd s (k_env k) → (last_start fd (k_trace k) + i + n ≤ length s)%nat →
  ∃ ev, read_bytes fd (Z.of_nat i) n k = Ok (take n (drop (last_start fd (k_trace k) + i) s)) (later ev k)
    ∧ idle fd ev.
Proof.
  intros Hs. revert i k Hs. induction n as [|n IH]; intros i k Hs Hl; cbn [read_bytes].
  { exists []. rewrite later_nil. split; [done|apply idle_nil]. }
  set (p := (last_start fd (k_trace k) + i)%nat) in *.
  set (e := (SysRecvByte fd (Z.of_nat i), k_env k (k_trace k) (SysRecvByte fd (Z.of_nat i)))).
  destruct (IH (S i) (later [e] k)) as (ev & E & Hi); [exact Hs|simpl; lia|].
  rewrite csys_bind. replace (Z.of_nat i + 1) with (Z.of_nat (S i)) by lia. fold e. rewrite (bind_ok _ _ _ _ _ E).
  exists (ev ++ [e]). split; [|by apply idle_app, idle_byte].
  rewrite stream_piece by lia. rewrite (sv_byte _ _ _ Hs), stream_byte by (apply Hs || (fold p; lia)).
  fold p. rewrite later_later. simpl. by replace (last_start fd (k_trace k) + S i)%nat with (S p) by lia.
Qed.

Lemma read_run fuel got m k :
  serves fd s (k_env k) → (m < fuel)%nat → (consumed fd (k_trace k) + m ≤ length s)%nat →
  ∃ ev, read_loop fuel fd got (Z.of_nat (length got + m)) k
      = Ok (Z.of_nat (length got + m), got ++ take m (drop (consumed fd (k_trace k)) s)) (later ev k)
    ∧ wrote fd ev = [] ∧ consumed fd (ev ++ k_trace k) = (consumed fd (k_trace k) + m)%nat.
Proof.
  revert got m k. induction fuel as [|f IH]; intros got m k Hs Hf Hc; [lia|]. cbn [read_loop]. cbv zeta.
  rewrite Z.geb_leb. destruct (Z.leb_spec (Z.of_nat (length got + m)) (Z.of_nat (length got))) as [Hle|Hgt].
  { assert (m = 0%nat) as -> by lia. exists []. rewrite later_nil, !Nat.add_0_r. simpl. by rewrite app_nil_r. }
  rewrite csys_bind. pose proof (sv_select _ _ _ Hs (k_trace k)) as Hsel.
  set (e1 := (SysSelect fd, k_env k (k_trace k) (SysSelect fd))).
  rewrite (proj2 (Z.ltb_ge _ _)), (proj2 (Z.eqb_neq _ _)) by lia. set (k1 := later [e1] k).
  rewrite csys_bind. replace (Z.of_nat (length got + m) - Z.of_nat (length got)) with (Z.of_nat m) by lia.
  pose proof (sv_read _ _ _ Hs (k_trace k1) (Z.of_nat m)) as Hrd. simpl in Hrd.
  destruct Hrd as [Hr1 Hr2]; [lia|lia|]. set (r := k_env k (e1 :: k_trace k) (SysRead fd (Z.of_nat m))).
  change (0 < r) in Hr1. change (r ≤ Z.of_nat m `min` Z.of_nat (length s - consumed fd (k_trace k))) in Hr2.
  change (k_env k1 (k_trace k1) (SysRead fd (Z.of_nat m))) with r.
  rewrite (proj2 (Z.leb_gt _ _)) by exact Hr1.
  rewrite (Z.min_l r) by lia. set (c := Z.to_nat r). set (k2 := later [(SysRead fd (Z.of_nat m), r)] k1).
  set (p := consumed fd (k_trace k)) in *.
  assert (last_start fd (k_trace k2) = p) as Hst by (simpl; by rewrite Z.eqb_refl).
  assert (consumed fd (k_trace k2) = (c + p)%nat) as Hco by (simpl; by rewrite Z.eqb_refl).
  destruct (read_stream_run c 0 k2) as (ev & E & Hid); [exact Hs|rewrite Hst; lia|].
  rewrite (bind_ok _ _ _ _ _ E). rewrite Hst, Nat.add_0_r. set (bs := take c (drop p s)).
  assert (length bs = c) as Hbs by (unfold bs; rewrite length_take, length_drop; lia).
  set (k3 := later ev k2). pose proof (proj1 (proj2 Hid (k_trace k2))) as Hco3.
  change (ev ++ k_trace k2) with (k_trace k3) in Hco3. rewrite Hco in Hco3.
  destruct (IH (got ++ bs) (m - c)%nat k3) as (ev' & E' & Hw' & Hc'); [exact Hs|lia|lia|].
  rewrite length_app, Hbs in E'. replace (length got + m)%nat with (length got + c + (m - c))%nat by lia. rewrite E'.
  exists (ev' ++ ev ++ [(SysRead fd (Z.of_nat m), r); e1]). split; [|split].
  - rewrite Hco3. unfold k3, k2, k1. rewrite !later_later. rewrite <-!app_assoc. f_equal. f_equal. f_equal. unfold bs. rewrite (Nat.add_comm c p), <-drop_drop, take_take_drop. f_equal. lia.
  - rewrite !wrote_app, Hw', (proj1 Hid). done.
  - rewrite <-!app_assoc. change (ev ++ [(SysRead fd (Z.of_nat m), r); e1] ++ k_trace k) with (k_trace k3).
    rewrite Hc', Hco3. lia.
Qed.
End client.

(** ** The control program asks *)

(** What the kernel does for a client that is connected as [fd] to a daemon that
    writes [s]. *)
Record connects (fd : Z) (s : list Z) (env : list event → syscall → Z) : Prop := {
  cn_fd : 0 < fd;
  cn_socket : ∀ tr, env tr SysUnixSocket = fd;
  cn_connect : ∀ tr path len, 0 ≤ env tr (SysUnixConnect fd path len);
  cn_malloc : ∀ tr n, env tr (SysMalloc n) ≠ 0;
  cn_accepts : accepts env;
  cn_serves : serves fd s env
}.

Lemma enca_run info id k : 0 < id →
  enca_with_id info id (replicate (Z.to_nat MCLAGDCTL_CMD_SIZE) 0) k
  = Ok (1, request info id ++ replicate 3992 0) k.
Proof.
  intros Hid. unfold enca_with_id. rewrite (proj2 (Z.leb_gt _ _)) by exact Hid. unfold enca_req.
  rewrite (in_bounds_bind _ (request info id)) by reflexivity.
  rewrite (in_bounds_bind _ (request info id ++ replicate 3992 0)); [reflexivity|].
  change (replicate (Z.to_nat MCLAGDCTL_CMD_SIZE) 0) with ([] ++ replicate 104 0 ++ replicate 3992 0).
  by apply (put_at []).
Qed.

(** What the client reads behind the length of a reply. *)
Definition reply_rest (info : Z) (es : list (list Z)) : list Z := drop 4 (data_reply info es).

Lemma reply_rest_length info es : length (reply_rest info es) = (12 + length (concat es))%nat.
Proof. unfold reply_rest, data_reply. rewrite length_drop, length_app, header_length. change MCLAGD_REPLY_INFO_HDR with 16%nat. lia. Qed.

Section exchange.
Context (fd : Z) (c : command_type) (parse : list Z → Z → C Z) (es : list (list Z)) (out : list Z).
Hypothesis info_int : is_int (ct_info c).
Hypothesis small : 12 + Z.of_nat (length (concat es)) < 2 ^ 31.
Hypothesis parse_prints : prints (parse (concat es) (Z.of_nat (length (concat es)))) 0 out.

Lemma main_reply_run id k :
  main_reply c parse id (reply_rest (ct_info c) es) k = Ok EXIT_SUCCESS (k <| k_out ::= λ o, o ++ out |>).
Proof.
  unfold main_reply. cbv zeta.
  change (reply_rest (ct_info c) es)
    with ([] ++ le32 (ct_info c) ++ le32 (Z.of_nat (length (concat es))) ++ le32 EXEC_TYPE_SUCCESS ++ concat es).
  rewrite (in_bounds_bind _ (u32 (ct_info c))) by (by apply rd32_le_at).
  rewrite to_int_u32, Z.eqb_refl by done. cbn [negb].
  rewrite (in_bounds_bind _ (u32 EXEC_TYPE_SUCCESS)) by (rewrite app_nil_l, app_assoc; by apply rd32_le_at).
  change (to_int (u32 EXEC_TYPE_SUCCESS)) with EXEC_TYPE_SUCCESS. cbv iota.
  change (EXEC_TYPE_SUCCESS =? EXEC_TYPE_NO_EXIST_SYS) with false.
  change (EXEC_TYPE_SUCCESS =? EXEC_TYPE_NO_EXIST_MCLAGID) with false.
  change (EXEC_TYPE_SUCCESS =? EXEC_TYPE_FAILED) with false. cbv iota.
  set (body := _ ++ _ ++ _ ++ _ ++ concat es).
  assert (drop (sizeof mclagd_reply_hdr) body = concat es) as -> by reflexivity.
  assert (Z.of_nat (length body) - Z.of_nat (sizeof mclagd_reply_hdr) = Z.of_nat (length (concat es))) as ->.
  { unfold body. rewrite !length_app. change (sizeof mclagd_reply_hdr) with 12%nat. cbn [length le32 le16 app]. lia. }
  by rewrite (bind_ok _ _ _ _ _ (parse_prints k)).
Qed.

Lemma main_exchange_run id k :
  connects fd (data_reply (ct_info c) es) (k_env k) → k_fd k = fd → consumed fd (k_trace k) = 0%nat → 0 < id →
  ∃ ev, main_exchange c (enca_with_id (ct_info c)) parse id k = Ok EXIT_SUCCESS (later ev k <| k_out ::= λ o, o ++ out |>)
    ∧ wrote fd ev = request (ct_info c) id.
Proof.
  intros Hc Hfd Hco Hid. destruct Hc as [Hpos _ _ Hm Hacc Hs]. unfold main_exchange.
  assert (gets k_fd k = Ok fd k) as Hg by (unfold gets; by rewrite Hfd). rewrite (bind_ok _ _ _ _ _ Hg).
  rewrite (bind_ok _ _ _ _ _ (enca_run (ct_info c) id k Hid)). cbv beta iota.
  change (1 <? 0) with false. cbv iota.
  (* the request *)
  destruct (write_run fd (S (Z.to_nat (Z.of_nat (sizeof mclagdctl_req_hdr)))) (request (ct_info c) id) (replicate 3992 0) 0 k)
    as (ev1 & E1 & Hw1 & Hc1); [done|apply leb_complete; reflexivity|apply leb_complete; reflexivity|].
  change (Z.of_nat (length (request (ct_info c) id))) with (Z.of_nat (sizeof mclagdctl_req_hdr)) in E1.
  unfold mclagdctl_sock_write. change (Z.of_nat 0) with 0 in E1. rewrite (bind_ok _ _ _ _ _ E1). clear E1.
  change (Z.of_nat (sizeof mclagdctl_req_hdr) <=? 0) with false. cbv iota. set (k1 := later ev1 k).
  assert (consumed fd (k_trace k1) = 0%nat) as Hk1 by (unfold k1; simpl; by rewrite Hc1).
  (* the length of the reply *)
  set (s := data_reply (ct_info c) es) in *.
  assert (length s = (16 + length (concat es))%nat) as Hls.
  { unfold s, data_reply. by rewrite length_app, header_length. }
  destruct (read_run fd s 5 [] 4 k1) as (ev2 & E2 & Hw2 & Hc2); [done|lia|rewrite Hk1, Hls; lia|].
  rewrite Hk1 in E2, Hc2. unfold mclagdctl_sock_read at 1. change (S (Z.to_nat 4)) with 5%nat.
  change (Z.of_nat (length (A := Z) [] + 4)) with 4 in E2. rewrite (bind_ok _ _ _ _ _ E2). clear E2. cbv beta iota.
  change (4 <=? 0) with false. cbv iota. set (k2 := later ev2 k1).
  set (n := Z.of_nat (length (concat es)) + Z.of_nat (sizeof mclagd_reply_hdr)).
  change ([] ++ take 4 (drop 0 s)) with ([] ++ le32 n ++ []).
  rewrite (in_bounds_bind _ (u32 n)) by (by apply rd32_le_at).
  assert (n = Z.of_nat (length (reply_rest (ct_info c) es))) as Hn.
  { rewrite reply_rest_length. unfold n. change (sizeof mclagd_reply_hdr) with 12%nat. lia. }
  assert (0 < n < 2 ^ 31) as Hnr by (rewrite Hn, reply_rest_length; lia).
  rewrite to_int_u32 by (unfold is_int; lia). rewrite (proj2 (Z.leb_gt _ _)) by lia.
  rewrite csys_bind, (proj2 (Z.eqb_neq _ _)) by apply Hm. set (k3 := later _ k2).
  assert (consumed fd (k_trace k3) = 4%nat) as Hk3 by (exact Hc2).
  (* the rest *)
  destruct (read_run fd s (S (Z.to_nat n)) [] (Z.to_nat n) k3) as (ev3 & E3 & Hw3 & _);
    [done|lia|rewrite Hk3, Hls; rewrite Hn, reply_rest_length; lia|].
  rewrite Hk3 in E3. unfold mclagdctl_sock_read.
  replace (Z.of_nat (length (A := Z) [] + Z.to_nat n)) with n in E3 by (simpl; lia).
  rewrite (bind_ok _ _ _ _ _ E3). clear E3. cbv beta iota. rewrite (proj2 (Z.leb_gt _ _)) by lia.
  replace ([] ++ take (Z.to_nat n) (drop 4 s)) with (reply_rest (ct_info c) es).
  2: { rewrite app_nil_l, take_ge; [done|]. rewrite Hn, Nat2Z.id. done. }
  rewrite main_reply_run. unfold k3, k2, k1. rewrite !later_later. eexists. split; [reflexivity|].
  by rewrite !wrote_app, Hw3, Hw2, Hw1, wrote_one.
Qed.
End exchange.

Lemma wrote_cons fd e ev : wrote fd (e :: ev) = wrote fd ev ++ put_on fd e.
Proof. change (e :: ev) with ([e] ++ ev). by rewrite wrote_app, wrote_one. Qed.

(** A client that was started: no socket yet, no call made. *)
Definition started (k : ctl) : Prop := k_fd k = -1 ∧ k_trace k = [].

(** The command line [mclagdctl -i id dump mac] *)
Definition dump_mac_args (id : Z) : list (list Z) := [str "-i"; fmt_d id; str "dump"; str "mac"].

Lemma main_run argv0 id fd es out k :
  0 < id < 2 ^ 31 → started k → connects fd (data_reply INFO_TYPE_DUMP_MAC es) (k_env k) →
  12 + Z.of_nat (length (concat es)) < 2 ^ 31 →
  prints (mclagdctl_parse_dump_mac (concat es) (Z.of_nat (length (concat es)))) 0 out →
  ∃ k', main argv0 (dump_mac_args id) k = Ok EXIT_SUCCESS k'
    ∧ k_out k' = k_out k ++ out ∧ k_err k' = k_err k ∧ wrote fd (k_trace k') = request INFO_TYPE_DUMP_MAC id.
Proof.
  intros Hid [Hkfd Htr] Hc Hsm Hp. unfold main.
  change (getopt_long (length (dump_mac_args id)) (dump_mac_args id)) with ([OptId (fmt_d id)], [str "dump"; str "mac"]).
  cbv beta iota. change (main_opts argv0 [OptId (fmt_d id)] 0) with (mret (M := C) (inl (B := Z) (atoi (fmt_d id)))).
  rewrite atoi_fmt_d by lia. rewrite cret_bind. cbv iota.
  change (mclagdctl_find_cmd [str "dump"; str "mac"]) with (inl (B := list Z) (cmd_dump_mac, @nil (list Z))). cbv iota beta.
  change (mclagdctl_check_cmd_params cmd_dump_mac []) with (@None (list Z)). cbn [cmd_dump_mac ct_funs]. cbv iota.
  assert (gets k_fd k = Ok (-1) k) as Hg by (unfold gets; by rewrite Hkfd). rewrite (bind_ok _ _ _ _ _ Hg).
  change (-1 <=? 0) with true. cbv iota.
  assert (∃ ev, mclagdctl_sock_connect k = Ok 0 (later ev k <| k_fd := fd |>)
    ∧ wrote fd ev = [] ∧ consumed fd ev = 0%nat) as (ev & E & Hw & Hco).
  { unfold mclagdctl_sock_connect. rewrite (bind_ok _ _ _ _ _ Hg). change (-1 >=? 0) with false. cbv iota.
    change (strlen mclagdctl_sock_path <=? 0) with false. cbv iota. rewrite csys_bind, (cn_socket _ _ _ Hc).
    pose proof (cn_fd _ _ _ Hc) as Hpos. rewrite cmodify_bind. rewrite (proj2 (Z.ltb_ge _ _)) by lia. rewrite csys_bind.
    simpl. rewrite (proj2 (Z.ltb_ge _ _)) by apply Hc. eexists [_; _]. split; [reflexivity|]. done. }
  rewrite (bind_ok _ _ _ _ _ E). change (0 <? 0) with false. cbv iota. set (k1 := _ <| k_fd := fd |>).
  destruct (main_exchange_run fd cmd_dump_mac mclagdctl_parse_dump_mac es out) with (id := id) (k := k1)
    as (ev2 & E2 & Hw2); [by vm_compute|done|done| |done| |lia|].
  { exact Hc. }
  { simpl. by rewrite Htr, app_nil_r. }
  change (mclagdctl_enca_dump_mac) with (enca_with_id (ct_info cmd_dump_mac)). rewrite (bind_ok _ _ _ _ _ E2).
  set (k2 := later ev2 k1 <| k_out ::= _ |>). unfold mclagdctl_sock_close. rewrite bind_assoc.
  assert (gets k_fd k2 = Ok fd k2) as Hg2 by done. rewrite (bind_ok _ _ _ _ _ Hg2).
  rewrite Z.gtb_ltb, (proj2 (Z.ltb_lt _ _)) by apply Hc. cbn [when]. rewrite bind_assoc, csys_bind, cmodify_bind.
  eexists. split; [reflexivity|]. split; [done|]. split; [done|].
  simpl. rewrite Htr, app_nil_r. by rewrite wrote_cons, wrote_app, Hw2, Hw.
Qed.

(** ** Both together *)

(** The MAC entries of the machines asked for *)
Definition shown_macs (id : Z) (w : World) : list MACMsg := concat (macs_of w <$> selected id w).

Lemma shown_structures id w : Forall (macs_whole w) (selected id w) →
  concat (structures ShowMac w <$> selected id w) = mac_struct <$> shown_macs id w.
Proof.
  unfold shown_macs. induction 1 as [|x xs Hx Hxs IH]; [done|]. cbn [fmap list_fmap concat].
  rewrite fmap_app. f_equal; [by apply mac_structures|exact IH].
Qed.

Lemma shown_whole id w : Forall (macs_whole w) (selected id w) → Forall mac_bytes (shown_macs id w).
Proof.
  unfold shown_macs. induction 1 as [|x xs Hx Hxs IH]; [constructor|]. cbn [fmap list_fmap concat].
  apply Forall_app. split; [by apply macs_whole_list|exact IH].
Qed.

(** 76 does not divide a length between the bound of the program, which does not count the
    first word of the reply, and the one of the daemon, which does. *)
Lemma reply_macs_fit id w : Forall (macs_whole w) (selected id w) →
  12 + Z.of_nat (length (shown_macs id w) * sizeof mclagd_mac_msg) < 2 ^ 31 →
  reply_fits (concat (structures ShowMac w <$> selected id w)).
Proof.
  intros Hm Hsm. unfold reply_fits. rewrite (shown_structures id w Hm).
  rewrite (concat_length (sizeof mclagd_mac_msg)), length_fmap; [|].
  - change (sizeof mclagd_mac_msg) with 76%nat in *. change MCLAGD_REPLY_INFO_HDR with 16%nat. lia.
  - apply Forall_fmap. eapply Forall_impl; [by apply shown_whole|]. intros m [Hw _]. by apply mac_struct_length.
Qed.

(** C38. [mclagdctl -i id dump mac], from the daemon's memory to the screen.  The request
    the control program writes is read by the daemon, however its socket delivers it, and is
    answered without changing the daemon; given what the daemon wrote, again in pieces of any
    size, the program exits successfully and prints one line for every MAC entry of the domain,
    in the order of the trees and with its type, address, VLAN, interfaces and age, and nothing
    else. *)
Theorem show_mac_end_to_end argv0 id cfd w :
  0 < id < 2 ^ 31 → 0 ≤ cfd →
  csms_linked w → selected id w ≠ [] → Forall (macs_whole w) (selected id w) →
  12 + Z.of_nat (length (shown_macs id w) * sizeof mclagd_mac_msg) < 2 ^ 31 →
  serves cfd (request INFO_TYPE_DUMP_MAC id) (w_env w) → consumed cfd (w_trace w) = 0%nat →
  accepts (w_env w) → plentiful (w_env w) →
  ∃ ev lg, mclagd_ctl_interactive_process cfd w = Ok 0 (after ev lg w)
    ∧ wrote cfd ev = data_reply INFO_TYPE_DUMP_MAC (mac_struct <$> shown_macs id w)
    ∧ ∀ fd k, started k → connects fd (wrote cfd ev) (k_env k) →
      ∃ k', main argv0 (dump_mac_args id) k = Ok EXIT_SUCCESS k'
        ∧ k_out k' = k_out k ++ mac_table (shown_macs id w) ∧ k_err k' = k_err k
        ∧ wrote fd (k_trace k') = request INFO_TYPE_DUMP_MAC id.
Proof.
  intros Hid Hcfd Hl Hsel Hm Hsm Hs Hco Hacc Hpl.
  pose proof (shown_whole id w Hm) as Hb.
  assert (Forall mac_whole (shown_macs id w)) as Hwh by (eapply Forall_impl; [exact Hb|]; by intros ? []).
  destruct (interactive_run cfd INFO_TYPE_DUMP_MAC id w) as (ev1 & E1 & Hw1); [done|by vm_compute|unfold is_int; lia|done..|].
  set (w1 := after ev1 (w_logger w) w) in *.
  destruct (show_handler_run ShowMac cfd id w1) as (ev2 & lg & reply & E2 & Hr & _ & Ha).
  { exact Hl. } { eapply Forall_impl; [exact Hm|]. intros x Hx. by apply (macs_whole_fits w1). }
  { by apply reply_macs_fit. }
  destruct Hr as [Hr|(_ & _ & Hn)]; [|by destruct Hn].
  change (selected id w1) with (selected id w) in Hr.
  assert (reply = data_reply INFO_TYPE_DUMP_MAC (mac_struct <$> shown_macs id w)) as ->.
  { rewrite Hr. unfold show_reply. rewrite bool_decide_eq_false_2 by done. rewrite andb_false_r.
    f_equal. exact (shown_structures id w1 Hm). }
  exists (ev2 ++ ev1), lg. rewrite wrote_app, Hw1, app_nil_l, (Ha Hacc). split; [|split; [done|]].
  { rewrite E1. change (ctl_dispatch cfd INFO_TYPE_DUMP_MAC id w1) with ((show_handler ShowMac cfd id;; mret 0) w1).
    rewrite (bind_ok _ _ _ _ _ E2). unfold w1. by rewrite after_after. }
  intros fd k Hk Hc.
  eapply main_run; [done|done|exact Hc| |by apply parse_mac_prints].
  rewrite (concat_length (sizeof mclagd_mac_msg)).
  - by rewrite length_fmap.
  - apply Forall_fmap. eapply Forall_impl; [exact Hwh|]. apply mac_struct_length.
Qed.

(** A socket that delivers [s] in pieces of at most 40 bytes. *)
Definition stream_env (fd : Z) (s : list Z) (tr : list event) (c : syscall) : Z :=
  match c with
  | SysUnixSocket => fd
  | SysSelect _ => 1
  | SysRead _ len => Z.min 40 (Z.min len (Z.of_nat (length s - consumed fd tr)))
  | SysRecvByte _ i => default 0 (s !! (last_start fd tr + Z.to_nat i)%nat)
  | _ => calm tr c
  end.

Lemma stream_serves fd s : Forall is_byte s → serves fd s (stream_env fd s).
Proof.
  intros Hs. split; [done|done| |].
  - intros tr len Hlen Hc. cbn [stream_env]. lia.
  - intros tr i Hi. cbn [stream_env]. by rewrite Nat2Z.id.
Qed.

Lemma stream_connects fd s : 0 < fd → Forall is_byte s → connects fd s (stream_env fd s).
Proof.
  intros Hfd Hs. split; [done..| |by apply stream_serves]. intros tr fd' data Hd. by apply (calm_accepts tr fd').
Qed.

Lemma header_bytes i n r : Forall is_byte (header i n r).
Proof. unfold header. repeat (apply Forall_app; split); repeat constructor; apply mod256_byte. Qed.

Lemma request_bytes info id : Forall is_byte (request info id).
Proof. unfold request. repeat (apply Forall_app; split); [repeat constructor; apply mod256_byte..|apply replicate_bytes]. Qed.

Lemma shown_mac_whole env : Forall (macs_whole (show_world env)) (selected 100 (show_world env)).
Proof.
  assert (selected 100 (show_world env) = [set_MLACP (set mac_rb (λ _, [9])) (session_csm 100)]) as -> by reflexivity.
  apply Forall_singleton, Forall_singleton. exists shown_mac. split; [apply lookup_singleton_eq|].
  split; [by split|]. split; [|split]; repeat constructor; unfold is_byte; lia.
Qed.

Lemma show_mac_end_to_end_witness :
  let w := show_world (stream_env 7 (request INFO_TYPE_DUMP_MAC 100)) in
  ∃ ev lg k, mclagd_ctl_interactive_process 7 w = Ok 0 (after ev lg w)
    ∧ main (str "mclagdctl") (dump_mac_args 100) (mkCtl (-1) [] [] (stream_env 3 (wrote 7 ev)) (λ _, []) []) = Ok EXIT_SUCCESS k
    ∧ k_out k = mac_table [shown_mac] ∧ wrote 3 (k_trace k) = request INFO_TYPE_DUMP_MAC 100.
Proof.
  intros w. destruct (show_mac_end_to_end (str "mclagdctl") 100 7 w) as (ev & lg & E & Hw & H).
  - lia.
  - lia.
  - apply show_world_linked.
  - intros [=].
  - apply shown_mac_whole.
  - by vm_compute.
  - apply stream_serves, request_bytes.
  - reflexivity.
  - intros tr fd' data Hd. by apply (calm_accepts tr fd').
  - intros tr n. by apply (calm_plentiful tr n).
  - destruct (H 3 (mkCtl (-1) [] [] (stream_env 3 (wrote 7 ev)) (λ _, []) [])) as (k & E' & Ho & _ & Hr).
    + by split.
    + apply stream_connects; [lia|]. rewrite Hw. apply Forall_app. split; [apply header_bytes|].
      apply Forall_concat, Forall_fmap. eapply Forall_impl; [apply shown_whole, shown_mac_whole|]. apply mac_struct_bytes.
    + exists ev, lg, k. split; [exact E|]. split; [exact E'|]. split; [exact Ho|exact Hr].
Defined.
