(* ===== verification/Handshake.v ===== *)
(** * Two nodes

    Two daemons joined by a session: each runs [iccp_csm_transit] on its own
    machine; what one writes on its socket travels to the other, which queues it
    as [scheduler_csm_read_callback] does.  Whatever the interleaving, both machines
    reach the operational state; with a peer of another group a machine never does; and
    a machine alone refines an abstract contract. *)

From S2P Require Import Prelude CMem CString MsgFormat State Machine Frame IccpMsg IccpQueue SyncPrepare Port.
From S2P Require Import Syncd Standby MacTable LinkHandler AppCsm IccpCsm Scheduler Boot FrameSend FrameSteps.
From S2P Require Import Connection.
#[local] Open Scope Z_scope.

(** ** The network *)

(** A node: its memory, the machine of the session, and the messages on their way
    to it. *)
Record node : Type := Node {
  n_world : World;
  n_csm : ptr;
  n_wire : list (list Z)
}.

Definition n_fd (n : node) : Z :=
  match w_csms (n_world n) !! n_csm n with Some x => sock_fd x | None => -1 end.

(** The bytes an event puts on the socket [fd]. *)
Definition event_bytes (fd : Z) (e : event) : option (list Z) :=
  match e with
  | (SysWrite fd' data, r) => if fd' =? fd then Some (take (Z.to_nat r) data) else None
  | _ => None
  end.

(** What was written between two moments, the oldest first. *)
Definition written_since (fd : Z) (w w' : World) : list (list Z) :=
  omap (event_bytes fd) (reverse (take (length (w_trace w') - length (w_trace w)) (w_trace w'))).

Inductive act : Type :=
| Turn (side : bool)
| Deliver (side : bool).

(** A transition of a node, with what it writes. *)
Definition node_turn (n : node) : option (node * list (list Z)) :=
  match iccp_csm_transit (n_csm n) (n_world n) with
  | Ok _ w' => Some (Node w' (n_csm n) (n_wire n), written_since (n_fd n) (n_world n) w')
  | Fault _ => None
  end.

(** The arrival of a message. *)
Definition node_deliver (n : node) : option node :=
  match n_wire n with
  | [] => Some n
  | b :: rest =>
      match csm_read_message (n_csm n) b (Z.of_nat (length b)) (n_world n) with
      | Ok _ w' => Some (Node w' (n_csm n) rest)
      | Fault _ => None
      end
  end.

Definition node_push (bs : list (list Z)) (n : node) : node := Node (n_world n) (n_csm n) (n_wire n ++ bs).

Definition net_step (a : act) (s : node * node) : option (node * node) :=
  match a with
  | Turn true => '(n, bs) ← node_turn s.1; Some (n, node_push bs s.2)
  | Turn false => '(n, bs) ← node_turn s.2; Some (node_push bs s.1, n)
  | Deliver true => n ← node_deliver s.1; Some (n, s.2)
  | Deliver false => n ← node_deliver s.2; Some (s.1, n)
  end.

Fixpoint net_run (l : list act) (s : node * node) : option (node * node) :=
  match l with
  | [] => Some s
  | a :: l' => net_step a s ≫= net_run l'
  end.

(** A round in which nothing is neglected. *)
Definition fair (l : list act) : Prop := ∀ a, a ∈ l.

Definition n_state (n : node) : option ICCP_CONNECTION_STATE :=
  current_state <$> w_csms (n_world n) !! n_csm n.

(** The environment: memory is available, and the socket takes the whole message. *)
Definition reliable (env : list event → syscall → Z) : Prop :=
  (∀ tr n, env tr (SysMalloc n) ≠ 0) ∧ (∀ tr fd data, env tr (SysWrite fd data) = Z.of_nat (length data)).

(** A node whose session has just been set up. *)
Definition fresh_flags (i : IccpInfo) : Prop :=
  sender_capability_flag i = 1 ∧ peer_capability_flag i = 0 ∧ sender_rg_connect_flag i = 0
  ∧ peer_rg_connect_flag i = 0 ∧ status_code i = 0.

Record fresh (rg : Z) (n : node) : Prop := {
  fr_env : reliable (w_env (n_world n));
  fr_csm : ∃ x, conn_ok (w_env (n_world n)) (n_csm n) x (n_world n)
             ∧ current_state x = ICCP_INITIALIZED ∧ fresh_flags (iccp_info x)
             ∧ icc_rg_id (iccp_info x) = rg ∧ msg_list x = [];
  fr_wire : n_wire n = []
}.

(** ** The phases of a node *)

Inductive phase : Type := PhInit | PhCapSent | PhCapRec | PhConnecting | PhOperational.
Inductive kind : Type := KCap | KConn.

Definition phase_state (p : phase) : ICCP_CONNECTION_STATE :=
  match p with
  | PhInit => ICCP_INITIALIZED
  | PhCapSent => ICCP_CAPSENT
  | PhCapRec => ICCP_CAPREC
  | PhConnecting => ICCP_CONNECTING
  | PhOperational => ICCP_OPERATIONAL
  end.

(** The flags of a phase: what was received, and whether the group was asked for. *)
Definition phase_info (p : phase) (i : IccpInfo) : IccpInfo :=
  match p with
  | PhInit | PhCapSent => i
  | PhCapRec => i <| peer_capability_flag := 1 |>
  | PhConnecting => i <| peer_capability_flag := 1 |> <| sender_rg_connect_flag := 1 |>
  | PhOperational =>
      i <| peer_capability_flag := 1 |> <| sender_rg_connect_flag := 1 |> <| peer_rg_connect_flag := 1 |>
  end.

(** What a node has received, and what it has sent. *)
Definition received (p : phase) : list kind :=
  match p with
  | PhInit | PhCapSent => []
  | PhCapRec | PhConnecting => [KCap]
  | PhOperational => [KCap; KConn]
  end.

Definition sent (p : phase) : list kind :=
  match p with
  | PhInit => []
  | PhCapSent | PhCapRec => [KCap]
  | PhConnecting | PhOperational => [KCap; KConn]
  end.

Definition phase_next (p : phase) (m : option kind) : phase :=
  match p, m with
  | PhInit, None => PhCapSent
  | PhInit, Some _ | PhCapSent, Some _ => PhCapRec
  | PhCapRec, None => PhConnecting
  | PhCapRec, Some _ | PhConnecting, Some _ => PhOperational
  | _, _ => p
  end.

(** What the move from a phase to the next sends. *)
Definition phase_out (p : phase) : option kind :=
  match p with
  | PhInit => Some KCap
  | PhCapRec => Some KConn
  | _ => None
  end.

Definition kind_msg (rg : Z) (k : kind) (m : conn_msg) : Prop :=
  match k with
  | KCap => m = CmCapability 1
  | KConn => ∃ name, m = CmConnect rg name
  end.

(** The next message of the phase, if there is one. *)
Definition expected (p : phase) (k : option kind) : Prop :=
  match k with
  | None => True
  | Some k => received (phase_next p (Some k)) = received p ++ [k]
  end.

(** The contract, on a phase. *)
Lemma conn_transit_phase p i rg k m :
  fresh_flags i → icc_rg_id i = rg → expected p k → option_relation (kind_msg rg) (λ _, False) (λ _, False) k m →
  ∃ out, conn_transit (phase_state p) (phase_info p i) m
         = (phase_state (phase_next p k), phase_info (phase_next p k) i, out)
    ∧ option_relation (kind_msg rg) (λ _, False) (λ _, False) (phase_out p) out.
Proof.
  intros (H1 & H2 & H3 & H4 & H5) Hrg He Hm.
  destruct i as [r nm st rj sc pc sr pr]; simpl in *; subst.
  destruct p, k as [[]|], m as [m|]; simpl in *; try done; subst; try (destruct Hm as [name ->]).
  all: unfold conn_transit, absorb, check_id_info; simpl; rewrite ?Z.eqb_refl; simpl.
  all: eexists; split; [reflexivity|]; simpl; eauto.
Qed.

(** ** The phases over the network *)

(** A node seen by its phase, its queue and what is on its way. *)
Record peer : Type := Peer { p_phase : phase; p_box : list kind; p_chan : list kind }.

Definition peer_turn (p : peer) : peer * list kind :=
  (Peer (phase_next (p_phase p) (head (p_box p))) (tail (p_box p)) (p_chan p), option_list (phase_out (p_phase p))).

Definition peer_deliver (p : peer) : peer :=
  match p_chan p with
  | [] => p
  | k :: rest => Peer (p_phase p) (p_box p ++ [k]) rest
  end.

Definition peer_push (ks : list kind) (p : peer) : peer := Peer (p_phase p) (p_box p) (p_chan p ++ ks).

Definition pair_step (a : act) (s : peer * peer) : peer * peer :=
  match a with
  | Turn true => let r := peer_turn s.1 in (r.1, peer_push r.2 s.2)
  | Turn false => let r := peer_turn s.2 in (peer_push r.2 s.1, r.1)
  | Deliver true => (peer_deliver s.1, s.2)
  | Deliver false => (s.1, peer_deliver s.2)
  end.

(** Nothing is lost or reordered: what one has sent, the other has received, or has
    queued, or will get. *)
Definition linked (p q : peer) : Prop := sent (p_phase p) = received (p_phase q) ++ p_box q ++ p_chan q.
Definition pair_ok (s : peer * peer) : Prop := linked s.1 s.2 ∧ linked s.2 s.1.

(** What is left to do. *)
Definition phase_rank (p : phase) : nat :=
  match p with PhInit => 8 | PhCapSent => 6 | PhCapRec => 4 | PhConnecting => 2 | PhOperational => 0 end.
Definition peer_rank (p : peer) : nat := phase_rank (p_phase p) + length (p_chan p).
Definition pair_rank (s : peer * peer) : nat := peer_rank s.1 + peer_rank s.2.

Definition done_pair (s : peer * peer) : Prop := p_phase s.1 = PhOperational ∧ p_phase s.2 = PhOperational.

(** The queue of a linked node holds at most what its phase expects. *)
Lemma linked_cases p q :
  linked p q → match p_phase q with
               | PhInit | PhCapSent => p_box q = [] ∨ p_box q = [KCap] ∨ p_box q = [KCap; KConn]
               | PhCapRec | PhConnecting => p_box q = [] ∨ p_box q = [KConn]
               | PhOperational => p_box q = []
               end.
Proof.
  unfold linked. destruct p as [ph b c], q as [ph' b' c']; simpl. intros H.
  destruct ph, ph'; simpl in H; simplify_list_eq; try done;
    destruct b' as [|k1 [|k2 [|k3 b']]]; simplify_list_eq; auto.
Qed.

Lemma turn_linked p q :
  linked p q → linked q p →
  let r := peer_turn q in
  linked p r.1 ∧ linked r.1 (peer_push r.2 p) ∧ expected (p_phase q) (head (p_box q))
  ∧ (r = (q, []) ∨ (peer_rank r.1 + length r.2 < peer_rank q)%nat).
Proof.
  intros Hpq Hqp r. pose proof (linked_cases _ _ Hpq) as Hc. unfold linked in *. subst r.
  destruct q as [ph b c], p as [ph' b' c']; unfold peer_turn; simpl in *.
  destruct ph; repeat match goal with H : _ ∨ _ |- _ => destruct H end; subst; simpl in *.
  all: rewrite app_assoc in Hqp; rewrite ?app_nil_r, ?app_assoc, <-?Hqp; unfold peer_rank; simpl.
  all: split_and!; try done; try (by left); try (right; lia).
Qed.

Lemma deliver_linked p q :
  linked p q →
  linked p (peer_deliver q) ∧ p_phase (peer_deliver q) = p_phase q
  ∧ (peer_deliver q = q ∨ (peer_rank (peer_deliver q) < peer_rank q)%nat).
Proof.
  unfold linked, peer_deliver, peer_rank. destruct q as [ph b [|k c]]; simpl; intros H; [auto|].
  split; [|split; [done|right; lia]]. by rewrite <-app_assoc.
Qed.

Lemma push_rank ks p : peer_rank (peer_push ks p) = (peer_rank p + length ks)%nat.
Proof. unfold peer_rank, peer_push. simpl. rewrite length_app. lia. Qed.

Lemma push_nil p : peer_push [] p = p.
Proof. destruct p. unfold peer_push. simpl. by rewrite app_nil_r. Qed.

Lemma pair_step_ok a s :
  pair_ok s → pair_ok (pair_step a s) ∧ (pair_step a s = s ∨ (pair_rank (pair_step a s) < pair_rank s)%nat).
Proof.
  destruct s as [p q]. intros [Hp Hq]. unfold pair_ok, pair_rank. simpl in *.
  destruct a as [[]|[]]; cbn [pair_step fst snd]; cbv zeta.
  - destruct (turn_linked q p Hq Hp) as (H1 & H2 & _ & H3). split; [done|].
    destruct H3 as [-> | H3]; [left; by rewrite push_nil|right]. rewrite push_rank. lia.
  - destruct (turn_linked p q Hp Hq) as (H1 & H2 & _ & H3). split; [done|].
    destruct H3 as [-> | H3]; [left; by rewrite push_nil|right]. rewrite push_rank. lia.
  - destruct (deliver_linked q p Hq) as (H1 & H2 & H3). unfold linked in *. rewrite H2 in *.
    split; [done|]. destruct H3 as [-> | H3]; [by left|right; lia].
  - destruct (deliver_linked p q Hp) as (H1 & H2 & H3). unfold linked in *. rewrite H2 in *.
    split; [done|]. destruct H3 as [-> | H3]; [by left|right; lia].
Qed.

(** As long as one of the nodes is not operational, something can happen. *)
Lemma pair_progress s : pair_ok s → done_pair s ∨ ∃ a, pair_step a s ≠ s.
Proof.
  destruct s as [p q]. intros [Hp Hq]. unfold done_pair. simpl in *.
  destruct (decide (p_chan p = [])) as [Ep|Ep].
  2: { right. exists (Deliver true). simpl. intros [=H]. destruct p as [ph b [|k c]]; [done|].
       apply (f_equal (length ∘ p_chan)) in H. simpl in H. lia. }
  destruct (decide (p_chan q = [])) as [Eq|Eq].
  2: { right. exists (Deliver false). simpl. intros [=H]. destruct q as [ph b [|k c]]; [done|].
       apply (f_equal (length ∘ p_chan)) in H. simpl in H. lia. }
  unfold linked in *. rewrite Ep, Eq, app_nil_r in *.
  destruct p as [ph b c], q as [ph' b' c']. simpl in *. subst.
  destruct ph, ph'; simpl in *; simplify_list_eq; auto; right.
  all: first [ by exists (Turn true) | by exists (Turn false) ].
Qed.

Lemma pair_done s a : pair_ok s → done_pair s → done_pair (pair_step a s).
Proof.
  destruct s as [[ph b c] [ph' b' c']]. unfold done_pair. simpl. intros _ [-> ->].
  destruct a as [[]|[]]; simpl; unfold peer_deliver; simpl; repeat case_match; done.
Qed.

Definition pair_run (l : list act) (s : peer * peer) : peer * peer := foldl (flip pair_step) s l.

Lemma pair_run_ok l s :
  pair_ok s → pair_ok (pair_run l s) ∧ (pair_rank (pair_run l s) ≤ pair_rank s)%nat
    ∧ (done_pair s → done_pair (pair_run l s)).
Proof.
  revert s. induction l as [|a l IH]; intros s Hs; [auto|]. simpl.
  destruct (pair_step_ok a s Hs) as [Ha Hr]. destruct (IH _ Ha) as (H1 & H2 & H3). unfold pair_run in *. simpl in *.
  split; [done|]. split; [|intros; by apply H3, pair_done].
  destruct Hr as [Hr|Hr]; [rewrite Hr in H2 |- *; done|lia].
Qed.

(** A fair round makes progress. *)
Lemma pair_round l s :
  pair_ok s → fair l → done_pair (pair_run l s) ∨ (pair_rank (pair_run l s) < pair_rank s)%nat.
Proof.
  intros Hs Hl. destruct (pair_progress s Hs) as [Hd|[a Ha]]; [left; by apply pair_run_ok|].
  right. specialize (Hl a). apply list_elem_of_split in Hl as (l1 & l2 & ->).
  unfold pair_run. rewrite foldl_app. simpl. fold (pair_run l1 s).
  assert (pair_run l1 s = s ∨ (pair_rank (pair_run l1 s) < pair_rank s)%nat) as H1.
  { clear -Hs. revert s Hs. induction l1 as [|b l1 IH]; intros s Hs; [by left|]. simpl.
    destruct (pair_step_ok b s Hs) as [Hb Hr]. unfold pair_run in *. simpl.
    destruct Hr as [Hr|Hr]; [rewrite Hr; by apply IH|]. right.
    pose proof (pair_run_ok l1 _ Hb) as (_ & H & _). unfold pair_run in H. lia. }
  destruct (pair_run_ok l1 s Hs) as (Hs1 & Hle & _).
  destruct (pair_step_ok a (pair_run l1 s) Hs1) as [Hs2 Hr].
  destruct (pair_run_ok l2 _ Hs2) as (_ & Hle2 & _). unfold pair_run in Hle2 at 1.
  destruct H1 as [H1|H1]; [rewrite H1 in *; destruct Hr; [done|lia]|].
  destruct Hr as [Hr|Hr]; [rewrite Hr in *; lia|lia].
Qed.

Lemma pair_rounds ls s :
  pair_ok s → Forall fair ls → (pair_rank s ≤ length ls)%nat → done_pair s ∨ ls ≠ [] →
  done_pair (pair_run (concat ls) s).
Proof.
  revert s. induction ls as [|l ls IH]; intros s Hs Hf Hn Hd; [by destruct Hd|]. simpl.
  apply Forall_cons in Hf as [Hl Hf]. unfold pair_run. rewrite foldl_app. fold (pair_run l s).
  destruct (pair_run_ok l s Hs) as (Hs' & _ & _).
  destruct (pair_round l s Hs Hl) as [Hd'|Hd']; [by apply pair_run_ok|].
  apply IH; [done|done|simpl in Hn; lia|].
  destruct ls as [|l' ls]; [|by right]. left. simpl in Hn.
  destruct (pair_progress _ Hs') as [|[a Ha]]; [done|].
  destruct (pair_step_ok a _ Hs') as [_ [Hr|Hr]]; [done|lia].
Qed.

(** ** Reception *)

(** The allocation of a message fails or gives the message; only the trace changes. *)
Lemma init_msg_cases b w :
  (0 < length b)%nat →
  ∃ tr o, iccp_csm_init_msg b (Z.of_nat (length b)) w = Ok o (w <| w_trace := tr |>)
    ∧ (o = Some (mkMsg b (Z.of_nat (length b))) ∨ o = None ∧ ¬ reliable (w_env w)).
Proof.
  intros Hb. unfold iccp_csm_init_msg. rewrite (proj2 (Z.leb_gt _ _)) by lia.
  assert (∀ tr n, (w_env w tr (SysMalloc n) =? 0) = true → ¬ reliable (w_env w)) as Hrel.
  { intros tr n E [He _]. by apply Z.eqb_eq, He in E. }
  rewrite sys_bind. case_match eqn:E1; [eexists _, None; split; [reflexivity|by eauto]|].
  rewrite sys_bind. case_match eqn:E2; [eexists _, None; split; [reflexivity|by eauto]|].
  unfold rd_bytes. rewrite Nat2Z.id, drop_0, firstn_all, Nat.leb_refl. simpl.
  eexists _, (Some _). split; [reflexivity|by left].
Qed.

Lemma wire_form id m : msg_ok m → wire id m = be16 (conn_type m) ++ drop 2 (wire id m)
  ∧ 0 ≤ conn_type m < 2 ^ 15 ∧ conn_type m ≠ MSG_T_RG_APP_DATA ∧ conn_type m ≠ MSG_T_NOTIFICATION.
Proof. by destruct m. Qed.

(** A message of the connection is queued, unless memory is short. *)
Lemma read_message_run env c x w id m :
  conn_ok env c x w → msg_ok m →
  let b := wire id m in
  ∃ x' w' new, csm_read_message c b (Z.of_nat (length b)) w = Ok tt w' ∧ conn_ok env c x' w'
    ∧ conn_view x' = (current_state x, iccp_info x, msg_list x ++ new, sock_fd x)
    ∧ (new = [queued id m (Z.of_nat (length b))] ∨ new = [] ∧ ¬ reliable env).
Proof.
  intros Hok Hk b. destruct (wire_form id m Hk) as (Hb & Ht & H1 & H2). fold b in Hb.
  unfold csm_read_message. pose proof (co_env _ _ _ _ Hok) as Henv.
  destruct (init_msg_cases b w) as (tr & o & Hi & Ho).
  { rewrite Hb, length_app. simpl. lia. }
  rewrite (bind_ok _ _ _ _ _ Hi). set (w1 := w <| w_trace := tr |>).
  assert (conn_ok env c x w1) as Hok1 by (destruct Hok; by constructor).
  destruct Ho as [-> | [-> Hrel]].
  - assert (iccp_csm_enqueue_msg c (Some (mkMsg b (Z.of_nat (length b)))) w1
      = Ok tt (csm_set c (set msg_list (λ l, l ++ [queued id m (Z.of_nat (length b))]) x) w1)) as He1.
    { rewrite Hb at 1. rewrite (enqueue_own_run c x) by (done || apply Hok1). done. }
    rewrite (bind_ok _ _ _ _ _ He1).
    eassert (conn_ok env c _ _) as Hok2.
    { eapply (conn_ok_set _ _ _ (set msg_list _ x)); [exact Hok1|done|done|apply Hok1]. }
    rewrite (csm_upd_run c _ _ _ (co_csm _ _ _ _ Hok2)). eexists _, _, _. split; [done|].
    split; [eapply conn_ok_set; [exact Hok2|done|done|apply Hok2]|]. split; [done|by left].
  - rewrite (csm_upd_run c _ x) by apply Hok1. eexists _, _, []. split; [done|].
    split; [eapply conn_ok_set; [exact Hok1|done|done|apply Hok1]|]. rewrite app_nil_r.
    split; [done|]. right. by rewrite <-Henv.
Qed.

(** ** The code follows the phases *)

Section simulation.
Context (rg : Z) (Hrg : 0 ≤ rg < 2 ^ 32).

Definition is_wire (b : list Z) (k : kind) : Prop := ∃ id m, kind_msg rg k m ∧ b = wire id m.
Definition is_queued (q : Msg) (k : kind) : Prop := ∃ id m n, kind_msg rg k m ∧ q = queued id m n.

Record sim (env : list event → syscall → Z) (i : IccpInfo) (n : node) (p : peer) : Prop := {
  sim_csm : ∃ x, conn_ok env (n_csm n) x (n_world n) ∧ current_state x = phase_state (p_phase p)
              ∧ iccp_info x = phase_info (p_phase p) i ∧ Forall2 is_queued (msg_list x) (p_box p);
  sim_wire : Forall2 is_wire (n_wire n) (p_chan p)
}.

Lemma kind_msg_ok k m : kind_msg rg k m → msg_ok m.
Proof. destruct k; simpl; [intros ->; by right|by intros [? ->]]. Qed.

Lemma phase_live p : phase_state p ≠ ICCP_NONEXISTENT.
Proof. by destruct p. Qed.

Lemma written_since_sent env c x w w' out :
  reliable env → conn_ok env c x w → w_trace w' = sent_events (sock_fd x) out w ++ w_trace w →
  written_since (sock_fd x) w w' = option_list (wire (w_msg_id w) <$> out).
Proof.
  intros [_ He] Hok HT. unfold written_since. rewrite HT, length_app, Nat.add_sub, take_app_length.
  destruct out as [m|]; [|done]. simpl. rewrite Z.eqb_refl. unfold write_result.
  by rewrite (co_env _ _ _ _ Hok), He, Nat2Z.id, firstn_all.
Qed.

Lemma turn_sim env i n p :
  reliable env → fresh_flags i → icc_rg_id i = rg → sim env i n p →
  expected (p_phase p) (head (p_box p)) →
  ∃ n' bs, node_turn n = Some (n', bs) ∧ sim env i n' (peer_turn p).1 ∧ Forall2 is_wire bs (peer_turn p).2.
Proof.
  intros He Hi Hr [(x & Hok & Hs & Hinfo & Hq) Hw] Hexp.
  assert (∃ id l m rest, msg_list x = option_list (head_of id l m) ++ rest ∧ (m = None → rest = [])
    ∧ option_relation (kind_msg rg) (λ _, False) (λ _, False) (head (p_box p)) m
    ∧ Forall2 is_queued rest (tail (p_box p))) as (id & l & m & rest & Hl & Hnone & Hm & Hrest).
  { destruct Hq as [|q k qs ks (id & m & l & Hk & ->) Hqs].
    - exists 0, 0, None, []. done.
    - exists id, l, (Some m), qs. done. }
  destruct (conn_transit_phase (p_phase p) i rg _ m Hi Hr Hexp Hm) as (out & Ht & Hout).
  assert (∀ k, m = Some k → msg_ok k) as Hmok.
  { intros k ->. destruct (head (p_box p)) as [k'|]; [by apply (kind_msg_ok k')|done]. }
  destruct (transit_refines env _ x _ id l m rest Hok) as (x' & w' & E & Hok' & V & T);
    [rewrite Hs; apply phase_live|done..|].
  rewrite Hs, Hinfo, Ht in V, T. simpl in V, T. injection V as Vs Vi Vm Vf.
  unfold node_turn. rewrite E. eexists _, _. split; [done|]. split.
  - constructor; [|done]. exists x'. simpl. by rewrite Vm.
  - unfold n_fd. rewrite (co_csm _ _ _ _ Hok), (written_since_sent env _ _ _ _ out He Hok T). simpl.
    destruct (phase_out (p_phase p)) as [k|], out as [m'|]; simpl in *; try done.
    repeat constructor. by exists (w_msg_id (n_world n)), m'.
Qed.

Lemma deliver_sim env i n p :
  reliable env → sim env i n p → ∃ n', node_deliver n = Some n' ∧ sim env i n' (peer_deliver p).
Proof.
  intros He [(x & Hok & Hs & Hinfo & Hq) Hw]. destruct n as [w c bs], p as [ph box ch].
  unfold node_deliver, peer_deliver. simpl in *.
  destruct Hw as [|b k bs ks (id & m & Hk & ->) Hw].
  - eexists. split; [done|]. constructor; [eauto|constructor].
  - destruct (read_message_run env c x w id m Hok) as (x' & w' & new & E & Hok' & V & Hnew).
    { by apply (kind_msg_ok k). }
    destruct Hnew as [-> | [_ []]]; [|done].
    rewrite E. injection V as Vs Vi Vm Vf. eexists. split; [done|]. constructor; [|done]. simpl.
    exists x'. rewrite Vs, Vi, Vm. split_and!; try done.
    apply Forall2_app; [done|]. repeat constructor. by exists id, m, (Z.of_nat (length (wire id m))).
Qed.

Lemma push_sim env i n p bs ks :
  sim env i n p → Forall2 is_wire bs ks → sim env i (node_push bs n) (peer_push ks p).
Proof. intros [Hc Hw] H. constructor; [done|]. simpl. by apply Forall2_app. Qed.

Definition sim_pair env1 (i1 : IccpInfo) env2 (i2 : IccpInfo) (s : node * node) (t : peer * peer) : Prop :=
  sim env1 i1 s.1 t.1 ∧ sim env2 i2 s.2 t.2 ∧ pair_ok t.

Context env1 env2 (i1 i2 : IccpInfo) (He1 : reliable env1) (He2 : reliable env2).
Context (Hi1 : fresh_flags i1) (Hi2 : fresh_flags i2) (Hr1 : icc_rg_id i1 = rg) (Hr2 : icc_rg_id i2 = rg).

Lemma step_sim a s t :
  sim_pair env1 i1 env2 i2 s t →
  ∃ s', net_step a s = Some s' ∧ sim_pair env1 i1 env2 i2 s' (pair_step a t).
Proof.
  intros (H1 & H2 & Hok). pose proof (pair_step_ok a t Hok) as [Hok' _].
  destruct Hok as [L1 L2]. destruct a as [[]|[]]; simpl.
  - destruct (turn_linked _ _ L2 L1) as (_ & _ & Hx & _).
    destruct (turn_sim env1 i1 s.1 t.1) as (n' & bs & -> & Hn & Hbs); [done..|].
    eexists. split; [done|]. split; [done|]. split; [by apply push_sim|done].
  - destruct (turn_linked _ _ L1 L2) as (_ & _ & Hx & _).
    destruct (turn_sim env2 i2 s.2 t.2) as (n' & bs & -> & Hn & Hbs); [done..|].
    eexists. split; [done|]. split; [by apply push_sim|]. done.
  - destruct (deliver_sim env1 i1 s.1 t.1) as (n' & -> & Hn); [done..|]. by eexists.
  - destruct (deliver_sim env2 i2 s.2 t.2) as (n' & -> & Hn); [done..|]. by eexists.
Qed.

Lemma run_sim l s t :
  sim_pair env1 i1 env2 i2 s t →
  ∃ s', net_run l s = Some s' ∧ sim_pair env1 i1 env2 i2 s' (pair_run l t).
Proof.
  revert s t. induction l as [|a l IH]; intros s t H; [by exists s|]. simpl.
  destruct (step_sim a s t H) as (s1 & -> & H1). simpl. apply (IH s1 (pair_step a t) H1).
Qed.
End simulation.

Lemma fresh_sim rg n : fresh rg n →
  ∃ i, fresh_flags i ∧ icc_rg_id i = rg ∧ sim rg (w_env (n_world n)) i n (Peer PhInit [] []).
Proof.
  intros [He (x & Hok & Hs & Hf & Hr & Hl) Hw]. exists (iccp_info x). split_and!; [done..|].
  constructor; [|rewrite Hw; constructor]. exists x. rewrite Hl. simpl. done.
Qed.

Lemma sim_operational rg env i n p : sim rg env i n p → p_phase p = PhOperational → n_state n = Some ICCP_OPERATIONAL.
Proof.
  intros [(x & Hok & Hs & _) _] Hp. unfold n_state. rewrite (co_csm _ _ _ _ Hok). simpl. by rewrite Hs, Hp.
Qed.

(** C1. Two daemons whose session has just been set up, configured with the same
    redundancy group, reach the operational state: from any two such memories,
    under any interleaving of transitions and deliveries made of at least sixteen
    fair rounds, neither node faults and both machines end in
    [ICCP_OPERATIONAL]. *)
Theorem handshake_operational rg a b rounds :
  0 ≤ rg < 2 ^ 32 → fresh rg a → fresh rg b → Forall fair rounds → (16 ≤ length rounds)%nat →
  ∃ a' b', net_run (concat rounds) (a, b) = Some (a', b')
    ∧ n_state a' = Some ICCP_OPERATIONAL ∧ n_state b' = Some ICCP_OPERATIONAL.
Proof.
  intros Hrg Ha Hb Hf Hn.
  destruct (fresh_sim rg a Ha) as (i1 & F1 & R1 & S1). destruct (fresh_sim rg b Hb) as (i2 & F2 & R2 & S2).
  set (t := (Peer PhInit [] [], Peer PhInit [] [])).
  assert (pair_ok t) as Ht by done.
  destruct (run_sim rg Hrg _ _ i1 i2 (fr_env _ _ Ha) (fr_env _ _ Hb) F1 F2 R1 R2 (concat rounds) (a, b) t)
    as ([a' b'] & E & H1 & H2 & _); [done|].
  exists a', b'. split; [done|].
  destruct (pair_rounds rounds t Ht Hf) as [D1 D2]; [done|right; intros ->; simpl in Hn; lia|].
  split; eapply sim_operational; done.
Qed.

Definition sample_node : node := Node (with_csm 1 (session_csm 100) (boot calm)) 1 [].

Lemma calm_reliable : reliable calm.
Proof. by split. Qed.

Lemma session_csm_ok rg c env : c ≠ NULL → 0 ≤ rg < 2 ^ 32 →
  conn_ok env c (session_csm rg) (with_csm c (session_csm rg) (boot env)).
Proof.
  intros Hc Hrg. constructor; [exact Hc|apply lookup_insert_eq| | |apply length_replicate|reflexivity].
  - by split.
  - split; simpl; auto.
Qed.

Lemma sample_fresh : fresh 100 sample_node.
Proof.
  constructor; [exact calm_reliable| |done].
  exists (session_csm 100). split; [by apply session_csm_ok|done].
Qed.

Lemma handshake_operational_witness :
  ∃ a' b', net_run (concat (replicate 16 [Turn true; Deliver true; Turn false; Deliver false]))
             (sample_node, sample_node) = Some (a', b')
    ∧ n_state a' = Some ICCP_OPERATIONAL ∧ n_state b' = Some ICCP_OPERATIONAL.
Proof.
  apply (handshake_operational 100); [lia|exact sample_fresh|exact sample_fresh| |simpl; lia].
  apply Forall_replicate. intros [[]|[]]; set_solver.
Defined.

(** * A peer of another redundancy group

    A machine configured for the group [rg] whose peer announces another group: the
    group check records the mismatch, and the machine never becomes operational,
    however often the peer repeats its request and whatever the order of receptions
    and transitions. *)

(** A message of a peer in the group [rg]. *)
Definition from_group (rg : Z) (m : conn_msg) : Prop :=
  match m with
  | CmCapability flag => flag = 0 ∨ flag = 1
  | CmConnect rg' _ => rg' = rg
  | CmDisconnect rg' status => rg' = rg ∧ 0 ≤ status < 2 ^ 32
  | CmNak rg' _ _ => rg' = rg
  end.

Lemma enqueue_nak_run c csm rest n w :
  w_csms w !! c = Some csm → c ≠ NULL → length rest = 26%nat →
  ∃ y, iccp_csm_enqueue_msg c (Some (mkMsg (be16 MSG_T_NOTIFICATION ++ rest) n)) w = Ok tt (csm_set c y w)
    ∧ (y = set msg_list (λ l, l ++ [mkMsg (ldp_host MSG_T_NOTIFICATION rest) n]) csm ∨ ∃ f, y = set app_csm f csm).
Proof.
  intros Hc Hn Hl. unfold iccp_csm_enqueue_msg. rewrite eqb_null by done. cbn [msg_buf].
  rewrite (oob_bind _ _ _ _ (apply_store_1 _ _ _ (swap16_at [] MSG_T_NOTIFICATION rest 0 eq_refl ltac:(done)))).
  cbv zeta. change ([] ++ ?l) with l.
  rewrite (oob_bind _ _ _ _ (rd16_le_at [] MSG_T_NOTIFICATION rest 0 eq_refl ltac:(done))).
  change (bits_get MSG_T_NOTIFICATION 0 15 =? MSG_T_RG_APP_DATA) with false.
  change (bits_get MSG_T_NOTIFICATION 0 15 =? MSG_T_NOTIFICATION) with true. cbv iota.
  do 26 (destruct rest as [|? rest]; [done|]). destruct rest; [|done]. 
  eval_layout. erewrite oob_bind by reflexivity. rewrite (deref_bind w_csms c csm) by done.
  case_match.
  2: { rewrite (csm_upd_run c _ csm) by done. eexists. split; [reflexivity|by left]. }
  unfold app_csm_enqueue_msg, mlacp_enqueue_msg, mlacp_upd. rewrite !eqb_null by done. cbn [msg_buf]. eval_layout.
  erewrite oob_bind by reflexivity. erewrite oob_bind by reflexivity. erewrite oob_bind by reflexivity.
  cbv zeta. change (bits_get _ 0 15 =? MSG_T_RG_APP_DATA) with false.
  change (bits_get _ 0 15 =? MSG_T_NOTIFICATION) with true. cbv iota.
  erewrite oob_bind by reflexivity. rewrite (deref_bind w_csms c csm) by done.
  case_match; rewrite (csm_upd_run c _ csm) by done; eexists; (split; [reflexivity|]); right; eexists; reflexivity.
Qed.

(** A refusal is queued for the machine, or for the application if it refuses application
    data. *)
Lemma read_nak_run env c x w id rg st rj :
  conn_ok env c x w →
  let b := wire id (CmNak rg st rj) in
  ∃ x' w' new, csm_read_message c b (Z.of_nat (length b)) w = Ok tt w' ∧ conn_ok env c x' w'
    ∧ conn_view x' = (current_state x, iccp_info x, msg_list x ++ new, sock_fd x)
    ∧ (new = [queued id (CmNak rg st rj) (Z.of_nat (length b))] ∨ new = []).
Proof.
  intros Hok b. unfold csm_read_message.
  destruct (init_msg_cases b w) as (tr & o & Hi & Ho); [unfold b; simpl; lia|].
  rewrite (bind_ok _ _ _ _ _ Hi). set (w1 := w <| w_trace := tr |>).
  assert (conn_ok env c x w1) as Hok1 by (destruct Hok; by constructor).
  destruct Ho as [-> | [-> _]].
  - destruct (enqueue_nak_run c x (drop 2 b) (Z.of_nat (length b)) w1) as (y & E & Hy); [apply Hok1..|done|].
    change (be16 MSG_T_NOTIFICATION ++ drop 2 b) with b in E. rewrite (bind_ok _ _ _ _ _ E).
    assert (conn_ok env c y (csm_set c y w1)) as Hok2.
    { destruct Hy as [-> | [f ->]]; (eapply conn_ok_set; [exact Hok1|done|done|apply Hok1]). }
    rewrite (csm_upd_run c _ _ _ (co_csm _ _ _ _ Hok2)).
    assert (∃ new, msg_list y = msg_list x ++ new ∧ current_state y = current_state x ∧ iccp_info y = iccp_info x
      ∧ sock_fd y = sock_fd x ∧ (new = [queued id (CmNak rg st rj) (Z.of_nat (length b))] ∨ new = []))
      as (new & Vm & Vs & Vi & Vf & Hnew).
    { destruct Hy as [-> | [f ->]]; [by eexists; repeat (split; [reflexivity|]); left|].
      exists []. rewrite app_nil_r. by repeat (split; [reflexivity|]); right. }
    eexists _, _, new. split; [done|]. split; [eapply conn_ok_set; [exact Hok2|done|done|apply Hok2]|].
    split; [|done]. unfold conn_view. simpl. by rewrite Vm, Vs, Vi, Vf.
  - rewrite (csm_upd_run c _ x) by apply Hok1. eexists _, _, []. split; [done|].
    split; [eapply conn_ok_set; [exact Hok1|done|done|apply Hok1]|]. rewrite app_nil_r.
    split; [done|by right].
Qed.

(** Handling a refusal reads behind it ([nak_pointer_off]). *)
Lemma transit_nak_run env c x w id n rg st rj rest :
  conn_ok env c x w → current_state x ≠ ICCP_NONEXISTENT → 0 ≤ rg < 2 ^ 32 →
  msg_list x = queued id (CmNak rg st rj) n :: rest →
  iccp_csm_transit c w = Fault OutOfBounds.
Proof.
  intros Hok Hs Hrg Hq. pose proof Hok as [Hc Hx [Hfd Hl] Hi Hb He].
  unfold iccp_csm_transit. rewrite eqb_null by done. rewrite (deref_bind _ _ x) by done.
  rewrite (proj2 (Z.leb_gt _ _)), andb_false_r by lia.
  unfold iccp_csm_dequeue_msg. rewrite !bind_assoc, (deref_bind _ _ x), Hq by done.
  rewrite bind_assoc, (csm_upd_bind c _ x) by done. set (x0 := x <| msg_list := rest |>).
  set (w0 := csm_set c _ w). set (m := queued id (CmNak rg st rj) n).
  assert (w_csms w0 !! c = Some x0) as Hx0 by apply csm_set_lookup.
  assert (correspond c (Some m) w0 = Fault OutOfBounds) as Hf.
  { unfold correspond, iccp_csm_correspond_from_msg. rewrite eqb_null by done.
    assert (iccp_csm_check_id_from_msg c m w0 = Ok tt (csm_set c (set_info (check_id_info rg) x0) w0)) as E.
    { refine (check_id_run c x0 MSG_T_NOTIFICATION (take 10 (drop 2 (nak_wire id rg st rj))) rg
        (drop 16 (nak_wire id rg st rj)) n w0 Hx0 Hc _ _ _ Hrg); done. }
    by rewrite (bind_ok _ _ _ _ _ E). }
  unfold mbind at 1, M_bind at 1. cbn [mret M_ret]. unfold mbind at 1, M_bind at 1. 
  assert (iccp_csm_transit_switch c (Some m) w0 = Fault OutOfBounds) as ->; [|done].
  unfold iccp_csm_transit_switch. rewrite (deref_bind _ _ x0) by done. change (current_state x0) with (current_state x).
  destruct (current_state x); [done|..]; unfold mbind at 1, M_bind at 1; by rewrite Hf.
Qed.


(** The moments of a machine whose peer is in the group [rg]. *)
Inductive heard (c : ptr) (rg : Z) : World → World → Prop :=
| heard_refl w : heard c rg w w
| heard_transit w w1 w2 :
    heard c rg w w1 → iccp_csm_transit c w1 = Ok tt w2 → heard c rg w w2
| heard_message w w1 w2 id m :
    heard c rg w w1 → from_group rg m →
    csm_read_message c (wire id m) (Z.of_nat (length (wire id m))) w1 = Ok tt w2 → heard c rg w w2.

(** The request of a foreign group is recorded as a fault to report. *)
Record refused (rg : Z) (i : IccpInfo) : Prop := {
  re_rg : icc_rg_id i ≠ rg;
  re_flag : peer_rg_connect_flag i = 1 → status_code i = STATUS_CODE_U_ICCP_RG
}.

Definition from_queue (rg : Z) (q : Msg) : Prop := ∃ id m n, from_group rg m ∧ q = queued id m n.

Definition apart (rg : Z) (x : CSM) : Prop :=
  current_state x ≠ ICCP_NONEXISTENT ∧ current_state x ≠ ICCP_OPERATIONAL
  ∧ refused rg (iccp_info x) ∧ Forall (from_queue rg) (msg_list x).

Lemma absorb_refused rg m i :
  refused rg i → (∀ k, m = Some k → from_group rg k) → refused rg (absorb m i).
Proof.
  intros [Hr Hf] Hm. unfold absorb. destruct m as [k|]; [|done]. specialize (Hm k eq_refl).
  destruct k as [flag|rg' nm|rg' st|rg' st rj]; simpl in Hm.
  - case_match; by split.
  - subst rg'. unfold check_id_info. rewrite (proj2 (Z.eqb_neq rg _)) by done. by split.
  - destruct Hm as [-> _]. unfold check_id_info. rewrite (proj2 (Z.eqb_neq rg _)) by done.
    case_match; by split.
  - subst rg'. unfold check_id_info. rewrite (proj2 (Z.eqb_neq rg _)) by done. by split.
Qed.

Lemma refused_next rg s i :
  refused rg i → info_ok i → s ≠ ICCP_OPERATIONAL → next_state s i ≠ ICCP_OPERATIONAL.
Proof.
  intros [_ Hf] Hi Hs. destruct s; unfold next_state; repeat case_match; try done;
    match goal with H : _ && _ = true |- _ => apply andb_prop in H as [H1 H2] end;
    apply Z.eqb_eq in H1, H2; rewrite (Hf H1) in H2; done.
Qed.

Lemma entered_refused rg s i : s ≠ ICCP_OPERATIONAL → refused rg i → refused rg (entered s i).
Proof. intros Hs [Hr Hf]. destruct s; by split. Qed.

(** A refusal is the next message of the machine. *)
Definition refusal_next (x : CSM) : Prop :=
  ∃ id rg st rj n rest, msg_list x = queued id (CmNak rg st rj) n :: rest.

Lemma from_group_ok rg m : 0 ≤ rg < 2 ^ 32 → from_group rg m → msg_ok m ∨ ∃ st rj, m = CmNak rg st rj.
Proof.
  intros Hrg. destruct m; simpl; [by left|intros ->; by left|intros [-> ?]; by left|intros ->; right; by eexists _, _].
Qed.

Lemma transit_apart env c rg x w :
  0 ≤ rg < 2 ^ 32 → conn_ok env c x w → apart rg x →
  (∃ x' w', iccp_csm_transit c w = Ok tt w' ∧ conn_ok env c x' w' ∧ apart rg x')
  ∨ (iccp_csm_transit c w = Fault OutOfBounds ∧ refusal_next x).
Proof.
  intros Hrg Hok (Hn & Ho & Hr & Hq).
  assert (∃ id l m rest, msg_list x = option_list (head_of id l m) ++ rest ∧ (m = None → rest = [])
    ∧ (∀ k, m = Some k → from_group rg k) ∧ Forall (from_queue rg) rest)
    as (id & l & m & rest & Hl & Hnone & Hm & Hrest).
  { destruct Hq as [|q qs (id & m & l & Hk & ->) Hqs].
    - exists 0, 0, None, []. done.
    - exists id, l, (Some m), qs. split_and!; [done|done| |done]. by intros k [= <-]. }
  assert ((∀ k, m = Some k → msg_ok k) ∨ ∃ st rj, m = Some (CmNak rg st rj)) as [Hmok|(st & rj & ->)].
  { destruct m as [k|]; [|by left]. destruct (from_group_ok rg k Hrg (Hm k eq_refl)) as [H|(st & rj & ->)];
      [left; by intros ? [= <-]|right; by eexists _, _]. }
  2: { right. split; [exact (transit_nak_run env c x w id l rg st rj rest Hok Hn Hrg Hl)|].
       by exists id, rg, st, rj, l, rest. }
  left. destruct (transit_refines env c x w id l m rest) as (x' & w' & E & Hok' & V & _); [done..|].
  exists x', w'. split; [done|]. split; [done|]. injection V as Vs Vi Vm Vf.
  pose proof (absorb_refused rg m _ Hr Hm) as Hr'.
  pose proof (absorb_ok m _ (co_info _ _ _ _ Hok)) as Hi'.
  pose proof (refused_next rg _ _ Hr' Hi' Ho) as Ho'.
  unfold apart. rewrite Vs, Vi, Vm. unfold conn_transit. cbv zeta. cbn [fst snd].
  split; [by apply next_state_live|]. split; [done|]. split; [|done].
  case_match; [by apply entered_refused|done].
Qed.

Lemma message_apart env c rg x w id m :
  0 ≤ rg < 2 ^ 32 → conn_ok env c x w → apart rg x → from_group rg m →
  ∃ x' w', csm_read_message c (wire id m) (Z.of_nat (length (wire id m))) w = Ok tt w'
    ∧ conn_ok env c x' w' ∧ apart rg x'.
Proof.
  intros Hrg Hok (Hn & Ho & Hr & Hq) Hm.
  assert (∃ x' w' new, csm_read_message c (wire id m) (Z.of_nat (length (wire id m))) w = Ok tt w' ∧ conn_ok env c x' w'
    ∧ conn_view x' = (current_state x, iccp_info x, msg_list x ++ new, sock_fd x)
    ∧ (new = [queued id m (Z.of_nat (length (wire id m)))] ∨ new = [])) as (x' & w' & new & E & Hok' & V & Hnew).
  { destruct (from_group_ok rg m Hrg Hm) as [H|(st & rj & ->)]; [|exact (read_nak_run env c x w id rg st rj Hok)].
    destruct (read_message_run env c x w id m Hok H) as (x' & w' & new & E & Hok' & V & Hnew).
    exists x', w', new. repeat (split; [done|]). destruct Hnew as [? | [? _]]; auto. }
  exists x', w'. split; [done|]. split; [done|]. injection V as Vs Vi Vm Vf. unfold apart. rewrite Vs, Vi, Vm.
  split_and!; [done..|]. apply Forall_app. split; [done|].
  destruct Hnew as [-> | ->]; [|done]. repeat constructor. by eexists _, _, _.
Qed.

Lemma heard_apart env c rg x w w' :
  0 ≤ rg < 2 ^ 32 → conn_ok env c x w → apart rg x → heard c rg w w' →
  ∃ x', conn_ok env c x' w' ∧ apart rg x'.
Proof.
  intros Hrg Hok Ha. induction 1 as [w|w w1 w2 H IH E|w w1 w2 id m H IH Hm E]; [eauto|..].
  - destruct (IH Hok) as (x1 & Hok1 & Ha1).
    destruct (transit_apart env c rg x1 w1 Hrg Hok1 Ha1) as [(x2 & w2' & E' & Hok2 & Ha2)|[E' _]]; [|congruence].
    rewrite E in E'. injection E' as <-. eauto.
  - destruct (IH Hok) as (x1 & Hok1 & Ha1).
    destruct (message_apart env c rg x1 w1 id m Hrg Hok1 Ha1 Hm) as (x2 & w2' & E' & Hok2 & Ha2).
    rewrite E in E'. injection E' as <-. eauto.
Qed.

(** C3. A machine in a session with a peer of another redundancy group is never
    operational: after any sequence of transitions and of receptions of the messages of the
    connection (capability, connect, disconnect, refusal) with that group, in any order, the
    machine is still there and its state is not [ICCP_OPERATIONAL].  The next transition
    returns, unless the next message is a refusal: handling one, the code reads behind
    the message. *)
Theorem mismatch_never_operational env c rg x w w' :
  0 ≤ rg < 2 ^ 32 → conn_ok env c x w → current_state x = ICCP_INITIALIZED → fresh_flags (iccp_info x) →
  icc_rg_id (iccp_info x) ≠ rg → msg_list x = [] → heard c rg w w' →
  ∃ x', w_csms w' !! c = Some x' ∧ current_state x' ≠ ICCP_OPERATIONAL
    ∧ ((∃ w'', iccp_csm_transit c w' = Ok tt w'')
       ∨ (iccp_csm_transit c w' = Fault OutOfBounds ∧ refusal_next x')).
Proof.
  intros Hrg Hok Hs (_ & _ & _ & Hf & _) Hne Hl Hh.
  destruct (heard_apart env c rg x w w' Hrg Hok) as (x' & Hok' & Ha'); [|done|].
  { unfold apart. rewrite Hs, Hl. split_and!; try done. split; [done|]. by rewrite Hf. }
  exists x'. split; [apply Hok'|]. split; [apply Ha'|].
  destruct (transit_apart env c rg x' w' Hrg Hok' Ha') as [(x2 & w2 & E & _)|H]; [left; eauto|by right].
Qed.

(** After its first transition the machine of the group 100 hears the connect message and the
    refusal of a peer in the group 200. *)
Lemma mismatch_never_operational_witness :
  let w := with_csm 1 (session_csm 100) (boot calm) in
  let m := CmConnect 200 (str "peer") in let k := CmNak 200 STATUS_CODE_U_ICCP_RG 100 in
  ∃ w1 w2 w3, iccp_csm_transit 1 w = Ok tt w1
    ∧ csm_read_message 1 (wire 7 m) (Z.of_nat (length (wire 7 m))) w1 = Ok tt w2
    ∧ csm_read_message 1 (wire 8 k) (Z.of_nat (length (wire 8 k))) w2 = Ok tt w3
    ∧ heard 1 200 w w3
    ∧ ∃ x', w_csms w3 !! 1 = Some x' ∧ current_state x' ≠ ICCP_OPERATIONAL
      ∧ ((∃ w'', iccp_csm_transit 1 w3 = Ok tt w'')
         ∨ (iccp_csm_transit 1 w3 = Fault OutOfBounds ∧ refusal_next x')).
Proof.
  cbv zeta. pose proof (session_csm_ok 100 1 calm ltac:(done) ltac:(lia)) as Hok.
  set (w := with_csm 1 (session_csm 100) (boot calm)) in *. clearbody w.
  assert (apart 200 (session_csm 100)) as Ha by (split_and!; [done|done|split; done|constructor]).
  destruct (transit_apart calm 1 200 _ w ltac:(lia) Hok Ha) as [(x1 & w1 & E1 & Hok1 & Ha1)|[_ Hr]].
  2: { destruct Hr as (? & ? & ? & ? & ? & ? & Hr). discriminate Hr. }
  destruct (message_apart calm 1 200 x1 w1 7 (CmConnect 200 (str "peer")) ltac:(lia) Hok1 Ha1 eq_refl)
    as (x2 & w2 & E2 & Hok2 & Ha2).
  destruct (message_apart calm 1 200 x2 w2 8 (CmNak 200 STATUS_CODE_U_ICCP_RG 100) ltac:(lia) Hok2 Ha2 eq_refl)
    as (x3 & w3 & E3 & _).
  assert (heard 1 200 w w3) as Hh.
  { eapply heard_message; [eapply heard_message; [eapply heard_transit; [apply heard_refl|exact E1]| |exact E2]| |exact E3];
      reflexivity. }
  exists w1, w2, w3. split; [exact E1|]. split; [exact E2|]. split; [exact E3|]. split; [exact Hh|].
  apply (mismatch_never_operational calm 1 200 (session_csm 100) w w3);
    [lia|exact Hok|reflexivity|repeat split|discriminate|reflexivity|exact Hh].
Defined.

(** * The connection machine refines its contract

    The contract of the connection is a small machine: a state, the flags, the messages
    that wait, the messages sent.  The code simulates it: the C structure, its queue of
    byte buffers and the trace of its writes represent the contract's state, before and
    after any number of transitions. *)

(** The machine of the contract. *)
Record conn_spec : Type := ConnSpec {
  cs_state : ICCP_CONNECTION_STATE;
  cs_info : IccpInfo;
  cs_queue : list conn_msg;
  cs_sent : list conn_msg            (** the last one first *)
}.

(** One transition: the message at the head of the queue is handled, if there is one. *)
Definition spec_step (a : conn_spec) : conn_spec :=
  let r := conn_transit (cs_state a) (cs_info a) (head (cs_queue a)) in
  ConnSpec r.1.1 r.1.2 (tail (cs_queue a)) (option_list r.2 ++ cs_sent a).

(** The writes of a descriptor in a trace, the last one first. *)
Definition writes (fd : Z) (tr : list event) : list (list Z) :=
  omap (λ e, match e.1 with SysWrite fd' data => if fd' =? fd then Some data else None | _ => None end) tr.

Section simulation.
Context (env : list event → syscall → Z) (c : ptr) (fd : Z).

(** The machine [c] in the memory [w] represents the state [a], since the trace [tr]. *)
Record represents (tr : list event) (w : World) (a : conn_spec) : Prop := {
  rp_live : cs_state a ≠ ICCP_NONEXISTENT;
  rp_msgs : Forall msg_ok (cs_queue a);
  rp_csm : ∃ x, conn_ok env c x w ∧ sock_fd x = fd ∧ current_state x = cs_state a ∧ iccp_info x = cs_info a
             ∧ Forall2 (λ q m, ∃ id n, q = queued id m n) (msg_list x) (cs_queue a);
  rp_sent : ∃ ws, w_trace w = ws ++ tr ∧ Forall2 (λ b m, ∃ id, b = wire id m) (writes fd ws) (cs_sent a)
}.

Lemma writes_app tr1 tr2 : writes fd (tr1 ++ tr2) = writes fd tr1 ++ writes fd tr2.
Proof. unfold writes. by rewrite omap_app. Qed.

Lemma step_simulates tr w a : represents tr w a →
  ∃ w', iccp_csm_transit c w = Ok tt w' ∧ represents tr w' (spec_step a).
Proof.
  intros [Hs Hm (x & Hok & Hfd & Es & Ei & Hq) (ws & Ht & Hw)].
  set (m := head (cs_queue a)).
  assert (∃ id n, msg_list x = option_list (head_of id n m) ++ tail (msg_list x)) as (id & n & Eq).
  { unfold m. inversion Hq as [|q k qs ks (id & n & ->) Hqs E1 E2]; [by exists 0, 0|]. by exists id, n. }
  destruct (transit_refines env c x w id n m (tail (msg_list x)) Hok) as (x' & w' & E & Hok' & V & T).
  - by rewrite Es.
  - unfold m. intros k Hk. destruct (cs_queue a); simplify_eq/=. by inversion Hm.
  - done.
  - unfold m. intros Hn. inversion Hq as [|? ? ? ? ? ? E1 E2]; [done|]. rewrite <-E2 in Hn. done.
  - exists w'. split; [done|]. injection V as V1 V2 V3 V4. rewrite Es, Ei in *. unfold spec_step. fold m.
    split; cbn [cs_state cs_info cs_queue cs_sent].
    + by apply next_state_live.
    + destruct (cs_queue a); [done|]. by inversion Hm.
    + exists x'. split; [done|]. split; [congruence|]. split; [done|]. split; [done|]. rewrite V3.
      by inversion Hq.
    + exists (sent_events fd (conn_transit (cs_state a) (cs_info a) m).2 w ++ ws).
      split; [by rewrite T, Ht, Hfd, app_assoc|]. rewrite writes_app. apply Forall2_app; [|done].
      destruct (conn_transit (cs_state a) (cs_info a) m).2 as [k|]; simpl; [|constructor].
      unfold writes. simpl. rewrite Z.eqb_refl. constructor; [by eexists|constructor].
Qed.

(** C2. The connection machine refines its contract: from a memory that represents a state
    of the contract, any number of transitions of the code runs without a fault, and
    the memory then represents the state the contract reaches in as many steps: the
    same state and flags, the same messages left, and on the wire exactly the messages
    the contract sent, in their encoding and order. *)
Theorem connection_refines tr k w a : represents tr w a →
  ∃ w', mforeach (replicate k c) iccp_csm_transit w = Ok tt w' ∧ represents tr w' (Nat.iter k spec_step a).
Proof.
  revert w a. induction k as [|k IH]; intros w a H; [by exists w|].
  destruct (step_simulates tr w a H) as (w1 & E1 & H1). destruct (IH w1 _ H1) as (w2 & E2 & H2).
  exists w2. simpl. rewrite (bind_ok _ _ _ _ _ E1). split; [exact E2|]. by rewrite <-Nat.iter_succ_r in H2.
Qed.
End simulation.

(** A fresh session that has the capability message of its peer in its queue. *)
Definition sample_csm : CSM := session_csm 100 <| msg_list := [queued 7 (CmCapability 1) 0] |>.
Definition sample_spec : conn_spec := ConnSpec ICCP_INITIALIZED (iccp_info sample_csm) [CmCapability 1] [].

Lemma sample_represents : represents calm 1 5 [] (with_csm 1 sample_csm (boot calm)) sample_spec.
Proof.
  split; [done|by repeat constructor; right| |exists []; split; [done|constructor]].
  exists sample_csm. split; [|split; [done|split; [done|split; [done|]]]].
  - destruct (session_csm_ok 100 1 calm) as [H1 _ _ H4 _ _]; [done|lia|].
    constructor; [exact H1|apply lookup_insert_eq|by split|exact H4|apply length_replicate|reflexivity].
  - constructor; [by exists 7, 0|constructor].
Qed.

Lemma connection_refines_witness :
  cs_state (Nat.iter 3 spec_step sample_spec) = ICCP_CONNECTING
  ∧ ∃ w', mforeach (replicate 3 1) iccp_csm_transit (with_csm 1 sample_csm (boot calm)) = Ok tt w'
     ∧ represents calm 1 5 [] w' (Nat.iter 3 spec_step sample_spec).
Proof.
  split; [vm_compute; reflexivity|exact (connection_refines calm 1 5 [] 3 _ _ sample_represents)].
Defined.
