(* ===== verification/Daemon.v ===== *)
(** * The daemon as a whole

    The states the process can be in: started by [system_init], it creates state
    machines and handles events, in any order and against any environment.  Every
    event is handled in finitely many steps, and the memory stays sound: the global
    buffer has its size, and the ring of sent messages of every machine its bounds,
    so that sending never leaves them. *)

From S2P Require Import Prelude CMem CString MsgFormat State Machine Frame IccpMsg IccpQueue SyncPrepare.
From S2P Require Import Port Syncd IccpCsm Ifm Netlink Cli SyncdCfg Scheduler SyncdRecv EventLoop Boot.
From S2P Require Import Control FrameSend FrameSteps FrameFsm FrameIo.
#[local] Open Scope Z_scope.

(** ** One event of the daemon

    What the main loop does between two waits. *)

Inductive daemon_event : Type :=
| EvInit (i : start_input)   (** the start of the scheduler *)
| EvTransit                  (** a pass over the state machines *)
| EvKernel                   (** a synchronisation with the kernel *)
| EvIo (e : io_event)        (** a descriptor is readable *)
| EvRound (evs : list io_event).
                             (** a round of [scheduler_loop] *)

Definition daemon_step (e : daemon_event) : W unit :=
  match e with
  | EvInit i => scheduler_init i
  | EvTransit => ignore scheduler_transit_fsm
  | EvKernel => ignore mlacp_sync_with_kernel_callback
  | EvIo e => handle_event e
  | EvRound evs => ignore (scheduler_round evs)
  end.

(** The events without a reception from mclagsyncd. *)
Definition not_syncd (e : io_event) : Prop := e ≠ IoSyncd.
Definition bounded_event (e : daemon_event) : Prop :=
  match e with
  | EvIo e => not_syncd e
  | EvRound evs => Forall not_syncd evs
  | _ => True
  end.

(** A command of the configuration. *)
Inductive command : Type :=
| CmdMclag (mid : Z)
| CmdNoMclag (mid : Z)
| CmdPeerLink (mid : Z) (name : list Z)
| CmdNoPeerLink (mid : Z)
| CmdLocalAddress (mid : Z) (addr : list Z)
| CmdNoLocalAddress (mid : Z)
| CmdPeerAddress (mid : Z) (addr : list Z)
| CmdNoPeerAddress (mid : Z)
| CmdAttach (mid : Z) (name : list Z)
| CmdDetach (name : list Z)
| CmdKeepalive (mid time : Z)
| CmdSessionTimeout (mid val : Z)
| CmdSystemId (mac : list Z)
| CmdNoSystemId.

Definition run_command (k : command) : W Z :=
  match k with
  | CmdMclag mid => set_mc_lag_by_id mid
  | CmdNoMclag mid => unset_mc_lag_by_id mid
  | CmdPeerLink mid name => set_peer_link mid name
  | CmdNoPeerLink mid => unset_peer_link mid
  | CmdLocalAddress mid addr => set_local_address mid addr
  | CmdNoLocalAddress mid => unset_local_address mid
  | CmdPeerAddress mid addr => set_peer_address mid addr
  | CmdNoPeerAddress mid => unset_peer_address mid
  | CmdAttach mid name => iccp_cli_attach_mclag_domain_to_port_channel mid name
  | CmdDetach name => iccp_cli_detach_mclag_domain_to_port_channel name
  | CmdKeepalive mid time => set_keepalive_time mid time
  | CmdSessionTimeout mid val => set_session_timeout mid val
  | CmdSystemId mac => set_local_system_id mac
  | CmdNoSystemId => unset_local_system_id
  end.

(** The reachable states: after [system_init], commands and events in any order. *)
Inductive reachable (env : list event → syscall → Z) : World → Prop :=
| reach_start w : scheduler_server_sock_init (boot env) = Ok tt w → reachable env w
| reach_command w w' k r : reachable env w → run_command k w = Ok r w' → reachable env w'
| reach_event w w' e r : reachable env w → daemon_step e w = Ok r w' → reachable env w'.

(** ** Sound memory *)

Record world_ok (w : World) : Prop := {
  wo_buf : length (w_csm_buf w) = CSM_BUFFER_SIZE;
  wo_log c x : w_csms w !! c = Some x → log_ok (msg_log x)
}.

Lemma kept_ok q w w' : kept (csm_step q) w w' → world_ok w → world_ok w'.
Proof.
  intros [B C] [Hb Hl]. split; [congruence|]. intros c x' Hx. destruct (C c x' Hx) as (x & H & S).
  by eapply step_log; [exact S|apply Hl with c].
Qed.

(** An invariant of the memory: it survives what the frames allow, and a new machine
    with a sound log. *)
Class Invariant (good : World → Prop) : Prop := {
  inv_kept q w w' : kept (csm_step q) w w' → good w → good w';
  inv_place x w : log_ok (msg_log x) → good w →
    good (w <| w_next ::= Z.succ |> <| w_csms ::= <[w_next w := x]> |>)
}.

#[export] Instance anything_invariant : Invariant (λ _, True).
Proof. by split. Qed.

#[export] Instance world_ok_invariant : Invariant world_ok.
Proof.
  split; [apply kept_ok|]. intros x w Hx [Hb Hl]. constructor; [exact Hb|]. intros c y.
  change (w_csms (set w_csms <[w_next w := x]> (w <| w_next ::= Z.succ |>)) !! c)
    with (<[w_next w := x]> (w_csms w) !! c).
  rewrite lookup_insert_Some. intros [[_ <-]|[_ H]]; [done|by eapply Hl].
Qed.

(** A computation that keeps the invariant, and, when [fuel] says so, does not run out
    of fuel. *)
Definition keeps (good : World → Prop) (fuel : bool) {A} (m : W A) : Prop := ∀ w, good w →
  match m w with Ok _ w' => good w' | Fault f => if fuel then f ≠ OutOfFuel else True end.

(** Computations keep the memory sound, and end. *)
Notation safe := (keeps world_ok false).
Notation ends := (keeps (λ _, True) true).

Section keeps.
Context {good : World → Prop} `{!Invariant good} {fuel : bool}.
#[local] Notation safe := (keeps good fuel).

Lemma safe_spec {A} q (Q : A → Prop) (m : W A) : spec (csm_step q) Q m → safe m.
Proof.
  intros Hm w Hw. specialize (Hm w). destruct (m w); [|by destruct fuel]. destruct Hm. by eapply inv_kept.
Qed.

Lemma safe_bind {A B} (m : W A) (k : A → W B) : safe m → (∀ a, safe (k a)) → safe (m ≫= k).
Proof.
  intros Hm Hk w Hw. unfold mbind, M_bind. specialize (Hm w Hw). destruct (m w) as [a w1|]; [|done].
  by apply Hk.
Qed.

Lemma safe_ret {A} (a : A) : safe (mret a).
Proof. by intros w Hw. Qed.

Lemma safe_foreach {A} (l : list A) f : (∀ x, safe (f x)) → safe (mforeach l f).
Proof. intros Hf. induction l as [|x l IH]; simpl; [apply safe_ret|]. by apply safe_bind. Qed.

Lemma safe_when b m : safe m → safe (when b m).
Proof. intros H. destruct b; [done|apply safe_ret]. Qed.

Lemma safe_ignore {A} (m : W A) : safe m → safe (ignore m).
Proof. intros H. apply safe_bind; [done|]. intros a. apply safe_ret. Qed.

Lemma safe_if {A} (b : bool) (m n : W A) : safe m → safe n → safe (if b then m else n).
Proof. by destruct b. Qed.

(** A new state machine. *)
Lemma safe_place x : log_ok (msg_log x) → safe (place w_csms x).
Proof. intros Hx w Hw. by apply inv_place. Qed.
End keeps.

(** [framed]: by the frame of the computation. *)
Ltac framed := eapply (safe_spec false (λ _, True)); solve [frame].

Ltac safe_step :=
  lazymatch goal with
  | |- keeps _ _ (mbind _ _) => apply safe_bind; [|intros ?]
  | |- keeps _ _ (when _ _) => apply safe_when
  | |- keeps _ _ (ignore _) => apply safe_ignore
  | |- keeps _ _ (mforeach _ _) => apply safe_foreach; intros ?
  | |- keeps _ _ (mret _) => apply safe_ret
  | |- keeps _ _ (if _ then _ else _) => apply safe_if
  | |- keeps _ _ (match ?x with _ => _ end) => destruct x
  | |- keeps _ _ (let _ := _ in _) => cbv zeta
  end.

Section commands.
Context {good : World → Prop} `{!Invariant good} {fuel : bool}.
#[local] Notation safe := (keeps good fuel).

Lemma create_frame c :
  spec (csm_step false) (λ _, True)
    (if c =? NULL then mret NULL else (iccp_csm_init c;; sys_upd (set csm_list (cons c));; mret c)).
Proof. unfold iccp_csm_init, sys_upd. pose proof (status_reset_frame c true). frame. Qed.

Lemma create_safe : safe system_create_csm.
Proof.
  unfold system_create_csm, alloc. safe_step; [|eapply safe_spec, create_frame].
  safe_step; [framed|]. safe_step; [apply safe_ret|by apply safe_place].
Qed.

Lemma set_id_frame c id : spec (csm_step false) (λ _, True) (set_mc_lag_id c id).
Proof. unfold set_mc_lag_id. frame. Qed.

Lemma set_mc_lag_safe mid : safe (set_mc_lag_by_id mid).
Proof.
  unfold set_mc_lag_by_id, iccp_get_csm. safe_step; [framed|]. safe_step; [|apply safe_ret].
  safe_step; [apply create_safe|]. safe_step; [apply safe_ret|]. eapply safe_spec, set_id_frame.
Qed.

Lemma command_safe k : safe (run_command k).
Proof.
  destruct k; cbn [run_command]; [apply set_mc_lag_safe|..]; try framed.
  eapply safe_spec, unset_system_id_frame.
Qed.

(** A line of the configuration file. *)
Lemma attach_names_frame fuel' mid line cp token :
  (length (drop cp line) < fuel')%nat →
  spec (csm_step false) (λ _, True) (attach_names fuel' mid line cp token).
Proof.
  revert cp token. induction fuel' as [|f IH]; intros cp token Hf; [lia|]. simpl.
  eapply spec_bind; [apply _|apply spec_oob; [apply _|]; intros n Hn; exact Hn|]. intros slen H1. cbv beta in H1.
  frame_step; [frame|]. destruct (_ <? slen)%nat; [frame|]. frame_step; [frame|]. frame_step.
  eapply spec_bind; [apply _|apply spec_oob; [apply _|]; intros n Hn; exact Hn|]. intros skip H2. cbv beta in H2.
  eapply spec_bind; [apply _|apply spec_oob; [apply _|]; intros n Hn; exact Hn|]. intros ch H3. cbv beta in H3.
  destruct (ch =? 0) eqn:Hz; [frame|]. apply IH. pose proof (attach_advances _ _ _ _ _ H1 H2 H3 Hz). lia.
Qed.

Lemma config_line_safe mid line : safe (iccp_config_from_command mid line).
Proof.
  unfold iccp_config_from_command, argument. repeat safe_step;
    lazymatch goal with
    | |- keeps _ _ (set_mc_lag_by_id _) => apply set_mc_lag_safe
    | |- keeps _ _ (attach_names _ _ _ _ _) => eapply safe_spec, attach_names_frame; rewrite length_drop; lia
    | |- _ => framed
    end.
Qed.

Lemma config_file_safe file : safe (iccp_config_from_file file).
Proof.
  destruct file as [lines|]; simpl; [|apply safe_ret]. apply safe_bind; [|intros _; apply safe_ret].
  unfold config_lines. generalize 0. induction lines as [|l lines IH]; intros mid; simpl; [apply safe_ret|].
  apply safe_bind; [apply config_line_safe|]. intros r. apply IH.
Qed.
End commands.

(** ** Messages of mclagsyncd *)

Lemma domain_set_safe d : safe (domain_set d).
Proof.
  unfold domain_set. repeat safe_step; try framed. apply set_mc_lag_safe.
Qed.

Lemma domain_apply_safe d : safe (domain_apply d).
Proof.
  unfold domain_apply. repeat safe_step; [apply domain_set_safe|framed|].
  eapply safe_spec, unset_attr_frame.
Qed.

Lemma dispatch_safe t b : safe (syncd_dispatch t b).
Proof.
  unfold syncd_dispatch, iccp_mclagsyncd_mclag_domain_cfg_handler.
  repeat safe_step; try framed. apply domain_apply_safe.
Qed.

Lemma recv_pending_safe fuel h base p r n b : safe (syncd_recv_pending fuel h base p r n b).
Proof.
  revert r n b. induction fuel as [|f IH]; intros r n b; [by intros w Hw|]. simpl.
  safe_step; [apply safe_ret|]. safe_step; [eapply safe_spec, recv_any_frame|].
  repeat safe_step; try framed; try apply IH.
Qed.

Lemma one_message_safe rxed pos n b : safe (syncd_one_message rxed pos n b).
Proof.
  unfold syncd_one_message, syncd_pending. pose proof dispatch_safe. pose proof recv_pending_safe.
  repeat safe_step; try done; framed.
Qed.

Lemma messages_safe fuel rxed pos n b : safe (syncd_messages fuel rxed pos n b).
Proof.
  revert pos n b. induction fuel as [|f IH]; intros pos n b; [by intros w Hw|]. simpl.
  pose proof one_message_safe. repeat safe_step; done.
Qed.

Lemma syncd_handler_safe : safe iccp_mclagsyncd_msg_handler.
Proof.
  unfold iccp_mclagsyncd_msg_handler. apply safe_bind; [eapply safe_spec, recv_first_frame|].
  intros [[rxed b]|]; [apply messages_safe|apply safe_ret].
Qed.

(** ** Events *)

Lemma handle_event_frame e : not_syncd e → spec (csm_step false) (λ _, True) (handle_event e).
Proof.
  intros He. pose proof accept_frame. pose proof signal_frame. pose proof peer_readable_frame.
  destruct e; try done; simpl; frame.
Qed.

Lemma handle_event_safe e : safe (handle_event e).
Proof.
  assert (e = IoSyncd ∨ not_syncd e) as [->|He] by (destruct e; (by left) || by right).
  - simpl. apply safe_ignore, syncd_handler_safe.
  - by eapply safe_spec, handle_event_frame.
Qed.

Lemma mforeach_frame {A} (P : A → Prop) (l : list A) f :
  Forall P l → (∀ x, P x → spec (csm_step false) (λ _, True) (f x)) →
  spec (csm_step false) (λ _, True) (mforeach l f).
Proof. intros Hl Hf. induction Hl; simpl; [frame|]. by frame_step. Qed.

Lemma start_type_frame t : spec (csm_step false) (λ _, True) (iccp_get_start_type t).
Proof.
  unfold iccp_get_start_type, sys_upd.
  assert (∀ text b, spec (csm_step false) (λ r, length (snd r) = length b)
    (b ← oob (put 0 text b); mret (Z.of_nat (length text), b))) as Hput.
  { intros text b. eapply spec_bind; [apply _|apply spec_oob; [apply _|]; intros b' Hb; exact Hb|].
    intros b' Hb. apply spec_ret; [apply _|]. simpl. by apply put_length in Hb. }
  frame_step; [frame|]. destruct t; [|frame]. cbv zeta.
  frame_step; [apply spec_in_csm_buf; intros b; apply Hput|frame].
Qed.

Section events.
Context {good : World → Prop} `{!Invariant good} {fuel : bool}.

Lemma scheduler_init_safe i : keeps good fuel (scheduler_init i).
Proof.
  unfold scheduler_init, iccp_sys_local_if_list_get_addr, iccp_neigh_get_init.
  apply safe_bind; [eapply safe_spec, start_type_frame|]. intros _.
  pose proof connect_syncd_frame. safe_step; [framed|]. safe_step; [framed|].
  safe_step; [apply config_file_safe|]. safe_step; framed.
Qed.

Lemma daemon_step_keeps e : bounded_event e → keeps good fuel (daemon_step e).
Proof.
  pose proof transit_all_frame. pose proof kernel_sync_frame. pose proof connect_syncd_frame.
  destruct e as [i| | |e|evs]; simpl; intros He;
    [apply scheduler_init_safe|unfold ignore; framed|unfold ignore; framed|by eapply safe_spec, handle_event_frame|].
  pose proof (mforeach_frame not_syncd evs handle_event He handle_event_frame).
  unfold ignore, scheduler_round, iccp_handle_events. framed.
Qed.
End events.

Lemma daemon_step_safe e : safe (daemon_step e).
Proof.
  destruct e as [i| | |e|evs]; [by apply daemon_step_keeps..|apply handle_event_safe|].
  simpl. unfold scheduler_round, iccp_handle_events.
  pose proof handle_event_safe. pose proof transit_all_frame. pose proof connect_syncd_frame.
  repeat safe_step; try done; framed.
Qed.

Lemma boot_ok env : world_ok (boot env).
Proof. constructor; [apply length_replicate|done]. Qed.

Lemma sock_init_frame : spec (csm_step false) (λ _, True) scheduler_server_sock_init.
Proof. unfold scheduler_server_sock_init, sys_upd. frame. Qed.

Lemma safe_ok {A} (m : W A) w a w' : safe m → world_ok w → m w = Ok a w' → world_ok w'.
Proof. intros H Hw E. specialize (H w Hw). by rewrite E in H. Qed.

Lemma reachable_ok env w : reachable env w → world_ok w.
Proof.
  induction 1 as [w E|w w' k r H IH E|w w' e r H IH E]; eapply safe_ok; try exact E; try exact IH.
  - eapply safe_spec, sock_init_frame.
  - apply boot_ok.
  - apply command_safe.
  - apply daemon_step_safe.
Qed.

(** C9. Every event is handled in finitely many steps: whatever the memory (reachable
    or not), whatever the environment answers and whatever bytes the peer sent, none
    of the loops of the event handlers (the passes of the mLACP machine while it
    has messages, the flushing of the queues, the sending of the batches, the
    reception with its retries, the attributes of a notification, the options of a
    packet, the names in a line of the configuration file) runs past its bound.  The reception from mclagsyncd is apart: the loop
    over its messages goes on as long as mclagsyncd completes messages of length 0. *)
Theorem daemon_terminates e w : bounded_event e → daemon_step e w ≠ Fault OutOfFuel.
Proof.
  intros He. pose proof (daemon_step_keeps (good := λ _, True) (fuel := true) e He w I) as H.
  by destruct (daemon_step e w) as [|f]; [|intros [= ->]].
Qed.

(** C12. The memory of the daemon stays sound in every reachable state: the global
    message buffer has its size, and in every state machine the ring of sent
    messages has [MAX_MSG_LOG_SIZE] entries and an index within it. *)
Theorem reachable_memory env w :
  reachable env w →
  length (w_csm_buf w) = CSM_BUFFER_SIZE
  ∧ ∀ c x, w_csms w !! c = Some x →
      length (log_msg (msg_log x)) = MAX_MSG_LOG_SIZE
      ∧ 0 ≤ log_end_index (msg_log x) < Z.of_nat MAX_MSG_LOG_SIZE.
Proof. intros H%reachable_ok. destruct H as [Hb Hl]. split; [exact Hb|exact Hl]. Qed.

(** C13. In every reachable state, sending a message on a connected machine is safe
    and exact: [iccp_csm_send] returns what [write] returned, the only system call
    is that [write], with exactly the first [len] bytes of the buffer, and the
    machine changes in its log and its counters only. *)
Theorem reachable_send env w c x b len :
  reachable env w → w_csms w !! c = Some x → c ≠ NULL → 0 < sock_fd x →
  (18 ≤ length b)%nat → 0 < len ≤ Z.of_nat (length b) →
  let data := take (Z.to_nat len) b in
  ∃ log cnt, let x' := sent_csm log cnt x in
    log_ok log
    ∧ iccp_csm_send c b len w
      = Ok (write_result (sock_fd x) data w) (csm_set c x' (written (sock_fd x) data w)).
Proof.
  intros Hw Hx Hc Hfd Hb Hlen. apply reachable_ok in Hw as [_ Hl].
  apply send_run; [done|done|split; [done|by apply Hl with c]|done|done].
Qed.

(** ** Scenarios *)

(** Commands and events in sequence. *)
Fixpoint run_script (l : list (command + daemon_event)) (w : World) : option World :=
  match l with
  | [] => Some w
  | a :: l' =>
      match (match a with inl k => ignore (run_command k) w | inr e => daemon_step e w end) with
      | Ok _ w' => run_script l' w'
      | Fault _ => None
      end
  end.

(** From the start of the daemon. *)
Definition scenario (env : list event → syscall → Z) (l : list (command + daemon_event)) : option World :=
  match scheduler_server_sock_init (boot env) with
  | Ok _ w => run_script l w
  | Fault _ => None
  end.

Lemma ignore_ok {A} (m : W A) w r w' : ignore m w = Ok r w' → ∃ a, m w = Ok a w'.
Proof. unfold ignore, mbind, M_bind. destruct (m w) as [a w1|]; [|done]. intros [= _ <-]. by exists a. Qed.

Lemma script_reachable env l w w' : reachable env w → run_script l w = Some w' → reachable env w'.
Proof.
  revert w. induction l as [|a l IH]; intros w Hw H; simpl in H; [by simplify_eq|].
  destruct (match a with inl k => _ | inr e => _ end) as [r w1|] eqn:E; [|done].
  apply (IH w1); [|done]. destruct a; [apply ignore_ok in E as [z E]; by eapply reach_command|by eapply reach_event].
Qed.

Lemma scenario_reachable env l w : scenario env l = Some w → reachable env w.
Proof.
  unfold scenario. destruct (scheduler_server_sock_init (boot env)) as [[] w1|] eqn:E; [|done].
  apply script_reachable. by apply reach_start.
Qed.

(** Everything succeeds, and the peer that connects is 10.0.0.2. *)
Definition serving (tr : list event) (c : syscall) : Z :=
  match c with
  | SysPeerAddr _ => inet_addr (str "10.0.0.2")
  | _ => calm tr c
  end.

(** The domain 100 between 10.0.0.3 and 10.0.0.2, and the peer connects. *)
Definition accept_script : list (command + daemon_event) :=
  [inl (CmdMclag 100); inl (CmdLocalAddress 100 (str "10.0.0.3")); inl (CmdPeerAddress 100 (str "10.0.0.2"));
   inr (EvIo IoAccept)].

Lemma accept_reachable : ∃ w x, reachable serving w ∧ w_csms w !! 4096 = Some x ∧ sock_fd x = 5.
Proof.
  assert (match scenario serving accept_script with
          | Some w => match w_csms w !! 4096 with Some x => sock_fd x =? 5 | None => false end
          | None => false
          end = true) as H by (vm_compute; reflexivity).
  destruct (scenario serving accept_script) as [w|] eqn:E; [|done].
  destruct (w_csms w !! 4096) as [x|] eqn:Ex; [|done].
  exists w, x. split; [by eapply scenario_reachable|]. split; [done|]. by apply Z.eqb_eq.
Qed.

Lemma daemon_terminates_witness :
  bounded_event (EvRound [IoAccept; IoPeer 5])
  ∧ daemon_step (EvRound [IoAccept; IoPeer 5]) (boot serving) ≠ Fault OutOfFuel.
Proof.
  assert (bounded_event (EvRound [IoAccept; IoPeer 5])) as H by (repeat constructor; discriminate).
  split; [exact H|exact (daemon_terminates _ _ H)].
Defined.

Lemma reachable_memory_witness : ∃ w x,
  w_csms w !! 4096 = Some x ∧ reachable serving w ∧ length (w_csm_buf w) = CSM_BUFFER_SIZE
  ∧ length (log_msg (msg_log x)) = MAX_MSG_LOG_SIZE.
Proof.
  destruct accept_reachable as (w & x & Hw & Hx & _). exists w, x. split; [exact Hx|]. split; [exact Hw|].
  destruct (reachable_memory serving w Hw) as [Hb Hl]. split; [exact Hb|exact (proj1 (Hl 4096 x Hx))].
Defined.

Lemma reachable_send_witness : ∃ w x log cnt,
  reachable serving w ∧ w_csms w !! 4096 = Some x ∧ log_ok log
  ∧ iccp_csm_send 4096 (replicate 20 7) 19 w
    = Ok (write_result (sock_fd x) (take 19 (replicate 20 7)) w)
         (csm_set 4096 (sent_csm log cnt x) (written (sock_fd x) (take 19 (replicate 20 7)) w)).
Proof.
  destruct accept_reachable as (w & x & Hw & Hx & Hfd).
  destruct (reachable_send serving w 4096 x (replicate 20 7) 19 Hw Hx) as (log & cnt & Hlog & E);
    [discriminate|lia|simpl; lia|simpl; lia|].
  exists w, x, log, cnt. split; [exact Hw|]. split; [exact Hx|]. split; [exact Hlog|exact E].
Defined.
