(* ===== verification/Config.v ===== *)
(** * Configuration commands

    A command for a domain that does not exist fails and changes nothing; a domain that
    is created is found again; the address of the peer, once set, is the one a
    connection is recognised by. *)

From S2P Require Import Prelude CMem CString MsgFormat State Machine IccpMsg Port Lookup Syncd AppCsm IccpCsm.
From S2P Require Import MacTable Ifm Cli Scheduler Boot Daemon.
#[local] Open Scope Z_scope.

(** The domain a command is for; the others are for the whole system or for a port. *)
Definition command_domain (k : command) : option Z :=
  match k with
  | CmdNoMclag mid | CmdPeerLink mid _ | CmdNoPeerLink mid | CmdLocalAddress mid _ | CmdNoLocalAddress mid
  | CmdPeerAddress mid _ | CmdNoPeerAddress mid | CmdAttach mid _ | CmdKeepalive mid _
  | CmdSessionTimeout mid _ => Some mid
  | CmdMclag _ | CmdDetach _ | CmdSystemId _ | CmdNoSystemId => None
  end.

(** No machine has the domain. *)
Definition no_domain (mid : Z) (w : World) : Prop :=
  all_live (w_csms w) (csm_list (w_sys w)) ∧ csm_with_id mid w = NULL.

(** A command for a domain that does not exist returns an error and changes nothing. *)
Theorem unknown_domain_error k mid w :
  command_domain k = Some mid → no_domain mid w → run_command k w = Ok MCLAG_ERROR w.
Proof.
  intros Hk [Hl Hn]. pose proof (csm_find_run mid w Hl) as E. rewrite Hn in E.
  destruct k; simplify_eq/=;
    unfold unset_mc_lag_by_id, set_peer_link, unset_peer_link, set_local_address, unset_local_address,
      set_peer_address, unset_peer_address, iccp_cli_attach_mclag_domain_to_port_channel, set_keepalive_time,
      set_session_timeout; repeat case_match; try done; by rewrite (bind_ok _ _ _ _ _ E).
Qed.

Lemma unknown_domain_error_witness :
  no_domain 7 (boot calm) ∧ run_command (CmdSessionTimeout 7 30) (boot calm) = Ok MCLAG_ERROR (boot calm).
Proof.
  assert (no_domain 7 (boot calm)) as H by (split; [intros p Hp; by apply elem_of_nil in Hp|reflexivity]).
  split; [exact H|exact (unknown_domain_error (CmdSessionTimeout 7 30) 7 (boot calm) eq_refl H)].
Defined.

(** ** A new domain *)

(** A machine as it is created: no session, no address, the default timers. *)
Record new_csm (x : CSM) : Prop := {
  nc_session : sock_fd x = -1 ∧ current_state x = ICCP_NONEXISTENT ∧ role_type x = STP_ROLE_NONE;
  nc_ips : sender_ip x = replicate INET_ADDRSTRLEN 0 ∧ peer_ip x = replicate INET_ADDRSTRLEN 0;
  nc_timers : keepalive_time x = CONNECT_INTERVAL_SEC ∧ session_timeout x = HEARTBEAT_TIMEOUT_SEC;
  nc_lists : pif_list (MLACP x) = [] ∧ lif_list (MLACP x) = [] ∧ mac_rb (MLACP x) = [] ∧ if_bind_list x = []
}.

Lemma csm_set_trace c x y f w : csm_set c y ((csm_set c x w) <| w_trace ::= f |>) = csm_set c y w <| w_trace ::= f |>.
Proof. destruct w. unfold csm_set. simpl. unfold set, set_w_csms, set_w_trace. simpl. by rewrite insert_insert_eq. Qed.

(** [iccp_csm_init] on a cleared machine. *)
Lemma csm_init_run c w : c ≠ NULL → w_csms w !! c = Some csm_zero →
  ∃ x f, iccp_csm_init c w = Ok tt (csm_set c x w <| w_trace ::= f |>) ∧ new_csm x.
Proof.
  intros Hc Hx. unfold iccp_csm_init, iccp_csm_status_reset, app_csm_init, mlacp_init, mlacp_mac_msg_queue_reinit,
    pif_queue_reinit, lif_queue_reinit, mlacp_upd, when. rewrite eqb_null by done.
  repeat first
    [ rewrite bind_assoc
    | rewrite (csm_upd_bind c _ _ _ _ Hx)
    | rewrite (csm_upd_bind c _ _ _ _ (csm_set_lookup c _ _))
    | rewrite (deref_bind w_csms c _ _ _ (csm_set_lookup c _ _))
    | rewrite csm_set_set
    | rewrite ret_bind
    | match goal with |- context [(mforeach ?l ?f ≫= ?k) ?w0] =>
        let v := eval hnf in l in change (mforeach l f) with (mforeach v f); cbn [mforeach] end ].
  match goal with |- context [csm_set c ?y w] => set (x0 := y) end.
  rewrite sys_bind. set (e := (SysRand, _)).
  assert (∀ y, w_csms (csm_set c y w <| w_trace ::= cons e |>) !! c = Some y) as Hl
    by (intros y; apply (csm_set_lookup c y w)).
  rewrite (csm_upd_bind c _ _ _ _ (Hl x0)), csm_set_trace, (csm_upd_bind c _ _ _ _ (Hl _)), csm_set_trace.
  rewrite (csm_upd_run c _ _ _ (Hl _)), csm_set_trace. eexists _, _. split; [reflexivity|]. by split.
Qed.

Lemma created_world c x y z f g e w :
  csm_set c y (set w_sys g ((csm_set c x (w <| w_trace ::= cons e |> <| w_next ::= Z.succ |>
                                            <| w_csms ::= <[c := z]> |>)) <| w_trace ::= f |>))
  = csm_set c y w <| w_next ::= Z.succ |> <| w_sys ::= g |> <| w_trace ::= λ tr, f (e :: tr) |>.
Proof.
  destruct w as [s cs ls ps ms n i b p o lg v t].
  cbv beta iota delta [csm_set set set_w_sys set_w_csms set_w_trace set_w_next w_sys w_csms w_lifs w_pifs w_macs
    w_next w_msg_id w_csm_buf w_prev_state w_once_connected w_logger w_env w_trace].
  by rewrite !insert_insert_eq.
Qed.

(** The command that creates a domain creates one machine, with the identifier of the
    domain in the machine, in the group of the session and in the mLACP machine, no
    session, no address and the default timers; the machine is the one that is found
    for the domain from then on, and nothing else changes. *)
Theorem domain_created mid w :
  no_domain mid w → 0 < w_next w → (∀ tr, w_env w tr (SysMalloc 4096) ≠ 0) →
  ∃ x f, let c := w_next w in
    let w' := csm_set c x w <| w_next ::= Z.succ |> <| w_sys ::= set csm_list (cons c) |> <| w_trace ::= f |> in
    set_mc_lag_by_id mid w = Ok 0 w' ∧ csm_with_id mid w' = c
    ∧ mlag_id x = mid ∧ icc_rg_id (iccp_info x) = mid ∧ mlacp_id (MLACP x) = mid ∧ new_csm x.
Proof.
  intros [Hl Hn] Hc Hm. unfold set_mc_lag_by_id, iccp_get_csm, system_create_csm, alloc.
  rewrite (bind_ok _ _ _ _ _ (csm_find_run mid w Hl)), Hn. simpl.
  rewrite !bind_assoc, sys_bind, (proj2 (Z.eqb_neq _ _)) by apply Hm.
  set (w1 := w <| w_trace ::= _ |>). unfold place, mbind at 1, M_bind at 1. set (c := w_next w1).
  assert (c ≠ NULL) as Hnull by (unfold c, NULL; simpl; lia). rewrite eqb_null by done.
  set (w2 := w1 <| w_next ::= Z.succ |> <| w_csms ::= <[c:=csm_zero]> |>).
  destruct (csm_init_run c w2) as (x & f & E & Hx); [done|by apply lookup_insert_eq|].
  rewrite bind_assoc, (bind_ok _ _ _ _ _ E), bind_assoc. unfold sys_upd.
  unfold mbind at 1, M_bind at 1, modify. rewrite ret_bind, eqb_null by done.
  unfold set_mc_lag_id. rewrite eqb_null by done.
  rewrite (csm_upd_bind c _ x) by (apply (csm_set_lookup c x w2)).
  match goal with |- context [csm_set c ?y _] => set (z := y); exists z end.
  exists (λ tr, f ((SysMalloc 4096, w_env w (w_trace w) (SysMalloc 4096)) :: tr)).
  split; [|split; [|split; [|split; [|split]]]]; [| |reflexivity|reflexivity|reflexivity|].
  - clearbody z. unfold mret, M_ret. f_equal. apply created_world.
  - unfold csm_with_id. change (csm_list _) with (w_next w :: csm_list (w_sys w)). simpl first_such.
    rewrite lookup_insert_eq.
    change (mlacp_id (MLACP z)) with mid. by rewrite Z.eqb_refl.
  - destruct Hx. by split.
Qed.

Lemma domain_created_witness : ∃ x f,
  let w' := csm_set 4096 x (boot calm) <| w_next ::= Z.succ |> <| w_sys ::= set csm_list (cons 4096) |>
            <| w_trace ::= f |> in
  set_mc_lag_by_id 100 (boot calm) = Ok 0 w' ∧ csm_with_id 100 w' = 4096 ∧ mlag_id x = 100.
Proof.
  destruct (domain_created 100 (boot calm)) as (x & f & E & F & H & _);
    [split; [intros p Hp; by apply elem_of_nil in Hp|reflexivity]|reflexivity|discriminate|].
  exists x, f. split; [exact E|]. split; [exact F|exact H].
Defined.

(** ** The address of the peer *)

(** An address in its array. *)
Definition padded (addr : list Z) : list Z := addr ++ replicate (INET_ADDRSTRLEN - length addr) 0.

(** C31. An address that is set for the peer is the one a connection is recognised by: on
    a machine without an address, the command stores the address, padded with null
    bytes, changes nothing else, and the lookup by the address of a connection then
    finds this machine, when no other one has that address. *)
Theorem peer_address_roundtrip mid addr w c x :
  all_live (w_csms w) (csm_list (w_sys w)) → csm_with_id mid w = c → c ≠ NULL → w_csms w !! c = Some x →
  strlen (peer_ip x) = 0 → Forall (λ b, b ≠ 0) addr → Z.of_nat (length addr) < Z.of_nat INET_ADDRSTRLEN →
  (∀ c' x', c' ∈ csm_list (w_sys w) → c' ≠ c → w_csms w !! c' = Some x' → str_eqb (peer_ip x') addr = false) →
  let w' := csm_set c (x <| peer_ip := padded addr |>) w in
  set_peer_address mid addr w = Ok 0 w' ∧ system_get_csm_by_peer_ip addr w' = Ok c w'.
Proof.
  intros Hl Hid Hc Hx Hip Ha Hlen Hother w'. set (ip := padded addr) in *.
  assert (copy_address addr = Some ip) as Hcopy.
  { unfold copy_address, strlen. rewrite (cstr_id addr Ha).
    destruct (Z.gtb_spec (Z.of_nat (length addr)) (Z.of_nat INET_ADDRSTRLEN)); [lia|].
    rewrite put_ok by (rewrite length_replicate; lia). rewrite drop_replicate. done. }
  split.
  - unfold set_peer_address. rewrite (bind_ok _ _ _ _ _ (csm_find_run mid w Hl)), Hid, eqb_null by done.
    rewrite (deref_bind w_csms _ _ _ _ Hx), Hip. simpl. rewrite ret_bind, Hcopy.
    rewrite (csm_upd_bind c _ _ _ _ Hx), (csm_upd_bind c _ _ _ _ (csm_set_lookup c _ _)), csm_set_set. done.
  - assert (all_live (w_csms w') (csm_list (w_sys w'))) as Hl'.
    { intros p Hp. unfold w', csm_set. simpl. destruct (decide (c = p)) as [->|Hne].
      - rewrite lookup_insert_eq. by eexists.
      - rewrite lookup_insert_ne by done. by apply Hl. }
    unfold system_get_csm_by_peer_ip, gets, mbind at 1, M_bind at 1. rewrite (mfind_run w_csms) by done. f_equal.
    destruct (first_such_spec _ _ _ _ Hid Hc) as (x0 & Hin & _ & _).
    apply first_such_unique with (x <| peer_ip := ip |>); [done|done|apply csm_set_lookup| |].
    + unfold str_eqb. apply bool_decide_eq_true. simpl. unfold ip, padded. rewrite (cstr_id addr Ha).
      destruct (INET_ADDRSTRLEN - length addr)%nat eqn:E; [lia|]. simpl. by apply cstr_app_nul.
    + intros q y Hq Hne. unfold w', csm_set. simpl. rewrite lookup_insert_ne by done. by apply Hother.
Qed.

Lemma peer_address_roundtrip_witness :
  let w := with_csm 1 (set_MLACP (set mlacp_id (λ _, 100)) (session_csm 100)) (boot calm) in
  ∃ w', set_peer_address 100 (str "10.0.0.2") w = Ok 0 w'
        ∧ system_get_csm_by_peer_ip (str "10.0.0.2") w' = Ok 1 w'.
Proof.
  intros w. eexists.
  apply (peer_address_roundtrip 100 (str "10.0.0.2") w 1 (set_MLACP (set mlacp_id (λ _, 100)) (session_csm 100)));
    [|reflexivity|discriminate|reflexivity|reflexivity| |reflexivity|].
  - apply all_live_Forall. constructor; [by eexists|constructor].
  - repeat constructor; discriminate.
  - intros c' x' [->|H]%elem_of_cons Hne; [by destruct Hne|by apply elem_of_nil in H].
Defined.
