(* ===== verification/PacState.v ===== *)
(** * The authentication manager of sonic-pac: state and environment

    [authmgrd] ([src/sonic-pac/authmgr]) decides which clients may use a port.
    Every client has a logical port, a node of a pool that is found by its key in
    an AVL tree; every physical port has an entry of [authmgrPortInfo]; the methods
    (802.1X and MAB) are reached through [authmgrCallbacks].  This file holds the
    data of [auth_mgr_db.h], [auth_mgr_struct.h] and [auth_mgr_exports.h], the calls
    to other components with the answers of the environment, and the database of
    logical ports ([protocol/auth_mgr_db.c]) and of addresses
    ([protocol/auth_mgr_mac_db.c]).

    The AVL tree is the map it implements ([avl_util.c]: the data of a removed
    node is cleared and its slot goes to the head of the free list, so a pointer to
    a removed node reads zeros).  The order of the tree compares keys by a signed
    difference; it is the order of the keys as long as ports are below [2^15].
    Locks, traces and log messages have no effect on this state. *)

From S2P Require Import Prelude CMem CString.
#[local] Open Scope Z_scope.

(** ** The modes of a port ([common/auth_mgr_exports.h]) *)

Inductive AUTHMGR_PORT_CONTROL_t : Type :=
  AUTHMGR_PORT_CONTROL_INVALID | AUTHMGR_PORT_FORCE_UNAUTHORIZED | AUTHMGR_PORT_FORCE_AUTHORIZED
| AUTHMGR_PORT_AUTO | AUTHMGR_PORT_NA.
Inductive AUTHMGR_HOST_CONTROL_t : Type :=
  AUTHMGR_INVALID_HOST_MODE | AUTHMGR_SINGLE_AUTH_MODE | AUTHMGR_MULTI_HOST_MODE | AUTHMGR_MULTI_AUTH_MODE.

(** ** Constants of headers outside the repository

    [pacinfra_common.h] and [defaultconfig.h] are not part of it. *)
Class Headers : Type := {
  AUTHMGR_METHOD_MIN : nat;
  AUTHMGR_METHOD_MAX : nat;
  FD_AUTHMGR_PORT_MAX_USERS : nat;
  AUTHMGR_METHOD_START : Z;
  MAX_PORT_COUNT : Z;
  (** the defaults of a port *)
  FD_AUTHMGR_PORT_MODE : AUTHMGR_PORT_CONTROL_t;
  FD_AUTHMGR_HOST_MODE : AUTHMGR_HOST_CONTROL_t;
  FD_AUTHMGR_RESTART_TIMER_VAL : Z;
  FD_AUTHMGR_PORT_REAUTH_PERIOD : Z;
  FD_AUTHMGR_PORT_REAUTH_ENABLED : bool;
  FD_AUTHMGR_PORT_REAUTH_PERIOD_FROM_SERVER : bool;
  FD_AUTHMGR_RADIUS_MAX_AUTH_ATTEMPTS : Z;
  FD_AUTHMGR_PORT_PAE_CAPABILITIES : Z;
  FD_AUTHMGR_LIST : list Z;
  (** the states of a link and of an interface, and the number of interfaces of the platform,
      [platIntfTotalMaxCountGet] *)
  UP : Z;
  DOWN : Z;
  ENABLE : Z;
  platIntfTotalMaxCount : Z
}.

(** The return codes the code tells apart; [RC_other] is any other one. *)
Inductive RC_t : Type := SUCCESS | FAILURE | ERROR | NOT_EXIST | ALREADY_CONFIGURED | RC_other (n : Z).
#[global] Instance RC_t_eq_dec : EqDecision RC_t.
Proof. solve_decision. Defined.
Definition is_SUCCESS (r : RC_t) : bool := if r is SUCCESS then true else false.

(** ** Enumerations ([common/auth_mgr_exports.h], [protocol/include/auth_mgr_db.h]) *)

(** [AUTHMGR_METHOD_t]; it indexes [authmgrCallbacks], so it stays a number *)
Definition AUTHMGR_METHOD_NONE : Z := 0.
Definition AUTHMGR_METHOD_8021X : Z := 1.
Definition AUTHMGR_METHOD_MAB : Z := 2.
Definition AUTHMGR_METHOD_LAST : nat := 3.

Inductive AUTHMGR_STATES_t : Type :=
  AUTHMGR_INITIALIZE | AUTHMGR_AUTHENTICATING | AUTHMGR_AUTHENTICATED | AUTHMGR_HELD
| AUTHMGR_UNAUTHENTICATED | AUTHMGR_STATES.
Inductive AUTHMGR_PORT_STATUS_t : Type :=
  AUTHMGR_PORT_STATUS_NA | AUTHMGR_PORT_STATUS_AUTHORIZED | AUTHMGR_PORT_STATUS_UNAUTHORIZED.
Inductive AUTHMGR_PORT_LEARNING_t : Type :=
  AUTHMGR_PORT_LEARNING_NA | AUTHMGR_PORT_LEARNING_DISABLE | AUTHMGR_PORT_LEARNING_ENABLE
| AUTHMGR_PORT_LEARNING_CPU.
Inductive AUTHMGR_PORT_VIOLATION_CALLBACK_t : Type :=
  AUTHMGR_PORT_VIOLATION_CALLBACK_NA | AUTHMGR_PORT_VIOLATION_CALLBACK_DISABLE
| AUTHMGR_PORT_VIOLATION_CALLBACK_ENABLE.
Inductive authmgrClientType_t : Type :=
  AUTHMGR_CLIENT_UNASSIGNED | AUTHMGR_CLIENT_AWARE | AUTHMGR_CLIENT_UNAWARE | AUTHMGR_CLIENT_MAB.
Inductive authmgrVlanType_t : Type :=
  AUTHMGR_VLAN_UNASSIGNED | AUTHMGR_VLAN_RADIUS | AUTHMGR_VLAN_UNAUTH | AUTHMGR_VLAN_GUEST
| AUTHMGR_VLAN_DEFAULT | AUTHMGR_VLAN_BLOCKED.
Inductive authmgrTimerType_t : Type :=
  AUTHMGR_TIMER_UNASSIGNED | AUTHMGR_QWHILE | AUTHMGR_REAUTH_WHEN | AUTHMGR_METHOD_NO_RESP_TMR.
Inductive authmgrPortType_t : Type := AUTHMGR_LOGICAL_PORT | AUTHMGR_PHYSICAL_PORT.
Inductive authmgrNotifyEvent_t : Type :=
  authmgrClientReAuthenticate | authmgrClientAuthStart | authmgrClientDisconnect.
Inductive AUTHMGR_METHOD_TYPE_t : Type := AUTHMGR_TYPE_ORDER | AUTHMGR_TYPE_PRIORITY.
Inductive authmgrStatsUpdate_t : Type :=
  authmgrStatsAuthEnter | authmgrStatsAuthSuccess | authmgrStatsAuthFail | authmgrStatsAuthTimeout.
Inductive AUTHMGR_STATUS_t : Type :=
  AUTHMGR_NEW_CLIENT | AUTHMGR_AUTH_FAIL | AUTHMGR_AUTH_SUCCESS | AUTHMGR_AUTH_TIMEOUT
| AUTHMGR_AUTH_SERVER_COMM_FAILURE | AUTHMGR_CLIENT_DISCONNECTED | AUTHMGR_METHOD_CHANGE.
(** The events of the state machine ([protocol/include/auth_mgr_sm.h]) *)
Inductive authmgrSmEvents_t : Type :=
  authmgrInitialize | authmgrStartAuthenticate | authmgrAuthSuccess | authmgrNotAuthSuccessNoNextMethod
| authmgrNotAuthSuccessNextMethod | authmgrHeldTimerEqualsZero | authmgrStopAuthenticate
| authmgrHigherAuthMethodAdded | authmgrReauthenticate | authmgrAuthenticatedRxEapolStart
| authmgrAuthFail | authmgrAbortAndRestartAuth.

#[global] Instance AUTHMGR_STATES_t_eq_dec : EqDecision AUTHMGR_STATES_t. Proof. solve_decision. Defined.
#[global] Instance AUTHMGR_PORT_STATUS_t_eq_dec : EqDecision AUTHMGR_PORT_STATUS_t. Proof. solve_decision. Defined.
#[global] Instance AUTHMGR_PORT_CONTROL_t_eq_dec : EqDecision AUTHMGR_PORT_CONTROL_t. Proof. solve_decision. Defined.
#[global] Instance AUTHMGR_HOST_CONTROL_t_eq_dec : EqDecision AUTHMGR_HOST_CONTROL_t. Proof. solve_decision. Defined.
#[global] Instance authmgrVlanType_t_eq_dec : EqDecision authmgrVlanType_t. Proof. solve_decision. Defined.
#[global] Instance authmgrClientType_t_eq_dec : EqDecision authmgrClientType_t. Proof. solve_decision. Defined.
#[global] Instance authmgrTimerType_t_eq_dec : EqDecision authmgrTimerType_t. Proof. solve_decision. Defined.
#[global] Instance AUTHMGR_STATUS_t_eq_dec : EqDecision AUTHMGR_STATUS_t. Proof. solve_decision. Defined.

Definition AUTHMGR_HW_ATTR_STATIC_FDB : Z := 1.
Definition AUTHMGR_HW_ATTR_BLOCK_FDB : Z := 2.
Definition AUTHMGR_HW_ATTR_PVID : Z := 3.
Definition AUTHMGR_HW_ATTR_LAST : Z := 4.
Definition AUTHMGR_USER_NAME_LEN : nat := 65.
Definition AUTHMGR_SERVER_STATE_LEN : nat := 253.
Definition AUTHMGR_SERVER_CLASS_LEN : nat := 253.
Definition DOT1X_PAE_PORT_NONE_CAPABLE : Z := 0.
Definition DOT1X_PAE_PORT_AUTH_CAPABLE : Z := 1.
Definition DOT1X_PAE_PORT_PROTOCOL_VERSION_2 : Z := 2.
Definition AUTH_METHOD_RADIUS : Z := 3.
Definition RADIUS_TERMINATION_ACTION_DEFAULT : Z := 0.
Definition RADIUS_TERMINATION_ACTION_RADIUS : Z := 1.
Definition RADIUS_REQUIRED_TUNNEL_ATTRIBUTES_SPECIFIED : Z := 7.

(** ** Structures *)

(** [authmgrClientInfo_t] *)
Record authmgrClientInfo_t : Type := mkClientInfo {
  cl_clientType : authmgrClientType_t;
  cl_reAuthenticate : bool;
  cl_retryCount : Z;
  cl_reAuthCount : Z;
  cl_currentMethod : Z;
  cl_authenticatedMethod : Z;
  cl_executedMethod : list Z;
  cl_logicalPortStatus : AUTHMGR_PORT_STATUS_t;
  cl_authmgrUserName : list Z;
  cl_authmgrUserNameLength : Z;
  cl_serverStateLen : Z;
  cl_serverState : list Z;
  cl_serverClass : list Z;
  cl_serverClassLen : Z;
  cl_currentIdL : Z;
  cl_rcvdEapolVersion : Z;
  cl_suppMacAddr : list Z;
  cl_vlanType : authmgrVlanType_t;
  cl_vlanTypePortCfg : bool;
  cl_vlanId : Z;
  cl_blockVlanId : Z;
  cl_dataBlocked : bool;
  cl_reAuthenticating : bool;
  cl_suppRestarting : bool;
  cl_authMethod : Z;
  cl_sessionTime : Z;
  cl_clientTimeout : Z;
  cl_sessionTimeout : Z;
  cl_terminationAction : Z;
  cl_lastAuthTime : Z;
  cl_mabAuthType : Z;
  cl_attrCreateMask : Z
}.
Definition authmgrClientInfo_t_eta (r : authmgrClientInfo_t) : authmgrClientInfo_t :=
  mkClientInfo (cl_clientType r) (cl_reAuthenticate r) (cl_retryCount r) (cl_reAuthCount r) (cl_currentMethod r) (cl_authenticatedMethod r) (cl_executedMethod r) (cl_logicalPortStatus r) (cl_authmgrUserName r) (cl_authmgrUserNameLength r) (cl_serverStateLen r) (cl_serverState r) (cl_serverClass r) (cl_serverClassLen r) (cl_currentIdL r) (cl_rcvdEapolVersion r) (cl_suppMacAddr r) (cl_vlanType r) (cl_vlanTypePortCfg r) (cl_vlanId r) (cl_blockVlanId r) (cl_dataBlocked r) (cl_reAuthenticating r) (cl_suppRestarting r) (cl_authMethod r) (cl_sessionTime r) (cl_clientTimeout r) (cl_sessionTimeout r) (cl_terminationAction r) (cl_lastAuthTime r) (cl_mabAuthType r) (cl_attrCreateMask r).
#[global] Instance set_cl_clientType : Settable cl_clientType. Proof. make_setter authmgrClientInfo_t_eta cl_clientType. Defined.
#[global] Instance set_cl_reAuthenticate : Settable cl_reAuthenticate. Proof. make_setter authmgrClientInfo_t_eta cl_reAuthenticate. Defined.
#[global] Instance set_cl_retryCount : Settable cl_retryCount. Proof. make_setter authmgrClientInfo_t_eta cl_retryCount. Defined.
#[global] Instance set_cl_reAuthCount : Settable cl_reAuthCount. Proof. make_setter authmgrClientInfo_t_eta cl_reAuthCount. Defined.
#[global] Instance set_cl_currentMethod : Settable cl_currentMethod. Proof. make_setter authmgrClientInfo_t_eta cl_currentMethod. Defined.
#[global] Instance set_cl_authenticatedMethod : Settable cl_authenticatedMethod. Proof. make_setter authmgrClientInfo_t_eta cl_authenticatedMethod. Defined.
#[global] Instance set_cl_executedMethod : Settable cl_executedMethod. Proof. make_setter authmgrClientInfo_t_eta cl_executedMethod. Defined.
#[global] Instance set_cl_logicalPortStatus : Settable cl_logicalPortStatus. Proof. make_setter authmgrClientInfo_t_eta cl_logicalPortStatus. Defined.
#[global] Instance set_cl_authmgrUserName : Settable cl_authmgrUserName. Proof. make_setter authmgrClientInfo_t_eta cl_authmgrUserName. Defined.
#[global] Instance set_cl_authmgrUserNameLength : Settable cl_authmgrUserNameLength. Proof. make_setter authmgrClientInfo_t_eta cl_authmgrUserNameLength. Defined.
#[global] Instance set_cl_serverStateLen : Settable cl_serverStateLen. Proof. make_setter authmgrClientInfo_t_eta cl_serverStateLen. Defined.
#[global] Instance set_cl_serverState : Settable cl_serverState. Proof. make_setter authmgrClientInfo_t_eta cl_serverState. Defined.
#[global] Instance set_cl_serverClass : Settable cl_serverClass. Proof. make_setter authmgrClientInfo_t_eta cl_serverClass. Defined.
#[global] Instance set_cl_serverClassLen : Settable cl_serverClassLen. Proof. make_setter authmgrClientInfo_t_eta cl_serverClassLen. Defined.
#[global] Instance set_cl_currentIdL : Settable cl_currentIdL. Proof. make_setter authmgrClientInfo_t_eta cl_currentIdL. Defined.
#[global] Instance set_cl_rcvdEapolVersion : Settable cl_rcvdEapolVersion. Proof. make_setter authmgrClientInfo_t_eta cl_rcvdEapolVersion. Defined.
#[global] Instance set_cl_suppMacAddr : Settable cl_suppMacAddr. Proof. make_setter authmgrClientInfo_t_eta cl_suppMacAddr. Defined.
#[global] Instance set_cl_vlanType : Settable cl_vlanType. Proof. make_setter authmgrClientInfo_t_eta cl_vlanType. Defined.
#[global] Instance set_cl_vlanTypePortCfg : Settable cl_vlanTypePortCfg. Proof. make_setter authmgrClientInfo_t_eta cl_vlanTypePortCfg. Defined.
#[global] Instance set_cl_vlanId : Settable cl_vlanId. Proof. make_setter authmgrClientInfo_t_eta cl_vlanId. Defined.
#[global] Instance set_cl_blockVlanId : Settable cl_blockVlanId. Proof. make_setter authmgrClientInfo_t_eta cl_blockVlanId. Defined.
#[global] Instance set_cl_dataBlocked : Settable cl_dataBlocked. Proof. make_setter authmgrClientInfo_t_eta cl_dataBlocked. Defined.
#[global] Instance set_cl_reAuthenticating : Settable cl_reAuthenticating. Proof. make_setter authmgrClientInfo_t_eta cl_reAuthenticating. Defined.
#[global] Instance set_cl_suppRestarting : Settable cl_suppRestarting. Proof. make_setter authmgrClientInfo_t_eta cl_suppRestarting. Defined.
#[global] Instance set_cl_authMethod : Settable cl_authMethod. Proof. make_setter authmgrClientInfo_t_eta cl_authMethod. Defined.
#[global] Instance set_cl_sessionTime : Settable cl_sessionTime. Proof. make_setter authmgrClientInfo_t_eta cl_sessionTime. Defined.
#[global] Instance set_cl_clientTimeout : Settable cl_clientTimeout. Proof. make_setter authmgrClientInfo_t_eta cl_clientTimeout. Defined.
#[global] Instance set_cl_sessionTimeout : Settable cl_sessionTimeout. Proof. make_setter authmgrClientInfo_t_eta cl_sessionTimeout. Defined.
#[global] Instance set_cl_terminationAction : Settable cl_terminationAction. Proof. make_setter authmgrClientInfo_t_eta cl_terminationAction. Defined.
#[global] Instance set_cl_lastAuthTime : Settable cl_lastAuthTime. Proof. make_setter authmgrClientInfo_t_eta cl_lastAuthTime. Defined.
#[global] Instance set_cl_mabAuthType : Settable cl_mabAuthType. Proof. make_setter authmgrClientInfo_t_eta cl_mabAuthType. Defined.
#[global] Instance set_cl_attrCreateMask : Settable cl_attrCreateMask. Proof. make_setter authmgrClientInfo_t_eta cl_attrCreateMask. Defined.

(** [authmgrProtocolInfo_t] *)
Record authmgrProtocolInfo_t : Type := mkProtocolInfo {
  pr_heldTimerExpired : bool;
  pr_authState : AUTHMGR_STATES_t;
  pr_authSuccess : bool;
  pr_authFail : bool;
  pr_authTimeout : bool;
  pr_unAuthenticate : bool;
  pr_authenticate : bool;
  pr_reauth : bool;
  pr_newMethodInsert : bool;
  pr_eapSuccess : bool;
  pr_authenticatedRcvdStartAuth : bool
}.
Definition authmgrProtocolInfo_t_eta (r : authmgrProtocolInfo_t) : authmgrProtocolInfo_t :=
  mkProtocolInfo (pr_heldTimerExpired r) (pr_authState r) (pr_authSuccess r) (pr_authFail r) (pr_authTimeout r) (pr_unAuthenticate r) (pr_authenticate r) (pr_reauth r) (pr_newMethodInsert r) (pr_eapSuccess r) (pr_authenticatedRcvdStartAuth r).
#[global] Instance set_pr_heldTimerExpired : Settable pr_heldTimerExpired. Proof. make_setter authmgrProtocolInfo_t_eta pr_heldTimerExpired. Defined.
#[global] Instance set_pr_authState : Settable pr_authState. Proof. make_setter authmgrProtocolInfo_t_eta pr_authState. Defined.
#[global] Instance set_pr_authSuccess : Settable pr_authSuccess. Proof. make_setter authmgrProtocolInfo_t_eta pr_authSuccess. Defined.
#[global] Instance set_pr_authFail : Settable pr_authFail. Proof. make_setter authmgrProtocolInfo_t_eta pr_authFail. Defined.
#[global] Instance set_pr_authTimeout : Settable pr_authTimeout. Proof. make_setter authmgrProtocolInfo_t_eta pr_authTimeout. Defined.
#[global] Instance set_pr_unAuthenticate : Settable pr_unAuthenticate. Proof. make_setter authmgrProtocolInfo_t_eta pr_unAuthenticate. Defined.
#[global] Instance set_pr_authenticate : Settable pr_authenticate. Proof. make_setter authmgrProtocolInfo_t_eta pr_authenticate. Defined.
#[global] Instance set_pr_reauth : Settable pr_reauth. Proof. make_setter authmgrProtocolInfo_t_eta pr_reauth. Defined.
#[global] Instance set_pr_newMethodInsert : Settable pr_newMethodInsert. Proof. make_setter authmgrProtocolInfo_t_eta pr_newMethodInsert. Defined.
#[global] Instance set_pr_eapSuccess : Settable pr_eapSuccess. Proof. make_setter authmgrProtocolInfo_t_eta pr_eapSuccess. Defined.
#[global] Instance set_pr_authenticatedRcvdStartAuth : Settable pr_authenticatedRcvdStartAuth. Proof. make_setter authmgrProtocolInfo_t_eta pr_authenticatedRcvdStartAuth. Defined.

(** [authmgrTimer_t]; a handle of [0] is no timer *)
Record authmgrTimer_t : Type := mkTimer {
  tm_type : authmgrTimerType_t (** [cxt.type] *);
  tm_keyNum : Z (** [cxt.keyNum] *);
  tm_handle : Z (** [handle.timer] *)
}.
Definition authmgrTimer_t_eta (r : authmgrTimer_t) : authmgrTimer_t :=
  mkTimer (tm_type r) (tm_keyNum r) (tm_handle r).
#[global] Instance set_tm_type : Settable tm_type. Proof. make_setter authmgrTimer_t_eta tm_type. Defined.
#[global] Instance set_tm_keyNum : Settable tm_keyNum. Proof. make_setter authmgrTimer_t_eta tm_keyNum. Defined.
#[global] Instance set_tm_handle : Settable tm_handle. Proof. make_setter authmgrTimer_t_eta tm_handle. Defined.

(** [authmgrLogicalPortInfo_t] *)
Record authmgrLogicalPortInfo_t : Type := mkLogicalPortInfo {
  lp_key : Z (** [key.keyNum] *);
  lp_timer : authmgrTimer_t;
  lp_noRespTimer : authmgrTimer_t (** [authmgrMethodNoRespTimer] *);
  lp_protocol : authmgrProtocolInfo_t;
  lp_client : authmgrClientInfo_t
}.
Definition authmgrLogicalPortInfo_t_eta (r : authmgrLogicalPortInfo_t) : authmgrLogicalPortInfo_t :=
  mkLogicalPortInfo (lp_key r) (lp_timer r) (lp_noRespTimer r) (lp_protocol r) (lp_client r).
#[global] Instance set_lp_key : Settable lp_key. Proof. make_setter authmgrLogicalPortInfo_t_eta lp_key. Defined.
#[global] Instance set_lp_timer : Settable lp_timer. Proof. make_setter authmgrLogicalPortInfo_t_eta lp_timer. Defined.
#[global] Instance set_lp_noRespTimer : Settable lp_noRespTimer. Proof. make_setter authmgrLogicalPortInfo_t_eta lp_noRespTimer. Defined.
#[global] Instance set_lp_protocol : Settable lp_protocol. Proof. make_setter authmgrLogicalPortInfo_t_eta lp_protocol. Defined.
#[global] Instance set_lp_client : Settable lp_client. Proof. make_setter authmgrLogicalPortInfo_t_eta lp_client. Defined.

(** [authmgrPortInfo_t], without the members nothing here reads *)
Record authmgrPortInfo_t : Type := mkPortInfo {
  pi_maxUsers : Z;
  pi_numUsers : Z;
  pi_authCount : Z;
  pi_currentId : Z;
  pi_paeCapabilities : Z;
  pi_enabledMethods : list Z;
  pi_enabledPriority : list Z;
  pi_enabledMethodCount : Z;
  pi_enabledPriorityCount : Z;
  pi_portControlMode : AUTHMGR_PORT_CONTROL_t;
  pi_hostMode : AUTHMGR_HOST_CONTROL_t;
  pi_portEnabled : bool;
  pi_unLearnMacPolicy : bool;
  pi_quietPeriod : Z;
  pi_reAuthPeriod : Z;
  pi_reAuthEnabled : bool;
  pi_reAuthPeriodServer : bool;
  pi_authFailRetryMaxCount : Z;
  pi_violationMode : Z;
  pi_pvid : Z;
  pi_authVlan : Z
}.
Definition authmgrPortInfo_t_eta (r : authmgrPortInfo_t) : authmgrPortInfo_t :=
  mkPortInfo (pi_maxUsers r) (pi_numUsers r) (pi_authCount r) (pi_currentId r) (pi_paeCapabilities r) (pi_enabledMethods r) (pi_enabledPriority r) (pi_enabledMethodCount r) (pi_enabledPriorityCount r) (pi_portControlMode r) (pi_hostMode r) (pi_portEnabled r) (pi_unLearnMacPolicy r) (pi_quietPeriod r) (pi_reAuthPeriod r) (pi_reAuthEnabled r) (pi_reAuthPeriodServer r) (pi_authFailRetryMaxCount r) (pi_violationMode r) (pi_pvid r) (pi_authVlan r).
#[global] Instance set_pi_maxUsers : Settable pi_maxUsers. Proof. make_setter authmgrPortInfo_t_eta pi_maxUsers. Defined.
#[global] Instance set_pi_numUsers : Settable pi_numUsers. Proof. make_setter authmgrPortInfo_t_eta pi_numUsers. Defined.
#[global] Instance set_pi_authCount : Settable pi_authCount. Proof. make_setter authmgrPortInfo_t_eta pi_authCount. Defined.
#[global] Instance set_pi_currentId : Settable pi_currentId. Proof. make_setter authmgrPortInfo_t_eta pi_currentId. Defined.
#[global] Instance set_pi_paeCapabilities : Settable pi_paeCapabilities. Proof. make_setter authmgrPortInfo_t_eta pi_paeCapabilities. Defined.
#[global] Instance set_pi_enabledMethods : Settable pi_enabledMethods. Proof. make_setter authmgrPortInfo_t_eta pi_enabledMethods. Defined.
#[global] Instance set_pi_enabledPriority : Settable pi_enabledPriority. Proof. make_setter authmgrPortInfo_t_eta pi_enabledPriority. Defined.
#[global] Instance set_pi_enabledMethodCount : Settable pi_enabledMethodCount. Proof. make_setter authmgrPortInfo_t_eta pi_enabledMethodCount. Defined.
#[global] Instance set_pi_enabledPriorityCount : Settable pi_enabledPriorityCount. Proof. make_setter authmgrPortInfo_t_eta pi_enabledPriorityCount. Defined.
#[global] Instance set_pi_portControlMode : Settable pi_portControlMode. Proof. make_setter authmgrPortInfo_t_eta pi_portControlMode. Defined.
#[global] Instance set_pi_hostMode : Settable pi_hostMode. Proof. make_setter authmgrPortInfo_t_eta pi_hostMode. Defined.
#[global] Instance set_pi_portEnabled : Settable pi_portEnabled. Proof. make_setter authmgrPortInfo_t_eta pi_portEnabled. Defined.
#[global] Instance set_pi_unLearnMacPolicy : Settable pi_unLearnMacPolicy. Proof. make_setter authmgrPortInfo_t_eta pi_unLearnMacPolicy. Defined.
#[global] Instance set_pi_quietPeriod : Settable pi_quietPeriod. Proof. make_setter authmgrPortInfo_t_eta pi_quietPeriod. Defined.
#[global] Instance set_pi_reAuthPeriod : Settable pi_reAuthPeriod. Proof. make_setter authmgrPortInfo_t_eta pi_reAuthPeriod. Defined.
#[global] Instance set_pi_reAuthEnabled : Settable pi_reAuthEnabled. Proof. make_setter authmgrPortInfo_t_eta pi_reAuthEnabled. Defined.
#[global] Instance set_pi_reAuthPeriodServer : Settable pi_reAuthPeriodServer. Proof. make_setter authmgrPortInfo_t_eta pi_reAuthPeriodServer. Defined.
#[global] Instance set_pi_authFailRetryMaxCount : Settable pi_authFailRetryMaxCount. Proof. make_setter authmgrPortInfo_t_eta pi_authFailRetryMaxCount. Defined.
#[global] Instance set_pi_violationMode : Settable pi_violationMode. Proof. make_setter authmgrPortInfo_t_eta pi_violationMode. Defined.
#[global] Instance set_pi_pvid : Settable pi_pvid. Proof. make_setter authmgrPortInfo_t_eta pi_pvid. Defined.
#[global] Instance set_pi_authVlan : Settable pi_authVlan. Proof. make_setter authmgrPortInfo_t_eta pi_authVlan. Defined.

(** [authmgrPortCfg_t], as far as the operation of a port reads it *)
Record authmgrPortCfg_t : Type := mkPortCfg {
  pc_configId : Z (** [0] is none *);
  pc_methodList : list Z;
  pc_priorityList : list Z;
  pc_portControlMode : AUTHMGR_PORT_CONTROL_t;
  pc_hostMode : AUTHMGR_HOST_CONTROL_t;
  pc_quietPeriod : Z;
  pc_reAuthPeriod : Z;
  pc_reAuthEnabled : bool;
  pc_reAuthPeriodServer : bool;
  pc_maxUsers : Z;
  pc_maxAuthAttempts : Z;
  pc_paeCapabilities : Z
}.
Definition authmgrPortCfg_t_eta (r : authmgrPortCfg_t) : authmgrPortCfg_t :=
  mkPortCfg (pc_configId r) (pc_methodList r) (pc_priorityList r) (pc_portControlMode r) (pc_hostMode r) (pc_quietPeriod r) (pc_reAuthPeriod r) (pc_reAuthEnabled r) (pc_reAuthPeriodServer r) (pc_maxUsers r) (pc_maxAuthAttempts r) (pc_paeCapabilities r).
#[global] Instance set_pc_configId : Settable pc_configId. Proof. make_setter authmgrPortCfg_t_eta pc_configId. Defined.
#[global] Instance set_pc_methodList : Settable pc_methodList. Proof. make_setter authmgrPortCfg_t_eta pc_methodList. Defined.
#[global] Instance set_pc_priorityList : Settable pc_priorityList. Proof. make_setter authmgrPortCfg_t_eta pc_priorityList. Defined.
#[global] Instance set_pc_portControlMode : Settable pc_portControlMode. Proof. make_setter authmgrPortCfg_t_eta pc_portControlMode. Defined.
#[global] Instance set_pc_hostMode : Settable pc_hostMode. Proof. make_setter authmgrPortCfg_t_eta pc_hostMode. Defined.
#[global] Instance set_pc_quietPeriod : Settable pc_quietPeriod. Proof. make_setter authmgrPortCfg_t_eta pc_quietPeriod. Defined.
#[global] Instance set_pc_reAuthPeriod : Settable pc_reAuthPeriod. Proof. make_setter authmgrPortCfg_t_eta pc_reAuthPeriod. Defined.
#[global] Instance set_pc_reAuthEnabled : Settable pc_reAuthEnabled. Proof. make_setter authmgrPortCfg_t_eta pc_reAuthEnabled. Defined.
#[global] Instance set_pc_reAuthPeriodServer : Settable pc_reAuthPeriodServer. Proof. make_setter authmgrPortCfg_t_eta pc_reAuthPeriodServer. Defined.
#[global] Instance set_pc_maxUsers : Settable pc_maxUsers. Proof. make_setter authmgrPortCfg_t_eta pc_maxUsers. Defined.
#[global] Instance set_pc_maxAuthAttempts : Settable pc_maxAuthAttempts. Proof. make_setter authmgrPortCfg_t_eta pc_maxAuthAttempts. Defined.
#[global] Instance set_pc_paeCapabilities : Settable pc_paeCapabilities. Proof. make_setter authmgrPortCfg_t_eta pc_paeCapabilities. Defined.

(** [authmgrMethodCommonStats_s] *)
Record authmgrMethodCommonStats_t : Type := mkMethodStats {
  ms_authEntersAuthenticating : Z;
  ms_authSuccess : Z;
  ms_authFailure : Z;
  ms_authTimeout : Z
}.
Definition authmgrMethodCommonStats_t_eta (r : authmgrMethodCommonStats_t) : authmgrMethodCommonStats_t :=
  mkMethodStats (ms_authEntersAuthenticating r) (ms_authSuccess r) (ms_authFailure r) (ms_authTimeout r).
#[global] Instance set_ms_authEntersAuthenticating : Settable ms_authEntersAuthenticating. Proof. make_setter authmgrMethodCommonStats_t_eta ms_authEntersAuthenticating. Defined.
#[global] Instance set_ms_authSuccess : Settable ms_authSuccess. Proof. make_setter authmgrMethodCommonStats_t_eta ms_authSuccess. Defined.
#[global] Instance set_ms_authFailure : Settable ms_authFailure. Proof. make_setter authmgrMethodCommonStats_t_eta ms_authFailure. Defined.
#[global] Instance set_ms_authTimeout : Settable ms_authTimeout. Proof. make_setter authmgrMethodCommonStats_t_eta ms_authTimeout. Defined.

(** [authmgrPortStats_t] *)
Record authmgrPortStats_t : Type := mkPortStats {
  ps_dot1x : authmgrMethodCommonStats_t;
  ps_mab : authmgrMethodCommonStats_t
}.
Definition authmgrPortStats_t_eta (r : authmgrPortStats_t) : authmgrPortStats_t :=
  mkPortStats (ps_dot1x r) (ps_mab r).
#[global] Instance set_ps_dot1x : Settable ps_dot1x. Proof. make_setter authmgrPortStats_t_eta ps_dot1x. Defined.
#[global] Instance set_ps_mab : Settable ps_mab. Proof. make_setter authmgrPortStats_t_eta ps_mab. Defined.

(** [authmgrAuthAttributeInfo_t]: the attributes of an accept that are read *)
Record authmgrAuthAttributeInfo_t : Type := mkAttributeInfo {
  at_userName : list Z;
  at_serverClass : list Z;
  at_serverClassLen : Z;
  at_sessionTimeout : Z;
  at_terminationAction : Z;
  at_idFromServer : Z;
  at_vlanString : list Z;
  at_vlanAttrFlags : Z
}.

(** [authmgrMethodCallbackNotifyMap_t] *)
Record authmgrMethodCallbackNotifyMap_t : Type := mkCallback {
  mc_method : Z;
  mc_eventNotifyFn : bool (** [eventNotifyFn] is not null *);
  mc_enableGetFn : bool (** [enableGetFn] is not null *);
  mc_portCtrlFn : bool (** [portCtrlFn] is not null *);
  mc_hostCtrlFn : bool (** [hostCtrlFn] is not null *)
}.

(** [pac_authenticated_clients_oper_table_t] ([pacoper_common.h]) *)
Record pac_authenticated_clients_oper_table_t : Type := mkOperClient {
  oc_currentIdL : Z;
  oc_auth_status : AUTHMGR_PORT_STATUS_t;
  oc_authenticatedMethod : Z;
  oc_serverState : list Z;
  oc_serverStateLen : Z;
  oc_serverClass : list Z;
  oc_serverClassLen : Z;
  oc_sessionTimeoutRcvdFromRadius : Z;
  oc_sessionTimeoutOper : Z;
  oc_userName : list Z;
  oc_userNameLen : Z;
  oc_terminationAction : Z;
  oc_vlanType : authmgrVlanType_t;
  oc_vlanId : Z;
  oc_sessionTime : Z;
  oc_lastAuthTime : Z;
  oc_backend_auth_method : Z
}.

(** ** The environment

    The calls to the interface manager ([nim]), to [paccfg], to [pacoper], to the
    timers, to the network and to the methods.  An answer carries a return code, a
    number, a flag and bytes, of which a call uses what it returns. *)

Record pres : Type := mkRes { r_rc : RC_t; r_num : Z; r_flag : bool; r_bytes : list Z }.

Inductive pcall : Type :=
| nimConfigIdGet (intIfNum : Z)
| nimGetIntfType (intIfNum : Z)
| nimGetIntfName (intIfNum : Z)
| nimGetIntfState (intIfNum : Z)
| nimGetIntfAddress (intIfNum : Z)
| pacCfgIntfClientAdd (ifName mac : list Z) (vlan : Z)
| pacCfgIntfClientRemove (ifName mac : list Z) (vlan : Z)
| pacCfgIntfClientBlock (ifName mac : list Z) (vlan : Z)
| pacCfgIntfClientUnblock (ifName mac : list Z) (vlan : Z)
| pacCfgVlanMemberAdd (vlan : Z) (ifName : list Z)
| pacCfgVlanMemberRemove (vlan : Z) (ifName : list Z)
| pacCfgPortPVIDGet (ifName : list Z)
| pacCfgIntfLearningModeSet (ifName : list Z) (learning : AUTHMGR_PORT_LEARNING_t)
| pacCreateDeleteSocket (intIfNum : Z) (create : bool)
| PacAuthClientOperTblSet (intIfNum : Z) (mac : list Z) (info : pac_authenticated_clients_oper_table_t)
| PacAuthClientOperTblDel (intIfNum : Z) (mac : list Z)
| PacGlobalOperTblSet
| PacPortOperTblSet (intIfNum : Z) (methods priority : list Z)
| eventNotifyFn (method intIfNum : Z) (event : authmgrNotifyEvent_t) (mac : list Z)
| enableGetFn (method intIfNum : Z)
| appTimerAdd (type : authmgrTimerType_t) (keyNum val : Z)
| appTimerDelete (handle : Z)
| simSystemUpTimeGet
| mbufGet
| eap_sendto (intIfNum : Z) (frame : list Z)
| authmgrIssueAuthenticationStart (lIntIfNum : Z)  (** [authmgrIssueCmd (authmgrAuthenticationStart, ..)] *)
| authmgrIssueMethodModify (mode : AUTHMGR_METHOD_TYPE_t) (intIfNum : Z)
  (** [authmgrIssueCmd (authmgrMethodOrderModify, ..)] or [authmgrMethodPriorityModify] *)
| bufferPoolAllocate
| osapiSleep100
| nimGetIntfLinkState (intIfNum : Z)
| nimGetIntfAdminState (intIfNum : Z)
| nimCheckIfNumber (intIfNum : Z)
| nimPhaseStatusCheck
| nimPorts (intIfNum : Z) (physical : bool)
  (** whether the port is present, and a [PHYSICAL_INTF] if that is asked *)
| nimEventStatusCallback (intIfNum : Z) (rc : RC_t)
| nimRegisterIntfEvents (startup : bool)
| nimStartupEventDone
| osapiTaskInitDone
| pacCfgVlanSendCfgNotification (revert : bool) (ifName : list Z) (vlans : gset Z * gset Z)
| pacCfgIntfAcquireSet (ifName : list Z) (acquire : bool)
| portCtrlFn (method intIfNum : Z) (mode : AUTHMGR_PORT_CONTROL_t)
| hostCtrlFn (method intIfNum : Z) (mode : AUTHMGR_HOST_CONTROL_t)
| appTimerInit
| appTimerDeInit (timerCB : Z)
| eap_socket_create.

(** [authmgrCB_t] and its [globalInfo] *)
Record authmgrCB_t : Type := mkCB {
  g_ready : bool (** [AUTHMGR_IS_READY] *);
  g_adminMode : bool (** [authmgrCfg->adminMode == ENABLE] *);
  g_portCfg : gmap Z authmgrPortCfg_t;
  g_portInfo : gmap Z authmgrPortInfo_t;
  g_portStats : gmap Z authmgrPortStats_t;
  g_callbacks : list authmgrMethodCallbackNotifyMap_t;
  g_tree : gmap Z Z (** [authmgrLogicalPortTreeDb]: the slot of a key *);
  g_nodes : gmap Z authmgrLogicalPortInfo_t (** [authmgrLogicalPortDataHeap]: the slots *);
  g_free : list Z (** the free slots, the next one first *);
  g_macDb : gmap (list Z) Z (** [authmgrMacAddrSLL]: the logical port of an address *);
  g_vlanMask : gset Z (** [authmgrVlanCfgDb->vlanDb.vlanMask] *);
  g_portVlans : gmap Z (gset Z * gset Z) (** [authmgrVlanCfgDb->portVlanDb]: member and tagged VLANs *);
  g_stateVlanMask : gset Z (** [authmgrVlanStateDb->vlanDb.vlanMask] *);
  g_statePortVlans : gmap Z (gset Z * gset Z) (** [authmgrVlanStateDb->portVlanDb] *);
  g_processInfo : authmgrClientInfo_t;
  g_oldInfo : authmgrClientInfo_t;
  g_attrInfo : authmgrAuthAttributeInfo_t;
  g_timerCB : Z (** [authmgrTimerCB]; [0] is [NULLPTR] *);
  g_env : list (pcall * pres) → pcall → pres (** the answers of the environment *);
  g_trace : list (pcall * pres) (** the calls made so far, the last first *)
}.
Definition authmgrCB_t_eta (r : authmgrCB_t) : authmgrCB_t :=
  mkCB (g_ready r) (g_adminMode r) (g_portCfg r) (g_portInfo r) (g_portStats r) (g_callbacks r) (g_tree r) (g_nodes r) (g_free r) (g_macDb r) (g_vlanMask r) (g_portVlans r) (g_stateVlanMask r) (g_statePortVlans r) (g_processInfo r) (g_oldInfo r) (g_attrInfo r) (g_timerCB r) (g_env r) (g_trace r).
#[global] Instance set_g_ready : Settable g_ready. Proof. make_setter authmgrCB_t_eta g_ready. Defined.
#[global] Instance set_g_adminMode : Settable g_adminMode. Proof. make_setter authmgrCB_t_eta g_adminMode. Defined.
#[global] Instance set_g_portCfg : Settable g_portCfg. Proof. make_setter authmgrCB_t_eta g_portCfg. Defined.
#[global] Instance set_g_portInfo : Settable g_portInfo. Proof. make_setter authmgrCB_t_eta g_portInfo. Defined.
#[global] Instance set_g_portStats : Settable g_portStats. Proof. make_setter authmgrCB_t_eta g_portStats. Defined.
#[global] Instance set_g_callbacks : Settable g_callbacks. Proof. make_setter authmgrCB_t_eta g_callbacks. Defined.
#[global] Instance set_g_tree : Settable g_tree. Proof. make_setter authmgrCB_t_eta g_tree. Defined.
#[global] Instance set_g_nodes : Settable g_nodes. Proof. make_setter authmgrCB_t_eta g_nodes. Defined.
#[global] Instance set_g_free : Settable g_free. Proof. make_setter authmgrCB_t_eta g_free. Defined.
#[global] Instance set_g_macDb : Settable g_macDb. Proof. make_setter authmgrCB_t_eta g_macDb. Defined.
#[global] Instance set_g_vlanMask : Settable g_vlanMask. Proof. make_setter authmgrCB_t_eta g_vlanMask. Defined.
#[global] Instance set_g_portVlans : Settable g_portVlans. Proof. make_setter authmgrCB_t_eta g_portVlans. Defined.
#[global] Instance set_g_stateVlanMask : Settable g_stateVlanMask. Proof. make_setter authmgrCB_t_eta g_stateVlanMask. Defined.
#[global] Instance set_g_statePortVlans : Settable g_statePortVlans. Proof. make_setter authmgrCB_t_eta g_statePortVlans. Defined.
#[global] Instance set_g_processInfo : Settable g_processInfo. Proof. make_setter authmgrCB_t_eta g_processInfo. Defined.
#[global] Instance set_g_oldInfo : Settable g_oldInfo. Proof. make_setter authmgrCB_t_eta g_oldInfo. Defined.
#[global] Instance set_g_attrInfo : Settable g_attrInfo. Proof. make_setter authmgrCB_t_eta g_attrInfo. Defined.
#[global] Instance set_g_timerCB : Settable g_timerCB. Proof. make_setter authmgrCB_t_eta g_timerCB. Defined.
#[global] Instance set_g_env : Settable g_env. Proof. make_setter authmgrCB_t_eta g_env. Defined.
#[global] Instance set_g_trace : Settable g_trace. Proof. make_setter authmgrCB_t_eta g_trace. Defined.

Notation P := (M authmgrCB_t).

Definition call (c : pcall) : P pres := λ s,
  let r := g_env s (g_trace s) c in Ok r (s <| g_trace ::= cons (c, r) |>).
Definition call_ (c : pcall) : P unit := _ ← call c; mret tt.

(** ** Reading and writing memory *)

Definition NULLPTR : Z := 0.

Definition port (intIfNum : Z) : P authmgrPortInfo_t :=
  m ← gets g_portInfo; from_option_or OutOfBounds (m !! intIfNum).
Definition port_upd (intIfNum : Z) (f : authmgrPortInfo_t → authmgrPortInfo_t) : P unit :=
  i ← port intIfNum; modify (set g_portInfo (<[intIfNum := f i]>)).

(** The node a pointer points to *)
Definition node (p : Z) : P authmgrLogicalPortInfo_t :=
  m ← gets g_nodes;
  from_option_or (if p =? NULLPTR then NullDeref else DanglingDeref) (m !! p).
Definition node_upd (p : Z) (f : authmgrLogicalPortInfo_t → authmgrLogicalPortInfo_t) : P unit :=
  n ← node p; modify (set g_nodes (<[p := f n]>)).
Definition client_upd (p : Z) (f : authmgrClientInfo_t → authmgrClientInfo_t) : P unit :=
  node_upd p (set lp_client f).
Definition protocol_upd (p : Z) (f : authmgrProtocolInfo_t → authmgrProtocolInfo_t) : P unit :=
  node_upd p (set lp_protocol f).
(** [authmgrCallbacks[method]] *)
Definition callback (method : Z) : P authmgrMethodCallbackNotifyMap_t :=
  l ← gets g_callbacks;
  from_option_or OutOfBounds (if method <? 0 then None else l !! Z.to_nat method).

(** What [memset] makes of the structures *)
Definition MAC_ADDR_LEN : nat := 6.
Definition zeroMac : list Z := replicate MAC_ADDR_LEN 0.
Definition client_zero : authmgrClientInfo_t :=
  mkClientInfo AUTHMGR_CLIENT_UNASSIGNED false 0 0 0 0 (replicate AUTHMGR_METHOD_LAST 0) AUTHMGR_PORT_STATUS_NA
    (replicate AUTHMGR_USER_NAME_LEN 0) 0 0 (replicate AUTHMGR_SERVER_STATE_LEN 0)
    (replicate AUTHMGR_SERVER_CLASS_LEN 0) 0 0 0 zeroMac AUTHMGR_VLAN_UNASSIGNED false 0 0 false false false
    0 0 0 0 0 0 0 0.
Definition protocol_zero : authmgrProtocolInfo_t :=
  mkProtocolInfo false AUTHMGR_INITIALIZE false false false false false false false false false.
Definition timer_zero : authmgrTimer_t := mkTimer AUTHMGR_TIMER_UNASSIGNED 0 0.
Definition lport_zero : authmgrLogicalPortInfo_t :=
  mkLogicalPortInfo 0 timer_zero timer_zero protocol_zero client_zero.
Definition port_zero : authmgrPortInfo_t :=
  mkPortInfo 0 0 0 0 0 (replicate AUTHMGR_METHOD_LAST 0) (replicate AUTHMGR_METHOD_LAST 0) 0 0
    AUTHMGR_PORT_CONTROL_INVALID AUTHMGR_INVALID_HOST_MODE false false 0 0 false false 0 0 0 0.
Definition stats_zero : authmgrPortStats_t := mkPortStats (mkMethodStats 0 0 0 0) (mkMethodStats 0 0 0 0).
Definition attr_zero : authmgrAuthAttributeInfo_t :=
  mkAttributeInfo (replicate AUTHMGR_USER_NAME_LEN 0) (replicate AUTHMGR_SERVER_CLASS_LEN 0) 0 0 0 0 (replicate 33 0) 0.

(** ** Keys of logical ports ([protocol/include/auth_mgr_util.h]) *)

Definition AUTHMGR_LOGICAL : Z := 2.
Definition AUTHMGR_LOGICAL_PORT_ITERATE : Z := 0xFFFFFFFF.

(** [AUTHMGR_LPORT_KEY_PACK] into a variable that holds [val] *)
Definition AUTHMGR_LPORT_KEY_PACK (x y z val : Z) : Z :=
  Z.lor val (Z.lor (Z.lor (u32 (Z.shiftl x 16)) (u32 (Z.shiftl y 4))) z).
Definition AUTHMGR_PORT_GET (val : Z) : Z := Z.shiftr (Z.land val 0xFFFF0000) 16.
Definition AUTHMGR_LPORT_GET (val : Z) : Z := Z.shiftr (Z.land val 0x0000FFF0) 4.
Definition AUTHMGR_TYPE_GET (val : Z) : Z := Z.land val 0x0000000F.
(** [AUTHMGR_LPORT_KEY_UNPACK] *)
Definition AUTHMGR_LPORT_KEY_UNPACK (val : Z) : Z * Z * Z :=
  (AUTHMGR_PORT_GET val, AUTHMGR_LPORT_GET val, AUTHMGR_TYPE_GET val).

(** [authmgrPhysPortGet] *)
Definition authmgrPhysPortGet (lIntIfNum : Z) : Z := AUTHMGR_PORT_GET lIntIfNum.

#[global] Arguments AUTHMGR_LPORT_KEY_PACK : simpl never.
#[global] Arguments AUTHMGR_PORT_GET : simpl never.
#[global] Arguments AUTHMGR_LPORT_GET : simpl never.
#[global] Arguments AUTHMGR_TYPE_GET : simpl never.

Section database.
Context `{!Headers}.

Definition AUTHMGR_LOGICAL_PORT_START : Z := 0.
Definition AUTHMGR_LOGICAL_PORT_END : Z := Z.of_nat FD_AUTHMGR_PORT_MAX_USERS.
Definition AUTHMGR_INTF_MAX_COUNT : Z := MAX_PORT_COUNT + 1.

(** [authmgrHostIsDynamicNodeAllocCheck]: the flag it stores, and [SUCCESS] *)
Definition authmgrHostIsDynamicNodeAllocCheck (hostMode : AUTHMGR_HOST_CONTROL_t) : RC_t * bool :=
  (SUCCESS, true).

(** ** Interfaces ([mapping/auth_mgr_ih.c], [mapping/auth_mgr_api.c]) *)

(** [authmgrIntfIsConfigurable]: the configuration, if it is *)
Definition authmgrIntfIsConfigurable (intIfNum : Z) : P (option authmgrPortCfg_t) :=
  ready ← gets g_ready;
  if negb ready then mret None
  else if (intIfNum <=? 0) || (intIfNum >=? AUTHMGR_INTF_MAX_COUNT) then mret None
  else
    r ← call (nimConfigIdGet intIfNum);
    if is_SUCCESS (r_rc r) then
      m ← gets g_portCfg;
      pCfg ← from_option_or OutOfBounds (m !! intIfNum);
      mret (if r_num r =? pc_configId pCfg then Some pCfg else None)
    else mret None.

(** [authmgrIsValidIntf]: the answer's flag says whether the type is [PHYSICAL_INTF] *)
Definition authmgrIsValidIntf (intIfNum : Z) : P bool :=
  r ← call (nimGetIntfType intIfNum);
  mret (is_SUCCESS (r_rc r) && r_flag r).

(** ** Logical ports ([protocol/auth_mgr_db.c]) *)

(** [authmgrLogicalPortInfoGet]; the slots are non-null *)
Definition authmgrLogicalPortInfoGet (lIntIfNum : Z) : P Z :=
  if AUTHMGR_TYPE_GET lIntIfNum =? AUTHMGR_LOGICAL then
    t ← gets g_tree; mret (default NULLPTR (t !! lIntIfNum))
  else mret NULLPTR.

(** [avlInsertEntry] of a node whose key is not in the tree: whether it was added *)
Definition avlInsertEntry (newNode : authmgrLogicalPortInfo_t) : P bool :=
  l ← gets g_free;
  match l with
  | [] => mret false
  | p :: l' =>
      modify (set g_free (λ _, l'));;
      modify (set g_nodes (<[p := newNode]>));;
      modify (set g_tree (<[lp_key newNode := p]>));;
      mret true
  end.

(** [avlDeleteEntry]: the data is cleared and its slot is the next free one *)
Definition avlDeleteEntry (keyNum : Z) : P unit :=
  t ← gets g_tree;
  match t !! keyNum with
  | None => mret tt
  | Some p =>
      modify (set g_tree (delete keyNum));;
      modify (set g_nodes (<[p := lport_zero]>));;
      modify (set g_free (cons p))
  end.

(** The loop of [authmgrDynamicLogicalPortInfoAlloc] from a logical port on *)
Fixpoint alloc_loop (fuel : nat) (intIfNum lIntIfNum : Z) : P Z :=
  match fuel with
  | O => mret NULLPTR
  | S f =>
      let key := AUTHMGR_LPORT_KEY_PACK intIfNum lIntIfNum AUTHMGR_LOGICAL 0 in
      tmpNode ← authmgrLogicalPortInfoGet key;
      if tmpNode =? NULLPTR then
        ok ← avlInsertEntry (lport_zero <| lp_key := key |>);
        if (ok : bool) then authmgrLogicalPortInfoGet key else mret NULLPTR
      else alloc_loop f intIfNum (lIntIfNum + 1)
  end.
(** [authmgrDynamicLogicalPortInfoAlloc] *)
Definition authmgrDynamicLogicalPortInfoAlloc (intIfNum : Z) : P Z :=
  alloc_loop (Z.to_nat (AUTHMGR_LOGICAL_PORT_END - AUTHMGR_LOGICAL_PORT_START)) intIfNum AUTHMGR_LOGICAL_PORT_START.

(** [authmgrLogicalPortInfoAlloc] *)
Definition authmgrLogicalPortInfoAlloc (intIfNum : Z) : P Z :=
  i ← port intIfNum;
  if (authmgrHostIsDynamicNodeAllocCheck (pi_hostMode i)).2
  then authmgrDynamicLogicalPortInfoAlloc intIfNum else mret NULLPTR.

(** [authmgrLogicalPortInfoDeAlloc] *)
Definition authmgrLogicalPortInfoDeAlloc (p : Z) : P RC_t :=
  if p =? NULLPTR then mret FAILURE
  else
    n ← node p;
    when (AUTHMGR_TYPE_GET (lp_key n) =? AUTHMGR_LOGICAL) (avlDeleteEntry (lp_key n));;
    mret SUCCESS.

(** The loops that walk to the next logical port of a physical port: the key they
    stop at and the node there *)
Fixpoint next_loop (fuel : nat) (intIfNum lPort : Z) : P (Z * Z) :=
  let key := AUTHMGR_LPORT_KEY_PACK intIfNum lPort AUTHMGR_LOGICAL 0 in
  p ← authmgrLogicalPortInfoGet key;
  if negb (p =? NULLPTR) || negb (lPort <? AUTHMGR_LOGICAL_PORT_END) then mret (key, p)
  else match fuel with O => fail OutOfFuel | S f => next_loop f intIfNum (lPort + 1) end.

(** [authmgrDynamicLogicalPortInfoFirstGet]: [*lIntIfNum] and the node *)
Definition authmgrDynamicLogicalPortInfoFirstGet (intIfNum : Z) : P (Z * Z) :=
  next_loop (Z.to_nat AUTHMGR_LOGICAL_PORT_END) intIfNum AUTHMGR_LOGICAL_PORT_START.
(** [authmgrLogicalPortInfoFirstGet]; without dynamic nodes the pointer would be
    uninitialised *)
Definition authmgrLogicalPortInfoFirstGet (intIfNum : Z) : P (Z * Z) :=
  i ← port intIfNum;
  if (authmgrHostIsDynamicNodeAllocCheck (pi_hostMode i)).2
  then authmgrDynamicLogicalPortInfoFirstGet intIfNum else fail DanglingDeref.

(** [authmgrDynamicLogicalPortInfoGetNextNode] *)
Definition authmgrDynamicLogicalPortInfoGetNextNode (intIfNum lIntIfNum : Z) : P (Z * Z) :=
  if lIntIfNum =? AUTHMGR_LOGICAL_PORT_ITERATE then authmgrLogicalPortInfoFirstGet intIfNum
  else
    let '(physPort, lPort, _) := AUTHMGR_LPORT_KEY_UNPACK lIntIfNum in
    if negb (intIfNum =? physPort) || (lPort >=? AUTHMGR_LOGICAL_PORT_END) then mret (lIntIfNum, NULLPTR)
    else next_loop (Z.to_nat AUTHMGR_LOGICAL_PORT_END) intIfNum (lPort + 1).
(** [authmgrLogicalPortInfoGetNextNode] *)
Definition authmgrLogicalPortInfoGetNextNode (intIfNum lIntIfNum : Z) : P (Z * Z) :=
  i ← port intIfNum;
  if (authmgrHostIsDynamicNodeAllocCheck (pi_hostMode i)).2
  then authmgrDynamicLogicalPortInfoGetNextNode intIfNum lIntIfNum else fail DanglingDeref.

(** [while ((p = authmgrLogicalPortInfoGetNextNode (intIfNum, &i)) != NULLPTR) body]
    with the local variables [x] of the loop; [body] also says whether to go on.  A
    round moves to a larger logical port, and there are [AUTHMGR_LOGICAL_PORT_END + 1]. *)
Fixpoint lport_loop {X} (fuel : nat) (intIfNum lIntIfNum : Z) (body : Z → Z → X → P (X * bool)) (x : X) : P X :=
  match fuel with
  | O => fail OutOfFuel
  | S f =>
      '(i, p) ← authmgrLogicalPortInfoGetNextNode intIfNum lIntIfNum;
      if p =? NULLPTR then mret x
      else '(x', go) ← body i p x; if (go : bool) then lport_loop f intIfNum i body x' else mret x'
  end.
Definition for_each_lport {X} (intIfNum : Z) (body : Z → Z → X → P (X * bool)) (x : X) : P X :=
  lport_loop (Z.to_nat AUTHMGR_LOGICAL_PORT_END + 2) intIfNum AUTHMGR_LOGICAL_PORT_ITERATE body x.
End database.

(** ** Addresses ([protocol/auth_mgr_mac_db.c]) *)

(** [authmgrMacAddrInfoAdd] *)
Definition authmgrMacAddrInfoAdd (mac : list Z) (lIntIfNum : Z) : P RC_t :=
  if (lIntIfNum =? AUTHMGR_LOGICAL_PORT_ITERATE) || bool_decide (mac = zeroMac) then mret FAILURE
  else
    db ← gets g_macDb;
    match db !! mac with
    | Some _ => modify (set g_macDb (<[mac := lIntIfNum]>));; mret SUCCESS
    | None =>
        r ← call bufferPoolAllocate;
        if is_SUCCESS (r_rc r) then modify (set g_macDb (<[mac := lIntIfNum]>));; mret SUCCESS
        else mret FAILURE
    end.
(** [authmgrMacAddrInfoRemove]; [SLLDelete] fails when the address is not there *)
Definition authmgrMacAddrInfoRemove (mac : list Z) : P RC_t :=
  if bool_decide (mac = zeroMac) then mret FAILURE
  else
    db ← gets g_macDb;
    match db !! mac with
    | Some _ => modify (set g_macDb (delete mac));; mret SUCCESS
    | None => mret FAILURE
    end.
(** [authmgrMacAddrInfoFind]: the code and [*lIntIfNum] *)
Definition authmgrMacAddrInfoFind (mac : list Z) (lIntIfNum : Z) : P (RC_t * Z) :=
  if bool_decide (mac = zeroMac) then mret (FAILURE, lIntIfNum)
  else
    db ← gets g_macDb;
    mret (match db !! mac with Some l => (SUCCESS, l) | None => (FAILURE, AUTHMGR_LOGICAL_PORT_ITERATE) end).
