(* ===== verification/PacPort.v ===== *)
(** * The authentication manager: ports, timers and frames

    What the handlers of clients use: the learning mode and the violation policy of
    a port ([protocol/auth_mgr_utils.c]), the VLAN membership of a port
    ([protocol/auth_mgr_vlan.c], [protocol/auth_mgr_vlan_db.c]), the timers of a
    logical port ([protocol/auth_mgr_timer.c]), the EAP frames
    ([protocol/auth_mgr_txrx.c]) and the counters ([mapping/auth_mgr_control.c]). *)

From S2P Require Import Prelude CMem CString PacState.
#[local] Open Scope Z_scope.

(** [x == AUTHMGR_..] *)
Notation "x '==?' y" := (bool_decide (x = y)) (at level 70, no associativity).

(** [memcmp (mac, zeroMac.addr, ENET_MAC_ADDR_LEN) == 0] *)
Definition is_zero_mac (mac : list Z) : bool := bool_decide (mac = zeroMac).

Section ports.
Context `{!Headers}.

(** ** Learning and violation ([protocol/auth_mgr_utils.c]) *)

(** [authmgrNimIntfStateCheck]; the answer's flag says whether the state is
    [INTF_ATTACHED], [INTF_ATTACHING] or [INTF_DETACHING] *)
Definition authmgrNimIntfStateCheck (intIfNum : Z) : P RC_t :=
  cfg ← authmgrIntfIsConfigurable intIfNum;
  match cfg with
  | None => mret FAILURE
  | Some _ => r ← call (nimGetIntfState intIfNum); mret (if r_flag r then SUCCESS else FAILURE)
  end.

(** [authmgrStaticFdbEntryValidCheck], for a [*valid] that is [FALSE] before *)
Definition authmgrStaticFdbEntryValidCheck (intIfNum : Z) : P (RC_t * bool) :=
  cfg ← authmgrIntfIsConfigurable intIfNum;
  match cfg with
  | None => mret (FAILURE, false)
  | Some _ =>
      i ← port intIfNum;
      mret (SUCCESS, match pi_hostMode i with
                     | AUTHMGR_SINGLE_AUTH_MODE | AUTHMGR_MULTI_AUTH_MODE => true
                     | _ => false
                     end)
  end.

(** The checks the functions below begin with, and their end: name and mode *)
Definition learning_checks (intIfNum : Z) (k : P RC_t) : P RC_t :=
  cfg ← authmgrIntfIsConfigurable intIfNum;
  match cfg with
  | None => mret FAILURE
  | Some _ => rc ← authmgrNimIntfStateCheck intIfNum; if is_SUCCESS rc then k else mret FAILURE
  end.
Definition learning_set (intIfNum : Z) (learning : AUTHMGR_PORT_LEARNING_t) : P RC_t :=
  r ← call (nimGetIntfName intIfNum);
  if is_SUCCESS (r_rc r) then
    r' ← call (pacCfgIntfLearningModeSet (r_bytes r) learning);
    mret (if is_SUCCESS (r_rc r') then SUCCESS else FAILURE)
  else mret FAILURE.
(** [learning] with [DISABLE] replaced by [CPU] under [unLearnMacPolicy] *)
Definition learning_of (i : authmgrPortInfo_t) (learning : AUTHMGR_PORT_LEARNING_t) : AUTHMGR_PORT_LEARNING_t :=
  match learning with
  | AUTHMGR_PORT_LEARNING_DISABLE => if pi_unLearnMacPolicy i then AUTHMGR_PORT_LEARNING_CPU else learning
  | _ => learning
  end.

Definition authmgrMultiHostHwLearningModify (intIfNum : Z) : P RC_t :=
  learning_checks intIfNum (
    i ← port intIfNum;
    learning_set intIfNum (learning_of i
      (if negb (pi_authCount i =? 0) then AUTHMGR_PORT_LEARNING_ENABLE else AUTHMGR_PORT_LEARNING_DISABLE))).
Definition authmgrMultAuthHwLearningModify (intIfNum : Z) : P RC_t :=
  learning_checks intIfNum (
    i ← port intIfNum; learning_set intIfNum (learning_of i AUTHMGR_PORT_LEARNING_DISABLE)).
Definition authmgrSingleAuthHwLearningModify (intIfNum : Z) : P RC_t :=
  learning_checks intIfNum (
    i ← port intIfNum; learning_set intIfNum (learning_of i AUTHMGR_PORT_LEARNING_DISABLE)).
Definition authmgrPortForceAuthLearningModify (intIfNum : Z) : P RC_t :=
  learning_checks intIfNum (learning_set intIfNum AUTHMGR_PORT_LEARNING_ENABLE).
Definition authmgrPortForceUnauthLearningModify (intIfNum : Z) : P RC_t :=
  learning_checks intIfNum (learning_set intIfNum AUTHMGR_PORT_LEARNING_DISABLE).

(** [authmgrHostCtrlLearninMapEntryGet]: the function of the host mode *)
Definition authmgrHostCtrlLearninMapEntryGet (intIfNum : Z) : P (option (Z → P RC_t)) :=
  cfg ← authmgrIntfIsConfigurable intIfNum;
  match cfg with
  | None => mret None
  | Some _ =>
      i ← port intIfNum;
      mret (match pi_hostMode i with
            | AUTHMGR_MULTI_HOST_MODE => Some authmgrMultiHostHwLearningModify
            | AUTHMGR_MULTI_AUTH_MODE => Some authmgrMultAuthHwLearningModify
            | AUTHMGR_SINGLE_AUTH_MODE => Some authmgrSingleAuthHwLearningModify
            | AUTHMGR_INVALID_HOST_MODE => None
            end)
  end.
Definition authmgrPortAutoLearningModify (intIfNum : Z) : P RC_t :=
  learning_checks intIfNum (
    entry ← authmgrHostCtrlLearninMapEntryGet intIfNum;
    match entry with None => mret FAILURE | Some learnFn => learnFn intIfNum end).

(** [authmgrPortCtrlLearninMapEntryGet]: the function of the control mode *)
Definition authmgrPortCtrlLearninMapEntryGet (intIfNum : Z) : P (option (Z → P RC_t)) :=
  cfg ← authmgrIntfIsConfigurable intIfNum;
  match cfg with
  | None => mret None
  | Some _ =>
      i ← port intIfNum;
      mret (match pi_portControlMode i with
            | AUTHMGR_PORT_AUTO => Some authmgrPortAutoLearningModify
            | AUTHMGR_PORT_FORCE_UNAUTHORIZED => Some authmgrPortForceUnauthLearningModify
            | AUTHMGR_PORT_FORCE_AUTHORIZED => Some authmgrPortForceAuthLearningModify
            | _ => None
            end)
  end.
Definition authmgrPortLearningModify (intIfNum : Z) : P RC_t :=
  learning_checks intIfNum (
    entry ← authmgrPortCtrlLearninMapEntryGet intIfNum;
    match entry with None => mret FAILURE | Some learnFn => learnFn intIfNum end).

(** [enabledMethods[j]] and the like, read inside the array only *)
Definition method_at (l : list Z) (j : nat) : P Z := from_option_or OutOfBounds (l !! j).

(** The loop of [authmgrHostViolationPolicyValidCheck]: is MAB among the methods
    from [i] on? *)
Fixpoint mab_enabled (n i : nat) (l : list Z) : P bool :=
  match n with
  | O => mret false
  | S n' => m ← method_at l i; if m =? AUTHMGR_METHOD_MAB then mret true else mab_enabled n' (S i) l
  end.
(** [authmgrHostViolationPolicyValidCheck], for a [*valid] that is [FALSE] before *)
Definition authmgrHostViolationPolicyValidCheck (intIfNum : Z) : P (RC_t * bool) :=
  cfg ← authmgrIntfIsConfigurable intIfNum;
  match cfg with
  | None => mret (FAILURE, false)
  | Some _ =>
      i ← port intIfNum;
      match pi_hostMode i with
      | AUTHMGR_MULTI_HOST_MODE =>
          b ← mab_enabled AUTHMGR_METHOD_MAX 0 (pi_enabledMethods i); mret (SUCCESS, b)
      | _ => mret (FAILURE, false)
      end
  end.
(** [authmgrViolationPolicyValidCheck], for a [*valid] that is [FALSE] before *)
Definition authmgrViolationPolicyValidCheck (intIfNum : Z) : P (RC_t * bool) :=
  cfg ← authmgrIntfIsConfigurable intIfNum;
  match cfg with
  | None => mret (FAILURE, false)
  | Some _ =>
      i ← port intIfNum;
      match pi_hostMode i with
      | AUTHMGR_SINGLE_AUTH_MODE | AUTHMGR_MULTI_AUTH_MODE => mret (SUCCESS, true)
      | AUTHMGR_MULTI_HOST_MODE =>
          if pi_authCount i =? 0 then
            '(rc, allowed) ← authmgrHostViolationPolicyValidCheck intIfNum;
            mret (if is_SUCCESS rc then (SUCCESS, allowed) else (FAILURE, false))
          else mret (SUCCESS, false)
      | AUTHMGR_INVALID_HOST_MODE => mret (FAILURE, false)
      end
  end.

(** [authmgrIhPhyPortViolationCallbackSet] ([mapping/auth_mgr_ih.c]) *)
Definition authmgrIhPhyPortViolationCallbackSet (intIfNum : Z) (flag : AUTHMGR_PORT_VIOLATION_CALLBACK_t) : P RC_t :=
  port_upd intIfNum (set pi_unLearnMacPolicy
    (λ _, match flag with AUTHMGR_PORT_VIOLATION_CALLBACK_ENABLE => true | _ => false end));;
  mret SUCCESS.
Definition violation_install (intIfNum : Z) (apply : bool) : P RC_t :=
  call_ (pacCreateDeleteSocket intIfNum apply);;
  authmgrIhPhyPortViolationCallbackSet intIfNum
    (if apply then AUTHMGR_PORT_VIOLATION_CALLBACK_ENABLE else AUTHMGR_PORT_VIOLATION_CALLBACK_DISABLE).
Definition authmgrViolationPolicyApply (intIfNum : Z) : P RC_t :=
  learning_checks intIfNum (
    i ← port intIfNum;
    if pi_portControlMode i ==? AUTHMGR_PORT_AUTO then
      '(rc, apply) ← authmgrViolationPolicyValidCheck intIfNum;
      if is_SUCCESS rc then violation_install intIfNum apply else mret FAILURE
    else violation_install intIfNum false).

(** [authmgrIhPhysicalPortStatusSet] ([mapping/auth_mgr_client.c]); the status it
    computes from the host mode is not used *)
Definition authmgrIhPhysicalPortStatusSet (intIfNum : Z) (portStatus : AUTHMGR_PORT_STATUS_t) : P RC_t :=
  cfg ← authmgrIntfIsConfigurable intIfNum;
  match cfg with
  | None => mret FAILURE
  | Some _ =>
      call_ (nimGetIntfState intIfNum);;
      r ← call (nimGetIntfName intIfNum);
      if negb (is_SUCCESS (r_rc r)) then mret FAILURE
      else
        rc ← authmgrViolationPolicyApply intIfNum;
        if negb (is_SUCCESS rc) then mret FAILURE
        else
          rc ← authmgrPortLearningModify intIfNum;
          mret (if is_SUCCESS rc then SUCCESS else FAILURE)
  end.

(** ** VLAN membership ([protocol/auth_mgr_vlan.c]) *)

(** [authmgrPortPvidSet] *)
Definition authmgrPortPvidSet (intIfNum pvid : Z) : P RC_t :=
  i ← port intIfNum;
  when (negb (u16 (pi_pvid i) =? u16 pvid)) (port_upd intIfNum (set pi_pvid (λ _, u16 pvid)));;
  mret SUCCESS.

(** [authmgrVlanParticipationSet] *)
Definition authmgrVlanParticipationSet (physPort vlanId : Z) : P RC_t :=
  r ← call (nimGetIntfName physPort);
  if is_SUCCESS (r_rc r) then
    i ← port physPort;
    when (pi_hostMode i ==? AUTHMGR_MULTI_HOST_MODE) (call_ (pacCfgVlanMemberRemove 1 (r_bytes r)));;
    r' ← call (pacCfgVlanMemberAdd vlanId (r_bytes r));
    when (is_SUCCESS (r_rc r')) (port_upd physPort (set pi_authVlan (λ _, vlanId)));;
    mret (r_rc r')
  else mret FAILURE.
(** [authmgrVlanParticipationReset] *)
Definition authmgrVlanParticipationReset (physPort vlanId : Z) : P RC_t :=
  r ← call (nimGetIntfName physPort);
  if is_SUCCESS (r_rc r) then
    r' ← call (pacCfgVlanMemberRemove vlanId (r_bytes r));
    port_upd physPort (set pi_authVlan (λ _, 0));;
    mret (r_rc r')
  else mret SUCCESS.

(** [authmgrVlanPortDeletionValidate] *)
Definition authmgrVlanPortDeletionValidate (physPort vlanId : Z) : P RC_t :=
  i ← port physPort;
  if pi_portControlMode i ==? AUTHMGR_PORT_AUTO then
    found ← for_each_lport physPort (λ _ p found,
      n ← node p;
      if lp_key n =? 0 then mret (found, false)
      else if vlanId =? cl_vlanId (lp_client n) then mret (true, false)
      else mret (found, true)) false;
    mret (if (found : bool) then FAILURE else SUCCESS)
  else mret SUCCESS.

(** [authmgrVlanPortParticipationValidate]; the loop keeps [cnt] and [valid] *)
Definition authmgrVlanPortParticipationValidate (physPort vlanId : Z) : P RC_t :=
  i ← port physPort;
  if pi_portControlMode i ==? AUTHMGR_PORT_AUTO then
    '(_, valid) ← for_each_lport physPort (λ _ p x,
      let '(cnt, valid) := x in
      n ← node p;
      if lp_key n =? 0 then mret (x, false)
      else if cl_logicalPortStatus (lp_client n) ==? AUTHMGR_PORT_STATUS_AUTHORIZED then
        let cnt := u32 (cnt + 1) in
        mret ((cnt, if pr_reauth (lp_protocol n) then cnt =? 1 else valid), true)
      else mret (x, true)) (0, false);
    if (valid : bool) then mret SUCCESS
    else
      i ← port physPort;
      mret (if negb (pi_authVlan i =? 0) && negb (vlanId =? pi_authVlan i) then FAILURE else SUCCESS)
  else mret SUCCESS.

(** [authmgrClientVlanInfoSet] *)
Definition authmgrClientVlanInfoSet (p vlanId : Z) : P RC_t :=
  if p =? NULLPTR then mret FAILURE
  else
    n ← node p;
    let physPort := AUTHMGR_PORT_GET (lp_key n) in
    rc ← authmgrVlanParticipationSet physPort vlanId;
    match rc with
    | SUCCESS | ALREADY_CONFIGURED =>
        i ← port physPort;
        rc ← (if pi_hostMode i ==? AUTHMGR_MULTI_HOST_MODE then
                r ← call (nimGetIntfName physPort);
                if is_SUCCESS (r_rc r) then authmgrPortPvidSet physPort vlanId else mret rc
              else mret rc);
        mret (match rc with ALREADY_CONFIGURED => SUCCESS | _ => rc end)
    | _ => mret FAILURE
    end.
(** [authmgrClientVlanInfoReset] *)
Definition authmgrClientVlanInfoReset (physPort vlanId : Z) : P RC_t :=
  rc ← authmgrVlanParticipationReset physPort vlanId;
  if negb (is_SUCCESS rc) then mret FAILURE
  else
    i ← port physPort;
    when (pi_hostMode i ==? AUTHMGR_MULTI_HOST_MODE) (
      r ← call (nimGetIntfName physPort);
      when (is_SUCCESS (r_rc r)) (_ ← authmgrPortPvidSet physPort 1; mret tt));;
    mret SUCCESS.

(** ** VLANs of the configuration ([protocol/auth_mgr_vlan_db.c]) *)

Definition DOT1Q_MIN_VLAN_ID : Z := 1.
Definition DOT1Q_MAX_VLAN_ID : Z := 4094.

(** [authmgrVlanCheckStatic] *)
Definition authmgrVlanCheckStatic (vlan : Z) : P RC_t :=
  if (vlan <? DOT1Q_MIN_VLAN_ID) || (vlan >? DOT1Q_MAX_VLAN_ID) then mret FAILURE
  else m ← gets g_vlanMask; mret (if bool_decide (vlan ∈ m) then SUCCESS else NOT_EXIST).
(** The loop of [authmgrPortDefaultVlanGet]: the first untagged VLAN from [i] on,
    or [DOT1Q_MAX_VLAN_ID] *)
Fixpoint untagged_from (n : nat) (i : Z) (vlanMask tagging : gset Z) : Z :=
  match n with
  | O => i
  | S n' =>
      if bool_decide (i ∈ vlanMask) && negb (bool_decide (i ∈ tagging)) then i
      else untagged_from n' (i + 1) vlanMask tagging
  end.
(** [authmgrPortDefaultVlanGet]: the code and [*vlan] *)
Definition authmgrPortDefaultVlanGet (intIfNum : Z) : P (RC_t * Z) :=
  m ← gets g_portVlans;
  '(vlanMask, tagging) ← from_option_or OutOfBounds (m !! intIfNum);
  let i := untagged_from (Z.to_nat (DOT1Q_MAX_VLAN_ID - 1)) 1 vlanMask tagging in
  if i =? DOT1Q_MAX_VLAN_ID then mret (FAILURE, 0)
  else
    rc ← authmgrVlanCheckStatic i;
    mret (if is_SUCCESS rc then (SUCCESS, i) else (FAILURE, 0)).

(** ** Timers ([protocol/auth_mgr_timer.c], [mapping/auth_mgr_control.c]) *)

Definition authmgrQuietPeriodGet (intIfNum : Z) : P Z := i ← port intIfNum; mret (pi_quietPeriod i).
Definition authmgrReAuthPeriodGet (intIfNum : Z) : P Z := i ← port intIfNum; mret (pi_reAuthPeriod i).
(** [authmgrLogicalPortReAuthPeriodGet]: [*val], which is [val] before; without
    reauthentication it is first cleared, and then set all the same *)
Definition authmgrLogicalPortReAuthPeriodGet (lIntfNum val : Z) : P Z :=
  p ← authmgrLogicalPortInfoGet lIntfNum;
  if p =? NULLPTR then mret val
  else
    let physPort := AUTHMGR_PORT_GET lIntfNum in
    i ← port physPort;
    if pi_reAuthPeriodServer i then n ← node p; mret (cl_sessionTimeout (lp_client n))
    else authmgrReAuthPeriodGet physPort.

(** [authmgrTimerMap_t] *)
Inductive timer_expiryFn : Type := authmgrQwhileExpiry | authmgrReAuthWhenExpiry.
Record authmgrTimerMap_t : Type := mkTimerMap {
  te_expiryFn : timer_expiryFn; te_serverConfigSupport : bool;
  te_getFn : Z → P Z; te_lportGetFn : option (Z → Z → P Z) }.
(** [authmgrTimerHandlerInfoGet] *)
Definition authmgrTimerHandlerInfoGet (type : authmgrTimerType_t) : option authmgrTimerMap_t :=
  match type with
  | AUTHMGR_QWHILE => Some (mkTimerMap authmgrQwhileExpiry false authmgrQuietPeriodGet None)
  | AUTHMGR_REAUTH_WHEN =>
      Some (mkTimerMap authmgrReAuthWhenExpiry true authmgrReAuthPeriodGet (Some authmgrLogicalPortReAuthPeriodGet))
  | _ => None
  end.

(** [authmgrTimerDestroy]; [authmgrGetTimer] finds [authmgrTimer] for every type *)
Definition authmgrTimerDestroy (p : Z) (type : authmgrTimerType_t) : P RC_t :=
  if p =? NULLPTR then mret FAILURE
  else
    n ← node p;
    when (negb (tm_handle (lp_timer n) =? 0) && (type ==? tm_type (lp_timer n))) (
      call_ (appTimerDelete (tm_handle (lp_timer n)));;
      node_upd p (set lp_timer (λ _, timer_zero)));;
    mret SUCCESS.
(** [authmgrTimerStart] *)
Definition authmgrTimerStart (p : Z) (type : authmgrTimerType_t) : P RC_t :=
  if p =? NULLPTR then mret FAILURE
  else
    n ← node p;
    if negb (tm_handle (lp_timer n) =? 0) then mret SUCCESS
    else match authmgrTimerHandlerInfoGet type with
    | None => mret FAILURE
    | Some entry =>
        val ← (if te_serverConfigSupport entry
               then match te_lportGetFn entry with Some f => f (lp_key n) 0 | None => mret 0 end
               else te_getFn entry (AUTHMGR_PORT_GET (lp_key n)));
        node_upd p (set lp_timer (λ t, t <| tm_type := type |> <| tm_keyNum := lp_key n |>));;
        if val =? 0 then mret SUCCESS
        else
          r ← call (appTimerAdd type (lp_key n) val);
          node_upd p (set lp_timer (set tm_handle (λ _, r_num r)));;
          mret (if r_num r =? 0 then FAILURE else SUCCESS)
    end.

(** ** EAP frames ([protocol/auth_mgr_txrx.c]) *)

Definition EAP_SUCCESS : Z := 3.
Definition EAP_FAILURE : Z := 4.
Definition EAPOL_PDU_MAC_ADDR : list Z := [0x01; 0x80; 0xC2; 0x00; 0x00; 0x03].
(** The frame the functions build: the Ethernet header, the type [ETYPE_EAPOL], the
    EAPOL header and the EAP packet *)
Definition canned_frame (baseMac : list Z) (code id : Z) : list Z :=
  EAPOL_PDU_MAC_ADDR ++ baseMac ++ [0x88; 0x8E] ++ [2; 0; 0; 4] ++ [code; u8 id; 0; 4].

(** [authmgrFrameTransmit] *)
Definition authmgrFrameTransmit (lIntIfNum : Z) (data : list Z) (portType : authmgrPortType_t) : P unit :=
  match portType with
  | AUTHMGR_LOGICAL_PORT =>
      p ← authmgrLogicalPortInfoGet lIntIfNum;
      if p =? NULLPTR then mret tt
      else
        n ← node p;
        if lp_key n =? 0 then mret tt
        else
          let mac := cl_suppMacAddr (lp_client n) in
          let data := if is_zero_mac mac then data else mac ++ drop MAC_ADDR_LEN data in
          call_ (eap_sendto (authmgrPhysPortGet lIntIfNum) data)
  | AUTHMGR_PHYSICAL_PORT => mret tt
  end.
(** [authmgrTxCannedSuccess] and [authmgrTxCannedFail] differ in the code; without a
    logical port the identifier is what the buffer held, but nothing is sent *)
Definition tx_canned (code lIntIfNum : Z) (portType : authmgrPortType_t) : P unit :=
  let intIfNum := match portType with
                  | AUTHMGR_LOGICAL_PORT => authmgrPhysPortGet lIntIfNum
                  | AUTHMGR_PHYSICAL_PORT => lIntIfNum
                  end in
  r ← call mbufGet;
  if r_num r =? 0 then mret tt
  else
    r' ← call (nimGetIntfAddress intIfNum);
    if negb (is_SUCCESS (r_rc r')) then mret tt
    else
      id ← match portType with
           | AUTHMGR_PHYSICAL_PORT => i ← port intIfNum; mret (pi_currentId i)
           | AUTHMGR_LOGICAL_PORT =>
               p ← authmgrLogicalPortInfoGet lIntIfNum;
               if p =? NULLPTR then mret 0 else n ← node p; mret (cl_currentIdL (lp_client n))
           end;
      authmgrFrameTransmit lIntIfNum (canned_frame (r_bytes r') code id) portType.
Definition authmgrTxCannedSuccess : Z → authmgrPortType_t → P unit := tx_canned EAP_SUCCESS.
Definition authmgrTxCannedFail : Z → authmgrPortType_t → P unit := tx_canned EAP_FAILURE.

(** ** Counters ([mapping/auth_mgr_control.c]) *)

(** The counter of a result *)
Definition stats_count (status : authmgrStatsUpdate_t) (s : authmgrMethodCommonStats_t) : authmgrMethodCommonStats_t :=
  match status with
  | authmgrStatsAuthEnter => s <| ms_authEntersAuthenticating ::= λ n, u32 (n + 1) |>
  | authmgrStatsAuthSuccess => s <| ms_authSuccess ::= λ n, u32 (n + 1) |>
  | authmgrStatsAuthFail => s <| ms_authFailure ::= λ n, u32 (n + 1) |>
  | authmgrStatsAuthTimeout => s <| ms_authTimeout ::= λ n, u32 (n + 1) |>
  end.
Definition stats_upd (intIfNum : Z) (f : authmgrPortStats_t → authmgrPortStats_t) : P RC_t :=
  b ← authmgrIsValidIntf intIfNum;
  if negb b then mret FAILURE
  else
    m ← gets g_portStats;
    s ← from_option_or OutOfBounds (m !! intIfNum);
    modify (set g_portStats (<[intIfNum := f s]>));;
    mret SUCCESS.
Definition authmgrDot1xStatsUpdate (intIfNum : Z) (status : authmgrStatsUpdate_t) : P RC_t :=
  stats_upd intIfNum (set ps_dot1x (stats_count status)).
Definition authmgrMabStatsUpdate (intIfNum : Z) (status : authmgrStatsUpdate_t) : P RC_t :=
  stats_upd intIfNum (set ps_mab (stats_count status)).
(** [authmgrStatsUpdate], with the table of [authmgrAuthStatsMapEntryGet] *)
Definition authmgrStatsUpdate (intIfNum method : Z) (status : authmgrStatsUpdate_t) : P RC_t :=
  b ← authmgrIsValidIntf intIfNum;
  if negb b then mret FAILURE
  else if method =? AUTHMGR_METHOD_8021X then authmgrDot1xStatsUpdate intIfNum status
  else if method =? AUTHMGR_METHOD_MAB then authmgrMabStatsUpdate intIfNum status
  else mret FAILURE.
End ports.
