(* ===== verification/PacClient.v ===== *)
(** * The authentication manager: clients ([mapping/auth_mgr_client.c])

    Admission of a client to its port and its removal: the entries in the driver,
    the VLAN of the port, the status of the logical port with the count of
    authorized clients of the physical port, and the clean-up of a client's data. *)

From S2P Require Import Prelude CMem CString PacState PacPort.
#[local] Open Scope Z_scope.

Section clients.
Context `{!Headers}.

(** ** Entries in the driver *)

(** [authmgrAuthenticatedClientAdd]: the failures it meets are kept in [rc1], which
    is not what it returns *)
Definition authmgrAuthenticatedClientAdd (physPort : Z) (macAddr : list Z) (vlanId blockVlanId : Z) : P RC_t :=
  r ← call (nimGetIntfName physPort);
  if negb (is_SUCCESS (r_rc r)) then mret SUCCESS
  else
    r' ← call (pacCfgIntfClientAdd (r_bytes r) macAddr vlanId);
    if negb (r_flag r') then mret SUCCESS
    else
      when (negb (blockVlanId =? 0) && negb (blockVlanId =? vlanId))
        (call_ (pacCfgIntfClientUnblock (r_bytes r) macAddr blockVlanId));;
      mret SUCCESS.

(** [authmgrAuthenticatedClientDelete] *)
Definition authmgrAuthenticatedClientDelete (physPort : Z) (macAddr : list Z) (vlanId : Z) : P RC_t :=
  r ← call (nimGetIntfName physPort);
  if negb (is_SUCCESS (r_rc r)) then mret FAILURE
  else
    r' ← call (pacCfgIntfClientRemove (r_bytes r) macAddr vlanId);
    mret (if r_flag r' then SUCCESS else FAILURE).

(** [attrCreateMask & (1 << AUTHMGR_HW_ATTR_STATIC_FDB)] *)
Definition has_static_fdb (c : authmgrClientInfo_t) : bool :=
  Z.testbit (cl_attrCreateMask c) AUTHMGR_HW_ATTR_STATIC_FDB.
Definition clear_static_fdb (c : authmgrClientInfo_t) : authmgrClientInfo_t :=
  c <| cl_attrCreateMask ::= λ m, Z.ldiff m (Z.shiftl 1 AUTHMGR_HW_ATTR_STATIC_FDB) |>.

(** The removal of the entry of the client in [authmgrClientHwInfoCleanup] *)
Definition static_fdb_remove (p physPort : Z) : P RC_t :=
  n ← node p;
  if has_static_fdb (lp_client n) then
    rc ← authmgrAuthenticatedClientDelete physPort (cl_suppMacAddr (lp_client n)) (u16 (cl_vlanId (lp_client n)));
    client_upd p clear_static_fdb;;
    mret rc
  else mret SUCCESS.

(** The end of [authmgrClientHwInfoCleanup]: the VLAN of the client is taken from
    the port unless another client uses it *)
Definition client_vlan_leave (p physPort : Z) : P RC_t :=
  n ← node p;
  let vlanType := cl_vlanType (lp_client n) in
  let vlanId := cl_vlanId (lp_client n) in
  client_upd p (λ c, c <| cl_vlanId := 0 |> <| cl_vlanType := AUTHMGR_VLAN_UNASSIGNED |>);;
  rc ← authmgrVlanPortDeletionValidate physPort vlanId;
  if negb (is_SUCCESS rc) then mret SUCCESS
  else
    rc ← authmgrClientVlanInfoReset physPort vlanId;
    when (negb (is_SUCCESS rc))
      (client_upd p (λ c, c <| cl_vlanType := vlanType |> <| cl_vlanId := vlanId |>));;
    mret rc.

(** [authmgrClientHwInfoCleanup] *)
Definition authmgrClientHwInfoCleanup (p : Z) : P RC_t :=
  if p =? NULLPTR then mret FAILURE
  else
    n ← node p;
    let physPort := AUTHMGR_PORT_GET (lp_key n) in
    cfg ← authmgrIntfIsConfigurable physPort;
    match cfg with
    | None => mret SUCCESS
    | Some _ =>
        i ← port physPort;
        if negb (pi_portControlMode i ==? AUTHMGR_PORT_AUTO) then mret SUCCESS
        else
          '(rc, valid) ← authmgrStaticFdbEntryValidCheck physPort;
          rc ← (if is_SUCCESS rc && valid then static_fdb_remove p physPort else mret SUCCESS);
          if negb (is_SUCCESS rc) then mret FAILURE else client_vlan_leave p physPort
    end.

(** [authmgrBlockFdbCleanup] *)
Definition authmgrBlockFdbCleanup (p : Z) : P RC_t :=
  if p =? NULLPTR then mret FAILURE
  else
    n ← node p;
    let c := lp_client n in
    if negb (is_zero_mac (cl_suppMacAddr c)) && negb (cl_blockVlanId c =? 0) then
      r ← call (nimGetIntfName (AUTHMGR_PORT_GET (lp_key n)));
      if negb (is_SUCCESS (r_rc r)) then mret FAILURE
      else
        r' ← call (pacCfgIntfClientUnblock (r_bytes r) (cl_suppMacAddr c) (cl_blockVlanId c));
        mret (if r_flag r' then SUCCESS else FAILURE)
    else mret SUCCESS.
(** [authmgrStaticFdbCleanup] *)
Definition authmgrStaticFdbCleanup (p : Z) : P RC_t :=
  if p =? NULLPTR then mret FAILURE
  else
    n ← node p;
    info ← gets g_processInfo;
    rc ← (if has_static_fdb (lp_client n)
          then authmgrAuthenticatedClientDelete (AUTHMGR_PORT_GET (lp_key n)) (cl_suppMacAddr (lp_client n))
                 (u16 (cl_vlanId info))
          else mret SUCCESS);
    client_upd p clear_static_fdb;;
    mret rc.
(** [authmgrHwCleanupEventFnMapGet]: the function of an attribute; the null one and
    the missing one are [None] *)
Definition authmgrHwCleanupEventFnMapGet (event : Z) : option (Z → P RC_t) :=
  if event =? AUTHMGR_HW_ATTR_STATIC_FDB then Some authmgrStaticFdbCleanup
  else if event =? AUTHMGR_HW_ATTR_BLOCK_FDB then Some authmgrBlockFdbCleanup
  else None.
(** [authmgrClientHwAddFailPostHwCleanup] *)
Definition authmgrClientHwAddFailPostHwCleanup (p mask : Z) : P RC_t :=
  if p =? NULLPTR then mret FAILURE
  else
    mforeach (seqZ 0 AUTHMGR_HW_ATTR_LAST) (λ i,
      when (Z.testbit mask i)
        match authmgrHwCleanupEventFnMapGet i with
        | Some cleanupFn => _ ← cleanupFn p; mret tt
        | None => mret tt
        end);;
    mret SUCCESS.

(** The part of [authmgrClientHwInfoAdd] before the VLAN: [inl] of what it returns,
    or [inr] of the mask *)
Definition client_entry_add (p physPort : Z) (ifName macAddr : list Z) (valid : bool) (vlanId blockVlanId : Z) :
    P (RC_t + Z) :=
  n ← node p;
  if valid then
    rc ← (if has_static_fdb (lp_client n) then mret SUCCESS
          else authmgrAuthenticatedClientAdd physPort macAddr vlanId blockVlanId);
    if negb (is_SUCCESS rc) then _ ← authmgrClientHwAddFailPostHwCleanup p 0; mret (inl FAILURE)
    else
      client_upd p (set cl_attrCreateMask (λ m, Z.lor m (Z.shiftl 1 AUTHMGR_HW_ATTR_STATIC_FDB)));;
      mret (inr (Z.shiftl 1 AUTHMGR_HW_ATTR_STATIC_FDB))
  else if cl_dataBlocked (lp_client n) && negb (cl_blockVlanId (lp_client n) =? 0) then
    r ← call (pacCfgIntfClientUnblock ifName (cl_suppMacAddr (lp_client n)) (cl_blockVlanId (lp_client n)));
    if negb (r_flag r) then mret (inl FAILURE)
    else client_upd p (set cl_dataBlocked (λ _, false));; mret (inr 0)
  else mret (inr 0).

(** [authmgrClientHwInfoAdd] *)
Definition authmgrClientHwInfoAdd (p : Z) (macAddr : list Z) (vlanId blockVlanId : Z) : P RC_t :=
  if p =? NULLPTR then mret FAILURE
  else
    n ← node p;
    let physPort := AUTHMGR_PORT_GET (lp_key n) in
    r ← call (nimGetIntfName physPort);
    if negb (is_SUCCESS (r_rc r)) then mret FAILURE
    else
      cfg ← authmgrIntfIsConfigurable physPort;
      match cfg with
      | None => mret SUCCESS
      | Some _ =>
          i ← port physPort;
          if negb (pi_portControlMode i ==? AUTHMGR_PORT_AUTO) then mret SUCCESS
          else
            '(rc, valid) ← authmgrStaticFdbEntryValidCheck physPort;
            if negb (is_SUCCESS rc) then mret FAILURE
            else
              res ← client_entry_add p physPort (r_bytes r) macAddr valid vlanId blockVlanId;
              match res with
              | inl rc => mret rc
              | inr mask =>
                  rc ← authmgrClientVlanInfoSet p vlanId;
                  if is_SUCCESS rc then mret SUCCESS
                  else
                    info ← gets g_processInfo;
                    when (cl_vlanId info =? 0) (modify (set g_processInfo (set cl_vlanId (λ _, vlanId))));;
                    _ ← authmgrClientHwAddFailPostHwCleanup p mask;
                    mret FAILURE
              end
      end.

(** ** The status of a client *)

(** [osapiStrncpySafe] of a string in an array *)
Definition terminated (l : list Z) : P (list Z) :=
  if bool_decide (0 ∈ l) then mret (cstr l) else fail OutOfBounds.
(** [memcpy] of the first [len] bytes of an array *)
Definition first_bytes (len : Z) (l : list Z) : P (list Z) :=
  if len <=? Z.of_nat (length l) then mret (take (Z.to_nat len) l) else fail OutOfBounds.

(** [authmgrClientInfoPopulate] *)
Definition authmgrClientInfoPopulate (p : Z) : P pac_authenticated_clients_oper_table_t :=
  n ← node p;
  let c := lp_client n in
  serverState ← first_bytes (cl_serverStateLen c) (cl_serverState c);
  serverClass ← first_bytes (cl_serverClassLen c) (cl_serverClass c);
  i ← port (AUTHMGR_PORT_GET (lp_key n));
  userName ← terminated (cl_authmgrUserName c);
  mret (mkOperClient (cl_currentIdL c) (cl_logicalPortStatus c) (cl_authenticatedMethod c)
    serverState (cl_serverStateLen c) serverClass (cl_serverClassLen c) (cl_sessionTimeout c)
    (if pi_reAuthPeriodServer i then cl_sessionTimeout c
     else if pi_reAuthEnabled i then pi_reAuthPeriod i else 0)
    userName (cl_authmgrUserNameLength c) (cl_terminationAction c) (cl_vlanType c) (cl_vlanId c)
    (cl_sessionTime c) (cl_lastAuthTime c) (cl_authMethod c)).

(** The publication of a client: [PacAuthClientOperTblSet] and [PacGlobalOperTblSet] *)
Definition client_publish (p : Z) : P unit :=
  info ← authmgrClientInfoPopulate p;
  n ← node p;
  call_ (PacAuthClientOperTblSet (AUTHMGR_PORT_GET (lp_key n)) (cl_suppMacAddr (lp_client n)) info);;
  call_ PacGlobalOperTblSet.

(** [authmgrCtlResetLogicalPortSessionData] *)
Definition authmgrCtlResetLogicalPortSessionData (p : Z) : P unit :=
  client_upd p (λ c, if negb (cl_sessionTimeout c =? 0) then c <| cl_lastAuthTime := cl_sessionTime c |> else c).

(** [authmgrClientStatusSet] to the status the client has *)
Definition status_same (p : Z) (portStatus : AUTHMGR_PORT_STATUS_t) : P RC_t :=
  n ← node p;
  when ((portStatus ==? AUTHMGR_PORT_STATUS_AUTHORIZED) && pr_reauth (lp_protocol n)
        && negb (cl_sessionTimeout (lp_client n) =? 0)) (
    r ← call simSystemUpTimeGet;
    client_upd p (set cl_lastAuthTime (λ _, r_num r)));;
  client_publish p;;
  mret SUCCESS.

(** Its effect on the count of authorized clients and on the published tables *)
Definition status_count (p physPort : Z) (portStatus currentStatus : AUTHMGR_PORT_STATUS_t) : P unit :=
  match portStatus with
  | AUTHMGR_PORT_STATUS_AUTHORIZED =>
      port_upd physPort (set pi_authCount (λ c, u32 (c + 1)));;
      i ← port physPort;
      when (negb (pi_portControlMode i ==? AUTHMGR_PORT_FORCE_AUTHORIZED)) (
        authmgrCtlResetLogicalPortSessionData p;;
        client_publish p)
  | _ =>
      i ← port physPort;
      when (pi_authCount i >? 0) (
        when (currentStatus ==? AUTHMGR_PORT_STATUS_AUTHORIZED)
          (port_upd physPort (set pi_authCount (λ c, c - 1)));;
        when (negb (pi_portControlMode i ==? AUTHMGR_PORT_FORCE_UNAUTHORIZED)) (
          n ← node p;
          call_ (PacAuthClientOperTblDel physPort (cl_suppMacAddr (lp_client n)));;
          call_ PacGlobalOperTblSet))
  end.

(** [authmgrClientStatusSet] *)
Definition authmgrClientStatusSet (p : Z) (portStatus : AUTHMGR_PORT_STATUS_t) : P RC_t :=
  if p =? NULLPTR then mret FAILURE
  else
    n ← node p;
    let physPort := AUTHMGR_PORT_GET (lp_key n) in
    if portStatus ==? AUTHMGR_PORT_STATUS_NA then mret FAILURE
    else if portStatus ==? cl_logicalPortStatus (lp_client n) then status_same p portStatus
    else
      i ← port physPort;
      match pi_portControlMode i, portStatus with
      | AUTHMGR_PORT_FORCE_UNAUTHORIZED, AUTHMGR_PORT_STATUS_AUTHORIZED
      | AUTHMGR_PORT_FORCE_AUTHORIZED, AUTHMGR_PORT_STATUS_UNAUTHORIZED => mret FAILURE
      | _, _ =>
          client_upd p (set cl_logicalPortStatus (λ _, portStatus));;
          status_count p physPort portStatus (cl_logicalPortStatus (lp_client n));;
          i ← port physPort;
          when (((pi_authCount i =? 0) && (portStatus ==? AUTHMGR_PORT_STATUS_UNAUTHORIZED))
                || ((pi_authCount i =? 1) && (portStatus ==? AUTHMGR_PORT_STATUS_AUTHORIZED)))
            (_ ← authmgrIhPhysicalPortStatusSet physPort portStatus; mret tt);;
          mret SUCCESS
      end.

(** ** The removal of a client *)

(** [authmgrCallbacks[method].eventNotifyFn (..)] when there is such a function *)
Definition notify (method physPort : Z) (event : authmgrNotifyEvent_t) (mac : list Z) (rc : RC_t) : P RC_t :=
  cb ← callback method;
  if mc_eventNotifyFn cb then r ← call (eventNotifyFn method physPort event mac); mret (r_rc r) else mret rc.

(** The frame that ends the session of a client *)
Definition eap_goodbye (p : Z) : P unit :=
  n ← node p;
  if pr_eapSuccess (lp_protocol n) then
    protocol_upd p (set pr_eapSuccess (λ _, false));;
    authmgrTxCannedSuccess (lp_key n) AUTHMGR_LOGICAL_PORT
  else authmgrTxCannedFail (lp_key n) AUTHMGR_LOGICAL_PORT.

(** One user less on the port *)
Definition user_leaves (physPort : Z) : P unit :=
  i ← port physPort;
  when (pi_numUsers i >? 0) (port_upd physPort (set pi_numUsers (λ n, n - 1)));;
  i ← port physPort;
  when (pi_numUsers i =? 0)
    (_ ← authmgrIhPhysicalPortStatusSet physPort AUTHMGR_PORT_STATUS_UNAUTHORIZED; mret tt).

(** [authmgrClientSwInfoCleanup] *)
Definition authmgrClientSwInfoCleanup (p : Z) : P RC_t :=
  if p =? NULLPTR then mret FAILURE
  else
    n ← node p;
    let physPort := AUTHMGR_PORT_GET (lp_key n) in
    cfg ← authmgrIntfIsConfigurable physPort;
    match cfg with
    | None => mret SUCCESS
    | Some _ =>
        rc ← (if negb (tm_handle (lp_noRespTimer n) =? 0)
              then authmgrTimerDestroy p AUTHMGR_METHOD_NO_RESP_TMR else mret SUCCESS);
        n ← node p;
        rc ← (if negb (tm_handle (lp_timer n) =? 0)
              then authmgrTimerDestroy p (tm_type (lp_timer n)) else mret rc);
        n ← node p;
        let c := lp_client n in
        rc ← notify (if cl_logicalPortStatus c ==? AUTHMGR_PORT_STATUS_AUTHORIZED
                     then cl_authenticatedMethod c else cl_currentMethod c)
               physPort authmgrClientDisconnect (cl_suppMacAddr c) rc;
        rc1 ← authmgrClientStatusSet p AUTHMGR_PORT_STATUS_UNAUTHORIZED;
        eap_goodbye p;;
        n ← node p;
        let mac := cl_suppMacAddr (lp_client n) in
        rc2 ← (if is_zero_mac mac then mret SUCCESS else authmgrMacAddrInfoRemove mac);
        user_leaves physPort;;
        rc3 ← authmgrLogicalPortInfoDeAlloc p;
        mret (if is_SUCCESS rc && is_SUCCESS rc1 && is_SUCCESS rc2 && is_SUCCESS rc3
              then SUCCESS else FAILURE)
    end.

(** The unblocking of a client that is not authorized, in [authmgrClientInfoCleanup];
    the branch without dynamic nodes only clears the flag *)
Definition client_unblock (p physPort : Z) (ifName : list Z) : P unit :=
  n ← node p;
  let c := lp_client n in
  i ← port physPort;
  when (negb (is_zero_mac (cl_suppMacAddr c)) && negb (cl_blockVlanId c =? 0)) (
    when ((authmgrHostIsDynamicNodeAllocCheck (pi_hostMode i)).2)
      (call_ (pacCfgIntfClientUnblock ifName (cl_suppMacAddr c) (cl_blockVlanId c)));;
    client_upd p (set cl_dataBlocked (λ _, false))).

(** [authmgrClientInfoCleanup] *)
Definition authmgrClientInfoCleanup (p : Z) : P RC_t :=
  if p =? NULLPTR then mret FAILURE
  else
    n ← node p;
    let physPort := AUTHMGR_PORT_GET (lp_key n) in
    r ← call (nimGetIntfName physPort);
    cfg ← authmgrIntfIsConfigurable physPort;
    match cfg with
    | None => mret SUCCESS
    | Some _ =>
        modify (set g_oldInfo (set cl_vlanId (λ _, cl_vlanId (lp_client n))));;
        rc ← (if cl_logicalPortStatus (lp_client n) ==? AUTHMGR_PORT_STATUS_AUTHORIZED
              then authmgrClientHwInfoCleanup p
              else client_unblock p physPort (r_bytes r);; mret SUCCESS);
        if is_SUCCESS rc then authmgrClientSwInfoCleanup p else mret rc
    end.

(** [authmgrClientDisconnectAction] *)
Definition authmgrClientDisconnectAction (p : Z) : P RC_t :=
  if p =? NULLPTR then mret FAILURE
  else
    n ← node p;
    let physPort := AUTHMGR_PORT_GET (lp_key n) in
    cfg ← authmgrIntfIsConfigurable physPort;
    match cfg with
    | None => mret SUCCESS
    | Some _ =>
        if negb (pr_heldTimerExpired (lp_protocol n)) then mret FAILURE
        else
          protocol_upd p (set pr_heldTimerExpired (λ _, false));;
          i ← port physPort;
          if is_SUCCESS (authmgrHostIsDynamicNodeAllocCheck (pi_hostMode i)).1
          then authmgrClientInfoCleanup p else mret SUCCESS
    end.

(** [authmgrClientInfoCleanupCheck] *)
Definition authmgrClientInfoCleanupCheck (src dst : authmgrClientInfo_t) : RC_t :=
  if (cl_vlanId src =? cl_vlanId dst) && (cl_logicalPortStatus src ==? AUTHMGR_PORT_STATUS_AUTHORIZED)
  then SUCCESS else FAILURE.

(** [authmgrAuthenticatedClientSwInfoCleanup]: the node stays, with its address *)
Definition authmgrAuthenticatedClientSwInfoCleanup (p : Z) : P RC_t :=
  if p =? NULLPTR then mret FAILURE
  else
    n ← node p;
    let physPort := AUTHMGR_PORT_GET (lp_key n) in
    cfg ← authmgrIntfIsConfigurable physPort;
    match cfg with
    | None => mret SUCCESS
    | Some _ =>
        when (negb (tm_handle (lp_timer n) =? 0))
          (_ ← authmgrTimerDestroy p (tm_type (lp_timer n)); mret tt);;
        n ← node p;
        let c := lp_client n in
        when (cl_logicalPortStatus c ==? AUTHMGR_PORT_STATUS_AUTHORIZED)
          (_ ← notify (cl_authenticatedMethod c) physPort authmgrClientDisconnect (cl_suppMacAddr c) SUCCESS;
           mret tt);;
        _ ← authmgrClientStatusSet p AUTHMGR_PORT_STATUS_UNAUTHORIZED;
        eap_goodbye p;;
        node_upd p (λ n, n <| lp_protocol := protocol_zero |>
          <| lp_client := client_zero <| cl_suppMacAddr := cl_suppMacAddr (lp_client n) |> |>);;
        mret SUCCESS
    end.

(** [authmgrAuthenticatedClientCleanup], which [authmgrAuthenticatedClientCleanupAction] calls *)
Definition authmgrAuthenticatedClientCleanup (p : Z) : P RC_t :=
  if p =? NULLPTR then mret FAILURE
  else
    n ← node p;
    let physPort := AUTHMGR_PORT_GET (lp_key n) in
    call_ (nimGetIntfName physPort);;
    cfg ← authmgrIntfIsConfigurable physPort;
    match cfg with
    | None => mret SUCCESS
    | Some _ =>
        if negb (cl_logicalPortStatus (lp_client n) ==? AUTHMGR_PORT_STATUS_AUTHORIZED) then mret FAILURE
        else
          modify (set g_oldInfo (set cl_vlanId (λ _, cl_vlanId (lp_client n))));;
          rc ← authmgrClientHwInfoCleanup p;
          _ ← authmgrAuthenticatedClientSwInfoCleanup p;
          client_upd p (λ c, c <| cl_blockVlanId := 0 |>
            <| cl_logicalPortStatus := AUTHMGR_PORT_STATUS_UNAUTHORIZED |>);;
          mret rc
    end.
Definition authmgrAuthenticatedClientCleanupAction : Z → P RC_t := authmgrAuthenticatedClientCleanup.

(** [authmgrClientHwInfoCleanupAndReadd] ([mapping/auth_mgr_control.c]) *)
Definition authmgrClientHwInfoCleanupAndReadd (p : Z) : P RC_t :=
  n ← node p;
  info ← gets g_processInfo;
  if is_SUCCESS (authmgrClientInfoCleanupCheck (lp_client n) info) then mret SUCCESS
  else
    rc ← (if cl_logicalPortStatus (lp_client n) ==? AUTHMGR_PORT_STATUS_AUTHORIZED
          then authmgrClientHwInfoCleanup p else mret SUCCESS);
    if negb (is_SUCCESS rc) then mret FAILURE
    else
      n ← node p;
      info ← gets g_processInfo;
      rc ← authmgrClientHwInfoAdd p (cl_suppMacAddr (lp_client n)) (u16 (cl_vlanId info))
             (u16 (cl_blockVlanId (lp_client n)));
      mret (if is_SUCCESS rc then SUCCESS else FAILURE).
End clients.
