(* ===== verification/PacSm.v ===== *)
(** * The authentication manager: the state machine of a client

    The methods of a port in their order ([mapping/auth_mgr_control.c]) and the
    state machine ([protocol/auth_mgr_sm.c]).  [authmgrGenerateEvents] and
    [authmgrStateMachine] call each other; the actions and the classifier take the
    former as an argument [gen], and fuel bounds the depth of the calls. *)

From S2P Require Import Prelude CMem CString PacState PacPort PacClient.
#[local] Open Scope Z_scope.

Section machine.
Context `{!Headers}.

(** ** The methods of a port *)

(** The loop of [authmgrFirstMethodGet] from [j] on *)
Fixpoint first_method (n j : nat) (l : list Z) : P (option Z) :=
  match n with
  | O => mret None
  | S n' => m ← method_at l j; if negb (m =? AUTHMGR_METHOD_NONE) then mret (Some m) else first_method n' (S j) l
  end.
(** The loop of [authmgrNextMethodGet] from [j] on, after the method [cur] *)
Fixpoint next_method (n j : nat) (l : list Z) (cur : Z) : P (option Z) :=
  match n with
  | O => mret None
  | S n' =>
      m ← method_at l j;
      if m =? AUTHMGR_METHOD_NONE then mret None
      else if (cur =? m) && (S j <? AUTHMGR_METHOD_MAX)%nat then
        m' ← method_at l (S j);
        mret (if m' =? AUTHMGR_METHOD_NONE then None else Some m')
      else next_method n' (S j) l cur
  end.
Definition method_count : nat := AUTHMGR_METHOD_MAX - AUTHMGR_METHOD_MIN.

(** What the functions below do with a list of methods; [None] is [FAILURE] *)
Definition with_methods (sel : authmgrPortInfo_t → list Z) (intIfNum : Z) (k : list Z → P (option Z)) : P (option Z) :=
  b ← authmgrIsValidIntf intIfNum;
  if negb b then mret None
  else
    i ← port intIfNum;
    m ← method_at (sel i) 0;
    if m =? AUTHMGR_METHOD_NONE then mret None else k (sel i).

Definition authmgrFirstMethodGet (intIfNum : Z) : P (option Z) :=
  with_methods pi_enabledMethods intIfNum (first_method method_count AUTHMGR_METHOD_MIN).
Definition authmgrNextMethodGet (intIfNum nextMethod : Z) : P (option Z) :=
  with_methods pi_enabledMethods intIfNum (λ l, next_method method_count AUTHMGR_METHOD_MIN l nextMethod).
(** [authmgrEnabledMethodNextGet]: the method it stores *)
Definition authmgrEnabledMethodNextGet (intIfNum nextMethod : Z) : P (option Z) :=
  with_methods pi_enabledMethods intIfNum (λ _,
    if nextMethod =? AUTHMGR_METHOD_NONE then authmgrFirstMethodGet intIfNum
    else authmgrNextMethodGet intIfNum nextMethod).
Definition authmgrFirstPriorityGet (intIfNum : Z) : P (option Z) :=
  with_methods pi_enabledPriority intIfNum (first_method method_count AUTHMGR_METHOD_MIN).
Definition authmgrNextPriorityGet (intIfNum nextPriority : Z) : P (option Z) :=
  with_methods pi_enabledPriority intIfNum (λ l, next_method method_count AUTHMGR_METHOD_MIN l nextPriority).
Definition authmgrEnabledPriorityNextGet (intIfNum nextPriority : Z) : P (option Z) :=
  with_methods pi_enabledPriority intIfNum (λ _,
    if nextPriority =? AUTHMGR_METHOD_NONE then authmgrFirstPriorityGet intIfNum
    else authmgrNextPriorityGet intIfNum nextPriority).

(** The first loop of [authmgrPriorityPrecedenceValidate]: is [m] in the list from [j] on? *)
Fixpoint method_listed (n j : nat) (l : list Z) (m : Z) : P bool :=
  match n with
  | O => mret false
  | S n' => x ← method_at l j; b ← method_listed n' (S j) l m; mret ((x =? m) || b)
  end.
(** Its second loop: is [m2] before a place of [m1]? *)
Fixpoint method_before (n j : nat) (l : list Z) (m1 m2 : Z) : P bool :=
  match n with
  | O => mret false
  | S n' =>
      x ← method_at l j;
      b ← (if x =? m1 then method_listed j 0 l m2 else mret false);
      if (b : bool) then mret true else method_before n' (S j) l m1 m2
  end.
(** [authmgrPriorityPrecedenceValidate]: may a client of [method1] be taken over by [method2]? *)
Definition authmgrPriorityPrecedenceValidate (intIfNum method1 method2 : Z) : P RC_t :=
  b ← authmgrIsValidIntf intIfNum;
  if negb b then mret FAILURE
  else if (method1 =? AUTHMGR_METHOD_NONE) && (method2 =? AUTHMGR_METHOD_NONE) then mret FAILURE
  else
    i ← port intIfNum;
    exists_ ← method_listed method_count AUTHMGR_METHOD_MIN (pi_enabledMethods i) method2;
    if negb exists_ then mret FAILURE
    else
      b ← method_before method_count AUTHMGR_METHOD_MIN (pi_enabledPriority i) method1 method2;
      mret (if (b : bool) then SUCCESS else FAILURE).

(** [authmgrAuthenticationTrigger] ([mapping/auth_mgr_control.c]) *)
Definition authmgrAuthenticationTrigger (p : Z) : P RC_t :=
  if p =? NULLPTR then mret FAILURE
  else
    n ← node p;
    let physPort := AUTHMGR_PORT_GET (lp_key n) in
    let m := cl_currentMethod (lp_client n) in
    let mac := cl_suppMacAddr (lp_client n) in
    cb ← callback m;
    let ok := negb (m =? AUTHMGR_METHOD_NONE) && (m =? mc_method cb) && mc_eventNotifyFn cb
              && negb (is_zero_mac mac && (m =? AUTHMGR_METHOD_MAB)) in
    if negb (pr_authState (lp_protocol n) ==? AUTHMGR_AUTHENTICATING) then mret SUCCESS
    else if ok then
      r ← call (eventNotifyFn m physPort authmgrClientAuthStart mac);
      _ ← authmgrStatsUpdate physPort m authmgrStatsAuthEnter;
      when (is_SUCCESS (r_rc r)) (_ ← authmgrTimerStart p AUTHMGR_METHOD_NO_RESP_TMR; mret tt);;
      mret (r_rc r)
    else mret FAILURE.

(** ** The table ([authmgrStateTable]) *)

Definition authmgrStateTable (ev : authmgrSmEvents_t) (st : AUTHMGR_STATES_t) : AUTHMGR_STATES_t :=
  match ev, st with
  | _, AUTHMGR_STATES => AUTHMGR_STATES
  | authmgrInitialize, _ => AUTHMGR_INITIALIZE
  | authmgrStartAuthenticate, AUTHMGR_INITIALIZE => AUTHMGR_UNAUTHENTICATED
  | authmgrAuthSuccess, (AUTHMGR_AUTHENTICATING | AUTHMGR_AUTHENTICATED | AUTHMGR_UNAUTHENTICATED) =>
      AUTHMGR_AUTHENTICATED
  | authmgrNotAuthSuccessNoNextMethod, AUTHMGR_AUTHENTICATING => AUTHMGR_HELD
  | authmgrNotAuthSuccessNextMethod, (AUTHMGR_AUTHENTICATING | AUTHMGR_UNAUTHENTICATED) => AUTHMGR_AUTHENTICATING
  | authmgrHeldTimerEqualsZero, AUTHMGR_HELD => AUTHMGR_UNAUTHENTICATED
  | authmgrStopAuthenticate, (AUTHMGR_AUTHENTICATING | AUTHMGR_AUTHENTICATED) => AUTHMGR_UNAUTHENTICATED
  | (authmgrHigherAuthMethodAdded | authmgrReauthenticate | authmgrAuthenticatedRxEapolStart
     | authmgrAuthFail | authmgrAbortAndRestartAuth), AUTHMGR_AUTHENTICATED => AUTHMGR_AUTHENTICATING
  | _, _ => AUTHMGR_STATES
  end.

(** ** Actions ([protocol/auth_mgr_sm.c]) *)

Definition state_set (p : Z) (st : AUTHMGR_STATES_t) : P unit := protocol_upd p (set pr_authState (λ _, st)).

Definition authmgrInitializeAction (p : Z) : P RC_t :=
  if p =? NULLPTR then mret FAILURE
  else
    client_upd p (set cl_executedMethod (λ _, replicate AUTHMGR_METHOD_LAST 0));;
    state_set p AUTHMGR_INITIALIZE;;
    mret SUCCESS.

Definition authmgrHeldAction (p : Z) : P RC_t :=
  if p =? NULLPTR then mret FAILURE
  else
    _ ← authmgrAuthenticatedClientCleanupAction p;
    n ← node p;
    when (negb (tm_handle (lp_timer n) =? 0) && (tm_type (lp_timer n) ==? AUTHMGR_REAUTH_WHEN))
      (_ ← authmgrTimerDestroy p AUTHMGR_REAUTH_WHEN; mret tt);;
    _ ← authmgrTimerStart p AUTHMGR_QWHILE;
    state_set p AUTHMGR_HELD;;
    n ← node p;
    when (pr_authFail (lp_protocol n) || pr_authTimeout (lp_protocol n))
      (authmgrTxCannedFail (lp_key n) AUTHMGR_LOGICAL_PORT);;
    mret SUCCESS.

Definition authmgrUnauthenticatedAction (p : Z) : P RC_t :=
  if p =? NULLPTR then mret FAILURE
  else
    n ← node p;
    when (pr_reauth (lp_protocol n) && pr_authFail (lp_protocol n))
      (protocol_upd p (set pr_reauth (λ _, false)));;
    n ← node p;
    let authorized := cl_logicalPortStatus (lp_client n) ==? AUTHMGR_PORT_STATUS_AUTHORIZED in
    when (negb (pr_reauth (lp_protocol n) && authorized) || pr_heldTimerExpired (lp_protocol n)) (
      when authorized (_ ← authmgrClientHwInfoCleanup p; mret tt);;
      _ ← authmgrClientStatusSet p AUTHMGR_PORT_STATUS_UNAUTHORIZED;
      mret tt);;
    state_set p AUTHMGR_UNAUTHENTICATED;;
    mret SUCCESS.

Definition no_result (x : authmgrProtocolInfo_t) : authmgrProtocolInfo_t :=
  x <| pr_authFail := false |> <| pr_authTimeout := false |> <| pr_authSuccess := false |>.

Definition authmgrAuthenticatedAction (p : Z) : P RC_t :=
  if p =? NULLPTR then mret FAILURE
  else
    n ← node p;
    let physPort := AUTHMGR_PORT_GET (lp_key n) in
    _ ← authmgrClientStatusSet p AUTHMGR_PORT_STATUS_AUTHORIZED;
    authmgrTxCannedSuccess (lp_key n) AUTHMGR_LOGICAL_PORT;;
    state_set p AUTHMGR_AUTHENTICATED;;
    protocol_upd p (λ x, no_result (x <| pr_reauth := false |>));;
    i ← port physPort;
    when (pi_reAuthEnabled i) (_ ← authmgrTimerStart p AUTHMGR_REAUTH_WHEN; mret tt);;
    attr ← gets g_attrInfo;
    client_upd p (λ c,
      if cl_vlanType c ==? AUTHMGR_VLAN_RADIUS
      then c <| cl_vlanTypePortCfg := negb (at_vlanAttrFlags attr =? RADIUS_REQUIRED_TUNNEL_ATTRIBUTES_SPECIFIED) |>
      else c);;
    mret SUCCESS.

Section open.
Context (gen : Z → P RC_t).

Definition authmgrAuthenticatingAction (p : Z) : P RC_t :=
  if p =? NULLPTR then mret FAILURE
  else
    state_set p AUTHMGR_AUTHENTICATING;;
    protocol_upd p no_result;;
    n ← node p;
    if pr_authenticatedRcvdStartAuth (lp_protocol n) then
      protocol_upd p (set pr_authenticatedRcvdStartAuth (λ _, false));;
      client_upd p (λ c, c <| cl_currentMethod := cl_authenticatedMethod c |>);;
      mret SUCCESS
    else
      rc ← authmgrAuthenticationTrigger p;
      when (negb (is_SUCCESS rc)) (
        protocol_upd p (set pr_authFail (λ _, true));;
        n ← node p;
        _ ← gen (lp_key n);
        mret tt);;
      mret SUCCESS.

(** [authmgrStateMachine] *)
Definition authmgrStateMachine (ev : authmgrSmEvents_t) (p : Z) : P RC_t :=
  if p =? NULLPTR then mret FAILURE
  else
    n ← node p;
    match authmgrStateTable ev (pr_authState (lp_protocol n)) with
    | AUTHMGR_INITIALIZE => _ ← authmgrInitializeAction p; n ← node p; gen (lp_key n)
    | AUTHMGR_AUTHENTICATING => authmgrAuthenticatingAction p
    | AUTHMGR_AUTHENTICATED => authmgrAuthenticatedAction p
    | AUTHMGR_HELD => authmgrHeldAction p
    | AUTHMGR_UNAUTHENTICATED => _ ← authmgrUnauthenticatedAction p; n ← node p; gen (lp_key n)
    | AUTHMGR_STATES => mret FAILURE
    end.

(** [authmgrStateMachineClassifier] *)
Definition authmgrStateMachineClassifier (ev : authmgrSmEvents_t) (lIntIfNum : Z) : P RC_t :=
  p ← authmgrLogicalPortInfoGet lIntIfNum;
  if p =? NULLPTR then mret FAILURE else authmgrStateMachine ev p.

(** The branches of [authmgrGenerateEvents]; they return whether the function does. *)
Definition classify (ev : authmgrSmEvents_t) (lIntIfNum : Z) : P bool :=
  _ ← authmgrStateMachineClassifier ev lIntIfNum; mret true.

(** The method after the current one becomes the current one *)
Definition advance_method (p physPort : Z) : P bool :=
  n ← node p;
  m ← authmgrEnabledMethodNextGet physPort (cl_currentMethod (lp_client n));
  match m with
  | Some m => client_upd p (set cl_currentMethod (λ _, m));; mret true
  | None => mret false
  end.

(** After the expiry of the held timer: whether the client is gone *)
Definition held_expired (p : Z) : P bool :=
  n ← node p;
  if pr_heldTimerExpired (lp_protocol n) then
    rc ← authmgrClientDisconnectAction p;
    if is_SUCCESS rc then mret true
    else client_upd p (set cl_currentMethod (λ _, AUTHMGR_METHOD_NONE));; mret false
  else mret false.

Definition events_unauthenticated (p physPort lIntIfNum : Z) : P bool :=
  n ← node p;
  if pr_authSuccess (lp_protocol n) then classify authmgrAuthSuccess lIntIfNum
  else
    gone ← held_expired p;
    if (gone : bool) then mret true
    else
      n ← node p;
      if pr_authenticate (lp_protocol n) then
        ok ← advance_method p physPort;
        if (ok : bool) then classify authmgrNotAuthSuccessNextMethod lIntIfNum else mret true
      else mret false.

Definition events_authenticating (p physPort lIntIfNum : Z) : P bool :=
  n ← node p;
  let x := lp_protocol n in
  if pr_reauth x && negb (pr_authFail x) && negb (pr_authTimeout x) && negb (pr_authSuccess x) then mret true
  else if pr_reauth x && pr_authFail x && negb (cl_authenticatedMethod (lp_client n) =? AUTHMGR_METHOD_NONE)
  then classify authmgrNotAuthSuccessNoNextMethod lIntIfNum
  else if pr_unAuthenticate x then classify authmgrStopAuthenticate lIntIfNum
  else if pr_authSuccess x then classify authmgrAuthSuccess lIntIfNum
  else
    ok ← (if pr_authFail x || pr_authTimeout x then advance_method p physPort else mret true);
    classify (if (ok : bool) then authmgrNotAuthSuccessNextMethod else authmgrNotAuthSuccessNoNextMethod) lIntIfNum.

Definition events_held (p lIntIfNum : Z) : P bool :=
  n ← node p;
  if pr_heldTimerExpired (lp_protocol n) then classify authmgrHeldTimerEqualsZero lIntIfNum else mret false.

Definition events_authenticated (p physPort lIntIfNum : Z) : P bool :=
  n ← node p;
  if pr_authSuccess (lp_protocol n) then classify authmgrAuthSuccess lIntIfNum
  else if pr_unAuthenticate (lp_protocol n) then
    call_ (nimGetIntfName physPort);; classify authmgrStopAuthenticate lIntIfNum
  else
    when (pr_authenticatedRcvdStartAuth (lp_protocol n))
      (protocol_upd p (λ x, x <| pr_authenticatedRcvdStartAuth := false |> <| pr_reauth := true |>));;
    n ← node p;
    if pr_reauth (lp_protocol n) then
      call_ (nimGetIntfName physPort);; classify authmgrReauthenticate lIntIfNum
    else mret false.

(** [if (st == logicalPortInfo->protocol.authState) body], unless a branch returned *)
Definition in_state (p : Z) (st : AUTHMGR_STATES_t) (body : P bool) (returned : bool) : P bool :=
  if returned then mret true
  else n ← node p; if pr_authState (lp_protocol n) ==? st then body else mret false.

(** The body of [authmgrGenerateEvents] *)
Definition generate_events (lIntIfNum : Z) : P RC_t :=
  p ← authmgrLogicalPortInfoGet lIntIfNum;
  if p =? NULLPTR then mret FAILURE
  else
    n ← node p;
    let physPort := AUTHMGR_PORT_GET (lp_key n) in
    when (pr_authState (lp_protocol n) ==? AUTHMGR_INITIALIZE) (
      i ← port physPort;
      when (pi_portEnabled i) (_ ← classify authmgrStartAuthenticate lIntIfNum; mret tt));;
    b ← in_state p AUTHMGR_UNAUTHENTICATED (events_unauthenticated p physPort lIntIfNum) false;
    b ← in_state p AUTHMGR_AUTHENTICATING (events_authenticating p physPort lIntIfNum) b;
    b ← in_state p AUTHMGR_HELD (events_held p lIntIfNum) b;
    _ ← in_state p AUTHMGR_AUTHENTICATED (events_authenticated p physPort lIntIfNum) b;
    mret SUCCESS.
End open.

(** [authmgrGenerateEvents] *)
Fixpoint generate (fuel : nat) (lIntIfNum : Z) : P RC_t :=
  match fuel with
  | O => fail OutOfFuel
  | S f => generate_events (generate f) lIntIfNum
  end.

(** A failure to start a method moves on to the next one: two nested calls for
    every method of the list, twice when the timer of the held state expired. *)
Definition gen_fuel : nat := 4 * AUTHMGR_METHOD_MAX + 12.
Definition authmgrGenerateEvents : Z → P RC_t := generate gen_fuel.
Definition authmgrStateMachineEvent : authmgrSmEvents_t → Z → P RC_t :=
  authmgrStateMachineClassifier authmgrGenerateEvents.

(** [authmgrAuthenticationInitiate] *)
Definition authmgrAuthenticationInitiate (lIntIfNum : Z) : P RC_t :=
  p ← authmgrLogicalPortInfoGet lIntIfNum;
  if p =? NULLPTR then mret FAILURE
  else
    protocol_upd p (set pr_authenticate (λ _, true));;
    _ ← authmgrGenerateEvents lIntIfNum;
    mret SUCCESS.
End machine.
