(* ===== verification/PacEvents.v ===== *)
(** * The authentication manager: what happens to a client

    The results that the methods report, the expiry of timers, the addresses seen
    on a port, management and VLAN changes ([mapping/auth_mgr_control.c],
    [protocol/auth_mgr_timer.c], [protocol/auth_mgr_radius.c],
    [protocol/auth_mgr_vlan.c]). *)

From S2P Require Import Prelude CMem CString PacState PacPort PacClient PacSm.
#[local] Open Scope Z_scope.

(** [authmgrAuthRespParams_t], with the members of [authmgrClientAuthInfo_t] and the
    [enableStatus] of the union *)
Record authmgrAuthRespParams_t : Type := mkResp {
  rp_status : AUTHMGR_STATUS_t;
  rp_method : Z;
  rp_macAddr : list Z;
  rp_eapolVersion : Z;
  rp_authMethod : Z;
  rp_attrInfo : authmgrAuthAttributeInfo_t;
  rp_userName : list Z  (** [authmgrUserName], an array of [AUTHMGR_USER_NAME_LEN] *);
  rp_userNameLength : Z;
  rp_enableStatus : bool
}.

Section events.
Context `{!Headers}.

(** ** A new logical port ([mapping/auth_mgr_control.c]) *)

(** [authmgrLogicalPortInfoInit] *)
Definition authmgrLogicalPortInfoInit (lIntIfNum : Z) : P RC_t :=
  p ← authmgrLogicalPortInfoGet lIntIfNum;
  if p =? NULLPTR then mret FAILURE
  else
    n ← node p;
    let physPort := AUTHMGR_PORT_GET (lp_key n) in
    when (cl_logicalPortStatus (lp_client n) ==? AUTHMGR_PORT_STATUS_AUTHORIZED)
      (_ ← authmgrClientHwInfoCleanup p; mret tt);;
    node_upd p (λ n, n <| lp_protocol := protocol_zero |> <| lp_client := client_zero |>);;
    r ← call (nimGetIntfName physPort);
    vlanId ← (if is_SUCCESS (r_rc r) then r' ← call (pacCfgPortPVIDGet (r_bytes r)); mret (u32 (r_num r'))
              else mret 0);
    client_upd p (λ c, c <| cl_vlanId := vlanId |> <| cl_vlanType := AUTHMGR_VLAN_DEFAULT |>
      <| cl_rcvdEapolVersion := DOT1X_PAE_PORT_PROTOCOL_VERSION_2 |>);;
    _ ← authmgrStateMachineEvent authmgrInitialize (lp_key n);
    mret SUCCESS.

(** [authmgrAddMac] *)
Definition authmgrAddMac (lIntIfNum : Z) : P RC_t :=
  p ← authmgrLogicalPortInfoGet lIntIfNum;
  if p =? NULLPTR then mret FAILURE
  else n ← node p; authmgrMacAddrInfoAdd (cl_suppMacAddr (lp_client n)) lIntIfNum.

(** [authmgrCtlLogicalPortClientTimeout] and [authmgrCtlClientCleanup] *)
Definition authmgrCtlLogicalPortClientTimeout (lIntIfNum : Z) : P RC_t :=
  admin ← gets g_adminMode;
  if negb admin then mret SUCCESS
  else
    p ← authmgrLogicalPortInfoGet lIntIfNum;
    if p =? NULLPTR then mret FAILURE
    else
      n ← node p;
      if negb (lp_key n =? 0) && (pr_authState (lp_protocol n) ==? AUTHMGR_AUTHENTICATED)
      then authmgrClientInfoCleanup p else mret FAILURE.
Definition authmgrCtlClientCleanup (lIntIfNum : Z) : P RC_t :=
  admin ← gets g_adminMode;
  if negb admin then mret SUCCESS
  else
    p ← authmgrLogicalPortInfoGet lIntIfNum;
    if p =? NULLPTR then mret FAILURE
    else n ← node p; if negb (lp_key n =? 0) then authmgrClientInfoCleanup p else mret FAILURE.

(** The search of [authmgrDynamicUserPduMapCheck] for a client of the port *)
Definition client_of_mac (intIfNum : Z) (srcMac : list Z) : P (option Z) :=
  for_each_lport intIfNum (λ i p found,
    n ← node p;
    mret (if bool_decide (srcMac = cl_suppMacAddr (lp_client n)) then (Some i, false) else (found, true))) None.

(** Its handling of a client that moved from another port: whether to go on *)
Definition mac_move (intIfNum : Z) (srcMac : list Z) (lIntIfNum : Z) : P bool :=
  '(rc, l) ← authmgrMacAddrInfoFind srcMac lIntIfNum;
  if negb (is_SUCCESS rc) then mret true
  else
    p ← authmgrLogicalPortInfoGet l;
    if (p =? NULLPTR) || (AUTHMGR_PORT_GET l =? intIfNum) then mret true
    else
      call_ (nimGetIntfName (AUTHMGR_PORT_GET l));;
      rc ← authmgrCtlLogicalPortClientTimeout l; mret (is_SUCCESS rc).

(** Its allocation of a logical port: the key; first what it does with the new one *)
Definition client_register (intIfNum p : Z) (srcMac : list Z) : P (option Z) :=
  n ← node p;
  let l := lp_key n in
  client_upd p (set cl_suppMacAddr (λ _, srcMac));;
  rc ← authmgrAddMac l;
  if is_SUCCESS rc then port_upd intIfNum (set pi_numUsers (λ x, u32 (x + 1)));; mret (Some l)
  else _ ← authmgrLogicalPortInfoDeAlloc p; mret None.
Definition client_new (intIfNum : Z) (srcMac : list Z) : P (option Z) :=
  i ← port intIfNum;
  if pi_numUsers i >=? pi_maxUsers i then mret None
  else
    p ← authmgrLogicalPortInfoAlloc intIfNum;
    if p =? NULLPTR then mret None
    else
      n ← node p;
      _ ← authmgrLogicalPortInfoInit (lp_key n);
      client_register intIfNum p srcMac.

(** [authmgrDynamicUserPduMapCheck], with [AUTHMGR_MAC_MOVE_ON], for a [*lIntIfNum]
    of [0]: [None] is [FAILURE], otherwise [*lIntIfNum] and [*existing_node] *)
Definition authmgrDynamicUserPduMapCheck (intIfNum : Z) (srcMac : list Z) : P (option (Z * bool)) :=
  cfg ← authmgrIntfIsConfigurable intIfNum;
  match cfg with
  | None => mret None
  | Some pCfg =>
      if negb (pc_portControlMode pCfg ==? AUTHMGR_PORT_AUTO) then mret None
      else
        found ← client_of_mac intIfNum srcMac;
        match found with
        | Some l => mret (Some (l, true))
        | None =>
            ok ← mac_move intIfNum srcMac 0;
            if negb ok then mret None
            else l ← client_new intIfNum srcMac; mret ((λ l, (l, false)) <$> l)
        end
  end.

(** [authmgrCheckMapPdu]; with the manager disabled [*lIntIfNum] is left alone *)
Definition authmgrCheckMapPdu (intIfNum : Z) (srcMac : list Z) : P (option (Z * bool)) :=
  admin ← gets g_adminMode;
  if negb admin then mret (Some (0, false))
  else
    cfg ← authmgrIntfIsConfigurable intIfNum;
    match cfg with
    | None => mret None
    | Some _ =>
        i ← port intIfNum;
        if (authmgrHostIsDynamicNodeAllocCheck (pi_hostMode i)).2
        then authmgrDynamicUserPduMapCheck intIfNum srcMac else mret None
    end.

(** ** An address that may not use the port *)

(** The end of [authmgrCtlPortUnauthAddrCallbackProcess]: the traffic of the client
    is blocked while it is not authorized *)
Definition client_block (lIntIfNum : Z) (ifName macAddr : list Z) (vlanId : Z) : P RC_t :=
  p ← authmgrLogicalPortInfoGet lIntIfNum;
  if p =? NULLPTR then mret FAILURE
  else
    n ← node p;
    if cl_logicalPortStatus (lp_client n) ==? AUTHMGR_PORT_STATUS_AUTHORIZED then mret SUCCESS
    else if cl_dataBlocked (lp_client n) then mret SUCCESS
    else
      r ← call (pacCfgIntfClientBlock ifName macAddr vlanId);
      if negb (r_flag r) then mret FAILURE
      else
        client_upd p (λ c, c <| cl_dataBlocked := true |> <| cl_blockVlanId := vlanId |>);;
        mret SUCCESS.

(** Its admission of a new client; [inl] of what the function returns *)
Definition client_admit (intIfNum lIntIfNum vlanId : Z) : P (RC_t + unit) :=
  i ← port intIfNum;
  if pi_numUsers i >? pi_maxUsers i then mret (inl FAILURE)
  else
    p ← authmgrLogicalPortInfoGet lIntIfNum;
    if p =? NULLPTR then mret (inl SUCCESS)
    else
      client_upd p (λ c, c <| cl_vlanId := vlanId |> <| cl_vlanType := AUTHMGR_VLAN_DEFAULT |>
        <| cl_blockVlanId := vlanId |>);;
      n ← node p;
      when (negb (pr_authenticate (lp_protocol n))) (call_ (authmgrIssueAuthenticationStart lIntIfNum));;
      mret (inr tt).

(** [authmgrCtlPortUnauthAddrCallbackProcess] *)
Definition authmgrCtlPortUnauthAddrCallbackProcess (intIfNum : Z) (macAddr : list Z) (vlanId : Z) : P RC_t :=
  r ← call (nimGetIntfName intIfNum);
  if negb (is_SUCCESS (r_rc r)) then mret FAILURE
  else
    admin ← gets g_adminMode;
    if negb admin then mret SUCCESS
    else
      cfg ← authmgrIntfIsConfigurable intIfNum;
      match cfg with
      | None => mret SUCCESS
      | Some _ =>
          i ← port intIfNum;
          if negb (pi_portEnabled i) || negb (pi_unLearnMacPolicy i) || (pi_enabledMethodCount i =? 0)
          then mret SUCCESS
          else
            res ← authmgrCheckMapPdu intIfNum macAddr;
            match res with
            | None => mret SUCCESS
            | Some (l, true) => client_block l (r_bytes r) macAddr vlanId
            | Some (l, false) =>
                res ← client_admit intIfNum l vlanId;
                match res with
                | inl rc => mret rc
                | inr _ => client_block l (r_bytes r) macAddr vlanId
                end
            end
      end.

(** ** The results of the methods *)

(** [authmgrRadiusServerVlanConversionHandle] and [authmgrVlanAttrValidate]
    ([protocol/auth_mgr_radius.c]) *)
Definition authmgrVlanAttrValidate (p : Z) : P RC_t :=
  if p =? NULLPTR then mret FAILURE
  else
    n ← node p;
    attr ← gets g_attrInfo;
    let vlanId := u32 (atoi (at_vlanString attr)) in
    rc1 ← authmgrVlanCheckStatic vlanId;
    match rc1 with
    | NOT_EXIST => mret FAILURE
    | _ =>
        rc ← authmgrVlanPortParticipationValidate (AUTHMGR_PORT_GET (lp_key n)) vlanId;
        if negb (is_SUCCESS rc) then mret FAILURE
        else modify (set g_processInfo (set cl_vlanId (λ _, vlanId)));; mret SUCCESS
    end.
Definition result_fail (x : authmgrProtocolInfo_t) : authmgrProtocolInfo_t :=
  x <| pr_authSuccess := false |> <| pr_authFail := true |>.
(** [authmgrRadiusAcceptPostProcess] for [processInfo] *)
Definition authmgrRadiusAcceptPostProcess (p : Z) : P RC_t :=
  if p =? NULLPTR then mret FAILURE
  else
    n ← node p;
    attr ← gets g_attrInfo;
    if at_vlanAttrFlags attr =? 0 then
      '(rc, vlanId) ← authmgrPortDefaultVlanGet (AUTHMGR_PORT_GET (lp_key n));
      modify (set g_processInfo (set cl_vlanId (λ _, vlanId)));;
      if is_SUCCESS rc then mret SUCCESS else protocol_upd p result_fail;; mret FAILURE
    else if negb (at_vlanAttrFlags attr =? RADIUS_REQUIRED_TUNNEL_ATTRIBUTES_SPECIFIED) then
      protocol_upd p result_fail;; mret FAILURE
    else authmgrVlanAttrValidate p.

(** The user name of a result, if it has one *)
Definition take_user (cp : authmgrAuthRespParams_t) (c : authmgrClientInfo_t) : authmgrClientInfo_t :=
  if strlen (rp_userName cp) =? 0 then c
  else c <| cl_authmgrUserName := rp_userName cp |> <| cl_authmgrUserNameLength := rp_userNameLength cp |>.

(** [authmgrNewClientAction] for a client that is authorized *)
Definition new_client_authorized (p lIntIfNum : Z) (cp : authmgrAuthRespParams_t) : P RC_t :=
  n ← node p;
  let physPort := AUTHMGR_PORT_GET lIntIfNum in
  let c := lp_client n in
  let st := pr_authState (lp_protocol n) in
  let start_auth := protocol_upd p (set pr_authenticatedRcvdStartAuth (λ _, true)) in
  if negb (cl_authenticatedMethod c =? rp_method cp) then
    higher ← (if cl_authenticatedMethod c =? AUTHMGR_METHOD_NONE then mret FAILURE
              else authmgrPriorityPrecedenceValidate physPort (cl_authenticatedMethod c) (rp_method cp));
    if is_SUCCESS higher then
      when (st ==? AUTHMGR_AUTHENTICATED) (
        start_auth;;
        client_upd p (set cl_currentMethod (λ _, rp_method cp));;
        _ ← authmgrGenerateEvents lIntIfNum; mret tt);;
      mret SUCCESS
    else
      when ((cl_authenticatedMethod c =? AUTHMGR_METHOD_NONE) && negb (st ==? AUTHMGR_AUTHENTICATING)) (
        start_auth;;
        i ← port physPort;
        m ← method_at (pi_enabledMethods i) 0;
        client_upd p (set cl_currentMethod (λ _, m));;
        _ ← authmgrGenerateEvents lIntIfNum; mret tt);;
      mret SUCCESS
  else
    when ((rp_method cp =? AUTHMGR_METHOD_8021X) && negb (st ==? AUTHMGR_AUTHENTICATING)) (
      start_auth;; _ ← authmgrGenerateEvents lIntIfNum; mret tt);;
    mret SUCCESS.

(** [authmgrNewClientAction] *)
Definition authmgrNewClientAction (lIntIfNum : Z) (cp : authmgrAuthRespParams_t) : P RC_t :=
  p ← authmgrLogicalPortInfoGet lIntIfNum;
  if p =? NULLPTR then mret FAILURE
  else
    n ← node p;
    let physPort := AUTHMGR_PORT_GET lIntIfNum in
    if pr_authState (lp_protocol n) ==? AUTHMGR_UNAUTHENTICATED then
      call_ (authmgrIssueAuthenticationStart lIntIfNum);;
      _ ← authmgrStatsUpdate physPort (rp_method cp) authmgrStatsAuthEnter;
      mret SUCCESS
    else if cl_logicalPortStatus (lp_client n) ==? AUTHMGR_PORT_STATUS_AUTHORIZED then
      new_client_authorized p lIntIfNum cp
    else
      when ((pr_authState (lp_protocol n) ==? AUTHMGR_AUTHENTICATING) && (rp_method cp =? AUTHMGR_METHOD_8021X)
            && (cl_currentMethod (lp_client n) =? rp_method cp))
        (_ ← authmgrAuthenticationTrigger p; mret tt);;
      mret SUCCESS.

(** [authmgrStatusServerCommFailAction] *)
Definition authmgrStatusServerCommFailAction (lIntIfNum : Z) (cp : authmgrAuthRespParams_t) : P RC_t :=
  p ← authmgrLogicalPortInfoGet lIntIfNum;
  if p =? NULLPTR then mret FAILURE
  else
    _ ← authmgrStatsUpdate (AUTHMGR_PORT_GET lIntIfNum) (rp_method cp) authmgrStatsAuthFail;
    client_upd p (λ c, take_user cp c <| cl_currentIdL := at_idFromServer (rp_attrInfo cp) |>);;
    _ ← authmgrClientInfoCleanup p;
    mret SUCCESS.

Definition client_type_of (method : Z) : authmgrClientType_t :=
  if method =? AUTHMGR_METHOD_8021X then AUTHMGR_CLIENT_AWARE else AUTHMGR_CLIENT_UNAWARE.

(** [authmgrStatusNotSuccessAction] *)
Definition authmgrStatusNotSuccessAction (lIntIfNum : Z) (cp : authmgrAuthRespParams_t) : P RC_t :=
  p ← authmgrLogicalPortInfoGet lIntIfNum;
  if p =? NULLPTR then mret FAILURE
  else
    _ ← authmgrTimerDestroy p AUTHMGR_METHOD_NO_RESP_TMR;
    n ← node p;
    modify (set g_oldInfo (λ _, lp_client n));;
    client_upd p (λ c, take_user cp c <| cl_currentIdL := at_idFromServer (rp_attrInfo cp) |>);;
    '(status, clientType) ← match rp_status cp with
      | AUTHMGR_AUTH_FAIL =>
          protocol_upd p (set pr_authFail (λ _, true));;
          client_upd p (set cl_reAuthCount (λ x, u32 (x + 1)));;
          mret (authmgrStatsAuthFail, client_type_of (rp_method cp))
      | AUTHMGR_AUTH_TIMEOUT =>
          protocol_upd p (set pr_authTimeout (λ _, true));;
          mret (authmgrStatsAuthTimeout, AUTHMGR_CLIENT_UNAWARE)
      | _ => mret (authmgrStatsAuthFail, AUTHMGR_CLIENT_UNAWARE)
      end;
    client_upd p (λ c, if cl_clientType c ==? AUTHMGR_CLIENT_AWARE then c else c <| cl_clientType := clientType |>);;
    _ ← authmgrStatsUpdate (AUTHMGR_PORT_GET lIntIfNum) (rp_method cp) status;
    protocol_upd p (set pr_authSuccess (λ _, false));;
    authmgrGenerateEvents lIntIfNum.

(** [authmgrStatusDisconnectAction] *)
Definition authmgrStatusDisconnectAction (lIntIfNum : Z) (cp : authmgrAuthRespParams_t) : P RC_t :=
  p ← authmgrLogicalPortInfoGet lIntIfNum;
  if p =? NULLPTR then mret FAILURE
  else
    client_upd p (set cl_currentIdL (λ _, at_idFromServer (rp_attrInfo cp)));;
    n ← node p;
    when ((cl_logicalPortStatus (lp_client n) ==? AUTHMGR_PORT_STATUS_AUTHORIZED)
          && (cl_authenticatedMethod (lp_client n) =? cl_currentMethod (lp_client n)))
      (_ ← authmgrClientInfoCleanup p; mret tt);;
    mret SUCCESS.

(** The end of [authmgrStatusSuccessAction] when the client could not be admitted *)
Definition success_refused (p lIntIfNum : Z) (cp : authmgrAuthRespParams_t) : P RC_t :=
  n ← node p;
  when (negb (rp_method cp =? AUTHMGR_METHOD_NONE))
    (_ ← notify (rp_method cp) (AUTHMGR_PORT_GET (lp_key n)) authmgrClientDisconnect
           (cl_suppMacAddr (lp_client n)) SUCCESS; mret tt);;
  protocol_upd p result_fail;;
  authmgrGenerateEvents lIntIfNum.

(** What it takes from [processInfo] and the result when the client is admitted *)
Definition success_client (cp : authmgrAuthRespParams_t) (info : authmgrClientInfo_t) (c : authmgrClientInfo_t) :
    authmgrClientInfo_t :=
  c <| cl_clientType := client_type_of (rp_method cp) |>
    <| cl_vlanType := if rp_authMethod cp =? AUTH_METHOD_RADIUS then AUTHMGR_VLAN_RADIUS else AUTHMGR_VLAN_DEFAULT |>
    <| cl_authenticatedMethod := rp_method cp |>
    <| cl_authMethod := rp_authMethod cp |>
    <| cl_vlanId := cl_vlanId info |>
    <| cl_sessionTimeout := cl_sessionTimeout info |>
    <| cl_terminationAction := cl_terminationAction info |>
    <| cl_currentIdL := at_idFromServer (rp_attrInfo cp) |>.

(** The session of the accept goes to [processInfo] *)
Definition session_of (attr : authmgrAuthAttributeInfo_t) (info : authmgrClientInfo_t) : authmgrClientInfo_t :=
  info <| cl_sessionTimeout := at_sessionTimeout attr |>
       <| cl_terminationAction :=
            if (at_terminationAction attr =? RADIUS_TERMINATION_ACTION_DEFAULT)
               || (at_terminationAction attr =? RADIUS_TERMINATION_ACTION_RADIUS)
            then at_terminationAction attr else RADIUS_TERMINATION_ACTION_DEFAULT |>.

(** [memcpy] of the class into the array of the client *)
Definition server_class_copy (p : Z) (attr : authmgrAuthAttributeInfo_t) : P unit :=
  n ← node p;
  bytes ← first_bytes (at_serverClassLen attr) (at_serverClass attr);
  if Z.of_nat (length (cl_serverClass (lp_client n))) <? at_serverClassLen attr then fail OutOfBounds
  else
    client_upd p (λ c, c <| cl_serverClass ::= λ l, bytes ++ drop (length bytes) l |>
                         <| cl_serverClassLen := at_serverClassLen attr |>).

(** [authmgrStatusSuccessAction] *)
Definition authmgrStatusSuccessAction (lIntIfNum : Z) (cp : authmgrAuthRespParams_t) : P RC_t :=
  p ← authmgrLogicalPortInfoGet lIntIfNum;
  if p =? NULLPTR then mret FAILURE
  else
    n ← node p;
    let physPort := AUTHMGR_PORT_GET (lp_key n) in
    _ ← authmgrTimerDestroy p AUTHMGR_METHOD_NO_RESP_TMR;
    modify (λ s, s <| g_processInfo := client_zero |> <| g_oldInfo := lp_client n |>
                   <| g_attrInfo := rp_attrInfo cp |>);;
    client_upd p (take_user cp);;
    rc ← authmgrRadiusAcceptPostProcess p;
    if negb (is_SUCCESS rc) then
      _ ← authmgrStatsUpdate physPort (rp_method cp) authmgrStatsAuthFail;
      success_refused p (lp_key n) cp
    else
      modify (set g_processInfo (session_of (rp_attrInfo cp)));;
      server_class_copy p (rp_attrInfo cp);;
      rc ← authmgrClientHwInfoCleanupAndReadd p;
      if negb (is_SUCCESS rc) then success_refused p lIntIfNum cp
      else
        protocol_upd p (λ x, x <| pr_authSuccess := true |> <| pr_authFail := false |>);;
        info ← gets g_processInfo;
        client_upd p (success_client cp info);;
        _ ← authmgrStatsUpdate physPort (rp_method cp) authmgrStatsAuthSuccess;
        authmgrGenerateEvents lIntIfNum.

(** ** Changes of the methods of a port *)

(** [authmgrClientsByMethodDelete] *)
Definition authmgrClientsByMethodDelete (intIfNum method : Z) : P RC_t :=
  b ← authmgrIsValidIntf intIfNum;
  if negb b then mret FAILURE
  else
    for_each_lport intIfNum (λ _ p _,
      n ← node p;
      when (cl_authenticatedMethod (lp_client n) =? method) (_ ← authmgrClientInfoCleanup p; mret tt);;
      mret (tt, true)) tt;;
    mret SUCCESS.

(** [authmgrRegisteredEntryFnMapGet] *)
Definition authmgrRegisteredEntryFnMapGet (method : Z) : P (option authmgrMethodCallbackNotifyMap_t) :=
  if method =? AUTHMGR_METHOD_NONE then mret None
  else l ← gets g_callbacks; mret (list_find (λ e, mc_method e = method) l ≫= λ e, Some e.2).
(** [authmgrOperListEntryPopulate]: [None] is [FAILURE], otherwise whether the method
    is enabled; the answer's number is [ENABLE] when its flag is set *)
Definition authmgrOperListEntryPopulate (intIfNum method : Z) : P (option bool) :=
  entry ← authmgrRegisteredEntryFnMapGet method;
  match entry with
  | None => mret None
  | Some e =>
      if negb (mc_enableGetFn e) then mret None
      else r ← call (enableGetFn (mc_method e) intIfNum); mret (Some (negb (is_SUCCESS (r_rc r) && negb (r_flag r))))
  end.
(** The loop of [authmgrEnabledListPopulate]: the enabled methods, in order *)
Fixpoint enabled_list (n j : nat) (intIfNum : Z) (l : list Z) : P (list Z) :=
  match n with
  | O => mret []
  | S n' =>
      m ← method_at l j;
      if m =? AUTHMGR_METHOD_NONE then mret []
      else
        flag ← authmgrOperListEntryPopulate intIfNum m;
        match flag with
        | None => mret []
        | Some b => rest ← enabled_list n' (S j) intIfNum l; mret (if (b : bool) then m :: rest else rest)
        end
  end.
(** [authmgrEnabledListPopulate] into an array of zeros: the array and the count;
    a longer list would leave the array *)
Definition authmgrEnabledListPopulate (intIfNum : Z) (l : list Z) : P (option (list Z * Z)) :=
  b ← authmgrIsValidIntf intIfNum;
  if negb b then mret None
  else
    out ← enabled_list AUTHMGR_METHOD_MAX 0 intIfNum l;
    if (AUTHMGR_METHOD_LAST <? length out)%nat then fail OutOfBounds
    else mret (Some (out ++ replicate (AUTHMGR_METHOD_LAST - length out) 0, Z.of_nat (length out))).

(** The loop of [authmgrEnableListChangeAction]: every method of the old list is
    compared with the first one of the new list; the clients of the others go *)
Fixpoint list_change (n i : nat) (intIfNum : Z) (old : list Z) (new0 : Z) : P unit :=
  match n with
  | O => mret tt
  | S n' =>
      m ← method_at old i;
      if m =? AUTHMGR_METHOD_NONE then mret tt
      else
        when (negb (new0 =? m)) (_ ← authmgrClientsByMethodDelete intIfNum m; mret tt);;
        list_change n' (S i) intIfNum old new0
  end.
Definition authmgrEnableListChangeAction (intIfNum : Z) (old new : list Z) : P RC_t :=
  new0 ← method_at new 0;
  list_change AUTHMGR_METHOD_MAX 0 intIfNum old new0;;
  mret SUCCESS.

(** The effect of new lists on the port, in [authmgrPortEnabledListPopulate] *)
Definition enabled_lists_apply (intIfNum : Z) (orderList priorityList : list Z) (count count1 : Z) : P RC_t :=
  i ← port intIfNum;
  let orderChanged := negb (bool_decide (pi_enabledMethods i = orderList)) in
  let priorityChanged := negb (bool_decide (pi_enabledPriority i = priorityList)) in
  (if orderChanged then
     _ ← authmgrEnableListChangeAction intIfNum (pi_enabledMethods i) orderList;
     port_upd intIfNum (set pi_enabledMethods (λ _, orderList));;
     _ ← authmgrViolationPolicyApply intIfNum;
     _ ← authmgrPortLearningModify intIfNum;
     port_upd intIfNum (λ i, i
       <| pi_enabledPriority ::= λ l, if bool_decide (priorityList = replicate AUTHMGR_METHOD_LAST 0) then orderList
                                      else if priorityChanged then priorityList else l |>
       <| pi_enabledMethodCount := count |> <| pi_enabledPriorityCount := count1 |>)
   else when priorityChanged (port_upd intIfNum (set pi_enabledPriority (λ _, priorityList))));;
  i ← port intIfNum;
  call_ (PacPortOperTblSet intIfNum (pi_enabledMethods i) (pi_enabledPriority i));;
  mret SUCCESS.

(** [authmgrPortEnabledListPopulate] *)
Definition authmgrPortEnabledListPopulate (intIfNum : Z) : P RC_t :=
  b ← authmgrIsValidIntf intIfNum;
  cfg ← (if (b : bool) then authmgrIntfIsConfigurable intIfNum else mret None);
  match cfg with
  | None => mret FAILURE
  | Some pCfg =>
      r ← call (nimGetIntfName intIfNum);
      if negb (is_SUCCESS (r_rc r)) then mret FAILURE
      else
        order ← authmgrEnabledListPopulate intIfNum (pc_methodList pCfg);
        match order with
        | None => mret FAILURE
        | Some (orderList, count) =>
            priority ← authmgrEnabledListPopulate intIfNum (pc_priorityList pCfg);
            match priority with
            | None => mret FAILURE
            | Some (priorityList, count1) => enabled_lists_apply intIfNum orderList priorityList count count1
            end
        end
  end.

(** [authmgrMethodOrderChangeProcess] and [authmgrMethodModifyAction] *)
Definition authmgrMethodOrderChangeProcess (intIfNum : Z) : P RC_t :=
  cfg ← authmgrIntfIsConfigurable intIfNum;
  match cfg with
  | None => mret FAILURE
  | Some pCfg =>
      (if pc_portControlMode pCfg ==? AUTHMGR_PORT_AUTO then _ ← authmgrPortEnabledListPopulate intIfNum; mret tt
       else port_upd intIfNum (λ i, i
         <| pi_enabledMethods := replicate AUTHMGR_METHOD_LAST 0 |>
         <| pi_enabledPriority := replicate AUTHMGR_METHOD_LAST 0 |>
         <| pi_enabledMethodCount := 0 |> <| pi_enabledPriorityCount := 0 |>));;
      mret SUCCESS
  end.
Definition authmgrMethodModifyAction (intIfNum : Z) : P RC_t :=
  admin ← gets g_adminMode;
  when admin (_ ← authmgrMethodOrderChangeProcess intIfNum; mret tt);;
  mret SUCCESS.

(** [authmgrStatusAuthModifyAction] *)
Definition authmgrStatusAuthModifyAction (intIfNum : Z) (cp : authmgrAuthRespParams_t) : P RC_t :=
  when (negb (rp_enableStatus cp)) (_ ← authmgrClientsByMethodDelete intIfNum (rp_method cp); mret tt);;
  i ← port intIfNum;
  let orderList := pi_enabledPriority i in
  _ ← authmgrMethodModifyAction intIfNum;
  i ← port intIfNum;
  when ((rp_method cp =? AUTHMGR_METHOD_MAB) && (pi_portControlMode i ==? AUTHMGR_PORT_AUTO)
        && (pi_hostMode i ==? AUTHMGR_MULTI_HOST_MODE) && (pi_authCount i =? 0)
        && negb (bool_decide (pi_enabledMethods i = orderList)))
    (_ ← authmgrPortLearningModify intIfNum; mret tt);;
  mret SUCCESS.

(** ** The message of a method ([authmgrClientCallbackEventProcess]) *)

(** [authmgrStatusCalbackMapEntryGet] *)
Definition authmgrStatusCalbackMapEntryGet (status : AUTHMGR_STATUS_t) : Z → authmgrAuthRespParams_t → P RC_t :=
  match status with
  | AUTHMGR_NEW_CLIENT => authmgrNewClientAction
  | AUTHMGR_AUTH_FAIL => authmgrStatusNotSuccessAction
  | AUTHMGR_AUTH_SUCCESS => authmgrStatusSuccessAction
  | AUTHMGR_AUTH_TIMEOUT => authmgrStatusNotSuccessAction
  | AUTHMGR_AUTH_SERVER_COMM_FAILURE => authmgrStatusServerCommFailAction
  | AUTHMGR_CLIENT_DISCONNECTED => authmgrStatusDisconnectAction
  | AUTHMGR_METHOD_CHANGE => authmgrStatusAuthModifyAction
  end.

(** The first check of a result or a disconnection: the client must be known, on this
    port; [Some] is what the function returns *)
Definition client_known (intIfNum : Z) (cp : authmgrAuthRespParams_t) : P (option RC_t) :=
  '(rc, l) ← authmgrMacAddrInfoFind (rp_macAddr cp) 0;
  if negb (is_SUCCESS rc) || (l =? 0) then mret (Some SUCCESS)
  else
    p ← authmgrLogicalPortInfoGet l;
    if (p =? NULLPTR) || (AUTHMGR_PORT_GET l =? intIfNum) then mret None
    else
      call_ (nimGetIntfName (AUTHMGR_PORT_GET l));; call_ (nimGetIntfName intIfNum);;
      mret (Some FAILURE).

(** The disconnection of a client *)
Definition client_disconnected (intIfNum : Z) (cp : authmgrAuthRespParams_t) : P RC_t :=
  '(rc, l) ← authmgrMacAddrInfoFind (rp_macAddr cp) 0;
  if is_SUCCESS rc then
    p ← authmgrLogicalPortInfoGet l;
    if p =? NULLPTR then mret FAILURE
    else
      n ← node p;
      let c := lp_client n in
      ignored ← (if (cl_logicalPortStatus c ==? AUTHMGR_PORT_STATUS_AUTHORIZED)
                    && negb (cl_authenticatedMethod c =? rp_method cp)
                    && negb (cl_authenticatedMethod c =? AUTHMGR_METHOD_NONE)
                 then rc ← authmgrPriorityPrecedenceValidate intIfNum (cl_authenticatedMethod c) (rp_method cp);
                      mret (negb (is_SUCCESS rc))
                 else mret false);
      when (negb ignored) (_ ← authmgrClientInfoCleanup p; mret tt);;
      mret SUCCESS
  else
    _ ← notify (rp_method cp) intIfNum authmgrClientDisconnect (rp_macAddr cp) SUCCESS;
    mret SUCCESS.

(** A result that the state of the client makes stale *)
Definition result_ignored (intIfNum p : Z) (cp : authmgrAuthRespParams_t) : P bool :=
  match rp_status cp with
  | AUTHMGR_AUTH_SUCCESS | AUTHMGR_AUTH_FAIL | AUTHMGR_AUTH_TIMEOUT =>
      call_ (nimGetIntfName intIfNum);;
      n ← node p;
      mret ((pr_authState (lp_protocol n) ==? AUTHMGR_HELD)
            || ((pr_authState (lp_protocol n) ==? AUTHMGR_AUTHENTICATED)
                && negb (cl_authenticatedMethod (lp_client n) =? rp_method cp)))
  | _ => mret false
  end.

(** The rest of the function, for the logical port of the client *)
Definition client_event (intIfNum l : Z) (existing : bool) (cp : authmgrAuthRespParams_t) : P RC_t :=
  p ← authmgrLogicalPortInfoGet l;
  if p =? NULLPTR then mret FAILURE
  else
    when (negb existing) (n ← node p; _ ← authmgrGenerateEvents (lp_key n); mret tt);;
    p ← (if rp_eapolVersion cp =? 0 then mret p else authmgrLogicalPortInfoGet l);
    if p =? NULLPTR then mret FAILURE
    else
      when (negb (rp_eapolVersion cp =? 0)) (client_upd p (set cl_rcvdEapolVersion (λ _, rp_eapolVersion cp)));;
      ignored ← result_ignored intIfNum p cp;
      if (ignored : bool) then mret SUCCESS
      else authmgrStatusCalbackMapEntryGet (rp_status cp) l cp.

(** [authmgrClientCallbackEventProcess] for a port and a status other than
    [AUTHMGR_METHOD_CHANGE] *)
Definition client_callback (intIfNum : Z) (cp : authmgrAuthRespParams_t) : P RC_t :=
  b ← authmgrIsValidIntf intIfNum;
  if negb b then mret FAILURE
  else
    i ← port intIfNum;
    if negb (pi_paeCapabilities i =? DOT1X_PAE_PORT_AUTH_CAPABLE) then mret SUCCESS
    else
      stop ← match rp_status cp with
             | AUTHMGR_AUTH_FAIL | AUTHMGR_AUTH_TIMEOUT | AUTHMGR_CLIENT_DISCONNECTED => client_known intIfNum cp
             | _ => mret None
             end;
      match stop with
      | Some rc => mret rc
      | None =>
          match rp_status cp with
          | AUTHMGR_CLIENT_DISCONNECTED => client_disconnected intIfNum cp
          | _ =>
              res ← authmgrCheckMapPdu intIfNum (rp_macAddr cp);
              match res with
              | None => _ ← notify (rp_method cp) intIfNum authmgrClientDisconnect (rp_macAddr cp) SUCCESS; mret SUCCESS
              | Some (l, existing) => client_event intIfNum l existing cp
              end
          end
      end.

(** [authmgrClientCallbackEventProcess], for one port *)
Definition authmgrClientCallbackEventProcess (intIfNum : Z) (cp : authmgrAuthRespParams_t) : P RC_t :=
  admin ← gets g_adminMode;
  if negb admin then mret SUCCESS
  else match rp_status cp with
  | AUTHMGR_METHOD_CHANGE =>
      when (negb (rp_enableStatus cp)) (call_ osapiSleep100);;
      _ ← authmgrStatusAuthModifyAction intIfNum cp; mret SUCCESS
  | _ => client_callback intIfNum cp
  end.

(** ** Timers ([protocol/auth_mgr_timer.c]) *)

(** [authmgrReAuthWhenExpiryAction] *)
Definition authmgrReAuthWhenExpiryAction (p : Z) : P RC_t :=
  if p =? NULLPTR then mret FAILURE
  else
    n ← node p;
    let physPort := AUTHMGR_PORT_GET (lp_key n) in
    let c := lp_client n in
    if pr_authState (lp_protocol n) ==? AUTHMGR_AUTHENTICATING then mret SUCCESS
    else
      cb ← callback (cl_authenticatedMethod c);
      purge ← (if mc_eventNotifyFn cb then
                 i ← port physPort;
                 mret (pi_reAuthPeriodServer i && (cl_terminationAction c =? RADIUS_TERMINATION_ACTION_DEFAULT))
               else mret false);
      if (purge : bool) then _ ← authmgrClientInfoCleanup p; mret SUCCESS
      else
        _ ← notify (cl_authenticatedMethod c) physPort authmgrClientReAuthenticate (cl_suppMacAddr c) FAILURE;
        protocol_upd p (λ x, no_result (x <| pr_reauth := true |>));;
        _ ← authmgrGenerateEvents (lp_key n);
        mret SUCCESS.
(** [authmgrQwhileExpiryAction] *)
Definition authmgrQwhileExpiryAction (p : Z) : P RC_t :=
  if p =? NULLPTR then mret FAILURE
  else
    protocol_upd p (set pr_heldTimerExpired (λ _, true));;
    n ← node p;
    _ ← authmgrGenerateEvents (lp_key n);
    mret SUCCESS.
(** [authmgrTimerExpiryAction], for the context [(type, keyNum)] of a timer *)
Definition authmgrTimerExpiryAction (type : authmgrTimerType_t) (keyNum : Z) : P unit :=
  p ← authmgrLogicalPortInfoGet keyNum;
  if p =? NULLPTR then mret tt
  else
    n ← node p;
    modify (set g_oldInfo (λ _, lp_client n));;
    call_ (appTimerDelete (tm_handle (lp_timer n)));;
    node_upd p (set lp_timer (set tm_handle (λ _, 0)));;
    match authmgrTimerHandlerInfoGet type with
    | None => mret tt
    | Some entry =>
        _ ← match te_expiryFn entry with
            | authmgrQwhileExpiry => authmgrQwhileExpiryAction p
            | authmgrReAuthWhenExpiry => authmgrReAuthWhenExpiryAction p
            end;
        mret tt
    end.

(** ** Management and VLAN changes *)

(** [authmgrCtlLogicalPortReauthenticateSet] *)
Definition authmgrCtlLogicalPortReauthenticateSet (lIntIfNum : Z) : P RC_t :=
  admin ← gets g_adminMode;
  if negb admin then mret SUCCESS
  else
    p ← authmgrLogicalPortInfoGet lIntIfNum;
    if p =? NULLPTR then mret FAILURE
    else
      n ← node p;
      if lp_key n =? 0 then mret SUCCESS
      else if negb (pr_authState (lp_protocol n) ==? AUTHMGR_AUTHENTICATED) then mret SUCCESS
      else
        client_upd p (set cl_reAuthenticate (λ _, true));;
        protocol_upd p (set pr_reauth (λ _, true));;
        authmgrStateMachineEvent authmgrReauthenticate lIntIfNum.
(** [authmgrCtlPortReauthenticateSet] *)
Definition authmgrCtlPortReauthenticateSet (intIfNum : Z) : P RC_t :=
  admin ← gets g_adminMode;
  if negb admin then mret SUCCESS
  else for_each_lport intIfNum (λ l _ _, rc ← authmgrCtlLogicalPortReauthenticateSet l; mret (rc, true)) SUCCESS.

(** [authmgrCtlApplyLogicalPortConfigData] and [authmgrCtlLogicalPortInitializeSet] *)
Definition authmgrCtlApplyLogicalPortConfigData (lIntIfNum : Z) : P RC_t :=
  i ← port (AUTHMGR_PORT_GET lIntIfNum);
  when ((pi_portControlMode i ==? AUTHMGR_PORT_AUTO) || negb (pi_portEnabled i))
    (_ ← authmgrLogicalPortInfoInit lIntIfNum; mret tt);;
  mret SUCCESS.
Definition authmgrCtlLogicalPortInitializeSet (lIntIfNum : Z) : P RC_t :=
  admin ← gets g_adminMode;
  if negb admin then mret SUCCESS
  else
    p ← authmgrLogicalPortInfoGet lIntIfNum;
    if p =? NULLPTR then mret SUCCESS else authmgrCtlApplyLogicalPortConfigData lIntIfNum.

(** [authmgrPortInfoCleanup] *)
Definition authmgrPortInfoCleanup (intIfNum : Z) : P RC_t :=
  cfg ← authmgrIntfIsConfigurable intIfNum;
  match cfg with
  | None => mret SUCCESS
  | Some _ =>
      for_each_lport intIfNum (λ _ p _,
        n ← node p;
        when (negb (lp_key n =? 0)) (_ ← authmgrClientInfoCleanup p; mret tt);;
        mret (tt, true)) tt;;
      mret SUCCESS
  end.

(** The removal of the authorized clients of a port that [leave] selects *)
Definition clients_leave (intIfNum : Z) (leave : authmgrClientInfo_t → bool) : P unit :=
  for_each_lport intIfNum (λ _ p _,
    n ← node p;
    when ((cl_logicalPortStatus (lp_client n) ==? AUTHMGR_PORT_STATUS_AUTHORIZED) && leave (lp_client n))
      (_ ← authmgrClientInfoCleanup p; mret tt);;
    mret (tt, true)) tt.
(** [authmgrVlanConfPortDeleteProcess] *)
Definition authmgrVlanConfPortDeleteProcess (intIfNum vlanId : Z) : P RC_t :=
  i ← port intIfNum;
  when (pi_portControlMode i ==? AUTHMGR_PORT_AUTO)
    (clients_leave intIfNum (λ c, (vlanId =? cl_vlanId c) && cl_vlanTypePortCfg c));;
  mret SUCCESS.
(** The end of [authmgrVlanPortDeleteProcess], after the notification is saved, and
    the round of [authmgrVlanConfDeleteProcess] for a port *)
Definition vlan_clients_leave (intIfNum vlanId : Z) : P RC_t :=
  i ← port intIfNum;
  when (pi_portControlMode i ==? AUTHMGR_PORT_AUTO) (clients_leave intIfNum (λ c, vlanId =? cl_vlanId c));;
  mret SUCCESS.
(** [authmgrVlanPVIDChangeEventProcess] *)
Definition authmgrVlanPVIDChangeEventProcess (physPort vlanId : Z) : P RC_t :=
  i ← port physPort;
  if (pi_portControlMode i ==? AUTHMGR_PORT_AUTO) && (authmgrHostIsDynamicNodeAllocCheck (pi_hostMode i)).2 then
    for_each_lport physPort (λ _ p rc,
      n ← node p;
      if lp_key n =? 0 then mret (rc, false)
      else if cl_logicalPortStatus (lp_client n) ==? AUTHMGR_PORT_STATUS_AUTHORIZED
      then rc ← authmgrClientInfoCleanup p; mret (rc, true)
      else mret (rc, true)) FAILURE
  else mret FAILURE.
(** [authmgrVlanTypeModifyHandle]; a client whose node is removed is passed over all
    the same, since the loop goes by the key *)
Definition authmgrVlanTypeModifyHandle (intIfNum : Z) (vlanType : authmgrVlanType_t) : P RC_t :=
  for_each_lport intIfNum (λ _ p _,
    n ← node p;
    when (vlanType ==? cl_vlanType (lp_client n)) (_ ← authmgrClientInfoCleanup p; mret tt);;
    mret (tt, true)) tt;;
  mret SUCCESS.

(** ** The configured methods ([mapping/auth_mgr_api.c]) *)

(** [authmgrPortAuthMethodOrderValidate] *)
Definition authmgrPortAuthMethodOrderValidate (intIfNum index method : Z) : P RC_t :=
  b ← authmgrIsValidIntf intIfNum;
  if negb b then mret FAILURE
  else
    cfg ← authmgrIntfIsConfigurable intIfNum;
    match cfg with
    | None => mret FAILURE
    | Some pCfg =>
        if (method =? AUTHMGR_METHOD_NONE) || (index =? 0) then mret SUCCESS
        else
          m ← method_at (pc_methodList pCfg) (Z.to_nat (index - 1));
          mret (if m =? AUTHMGR_METHOD_NONE then FAILURE else SUCCESS)
    end.

(** The list of a mode *)
Definition cfg_list (mode : AUTHMGR_METHOD_TYPE_t) (c : authmgrPortCfg_t) : list Z :=
  match mode with AUTHMGR_TYPE_ORDER => pc_methodList c | AUTHMGR_TYPE_PRIORITY => pc_priorityList c end.
Definition cfg_list_set (mode : AUTHMGR_METHOD_TYPE_t) (l : list Z) (c : authmgrPortCfg_t) : authmgrPortCfg_t :=
  match mode with
  | AUTHMGR_TYPE_ORDER => c <| pc_methodList := l |>
  | AUTHMGR_TYPE_PRIORITY => c <| pc_priorityList := l |>
  end.
(** [list[j] = method] and [AUTHMGR_METHOD_NONE] from [index] on *)
Definition method_store (l : list Z) (index method : Z) : P (list Z) :=
  let j := Z.to_nat (u32 (index - 1)) in
  _ ← method_at l j;
  if (index <? Z.of_nat AUTHMGR_METHOD_MAX) && (length l <? AUTHMGR_METHOD_MAX)%nat then fail OutOfBounds
  else
    mret (take (Z.to_nat index) (<[j := method]> l)
          ++ replicate (AUTHMGR_METHOD_MAX - Z.to_nat index) AUTHMGR_METHOD_NONE
          ++ drop (Nat.max (Z.to_nat index) AUTHMGR_METHOD_MAX) l).
(** [authmgrPortAuthMethodSet] *)
Definition authmgrPortAuthMethodSet (mode : AUTHMGR_METHOD_TYPE_t) (intIfNum index method : Z) : P RC_t :=
  b ← authmgrIsValidIntf intIfNum;
  if negb b then mret FAILURE
  else
    cfg ← authmgrIntfIsConfigurable intIfNum;
    match cfg with
    | None => mret FAILURE
    | Some pCfg =>
        if (index <? AUTHMGR_METHOD_START) || (index >? Z.of_nat AUTHMGR_METHOD_MAX) then mret FAILURE
        else if negb (method =? AUTHMGR_METHOD_8021X) && negb (method =? AUTHMGR_METHOD_MAB)
                && negb (method =? AUTHMGR_METHOD_NONE) then mret FAILURE
        else
          let j := u32 (index - 1) in
          valid ← (if mode is AUTHMGR_TYPE_ORDER then authmgrPortAuthMethodOrderValidate intIfNum j method else mret SUCCESS);
          if valid ==? FAILURE then mret ERROR
          else
            let l := cfg_list mode pCfg in
            m ← method_at l (Z.to_nat j);
            if m =? method then mret SUCCESS
            else
              l' ← method_store l index method;
              modify (set g_portCfg (<[intIfNum := cfg_list_set mode l' pCfg]>));;
              r ← call (authmgrIssueMethodModify mode intIfNum);
              mret (r_rc r)
    end.
(** [authmgrPortAuthMethodGet]: the code and [*method] *)
Definition authmgrPortAuthMethodGet (mode : AUTHMGR_METHOD_TYPE_t) (intIfNum index : Z) : P (RC_t + Z) :=
  b ← authmgrIsValidIntf intIfNum;
  if negb b then mret (inl FAILURE)
  else
    cfg ← authmgrIntfIsConfigurable intIfNum;
    match cfg with
    | None => mret (inl FAILURE)
    | Some pCfg =>
        if (index <? AUTHMGR_METHOD_START) || (index >? Z.of_nat AUTHMGR_METHOD_MAX) then mret (inl FAILURE)
        else
          m ← method_at (cfg_list mode pCfg) (Z.to_nat (u32 (index - 1)));
          mret (inr m)
    end.
End events.
