(* ===== verification/PacConfig.v ===== *)
(** * The authentication manager: ports, interfaces and the messages of the task

    What management and the interface manager do to a port: its initialization, its
    control mode and its host mode ([mapping/auth_mgr_control.c]), the life of an
    interface ([mapping/auth_mgr_ih.c]), the interfaces in turn
    ([fpinfra/nim/nim_intf_map_api.c], [mapping/auth_mgr_api.c]) and the VLANs
    ([protocol/auth_mgr_vlan.c], [protocol/auth_mgr_vlan_db.c]).  Then the messages of
    the task, with every case of [authmgrDispatchCmd], [authmgrBulkDispatchCmd] and
    [authmgrVlanDispatchCmd].  The members [initialize], [portStatus] and [nimStatus]
    of a port, [authmgrVlanMask] and [authmgrMapTbl] are written but never read here. *)

From S2P Require Import Prelude CMem CString PacState PacPort PacClient PacSm PacEvents.
#[local] Open Scope Z_scope.

Section config.
Context `{!Headers}.

(** ** The interfaces in turn *)

(** The loops of the interface manager over [n] numbers from [i] on *)
Fixpoint nim_scan (n : nat) (physical : bool) (i : Z) : P (option Z) :=
  match n with
  | O => mret None
  | S n' =>
      r ← call (nimPorts i physical);
      if r_flag r then mret (Some i) else nim_scan n' physical (i + 1)
  end.
Definition nim_first (physical : bool) : P (option Z) :=
  r ← call nimPhaseStatusCheck;
  if r_flag r then nim_scan (Z.to_nat platIntfTotalMaxCount) physical 1 else mret None.
Definition nim_next (physical : bool) (intIfNum : Z) : P (option Z) :=
  r ← call nimPhaseStatusCheck;
  if r_flag r then nim_scan (Z.to_nat (platIntfTotalMaxCount - intIfNum)) physical (intIfNum + 1) else mret None.
Definition nimFirstValidIntfNumber : P (option Z) := nim_first false.
Definition nimNextValidIntfNumber : Z → P (option Z) := nim_next false.
(** [nimFirstValidIntfNumberByType] and [nimNextValidIntfNumberByType], of [PHYSICAL_INTF] *)
Definition nimFirstValidIntfNumberByType : P (option Z) := nim_first true.
Definition nimNextValidIntfNumberByType : Z → P (option Z) := nim_next true.

(** The loop of [authmgrNextValidIntf]; a round moves to a larger number *)
Fixpoint next_valid (fuel : nat) (intIfNum : Z) : P (option Z) :=
  match fuel with
  | O => fail OutOfFuel
  | S f =>
      r ← nimNextValidIntfNumberByType intIfNum;
      match r with
      | None => mret None
      | Some i => b ← authmgrIsValidIntf i; if (b : bool) then mret (Some i) else next_valid f i
      end
  end.
Definition authmgrNextValidIntf (intIfNum : Z) : P (option Z) :=
  next_valid (S (Z.to_nat (platIntfTotalMaxCount - intIfNum))) intIfNum.
Definition authmgrFirstValidIntfNumber : P (option Z) :=
  r ← nimFirstValidIntfNumberByType;
  match r with
  | None => mret None
  | Some i => b ← authmgrIsValidIntf i; if (b : bool) then mret (Some i) else authmgrNextValidIntf i
  end.

(** [while (rc == SUCCESS) { body; rc = next (i, &i); }] from the number [cur] on; [body] may
    make the function return.  The numbers grow up to [platIntfTotalMaxCount]. *)
Fixpoint intf_loop (fuel : nat) (next : Z → P (option Z)) (cur : option Z) (body : Z → P (option RC_t)) :
    P (option RC_t) :=
  match cur with
  | None => mret None
  | Some i =>
      match fuel with
      | O => fail OutOfFuel
      | S f =>
          r ← body i;
          match r with
          | Some rc => mret (Some rc)
          | None => cur ← next i; intf_loop f next cur body
          end
      end
  end.
Definition for_each_intf (first : P (option Z)) (next : Z → P (option Z)) (body : Z → P (option RC_t)) :
    P (option RC_t) :=
  cur ← first; intf_loop (Z.to_nat platIntfTotalMaxCount) next cur body.
(** The loops whose body does not return *)
Definition each_port (body : Z → P unit) : P unit :=
  _ ← for_each_intf authmgrFirstValidIntfNumber authmgrNextValidIntf (λ i, body i;; mret None); mret tt.
Definition each_interface (body : Z → P unit) : P unit :=
  _ ← for_each_intf nimFirstValidIntfNumber nimNextValidIntfNumber (λ i, body i;; mret None); mret tt.

(** ** Ports that authentication does not control ([protocol/auth_mgr_utils.c]) *)

(** What the two functions share *)
Definition port_status_set (intIfNum : Z) (learning : Z → P RC_t) (frame : P unit) : P RC_t :=
  cfg ← authmgrIntfIsConfigurable intIfNum;
  match cfg with
  | None => mret FAILURE
  | Some _ =>
      r ← call (nimGetIntfState intIfNum);
      if negb (r_flag r) then mret FAILURE
      else
        _ ← authmgrIhPhyPortViolationCallbackSet intIfNum AUTHMGR_PORT_VIOLATION_CALLBACK_DISABLE;
        _ ← learning intIfNum;
        frame;;
        mret SUCCESS
  end.
Definition authmgrPhysicalPortStatusOpenSet (intIfNum : Z) : P RC_t :=
  port_status_set intIfNum authmgrPortForceAuthLearningModify
    (authmgrTxCannedSuccess intIfNum AUTHMGR_PHYSICAL_PORT).
Definition authmgrPhysicalPortStatusBlockSet (intIfNum : Z) : P RC_t :=
  port_status_set intIfNum authmgrPortForceUnauthLearningModify
    (authmgrTxCannedFail intIfNum AUTHMGR_PHYSICAL_PORT).
(** The choice between the two by [portEnabled] *)
Definition port_status_by_link (intIfNum : Z) : P unit :=
  i ← port intIfNum;
  _ ← (if pi_portEnabled i then authmgrPhysicalPortStatusOpenSet intIfNum
       else authmgrPhysicalPortStatusBlockSet intIfNum);
  mret tt.
(** [authmgrPhysicalPortAccessSet]; the states are [0] when they could not be read *)
Definition authmgrPhysicalPortAccessSet (intIfNum : Z) : P RC_t :=
  cfg ← authmgrIntfIsConfigurable intIfNum;
  match cfg with
  | None => mret FAILURE
  | Some _ =>
      r ← call (nimGetIntfState intIfNum);
      if negb (r_flag r) then mret FAILURE
      else
        link ← call (nimGetIntfLinkState intIfNum);
        admin ← call (nimGetIntfAdminState intIfNum);
        _ ← (if is_SUCCESS (r_rc link) && is_SUCCESS (r_rc admin) && (UP =? r_num link) && (ENABLE =? r_num admin)
             then authmgrPhysicalPortStatusOpenSet intIfNum else authmgrPhysicalPortStatusBlockSet intIfNum);
        mret SUCCESS
  end.

(** ** The VLANs of a port that is taken over ([protocol/auth_mgr_vlan_db.c]) *)

(** The notification and the flag; [rc] is returned without such an interface *)
Definition vlan_hand_over (intIfNum : Z) (acquire : bool) (rc : RC_t) : P RC_t :=
  r ← call (nimCheckIfNumber intIfNum);
  if negb (is_SUCCESS (r_rc r)) then mret rc
  else
    name ← call (nimGetIntfName intIfNum);
    if negb (is_SUCCESS (r_rc name)) then mret FAILURE
    else
      m ← gets g_portVlans;
      pCfg ← from_option_or OutOfBounds (m !! intIfNum);
      r ← call (pacCfgVlanSendCfgNotification (negb acquire) (r_bytes name) pCfg);
      if negb (is_SUCCESS (r_rc r)) then mret FAILURE
      else call_ (pacCfgIntfAcquireSet (r_bytes name) acquire);; mret SUCCESS.
Definition authmgrVlanAcquirePort (intIfNum : Z) : P RC_t := vlan_hand_over intIfNum true FAILURE.
Definition authmgrVlanReleasePort (intIfNum : Z) : P RC_t := vlan_hand_over intIfNum false SUCCESS.

(** ** The initialization of a port *)

Definition AUTHMGR_MULTI_HOST_MODE_MAX_USERS : Z := 1.
Definition AUTHMGR_SINGLE_AUTH_MODE_MAX_USERS : Z := 1.

(** [authmgrMaxUsersGet]: [None] is [FAILURE] *)
Definition authmgrMaxUsersGet (intIfNum : Z) : P (option Z) :=
  cfg ← authmgrIntfIsConfigurable intIfNum;
  mret (match cfg with
        | None => None
        | Some pCfg =>
            match pc_hostMode pCfg with
            | AUTHMGR_MULTI_HOST_MODE => Some AUTHMGR_MULTI_HOST_MODE_MAX_USERS
            | AUTHMGR_SINGLE_AUTH_MODE => Some AUTHMGR_SINGLE_AUTH_MODE_MAX_USERS
            | AUTHMGR_MULTI_AUTH_MODE => Some (pc_maxUsers pCfg)
            | AUTHMGR_INVALID_HOST_MODE => None
            end
        end).

(** [portEnabled]: is the link up and the interface enabled? *)
Definition link_usable (intIfNum : Z) : P bool :=
  link ← call (nimGetIntfLinkState intIfNum);
  if is_SUCCESS (r_rc link) && (r_num link =? UP) then
    admin ← call (nimGetIntfAdminState intIfNum);
    mret (is_SUCCESS (r_rc admin) && (r_num admin =? ENABLE))
  else mret false.

(** The end of [authmgrPortInfoInitialize], after the members are cleared *)
Definition port_info_fill (intIfNum : Z) (pCfg : authmgrPortCfg_t) : P unit :=
  port_upd intIfNum (λ _, port_zero <| pi_maxUsers := AUTHMGR_LOGICAL_PORT_END |>);;
  enabled ← link_usable intIfNum;
  port_upd intIfNum (set pi_portEnabled (λ _, enabled));;
  maxUsers ← (if pc_portControlMode pCfg ==? AUTHMGR_PORT_AUTO then authmgrMaxUsersGet intIfNum else mret (Some 1));
  port_upd intIfNum (λ i, i <| pi_maxUsers ::= λ n, default n maxUsers |>
    <| pi_quietPeriod := pc_quietPeriod pCfg |> <| pi_reAuthPeriod := pc_reAuthPeriod pCfg |>
    <| pi_reAuthPeriodServer := pc_reAuthPeriodServer pCfg |> <| pi_reAuthEnabled := pc_reAuthEnabled pCfg |>
    <| pi_authFailRetryMaxCount := pc_maxAuthAttempts pCfg |> <| pi_paeCapabilities := pc_paeCapabilities pCfg |>).

(** [authmgrPortInfoInitialize] *)
Definition authmgrPortInfoInitialize (intIfNum : Z) : P RC_t :=
  cfg ← authmgrIntfIsConfigurable intIfNum;
  match cfg with
  | None => mret SUCCESS
  | Some pCfg =>
      i ← port intIfNum;
      rc ← (if u16 (pi_pvid i) =? 0 then mret SUCCESS else authmgrPortPvidSet intIfNum 0);
      named ← (if is_SUCCESS rc then mret true
               else r ← call (nimGetIntfName intIfNum); mret (is_SUCCESS (r_rc r)));
      if (named : bool) then port_info_fill intIfNum pCfg;; mret SUCCESS else mret FAILURE
  end.
(** [authmgrPortReset] ([mapping/auth_mgr_cfg.c]) *)
Definition authmgrPortReset (intIfNum : Z) : P RC_t := _ ← authmgrPortInfoInitialize intIfNum; mret SUCCESS.

(** [authmgrIntfOperBuildDefault] *)
Definition authmgrIntfOperBuildDefault (intIfNum : Z) : P unit :=
  port_upd intIfNum (λ _, port_zero
    <| pi_portControlMode := FD_AUTHMGR_PORT_MODE |> <| pi_hostMode := FD_AUTHMGR_HOST_MODE |>
    <| pi_quietPeriod := FD_AUTHMGR_RESTART_TIMER_VAL |> <| pi_reAuthPeriod := FD_AUTHMGR_PORT_REAUTH_PERIOD |>
    <| pi_reAuthEnabled := FD_AUTHMGR_PORT_REAUTH_ENABLED |>
    <| pi_reAuthPeriodServer := FD_AUTHMGR_PORT_REAUTH_PERIOD_FROM_SERVER |>
    <| pi_maxUsers := AUTHMGR_LOGICAL_PORT_END |>
    <| pi_authFailRetryMaxCount := FD_AUTHMGR_RADIUS_MAX_AUTH_ATTEMPTS |>
    <| pi_paeCapabilities := FD_AUTHMGR_PORT_PAE_CAPABILITIES |>).

(** [for (i = 0; i < AUTHMGR_METHOD_MAX; i++) list[i] = buildFdList[i]] *)
Definition default_list (l : list Z) : P (list Z) :=
  if (length FD_AUTHMGR_LIST <? AUTHMGR_METHOD_MAX)%nat || (length l <? AUTHMGR_METHOD_MAX)%nat then fail OutOfBounds
  else mret (take AUTHMGR_METHOD_MAX FD_AUTHMGR_LIST ++ drop AUTHMGR_METHOD_MAX l).
(** [authmgrBuildDefaultIntfConfigData] ([mapping/auth_mgr_cfg.c]) *)
Definition authmgrBuildDefaultIntfConfigData (c : authmgrPortCfg_t) : P authmgrPortCfg_t :=
  methods ← default_list (pc_methodList c);
  priority ← default_list (pc_priorityList c);
  mret (c <| pc_portControlMode := FD_AUTHMGR_PORT_MODE |> <| pc_hostMode := FD_AUTHMGR_HOST_MODE |>
    <| pc_quietPeriod := FD_AUTHMGR_RESTART_TIMER_VAL |> <| pc_reAuthPeriod := FD_AUTHMGR_PORT_REAUTH_PERIOD |>
    <| pc_reAuthEnabled := FD_AUTHMGR_PORT_REAUTH_ENABLED |>
    <| pc_reAuthPeriodServer := FD_AUTHMGR_PORT_REAUTH_PERIOD_FROM_SERVER |>
    <| pc_maxUsers := AUTHMGR_LOGICAL_PORT_END |> <| pc_maxAuthAttempts := FD_AUTHMGR_RADIUS_MAX_AUTH_ATTEMPTS |>
    <| pc_paeCapabilities := FD_AUTHMGR_PORT_PAE_CAPABILITIES |>
    <| pc_methodList := methods |> <| pc_priorityList := priority |>).

(** ** Control modes and host modes *)

(** [authmgrHostModeHwPolicyApply] *)
Definition authmgrHostModeHwPolicyApply (hostMode : AUTHMGR_HOST_CONTROL_t) (intIfNum : Z) (install : bool) : P RC_t :=
  let valid := match hostMode with AUTHMGR_INVALID_HOST_MODE => false | _ => true end in
  _ ← authmgrIhPhyPortViolationCallbackSet intIfNum
        (if install && valid then AUTHMGR_PORT_VIOLATION_CALLBACK_ENABLE else AUTHMGR_PORT_VIOLATION_CALLBACK_DISABLE);
  mret SUCCESS.

(** The functions of the host modes *)
Definition host_mode_set (hostMode : AUTHMGR_HOST_CONTROL_t) (intIfNum : Z) : P RC_t :=
  cfg ← authmgrIntfIsConfigurable intIfNum;
  match cfg with
  | None => mret SUCCESS
  | Some _ =>
      port_upd intIfNum (set pi_hostMode (λ _, hostMode));;
      authmgrIhPhysicalPortStatusSet intIfNum AUTHMGR_PORT_STATUS_UNAUTHORIZED
  end.
Definition authmgrControlMultiHostActionSet : Z → P RC_t := host_mode_set AUTHMGR_MULTI_HOST_MODE.
Definition authmgrControlSingleAuthActionSet : Z → P RC_t := host_mode_set AUTHMGR_SINGLE_AUTH_MODE.
Definition authmgrControlMultAuthActionSet : Z → P RC_t := host_mode_set AUTHMGR_MULTI_AUTH_MODE.
(** [authmgrHostModeMapInfoGet] *)
Definition authmgrHostModeMapInfoGet (type : AUTHMGR_HOST_CONTROL_t) : option (Z → P RC_t) :=
  match type with
  | AUTHMGR_SINGLE_AUTH_MODE => Some authmgrControlSingleAuthActionSet
  | AUTHMGR_MULTI_HOST_MODE => Some authmgrControlMultiHostActionSet
  | AUTHMGR_MULTI_AUTH_MODE => Some authmgrControlMultAuthActionSet
  | AUTHMGR_INVALID_HOST_MODE => None
  end.

(** The loops that tell the methods *)
Definition tell_methods (fn : authmgrMethodCallbackNotifyMap_t → bool) (c : Z → pcall) : P unit :=
  mforeach (seqZ 0 (Z.of_nat AUTHMGR_METHOD_MAX)) (λ m, cb ← callback m; when (fn cb) (call_ (c m))).
(** A host mode is set; the methods are told [told] *)
Definition host_mode_apply (intIfNum : Z) (hostMode told : AUTHMGR_HOST_CONTROL_t) : P RC_t :=
  match authmgrHostModeMapInfoGet hostMode with
  | None => mret FAILURE
  | Some hostModeFn =>
      rc ← hostModeFn intIfNum;
      tell_methods mc_hostCtrlFn (λ m, hostCtrlFn m intIfNum told);;
      mret rc
  end.

(** [authmgrPortControlAutoActionSet]; the methods are told the initial value of [hostMode] *)
Definition authmgrPortControlAutoActionSet (intIfNum : Z) : P RC_t :=
  cfg ← authmgrIntfIsConfigurable intIfNum;
  match cfg with
  | None => mret SUCCESS
  | Some pCfg =>
      port_upd intIfNum (set pi_portControlMode (λ _, AUTHMGR_PORT_AUTO));;
      host_mode_apply intIfNum (pc_hostMode pCfg) AUTHMGR_INVALID_HOST_MODE
  end.

(** The logical port of a port that is forced, and the frame *)
Definition force_port (intIfNum : Z) (status : AUTHMGR_PORT_STATUS_t) (frame : Z → P unit) : P RC_t :=
  cfg ← authmgrIntfIsConfigurable intIfNum;
  match cfg with
  | None => mret SUCCESS
  | Some _ =>
      port_upd intIfNum (set pi_hostMode (λ _, AUTHMGR_INVALID_HOST_MODE));;
      p ← authmgrLogicalPortInfoAlloc intIfNum;
      if p =? NULLPTR then mret FAILURE
      else
        _ ← authmgrClientStatusSet p status;
        n ← node p;
        frame (lp_key n);;
        mret SUCCESS
  end.
Definition authmgrPortControlForceAuthActionSet (intIfNum : Z) : P RC_t :=
  force_port intIfNum AUTHMGR_PORT_STATUS_AUTHORIZED (λ l, authmgrTxCannedSuccess l AUTHMGR_LOGICAL_PORT).
Definition authmgrPortControlForceUnAuthActionSet (intIfNum : Z) : P RC_t :=
  force_port intIfNum AUTHMGR_PORT_STATUS_UNAUTHORIZED (λ l, authmgrTxCannedFail l AUTHMGR_LOGICAL_PORT).

Definition control_mode_store (intIfNum : Z) (portControl : AUTHMGR_PORT_CONTROL_t) : P unit :=
  port_upd intIfNum (set pi_portControlMode (λ _, portControl)).
(** The switch of [authmgrPortCtrlModeSet]: [inl] of what the function returns at once *)
Definition control_mode_apply (intIfNum : Z) (portControl : AUTHMGR_PORT_CONTROL_t) : P (RC_t + RC_t) :=
  match portControl with
  | AUTHMGR_PORT_FORCE_UNAUTHORIZED =>
      control_mode_store intIfNum portControl;;
      _ ← authmgrVlanAcquirePort intIfNum;
      rc ← authmgrPortControlForceUnAuthActionSet intIfNum; mret (inr rc)
  | AUTHMGR_PORT_FORCE_AUTHORIZED =>
      r ← call (nimGetIntfName intIfNum);
      if negb (is_SUCCESS (r_rc r)) then mret (inl FAILURE)
      else
        i ← port intIfNum;
        if negb (pi_portEnabled i) then _ ← authmgrVlanReleasePort intIfNum; mret (inl SUCCESS)
        else
          control_mode_store intIfNum portControl;;
          _ ← authmgrPortPvidSet intIfNum 0;
          _ ← authmgrVlanReleasePort intIfNum;
          rc ← authmgrPortControlForceAuthActionSet intIfNum; mret (inr rc)
  | AUTHMGR_PORT_AUTO =>
      control_mode_store intIfNum portControl;;
      _ ← authmgrVlanAcquirePort intIfNum;
      _ ← authmgrIhPhysicalPortStatusSet intIfNum AUTHMGR_PORT_STATUS_UNAUTHORIZED;
      rc ← authmgrPortControlAutoActionSet intIfNum; mret (inr rc)
  | AUTHMGR_PORT_CONTROL_INVALID | AUTHMGR_PORT_NA => mret (inr FAILURE)
  end.
(** [authmgrPortCtrlModeSet] *)
Definition authmgrPortCtrlModeSet (intIfNum : Z) (portControl : AUTHMGR_PORT_CONTROL_t) : P RC_t :=
  cfg ← authmgrIntfIsConfigurable intIfNum;
  match cfg with
  | None => mret SUCCESS
  | Some _ =>
      _ ← authmgrHostModeHwPolicyApply AUTHMGR_INVALID_HOST_MODE intIfNum false;
      res ← control_mode_apply intIfNum portControl;
      match res with
      | inl rc => mret rc
      | inr rc => tell_methods mc_portCtrlFn (λ m, portCtrlFn m intIfNum portControl);; mret rc
      end
  end.

(** [authmgrCtlApplyPortConfigData] *)
Definition authmgrCtlApplyPortConfigData (intIfNum : Z) : P RC_t :=
  cfg ← authmgrIntfIsConfigurable intIfNum;
  match cfg with
  | None => mret SUCCESS
  | Some pCfg =>
      _ ← authmgrPortInfoInitialize intIfNum;
      i ← port intIfNum;
      if negb (pi_paeCapabilities i =? DOT1X_PAE_PORT_AUTH_CAPABLE) then mret SUCCESS
      else
        _ ← authmgrMethodOrderChangeProcess intIfNum;
        _ ← authmgrPortCtrlModeSet intIfNum (pc_portControlMode pCfg);
        mret SUCCESS
  end.

(** ** Commands about a port *)

(** [if (adminMode != ENABLE) return SUCCESS] *)
Definition if_admin (k : P RC_t) : P RC_t := admin ← gets g_adminMode; if (admin : bool) then k else mret SUCCESS.

(** [authmgrCtlPortControlModeSet] *)
Definition authmgrCtlPortControlModeSet (intIfNum : Z) (portControl : AUTHMGR_PORT_CONTROL_t) : P RC_t :=
  if_admin (
    cfg ← authmgrIntfIsConfigurable intIfNum;
    match cfg with
    | None => mret SUCCESS
    | Some _ =>
        i ← port intIfNum;
        if negb (pi_paeCapabilities i =? DOT1X_PAE_PORT_AUTH_CAPABLE) then mret SUCCESS
        else if portControl ==? pi_portControlMode i then mret SUCCESS
        else
          _ ← authmgrPortInfoCleanup intIfNum;
          _ ← authmgrPortInfoInitialize intIfNum;
          _ ← authmgrMethodOrderChangeProcess intIfNum;
          authmgrPortCtrlModeSet intIfNum portControl
    end).

(** [authmgrPortCtrlHostModeSet] *)
Definition authmgrPortCtrlHostModeSet (intIfNum : Z) (hostMode : AUTHMGR_HOST_CONTROL_t) : P RC_t :=
  if_admin (
    cfg ← authmgrIntfIsConfigurable intIfNum;
    match cfg with
    | None => mret SUCCESS
    | Some pCfg =>
        i ← port intIfNum;
        if negb (pi_portControlMode i ==? AUTHMGR_PORT_AUTO) then mret FAILURE
        else if hostMode ==? pi_hostMode i then
          when (hostMode ==? AUTHMGR_MULTI_AUTH_MODE) (port_upd intIfNum (set pi_maxUsers (λ _, pc_maxUsers pCfg)));;
          mret SUCCESS
        else
          _ ← authmgrHostModeHwPolicyApply AUTHMGR_INVALID_HOST_MODE intIfNum false;
          _ ← authmgrPortInfoCleanup intIfNum;
          _ ← authmgrPortInfoInitialize intIfNum;
          _ ← authmgrMethodOrderChangeProcess intIfNum;
          control_mode_store intIfNum AUTHMGR_PORT_AUTO;;
          host_mode_apply intIfNum hostMode hostMode
    end).

(** [authmgrDot1xPortPaeCapabilitiesGet] ([mapping/auth_mgr_dot1x.c]) *)
Definition authmgrDot1xPortPaeCapabilitiesGet (intIfNum : Z) : P Z := i ← port intIfNum; mret (pi_paeCapabilities i).
(** [authmgrCtlPortInitializeSet] *)
Definition authmgrCtlPortInitializeSet (intIfNum : Z) : P RC_t :=
  if_admin (
    _ ← authmgrPortInfoCleanup intIfNum;
    paeCapabilities ← authmgrDot1xPortPaeCapabilitiesGet intIfNum;
    if paeCapabilities =? DOT1X_PAE_PORT_AUTH_CAPABLE then authmgrCtlApplyPortConfigData intIfNum else mret SUCCESS).

(** [authmgrPaeCapabilitiesEventProcess]; the member is a byte *)
Definition authmgrPaeCapabilitiesEventProcess (intIfNum mode : Z) : P RC_t :=
  ready ← gets g_ready;
  if negb ready then mret SUCCESS
  else
    b ← authmgrIsValidIntf intIfNum;
    if negb b then mret FAILURE
    else
      i ← port intIfNum;
      if mode =? pi_paeCapabilities i then mret SUCCESS
      else
        when (pi_paeCapabilities i =? DOT1X_PAE_PORT_AUTH_CAPABLE) (_ ← authmgrPortInfoCleanup intIfNum; mret tt);;
        port_upd intIfNum (set pi_paeCapabilities (λ _, u8 mode));;
        if mode =? DOT1X_PAE_PORT_AUTH_CAPABLE then _ ← authmgrCtlApplyPortConfigData intIfNum; mret SUCCESS
        else
          _ ← authmgrIhPhysicalPortStatusSet intIfNum AUTHMGR_PORT_STATUS_AUTHORIZED;
          r ← call (nimGetIntfName intIfNum);
          if negb (is_SUCCESS (r_rc r)) then mret FAILURE
          else
            _ ← authmgrPortPvidSet intIfNum 0;
            _ ← authmgrVlanReleasePort intIfNum;
            port_status_by_link intIfNum;;
            call_ (pacCfgVlanMemberRemove 1 (r_bytes r));;
            mret SUCCESS.

(** [authmgrViolationModeSetAction] *)
Definition authmgrViolationModeSetAction (intIfNum mode : Z) : P RC_t :=
  ready ← gets g_ready;
  if negb ready then mret SUCCESS
  else
    b ← authmgrIsValidIntf intIfNum;
    if negb b then mret FAILURE
    else
      i ← port intIfNum;
      when (negb (mode =? pi_violationMode i)) (port_upd intIfNum (set pi_violationMode (λ _, mode)));;
      mret SUCCESS.

(** [authmgrCtlPortQuietPeriodSet] *)
Definition authmgrCtlPortQuietPeriodSet (intIfNum quietPeriod : Z) : P RC_t :=
  if_admin (port_upd intIfNum (set pi_quietPeriod (λ _, quietPeriod));; mret SUCCESS).
(** [authmgrCtlPortReAuthPeriodSet] *)
Definition authmgrCtlPortReAuthPeriodSet (intIfNum val : Z) (reAuthPeriodServer : bool) : P RC_t :=
  if_admin (
    port_upd intIfNum (λ i, i <| pi_reAuthPeriodServer := reAuthPeriodServer |> <| pi_reAuthPeriod := val |>);;
    for_each_lport intIfNum (λ _ p _,
      i ← port intIfNum;
      when (pi_reAuthEnabled i) (_ ← authmgrTimerStart p AUTHMGR_REAUTH_WHEN; mret tt);;
      mret (tt, true)) tt;;
    mret SUCCESS).
(** [authmgrCtlPortReAuthEnabledSet]; the clients get the flag of before *)
Definition authmgrCtlPortReAuthEnabledSet (intIfNum : Z) (reAuthEnabled : bool) : P RC_t :=
  if_admin (
    i ← port intIfNum;
    if eqb reAuthEnabled (pi_reAuthEnabled i) then mret SUCCESS
    else
      for_each_lport intIfNum (λ _ p _,
        i ← port intIfNum;
        client_upd p (set cl_reAuthenticate (λ _, pi_reAuthEnabled i));;
        n ← node p;
        when (cl_logicalPortStatus (lp_client n) ==? AUTHMGR_PORT_STATUS_AUTHORIZED)
          (if reAuthEnabled then _ ← authmgrTimerStart p AUTHMGR_REAUTH_WHEN; mret tt
           else when (tm_type (lp_timer n) ==? AUTHMGR_REAUTH_WHEN)
                  (_ ← authmgrTimerDestroy p AUTHMGR_REAUTH_WHEN; mret tt));;
        mret (tt, true)) tt;;
      port_upd intIfNum (set pi_reAuthEnabled (λ _, reAuthEnabled));;
      mret SUCCESS).

(** [memset (&authmgrPortStats[intIfNum], 0, ..)] *)
Definition stats_clear (intIfNum : Z) : P unit :=
  m ← gets g_portStats;
  _ ← from_option_or OutOfBounds (m !! intIfNum);
  modify (set g_portStats (<[intIfNum := stats_zero]>)).
(** [authmgrCtlPortStatsClear] *)
Definition authmgrCtlPortStatsClear (intIfNum : Z) : P RC_t := if_admin (stats_clear intIfNum;; mret SUCCESS).

(** [authmgrCtlPortMaxUsersSet] *)
Definition authmgrCtlPortMaxUsersSet (intIfNum maxUsers : Z) : P RC_t :=
  if_admin (
    i ← port intIfNum;
    if pi_hostMode i ==? AUTHMGR_MULTI_AUTH_MODE then
      port_upd intIfNum (set pi_maxUsers (λ _, maxUsers));;
      if (pi_portControlMode i ==? AUTHMGR_PORT_AUTO) && (maxUsers <? pi_numUsers i) then
        _ ← authmgrPortInfoCleanup intIfNum;
        authmgrCtlApplyPortConfigData intIfNum
      else mret SUCCESS
    else mret SUCCESS).

(** [authmgrCtlPortReset] *)
Definition authmgrCtlPortReset (intIfNum : Z) : P RC_t :=
  if_admin (
    _ ← authmgrPortInfoCleanup intIfNum;
    _ ← authmgrPortCtrlModeSet intIfNum FD_AUTHMGR_PORT_MODE;
    authmgrIntfOperBuildDefault intIfNum;;
    mret SUCCESS).

(** ** The administrative mode *)

(** The body of the loop of [authmgrCtlAdminModeEnable] *)
Definition port_enable (intIfNum : Z) : P (option RC_t) :=
  cfg ← authmgrIntfIsConfigurable intIfNum;
  match cfg with
  | None => mret (Some FAILURE)
  | Some _ =>
      _ ← authmgrPortInfoInitialize intIfNum;
      i ← port intIfNum;
      (if pi_paeCapabilities i =? DOT1X_PAE_PORT_AUTH_CAPABLE
       then _ ← authmgrCtlApplyPortConfigData intIfNum; mret tt else port_status_by_link intIfNum);;
      mret None
  end.
(** [authmgrCtlAdminModeEnable]; [authmgrGlobalInfoPopulate] clears [authmgrVlanMask] *)
Definition authmgrCtlAdminModeEnable : P RC_t :=
  ready ← gets g_ready;
  if negb ready then mret SUCCESS
  else
    r ← call appTimerInit;
    modify (set g_timerCB (λ _, r_num r));;
    call_ eap_socket_create;;
    res ← for_each_intf authmgrFirstValidIntfNumber authmgrNextValidIntf port_enable;
    mret (default SUCCESS res).
(** [authmgrCtlAdminModeDisable] *)
Definition authmgrCtlAdminModeDisable : P RC_t :=
  ready ← gets g_ready;
  if negb ready then mret SUCCESS
  else
    each_port (λ i,
      _ ← authmgrPortInfoCleanup i;
      _ ← authmgrPhysicalPortAccessSet i;
      port_upd i (set pi_enabledMethods (λ _, replicate AUTHMGR_METHOD_LAST 0)));;
    t ← gets g_timerCB;
    when (negb (t =? NULLPTR)) (call_ (appTimerDeInit t);; modify (set g_timerCB (λ _, NULLPTR)));;
    mret SUCCESS.
(** [authmgrCtlApplyConfigData] *)
Definition authmgrCtlApplyConfigData : P RC_t :=
  admin ← gets g_adminMode;
  _ ← (if (admin : bool) then authmgrCtlAdminModeEnable else authmgrCtlAdminModeDisable);
  mret SUCCESS.

(** ** Interfaces ([mapping/auth_mgr_ih.c]) *)

Definition port_cfg (intIfNum : Z) : P authmgrPortCfg_t :=
  m ← gets g_portCfg; from_option_or OutOfBounds (m !! intIfNum).
Definition port_cfg_set (intIfNum : Z) (c : authmgrPortCfg_t) : P unit := modify (set g_portCfg (<[intIfNum := c]>)).

(** [authmgrIntfCreate] *)
Definition authmgrIntfCreate (intIfNum : Z) : P RC_t :=
  b ← authmgrIsValidIntf intIfNum;
  if negb b then mret FAILURE
  else
    r ← call (nimConfigIdGet intIfNum);
    if negb (is_SUCCESS (r_rc r)) then mret FAILURE
    else
      pCfg ← port_cfg intIfNum;
      when (negb (r_num r =? pc_configId pCfg)) (
        c ← authmgrBuildDefaultIntfConfigData (pCfg <| pc_configId := r_num r |>);
        port_cfg_set intIfNum c);;
      _ ← port intIfNum;
      _ ← authmgrCtlPortStatsClear intIfNum;
      mret SUCCESS.
(** [authmgrIntfDetach] *)
Definition authmgrIntfDetach (intIfNum : Z) : P RC_t :=
  cfg ← authmgrIntfIsConfigurable intIfNum;
  match cfg with
  | None => mret SUCCESS
  | Some _ =>
      _ ← authmgrPortInfoCleanup intIfNum;
      i ← port intIfNum;
      when (pi_paeCapabilities i =? DOT1X_PAE_PORT_AUTH_CAPABLE)
        (_ ← authmgrCtlApplyPortConfigData intIfNum; mret tt);;
      mret SUCCESS
  end.
(** [authmgrIntfDelete] *)
Definition authmgrIntfDelete (intIfNum : Z) : P RC_t :=
  cfg ← authmgrIntfIsConfigurable intIfNum;
  match cfg with
  | None => mret SUCCESS
  | Some _ =>
      _ ← authmgrPortInfoCleanup intIfNum;
      pCfg ← port_cfg intIfNum;
      port_cfg_set intIfNum (pCfg <| pc_configId := 0 |>);;
      port_upd intIfNum (λ _, port_zero);;
      stats_clear intIfNum;;
      mret SUCCESS
  end.

(** The body of [authmgrIntfStart] between the states of the interface and the end; it is
    called with [warmRestart == FALSE] and changes nothing else then *)
Definition intf_restart (intIfNum : Z) : P RC_t :=
  _ ← authmgrPortReset intIfNum;
  i ← port intIfNum;
  if pi_paeCapabilities i =? DOT1X_PAE_PORT_AUTH_CAPABLE then authmgrCtlApplyPortConfigData intIfNum else mret SUCCESS.
(** [authmgrIntfStart]; [portLinkState] is not initialised: after a failure it is what the
    call left there *)
Definition authmgrIntfStart (intIfNum : Z) : P RC_t :=
  cfg ← authmgrIntfIsConfigurable intIfNum;
  match cfg with
  | None => mret FAILURE
  | Some pCfg =>
      if negb (pc_paeCapabilities pCfg =? DOT1X_PAE_PORT_AUTH_CAPABLE) then
        _ ← authmgrPhysicalPortAccessSet intIfNum; mret SUCCESS
      else
        link ← call (nimGetIntfLinkState intIfNum);
        rc ← (if negb (is_SUCCESS (r_rc link)) then mret (r_rc link)
              else
                admin ← call (nimGetIntfAdminState intIfNum);
                if negb (is_SUCCESS (r_rc admin)) then mret (r_rc admin) else intf_restart intIfNum);
        i ← port intIfNum;
        when ((pi_authCount i =? 0) && (r_num link =? DOWN))
          (_ ← authmgrPhysicalPortStatusBlockSet intIfNum; mret tt);;
        mret rc
  end.
(** [f] of the interfaces that are physical *)
Definition if_valid (f : Z → P RC_t) (intIfNum : Z) : P unit :=
  b ← authmgrIsValidIntf intIfNum; when b (_ ← f intIfNum; mret tt).
(** [authmgrIntfActivateStartup] *)
Definition authmgrIntfActivateStartup : P RC_t := each_interface (if_valid authmgrIntfStart);; mret SUCCESS.

(** [NIM_STARTUP_PHASE_t] *)
Inductive NIM_STARTUP_PHASE_t : Type :=
  NIM_INTERFACE_CREATE_STARTUP | NIM_INTERFACE_ACTIVATE_STARTUP | NIM_STARTUP_OTHER.
(** [authmgrIhProcessIntfStartup] *)
Definition authmgrIhProcessIntfStartup (startup_phase : NIM_STARTUP_PHASE_t) : P RC_t :=
  match startup_phase with
  | NIM_INTERFACE_CREATE_STARTUP =>
      each_interface (if_valid authmgrIntfCreate);; call_ (nimRegisterIntfEvents true)
  | NIM_INTERFACE_ACTIVATE_STARTUP =>
      _ ← authmgrIntfActivateStartup; call_ (nimRegisterIntfEvents false);; call_ osapiTaskInitDone
  | NIM_STARTUP_OTHER => mret tt
  end;;
  call_ nimStartupEventDone;;
  mret SUCCESS.

(** The events of an interface *)
Inductive intfEvent_t : Type :=
  INTF_UP | INTF_PORT_ENABLE | INTF_DOWN | INTF_PORT_DISABLE | INTF_CREATE | INTF_ATTACH | INTF_DETACH | INTF_DELETE
| INTF_OTHER.

(** The case of [UP] and [PORT_ENABLE] *)
Definition intf_up (intIfNum : Z) : P unit :=
  cfg ← authmgrIntfIsConfigurable intIfNum;
  match cfg with
  | None => mret tt
  | Some pCfg =>
      port_upd intIfNum (set pi_portEnabled (λ _, false));;
      link ← call (nimGetIntfLinkState intIfNum);
      enabled ← (if is_SUCCESS (r_rc link) then
                   admin ← call (nimGetIntfAdminState intIfNum);
                   if is_SUCCESS (r_rc admin) && (r_num admin =? ENABLE) then
                     link ← call (nimGetIntfLinkState intIfNum);
                     mret (is_SUCCESS (r_rc link) && (r_num link =? UP))
                   else mret false
                 else mret false);
      if negb (pc_paeCapabilities pCfg =? DOT1X_PAE_PORT_AUTH_CAPABLE) then
        port_upd intIfNum (set pi_portEnabled (λ _, enabled));; port_status_by_link intIfNum
      else
        i ← port intIfNum;
        when ((pi_paeCapabilities i =? DOT1X_PAE_PORT_AUTH_CAPABLE) && enabled && negb (pi_portEnabled i)) (
          port_upd intIfNum (set pi_portEnabled (λ _, true));;
          _ ← authmgrPortInfoCleanup intIfNum;
          _ ← authmgrPortReset intIfNum;
          _ ← authmgrCtlApplyPortConfigData intIfNum;
          mret tt)
  end.
(** The case of [DOWN] and [PORT_DISABLE] *)
Definition intf_down (intIfNum : Z) : P unit :=
  cfg ← authmgrIntfIsConfigurable intIfNum;
  match cfg with
  | None => mret tt
  | Some pCfg =>
      if negb (pc_paeCapabilities pCfg =? DOT1X_PAE_PORT_AUTH_CAPABLE) then
        _ ← authmgrPhysicalPortStatusBlockSet intIfNum; mret tt
      else
        i ← port intIfNum;
        when (pi_portEnabled i) (
          port_upd intIfNum (set pi_portEnabled (λ _, false));;
          for_each_lport intIfNum (λ _ p _, _ ← node p; mret (tt, true)) tt;;
          i ← port intIfNum;
          when (pi_portControlMode i ==? AUTHMGR_PORT_AUTO) (_ ← authmgrPortInfoCleanup intIfNum; mret tt));;
        _ ← authmgrPhysicalPortStatusBlockSet intIfNum; mret tt
  end.
(** The case of [ATTACH] *)
Definition intf_attach (intIfNum : Z) : P RC_t :=
  cfg ← authmgrIntfIsConfigurable intIfNum;
  match cfg with
  | None => mret FAILURE
  | Some pCfg =>
      when (pc_paeCapabilities pCfg =? DOT1X_PAE_PORT_AUTH_CAPABLE) (_ ← authmgrPortReset intIfNum; mret tt);;
      mret SUCCESS
  end.
(** [authmgrIhProcessIntfChange] *)
Definition authmgrIhProcessIntfChange (intIfNum : Z) (intfEvent : intfEvent_t) : P RC_t :=
  ready ← gets g_ready;
  rc ← (if negb ready then mret FAILURE
        else
          b ← authmgrIsValidIntf intIfNum;
          if negb b then mret SUCCESS
          else match intfEvent with
          | INTF_UP | INTF_PORT_ENABLE => intf_up intIfNum;; mret SUCCESS
          | INTF_DOWN | INTF_PORT_DISABLE => intf_down intIfNum;; mret SUCCESS
          | INTF_CREATE => authmgrIntfCreate intIfNum
          | INTF_ATTACH => intf_attach intIfNum
          | INTF_DETACH => authmgrIntfDetach intIfNum
          | INTF_DELETE => authmgrIntfDelete intIfNum
          | INTF_OTHER => mret SUCCESS
          end);
  call_ (nimEventStatusCallback intIfNum rc);;
  mret rc.

(** ** VLANs ([protocol/auth_mgr_vlan.c], [protocol/auth_mgr_vlan_db.c]) *)

Definition vlan_valid (vlan : Z) : bool := negb ((vlan <? DOT1Q_MIN_VLAN_ID) || (vlan >? DOT1Q_MAX_VLAN_ID)).
(** [authmgrVlanAddLocalUpdate] and [authmgrVlanDeleteLocalUpdate] *)
Definition authmgrVlanAddLocalUpdate (vlan : Z) : P RC_t :=
  if negb (vlan_valid vlan) then mret FAILURE
  else modify (set g_stateVlanMask (λ m, {[vlan]} ∪ m));; mret SUCCESS.
Definition authmgrVlanDeleteLocalUpdate (vlan : Z) : P RC_t :=
  if negb (vlan_valid vlan) then mret FAILURE
  else modify (set g_stateVlanMask (λ m, m ∖ {[vlan]}));; mret SUCCESS.
(** The change of the VLANs of a port in both functions below *)
Definition port_vlans_upd (vlan intIfNum : Z) (f : gset Z * gset Z → gset Z * gset Z) : P RC_t :=
  if negb (vlan_valid vlan) then mret FAILURE
  else
    r ← call (nimCheckIfNumber intIfNum);
    if negb (is_SUCCESS (r_rc r)) then mret FAILURE
    else
      m ← gets g_statePortVlans;
      x ← from_option_or OutOfBounds (m !! intIfNum);
      modify (set g_statePortVlans (<[intIfNum := f x]>));;
      mret SUCCESS.
Definition authmgrVlanPortAddLocalUpdate (vlan intIfNum : Z) (tagged : bool) : P RC_t :=
  port_vlans_upd vlan intIfNum (λ x, ({[vlan]} ∪ x.1, if tagged then {[vlan]} ∪ x.2 else x.2)).
Definition authmgrVlanPortDeleteLocalUpdate (vlan intIfNum : Z) : P RC_t :=
  port_vlans_upd vlan intIfNum (λ x, (x.1 ∖ {[vlan]}, x.2 ∖ {[vlan]})).

(** [authmgrVlanPortAddProcess] and [authmgrVlanAddProcess] *)
Definition authmgrVlanPortAddProcess (intIfNum vlanId : Z) (tagged : bool) : P RC_t :=
  cfg ← authmgrIntfIsConfigurable intIfNum;
  match cfg with
  | None => mret FAILURE
  | Some _ => _ ← authmgrVlanPortAddLocalUpdate vlanId intIfNum tagged; _ ← port intIfNum; mret SUCCESS
  end.
Definition authmgrVlanAddProcess (vlanId : Z) : P RC_t := _ ← authmgrVlanAddLocalUpdate vlanId; mret SUCCESS.
(** [authmgrVlanPortDeleteProcess] *)
Definition authmgrVlanPortDeleteProcess (intIfNum vlanId : Z) : P RC_t :=
  cfg ← authmgrIntfIsConfigurable intIfNum;
  match cfg with
  | None => mret FAILURE
  | Some _ => _ ← authmgrVlanPortDeleteLocalUpdate vlanId intIfNum; vlan_clients_leave intIfNum vlanId
  end.
(** [authmgrVlanDeleteProcess] *)
Definition authmgrVlanDeleteProcess (vlanId : Z) : P RC_t :=
  each_port (λ i, _ ← authmgrVlanPortDeleteProcess i vlanId; mret tt);;
  _ ← authmgrVlanDeleteLocalUpdate vlanId;
  mret SUCCESS.
(** [authmgrVlanConfDeleteProcess] *)
Definition authmgrVlanConfDeleteProcess (vlanId : Z) : P RC_t :=
  each_port (λ i, _ ← vlan_clients_leave i vlanId; mret tt);; mret SUCCESS.

(** ** Messages *)

(** [authmgrTimerAction]; [expired] are the contexts of the timers for which
    [appTimerProcess] calls [authmgrTimerExpiryAction] *)
Definition authmgrTimerAction (expired : list (authmgrTimerType_t * Z)) : P RC_t :=
  ready ← gets g_ready;
  if negb ready then mret SUCCESS
  else if_admin (mforeach expired (λ x, authmgrTimerExpiryAction x.1 x.2);; mret SUCCESS).

(** [authmgrRadiusResponseProcess] ([protocol/auth_mgr_radius.c]); it frees the attributes *)
Definition authmgrRadiusResponseProcess (lIntIfNum : Z) : P RC_t :=
  if_admin (
    p ← authmgrLogicalPortInfoGet lIntIfNum;
    if p =? NULLPTR then mret FAILURE
    else
      cfg ← authmgrIntfIsConfigurable (AUTHMGR_PORT_GET lIntIfNum);
      match cfg with
      | None => mret FAILURE
      | Some _ => _ ← node p; mret FAILURE
      end).

(** The messages of [authmgrDispatchCmd], one constructor for each event of its switch *)
Inductive pac_cmd : Type :=
| authmgrIntfChange (intf : Z) (intfEvent : intfEvent_t)
| authmgrIntfStartup (startupPhase : NIM_STARTUP_PHASE_t)
| authmgrTimeTick (expired : list (authmgrTimerType_t * Z))
| authmgrMgmtAdminModeEnable
| authmgrMgmtAdminModeDisable
| authmgrMgmtPortInitializeSet (intf : Z)
| authmgrMgmtLogicalPortInitializeSet (lIntIfNum : Z)
| authmgrMgmtPortReauthenticateSet (intf : Z)
| authmgrMgmtLogicalPortReauthenticateSet (lIntIfNum : Z)
| authmgrMgmtPortControlModeSet (intf : Z) (portControl : AUTHMGR_PORT_CONTROL_t)
| authmgrPaeCapabilitiesEvent (intf mode : Z)
| authmgrViolationModeSet (intf mode : Z)
| authmgrMgmtHostControlModeSet (intf : Z) (hostMode : AUTHMGR_HOST_CONTROL_t)
| authmgrMgmtPortQuietPeriodSet (intf quietPeriod : Z)
| authmgrMgmtPortReAuthPeriodSet (intf val : Z) (reAuthPeriodServer : bool)
| authmgrMgmtPortReAuthEnabledSet (intf : Z) (reAuthEnabled : bool)
| authmgrMgmtPortStatsClear (intf : Z)
| authmgrMgmtApplyConfigData
| authmgrMgmtApplyPortConfigData (intf : Z)
| authmgrMgmtPortMaxUsersSet (intf maxUsers : Z)
| authmgrAuthMethodCallbackEvent (intf : Z) (cp : authmgrAuthRespParams_t)
| authmgrClientTimeout (lIntIfNum : Z)
| authmgrDelDuplicateEntry (lIntIfNum : Z)
| authmgrClientCleanup (lIntIfNum : Z)
| authmgrAddMacInMacDB (lIntIfNum : Z)
| authmgrAaaInfoReceived (lIntIfNum : Z)
| authmgrAuthenticationStart (lIntIfNum : Z)
| authmgrMethodOrderModify (intf : Z)
| authmgrMethodPriorityModify (intf : Z)
| authmgrCtlPortInfoReset (intf : Z)
| authmgrUnhandled  (** an event without a case *).

Definition authmgrDispatchCmd (msg : pac_cmd) : P RC_t :=
  modify (set g_oldInfo (λ _, client_zero));;
  match msg with
  | authmgrIntfChange i ev => authmgrIhProcessIntfChange i ev
  | authmgrIntfStartup phase => authmgrIhProcessIntfStartup phase
  | authmgrTimeTick expired => authmgrTimerAction expired
  | authmgrMgmtAdminModeEnable => authmgrCtlAdminModeEnable
  | authmgrMgmtAdminModeDisable => authmgrCtlAdminModeDisable
  | authmgrMgmtPortInitializeSet i => authmgrCtlPortInitializeSet i
  | authmgrMgmtLogicalPortInitializeSet l => authmgrCtlLogicalPortInitializeSet l
  | authmgrMgmtPortReauthenticateSet i => authmgrCtlPortReauthenticateSet i
  | authmgrMgmtLogicalPortReauthenticateSet l => authmgrCtlLogicalPortReauthenticateSet l
  | authmgrMgmtPortControlModeSet i mode => authmgrCtlPortControlModeSet i mode
  | authmgrPaeCapabilitiesEvent i mode => authmgrPaeCapabilitiesEventProcess i mode
  | authmgrViolationModeSet i mode => authmgrViolationModeSetAction i mode
  | authmgrMgmtHostControlModeSet i mode => authmgrPortCtrlHostModeSet i mode
  | authmgrMgmtPortQuietPeriodSet i v => authmgrCtlPortQuietPeriodSet i v
  | authmgrMgmtPortReAuthPeriodSet i v server => authmgrCtlPortReAuthPeriodSet i v server
  | authmgrMgmtPortReAuthEnabledSet i b => authmgrCtlPortReAuthEnabledSet i b
  | authmgrMgmtPortStatsClear i => authmgrCtlPortStatsClear i
  | authmgrMgmtApplyConfigData => authmgrCtlApplyConfigData
  | authmgrMgmtApplyPortConfigData i => authmgrCtlApplyPortConfigData i
  | authmgrMgmtPortMaxUsersSet i v => authmgrCtlPortMaxUsersSet i v
  | authmgrAuthMethodCallbackEvent i cp => authmgrClientCallbackEventProcess i cp
  | authmgrClientTimeout l | authmgrDelDuplicateEntry l => authmgrCtlLogicalPortClientTimeout l
  | authmgrClientCleanup l => authmgrCtlClientCleanup l
  | authmgrAddMacInMacDB l => authmgrAddMac l
  | authmgrAaaInfoReceived l => authmgrRadiusResponseProcess l
  | authmgrAuthenticationStart l => _ ← authmgrAuthenticationInitiate l; mret FAILURE
  | authmgrMethodOrderModify i | authmgrMethodPriorityModify i => authmgrMethodModifyAction i
  | authmgrCtlPortInfoReset i => authmgrCtlPortReset i
  | authmgrUnhandled => mret FAILURE
  end.

(** The events of [authmgrVlanDispatchCmd] *)
Inductive vlan_event : Type :=
| authmgrVlanDeleteEvent (vlanId : Z)
| authmgrVlanAddEvent (vlanId : Z)
| authmgrVlanAddPortEvent (intf vlanId : Z) (tagged : bool)
| authmgrVlanDeletePortEvent (intf vlanId : Z)
| authmgrVlanPvidChangeEvent (intf vlanId : Z)
| authmgrVlanConfDeleteEvent (vlanId : Z)
| authmgrVlanConfPortDeleteEvent (intf vlanId : Z).

(** [authmgrVlanChangeProcess]; its loop has one round *)
Definition authmgrVlanChangeProcess (ev : vlan_event) : P unit :=
  admin ← gets g_adminMode;
  when admin (
    _ ← match ev with
        | authmgrVlanDeleteEvent vlan => authmgrVlanDeleteProcess vlan
        | authmgrVlanAddEvent vlan => authmgrVlanAddProcess vlan
        | authmgrVlanAddPortEvent i vlan tagged => authmgrVlanPortAddProcess i vlan tagged
        | authmgrVlanDeletePortEvent i vlan => authmgrVlanPortDeleteProcess i vlan
        | authmgrVlanPvidChangeEvent i vlan => authmgrVlanPVIDChangeEventProcess i vlan
        | authmgrVlanConfDeleteEvent vlan => authmgrVlanConfDeleteProcess vlan
        | authmgrVlanConfPortDeleteEvent i vlan => authmgrVlanConfPortDeleteProcess i vlan
        end;
    mret tt).
Definition authmgrVlanDispatchCmd (ev : vlan_event) : P RC_t := authmgrVlanChangeProcess ev;; mret SUCCESS.

(** The messages of the three queues of the task; the one of [authmgrBulkDispatchCmd] is an
    address that is not authorized *)
Inductive pac_msg : Type :=
| PacCmd (msg : pac_cmd)
| PacUnauthAddr (intf : Z) (macAddr : list Z) (vlanId : Z)
| PacVlan (ev : vlan_event).

Definition authmgrBulkDispatchCmd (intf : Z) (macAddr : list Z) (vlanId : Z) : P RC_t :=
  authmgrCtlPortUnauthAddrCallbackProcess intf macAddr vlanId.
(** One turn of the loop of [authmgrTask], with the message it takes from its queues *)
Definition pac_handle (msg : pac_msg) : P RC_t :=
  modify (λ s, s <| g_processInfo := client_zero |> <| g_oldInfo := client_zero |>);;
  match msg with
  | PacCmd c => authmgrDispatchCmd c
  | PacUnauthAddr i mac vlan => authmgrBulkDispatchCmd i mac vlan
  | PacVlan ev => authmgrVlanDispatchCmd ev
  end.

(** A run of the task; a fault ends it *)
Fixpoint pac_run (msgs : list pac_msg) : P unit :=
  match msgs with
  | [] => mret tt
  | m :: msgs' => _ ← pac_handle m; pac_run msgs'
  end.
End config.
