(* ===== verification/PacFrame.v ===== *)
(** * The authentication manager: what a function leaves alone

    [runs Q m s]: run from [s], [m] does not run out of fuel, and if it returns, [Q]
    holds of the result and the state.  [pspec R m]: from every state, [m] runs to a
    state related to it by [R].  The strongest relation, [calm], keeps the logical
    ports as far as the state machine and the authorization go; the functions on
    ports, timers, VLANs and frames are calm, and what the other files prove about
    the machine follows from it. *)

From S2P Require Import Prelude CMem CString PacState PacPort PacClient PacSm PacEvents PacConfig.
#[local] Open Scope Z_scope.

(** The faults that a proof admits: all of them, or all but running out of fuel *)
Class Allows (F : fault → Prop) : Prop := allows f : f ≠ OutOfFuel → F f.
Definition total (f : fault) : Prop := f ≠ OutOfFuel.
Definition partial (f : fault) : Prop := True.
#[export] Instance total_allows : Allows total.
Proof. by intros f. Qed.
#[export] Instance partial_allows : Allows partial.
Proof. done. Qed.

Definition runs {A} (F : fault → Prop) (Q : A → authmgrCB_t → Prop) (m : P A) (s : authmgrCB_t) : Prop :=
  match m s with
  | Ok a s' => Q a s'
  | Fault f => F f
  end.
Definition pspec {A} (F : fault → Prop) (R : authmgrCB_t → authmgrCB_t → Prop) (m : P A) : Prop :=
  ∀ s, runs F (λ _, R s) m s.

(** ** Rules *)

Lemma bind_fault {A B} (m : P A) (k : A → P B) s f : m s = Fault f → (m ≫= k) s = Fault f.
Proof. unfold mbind, M_bind. by intros ->. Qed.
Lemma method_ok l j m s : l !! j = Some m → method_at l j s = Ok m s.
Proof. unfold method_at. by intros ->. Qed.

Section runs.
Context {F : fault → Prop} `{!Allows F}.

Lemma runs_ret {A} (Q : A → authmgrCB_t → Prop) a s : Q a s → runs F Q (mret a) s.
Proof. done. Qed.

Lemma runs_bind {A B} (Q : B → authmgrCB_t → Prop) (m : P A) (k : A → P B) s :
  runs F (λ a, runs F Q (k a)) m s → runs F Q (m ≫= k) s.
Proof. unfold runs, mbind, M_bind. by destruct (m s). Qed.

Lemma runs_mono {A} (Q Q' : A → authmgrCB_t → Prop) (m : P A) s :
  runs F Q m s → (∀ a s', Q a s' → Q' a s') → runs F Q' m s.
Proof. unfold runs. destruct (m s); auto. Qed.

Lemma runs_gets {A} (Q : A → authmgrCB_t → Prop) g s : Q (g s) s → runs F Q (gets g) s.
Proof. done. Qed.

Lemma runs_modify (Q : unit → authmgrCB_t → Prop) g s : Q tt (g s) → runs F Q (modify g) s.
Proof. done. Qed.

Lemma runs_option {A} (Q : A → authmgrCB_t → Prop) f o s :
  F f → (∀ a, o = Some a → Q a s) → runs F Q (from_option_or f o) s.
Proof. intros Hf H. destruct o; simpl; [by apply H|done]. Qed.

Lemma runs_port (Q : authmgrPortInfo_t → authmgrCB_t → Prop) i s :
  (∀ x, g_portInfo s !! i = Some x → Q x s) → runs F Q (port i) s.
Proof. intros H. unfold port. apply runs_bind, runs_gets, runs_option; [by apply allows|]. auto. Qed.

Lemma runs_node (Q : authmgrLogicalPortInfo_t → authmgrCB_t → Prop) p s :
  (∀ n, g_nodes s !! p = Some n → Q n s) → runs F Q (node p) s.
Proof.
  intros H. unfold node. apply runs_bind, runs_gets, runs_option; [|by auto]. apply allows. by destruct (p =? NULLPTR).
Qed.

Lemma runs_node_upd (Q : unit → authmgrCB_t → Prop) p f s :
  (∀ n, g_nodes s !! p = Some n → Q tt (s <| g_nodes ::= <[p := f n]> |>)) → runs F Q (node_upd p f) s.
Proof. intros H. unfold node_upd. apply runs_bind, runs_node. intros n Hn. by apply runs_modify, H. Qed.

Lemma runs_port_upd (Q : unit → authmgrCB_t → Prop) i f s :
  (∀ x, g_portInfo s !! i = Some x → Q tt (s <| g_portInfo ::= <[i := f x]> |>)) → runs F Q (port_upd i f) s.
Proof. intros H. unfold port_upd. apply runs_bind, runs_port. intros n Hn. by apply runs_modify, H. Qed.

Lemma runs_callback (Q : authmgrMethodCallbackNotifyMap_t → authmgrCB_t → Prop) m s :
  (∀ c, Q c s) → runs F Q (callback m) s.
Proof. intros H. unfold callback. apply runs_bind, runs_gets, runs_option; [by apply allows|]. auto. Qed.

End runs.

Section rules.
Context {F : fault → Prop} `{!Allows F} (R : authmgrCB_t → authmgrCB_t → Prop) `{!PreOrder R}.

Lemma pspec_ret {A} (a : A) : pspec F R (mret a).
Proof. intros s. apply runs_ret. reflexivity. Qed.

Lemma pspec_bind {A B} (m : P A) (k : A → P B) :
  pspec F R m → (∀ a, pspec F R (k a)) → pspec F R (m ≫= k).
Proof.
  intros Hm Hk s. apply runs_bind. eapply runs_mono; [apply Hm|]. intros a s' H1.
  eapply runs_mono; [apply Hk|]. intros b s'' H2. exact (transitivity H1 H2).
Qed.

Lemma pspec_read {A} (m : P A) : (∀ Q s, (∀ a, Q a s) → runs F Q m s) → pspec F R m.
Proof. intros H s. apply H. intros. reflexivity. Qed.

Lemma pspec_gets {A} (g : authmgrCB_t → A) : pspec F R (gets g).
Proof. intros s. apply runs_gets. reflexivity. Qed.

Lemma pspec_option {A} f (o : option A) : f ≠ OutOfFuel → pspec F R (from_option_or f o).
Proof. intros Hf s. apply runs_option; [by apply allows|]. intros. reflexivity. Qed.

Lemma pspec_port i : pspec F R (port i).
Proof. intros s. apply runs_port. intros. reflexivity. Qed.

Lemma pspec_node p : pspec F R (node p).
Proof. intros s. apply runs_node. intros. reflexivity. Qed.

Lemma pspec_callback m : pspec F R (callback m).
Proof. intros s. apply runs_callback. intros. reflexivity. Qed.

Lemma pspec_method_at l j : pspec F R (method_at l j).
Proof. by apply pspec_option. Qed.

Lemma pspec_fail {A} f : f ≠ OutOfFuel → pspec F R (@fail authmgrCB_t A f).
Proof. intros Hf s. unfold runs. simpl. by apply allows. Qed.

Lemma pspec_when b (m : P unit) : pspec F R m → pspec F R (when b m).
Proof. intros H. destruct b; [done|apply pspec_ret]. Qed.

(** With a property of the result *)
Lemma pspec_bind_post {A B} (Q : A → Prop) (m : P A) (k : A → P B) :
  (∀ s, runs F (λ a s', R s s' ∧ Q a) m s) → (∀ a, Q a → pspec F R (k a)) → pspec F R (m ≫= k).
Proof.
  intros Hm Hk s. apply runs_bind. eapply runs_mono; [apply Hm|]. intros a s' [H1 HQ].
  eapply runs_mono; [by apply Hk|]. intros b s'' H2. exact (transitivity H1 H2).
Qed.

Lemma calm_post_bind {A B} (Q : B → Prop) (m : P A) (k : A → P B) :
  pspec F R m → (∀ a s, runs F (λ b s', R s s' ∧ Q b) (k a) s) → ∀ s, runs F (λ b s', R s s' ∧ Q b) (m ≫= k) s.
Proof.
  intros Hm Hk s. apply runs_bind. eapply runs_mono; [apply Hm|]. intros a s' H1.
  eapply runs_mono; [by apply Hk|]. intros b s'' [H2 HQ]. split; [exact (transitivity H1 H2)|done].
Qed.

Lemma post_ret {A} (Q : A → Prop) a s : Q a → runs F (λ b s', R s s' ∧ Q b) (mret a) s.
Proof. intros HQ. apply runs_ret. split; [reflexivity|done]. Qed.

Lemma pspec_mforeach {A} (l : list A) (f : A → P unit) : (∀ x, pspec F R (f x)) → pspec F R (mforeach l f).
Proof. intros H. induction l as [|x l IH]; [apply pspec_ret|]. by apply pspec_bind. Qed.
End rules.

Lemma pspec_mono {A F} (R R' : authmgrCB_t → authmgrCB_t → Prop) (m : P A) :
  pspec F R m → (∀ s s', R s s' → R' s s') → pspec F R' m.
Proof. intros Hm Hi s. eapply runs_mono; [apply Hm|]. intros a s'. apply Hi. Qed.

(** ** Calm steps *)

(** A logical port up to what the driver, the timers and the accounting keep in it *)
Record calm_node (n n' : authmgrLogicalPortInfo_t) : Prop := {
  cn_key : lp_key n' = lp_key n;
  cn_protocol : lp_protocol n' <| pr_eapSuccess := false |> = lp_protocol n <| pr_eapSuccess := false |>;
  cn_current : cl_currentMethod (lp_client n') = cl_currentMethod (lp_client n);
  cn_method : cl_authenticatedMethod (lp_client n') = cl_authenticatedMethod (lp_client n);
  cn_status : cl_logicalPortStatus (lp_client n') = cl_logicalPortStatus (lp_client n);
  cn_mac : cl_suppMacAddr (lp_client n') = cl_suppMacAddr (lp_client n)
}.
(** A physical port up to its learning policy and its VLAN *)
Definition calm_port (i i' : authmgrPortInfo_t) : Prop :=
  i' <| pi_unLearnMacPolicy := false |> <| pi_pvid := 0 |> <| pi_authVlan := 0 |>
  = i <| pi_unLearnMacPolicy := false |> <| pi_pvid := 0 |> <| pi_authVlan := 0 |>.

Record calm (s s' : authmgrCB_t) : Prop := {
  calm_tree : g_tree s' = g_tree s;
  calm_free : g_free s' = g_free s;
  calm_nodes q : option_Forall2 calm_node (g_nodes s !! q) (g_nodes s' !! q);
  calm_ports i : option_Forall2 calm_port (g_portInfo s !! i) (g_portInfo s' !! i);
  calm_admin : g_adminMode s' = g_adminMode s;
  calm_ready : g_ready s' = g_ready s;
  calm_cfg : g_portCfg s' = g_portCfg s;
  calm_env : g_env s' = g_env s
}.

#[export] Instance calm_node_preorder : PreOrder calm_node.
Proof. split; [done|]. intros x y z [] []. split; congruence. Qed.
#[export] Instance calm_port_preorder : PreOrder calm_port.
Proof. unfold calm_port. split; [done|]. intros x y z H1 H2. congruence. Qed.
#[export] Instance calm_preorder : PreOrder calm.
Proof.
  split.
  - intros s. split; done.
  - intros s1 s2 s3 [] []. split; try congruence; intros; eapply transitivity; eauto.
Qed.

Lemma calm_same s s' :
  g_tree s' = g_tree s → g_free s' = g_free s → g_nodes s' = g_nodes s → g_portInfo s' = g_portInfo s →
  g_adminMode s' = g_adminMode s → g_ready s' = g_ready s → g_portCfg s' = g_portCfg s →
  g_env s' = g_env s → calm s s'.
Proof. intros H1 H2 H3 H4 H5 H6 H7 H8. split; try done; intros; by rewrite ?H3, ?H4. Qed.

Section steps.
Context {F : fault → Prop} `{!Allows F}.

Lemma calm_call c : pspec F calm (call c).
Proof. intros s. unfold runs, call. simpl. by apply calm_same. Qed.

Lemma calm_call_ c : pspec F calm (call_ c).
Proof. apply pspec_bind; [apply _|apply calm_call|]. intros. apply pspec_ret, _. Qed.

Lemma calm_node_upd p f : (∀ n, calm_node n (f n)) → pspec F calm (node_upd p f).
Proof.
  intros Hf s. apply runs_node_upd. intros n Hn. split; try done. intros q. simpl.
  destruct (decide (p = q)) as [->|Hne].
  - rewrite lookup_insert, Hn. case_decide; [by constructor|done].
  - by rewrite lookup_insert_ne.
Qed.

Lemma calm_port_upd i f : (∀ x, calm_port x (f x)) → pspec F calm (port_upd i f).
Proof.
  intros Hf s. apply runs_port_upd. intros x Hx. split; try done. intros q. simpl.
  destruct (decide (i = q)) as [->|Hne].
  - rewrite lookup_insert, Hx. case_decide; [by constructor|done].
  - by rewrite lookup_insert_ne.
Qed.

Lemma calm_modify f :
  (∀ s, calm s (f s)) → pspec F calm (modify f).
Proof. intros H s. by apply runs_modify. Qed.
End steps.

Create HintDb pac.
#[export] Hint Resolve pspec_ret pspec_gets pspec_port pspec_node pspec_callback pspec_method_at
  calm_call calm_call_ : pac.
#[export] Hint Extern 0 (PreOrder _) => apply _ : pac.
#[export] Hint Extern 0 (Allows _) => apply _ : pac.

(** One step of a proof that a program satisfies [pspec F R]: the rules for the
    constructs, then the lemmas of the database. *)
Ltac pac1 :=
  lazymatch goal with
  | |- pspec _ _ (_ ≫= _) => apply pspec_bind; [apply _| |intros]
  | |- pspec _ _ (when _ _) => apply pspec_when; [apply _|]
  | |- pspec _ _ (mforeach _ _) => apply pspec_mforeach; [apply _|intros]
  | |- pspec _ _ (from_option_or _ _) => apply pspec_option; [apply _|done]
  | |- pspec _ _ (fail _) => apply pspec_fail; done
  | |- pspec _ _ (node_upd _ _) => apply calm_node_upd; intros []; by split
  | |- pspec _ _ (client_upd _ _) => apply calm_node_upd; intros []; by split
  | |- pspec _ _ (port_upd _ _) => apply calm_port_upd; intros []; done
  | |- pspec _ _ (modify _) => apply calm_modify; intros; by apply calm_same
  | |- pspec _ _ (match ?x with _ => _ end) => destruct x
  | |- pspec _ _ (let '(_, _) := ?x in _) => destruct x
  end.
Ltac pac := repeat (first [solve [eauto 2 with pac]|pac1]).

(** ** Keys of logical ports *)

Lemma testbit_high v w n : 0 ≤ v < 2 ^ w → w ≤ n → Z.testbit v n = false.
Proof.
  intros Hv Hn. destruct (decide (v = 0)) as [->|]; [apply Z.bits_0|].
  apply Z.bits_above_log2; [lia|]. apply Z.log2_lt_pow2; [lia|].
  apply Z.lt_le_trans with (2 ^ w); [lia|]. apply Z.pow_le_mono_r; lia.
Qed.

(** The mask of [w] bits from [k] on *)
Lemma mask_bits w k n : 0 ≤ k → 0 ≤ n → Z.testbit (Z.shiftl (Z.ones w) k) (n + k) = bool_decide (n < w) || bool_decide (w < 0).
Proof.
  intros Hk Hn. rewrite Z.shiftl_spec by lia. replace (n + k - k) with n by lia.
  destruct (Z.neg_nonneg_cases w).
  - rewrite Z.ones_equiv, Z.pow_neg_r by done. rewrite (bool_decide_eq_true_2 (w < 0)) by done.
    rewrite orb_true_r. apply Z.bits_m1. lia.
  - rewrite (bool_decide_eq_false_2 (w < 0)) by lia. rewrite orb_false_r. case_bool_decide.
    + apply Z.ones_spec_low. lia.
    + apply Z.ones_spec_high. lia.
Qed.

(** The bits of a packed key *)
Lemma pack_bits x y z n : 0 ≤ n →
  Z.testbit (AUTHMGR_LPORT_KEY_PACK x y z 0) n
  = bool_decide (n < 32) && (Z.testbit x (n - 16) || Z.testbit y (n - 4)) || Z.testbit z n.
Proof.
  intros Hn. unfold AUTHMGR_LPORT_KEY_PACK, u32. rewrite !Z.lor_spec, Z.bits_0. simpl.
  destruct (Z.lt_ge_cases n 32).
  - rewrite bool_decide_eq_true_2, !Z.mod_pow2_bits_low, !Z.shiftl_spec by lia. done.
  - rewrite bool_decide_eq_false_2, !Z.mod_pow2_bits_high by lia. done.
Qed.

Lemma key_lport x y z :
  0 ≤ y < 2 ^ 12 → 0 ≤ z < 2 ^ 4 → AUTHMGR_LPORT_GET (AUTHMGR_LPORT_KEY_PACK x y z 0) = y.
Proof.
  intros Hy Hz. unfold AUTHMGR_LPORT_GET. apply Z.bits_inj'. intros n Hn.
  rewrite Z.shiftr_spec, Z.land_spec, pack_bits by lia. change 0xFFF0 with (Z.shiftl (Z.ones 12) 4).
  rewrite mask_bits by lia. rewrite (testbit_high z 4) by lia. replace (n + 4 - 4) with n by lia.
  destruct (Z.lt_ge_cases n 12).
  - rewrite (Z.testbit_neg_r x) by lia. rewrite !bool_decide_eq_true_2 by lia. simpl. btauto.
  - rewrite (testbit_high y 12) by lia. rewrite (bool_decide_eq_false_2 (n < 12)) by lia. simpl. btauto.
Qed.

Lemma key_type x y z : 0 ≤ z < 2 ^ 4 → AUTHMGR_TYPE_GET (AUTHMGR_LPORT_KEY_PACK x y z 0) = z.
Proof.
  intros Hz. unfold AUTHMGR_TYPE_GET. apply Z.bits_inj'. intros n Hn. rewrite Z.land_spec, pack_bits by lia.
  change 0xF with (Z.ones 4).
  destruct (Z.lt_ge_cases n 4).
  - rewrite !(Z.testbit_neg_r _ (n - _)), Z.ones_spec_low by lia. btauto.
  - rewrite (testbit_high z 4), Z.ones_spec_high by lia. btauto.
Qed.

Lemma key_port x y z :
  0 ≤ x < 2 ^ 16 → 0 ≤ y < 2 ^ 12 → 0 ≤ z < 2 ^ 4 → AUTHMGR_PORT_GET (AUTHMGR_LPORT_KEY_PACK x y z 0) = x.
Proof.
  intros Hx Hy Hz. unfold AUTHMGR_PORT_GET. apply Z.bits_inj'. intros n Hn.
  rewrite Z.shiftr_spec, Z.land_spec, pack_bits by lia. change 0xFFFF0000 with (Z.shiftl (Z.ones 16) 16).
  rewrite mask_bits by lia. rewrite (testbit_high z 4), (testbit_high y 12) by lia.
  replace (n + 16 - 16) with n by lia.
  destruct (Z.lt_ge_cases n 16).
  - rewrite !bool_decide_eq_true_2 by lia. simpl. btauto.
  - rewrite (testbit_high x 16) by lia. rewrite (bool_decide_eq_false_2 (n < 16)) by lia. simpl. btauto.
Qed.

(** The users of a port fit the twelve bits that a key has for them, and the ports the
    sixteen bits. *)
Class HeadersOk `{!Headers} : Prop := {
  users_fit : (FD_AUTHMGR_PORT_MAX_USERS < 2 ^ 12)%nat;
  ports_fit : AUTHMGR_INTF_MAX_COUNT ≤ 2 ^ 15
}.

Section calm.
Context `{!Headers} {F : fault → Prop} `{!Allows F}.

Lemma calm_configurable i : pspec F calm (authmgrIntfIsConfigurable i).
Proof. unfold authmgrIntfIsConfigurable. pac. Qed.
Lemma calm_valid i : pspec F calm (authmgrIsValidIntf i).
Proof. unfold authmgrIsValidIntf. pac. Qed.
Lemma calm_get l : pspec F calm (authmgrLogicalPortInfoGet l).
Proof. unfold authmgrLogicalPortInfoGet. pac. Qed.
#[local] Hint Resolve calm_configurable calm_valid calm_get : pac.

Lemma calm_next_loop fuel i l :
  AUTHMGR_LOGICAL_PORT_END - l ≤ Z.of_nat fuel → pspec F calm (next_loop fuel i l).
Proof.
  revert l. induction fuel as [|f IH]; intros l Hl; simpl; apply pspec_bind; try apply _; try apply calm_get; intros p.
  - destruct (negb (p =? NULLPTR)); simpl; [apply pspec_ret, _|].
    destruct (Z.ltb_spec l AUTHMGR_LOGICAL_PORT_END); simpl; [lia|]. apply pspec_ret, _.
  - destruct (negb (p =? NULLPTR) || negb (l <? AUTHMGR_LOGICAL_PORT_END)); [apply pspec_ret, _|].
    apply IH. lia.
Qed.

Lemma land_nonneg a b : 0 ≤ b → 0 ≤ Z.land a b.
Proof. intros Hb. apply Z.land_nonneg. by right. Qed.

Lemma lport_nonneg k : 0 ≤ AUTHMGR_LPORT_GET k.
Proof. unfold AUTHMGR_LPORT_GET. apply Z.shiftr_nonneg. by apply land_nonneg. Qed.

Lemma end_nonneg : 0 ≤ AUTHMGR_LOGICAL_PORT_END.
Proof. unfold AUTHMGR_LOGICAL_PORT_END. lia. Qed.

Lemma calm_next_node i l : pspec F calm (authmgrLogicalPortInfoGetNextNode i l).
Proof.
  unfold authmgrLogicalPortInfoGetNextNode. apply pspec_bind; [apply _|apply pspec_port, _|]. intros x. simpl.
  unfold authmgrDynamicLogicalPortInfoGetNextNode. destruct (_ =? _).
  - unfold authmgrLogicalPortInfoFirstGet. apply pspec_bind; [apply _|apply pspec_port, _|]. intros y. simpl.
    apply calm_next_loop. pose proof end_nonneg. unfold AUTHMGR_LOGICAL_PORT_START. lia.
  - simpl. destruct (_ || _); [apply pspec_ret, _|]. apply calm_next_loop.
    pose proof (lport_nonneg l). pose proof end_nonneg. lia.
Qed.

(** What the loops over the logical ports of a port stop at *)
Lemma runs_next_loop (Q : Z * Z → authmgrCB_t → Prop) fuel i l s :
  AUTHMGR_LOGICAL_PORT_END - l ≤ Z.of_nat fuel →
  (∀ l' p, l ≤ l' ≤ Z.max l AUTHMGR_LOGICAL_PORT_END →
     p = default NULLPTR (g_tree s !! AUTHMGR_LPORT_KEY_PACK i l' AUTHMGR_LOGICAL 0) →
     (∀ l0, l ≤ l0 < l' → default NULLPTR (g_tree s !! AUTHMGR_LPORT_KEY_PACK i l0 AUTHMGR_LOGICAL 0) = NULLPTR) →
     (p = NULLPTR → AUTHMGR_LOGICAL_PORT_END ≤ l') →
     Q (AUTHMGR_LPORT_KEY_PACK i l' AUTHMGR_LOGICAL 0, p) s) →
  runs F Q (next_loop fuel i l) s.
Proof.
  revert l. induction fuel as [|f IH]; intros l Hl HQ; simpl; apply runs_bind;
    unfold authmgrLogicalPortInfoGet; rewrite key_type by done; simpl;
    set (p := default NULLPTR (g_tree s !! AUTHMGR_LPORT_KEY_PACK i l AUTHMGR_LOGICAL 0)); unfold runs at 1; simpl;
    fold p; destruct (Z.eqb_spec p NULLPTR) as [Hp|Hp], (Z.ltb_spec l AUTHMGR_LOGICAL_PORT_END); simpl;
    try (apply runs_ret, HQ; [lia|done|intros; lia|intros; lia || done]); try lia.
  apply IH; [lia|]. intros l' p' Hl' Hp' Hno. apply HQ; [lia|done|].
  intros l0 Hl0. destruct (decide (l0 = l)) as [->|]; [done|]. apply Hno. lia.
Qed.

(** The position of a key in the loop over a port *)
Definition loop_pos (l : Z) : Z := if l =? AUTHMGR_LOGICAL_PORT_ITERATE then -1 else AUTHMGR_LPORT_GET l.

Lemma key_not_iterate i l : AUTHMGR_LPORT_KEY_PACK i l AUTHMGR_LOGICAL 0 ≠ AUTHMGR_LOGICAL_PORT_ITERATE.
Proof. intros Hk. pose proof (key_type i l AUTHMGR_LOGICAL ltac:(done)) as Ht. by rewrite Hk in Ht. Qed.

Lemma loop_pos_key i l : 0 ≤ l < 2 ^ 12 → loop_pos (AUTHMGR_LPORT_KEY_PACK i l AUTHMGR_LOGICAL 0) = l.
Proof.
  intros Hl. unfold loop_pos. rewrite (proj2 (Z.eqb_neq _ _)) by apply key_not_iterate. by apply key_lport.
Qed.

Lemma runs_next_node (Q : Z * Z → authmgrCB_t → Prop) i l s :
  (∀ k, Q (k, NULLPTR) s) →
  (∀ l' p, loop_pos l < l' ≤ AUTHMGR_LOGICAL_PORT_END → 0 ≤ l' → p ≠ NULLPTR →
     g_tree s !! AUTHMGR_LPORT_KEY_PACK i l' AUTHMGR_LOGICAL 0 = Some p →
     Q (AUTHMGR_LPORT_KEY_PACK i l' AUTHMGR_LOGICAL 0, p) s) →
  runs F Q (authmgrLogicalPortInfoGetNextNode i l) s.
Proof.
  intros H0 H1. unfold authmgrLogicalPortInfoGetNextNode. apply runs_bind, runs_port. intros x _. simpl.
  assert (∀ l0, loop_pos l < l0 → 0 ≤ l0 ≤ AUTHMGR_LOGICAL_PORT_END →
    runs F Q (next_loop (Z.to_nat AUTHMGR_LOGICAL_PORT_END) i l0) s) as Hloop.
  { intros l0 Hl0 Hb. apply runs_next_loop; [lia|]. intros l' p Hl' Hp _ _.
    destruct (g_tree s !! _) as [q|] eqn:Hq; simpl in Hp; subst p; [|apply H0].
    destruct (decide (q = NULLPTR)) as [->|Hne]; [apply H0|]. apply H1; [lia|lia|done|done]. }
  unfold authmgrDynamicLogicalPortInfoGetNextNode. unfold loop_pos in Hloop.
  destruct (l =? AUTHMGR_LOGICAL_PORT_ITERATE) eqn:Hit; rewrite ?Hit in Hloop.
  - unfold authmgrLogicalPortInfoFirstGet. apply runs_bind, runs_port. intros y _. simpl. apply Hloop; [done|].
    unfold AUTHMGR_LOGICAL_PORT_START. pose proof end_nonneg. lia.
  - simpl. destruct (negb _); simpl; [apply H0|]. destruct (Z.geb_spec (AUTHMGR_LPORT_GET l) AUTHMGR_LOGICAL_PORT_END); [apply H0|].
    apply Hloop; [lia|]. pose proof (lport_nonneg l). lia.
Qed.

Context `{!HeadersOk}.

Lemma end_fits : AUTHMGR_LOGICAL_PORT_END < 2 ^ 12.
Proof. unfold AUTHMGR_LOGICAL_PORT_END. pose proof users_fit as Hu. apply inj_lt in Hu. exact Hu. Qed.

(** The rule of the loop over the logical ports of a port, with an invariant *)
Lemma runs_lport_loop {X} (I : X → authmgrCB_t → Prop) fuel i l (body : Z → Z → X → P (X * bool)) x s :
  loop_pos l ≤ AUTHMGR_LOGICAL_PORT_END → AUTHMGR_LOGICAL_PORT_END - loop_pos l < Z.of_nat fuel →
  (∀ l' p y s, 0 ≤ l' ≤ AUTHMGR_LOGICAL_PORT_END → I y s →
     g_tree s !! AUTHMGR_LPORT_KEY_PACK i l' AUTHMGR_LOGICAL 0 = Some p →
     runs F (λ yb, I yb.1) (body (AUTHMGR_LPORT_KEY_PACK i l' AUTHMGR_LOGICAL 0) p y) s) →
  I x s → runs F I (lport_loop fuel i l body x) s.
Proof.
  intros Hl Hf Hbody. revert l x s Hl Hf. induction fuel as [|f IH]; intros l x s Hl Hf Hx; [lia|].
  simpl. apply runs_bind, runs_next_node; [intros k; by apply runs_ret|].
  intros l' p Hl' Hge Hp Ht. rewrite (proj2 (Z.eqb_neq _ _)) by done. apply runs_bind.
  eapply runs_mono; [apply Hbody; [lia|done|done]|]. intros [y []] s' Hy; simpl in Hy; [|by apply runs_ret].
  pose proof end_fits. apply IH; [rewrite loop_pos_key by lia; lia..|done].
Qed.

Lemma runs_for_each {X} (I : X → authmgrCB_t → Prop) i (body : Z → Z → X → P (X * bool)) x s :
  (∀ l' p y s, 0 ≤ l' ≤ AUTHMGR_LOGICAL_PORT_END → I y s →
     g_tree s !! AUTHMGR_LPORT_KEY_PACK i l' AUTHMGR_LOGICAL 0 = Some p →
     runs F (λ yb, I yb.1) (body (AUTHMGR_LPORT_KEY_PACK i l' AUTHMGR_LOGICAL 0) p y) s) →
  I x s → runs F I (for_each_lport i body x) s.
Proof.
  intros Hbody. apply runs_lport_loop; [| |done]; change (loop_pos _) with (-1); pose proof end_nonneg; lia.
Qed.

Lemma pspec_for_each R `{!PreOrder R} {X} i (body : Z → Z → X → P (X * bool)) x :
  (∀ k p y, pspec F R (body k p y)) → pspec F R (for_each_lport i body x).
Proof.
  intros Hbody s. apply (runs_for_each (λ _, R s)); [|reflexivity]. intros l p y s' _ Hs' _.
  eapply runs_mono; [apply Hbody|]. intros yb s'' Hs''. exact (transitivity Hs' Hs'').
Qed.
End calm.
#[export] Hint Resolve calm_configurable calm_valid calm_get calm_next_node : pac.

(** The rules of the constructs, loops over logical ports included, for any relation *)
Ltac pspec_rule :=
  lazymatch goal with
  | |- pspec _ _ (_ ≫= _) => apply pspec_bind; [apply _| |intros]
  | |- pspec _ _ (when _ _) => apply pspec_when; [apply _|]
  | |- pspec _ _ (mforeach _ _) => apply pspec_mforeach; [apply _|intros]
  | |- pspec _ _ (from_option_or _ _) => apply pspec_option; [apply _|done]
  | |- pspec _ _ (fail _) => apply pspec_fail; done
  | |- pspec _ _ (for_each_lport _ _ _) => apply pspec_for_each; [apply _|intros]
  | |- pspec _ _ (match ?x with _ => _ end) => destruct x
  end.
Ltac pac ::= repeat (first [solve [eauto 2 with pac] | pac1 | pspec_rule]).

(** ** Ports, timers, VLANs and frames are calm *)

Section leaves.
Context `{!Headers, !HeadersOk} {F : fault → Prop} `{!Allows F}.

Lemma calm_state_check i : pspec F calm (authmgrNimIntfStateCheck i).
Proof. unfold authmgrNimIntfStateCheck. pac. Qed.
#[local] Hint Resolve calm_state_check : pac.
Lemma calm_fdb_check i : pspec F calm (authmgrStaticFdbEntryValidCheck i).
Proof. unfold authmgrStaticFdbEntryValidCheck. pac. Qed.
Lemma calm_learning_checks i k : pspec F calm k → pspec F calm (learning_checks i k).
Proof. intros Hk. unfold learning_checks. pac. Qed.
Lemma calm_learning_set i l : pspec F calm (learning_set i l).
Proof. unfold learning_set. pac. Qed.
#[local] Hint Resolve calm_fdb_check calm_learning_checks calm_learning_set : pac.

Lemma calm_learning i : pspec F calm (authmgrPortLearningModify i).
Proof.
  assert (∀ i, pspec F calm (authmgrMultiHostHwLearningModify i)) by (intros; apply calm_learning_checks; pac).
  assert (∀ i, pspec F calm (authmgrMultAuthHwLearningModify i)) by (intros; apply calm_learning_checks; pac).
  assert (∀ i, pspec F calm (authmgrSingleAuthHwLearningModify i)) by (intros; apply calm_learning_checks; pac).
  assert (∀ i, pspec F calm (authmgrPortForceAuthLearningModify i)) by (intros; apply calm_learning_checks; pac).
  assert (∀ i, pspec F calm (authmgrPortForceUnauthLearningModify i)) by (intros; apply calm_learning_checks; pac).
  set (ok := λ e : option (Z → P RC_t), ∀ f i, e = Some f → pspec F calm (f i)).
  assert (∀ i, pspec F calm (authmgrPortAutoLearningModify i)).
  { intros j. apply calm_learning_checks. apply (pspec_bind_post _ ok); [|intros [f|] Hf; [by apply Hf|pac]].
    apply calm_post_bind; [apply _|pac|]. intros [c|] s; [|apply post_ret; [apply _|by intros f k]]. revert s.
    apply calm_post_bind; [apply _|pac|]. intros x s. apply post_ret; [apply _|].
    intros f k. destruct (pi_hostMode x); intros [= <-]; auto. }
  apply calm_learning_checks. apply (pspec_bind_post _ ok); [|intros [f|] Hf; [by apply Hf|pac]].
  apply calm_post_bind; [apply _|pac|]. intros [c|] s; [|apply post_ret; [apply _|by intros f k]]. revert s.
  apply calm_post_bind; [apply _|pac|]. intros x s. apply post_ret; [apply _|].
  intros f k. destruct (pi_portControlMode x); intros [= <-]; auto.
Qed.

Lemma calm_mab_enabled n j l : pspec F calm (mab_enabled n j l).
Proof. revert j. induction n; intros j; simpl; pac. Qed.
#[local] Hint Resolve calm_learning calm_mab_enabled : pac.
Lemma calm_violation_set i f : pspec F calm (authmgrIhPhyPortViolationCallbackSet i f).
Proof. unfold authmgrIhPhyPortViolationCallbackSet. pac. Qed.
#[local] Hint Resolve calm_violation_set : pac.
Lemma calm_violation_check i : pspec F calm (authmgrViolationPolicyValidCheck i).
Proof. unfold authmgrViolationPolicyValidCheck, authmgrHostViolationPolicyValidCheck. pac. Qed.
#[local] Hint Resolve calm_violation_check : pac.
Lemma calm_violation_install i b : pspec F calm (violation_install i b).
Proof. unfold violation_install. pac. Qed.
#[local] Hint Resolve calm_violation_install : pac.
Lemma calm_violation_apply i : pspec F calm (authmgrViolationPolicyApply i).
Proof. unfold authmgrViolationPolicyApply. apply calm_learning_checks. pac. Qed.
#[local] Hint Resolve calm_violation_apply : pac.
Lemma calm_physical_set i st : pspec F calm (authmgrIhPhysicalPortStatusSet i st).
Proof. unfold authmgrIhPhysicalPortStatusSet. pac. Qed.

Lemma calm_pvid i v : pspec F calm (authmgrPortPvidSet i v).
Proof. unfold authmgrPortPvidSet. pac. Qed.
#[local] Hint Resolve calm_pvid : pac.
Lemma calm_participation_set i v : pspec F calm (authmgrVlanParticipationSet i v).
Proof. unfold authmgrVlanParticipationSet. pac. Qed.
Lemma calm_participation_reset i v : pspec F calm (authmgrVlanParticipationReset i v).
Proof. unfold authmgrVlanParticipationReset. pac. Qed.
#[local] Hint Resolve calm_participation_set calm_participation_reset : pac.
Lemma calm_deletion_validate i v : pspec F calm (authmgrVlanPortDeletionValidate i v).
Proof. unfold authmgrVlanPortDeletionValidate. pac. Qed.
Lemma calm_participation_validate i v : pspec F calm (authmgrVlanPortParticipationValidate i v).
Proof. unfold authmgrVlanPortParticipationValidate. pac. Qed.
Lemma calm_vlan_info_set p v : pspec F calm (authmgrClientVlanInfoSet p v).
Proof. unfold authmgrClientVlanInfoSet. pac. Qed.
Lemma calm_vlan_info_reset i v : pspec F calm (authmgrClientVlanInfoReset i v).
Proof. unfold authmgrClientVlanInfoReset. pac. Qed.
Lemma calm_check_static v : pspec F calm (authmgrVlanCheckStatic v).
Proof. unfold authmgrVlanCheckStatic. pac. Qed.
#[local] Hint Resolve calm_check_static : pac.
Lemma calm_default_vlan i : pspec F calm (authmgrPortDefaultVlanGet i).
Proof. unfold authmgrPortDefaultVlanGet. pac. Qed.

Lemma calm_timer_destroy p ty : pspec F calm (authmgrTimerDestroy p ty).
Proof. unfold authmgrTimerDestroy. pac. Qed.
Lemma calm_timer_start p ty : pspec F calm (authmgrTimerStart p ty).
Proof.
  unfold authmgrTimerStart. destruct ty; simpl; unfold authmgrLogicalPortReAuthPeriodGet, authmgrReAuthPeriodGet,
    authmgrQuietPeriodGet; pac.
Qed.
Lemma calm_tx code l ty : pspec F calm (tx_canned code l ty).
Proof. unfold tx_canned, authmgrFrameTransmit. pac. Qed.
Lemma calm_stats i m st : pspec F calm (authmgrStatsUpdate i m st).
Proof. unfold authmgrStatsUpdate, authmgrDot1xStatsUpdate, authmgrMabStatsUpdate, stats_upd. pac. Qed.
End leaves.
#[export] Hint Resolve calm_fdb_check calm_learning calm_violation_apply calm_physical_set calm_deletion_validate
  calm_participation_validate calm_vlan_info_set calm_vlan_info_reset calm_check_static calm_default_vlan
  calm_timer_destroy calm_timer_start calm_tx calm_stats : pac.

(** ** Entries of clients in the driver, and publication *)

Section driver.
Context `{!Headers, !HeadersOk} {F : fault → Prop} `{!Allows F}.

Lemma calm_entry_delete i mac v : pspec F calm (authmgrAuthenticatedClientDelete i mac v).
Proof. unfold authmgrAuthenticatedClientDelete. pac. Qed.
Lemma calm_entry_add i mac v b : pspec F calm (authmgrAuthenticatedClientAdd i mac v b).
Proof. unfold authmgrAuthenticatedClientAdd. pac. Qed.
#[local] Hint Resolve calm_entry_delete calm_entry_add : pac.
Lemma calm_hw_cleanup p : pspec F calm (authmgrClientHwInfoCleanup p).
Proof. unfold authmgrClientHwInfoCleanup, static_fdb_remove, client_vlan_leave. pac. Qed.
Lemma calm_static_cleanup p : pspec F calm (authmgrStaticFdbCleanup p).
Proof. unfold authmgrStaticFdbCleanup. pac. Qed.
Lemma calm_block_cleanup p : pspec F calm (authmgrBlockFdbCleanup p).
Proof. unfold authmgrBlockFdbCleanup. pac. Qed.
#[local] Hint Resolve calm_static_cleanup calm_block_cleanup : pac.
Lemma calm_hw_post p m : pspec F calm (authmgrClientHwAddFailPostHwCleanup p m).
Proof.
  unfold authmgrClientHwAddFailPostHwCleanup, authmgrHwCleanupEventFnMapGet. destruct (p =? NULLPTR); [pac|].
  apply pspec_bind; [apply _| |pac]. apply pspec_mforeach; [apply _|]. intros i. apply pspec_when; [apply _|].
  destruct (i =? _); [pac|]. destruct (i =? _); pac.
Qed.
#[local] Hint Resolve calm_hw_cleanup calm_hw_post : pac.
Lemma calm_hw_add p mac v b : pspec F calm (authmgrClientHwInfoAdd p mac v b).
Proof. unfold authmgrClientHwInfoAdd, client_entry_add. pac. Qed.
#[local] Hint Resolve calm_hw_add : pac.
Lemma calm_hw_readd p : pspec F calm (authmgrClientHwInfoCleanupAndReadd p).
Proof. unfold authmgrClientHwInfoCleanupAndReadd. pac. Qed.
Lemma calm_publish p : pspec F calm (client_publish p).
Proof. unfold client_publish, authmgrClientInfoPopulate, first_bytes, terminated. pac. Qed.
#[local] Hint Resolve calm_publish : pac.
Lemma calm_session p : pspec F calm (authmgrCtlResetLogicalPortSessionData p).
Proof.
  unfold authmgrCtlResetLogicalPortSessionData. apply calm_node_upd. intros []. unfold set, set_lp_client; simpl.
  by case_match; split.
Qed.
Lemma calm_status_same p st : pspec F calm (status_same p st).
Proof. unfold status_same. pac. Qed.
Lemma calm_notify m i ev mac rc : pspec F calm (notify m i ev mac rc).
Proof. unfold notify. pac. Qed.
Lemma calm_goodbye p : pspec F calm (eap_goodbye p).
Proof. unfold eap_goodbye, protocol_upd, authmgrTxCannedSuccess, authmgrTxCannedFail. pac. Qed.
Lemma calm_unblock p i name : pspec F calm (client_unblock p i name).
Proof. unfold client_unblock. pac. Qed.
End driver.
#[export] Hint Resolve calm_hw_cleanup calm_hw_add calm_hw_readd calm_publish calm_session calm_status_same
  calm_notify calm_goodbye calm_unblock : pac.

(** ** The interfaces in turn *)

Section interfaces.
Context `{!Headers} {F : fault → Prop} `{!Allows F}.

(** A calm step to a number from [a] on *)
Definition number_from (a : Z) (s : authmgrCB_t) (r : option Z) (s' : authmgrCB_t) : Prop :=
  calm s s' ∧ ∀ j, r = Some j → a ≤ j ≤ platIntfTotalMaxCount.

Lemma number_none a s s' : calm s s' → number_from a s None s'.
Proof. by split. Qed.

Lemma runs_scan n b i s :
  i + Z.of_nat n ≤ Z.max i (platIntfTotalMaxCount + 1) → runs F (number_from i s) (nim_scan n b i) s.
Proof.
  revert i s. induction n as [|n IH]; intros i s Hn; simpl; [by apply runs_ret, number_none|].
  apply runs_bind. eapply runs_mono; [apply calm_call|]. intros r s1 H1. destruct (r_flag r).
  - apply runs_ret. split; [done|]. intros j [= <-]. lia.
  - eapply runs_mono; [apply IH; lia|]. intros o s2 [H2 Ho]. split; [exact (transitivity H1 H2)|].
    intros j Hj. specialize (Ho j Hj). lia.
Qed.
Lemma runs_nim_first b s : runs F (number_from 1 s) (nim_first b) s.
Proof.
  unfold nim_first. apply runs_bind. eapply runs_mono; [apply calm_call|]. intros r s1 H1.
  destruct (r_flag r); [|by apply runs_ret, number_none]. eapply runs_mono; [apply runs_scan; lia|].
  intros o s2 [H2 Ho]. split; [exact (transitivity H1 H2)|done].
Qed.
Lemma runs_nim_next b i s : runs F (number_from (i + 1) s) (nim_next b i) s.
Proof.
  unfold nim_next. apply runs_bind. eapply runs_mono; [apply calm_call|]. intros r s1 H1.
  destruct (r_flag r); [|by apply runs_ret, number_none]. eapply runs_mono; [apply runs_scan; lia|].
  intros o s2 [H2 Ho]. split; [exact (transitivity H1 H2)|done].
Qed.

Lemma runs_next_valid fuel i s :
  (0 < fuel)%nat → platIntfTotalMaxCount - i < Z.of_nat fuel → runs F (number_from (i + 1) s) (next_valid fuel i) s.
Proof.
  revert i s. induction fuel as [|f IH]; intros i s H0 Hf; [lia|]. simpl. apply runs_bind.
  eapply runs_mono; [apply runs_nim_next|]. intros [j|] s1 [H1 Hj]; [|by apply runs_ret, number_none].
  specialize (Hj j eq_refl). apply runs_bind. eapply runs_mono; [apply calm_valid|]. intros b s2 H2.
  assert (calm s s2) as H12 by exact (transitivity H1 H2). destruct b.
  - apply runs_ret. split; [done|]. intros j' [= <-]. lia.
  - eapply runs_mono; [apply IH; lia|]. intros o s3 [H3 Ho]. split; [exact (transitivity H12 H3)|].
    intros j' Hj'. specialize (Ho j' Hj'). lia.
Qed.
Lemma runs_port_next i s : runs F (number_from (i + 1) s) (authmgrNextValidIntf i) s.
Proof. apply runs_next_valid; lia. Qed.
Lemma runs_port_first s : runs F (number_from 1 s) authmgrFirstValidIntfNumber s.
Proof.
  unfold authmgrFirstValidIntfNumber. apply runs_bind. eapply runs_mono; [apply runs_nim_first|].
  intros [j|] s1 [H1 Hj]; [|by apply runs_ret, number_none]. specialize (Hj j eq_refl).
  apply runs_bind. eapply runs_mono; [apply calm_valid|]. intros b s2 H2.
  assert (calm s s2) as H12 by exact (transitivity H1 H2). destruct b.
  - apply runs_ret. split; [done|]. intros j' [= <-]. lia.
  - eapply runs_mono; [apply runs_port_next|]. intros o s3 [H3 Ho]. split; [exact (transitivity H12 H3)|].
    intros j' Hj'. specialize (Ho j' Hj'). lia.
Qed.

(** The rule of the loops over the interfaces, with an invariant that calm steps keep *)
Section loop.
Context (I : authmgrCB_t → Prop) (Hcalm : ∀ s s', calm s s' → I s → I s').
Context (next : Z → P (option Z)) (Hnext : ∀ i s, runs F (number_from (i + 1) s) (next i) s).

Lemma runs_intf_loop fuel cur body s :
  (∀ i s, I s → runs F (λ _, I) (body i) s) → I s →
  (∀ i, cur = Some i → 1 ≤ i ≤ platIntfTotalMaxCount ∧ platIntfTotalMaxCount - i < Z.of_nat fuel) →
  runs F (λ _, I) (intf_loop fuel next cur body) s.
Proof.
  intros Hbody. revert cur s. induction fuel as [|f IH]; intros [i|] s Hs Hcur; simpl; try by apply runs_ret.
  { destruct (Hcur i eq_refl). lia. }
  destruct (Hcur i eq_refl) as [Hi Hf]. apply runs_bind. eapply runs_mono; [by apply Hbody|]. intros [rc|] s1 Hs1; [by apply runs_ret|].
  apply runs_bind. eapply runs_mono; [apply Hnext|]. intros cur' s2 [H2 Hn]. apply IH; [by eapply Hcalm|].
  intros j Hj. specialize (Hn j Hj). lia.
Qed.
Lemma runs_for_each_intf first body s :
  (∀ s, runs F (number_from 1 s) first s) → (∀ i s, I s → runs F (λ _, I) (body i) s) → I s →
  runs F (λ _, I) (for_each_intf first next body) s.
Proof.
  intros Hfirst Hbody Hs. unfold for_each_intf. apply runs_bind. eapply runs_mono; [apply Hfirst|]. intros cur s1 [H1 Hc].
  apply runs_intf_loop; [done|by eapply Hcalm|]. intros i Hi. specialize (Hc i Hi). lia.
Qed.
End loop.

Lemma runs_each_port (I : authmgrCB_t → Prop) body s :
  (∀ s s', calm s s' → I s → I s') → (∀ i s, I s → runs F (λ _, I) (body i) s) → I s →
  runs F (λ _, I) (each_port body) s.
Proof.
  intros Hcalm Hbody Hs. unfold each_port. apply runs_bind. eapply runs_mono.
  - apply (runs_for_each_intf I Hcalm); [apply runs_port_next|apply runs_port_first| |done].
    intros i s' Hs'. apply runs_bind. eapply runs_mono; [by apply Hbody|]. intros [] s'' Hs''. by apply runs_ret.
  - intros r s' Hs'. by apply runs_ret.
Qed.
Lemma runs_each_interface (I : authmgrCB_t → Prop) body s :
  (∀ s s', calm s s' → I s → I s') → (∀ i s, I s → runs F (λ _, I) (body i) s) → I s →
  runs F (λ _, I) (each_interface body) s.
Proof.
  intros Hcalm Hbody Hs. unfold each_interface. apply runs_bind. eapply runs_mono.
  - apply (runs_for_each_intf I Hcalm); [apply runs_nim_next|apply runs_nim_first| |done].
    intros i s' Hs'. apply runs_bind. eapply runs_mono; [by apply Hbody|]. intros [] s'' Hs''. by apply runs_ret.
  - intros r s' Hs'. by apply runs_ret.
Qed.

Section relation.
Context (R : authmgrCB_t → authmgrCB_t → Prop) `{!PreOrder R} (HR : ∀ s s', calm s s' → R s s').
Lemma pspec_each_port body : (∀ i, pspec F R (body i)) → pspec F R (each_port body).
Proof.
  intros Hb s. apply runs_each_port; [|intros i s1 H1|reflexivity].
  - intros s1 s2 H12 H1. exact (transitivity H1 (HR _ _ H12)).
  - eapply runs_mono; [apply Hb|]. intros [] s2 H2. exact (transitivity H1 H2).
Qed.
Lemma pspec_each_interface body : (∀ i, pspec F R (body i)) → pspec F R (each_interface body).
Proof.
  intros Hb s. apply runs_each_interface; [|intros i s1 H1|reflexivity].
  - intros s1 s2 H12 H1. exact (transitivity H1 (HR _ _ H12)).
  - eapply runs_mono; [apply Hb|]. intros [] s2 H2. exact (transitivity H1 H2).
Qed.
Lemma pspec_ports_until body :
  (∀ i, pspec F R (body i)) → pspec F R (for_each_intf authmgrFirstValidIntfNumber authmgrNextValidIntf body).
Proof.
  intros Hb s. apply (runs_for_each_intf (R s)); [|apply runs_port_next|apply runs_port_first|intros i s1 H1|reflexivity].
  - intros s1 s2 H12 H1. exact (transitivity H1 (HR _ _ H12)).
  - eapply runs_mono; [apply Hb|]. intros r s2 H2. exact (transitivity H1 H2).
Qed.
End relation.
End interfaces.

(** ** The status and the VLANs of ports *)

Section ports.
Context `{!Headers, !HeadersOk} {F : fault → Prop} `{!Allows F}.

Lemma calm_open i : pspec F calm (authmgrPhysicalPortStatusOpenSet i).
Proof.
  unfold authmgrPhysicalPortStatusOpenSet, port_status_set, authmgrPortForceAuthLearningModify, learning_checks,
    authmgrNimIntfStateCheck, learning_set, authmgrIhPhyPortViolationCallbackSet, authmgrTxCannedSuccess. pac.
Qed.
Lemma calm_block i : pspec F calm (authmgrPhysicalPortStatusBlockSet i).
Proof.
  unfold authmgrPhysicalPortStatusBlockSet, port_status_set, authmgrPortForceUnauthLearningModify, learning_checks,
    authmgrNimIntfStateCheck, learning_set, authmgrIhPhyPortViolationCallbackSet, authmgrTxCannedFail. pac.
Qed.
#[local] Hint Resolve calm_open calm_block : pac.
Lemma calm_by_link i : pspec F calm (port_status_by_link i).
Proof. unfold port_status_by_link. pac. Qed.
Lemma calm_access i : pspec F calm (authmgrPhysicalPortAccessSet i).
Proof. unfold authmgrPhysicalPortAccessSet. pac. Qed.
Lemma calm_hand_over i b rc : pspec F calm (vlan_hand_over i b rc).
Proof. unfold vlan_hand_over. pac. Qed.
Lemma calm_max_users i : pspec F calm (authmgrMaxUsersGet i).
Proof. unfold authmgrMaxUsersGet. pac. Qed.
Lemma calm_link i : pspec F calm (link_usable i).
Proof. unfold link_usable. pac. Qed.
Lemma calm_policy m i b : pspec F calm (authmgrHostModeHwPolicyApply m i b).
Proof. unfold authmgrHostModeHwPolicyApply, authmgrIhPhyPortViolationCallbackSet. pac. Qed.
Lemma calm_tell fn c : pspec F calm (tell_methods fn c).
Proof. unfold tell_methods. pac. Qed.
Lemma calm_stats_clear i : pspec F calm (stats_clear i).
Proof. unfold stats_clear. pac. Qed.
Lemma calm_port_vlans v i f : pspec F calm (port_vlans_upd v i f).
Proof. unfold port_vlans_upd. pac. Qed.
Lemma calm_vlan_add v : pspec F calm (authmgrVlanAddLocalUpdate v).
Proof. unfold authmgrVlanAddLocalUpdate. pac. Qed.
Lemma calm_vlan_delete v : pspec F calm (authmgrVlanDeleteLocalUpdate v).
Proof. unfold authmgrVlanDeleteLocalUpdate. pac. Qed.
End ports.
#[export] Hint Resolve calm_open calm_block calm_by_link calm_access calm_hand_over calm_max_users calm_link
  calm_policy calm_tell calm_stats_clear calm_port_vlans calm_vlan_add calm_vlan_delete calm_pvid : pac.
