(* ===== verification/PacSafety.v ===== *)
(** * The authentication manager: who is authorized

    A client is [hot] when it is authorized or a success is pending for it.  Two
    functions make a client hot: the handler of a success, and that one only the
    client the message names, on the port of the message; and the mode
    [AUTHMGR_PORT_FORCE_AUTHORIZED], for a new logical port without an address.  So
    every authorized client with an address was named by a success
    ([authorized_by_success]). *)

From S2P Require Import Prelude CMem CString PacState PacPort PacClient PacSm PacEvents PacConfig PacFrame.
#[local] Open Scope Z_scope.

(** ** The database of logical ports is well formed *)

Record wf (s : authmgrCB_t) : Prop := {
  wf_tree k q : g_tree s !! k = Some q →
    q ≠ NULLPTR ∧ AUTHMGR_TYPE_GET k = AUTHMGR_LOGICAL ∧ ∃ n, g_nodes s !! q = Some n ∧ lp_key n = k;
  wf_nodup : NoDup (g_free s);
  wf_free q : q ∈ g_free s → q ≠ NULLPTR ∧ ∃ n, g_nodes s !! q = Some n ∧ lp_key n = 0;
  wf_linked q n : g_nodes s !! q = Some n → lp_key n ≠ 0 → g_tree s !! lp_key n = Some q
}.

Definition hot (n : authmgrLogicalPortInfo_t) : Prop :=
  cl_logicalPortStatus (lp_client n) = AUTHMGR_PORT_STATUS_AUTHORIZED ∨ pr_authSuccess (lp_protocol n) = true.

(** Two states of the node of one client *)
Definition same_client (n n' : authmgrLogicalPortInfo_t) : Prop :=
  lp_key n' = lp_key n ∧ cl_suppMacAddr (lp_client n') = cl_suppMacAddr (lp_client n).

(** The clients that are hot were, or [X] holds of their key and address *)
Definition only_hot (X : Z → list Z → Prop) (s s' : authmgrCB_t) : Prop := ∀ q n',
  g_nodes s' !! q = Some n' → hot n' →
  X (lp_key n') (cl_suppMacAddr (lp_client n')) ∨ ∃ n, g_nodes s !! q = Some n ∧ hot n ∧ same_client n n'.

(** The clients of the database were there with their addresses, or [K] holds of the key *)
Definition only_new (K : Z → Prop) (s s' : authmgrCB_t) : Prop := ∀ k q n',
  g_tree s' !! k = Some q → g_nodes s' !! q = Some n' →
  K k ∨ ∃ n, g_tree s !! k = Some q ∧ g_nodes s !! q = Some n ∧
    cl_suppMacAddr (lp_client n') = cl_suppMacAddr (lp_client n).

Definition safe (K : Z → Prop) (X : Z → list Z → Prop) (s s' : authmgrCB_t) : Prop :=
  wf s → wf s' ∧ only_hot X s s' ∧ only_new K s s'.

#[export] Instance safe_preorder K X : PreOrder (safe K X).
Proof.
  split.
  - intros s Hwf. split_and!; [done| |].
    + intros q n Hn Hh. right. by exists n.
    + intros k q n Hk Hn. right. by exists n.
  - intros s1 s2 s3 H12 H23 Hwf. destruct (H12 Hwf) as (Hwf2 & H2 & K2). destruct (H23 Hwf2) as (Hwf3 & H3 & K3).
    split_and!; [done| |].
    + intros q n3 Hn3 Hh. destruct (H3 q n3 Hn3 Hh) as [|(n2 & Hn2 & Hh2 & [Hk Hm])]; [by left|].
      rewrite Hk, Hm. destruct (H2 q n2 Hn2 Hh2) as [|(n1 & Hn1 & Hh1 & [Hk' Hm'])]; [by left|].
      right. exists n1. split_and!; [done..|]. split; congruence.
    + intros k q n3 Hk Hn3. destruct (K3 k q n3 Hk Hn3) as [|(n2 & Hk2 & Hn2 & Hm)]; [by left|].
      destruct (K2 k q n2 Hk2 Hn2) as [|(n1 & Hk1 & Hn1 & Hm')]; [by left|]. right. exists n1. split_and!; congruence.
Qed.

Lemma safe_mono (K K' : Z → Prop) (X X' : Z → list Z → Prop) s s' :
  (∀ k, K k → K' k) → (∀ k m, X k m → X' k m) → safe K X s s' → safe K' X' s s'.
Proof.
  intros HK HX Hs Hwf. destruct (Hs Hwf) as (Hwf' & H1 & H2). split_and!; [done| |].
  - intros q n' Hn' Hh. destruct (H1 q n' Hn' Hh); auto.
  - intros k q n' Hk Hn'. destruct (H2 k q n' Hk Hn'); auto.
Qed.

(** ** Steps *)

Lemma calm_hot n n' : calm_node n n' → hot n' → hot n.
Proof.
  intros [_ Hp _ _ Hs _] [H|H]; [left; congruence|right].
  apply (f_equal pr_authSuccess) in Hp. simpl in Hp. congruence.
Qed.

Lemma calm_at s s' p n n' : calm s s' → g_nodes s !! p = Some n → g_nodes s' !! p = Some n' → calm_node n n'.
Proof. intros Hc Hn Hn'. pose proof (calm_nodes s s' Hc p) as Hq. rewrite Hn, Hn' in Hq. by inv Hq. Qed.

Lemma calm_safe K X s s' : calm s s' → safe K X s s'.
Proof.
  intros [Ht Hf Hn _ _ _ _ _]. intros [W1 W2 W3 W4].
  assert (∀ q n, g_nodes s !! q = Some n → ∃ n', g_nodes s' !! q = Some n' ∧ calm_node n n') as Hfwd.
  { intros q n Hq. specialize (Hn q). rewrite Hq in Hn. inv Hn. eauto. }
  assert (∀ q n', g_nodes s' !! q = Some n' → ∃ n, g_nodes s !! q = Some n ∧ calm_node n n') as Hbwd.
  { intros q n' Hq. specialize (Hn q). rewrite Hq in Hn. inv Hn. eauto. }
  split_and!; [split; rewrite ?Ht, ?Hf; [|done| |]| |].
  - intros k q Hk. destruct (W1 k q Hk) as (? & ? & n & Hq & Hkey). destruct (Hfwd q n Hq) as (n' & Hq' & [Hk' _ _ _ _ _]).
    split_and!; [done..|]. exists n'. split; [done|congruence].
  - intros q Hq. destruct (W3 q Hq) as (? & n & Hqn & Hkey). destruct (Hfwd q n Hqn) as (n' & Hq' & [Hk' _ _ _ _ _]).
    split; [done|]. exists n'. split; [done|congruence].
  - intros q n' Hq' Hk. destruct (Hbwd q n' Hq') as (n & Hq & [Hk' _ _ _ _ _]). rewrite Hk' in *. eauto.
  - intros q n' Hq' Hh. destruct (Hbwd q n' Hq') as (n & Hq & Hc). right. exists n. split; [done|].
    split; [by eapply calm_hot|]. by destruct Hc.
  - intros k q n' Hk Hq'. rewrite Ht in Hk. destruct (Hbwd q n' Hq') as (n & Hq & []). right. by exists n.
Qed.

Lemma safe_same K X s s' :
  g_tree s' = g_tree s → g_free s' = g_free s → g_nodes s' = g_nodes s → safe K X s s'.
Proof.
  intros H1 H2 H3 [W1 W2 W3 W4]. split_and!; [split; by rewrite ?H1, ?H2, ?H3| |].
  - intros q n Hn Hh. rewrite H3 in Hn. right. by exists n.
  - intros k q n Hk Hn. rewrite H1 in Hk. rewrite H3 in Hn. right. by exists n.
Qed.

(** An update of a node that keeps its key *)
Lemma wf_upd s p n n' : g_nodes s !! p = Some n → lp_key n' = lp_key n → wf s → wf (s <| g_nodes ::= <[p := n']> |>).
Proof.
  intros Hn Hk [W1 W2 W3 W4]. split; simpl; [|done| |].
  - intros k q Hq. destruct (W1 k q Hq) as (? & ? & m & Hm & Hkey). split_and!; [done..|].
    destruct (decide (p = q)) as [->|Hne].
    + exists n'. rewrite lookup_insert, decide_True by done. split; [done|]. congruence.
    + exists m. by rewrite lookup_insert_ne.
  - intros q Hq. destruct (W3 q Hq) as (? & m & Hm & Hkey). split; [done|].
    destruct (decide (p = q)) as [->|Hne].
    + exists n'. rewrite lookup_insert, decide_True by done. split; [done|]. congruence.
    + exists m. by rewrite lookup_insert_ne.
  - intros q m [[<- <-]|[Hne Hm]]%lookup_insert_Some; [rewrite Hk|]; eauto.
Qed.

Lemma safe_upd K X s p n n' :
  g_nodes s !! p = Some n → lp_key n' = lp_key n →
  (hot n' → X (lp_key n') (cl_suppMacAddr (lp_client n')) ∨ hot n ∧ same_client n n') →
  (wf s → K (lp_key n) ∨ cl_suppMacAddr (lp_client n') = cl_suppMacAddr (lp_client n)) →
  safe K X s (s <| g_nodes ::= <[p := n']> |>).
Proof.
  intros Hn Hk Hhot Hnew Hwf. split_and!; [by eapply wf_upd| |].
  - intros q m Hm Hh. simpl in Hm. apply lookup_insert_Some in Hm as [[<- <-]|[Hne Hm]].
    + destruct (Hhot Hh) as [|[? ?]]; [by left|]. right. by exists n.
    + right. by exists m.
  - intros k q m Hq Hm. simpl in Hq, Hm. apply lookup_insert_Some in Hm as [[<- <-]|[Hne Hm]].
    + destruct (wf_tree s Hwf k p Hq) as (_ & _ & m & Hm & <-). assert (m = n) as -> by congruence.
      destruct (Hnew Hwf); [by left|]. right. by exists n.
    + right. by exists m.
Qed.

Section steps.
Context {F : fault → Prop} `{!Allows F} (K : Z → Prop) (X : Z → list Z → Prop).

Lemma safe_calm {A} (m : P A) : pspec F calm m → pspec F (safe K X) m.
Proof. intros H. eapply pspec_mono; [exact H|]. apply calm_safe. Qed.

Lemma safe_node_upd p f :
  (∀ n, same_client n (f n) ∧ (hot (f n) → hot n)) →
  pspec F (safe K X) (node_upd p f).
Proof.
  intros Hf s. apply runs_node_upd. intros n Hn. destruct (Hf n) as [[] ?]. eapply safe_upd; [done..| |by right]. intros. right. split; [auto|done].
Qed.

Lemma safe_port_upd i f : pspec F (safe K X) (port_upd i f).
Proof. intros s. apply runs_port_upd. intros x Hx. by apply safe_same. Qed.

Lemma safe_modify f :
  (∀ s, g_tree (f s) = g_tree s) → (∀ s, g_free (f s) = g_free s) → (∀ s, g_nodes (f s) = g_nodes s) →
  pspec F (safe K X) (modify f).
Proof. intros H1 H2 H3 s. apply runs_modify. by apply safe_same. Qed.
End steps.

Create HintDb safe.
#[export] Hint Extern 0 (PreOrder _) => apply _ : safe.
#[export] Hint Extern 0 (Allows _) => apply _ : safe.
#[export] Hint Resolve pspec_ret pspec_gets pspec_port pspec_node pspec_callback pspec_method_at safe_port_upd : safe.

(** An update that keeps the client and what makes it hot *)
Ltac safe_update := intros []; unfold hot, same_client; simpl; first [naive_solver|repeat case_match; simpl; naive_solver].
Ltac safe1 :=
  lazymatch goal with
  | |- pspec _ _ (node_upd _ _) => apply safe_node_upd; safe_update
  | |- pspec _ _ (client_upd _ _) => apply safe_node_upd; safe_update
  | |- pspec _ _ (protocol_upd _ _) => apply safe_node_upd; safe_update
  | |- pspec _ _ (state_set _ _) => apply safe_node_upd; safe_update
  | |- pspec _ _ (modify _) => by apply safe_modify
  end.
Ltac safe := repeat (first [solve [eauto 2 with safe] | solve [apply safe_calm; eauto 2 with pac] | safe1 | pspec_rule]).

(** ** The database *)

Section database.
Context `{!Headers} {F : fault → Prop} `{!Allows F} (K : Z → Prop) (X : Z → list Z → Prop).

Lemma lport_zero_cold k : ¬ hot (lport_zero <| lp_key := k |>).
Proof. by intros [|]. Qed.

Lemma logical_not_zero k : AUTHMGR_TYPE_GET k = AUTHMGR_LOGICAL → k ≠ 0.
Proof. by intros Hk ->. Qed.

Lemma safe_delete k : pspec F (safe K X) (avlDeleteEntry k).
Proof.
  intros s. unfold runs, avlDeleteEntry, mbind, M_bind. simpl. destruct (g_tree s !! k) as [p|] eqn:Hp; simpl; [|apply (PreOrder_Reflexive (R:=safe K X))].
  intros [W1 W2 W3 W4]. destruct (W1 k p Hp) as (Hp0 & Hty & n & Hn & Hkey). pose proof (logical_not_zero k Hty).
  split_and!; [split; simpl| |].
  - intros k' q [Hne Hq]%lookup_delete_Some. destruct (W1 k' q Hq) as (? & ? & m & Hm & ?). split_and!; [done..|].
    exists m. rewrite lookup_insert_ne by congruence. done.
  - constructor; [|done]. intros (_ & m & Hm & ?)%W3. congruence.
  - intros q [->|Hq]%elem_of_cons.
    + split; [done|]. exists lport_zero. by rewrite lookup_insert, decide_True.
    + destruct (W3 q Hq) as (? & m & Hm & ?). split; [done|]. exists m. rewrite lookup_insert_ne by congruence. done.
  - intros q m [[<- <-]|[Hne Hm]]%lookup_insert_Some; [done|]. intros Hk. rewrite lookup_delete_ne; [by apply W4|].
    intros Heq. apply W4 in Hm; [|done]. congruence.
  - intros q m Hm Hh. simpl in Hm. apply lookup_insert_Some in Hm as [[<- <-]|[Hne Hm]]; [by destruct Hh|].
    right. by exists m.
  - intros k' q m Hq Hm. simpl in Hq, Hm. apply lookup_delete_Some in Hq as [Hne Hq].
    apply lookup_insert_Some in Hm as [[<- <-]|[_ Hm]]; [|right; by exists m].
    destruct (W1 k' p Hq) as (_ & _ & m & Hm & <-). congruence.
Qed.

Lemma safe_insert new s :
  AUTHMGR_TYPE_GET (lp_key new) = AUTHMGR_LOGICAL → ¬ hot new → K (lp_key new) →
  default NULLPTR (g_tree s !! lp_key new) = NULLPTR → runs F (λ _, safe K X s) (avlInsertEntry new) s.
Proof.
  intros Hty Hcold HK Hnone. unfold runs, avlInsertEntry, mbind, M_bind. simpl. destruct (g_free s) as [|p l] eqn:Hl; simpl; [apply (PreOrder_Reflexive (R:=safe K X))|].
  intros [W1 W2 W3 W4]. rewrite Hl in W2, W3. apply NoDup_cons in W2 as [Hpl Hnd].
  destruct (W3 p (list_elem_of_here _ _)) as (Hp0 & n & Hn & Hkey).
  split_and!; [split; simpl| |].
  - intros k q [[<- <-]|[Hne Hq]]%lookup_insert_Some.
    + split_and!; [done..|]. exists new. by rewrite lookup_insert, decide_True.
    + destruct (W1 k q Hq) as (? & Hk & m & Hm & ?). split_and!; [done..|]. exists m.
      pose proof (logical_not_zero k Hk). rewrite lookup_insert_ne by congruence. done.
  - done.
  - intros q Hq. destruct (W3 q (list_elem_of_further _ _ _ Hq)) as (? & m & Hm & ?). split; [done|]. exists m.
    rewrite lookup_insert_ne by congruence. done.
  - intros q m [[<- <-]|[Hne Hm]]%lookup_insert_Some; [by rewrite lookup_insert, decide_True|]. intros Hk.
    rewrite lookup_insert_ne; [by apply W4|]. intros Heq. rewrite Heq in Hnone. rewrite (W4 q m) in Hnone by done.
    simpl in Hnone. destruct (W1 (lp_key m) q) as [? _]; [by apply W4|done].
  - intros q m Hm Hh. simpl in Hm. apply lookup_insert_Some in Hm as [[<- <-]|[Hne Hm]]; [done|].
    right. by exists m.
  - intros k q m Hq Hm. simpl in Hq, Hm. apply lookup_insert_Some in Hq as [[<- <-]|[Hne Hq]]; [by left|].
    destruct (W1 k q Hq) as (_ & Hk & m' & Hm' & ?). pose proof (logical_not_zero k Hk).
    apply lookup_insert_Some in Hm as [[<- <-]|[_ Hm]]; [congruence|]. right. by exists m.
Qed.

Lemma safe_dealloc p : pspec F (safe K X) (authmgrLogicalPortInfoDeAlloc p).
Proof. pose proof safe_delete. unfold authmgrLogicalPortInfoDeAlloc. safe. Qed.

(** A node without an authorized client *)
Definition cold (s : authmgrCB_t) (p : Z) : Prop := ∀ n, g_nodes s !! p = Some n → ¬ hot n.

Lemma runs_alloc i s :
  (∀ l, K (AUTHMGR_LPORT_KEY_PACK i l AUTHMGR_LOGICAL 0)) →
  runs F (λ p s', safe K X s s' ∧ (p ≠ NULLPTR → cold s' p ∧ ∃ n, g_nodes s' !! p = Some n ∧
    g_tree s' !! lp_key n = Some p ∧ cl_suppMacAddr (lp_client n) = zeroMac ∧
    ∃ l, 0 ≤ l ≤ AUTHMGR_LOGICAL_PORT_END ∧ lp_key n = AUTHMGR_LPORT_KEY_PACK i l AUTHMGR_LOGICAL 0))
    (authmgrLogicalPortInfoAlloc i) s.
Proof.
  intros HK. unfold authmgrLogicalPortInfoAlloc. apply runs_bind, runs_port. intros x _. simpl.
  unfold authmgrDynamicLogicalPortInfoAlloc.
  assert (∃ fuel, fuel = Z.to_nat (AUTHMGR_LOGICAL_PORT_END - AUTHMGR_LOGICAL_PORT_START)) as [fuel Hfuel] by eauto.
  rewrite <- Hfuel. assert (0 ≤ AUTHMGR_LOGICAL_PORT_START) as Hl by done. revert Hfuel Hl.
  generalize AUTHMGR_LOGICAL_PORT_START. induction fuel as [|f IH]; intros l Hfuel Hl.
  { apply runs_ret. split; [apply (PreOrder_Reflexive (R:=safe K X))|done]. }
  simpl. unfold authmgrLogicalPortInfoGet. rewrite key_type by done. simpl. unfold runs, mbind at 1, M_bind at 1. simpl.
  destruct (Z.eqb_spec (default NULLPTR (g_tree s !! AUTHMGR_LPORT_KEY_PACK i l AUTHMGR_LOGICAL 0)) NULLPTR) as [Hnone|]; [|apply IH; lia].
  set (k := AUTHMGR_LPORT_KEY_PACK i l AUTHMGR_LOGICAL 0).
  pose proof (safe_insert (lport_zero <| lp_key := k |>) s (key_type i l AUTHMGR_LOGICAL ltac:(done))
    (lport_zero_cold k) (HK l) Hnone) as Hs.
  revert Hs. unfold avlInsertEntry, runs, mbind, M_bind. simpl. destruct (g_free s) as [|p fr]; simpl; intros Hs; [by split|].
  rewrite lookup_insert, decide_True by done. simpl. split; [done|]. intros Hp. split.
  - intros n. simpl. rewrite lookup_insert, decide_True by done. intros [= <-]. apply lport_zero_cold.
  - exists (lport_zero <| lp_key := k |>). simpl. rewrite !lookup_insert, !decide_True by done.
    split_and!; [done..|]. exists l. split; [lia|done].
Qed.
End database.
#[export] Hint Resolve safe_dealloc : safe.

(** ** Clients *)

Section clients.
Context `{!Headers, !HeadersOk} {F : fault → Prop} `{!Allows F} (K : Z → Prop) (X : Z → list Z → Prop).

Lemma safe_mac_remove mac : pspec F (safe K X) (authmgrMacAddrInfoRemove mac).
Proof. unfold authmgrMacAddrInfoRemove. safe. Qed.
Lemma safe_mac_add mac l : pspec F (safe K X) (authmgrMacAddrInfoAdd mac l).
Proof. unfold authmgrMacAddrInfoAdd. safe. Qed.
Lemma safe_mac_find mac l : pspec F (safe K X) (authmgrMacAddrInfoFind mac l).
Proof. unfold authmgrMacAddrInfoFind. safe. Qed.
Lemma safe_status_count p i st cur : pspec F (safe K X) (status_count p i st cur).
Proof. unfold status_count. safe. Qed.
#[local] Hint Resolve safe_mac_remove safe_mac_add safe_mac_find safe_status_count : safe.

Lemma safe_status_set p st :
  st ≠ AUTHMGR_PORT_STATUS_AUTHORIZED → pspec F (safe K X) (authmgrClientStatusSet p st).
Proof.
  intros Hst. unfold authmgrClientStatusSet. destruct st; [safe|done|]. safe.
Qed.

(** The only step that authorizes: for a client with a pending success, or one that may be *)
Lemma safe_authorize p s :
  (∀ n, g_nodes s !! p = Some n → hot n ∨ X (lp_key n) (cl_suppMacAddr (lp_client n))) →
  runs F (λ _, safe K X s) (authmgrClientStatusSet p AUTHMGR_PORT_STATUS_AUTHORIZED) s.
Proof.
  intros Hhot. unfold authmgrClientStatusSet. destruct (p =? NULLPTR); [apply pspec_ret, _|].
  apply runs_bind, runs_node. intros n Hn. simpl. case_bool_decide.
  { apply (safe_calm K X). eauto with pac. }
  apply runs_bind, runs_port. intros i Hi.
  assert (runs F (λ _, safe K X s) (
      client_upd p (set cl_logicalPortStatus (λ _, AUTHMGR_PORT_STATUS_AUTHORIZED));;
      status_count p (AUTHMGR_PORT_GET (lp_key n)) AUTHMGR_PORT_STATUS_AUTHORIZED (cl_logicalPortStatus (lp_client n));;
      i ← port (AUTHMGR_PORT_GET (lp_key n));
      when (((pi_authCount i =? 0) && (AUTHMGR_PORT_STATUS_AUTHORIZED ==? AUTHMGR_PORT_STATUS_UNAUTHORIZED))
            || ((pi_authCount i =? 1) && (AUTHMGR_PORT_STATUS_AUTHORIZED ==? AUTHMGR_PORT_STATUS_AUTHORIZED)))
        (_ ← authmgrIhPhysicalPortStatusSet (AUTHMGR_PORT_GET (lp_key n)) AUTHMGR_PORT_STATUS_AUTHORIZED; mret tt);;
      mret SUCCESS) s) as Hr.
  { apply runs_bind, runs_node_upd. intros n' Hn'. simplify_eq.
    eapply runs_mono.
    - assert (∀ m : P RC_t, pspec F (safe K X) m → ∀ s', runs F (λ _, safe K X s') m s') as Hp by (intros m Hm s'; apply Hm).
      apply Hp. safe.
    - intros rc s' Hs'. etransitivity; [|exact Hs']. eapply safe_upd; [done|done| |by right]. intros _.
      destruct (Hhot n Hn); [right|by left]. by split. }
  destruct (pi_portControlMode i); first [exact Hr|apply pspec_ret, _].
Qed.
#[local] Hint Extern 1 (pspec _ _ (authmgrClientStatusSet _ AUTHMGR_PORT_STATUS_UNAUTHORIZED)) =>
  by apply safe_status_set : safe.

Lemma safe_user_leaves i : pspec F (safe K X) (user_leaves i).
Proof. unfold user_leaves. safe. Qed.
#[local] Hint Resolve safe_user_leaves : safe.
Lemma safe_sw_cleanup p : pspec F (safe K X) (authmgrClientSwInfoCleanup p).
Proof. unfold authmgrClientSwInfoCleanup. safe. Qed.
#[local] Hint Resolve safe_sw_cleanup : safe.
Lemma safe_info_cleanup p : pspec F (safe K X) (authmgrClientInfoCleanup p).
Proof. unfold authmgrClientInfoCleanup. safe. Qed.
#[local] Hint Resolve safe_info_cleanup : safe.
Lemma safe_disconnect p : pspec F (safe K X) (authmgrClientDisconnectAction p).
Proof. unfold authmgrClientDisconnectAction. safe. Qed.
Lemma safe_auth_sw_cleanup p : pspec F (safe K X) (authmgrAuthenticatedClientSwInfoCleanup p).
Proof. unfold authmgrAuthenticatedClientSwInfoCleanup. safe. Qed.
#[local] Hint Resolve safe_auth_sw_cleanup : safe.
Lemma safe_auth_cleanup p : pspec F (safe K X) (authmgrAuthenticatedClientCleanupAction p).
Proof. unfold authmgrAuthenticatedClientCleanupAction, authmgrAuthenticatedClientCleanup. safe. Qed.
End clients.
#[export] Hint Resolve safe_mac_remove safe_mac_add safe_mac_find safe_info_cleanup safe_disconnect safe_auth_cleanup : safe.
#[export] Hint Extern 1 (pspec _ _ (authmgrClientStatusSet _ AUTHMGR_PORT_STATUS_UNAUTHORIZED)) =>
  by apply safe_status_set : safe.

(** ** The state machine *)

Section machine.
Context `{!Headers, !HeadersOk}.

(** No client is new, none becomes hot. *)
Definition nokey (k : Z) : Prop := False.
Definition none (k : Z) (mac : list Z) : Prop := False.

Lemma calm_first_method F `{!Allows F} n j l : pspec F calm (first_method n j l).
Proof. revert j. induction n; intros j; simpl; pac. Qed.
Lemma calm_next_method F `{!Allows F} n j l m : pspec F calm (next_method n j l m).
Proof. revert j. induction n; intros j; simpl; pac. Qed.
#[local] Hint Resolve calm_first_method calm_next_method : pac.
Lemma calm_method_next F `{!Allows F} i m : pspec F calm (authmgrEnabledMethodNextGet i m).
Proof. unfold authmgrEnabledMethodNextGet, authmgrNextMethodGet, authmgrFirstMethodGet, with_methods. pac. Qed.
Lemma calm_trigger F `{!Allows F} p : pspec F calm (authmgrAuthenticationTrigger p).
Proof. unfold authmgrAuthenticationTrigger. pac. Qed.
#[local] Hint Resolve calm_method_next calm_trigger : pac.

Lemma safe_held p : pspec partial (safe nokey none) (authmgrHeldAction p).
Proof. unfold authmgrHeldAction, authmgrTxCannedFail. safe. Qed.
Lemma safe_unauthenticated p : pspec partial (safe nokey none) (authmgrUnauthenticatedAction p).
Proof. unfold authmgrUnauthenticatedAction. safe. Qed.
Lemma safe_initialize p : pspec partial (safe nokey none) (authmgrInitializeAction p).
Proof. unfold authmgrInitializeAction. safe. Qed.

(** [m] after a step that is safe *)
Lemma safe_after {A B} (m : P A) (k : A → P B) s :
  runs partial (λ _, safe nokey none s) m s → (∀ a, pspec partial (safe nokey none) (k a)) →
  runs partial (λ _, safe nokey none s) (m ≫= k) s.
Proof.
  intros Hm Hk. apply runs_bind. eapply runs_mono; [exact Hm|]. intros a s' H1.
  eapply runs_mono; [apply Hk|]. intros b s'' H2. exact (transitivity H1 H2).
Qed.

Lemma safe_authenticated p s :
  (∀ n, g_nodes s !! p = Some n → hot n) → runs partial (λ _, safe nokey none s) (authmgrAuthenticatedAction p) s.
Proof.
  intros Hhot. unfold authmgrAuthenticatedAction, authmgrTxCannedSuccess. destruct (p =? NULLPTR); [apply pspec_ret, _|].
  apply runs_bind, runs_node. intros n Hn. apply safe_after; [apply safe_authorize; auto|]. intros rc.
  unfold client_upd. safe.
Qed.

Lemma authenticated_event ev st : authmgrStateTable ev st = AUTHMGR_AUTHENTICATED → ev = authmgrAuthSuccess.
Proof. by destruct ev, st. Qed.

Section open.
Context (gen : Z → P RC_t) (Hgen : ∀ l, pspec partial (safe nokey none) (gen l)).
#[local] Hint Resolve Hgen safe_held safe_unauthenticated safe_initialize : safe.

Lemma safe_authenticating p : pspec partial (safe nokey none) (authmgrAuthenticatingAction gen p).
Proof. unfold authmgrAuthenticatingAction, no_result. safe. Qed.
#[local] Hint Resolve safe_authenticating : safe.

Lemma safe_machine ev p s :
  (ev = authmgrAuthSuccess → ∀ n, g_nodes s !! p = Some n → hot n) →
  runs partial (λ _, safe nokey none s) (authmgrStateMachine gen ev p) s.
Proof.
  intros Hev. unfold authmgrStateMachine. destruct (p =? NULLPTR); [apply pspec_ret, _|].
  apply runs_bind, runs_node. intros n Hn.
  destruct (authmgrStateTable ev (pr_authState (lp_protocol n))) eqn:Htab.
  3: { apply safe_authenticated, Hev. by eapply authenticated_event. }
  all: match goal with |- runs _ _ ?m _ => enough (pspec partial (safe nokey none) m) as Hm by apply Hm end; safe.
Qed.

Lemma safe_classifier ev l :
  ev ≠ authmgrAuthSuccess → pspec partial (safe nokey none) (authmgrStateMachineClassifier gen ev l).
Proof. intros Hev. unfold authmgrStateMachineClassifier. safe. intros s. by apply safe_machine. Qed.

Lemma safe_classify ev l : ev ≠ authmgrAuthSuccess → pspec partial (safe nokey none) (classify gen ev l).
Proof. intros Hev. unfold classify. pose proof (safe_classifier ev l Hev). safe. Qed.

(** What follows may assume a well-formed database. *)
Lemma partial_intro {A} (K : Z → Prop) (X : Z → list Z → Prop) (m : P A) s :
  (wf s → runs partial (λ _, safe K X s) m s) → runs partial (λ _, safe K X s) m s.
Proof. unfold runs. intros Hm. destruct (m s); [|done]. intros Hwf. by apply (Hm Hwf). Qed.

(** A success is applied to the client for which it is pending. *)
Lemma safe_classify_success p l s n :
  g_nodes s !! p = Some n → hot n → (wf s → lp_key n = l) →
  runs partial (λ _, safe nokey none s) (classify gen authmgrAuthSuccess l) s.
Proof.
  intros Hn Hh Hk. apply partial_intro. intros Hwf. specialize (Hk Hwf).
  unfold classify, authmgrStateMachineClassifier. apply safe_after; [|intros; safe].
  apply runs_bind. unfold authmgrLogicalPortInfoGet. destruct (_ =? AUTHMGR_LOGICAL); [|apply pspec_ret, _].
  apply runs_bind, runs_gets, runs_ret. destruct (g_tree s !! l) as [q|] eqn:Hq; simpl; [|apply pspec_ret, _].
  destruct (q =? NULLPTR); [apply pspec_ret, _|].
  destruct (wf_tree s Hwf l q Hq) as (_ & Hty & _). apply logical_not_zero in Hty.
  pose proof (wf_linked s Hwf p n Hn) as Hlink. rewrite Hk in Hlink. specialize (Hlink Hty).
  simplify_eq. apply safe_machine. intros _ n' Hn'. congruence.
Qed.

(** The key of a node that may be about to be authorized *)
Definition keyed (p l : Z) (s : authmgrCB_t) : Prop :=
  ∀ n, g_nodes s !! p = Some n → hot n → wf s → lp_key n = l.

#[local] Hint Extern 1 (pspec _ _ (classify _ _ _)) => by apply safe_classify : safe.

Lemma safe_advance p i : pspec partial (safe nokey none) (advance_method p i).
Proof. unfold advance_method. safe. Qed.
#[local] Hint Resolve safe_advance : safe.

Lemma safe_held_expired p : pspec partial (safe nokey none) (held_expired p).
Proof. unfold held_expired. safe. Qed.
#[local] Hint Resolve safe_held_expired : safe.

Lemma safe_events_unauthenticated p i l s :
  keyed p l s → runs partial (λ _, safe nokey none s) (events_unauthenticated gen p i l) s.
Proof.
  intros Hk. unfold events_unauthenticated. apply runs_bind, runs_node. intros n Hn.
  destruct (pr_authSuccess (lp_protocol n)) eqn:Hs.
  { eapply safe_classify_success; [done|by right|]. apply Hk; [done|by right]. }
  match goal with |- runs _ _ ?m _ => enough (pspec partial (safe nokey none) m) as Hm by apply Hm end. safe.
Qed.

Lemma safe_events_authenticating p i l s :
  keyed p l s → runs partial (λ _, safe nokey none s) (events_authenticating gen p i l) s.
Proof.
  intros Hk. unfold events_authenticating. apply runs_bind, runs_node. intros n Hn.
  destruct (pr_authSuccess (lp_protocol n)) eqn:Hs.
  - assert (runs partial (λ _, safe nokey none s) (classify gen authmgrAuthSuccess l) s) as Hc.
    { eapply safe_classify_success; [done|by right|]. apply Hk; [done|by right]. }
    destruct (_ && _ && _); [apply pspec_ret, _|]. destruct (_ && _ && _); [by apply safe_classify|].
    destruct (pr_unAuthenticate _); [by apply safe_classify|done].
  - match goal with |- runs _ _ ?m _ => enough (pspec partial (safe nokey none) m) as Hm by apply Hm end. safe.
    all: apply safe_classify; by repeat case_match.
Qed.

Lemma safe_events_held p l : pspec partial (safe nokey none) (events_held gen p l).
Proof. unfold events_held. safe. Qed.

Lemma safe_events_authenticated p i l s :
  keyed p l s → runs partial (λ _, safe nokey none s) (events_authenticated gen p i l) s.
Proof.
  intros Hk. unfold events_authenticated. apply runs_bind, runs_node. intros n Hn.
  destruct (pr_authSuccess (lp_protocol n)) eqn:Hs.
  { eapply safe_classify_success; [done|by right|]. apply Hk; [done|by right]. }
  match goal with |- runs _ _ ?m _ => enough (pspec partial (safe nokey none) m) as Hm by apply Hm end. safe.
Qed.

(** A later state of a well-formed one *)
Lemma keyed_later p l s s' : wf s → g_tree s !! l = Some p → safe nokey none s s' → keyed p l s'.
Proof.
  intros Hwf Hl Hs n' Hn' Hh _. destruct (Hs Hwf) as (_ & H' & _). destruct (H' p n' Hn' Hh) as [[]|(n & Hn & _ & Hk & _)].
  destruct (wf_tree s Hwf l p Hl) as (_ & _ & m & Hm & <-). congruence.
Qed.

(** A step from any state that follows [s] *)
Lemma safe_chain {A B} (m : P A) (k : A → P B) s s1 :
  safe nokey none s s1 → runs partial (λ _, safe nokey none s1) m s1 →
  (∀ a s2, safe nokey none s s2 → runs partial (λ _, safe nokey none s) (k a) s2) →
  runs partial (λ _, safe nokey none s) (m ≫= k) s1.
Proof.
  intros H1 Hm Hk. apply runs_bind. eapply runs_mono; [exact Hm|]. intros a s2 H2. apply Hk. exact (transitivity H1 H2).
Qed.

Lemma safe_in_state p st body b s :
  runs partial (λ _, safe nokey none s) body s → runs partial (λ _, safe nokey none s) (in_state p st body b) s.
Proof.
  intros Hb. unfold in_state. destruct b; [apply pspec_ret, _|]. apply runs_bind, runs_node. intros n _.
  case_bool_decide; [done|apply pspec_ret, _].
Qed.

Lemma safe_generate_events l : pspec partial (safe nokey none) (generate_events gen l).
Proof.
  intros s. apply partial_intro. intros Hwf. unfold generate_events, authmgrLogicalPortInfoGet.
  destruct (_ =? AUTHMGR_LOGICAL); [|apply pspec_ret, _]. apply runs_bind, runs_bind, runs_gets, runs_ret.
  destruct (g_tree s !! l) as [p|] eqn:Hp; cbn [default from_option id]; [|apply pspec_ret, _]. destruct (p =? NULLPTR); [apply pspec_ret, _|].
  pose proof (λ s', keyed_later p l s s' Hwf Hp) as Hk.
  apply runs_bind, runs_node. intros n Hn. generalize (AUTHMGR_PORT_GET (lp_key n)). intros i.
  assert (safe nokey none s s) as Hs0 by reflexivity. revert Hs0. generalize s at 2 4. intros s0 Hs0.
  eapply safe_chain; [exact Hs0| |intros _ s1 H1].
  { match goal with |- runs _ _ ?m _ => enough (pspec partial (safe nokey none) m) as Hm by apply Hm end. safe. }
  eapply safe_chain; [exact H1|apply safe_in_state, safe_events_unauthenticated; auto|intros b1 s2 H2].
  eapply safe_chain; [exact H2|apply safe_in_state, safe_events_authenticating; auto|intros b2 s3 H3].
  eapply safe_chain; [exact H3|apply safe_in_state, safe_events_held|intros b3 s4 H4].
  eapply safe_chain; [exact H4|apply safe_in_state, safe_events_authenticated; auto|intros b4 s5 H5].
  by apply runs_ret.
Qed.
End open.

Lemma safe_generate fuel l : pspec partial (safe nokey none) (generate fuel l).
Proof.
  revert l. induction fuel as [|f IH]; intros l; [intros s; done|]. by apply safe_generate_events.
Qed.
End machine.

(** ** Events *)

Section events.
Context `{!Headers, !HeadersOk}.

Lemma none_safe K X {A} (m : P A) : pspec partial (safe nokey none) m → pspec partial (safe K X) m.
Proof. intros Hm. eapply pspec_mono; [exact Hm|]. intros s s'. by apply safe_mono. Qed.

Lemma safe_gen K X l : pspec partial (safe K X) (authmgrGenerateEvents l).
Proof. apply none_safe, safe_generate. Qed.
Lemma safe_event K X ev l : ev ≠ authmgrAuthSuccess → pspec partial (safe K X) (authmgrStateMachineEvent ev l).
Proof. intros Hev. apply none_safe, safe_classifier; [apply safe_generate|done]. Qed.
#[local] Hint Resolve safe_gen : safe.
#[local] Hint Extern 1 (pspec _ _ (authmgrStateMachineEvent _ _)) => by apply safe_event : safe.

(** The database from a well-formed state on: the node of a key *)
Lemma tree_node s l p : wf s → g_tree s !! l = Some p → ∃ n, g_nodes s !! p = Some n ∧ lp_key n = l.
Proof. intros Hwf Hl. by destruct (wf_tree s Hwf l p Hl) as (_ & _ & ?). Qed.

(** [m] at the node of [l], or [z] without one *)
Lemma runs_get {F A} `{!Allows F} (Q : A → authmgrCB_t → Prop) l (z : A) (m : Z → P A) s :
  Q z s → (∀ p, g_tree s !! l = Some p → runs F Q (m p) s) →
  runs F Q (p ← authmgrLogicalPortInfoGet l; if p =? NULLPTR then mret z else m p) s.
Proof.
  intros Hz Hm. apply runs_bind. unfold authmgrLogicalPortInfoGet. destruct (_ =? AUTHMGR_LOGICAL); [|done].
  apply runs_bind, runs_gets, runs_ret. destruct (g_tree s !! l) as [p|] eqn:Hp; cbn [default from_option id]; [|done].
  destruct (p =? NULLPTR); [done|]. by apply Hm.
Qed.

(** A step between two states in which the client of [l] is new *)
Lemma safe_init l : pspec partial (safe (λ k, k = l) none) (authmgrLogicalPortInfoInit l).
Proof.
  intros s. apply partial_intro. intros Hwf. unfold authmgrLogicalPortInfoInit.
  apply runs_get; [reflexivity|]. intros p Hp. destruct (tree_node s l p Hwf Hp) as (n & Hn & Hk).
  apply runs_bind, runs_node. intros n' Hn'. simplify_eq. apply runs_bind.
  assert (pspec partial calm (when (cl_logicalPortStatus (lp_client n) ==? AUTHMGR_PORT_STATUS_AUTHORIZED)
    (_ ← authmgrClientHwInfoCleanup p; mret tt))) as Hc by pac.
  eapply runs_mono; [apply Hc|]. intros [] s1 Hs1.
  apply runs_bind, runs_node_upd. intros n1 Hn1.
  assert (lp_key n1 = lp_key n) as Hk1 by (by destruct (calm_at s s1 p n n1)).
  eapply runs_mono.
  - match goal with |- runs _ _ ?m ?s2 => enough (pspec partial (safe (λ k, k = lp_key n) none) m) as Hm by apply Hm end.
    safe.
  - intros rc s3 Hs3. etransitivity; [by apply calm_safe|]. etransitivity; [|exact Hs3].
    eapply safe_upd; [done|done|by intros [|]|]. intros _. by left.
Qed.
(** ** The client of an address *)

Definition allkeys (k : Z) : Prop := True.

(** If [l] has a client, it is the one of [mac] on the port [i]. *)
Definition client_at (i : Z) (mac : list Z) (l : Z) (s : authmgrCB_t) : Prop := ∀ p n,
  g_tree s !! l = Some p → g_nodes s !! p = Some n →
  AUTHMGR_PORT_GET l = i ∧ cl_suppMacAddr (lp_client n) = mac.

Lemma client_at_later X i mac l s s' : wf s → safe nokey X s s' → client_at i mac l s → client_at i mac l s'.
Proof.
  intros Hwf Hs Hc p n' Hp Hn'. destruct (Hs Hwf) as (_ & _ & Hk).
  destruct (Hk l p n' Hp Hn') as [[]|(n & Hp' & Hn & ->)]. by apply (Hc p).
Qed.

Lemma fits_key i l : 0 ≤ i < 2 ^ 16 → 0 ≤ l ≤ AUTHMGR_LOGICAL_PORT_END →
  AUTHMGR_PORT_GET (AUTHMGR_LPORT_KEY_PACK i l AUTHMGR_LOGICAL 0) = i.
Proof. intros Hi Hl. pose proof end_fits. apply key_port; [done|lia|done]. Qed.

Lemma runs_client_of_mac i mac s :
  0 ≤ i < 2 ^ 16 →
  runs partial (λ r s', s' = s ∧ ∀ l, r = Some l → client_at i mac l s) (client_of_mac i mac) s.
Proof.
  intros Hi. apply (runs_for_each (λ r s', s' = s ∧ ∀ l, r = Some l → client_at i mac l s)); [|done].
  intros l p y s' Hl [-> Hy] Hp. apply runs_bind, runs_node. intros n Hn. apply runs_ret. split; [done|].
  case_bool_decide as Hm; [|done]. intros l' [= <-] p' n' Hp' Hn'. simplify_eq. split; [by apply fits_key|done].
Qed.

Lemma safe_timeout K X l : pspec partial (safe K X) (authmgrCtlLogicalPortClientTimeout l).
Proof. unfold authmgrCtlLogicalPortClientTimeout. safe. Qed.
Lemma safe_cleanup K X l : pspec partial (safe K X) (authmgrCtlClientCleanup l).
Proof. unfold authmgrCtlClientCleanup. safe. Qed.
Lemma safe_add_mac K X l : pspec partial (safe K X) (authmgrAddMac l).
Proof. unfold authmgrAddMac. safe. Qed.
#[local] Hint Resolve safe_timeout safe_cleanup safe_add_mac : safe.
Lemma safe_mac_move K X i mac l : pspec partial (safe K X) (mac_move i mac l).
Proof. unfold mac_move. safe. Qed.
#[local] Hint Resolve safe_mac_move : safe.

(** A success of [authmgrAddMac] is for a client of the database *)
Lemma add_mac_linked l s :
  runs partial (λ rc s', safe nokey none s s' ∧ (rc = SUCCESS → ∃ p, g_tree s !! l = Some p)) (authmgrAddMac l) s.
Proof.
  pose proof (safe_add_mac nokey none l s) as Hs. revert Hs. unfold runs. destruct (authmgrAddMac l s) as [rc s'|] eqn:Hr; [|done].
  intros Hs. split; [done|]. intros ->. revert Hr. unfold authmgrAddMac, authmgrLogicalPortInfoGet, mbind, M_bind.
  destruct (_ =? AUTHMGR_LOGICAL); simpl; [|done]. destruct (g_tree s !! l); [eauto|done].
Qed.

(** The address of a client without authorization may be set. *)
Lemma new_mac k p mac s n :
  wf s → g_nodes s !! p = Some n → lp_key n = k ∨ lp_key n = 0 → ¬ hot n →
  safe (λ k', k' = k) none s (s <| g_nodes ::= <[p := n <| lp_client ::= set cl_suppMacAddr (λ _, mac) |>]> |>).
Proof.
  intros Hwf Hn Hk Hcold. destruct Hk as [Hk|Hk].
  - eapply safe_upd; [done|done| |by left]. intros Hh. by destruct Hcold.
  - intros _. split_and!; [by eapply wf_upd| |].
    + intros q m Hm Hh. simpl in Hm. apply lookup_insert_Some in Hm as [[<- <-]|[_ Hm]]; [by destruct Hcold|].
      right. by exists m.
    + intros k' q m Hq Hm. simpl in Hq, Hm. apply lookup_insert_Some in Hm as [[<- <-]|[_ Hm]]; [|right; by exists m].
      destruct (wf_tree s Hwf k' p Hq) as (_ & Hty%logical_not_zero & m & Hm & <-). congruence.
Qed.

(** The client of a node after its address was set *)
Lemma client_at_new i mac k p s n s' :
  g_nodes s !! p = Some n → lp_key n = k ∨ lp_key n = 0 → AUTHMGR_PORT_GET k = i →
  s' = s <| g_nodes ::= <[p := n <| lp_client ::= set cl_suppMacAddr (λ _, mac) |>]> |> →
  wf s' → (∃ q, g_tree s' !! lp_key n = Some q) → client_at i mac (lp_key n) s'.
Proof.
  intros Hn Hk Hi Hs' Hwf' [q Hq]. destruct (wf_tree s' Hwf' _ _ Hq) as (_ & Hty%logical_not_zero & _).
  assert (lp_key n = k) as Hkk by (by destruct Hk).
  set (n' := n <| lp_client ::= set cl_suppMacAddr (λ _, mac) |>) in *.
  assert (g_nodes s' !! p = Some n') as Hn' by (by subst s'; simpl; rewrite lookup_insert, decide_True).
  assert (g_tree s' !! lp_key n = Some p) as Hlp by (by apply (wf_linked s' Hwf' p n')).
  intros q' m Hq' Hm. rewrite Hlp in Hq'. injection Hq' as <-. rewrite Hn' in Hm. injection Hm as <-.
  split; [congruence|done].
Qed.

Lemma runs_client_register i mac k p s n :
  wf s → g_nodes s !! p = Some n → lp_key n = k ∨ lp_key n = 0 → ¬ hot n → AUTHMGR_PORT_GET k = i →
  runs partial (λ r s', safe allkeys none s s' ∧ ∀ l, r = Some l → client_at i mac l s') (client_register i p mac) s.
Proof.
  intros Hwf Hn Hk Hcold Hi. unfold client_register. apply runs_bind, runs_node. intros n' Hn'. simplify_eq.
  apply runs_bind, runs_node_upd. intros n' Hn''. simplify_eq.
  pose proof (new_mac k p mac s n Hwf Hn Hk Hcold) as Hs1.
  destruct (Hs1 Hwf) as (Hwf1 & _ & _). apply (safe_mono _ allkeys _ none) in Hs1; [|done..].
  apply runs_bind. eapply runs_mono; [apply add_mac_linked|]. intros rc s2 [Hs2 Hlink].
  assert (∀ s3, safe nokey none s2 s3 → safe allkeys none s s3) as Hall.
  { intros s3 Hs3. etransitivity; [exact Hs1|]. eapply safe_mono; [..|exact (transitivity Hs2 Hs3)]; done. }
  destruct (is_SUCCESS rc) eqn:Hrc.
  - apply runs_bind, runs_port_upd. intros y _. apply runs_ret. split; [by apply Hall, safe_same|].
    intros l [= <-]. eapply client_at_later; [exact Hwf1| |].
    + etransitivity; [exact Hs2|]. by apply safe_same.
    + eapply client_at_new; [done..|]. apply Hlink. by destruct rc.
  - apply runs_bind. eapply runs_mono; [apply (safe_dealloc nokey none)|]. intros r s3 Hs3. apply runs_ret.
    split; [by apply Hall|done].
Qed.

Lemma runs_client_new i mac s :
  0 ≤ i < 2 ^ 16 → wf s →
  runs partial (λ r s', safe allkeys none s s' ∧ ∀ l, r = Some l → client_at i mac l s') (client_new i mac) s.
Proof.
  intros Hi Hwf. unfold client_new. apply runs_bind, runs_port. intros x _.
  destruct (_ >=? _); [apply runs_ret; by split|]. apply runs_bind.
  eapply runs_mono; [apply (runs_alloc allkeys none); done|]. intros p s1 [Hs1 Hp].
  destruct (Z.eqb_spec p NULLPTR) as [|Hnp]; [apply runs_ret; by split|].
  destruct (Hp Hnp) as (Hcold & n & Hn & Ht & _ & l & Hl & Hkey).
  assert (wf s1) as Hwf1 by (by apply Hs1).
  apply runs_bind, runs_node. intros n' Hn'. simplify_eq. apply runs_bind.
  eapply runs_mono; [apply safe_init|]. intros rc s2 Hs2. destruct (Hs2 Hwf1) as (Hwf2 & Hh2 & Hk2).
  destruct (g_nodes s2 !! p) as [n2|] eqn:Hn2; [|by unfold client_register, runs, node, mbind, M_bind; simpl; rewrite Hn2].
  eapply runs_mono; [eapply (runs_client_register i mac (lp_key n)); [done|done| | |]|].
  - destruct (decide (lp_key n2 = 0)) as [|Hne]; [by right|]. left.
    pose proof (wf_linked s2 Hwf2 p n2 Hn2 Hne) as Hl2. destruct (Hk2 _ _ _ Hl2 Hn2) as [|(m & Hm & Hm' & _)]; [done|].
    destruct (tree_node s1 _ _ Hwf1 Hm) as (m' & ? & ?). congruence.
  - intros Hh. destruct (Hh2 p n2 Hn2 Hh) as [[]|(m & Hm & Hhm & _)]. by apply (Hcold m).
  - rewrite Hkey. by apply fits_key.
  - intros r s3 [Hs3 Hr]. split; [|done]. etransitivity; [exact Hs1|]. etransitivity; [|exact Hs3].
    eapply safe_mono; [..|exact Hs2]; done.
Qed.
Lemma runs_configurable i s :
  runs partial (λ r s', calm s s' ∧ (r ≠ None → 0 ≤ i < 2 ^ 16)) (authmgrIntfIsConfigurable i) s.
Proof.
  pose proof (calm_configurable (F:=partial) i s) as Hc. revert Hc. unfold runs.
  destruct (authmgrIntfIsConfigurable i s) as [r s'|] eqn:Hr; [|done]. intros Hc. split; [done|]. intros Hne. revert Hr.
  unfold authmgrIntfIsConfigurable, mbind, M_bind, mret, M_ret. simpl. destruct (g_ready s); simpl; [|congruence].
  destruct (Z.leb_spec i 0), (Z.geb_spec i AUTHMGR_INTF_MAX_COUNT); simpl; try congruence.
  intros _. pose proof ports_fit. lia.
Qed.

Definition mapped (i : Z) (mac : list Z) (s : authmgrCB_t) (r : option (Z * bool)) (s' : authmgrCB_t) : Prop :=
  safe allkeys none s s' ∧ ∀ l b, r = Some (l, b) → client_at i mac l s'.

Lemma mapped_none i mac s s' : safe allkeys none s s' → mapped i mac s None s'.
Proof. by split. Qed.

Lemma runs_pdu_map i mac s : wf s → runs partial (mapped i mac s) (authmgrDynamicUserPduMapCheck i mac) s.
Proof.
  intros Hwf. unfold authmgrDynamicUserPduMapCheck. apply runs_bind. eapply runs_mono; [apply runs_configurable|].
  intros r s1 [Hs1 Hi]. apply (calm_safe allkeys none) in Hs1. destruct r as [cfg|]; [|by apply runs_ret, mapped_none].
  specialize (Hi ltac:(done)). destruct (negb _); [by apply runs_ret, mapped_none|]. apply runs_bind.
  eapply runs_mono; [by apply runs_client_of_mac|]. intros found s1' [-> Hf]. destruct found as [l|].
  { apply runs_ret. split; [done|]. intros l' b [= <- _]. by apply Hf. }
  apply runs_bind. eapply runs_mono; [apply (safe_mac_move allkeys none)|]. intros ok s2 Hs2.
  assert (safe allkeys none s s2) as Hs02 by exact (transitivity Hs1 Hs2).
  destruct ok; simpl; [|by apply runs_ret, mapped_none]. apply runs_bind.
  eapply runs_mono; [apply runs_client_new; [done|by apply Hs02]|]. intros r s3 [Hs3 Hr]. apply runs_ret. split.
  - exact (transitivity Hs02 Hs3).
  - intros l b. destruct r; simpl; [|done]. intros [= <- _]. by apply Hr.
Qed.

Lemma runs_check_map i mac s : wf s → runs partial (mapped i mac s) (authmgrCheckMapPdu i mac) s.
Proof.
  intros Hwf. unfold authmgrCheckMapPdu. apply runs_bind, runs_gets. destruct (g_adminMode s); simpl.
  - apply runs_bind. eapply runs_mono; [apply runs_configurable|].
    intros r s1 [Hs1 Hi]. apply (calm_safe allkeys none) in Hs1. destruct r as [cfg|]; [|by apply runs_ret, mapped_none].
    apply runs_bind, runs_port. intros x _. simpl. eapply runs_mono; [apply runs_pdu_map; by apply Hs1|].
    intros r s2 [Hs2 Hr]. split; [exact (transitivity Hs1 Hs2)|done].
  - apply runs_ret. split; [done|]. intros l b [= <- _] p n Hp.
    by destruct (wf_tree s Hwf 0 p Hp) as (_ & ? & _).
Qed.

(** ** Results *)

Lemma safe_check_map X i mac : pspec partial (safe allkeys X) (authmgrCheckMapPdu i mac).
Proof.
  intros s. apply partial_intro. intros Hwf. eapply runs_mono; [by apply runs_check_map|]. intros r s' [Hs' _].
  eapply safe_mono; [..|exact Hs']; done.
Qed.
Lemma safe_unauth_addr X i mac v : pspec partial (safe allkeys X) (authmgrCtlPortUnauthAddrCallbackProcess i mac v).
Proof.
  pose proof safe_check_map. unfold authmgrCtlPortUnauthAddrCallbackProcess, client_block, client_admit. safe.
Qed.

Lemma calm_listed F `{!Allows F} n j l m : pspec F calm (method_listed n j l m).
Proof. revert j. induction n; intros j; simpl; pac. Qed.
#[local] Hint Resolve calm_listed : pac.
Lemma calm_before F `{!Allows F} n j l m1 m2 : pspec F calm (method_before n j l m1 m2).
Proof. revert j. induction n; intros j; simpl; pac. Qed.
#[local] Hint Resolve calm_before : pac.
Lemma calm_precedence F `{!Allows F} i m1 m2 : pspec F calm (authmgrPriorityPrecedenceValidate i m1 m2).
Proof. unfold authmgrPriorityPrecedenceValidate. pac. Qed.
#[local] Hint Resolve calm_precedence calm_trigger : pac.

Section results.
Context (K : Z → Prop) (X : Z → list Z → Prop).
Lemma safe_new_client l cp : pspec partial (safe K X) (authmgrNewClientAction l cp).
Proof. unfold authmgrNewClientAction, new_client_authorized. safe. Qed.
Lemma safe_comm_fail l cp : pspec partial (safe K X) (authmgrStatusServerCommFailAction l cp).
Proof. unfold authmgrStatusServerCommFailAction, take_user. safe. Qed.
Lemma safe_not_success l cp : pspec partial (safe K X) (authmgrStatusNotSuccessAction l cp).
Proof. unfold authmgrStatusNotSuccessAction, take_user. safe. Qed.
Lemma safe_disconnected l cp : pspec partial (safe K X) (authmgrStatusDisconnectAction l cp).
Proof. unfold authmgrStatusDisconnectAction. safe. Qed.
Lemma safe_by_method i m : pspec partial (safe K X) (authmgrClientsByMethodDelete i m).
Proof. unfold authmgrClientsByMethodDelete. safe. Qed.
#[local] Hint Resolve safe_by_method : safe.
Lemma safe_list_change n j i old m : pspec partial (safe K X) (list_change n j i old m).
Proof. revert j. induction n; intros j; simpl; safe. Qed.
Lemma calm_enabled_list F `{!Allows F} n j i l : pspec F calm (enabled_list n j i l).
Proof.
  revert j. induction n; intros j; simpl; unfold authmgrOperListEntryPopulate, authmgrRegisteredEntryFnMapGet; pac.
Qed.
#[local] Hint Resolve calm_enabled_list : pac.
Lemma calm_list_populate F `{!Allows F} i l : pspec F calm (authmgrEnabledListPopulate i l).
Proof. unfold authmgrEnabledListPopulate. pac. Qed.
#[local] Hint Resolve calm_list_populate : pac.
#[local] Hint Resolve safe_list_change : safe.
Lemma safe_lists_apply i l1 l2 c1 c2 : pspec partial (safe K X) (enabled_lists_apply i l1 l2 c1 c2).
Proof. unfold enabled_lists_apply, authmgrEnableListChangeAction. safe. Qed.
#[local] Hint Resolve safe_lists_apply : safe.
Lemma safe_order_change i : pspec partial (safe K X) (authmgrMethodOrderChangeProcess i).
Proof. unfold authmgrMethodOrderChangeProcess, authmgrPortEnabledListPopulate. safe. Qed.
#[local] Hint Resolve safe_order_change : safe.
Lemma safe_modify_methods i : pspec partial (safe K X) (authmgrMethodModifyAction i).
Proof. unfold authmgrMethodModifyAction. safe. Qed.
#[local] Hint Resolve safe_modify_methods : safe.
Lemma safe_auth_modify i cp : pspec partial (safe K X) (authmgrStatusAuthModifyAction i cp).
Proof. unfold authmgrStatusAuthModifyAction. safe. Qed.
Lemma safe_refused p l cp : pspec partial (safe K X) (success_refused p l cp).
Proof. unfold success_refused, result_fail. safe. Qed.
Lemma calm_known F `{!Allows F} i cp : pspec F calm (client_known i cp).
Proof. unfold client_known, authmgrMacAddrInfoFind. pac. Qed.
Lemma safe_client_disconnected i cp : pspec partial (safe K X) (client_disconnected i cp).
Proof. unfold client_disconnected. safe. Qed.
Lemma calm_ignored F `{!Allows F} i p cp : pspec F calm (result_ignored i p cp).
Proof. unfold result_ignored. pac. Qed.

(** Calm steps before a step from a state that may be authorized *)
Lemma runs_calm_bind {A B} (Q : B → authmgrCB_t → Prop) (m : P A) (k : A → P B) s s1 :
  calm s s1 → pspec partial calm m → (∀ a s2, calm s s2 → runs partial Q (k a) s2) → runs partial Q (m ≫= k) s1.
Proof.
  intros H1 Hm Hk. apply runs_bind. eapply runs_mono; [apply Hm|]. intros a s2 H2. apply Hk. exact (transitivity H1 H2).
Qed.

(** An accept that is admitted changes nothing yet; one that is not is a failure. *)
Lemma runs_accept p s :
  runs partial (λ rc s', safe K X s s' ∧ (rc = SUCCESS → calm s s')) (authmgrRadiusAcceptPostProcess p) s.
Proof.
  assert (∀ m : P RC_t, pspec partial calm m →
    ∀ s, runs partial (λ rc s', safe K X s s' ∧ (rc = SUCCESS → calm s s')) m s) as Hcalm.
  { intros m Hm s'. eapply runs_mono; [apply Hm|]. intros rc s'' Hc. split; [by apply calm_safe|done]. }
  assert (∀ s1, calm s s1 → runs partial (λ rc s', safe K X s s' ∧ (rc = SUCCESS → calm s s'))
    (protocol_upd p result_fail;; mret FAILURE) s1) as Hfail.
  { intros s1 H1. apply runs_bind. eapply runs_mono.
    - match goal with |- runs _ _ ?m _ => enough (pspec partial (safe K X) m) as Hm by apply Hm end. unfold result_fail. safe.
    - intros [] s2 H2. apply runs_ret. split; [|done]. etransitivity; [by apply calm_safe|exact H2]. }
  unfold authmgrRadiusAcceptPostProcess. destruct (p =? NULLPTR); [apply Hcalm; pac|].
  apply runs_bind, runs_node. intros n _. apply runs_bind, runs_gets. destruct (_ =? 0).
  - eapply runs_calm_bind; [reflexivity|pac|]. intros [rc v] s1 H1.
    eapply runs_calm_bind; [exact H1|pac|]. intros _ s2 H2. destruct (is_SUCCESS rc); [|by apply Hfail].
    apply runs_ret. split; [by apply calm_safe|done].
  - destruct (negb _); [by apply Hfail|]. apply Hcalm. unfold authmgrVlanAttrValidate. pac.
Qed.

Lemma runs_success l cp s :
  (∀ p n, g_tree s !! l = Some p → g_nodes s !! p = Some n → X l (cl_suppMacAddr (lp_client n))) →
  runs partial (λ _, safe K X s) (authmgrStatusSuccessAction l cp) s.
Proof.
  intros HX. apply partial_intro. intros Hwf. unfold authmgrStatusSuccessAction. apply runs_get; [reflexivity|]. intros p Hp.
  destruct (tree_node s l p Hwf Hp) as (n & Hn & Hk). apply runs_bind, runs_node. intros n' Hn'. simplify_eq.
  eapply runs_calm_bind; [reflexivity|pac|]. intros rc1 s1 H1.
  eapply runs_calm_bind; [exact H1|pac|]. intros [] s2 H2.
  eapply runs_calm_bind; [exact H2|unfold take_user; destruct (strlen (rp_userName cp) =? 0); pac|]. intros [] s3 H3.
  apply runs_bind. eapply runs_mono; [apply runs_accept|]. intros rc s4 [S4 C4].
  assert (∀ m s5, pspec partial (safe K X) m → safe K X s s5 → runs partial (λ _ : RC_t, safe K X s) m s5) as Hrest.
  { intros m s5 Hm H5. eapply runs_mono; [apply Hm|]. intros a s6 H6. exact (transitivity H5 H6). }
  pose proof safe_refused as Hrefused.
  destruct (is_SUCCESS rc) eqn:Hrc; simpl.
  2: { apply Hrest; [safe|]. etransitivity; [by apply calm_safe|exact S4]. }
  assert (calm s s4) as H4 by (etransitivity; [exact H3|apply C4; by destruct rc]).
  eapply runs_calm_bind; [exact H4|pac|]. intros [] s5 H5.
  eapply runs_calm_bind; [exact H5|unfold server_class_copy, first_bytes; pac|]. intros [] s6 H6.
  eapply runs_calm_bind; [exact H6|pac|]. intros rc' s7 H7.
  destruct (is_SUCCESS rc'); simpl; [|apply Hrest; [safe|by apply calm_safe]].
  apply runs_bind, runs_node_upd. intros n7 Hn7. destruct (calm_at s s7 p n n7 H7 Hn Hn7) as [Hk7 _ _ _ _ Hm7].
  apply Hrest.
  - unfold success_client. safe.
  - etransitivity; [by apply calm_safe|]. eapply safe_upd; [done|done| |by right]. intros _. left. simpl.
    rewrite Hk7, Hm7. by apply (HX p).
Qed.
End results.
#[local] Hint Resolve safe_new_client safe_comm_fail safe_not_success safe_disconnected safe_auth_modify
  safe_client_disconnected safe_order_change safe_modify_methods : safe.
#[local] Hint Resolve calm_known calm_ignored : pac.

(** The client that a success names *)
Definition named (i : Z) (cp : authmgrAuthRespParams_t) (k : Z) (mac : list Z) : Prop :=
  rp_status cp = AUTHMGR_AUTH_SUCCESS ∧ AUTHMGR_PORT_GET k = i ∧ mac = rp_macAddr cp.

Lemma runs_action i l cp s :
  client_at i (rp_macAddr cp) l s →
  runs partial (λ _, safe allkeys (named i cp) s) (authmgrStatusCalbackMapEntryGet (rp_status cp) l cp) s.
Proof.
  intros Hc. destruct (rp_status cp) eqn:Hst; simpl.
  3: { apply runs_success. intros p n Hp Hn. destruct (Hc p n Hp Hn) as [Hi Hm]. by split. }
  all: match goal with |- runs _ _ ?m _ => enough (pspec partial (safe allkeys (named i cp)) m) as Hm by apply Hm end; safe.
Qed.

Lemma runs_client_event i l b cp s :
  wf s → client_at i (rp_macAddr cp) l s → runs partial (λ _, safe allkeys (named i cp) s) (client_event i l b cp) s.
Proof.
  intros Hwf Hc. unfold client_event. apply runs_get; [reflexivity|]. intros p Hp.
  assert (∀ {A B} (m : P A) (k : A → P B) s1, safe nokey none s s1 → pspec partial (safe nokey none) m →
    (∀ a s2, safe nokey none s s2 → runs partial (λ _, safe allkeys (named i cp) s) (k a) s2) →
    runs partial (λ _, safe allkeys (named i cp) s) (m ≫= k) s1) as Hbind.
  { intros A B m k s1 H1 Hm Hk. apply runs_bind. eapply runs_mono; [apply Hm|]. intros a s2 H2.
    apply Hk. exact (transitivity H1 H2). }
  assert (∀ s1, safe nokey none s s1 → safe allkeys (named i cp) s s1) as Hup.
  { intros s1 H1. eapply safe_mono; [..|exact H1]; done. }
  apply Hbind; [reflexivity|safe|]. intros _ s1 H1. apply Hbind; [exact H1|safe|]. intros p' s2 H2.
  destruct (p' =? NULLPTR); [apply runs_ret; by apply Hup|].
  apply Hbind; [exact H2|safe|]. intros _ s3 H3. apply Hbind; [exact H3|safe|]. intros ig s4 H4.
  destruct ig; [apply runs_ret; by apply Hup|].
  eapply runs_mono; [apply runs_action; by eapply client_at_later|]. intros rc s5 H5.
  etransitivity; [by apply Hup|exact H5].
Qed.

Lemma safe_callback i cp : pspec partial (safe allkeys (named i cp)) (authmgrClientCallbackEventProcess i cp).
Proof.
  assert (pspec partial (safe allkeys (named i cp)) (
    res ← authmgrCheckMapPdu i (rp_macAddr cp);
    match res with
    | None => _ ← notify (rp_method cp) i authmgrClientDisconnect (rp_macAddr cp) SUCCESS; mret SUCCESS
    | Some (l, existing) => client_event i l existing cp
    end)) as Hmain.
  { intros s. apply partial_intro. intros Hwf. apply runs_bind. eapply runs_mono; [by apply runs_check_map|].
    intros r s1 [Hs1 Hr]. assert (safe allkeys (named i cp) s s1) as H1 by (eapply safe_mono; [..|exact Hs1]; done).
    eapply runs_mono with (Q := λ _, safe allkeys (named i cp) s1); [|intros rc s2 H2; exact (transitivity H1 H2)].
    destruct r as [[l b]|].
    - apply runs_client_event; [by apply Hs1|by eapply Hr].
    - match goal with |- runs _ _ ?m _ => enough (pspec partial (safe allkeys (named i cp)) m) as Hm by apply Hm end. safe. }
  unfold authmgrClientCallbackEventProcess, client_callback. destruct (rp_status cp); safe.
Qed.

Lemma safe_timer K X ty k : pspec partial (safe K X) (authmgrTimerExpiryAction ty k).
Proof.
  unfold authmgrTimerExpiryAction, authmgrQwhileExpiryAction, authmgrReAuthWhenExpiryAction, no_result. destruct ty; simpl; safe.
Qed.
Lemma safe_lport_reauth K X l : pspec partial (safe K X) (authmgrCtlLogicalPortReauthenticateSet l).
Proof. unfold authmgrCtlLogicalPortReauthenticateSet. safe. Qed.
Lemma safe_init_all X l : pspec partial (safe allkeys X) (authmgrLogicalPortInfoInit l).
Proof. eapply pspec_mono; [apply safe_init|]. intros s s'. by apply safe_mono. Qed.
#[local] Hint Resolve safe_callback safe_timer safe_lport_reauth safe_init_all safe_unauth_addr : safe.

(** *** Ports *)

Section ports.
Context (X : Z → list Z → Prop).

(** The logical port with the null address that a forced port gets may be authorized. *)
Definition may_force (i : Z) : Prop := ∀ k, AUTHMGR_PORT_GET k = i → X k zeroMac.

Lemma safe_port_cleanup i : pspec partial (safe allkeys X) (authmgrPortInfoCleanup i).
Proof. unfold authmgrPortInfoCleanup. safe. Qed.
Lemma safe_port_init i : pspec partial (safe allkeys X) (authmgrPortInfoInitialize i).
Proof. unfold authmgrPortInfoInitialize, port_info_fill. safe. Qed.
#[local] Hint Resolve safe_port_cleanup safe_port_init : safe.
Lemma safe_host_mode i m t : pspec partial (safe allkeys X) (host_mode_apply i m t).
Proof.
  assert (∀ m, pspec partial (safe allkeys X) (host_mode_set m i)) by (intros; unfold host_mode_set; safe).
  unfold host_mode_apply. destruct m; simpl; safe.
Qed.
#[local] Hint Resolve safe_host_mode : safe.

Lemma safe_force i st frame :
  (st = AUTHMGR_PORT_STATUS_AUTHORIZED → may_force i) → (∀ l, pspec partial calm (frame l)) →
  pspec partial (safe allkeys X) (force_port i st frame).
Proof.
  intros HX Hframe s. unfold force_port. apply runs_bind. eapply runs_mono; [apply runs_configurable|].
  intros r s1 [H1 Hi]. apply (calm_safe allkeys X) in H1. destruct r; [|by apply runs_ret].
  specialize (Hi ltac:(done)). apply runs_bind, runs_port_upd. intros x _.
  eapply runs_mono with (Q := λ _ s', safe allkeys X (s1 <| g_portInfo ::= <[i := x <| pi_hostMode := AUTHMGR_INVALID_HOST_MODE |>]> |>) s').
  2: { intros rc s2 H2. etransitivity; [exact H1|]. etransitivity; [|exact H2]. by apply safe_same. }
  generalize (s1 <| g_portInfo ::= <[i := x <| pi_hostMode := AUTHMGR_INVALID_HOST_MODE |>]> |>). clear s s1 H1 x. intros s.
  apply runs_bind. eapply runs_mono; [apply (runs_alloc allkeys X); done|]. intros p s1 [H1 Hp].
  destruct (Z.eqb_spec p NULLPTR) as [|Hnp]; [by apply runs_ret|].
  destruct (Hp Hnp) as (_ & n & Hn & _ & Hmac & l & Hl & Hkey).
  eapply runs_mono with (Q := λ _, safe allkeys X s1); [|intros rc s2 H2; exact (transitivity H1 H2)].
  apply runs_bind. eapply runs_mono with (Q := λ _, safe allkeys X s1).
  - destruct st; [by apply safe_status_set| |by apply safe_status_set]. apply safe_authorize. intros n' Hn'. simplify_eq.
    right. rewrite Hkey, Hmac. apply HX; [done|]. by apply fits_key.
  - intros rc s2 H2. eapply runs_mono with (Q := λ _, safe allkeys X s2); [|intros ? s3 H3; exact (transitivity H2 H3)].
    match goal with |- runs _ _ ?m _ => enough (pspec partial (safe allkeys X) m) as Hm by apply Hm end. safe.
Qed.

Lemma safe_control_apply i m :
  (m = AUTHMGR_PORT_FORCE_AUTHORIZED → may_force i) → pspec partial (safe allkeys X) (control_mode_apply i m).
Proof.
  intros HX. assert (pspec partial (safe allkeys X) (authmgrPortControlForceUnAuthActionSet i)) as H1.
  { apply safe_force; [done|]. intros l. unfold authmgrTxCannedFail. pac. }
  destruct m; unfold control_mode_apply, control_mode_store, authmgrVlanAcquirePort, authmgrVlanReleasePort,
    authmgrPortControlAutoActionSet; safe.
  apply safe_force; [by auto|]. intros l. unfold authmgrTxCannedSuccess. pac.
Qed.
Lemma safe_ctrl_mode i m :
  (m = AUTHMGR_PORT_FORCE_AUTHORIZED → may_force i) → pspec partial (safe allkeys X) (authmgrPortCtrlModeSet i m).
Proof. intros HX. pose proof (safe_control_apply i m HX). unfold authmgrPortCtrlModeSet. safe. Qed.
Lemma safe_mode_command i m :
  (m = AUTHMGR_PORT_FORCE_AUTHORIZED → may_force i) → pspec partial (safe allkeys X) (authmgrCtlPortControlModeSet i m).
Proof. intros HX. pose proof (safe_ctrl_mode i m HX). unfold authmgrCtlPortControlModeSet, if_admin. safe. Qed.
Lemma safe_host_command i m : pspec partial (safe allkeys X) (authmgrPortCtrlHostModeSet i m).
Proof. unfold authmgrPortCtrlHostModeSet, if_admin, control_mode_store. safe. Qed.

Section forced.
Context (i : Z) (HX : may_force i).
#[local] Hint Resolve safe_ctrl_mode : safe.
Lemma safe_apply_config : pspec partial (safe allkeys X) (authmgrCtlApplyPortConfigData i).
Proof. unfold authmgrCtlApplyPortConfigData. safe. Qed.
#[local] Hint Resolve safe_apply_config : safe.
Lemma safe_port_initialize : pspec partial (safe allkeys X) (authmgrCtlPortInitializeSet i).
Proof. unfold authmgrCtlPortInitializeSet, if_admin, authmgrDot1xPortPaeCapabilitiesGet. safe. Qed.
Lemma safe_capabilities m : pspec partial (safe allkeys X) (authmgrPaeCapabilitiesEventProcess i m).
Proof. unfold authmgrPaeCapabilitiesEventProcess, authmgrVlanReleasePort. safe. Qed.
Lemma safe_users_command m : pspec partial (safe allkeys X) (authmgrCtlPortMaxUsersSet i m).
Proof. unfold authmgrCtlPortMaxUsersSet, if_admin. safe. Qed.
Lemma safe_port_reset : pspec partial (safe allkeys X) (authmgrCtlPortReset i).
Proof. unfold authmgrCtlPortReset, if_admin, authmgrIntfOperBuildDefault. safe. Qed.
Lemma safe_port_enable : pspec partial (safe allkeys X) (port_enable i).
Proof. unfold port_enable. safe. Qed.
Lemma safe_intf_create : pspec partial (safe allkeys X) (authmgrIntfCreate i).
Proof.
  unfold authmgrIntfCreate, port_cfg, port_cfg_set, authmgrBuildDefaultIntfConfigData, default_list,
    authmgrCtlPortStatsClear, if_admin. safe.
Qed.
Lemma safe_intf_start : pspec partial (safe allkeys X) (authmgrIntfStart i).
Proof. unfold authmgrIntfStart, intf_restart, authmgrPortReset. safe. Qed.
Lemma safe_intf_change ev : pspec partial (safe allkeys X) (authmgrIhProcessIntfChange i ev).
Proof.
  pose proof safe_intf_create. unfold authmgrIhProcessIntfChange, intf_up, intf_down, intf_attach, authmgrIntfDetach,
    authmgrIntfDelete, authmgrPortReset, port_cfg, port_cfg_set. destruct ev; safe.
Qed.
End forced.

Lemma safe_admin_enable : (∀ i, may_force i) → pspec partial (safe allkeys X) authmgrCtlAdminModeEnable.
Proof.
  intros HX. assert (pspec partial (safe allkeys X) (for_each_intf authmgrFirstValidIntfNumber authmgrNextValidIntf port_enable)).
  { apply pspec_ports_until; [apply _|apply calm_safe|]. intros i. by apply safe_port_enable. }
  unfold authmgrCtlAdminModeEnable. safe.
Qed.
Lemma safe_admin_disable : pspec partial (safe allkeys X) authmgrCtlAdminModeDisable.
Proof.
  unfold authmgrCtlAdminModeDisable. safe. apply pspec_each_port; [apply _|apply calm_safe|]. intros i. safe.
Qed.
Lemma safe_startup phase : (∀ i, may_force i) → pspec partial (safe allkeys X) (authmgrIhProcessIntfStartup phase).
Proof.
  intros HX. pose proof safe_intf_create. pose proof (λ i, safe_intf_start i (HX i)).
  assert (∀ f, (∀ i, pspec partial (safe allkeys X) (f i)) → pspec partial (safe allkeys X) (each_interface (if_valid f))).
  { intros f Hf. apply pspec_each_interface; [apply _|apply calm_safe|]. intros i. unfold if_valid. safe. }
  unfold authmgrIhProcessIntfStartup, authmgrIntfActivateStartup. destruct phase; safe.
Qed.
Lemma safe_vlan ev : pspec partial (safe allkeys X) (authmgrVlanDispatchCmd ev).
Proof.
  assert (∀ i v, pspec partial (safe allkeys X) (vlan_clients_leave i v)) by (intros; unfold vlan_clients_leave, clients_leave; safe).
  assert (∀ i v, pspec partial (safe allkeys X) (authmgrVlanPortDeleteProcess i v)).
  { intros. unfold authmgrVlanPortDeleteProcess, authmgrVlanPortDeleteLocalUpdate. safe. }
  assert (∀ f, (∀ i, pspec partial (safe allkeys X) (f i)) → pspec partial (safe allkeys X) (each_port f)) as Heach.
  { intros f Hf. apply pspec_each_port; [apply _|apply calm_safe|done]. }
  unfold authmgrVlanDispatchCmd, authmgrVlanChangeProcess. destruct ev; unfold authmgrVlanDeleteProcess, authmgrVlanAddProcess,
    authmgrVlanPortAddProcess, authmgrVlanPortAddLocalUpdate, authmgrVlanPVIDChangeEventProcess, authmgrVlanConfDeleteProcess,
    authmgrVlanConfPortDeleteProcess, clients_leave; safe.
  all: apply Heach; intros; safe.
Qed.
End ports.

(** The messages that may force the port [i] into a mode: the command with that mode, and those
    that apply the configuration of the port *)
Definition forces (msg : pac_msg) (i : Z) : Prop :=
  match msg with
  | PacCmd (authmgrMgmtPortControlModeSet j mode) => j = i ∧ mode = AUTHMGR_PORT_FORCE_AUTHORIZED
  | PacCmd (authmgrIntfChange j _) | PacCmd (authmgrMgmtPortInitializeSet j) | PacCmd (authmgrPaeCapabilitiesEvent j _)
  | PacCmd (authmgrMgmtApplyPortConfigData j) | PacCmd (authmgrMgmtPortMaxUsersSet j _)
  | PacCmd (authmgrCtlPortInfoReset j) => j = i
  | PacCmd (authmgrIntfStartup _) | PacCmd authmgrMgmtAdminModeEnable | PacCmd authmgrMgmtApplyConfigData => True
  | _ => False
  end.
(** What a message may authorize *)
Definition authorizes (msg : pac_msg) (k : Z) (mac : list Z) : Prop :=
  match msg with
  | PacCmd (authmgrAuthMethodCallbackEvent i cp) => named i cp k mac
  | _ => mac = zeroMac ∧ forces msg (AUTHMGR_PORT_GET k)
  end.

(** The commands that force a port *)
#[local] Hint Extern 1 (may_force _ _) => intros k Hk; simpl; repeat split; congruence : safe.
#[local] Hint Resolve safe_intf_change safe_port_initialize safe_capabilities safe_host_command safe_apply_config
  safe_users_command safe_port_reset safe_admin_enable safe_admin_disable safe_startup safe_mode_command safe_vlan : safe.

Lemma safe_dispatch c : pspec partial (safe allkeys (authorizes (PacCmd c))) (authmgrDispatchCmd c).
Proof.
  apply pspec_bind; [apply _|safe|intros _]. destruct c; try (solve [eauto 4 with safe]).
  all: try (apply safe_mode_command; intros -> k <-; by repeat split).
  all: unfold authmgrTimerAction, authmgrCtlPortReauthenticateSet, authmgrCtlLogicalPortInitializeSet,
    authmgrCtlApplyLogicalPortConfigData, authmgrViolationModeSetAction, authmgrCtlPortQuietPeriodSet,
    authmgrCtlPortReAuthPeriodSet, authmgrCtlPortReAuthEnabledSet, authmgrCtlPortStatsClear, authmgrCtlApplyConfigData,
    authmgrRadiusResponseProcess, authmgrAuthenticationInitiate, if_admin; safe.
Qed.

Lemma safe_handle msg : pspec partial (safe allkeys (authorizes msg)) (pac_handle msg).
Proof.
  unfold pac_handle. apply pspec_bind; [apply _|safe|intros _].
  destruct msg; simpl; [apply safe_dispatch|apply safe_unauth_addr|apply safe_vlan].
Qed.

(** A run authorizes what its messages do *)
Lemma safe_run msgs : pspec partial (safe allkeys (λ k mac, ∃ msg, msg ∈ msgs ∧ authorizes msg k mac)) (pac_run msgs).
Proof.
  induction msgs as [|msg msgs IH]; simpl; [apply pspec_ret, _|]. apply pspec_bind; [apply _| |intros _].
  - eapply pspec_mono; [apply safe_handle|]. intros s s'. apply safe_mono; [done|]. intros k m ?. exists msg.
    split; [apply list_elem_of_here|done].
  - eapply pspec_mono; [exact IH|]. intros s s'. apply safe_mono; [done|]. intros k m (msg' & Hin & ?). exists msg'.
    split; [by apply list_elem_of_further|done].
Qed.

End events.

(** ** A concrete manager *)

Module Demo.
#[export] Instance headers : Headers :=
  {| AUTHMGR_METHOD_MIN := 0; AUTHMGR_METHOD_MAX := 2; FD_AUTHMGR_PORT_MAX_USERS := 16;
     AUTHMGR_METHOD_START := 1; MAX_PORT_COUNT := 8;
     FD_AUTHMGR_PORT_MODE := AUTHMGR_PORT_FORCE_AUTHORIZED; FD_AUTHMGR_HOST_MODE := AUTHMGR_MULTI_HOST_MODE;
     FD_AUTHMGR_RESTART_TIMER_VAL := 60; FD_AUTHMGR_PORT_REAUTH_PERIOD := 3600; FD_AUTHMGR_PORT_REAUTH_ENABLED := false;
     FD_AUTHMGR_PORT_REAUTH_PERIOD_FROM_SERVER := false; FD_AUTHMGR_RADIUS_MAX_AUTH_ATTEMPTS := 3;
     FD_AUTHMGR_PORT_PAE_CAPABILITIES := DOT1X_PAE_PORT_NONE_CAPABLE; FD_AUTHMGR_LIST := [1; 2; 0];
     UP := 1; DOWN := 2; ENABLE := 1; platIntfTotalMaxCount := 3 |}.
#[export] Instance headers_ok : HeadersOk.
Proof. split; vm_compute; [lia|done]. Qed.

(** Every call succeeds, every interface is physical. *)
Definition answers (tr : list (pcall * pres)) (c : pcall) : pres := mkRes SUCCESS 1 true [0x45; 0x30; 0].
(** Port 3 with 802.1X before MAB *)
Definition port3 : authmgrPortInfo_t :=
  mkPortInfo 16 0 0 0 DOT1X_PAE_PORT_AUTH_CAPABLE [1; 2; 0] [1; 2; 0] 2 2 AUTHMGR_PORT_AUTO AUTHMGR_MULTI_AUTH_MODE
    true true 60 3600 false false 3 0 1 0.
Definition cfg3 : authmgrPortCfg_t :=
  mkPortCfg 1 [1; 2; 0] [1; 2; 0] AUTHMGR_PORT_AUTO AUTHMGR_MULTI_AUTH_MODE 60 3600 false false 16 3
    DOT1X_PAE_PORT_AUTH_CAPABLE.
Definition start : authmgrCB_t := mkCB true true {[3 := cfg3]} {[3 := port3]}
  {[3 := stats_zero]}
  [mkCallback 0 false false false false; mkCallback 1 true true true true; mkCallback 2 true true true true]
  ∅ {[1 := lport_zero; 2 := lport_zero]} [1; 2] ∅ {[1; 10]} {[3 := ({[1]}, ∅)]} {[1; 10]} {[3 := ({[1]}, ∅)]}
  client_zero client_zero attr_zero 0 answers [].

Definition mac : list Z := [0; 1; 2; 3; 4; 5].
Definition result (st : AUTHMGR_STATUS_t) : authmgrAuthRespParams_t :=
  mkResp st AUTHMGR_METHOD_8021X mac 2 AUTH_METHOD_RADIUS attr_zero (replicate AUTHMGR_USER_NAME_LEN 0) 0 true.
Definition msgs : list pac_msg :=
  [PacUnauthAddr 3 mac 1; PacCmd (authmgrAuthenticationStart (AUTHMGR_LPORT_KEY_PACK 3 0 AUTHMGR_LOGICAL 0));
   PacCmd (authmgrAuthMethodCallbackEvent 3 (result AUTHMGR_AUTH_SUCCESS))].
Definition after (l : list pac_msg) (s : authmgrCB_t) : authmgrCB_t := match pac_run l s with Ok _ s' => s' | Fault _ => s end.
Definition client1 : authmgrLogicalPortInfo_t := default lport_zero (g_nodes (after msgs start) !! 1).

Lemma start_nodes q n : g_nodes start !! q = Some n → n = lport_zero.
Proof. simpl. rewrite lookup_insert_Some, lookup_singleton_Some. naive_solver. Qed.
Lemma start_wf : wf start.
Proof.
  split; simpl.
  - intros k q Hk. by rewrite lookup_empty in Hk.
  - by apply (bool_decide_unpack _).
  - intros q Hq. apply elem_of_cons in Hq as [->|Hq]; [|apply list_elem_of_singleton in Hq as ->]; split; try done;
      exists lport_zero; done.
  - by intros q n ->%start_nodes.
Qed.
Lemma start_cold q n : g_nodes start !! q = Some n → ¬ hot n.
Proof. intros ->%start_nodes. by intros [|]. Qed.

(** The command [AUTHMGR_PORT_FORCE_AUTHORIZED] opens the port for a logical port without address. *)
Lemma forced_open :
  let s := after [PacCmd (authmgrMgmtPortControlModeSet 3 AUTHMGR_PORT_FORCE_AUTHORIZED)] start in
  cl_logicalPortStatus ∘ lp_client <$> g_nodes s !! 1 = Some AUTHMGR_PORT_STATUS_AUTHORIZED ∧
  cl_suppMacAddr ∘ lp_client <$> g_nodes s !! 1 = Some zeroMac ∧ pi_authCount <$> g_portInfo s !! 3 = Some 1.
Proof. vm_compute. done. Qed.

End Demo.
