(* ===== verification/PacTotal.v ===== *)
(** * The authentication manager: every message is handled to its end

    [authmgrGenerateEvents] and the state machine call each other.  A method that
    cannot be started counts as a failure and the machine goes on with the next one,
    from inside the handling of the first.  The rank of the current method in the
    list of the port bounds the depth, as long as no method is in the list twice;
    with a duplicate the calls never end. *)

From S2P Require Import Prelude CMem CString PacState PacPort PacClient PacSm PacEvents PacConfig PacFrame PacSafety.
#[local] Open Scope Z_scope.

(** ** States in which the methods of every port are distinct *)

Definition distinct (l : list Z) : Prop := ∀ (a b : nat) m, l !! a = Some m → l !! b = Some m → m ≠ AUTHMGR_METHOD_NONE → a = b.

Lemma distinct_nil : distinct [].
Proof. intros a b m Ha. by rewrite lookup_nil in Ha. Qed.

(** Only the first [AUTHMGR_METHOD_MAX] methods of a list are looked at. *)
Record good `{!Headers} (s : authmgrCB_t) : Prop := {
  good_wf : wf s;
  good_ports i x : g_portInfo s !! i = Some x → distinct (pi_enabledMethods x);
  good_nodes q n : g_nodes s !! q = Some n → pr_unAuthenticate (lp_protocol n) = false;
  good_cfg i c : g_portCfg s !! i = Some c → distinct (take AUTHMGR_METHOD_MAX (pc_methodList c));
  good_default : distinct (take AUTHMGR_METHOD_MAX FD_AUTHMGR_LIST)
}.

Section keeps.
Context `{!Headers}.

(** [m] keeps the state good, and does not run out of fuel. *)
Definition keeps {A} (m : P A) : Prop := ∀ s, good s → runs total (λ _, good) m s.

Lemma calm_port_methods x x' : calm_port x x' → pi_enabledMethods x' = pi_enabledMethods x.
Proof. intros Hc. by apply (f_equal pi_enabledMethods) in Hc. Qed.

Lemma calm_good s s' : calm s s' → good s → good s'.
Proof.
  intros Hc [Hwf Hp Hn Hcfg Hdef]. split; [| | | |done].
  - by apply (calm_safe nokey none s s' Hc).
  - intros i x' Hx'. pose proof (calm_ports s s' Hc i) as Hi. rewrite Hx' in Hi. inv Hi.
    erewrite calm_port_methods by done. eauto.
  - intros q n' Hn'. pose proof (calm_nodes s s' Hc q) as Hq. rewrite Hn' in Hq. inversion Hq as [n ? Hc' Hnq|]; subst.
    rewrite <- (Hn q n) by done. pose proof (cn_protocol n n' Hc') as Hpr. by apply (f_equal pr_unAuthenticate) in Hpr.
  - rewrite (calm_cfg s s' Hc). done.
Qed.

Lemma keeps_ret {A} (a : A) : keeps (mret a).
Proof. by intros s Hs. Qed.
Lemma keeps_bind {A B} (m : P A) (k : A → P B) : keeps m → (∀ a, keeps (k a)) → keeps (m ≫= k).
Proof. intros Hm Hk s Hs. apply runs_bind. eapply runs_mono; [by apply Hm|]. intros a s' Hs'. by apply Hk. Qed.
Lemma keeps_calm {A} (m : P A) : pspec total calm m → keeps m.
Proof. intros Hm s Hs. eapply runs_mono; [apply Hm|]. intros a s' Hc. exact (calm_good s s' Hc Hs). Qed.
Lemma keeps_when b (m : P unit) : keeps m → keeps (when b m).
Proof. intros Hm. destruct b; [done|apply keeps_ret]. Qed.
Lemma keeps_for_each `{!HeadersOk} {X} i (body : Z → Z → X → P (X * bool)) x :
  (∀ k p y, keeps (body k p y)) → keeps (for_each_lport i body x).
Proof.
  intros Hb s Hs. apply (runs_for_each (λ _, good)); [|done]. intros l p y s' _ Hs' _. by apply Hb.
Qed.

Lemma good_node_upd s p n n' :
  g_nodes s !! p = Some n → lp_key n' = lp_key n →
  pr_unAuthenticate (lp_protocol n') = false → good s → good (s <| g_nodes ::= <[p := n']> |>).
Proof.
  intros Hn Hk Hu [Hwf Hp Hns Hcfg Hdef]. split; simpl; [by eapply wf_upd|done| |done..].
  intros q m [[<- <-]|[_ Hm]]%lookup_insert_Some; [done|eauto].
Qed.
Lemma keeps_node_upd p f :
  (∀ n, lp_key (f n) = lp_key n ∧ (pr_unAuthenticate (lp_protocol n) = false → pr_unAuthenticate (lp_protocol (f n)) = false)) →
  keeps (node_upd p f).
Proof.
  intros Hf s Hs. apply runs_node_upd. intros n Hn. destruct (Hf n) as [Hk Hu].
  eapply good_node_upd; [done|done| |done..]. eapply Hu, good_nodes; done.
Qed.
Lemma keeps_port_upd i f : (∀ x, distinct (pi_enabledMethods x) → distinct (pi_enabledMethods (f x))) → keeps (port_upd i f).
Proof.
  intros Hf s Hs. apply runs_port_upd. intros x Hx. destruct Hs as [Hwf Hp Hn Hcfg Hdef].
  split; simpl; [|by intros j y [[<- <-]|[_ Hy]]%lookup_insert_Some; eauto|done..].
  by apply (safe_same nokey none s).
Qed.
Lemma keeps_modify f :
  (∀ s, g_tree (f s) = g_tree s) → (∀ s, g_free (f s) = g_free s) → (∀ s, g_nodes (f s) = g_nodes s) →
  (∀ s, g_portInfo (f s) = g_portInfo s) → (∀ s, g_portCfg (f s) = g_portCfg s) → keeps (modify f).
Proof.
  intros H1 H2 H3 H4 H5 s [Hwf Hp Hn Hcfg Hdef]. apply runs_modify. split; rewrite ?H3, ?H4, ?H5; [|done..].
  by apply (safe_same nokey none s).
Qed.

(** The configuration of a port changes *)
Lemma keeps_cfg_set i c : distinct (take AUTHMGR_METHOD_MAX (pc_methodList c)) → keeps (port_cfg_set i c).
Proof.
  intros Hc s [Hwf Hp Hn Hcfg Hdef]. apply runs_modify. split; simpl; [|done|done| |done..].
  - by apply (safe_same nokey none s).
  - by intros j y [[<- <-]|[_ Hy]]%lookup_insert_Some; eauto.
Qed.
Lemma keeps_each_port body : (∀ i, keeps (body i)) → keeps (each_port body).
Proof. intros Hb s Hs. apply (runs_each_port good); [apply calm_good|intros i; apply Hb|done]. Qed.
Lemma keeps_each_interface body : (∀ i, keeps (body i)) → keeps (each_interface body).
Proof. intros Hb s Hs. apply (runs_each_interface good); [apply calm_good|intros i; apply Hb|done]. Qed.
Lemma keeps_ports_until body :
  (∀ i, keeps (body i)) → keeps (for_each_intf authmgrFirstValidIntfNumber authmgrNextValidIntf body).
Proof.
  intros Hb s Hs. apply (runs_for_each_intf good); [apply calm_good|apply runs_port_next|apply runs_port_first|intros i; apply Hb|done].
Qed.
Lemma keeps_mforeach {A} (l : list A) (f : A → P unit) : (∀ x, keeps (f x)) → keeps (mforeach l f).
Proof. intros Hf. induction l as [|x l IH]; [apply keeps_ret|]. by apply keeps_bind. Qed.
End keeps.

Create HintDb keeps.
#[export] Hint Resolve keeps_ret : keeps.
(** An update that keeps the key of a node, and does not unauthenticate it *)
Ltac keeps_update := intros []; simpl; first [naive_solver|repeat case_match; simpl; naive_solver].
Ltac keeps1 :=
  lazymatch goal with
  | |- keeps (_ ≫= _) => apply keeps_bind; [|intros]
  | |- keeps (when _ _) => apply keeps_when
  | |- keeps (for_each_lport _ _ _) => apply keeps_for_each; intros
  | |- keeps (each_port _) => apply keeps_each_port; intros
  | |- keeps (each_interface _) => apply keeps_each_interface; intros
  | |- keeps (mforeach _ _) => apply keeps_mforeach; intros
  | |- keeps (node_upd _ _) => apply keeps_node_upd; keeps_update
  | |- keeps (client_upd _ _) => apply keeps_node_upd; keeps_update
  | |- keeps (protocol_upd _ _) => apply keeps_node_upd; keeps_update
  | |- keeps (state_set _ _) => apply keeps_node_upd; keeps_update
  | |- keeps (port_upd _ _) => apply keeps_port_upd; by intros []
  | |- keeps (modify _) => by apply keeps_modify
  | |- keeps (fail _) => apply keeps_calm, pspec_fail; done
  | |- keeps (from_option_or _ _) => apply keeps_calm, pspec_option; [apply _|done]
  | |- keeps (match ?x with _ => _ end) => destruct x
  end.
Ltac keeps := repeat (first [solve [eauto 2 with keeps] | solve [apply keeps_calm; eauto 2 with pac] | keeps1]).

(** ** The database and the clients *)

Section clients.
Context `{!Headers, !HeadersOk}.

Lemma keeps_delete k : keeps (avlDeleteEntry k).
Proof.
  intros s [Hwf Hp Hn Hcfg Hdef]. pose proof (safe_delete (F:=total) nokey none k s) as Hs. revert Hs.
  unfold runs, avlDeleteEntry, mbind, M_bind. simpl. destruct (g_tree s !! k) as [p|]; simpl; intros Hs; [|by split].
  split; simpl; [by apply Hs|done| |done..]. intros q m [[<- <-]|[_ Hm]]%lookup_insert_Some; [done|eauto].
Qed.
Lemma keeps_dealloc p : keeps (authmgrLogicalPortInfoDeAlloc p).
Proof. pose proof keeps_delete. unfold authmgrLogicalPortInfoDeAlloc. keeps. Qed.
#[local] Hint Resolve keeps_dealloc : keeps.
Lemma keeps_mac_remove mac : keeps (authmgrMacAddrInfoRemove mac).
Proof. unfold authmgrMacAddrInfoRemove. keeps. Qed.
Lemma keeps_mac_add mac l : keeps (authmgrMacAddrInfoAdd mac l).
Proof. unfold authmgrMacAddrInfoAdd. keeps. Qed.
Lemma keeps_mac_find mac l : keeps (authmgrMacAddrInfoFind mac l).
Proof. unfold authmgrMacAddrInfoFind. keeps. Qed.
#[local] Hint Resolve keeps_mac_remove keeps_mac_add keeps_mac_find : keeps.
Lemma keeps_status p st : keeps (authmgrClientStatusSet p st).
Proof. unfold authmgrClientStatusSet, status_count. keeps. Qed.
#[local] Hint Resolve keeps_status : keeps.
Lemma keeps_info_cleanup p : keeps (authmgrClientInfoCleanup p).
Proof. unfold authmgrClientInfoCleanup, authmgrClientSwInfoCleanup, user_leaves. keeps. Qed.
#[local] Hint Resolve keeps_info_cleanup : keeps.
Lemma keeps_disconnect p : keeps (authmgrClientDisconnectAction p).
Proof. unfold authmgrClientDisconnectAction. keeps. Qed.
Lemma keeps_auth_cleanup p : keeps (authmgrAuthenticatedClientCleanupAction p).
Proof.
  unfold authmgrAuthenticatedClientCleanupAction, authmgrAuthenticatedClientCleanup, authmgrAuthenticatedClientSwInfoCleanup.
  keeps.
Qed.
End clients.
#[export] Hint Resolve keeps_dealloc keeps_mac_remove keeps_mac_add keeps_mac_find keeps_status keeps_info_cleanup
  keeps_disconnect keeps_auth_cleanup : keeps.

(** ** The removal of a client leaves the states of the others *)

Definition still (s s' : authmgrCB_t) : Prop := ∀ q n', g_nodes s' !! q = Some n' →
  pr_authState (lp_protocol n') = AUTHMGR_INITIALIZE ∨
  ∃ n, g_nodes s !! q = Some n ∧ pr_authState (lp_protocol n') = pr_authState (lp_protocol n).

#[export] Instance still_preorder : PreOrder still.
Proof.
  split; [intros s q n Hn; right; by exists n|]. intros s1 s2 s3 H12 H23 q n3 Hn3.
  destruct (H23 q n3 Hn3) as [|(n2 & Hn2 & ->)]; [by left|]. by apply H12.
Qed.
Lemma calm_still s s' : calm s s' → still s s'.
Proof.
  intros Hc q n' Hn'. pose proof (calm_nodes s s' Hc q) as Hq. rewrite Hn' in Hq. inversion Hq as [n ? Hcn Hn|]; subst.
  right. exists n. split; [done|]. by apply (f_equal pr_authState (cn_protocol n n' Hcn)).
Qed.

Section still.
Context `{!Headers, !HeadersOk}.
Lemma still_calm {A} (m : P A) : pspec total calm m → pspec total still m.
Proof. intros Hm. eapply pspec_mono; [exact Hm|]. apply calm_still. Qed.
Lemma still_upd p f :
  (∀ n, pr_authState (lp_protocol (f n)) = pr_authState (lp_protocol n)) → pspec total still (node_upd p f).
Proof.
  intros Hf s. apply runs_node_upd. intros n Hn q m Hm. simpl in Hm. right.
  apply lookup_insert_Some in Hm as [[<- <-]|[_ Hm]]; [|by exists m]. exists n. by rewrite Hf.
Qed.
Lemma still_delete k : pspec total still (avlDeleteEntry k).
Proof.
  intros s. unfold runs, avlDeleteEntry, mbind, M_bind. simpl. destruct (g_tree s !! k) as [p|]; [|apply (PreOrder_Reflexive (R:=still))].
  intros q n Hn. simpl in Hn. apply lookup_insert_Some in Hn as [[<- <-]|[_ Hn]]; [by left|]. right. by exists n.
Qed.
Lemma still_port_upd i f : pspec total still (port_upd i f).
Proof. intros s. apply runs_port_upd. intros x _ q n Hn. right. by exists n. Qed.
Lemma still_modify f : (∀ s, g_nodes (f s) = g_nodes s) → pspec total still (modify f).
Proof. intros Hf s. apply runs_modify. intros q n Hn. rewrite Hf in Hn. right. by exists n. Qed.

Ltac still1 :=
  lazymatch goal with
  | |- pspec _ _ (client_upd _ _) => by apply still_upd
  | |- pspec _ _ (protocol_upd _ _) => by apply still_upd
  | |- pspec _ _ (port_upd _ _) => apply still_port_upd
  | |- pspec _ _ (avlDeleteEntry _) => apply still_delete
  | |- pspec _ _ (modify _) => by apply still_modify
  end.
Ltac still := repeat (first [apply pspec_node, _ | apply pspec_gets, _ | apply pspec_port, _ | apply pspec_ret, _
  | solve [apply still_calm; eauto 2 with pac] | still1 | pspec_rule]).

Lemma still_disconnect p : pspec total still (authmgrClientDisconnectAction p).
Proof.
  unfold authmgrClientDisconnectAction, authmgrClientInfoCleanup, authmgrClientSwInfoCleanup, user_leaves,
    authmgrClientStatusSet, status_count, authmgrMacAddrInfoRemove, authmgrLogicalPortInfoDeAlloc. still.
Qed.
End still.

(** ** The rank of a method *)

Section rank.
Context `{!Headers, !HeadersOk}.

(** The places from that of [m] on, in the [n] places from [j] on *)
Fixpoint rank_from (n j : nat) (l : list Z) (m : Z) : nat :=
  match n with
  | O => O
  | S n' => if bool_decide (l !! j = Some m) then n else rank_from n' (S j) l m
  end.
Definition top : nat := S method_count.
Definition rank (l : list Z) (m : Z) : nat :=
  if m =? AUTHMGR_METHOD_NONE then top else rank_from method_count AUTHMGR_METHOD_MIN l m.

Lemma rank_from_le n j l m : (rank_from n j l m ≤ n)%nat.
Proof. revert j. induction n as [|n IH]; intros j; simpl; [lia|]. case_bool_decide; [lia|]. specialize (IH (S j)). lia. Qed.
Lemma rank_top l m : (rank l m ≤ top)%nat.
Proof. unfold rank, top. pose proof (rank_from_le method_count AUTHMGR_METHOD_MIN l m). case_match; lia. Qed.

Lemma runs_first_method n j l s :
  runs total (λ r s', s' = s ∧ ∀ m, r = Some m → m ≠ AUTHMGR_METHOD_NONE) (first_method n j l) s.
Proof.
  revert j. induction n as [|n IH]; intros j; simpl; [by apply runs_ret|].
  apply runs_bind, runs_option; [done|]. intros m Hm. destruct (Z.eqb_spec m AUTHMGR_METHOD_NONE); simpl; [apply IH|].
  apply runs_ret. split; [done|]. congruence.
Qed.

(** The method after [cur] has a lower rank. *)
Lemma runs_next_method n j l cur s :
  distinct l → (j + n)%nat = AUTHMGR_METHOD_MAX ∨ n = O →
  runs total (λ r s', s' = s ∧ ∀ m, r = Some m → m ≠ AUTHMGR_METHOD_NONE ∧
    (∃ k : nat, (j < k)%nat ∧ l !! k = Some m) ∧ (rank_from n j l m < rank_from n j l cur)%nat) (next_method n j l cur) s.
Proof.
  intros Hd. revert j. induction n as [|n IH]; intros j Hj; simpl; [by apply runs_ret|].
  apply runs_bind, runs_option; [done|]. intros x Hx. destruct (Z.eqb_spec x AUTHMGR_METHOD_NONE); [by apply runs_ret|].
  rewrite Hx. destruct (Z.eqb_spec cur x) as [->|Hne]; simpl.
  - destruct (Nat.ltb_spec (S j) AUTHMGR_METHOD_MAX) as [Hlt|Hge]; simpl.
    + apply runs_bind, runs_option; [done|]. intros m Hm. apply runs_ret. split; [done|].
      destruct (Z.eqb_spec m AUTHMGR_METHOD_NONE); [done|]. intros m' [= <-]. split_and!; [done|by exists (S j); split; [lia|]|].
      rewrite (bool_decide_eq_true_2 (Some x = Some x)) by done.
      rewrite bool_decide_eq_false_2; [pose proof (rank_from_le n (S j) l m); lia|].
      intros [= ->]. pose proof (Hd j (S j) m Hx Hm ltac:(done)). lia.
    + assert (n = O) as -> by lia. simpl. by apply runs_ret.
  - eapply runs_mono; [apply IH; lia|]. intros r s' [-> Hr]. split; [done|]. intros m Hm.
    destruct (Hr m Hm) as (Hm0 & (k & Hk & Hlk) & Hlt). split_and!; [done|by exists k; split; [lia|]|].
    rewrite !bool_decide_eq_false_2; [lia|congruence|]. intros [= ->]. pose proof (Hd j k m Hx Hlk Hm0). lia.
Qed.

Definition methods_of (s : authmgrCB_t) (i : Z) : list Z := default [] (pi_enabledMethods <$> g_portInfo s !! i).

Lemma methods_distinct s i : good s → distinct (methods_of s i).
Proof.
  intros Hs. unfold methods_of. destruct (g_portInfo s !! i) as [x|] eqn:Hx; simpl; [by eapply good_ports|].
  apply distinct_nil.
Qed.
Lemma calm_methods s s' i : calm s s' → methods_of s' i = methods_of s i.
Proof.
  intros Hc. unfold methods_of. pose proof (calm_ports s s' Hc i) as Hi. inversion Hi as [x y Hxy Hx Hy|]; simpl; [|done].
  by apply calm_port_methods.
Qed.

Lemma runs_with_methods (Q : option Z → Prop) i k s :
  Q None → (∀ s1, calm s s1 → runs total (λ r s', calm s1 s' ∧ Q r) (k (methods_of s i)) s1) →
  runs total (λ r s', calm s s' ∧ Q r) (with_methods pi_enabledMethods i k) s.
Proof.
  intros HQ Hk. unfold with_methods. apply runs_bind. eapply runs_mono; [apply calm_valid|]. intros b s1 H1.
  destruct b; [|by apply runs_ret]. apply runs_bind, runs_port. intros x Hx.
  apply runs_bind, runs_option; [done|]. intros m _. destruct (_ =? _); [by apply runs_ret|].
  replace (pi_enabledMethods x) with (methods_of s i).
  - eapply runs_mono; [by apply Hk|]. intros r s2 [H2 Hr]. split; [exact (transitivity H1 H2)|done].
  - rewrite <- (calm_methods s s1) by done. unfold methods_of. by rewrite Hx.
Qed.

Lemma runs_method_next i m s :
  good s → runs total (λ r s', calm s s' ∧ ∀ m', r = Some m' → (rank (methods_of s i) m' < rank (methods_of s i) m)%nat)
    (authmgrEnabledMethodNextGet i m) s.
Proof.
  intros Hs. unfold authmgrEnabledMethodNextGet. apply runs_with_methods; [done|]. intros s1 H1.
  set (L := methods_of s i). assert (methods_of s1 i = L) as HL by (by apply calm_methods).
  destruct (Z.eqb_spec m AUTHMGR_METHOD_NONE) as [->|Hm].
  - apply runs_with_methods; [done|]. intros s2 H2. eapply runs_mono; [apply runs_first_method|].
    intros r s3 [-> Hr]. split; [done|]. intros m' Hm'. unfold rank. rewrite (proj2 (Z.eqb_neq _ _)) by auto. simpl.
    pose proof (rank_from_le method_count AUTHMGR_METHOD_MIN L m'). unfold top. lia.
  - apply runs_with_methods; [done|]. intros s2 H2. rewrite HL. eapply runs_mono.
    + apply runs_next_method; [by apply methods_distinct|]. unfold method_count. lia.
    + intros r s3 [-> Hr]. split; [done|]. intros m' Hm'. destruct (Hr m' Hm') as (H0' & _ & Hlt).
      unfold rank. by rewrite !(proj2 (Z.eqb_neq _ _)) by done.
Qed.
End rank.

(** ** The machine *)

Section machine.
Context `{!Headers, !HeadersOk}.

(** The client of [l] is at [p], if there is one; then its method has at most the rank
    [r], and [Φ] holds of it. *)
Definition here (p l : Z) (r : nat) (Φ : authmgrLogicalPortInfo_t → Prop) (s : authmgrCB_t) : Prop :=
  good s ∧ (∀ q, g_tree s !! l = Some q → q = p) ∧
  ∀ n, g_nodes s !! p = Some n → lp_key n = 0 ∨
    lp_key n = l ∧ (rank (methods_of s (AUTHMGR_PORT_GET l)) (cl_currentMethod (lp_client n)) ≤ r)%nat ∧ Φ n.

Definition anything (n : authmgrLogicalPortInfo_t) : Prop := True.
Definition in_st (st : AUTHMGR_STATES_t) (n : authmgrLogicalPortInfo_t) : Prop := pr_authState (lp_protocol n) = st.
(** Its method just failed. *)
Definition failing (n : authmgrLogicalPortInfo_t) : Prop :=
  in_st AUTHMGR_AUTHENTICATING n ∧ pr_authFail (lp_protocol n) || pr_authTimeout (lp_protocol n) = true
  ∧ pr_authSuccess (lp_protocol n) = false.

Lemma here_mono p l r r' (Φ Ψ : authmgrLogicalPortInfo_t → Prop) s :
  (r ≤ r')%nat → (∀ n, Φ n → Ψ n) → here p l r Φ s → here p l r' Ψ s.
Proof.
  intros Hr HΦ (Hg & Ht & Hn). split_and!; [done..|]. intros n Hp. destruct (Hn n Hp) as [|(? & ? & ?)]; [by left|].
  right. split_and!; [done|lia|auto].
Qed.

Lemma here_calm p l r (Φ : authmgrLogicalPortInfo_t → Prop) s s' :
  (∀ n n', calm_node n n' → Φ n → Φ n') → calm s s' → here p l r Φ s → here p l r Φ s'.
Proof.
  intros HΦ Hc (Hg & Ht & Hn). split_and!; [by eapply calm_good|by rewrite (calm_tree s s' Hc)|].
  intros n' Hp'. pose proof (calm_nodes s s' Hc p) as Hq. rewrite Hp' in Hq. inversion Hq as [n ? Hcn Hp|]; subst.
  destruct (Hn n (eq_sym Hp)) as [Hk|(Hk & Hr & Hφ)].
  - left. by rewrite (cn_key n n' Hcn).
  - right. rewrite (calm_methods s s') by done. rewrite (cn_key n n' Hcn), (cn_current n n' Hcn). eauto.
Qed.

(** An update of the node, and of its method *)
Lemma here_upd p l r r' (Φ Ψ : authmgrLogicalPortInfo_t → Prop) f s n :
  here p l r Φ s → g_nodes s !! p = Some n → lp_key (f n) = lp_key n →
  pr_unAuthenticate (lp_protocol (f n)) = pr_unAuthenticate (lp_protocol n) →
  (Φ n → Ψ (f n)) →
  (rank (methods_of s (AUTHMGR_PORT_GET l)) (cl_currentMethod (lp_client n)) ≤ r →
    rank (methods_of s (AUTHMGR_PORT_GET l)) (cl_currentMethod (lp_client (f n))) ≤ r')%nat →
  here p l r' Ψ (s <| g_nodes ::= <[p := f n]> |>).
Proof.
  intros (Hg & Ht & Hn) Hp Hk Hu HΦ Hr. split_and!; [|done|].
  - eapply good_node_upd; [done|done| |done..]. rewrite Hu. by eapply good_nodes.
  - intros m Hm. simpl in Hm. rewrite lookup_insert, decide_True in Hm by done. injection Hm as <-.
    destruct (Hn n Hp) as [|(? & ? & ?)]; [left; congruence|]. right. split_and!; [congruence|auto..].
Qed.

Lemma here_node_upd {B} (Q : B → authmgrCB_t → Prop) p l r (Φ Ψ : authmgrLogicalPortInfo_t → Prop) f k s :
  here p l r Φ s →
  (∀ n, lp_key (f n) = lp_key n ∧ pr_unAuthenticate (lp_protocol (f n)) = pr_unAuthenticate (lp_protocol n)
     ∧ cl_currentMethod (lp_client (f n)) = cl_currentMethod (lp_client n) ∧ (Φ n → Ψ (f n))) →
  (∀ s', here p l r Ψ s' → runs total Q (k tt) s') → runs total Q (node_upd p f ≫= k) s.
Proof.
  intros Hs Hf Hk. apply runs_bind, runs_node_upd. intros n Hn. apply Hk. destruct (Hf n) as (Hkey & Hu & Hm & HΦ).
  eapply here_upd; [done..|]. by rewrite Hm.
Qed.

(** What the proofs below ask of the recursive call: that it returns for a client whose
    method failed, and for a client that was disconnected *)
Definition okf (gen : Z → P RC_t) (r : nat) : Prop :=
  (∀ p l s, here p l r failing s → runs total (λ _, good) (gen l) s) ∧ ∀ s, good s → runs total (λ _, good) (gen 0) s.

Lemma okf_mono gen r r' : (r' ≤ r)%nat → okf gen r → okf gen r'.
Proof. intros Hr [H1 H2]. split; [|done]. intros p l s Hs. eapply H1, here_mono; [exact Hr|done|exact Hs]. Qed.

Lemma keeps_held p : keeps (authmgrHeldAction p).
Proof. unfold authmgrHeldAction, authmgrTxCannedFail. keeps. Qed.
Lemma keeps_authenticated p : keeps (authmgrAuthenticatedAction p).
Proof. unfold authmgrAuthenticatedAction, authmgrTxCannedSuccess, no_result. keeps. Qed.
Lemma keeps_initialize p : keeps (authmgrInitializeAction p).
Proof. unfold authmgrInitializeAction. keeps. Qed.
Lemma keeps_unauthenticated p : keeps (authmgrUnauthenticatedAction p).
Proof. unfold authmgrUnauthenticatedAction. keeps. Qed.
#[local] Hint Resolve keeps_held keeps_authenticated keeps_initialize keeps_unauthenticated : keeps.

(** After a step that keeps the state good *)
Lemma then_keeps {A B} (m : P A) (k : A → P B) s :
  runs total (λ _, good) m s → (∀ a, keeps (k a)) → runs total (λ _, good) (m ≫= k) s.
Proof. intros Hm Hk. apply runs_bind. eapply runs_mono; [exact Hm|]. intros a s' Hs'. by apply Hk. Qed.

Section open.
Context (gen : Z → P RC_t).

Lemma total_authenticating p l r s :
  okf gen r → here p l r anything s → runs total (λ _, good) (authmgrAuthenticatingAction gen p) s.
Proof.
  intros [Hf H0'] Hs. unfold authmgrAuthenticatingAction. destruct (p =? NULLPTR); [apply runs_ret, Hs|].
  eapply (here_node_upd _ p l r _ (in_st AUTHMGR_AUTHENTICATING)); [exact Hs|done|]. clear s Hs. intros s Hs.
  eapply (here_node_upd _ p l r _ (λ n, in_st AUTHMGR_AUTHENTICATING n ∧ pr_authSuccess (lp_protocol n) = false));
    [exact Hs|done|]. clear s Hs. intros s Hs.
  apply runs_bind, runs_node. intros n Hn. destruct (pr_authenticatedRcvdStartAuth _).
  { match goal with |- runs _ _ ?m _ => enough (keeps m) as Hm by apply Hm, Hs end. keeps. }
  apply runs_bind. eapply runs_mono; [apply calm_trigger, _|]. intros rc s1 H1.
  eapply here_calm in Hs; [|intros m m' Hc [? ?]|exact H1].
  2: { pose proof (cn_protocol m m' Hc) as Hpr. unfold in_st in *.
       by rewrite (f_equal pr_authState Hpr : pr_authState (lp_protocol m') = _),
         (f_equal pr_authSuccess Hpr : pr_authSuccess (lp_protocol m') = _). }
  apply then_keeps; [|intros; keeps]. destruct (negb _); simpl; [|apply runs_ret, Hs].
  eapply (here_node_upd _ p l r _ failing); [exact Hs|intros m; split_and!; [done..|intros [? ?]; by repeat split]|]. clear s s1 n Hn H1 Hs.
  intros s Hs.
  apply runs_bind, runs_node. intros n5 Hn5. apply then_keeps; [|intros; keeps].
  pose proof Hs as (Hg & _ & Hk). destruct (Hk n5 Hn5) as [->|[-> _]]; [by apply H0'|by eapply Hf].
Qed.

(** An event that ends an authentication *)
Definition ends (ev : authmgrSmEvents_t) : Prop := ∀ st, authmgrStateTable ev st = AUTHMGR_HELD
  ∨ authmgrStateTable ev st = AUTHMGR_AUTHENTICATED ∨ authmgrStateTable ev st = AUTHMGR_STATES.
(** An event that goes on with it *)
Definition starts (ev : authmgrSmEvents_t) : Prop := ∀ st,
  authmgrStateTable ev st = AUTHMGR_AUTHENTICATING ∨ authmgrStateTable ev st = AUTHMGR_STATES.
(** An event that leads to the unauthenticated state *)
Definition resets (ev : authmgrSmEvents_t) : Prop := ∀ st,
  authmgrStateTable ev st = AUTHMGR_UNAUTHENTICATED ∨ authmgrStateTable ev st = AUTHMGR_STATES.

(** [classify] at the client of [l], from what the machine does there *)
Lemma runs_classify ev l s :
  good s → (∀ p, g_tree s !! l = Some p → runs total (λ _, good) (authmgrStateMachine gen ev p) s) →
  runs total (λ b s', b = true ∧ good s') (classify gen ev l) s.
Proof.
  intros Hs Hm. unfold classify. apply runs_bind, (runs_get (λ _ s', runs total (λ b s', b = true ∧ good s') (mret true) s')).
  - by apply runs_ret.
  - intros p Hp. eapply runs_mono; [by apply Hm|]. intros rc s' Hs'. by apply runs_ret.
Qed.

Lemma classify_ends ev l s : ends ev → good s → runs total (λ b s', b = true ∧ good s') (classify gen ev l) s.
Proof.
  intros Hev Hs. apply runs_classify; [done|]. intros p _. unfold authmgrStateMachine.
  destruct (p =? NULLPTR); [by apply runs_ret|]. apply runs_bind, runs_node. intros n _.
  destruct (Hev (pr_authState (lp_protocol n))) as [->|[-> | ->]].
  - by apply keeps_held.
  - by apply keeps_authenticated.
  - by apply runs_ret.
Qed.

Lemma classify_starts ev p l r s :
  starts ev → okf gen r → here p l r anything s → runs total (λ b s', b = true ∧ good s') (classify gen ev l) s.
Proof.
  intros Hev Hf Hs. apply runs_classify; [apply Hs|]. intros p' Hp'.
  assert (p' = p) as -> by (by apply Hs). unfold authmgrStateMachine. destruct (p =? NULLPTR); [apply runs_ret, Hs|].
  apply runs_bind, runs_node. intros n _. destruct (Hev (pr_authState (lp_protocol n))) as [-> | ->].
  - by eapply total_authenticating.
  - apply runs_ret, Hs.
Qed.

(** The next method has a lower rank. *)
Lemma runs_advance p l r Φ s :
  here p l r Φ s →
  runs total (λ ok s', good s' ∧ (ok = true → here p l r anything s' ∧
    (g_tree s !! l = Some p → (0 < r)%nat ∧ here p l (pred r) anything s')))
    (advance_method p (AUTHMGR_PORT_GET l)) s.
Proof.
  intros Hs. unfold advance_method. apply runs_bind, runs_node. intros n Hn. apply runs_bind.
  eapply runs_mono; [apply runs_method_next, Hs|]. intros [m|] s1 [H1 Hr].
  2: { apply runs_ret. split; [|done]. eapply calm_good; [exact H1|apply Hs]. }
  specialize (Hr m eq_refl). pose proof (calm_tree s s1 H1) as Ht.
  assert (here p l r anything s1) as Hs1 by (eapply here_calm; [done|exact H1|]; by eapply here_mono).
  rewrite <- (calm_methods s s1) in Hr by done.
  apply runs_bind, runs_node_upd. intros n1 Hn1. apply runs_ret. pose proof (calm_at s s1 p n n1 H1 Hn Hn1) as Hc.
  rewrite <- (cn_current n n1 Hc) in Hr.
  assert (here p l r anything (s1 <| g_nodes ::= <[p := n1 <| lp_client ::= set cl_currentMethod (λ _, m) |>]> |>)) as Hs2.
  { eapply (here_upd _ _ r r _ _ (λ n1, n1 <| lp_client ::= set cl_currentMethod (λ _, m) |>)); [done..|]. simpl. lia. }
  split; [apply Hs2|]. intros _. split; [done|]. intros Hlp.
  destruct (tree_node s l p (good_wf s (proj1 Hs)) Hlp) as (n' & Hn' & Hk). simplify_eq.
  destruct (wf_tree s (good_wf s (proj1 Hs)) _ _ Hlp) as (_ & Hty%logical_not_zero & _).
  destruct (proj2 (proj2 Hs1) n1 Hn1) as [Hk0|(_ & Hle & _)]; [rewrite (cn_key n n1 Hc) in Hk0; done|].
  split; [lia|].
  eapply (here_upd _ _ r (pred r) _ _ (λ n1, n1 <| lp_client ::= set cl_currentMethod (λ _, m) |>)); [done..|]. simpl. lia.
Qed.

Lemma total_ev_authenticating p l r Φ s :
  here p l r Φ s →
  okf gen r ∨ g_tree s !! l = Some p ∧ (∀ n, Φ n → failing n) ∧ (∀ r', (r' < r)%nat → okf gen r') →
  runs total (λ b s', b = true ∧ good s') (events_authenticating gen p (AUTHMGR_PORT_GET l) l) s.
Proof.
  intros Hs Hgen. assert (good s) as Hg by apply Hs. unfold events_authenticating. apply runs_bind, runs_node. intros n Hn.
  destruct (_ && negb _ && _ && _); [by apply runs_ret|].
  destruct (_ && _ && _); [by apply classify_ends; [intros []; auto|]|].
  rewrite (good_nodes s Hg p n Hn). destruct (pr_authSuccess _); [by apply classify_ends; [intros []; auto|]|].
  destruct (_ || _) eqn:Hfail.
  - apply runs_bind. eapply runs_mono; [by eapply runs_advance|]. intros [] s1 [Hg1 Hs1].
    2: { apply classify_ends; [intros []; auto|done]. }
    destruct (Hs1 eq_refl) as [Hs1' Hlow]. destruct Hgen as [Hf|(Hlp & _ & Hf)].
    + eapply classify_starts; [intros []; auto|done..].
    + destruct (Hlow Hlp) as [Hr Hs2]. apply (classify_starts _ p l (pred r)); [intros []; auto|apply Hf; lia|done].
  - destruct Hgen as [Hf|(Hlp & Hφ & _)].
    + apply runs_bind, runs_ret. eapply classify_starts; [intros []; auto|done|]. by eapply here_mono.
    + destruct (tree_node s l p (good_wf s Hg) Hlp) as (n' & Hn' & Hk). simplify_eq.
      destruct (wf_tree s (good_wf s Hg) _ _ Hlp) as (_ & Hty%logical_not_zero & _).
      destruct (proj2 (proj2 Hs) n Hn) as [|(_ & _ & (_ & Hx & _)%Hφ)]; [done|congruence].
Qed.

Lemma good_here p l s : good s → g_tree s !! l = Some p → here p l top anything s.
Proof.
  intros Hs Hlp. split_and!; [done|congruence|]. intros n Hn. right.
  destruct (tree_node s _ _ (good_wf s Hs) Hlp) as (m & Hm & Hk). simplify_eq. split_and!; [done|apply rank_top|done].
Qed.

(** Where a safe step leaves the client *)
Lemma here_safe p l r Φ s s' :
  here p l r Φ s → safe nokey none s s' → good s' → here p l top anything s'.
Proof.
  intros (Hs & Ht & Hn) Hsafe Hs'. destruct (Hsafe (good_wf s Hs)) as (_ & _ & Hnew).
  assert (∀ k q, g_tree s' !! k = Some q → g_tree s !! k = Some q) as Hsub.
  { intros k q Hk. destruct (tree_node s' k q (good_wf s' Hs') Hk) as (n & Hn' & _).
    destruct (Hnew k q n Hk Hn') as [[]|(m & ? & _)]. done. }
  split_and!; [done|auto|]. intros n' Hn'. destruct (decide (lp_key n' = 0)) as [|Hne]; [by left|]. right.
  pose proof (Hsub _ _ (wf_linked s' (good_wf s' Hs') p n' Hn' Hne)) as Hk.
  destruct (tree_node s _ _ (good_wf s Hs) Hk) as (m & Hm & Hmk).
  destruct (Hn m Hm) as [|(? & _)]; [congruence|]. split_and!; [congruence|apply rank_top|done].
Qed.

Lemma runs_both {A} (Q Q' : A → authmgrCB_t → Prop) (m : P A) s :
  runs total Q m s → runs partial Q' m s → runs total (λ a s', Q a s' ∧ Q' a s') m s.
Proof. unfold runs. by destruct (m s). Qed.

(** After a step that is safe and keeps the state good, the client is still here. *)
Lemma runs_here {A B} (Q : B → authmgrCB_t → Prop) p l Φ (m : P A) (k : A → P B) s :
  here p l top Φ s → runs total (λ _, good) m s → runs partial (λ _, safe nokey none s) m s →
  (∀ a s', safe nokey none s s' → here p l top anything s' → runs total Q (k a) s') → runs total Q (m ≫= k) s.
Proof.
  intros Hs Hm1 Hm2 Hk. apply runs_bind. eapply runs_mono; [exact (runs_both _ _ m s Hm1 Hm2)|].
  intros a s' [Hs' H']. apply Hk; [exact H'|]. exact (here_safe p l top Φ s s' Hs H' Hs').
Qed.

Lemma here_gen p l n Φ s :
  here p l top Φ s → g_nodes s !! p = Some n → (∀ s, good s → runs total (λ _, good) (gen 0) s) →
  (here p l top Φ s → runs total (λ _, good) (gen l) s) → runs total (λ _, good) (gen (lp_key n)) s.
Proof. intros Hs Hn H0' Hl. destruct (proj2 (proj2 Hs) n Hn) as [->|[-> _]]; [by apply H0', Hs|auto]. Qed.

(** *** From the unauthenticated state *)

(** A step that is good, still and safe *)
Lemma runs_disconnect p s :
  good s → runs total (λ _ s', good s' ∧ still s s' ∧ safe nokey none s s') (authmgrClientDisconnectAction p) s.
Proof.
  intros Hs. pose proof (keeps_disconnect p s Hs) as H1. pose proof (still_disconnect p s) as H2.
  pose proof (safe_disconnect (F:=total) nokey none p s) as H3. unfold runs in *. by destruct (authmgrClientDisconnectAction p s).
Qed.

Lemma total_held_expired p l s :
  here p l top anything s → runs total (λ _ s', still s s' ∧ here p l top anything s') (held_expired p) s.
Proof.
  intros Hs. unfold held_expired. apply runs_bind, runs_node. intros n Hn.
  destruct (pr_heldTimerExpired _); [|apply runs_ret; by split].
  apply runs_bind. eapply runs_mono; [apply runs_disconnect, Hs|]. intros rc s1 (Hs1 & Hst & Hsafe). destruct (is_SUCCESS rc).
  - apply runs_ret. split; [done|]. exact (here_safe p l top anything s s1 Hs Hsafe Hs1).
  - apply runs_bind, runs_node_upd. intros n1 Hn1. apply runs_ret. split.
    + etransitivity; [exact Hst|]. intros q m Hm. simpl in Hm. right.
      apply lookup_insert_Some in Hm as [[<- <-]|[_ Hm]]; [by exists n1|by exists m].
    + eapply here_safe; [exact Hs|..].
      * etransitivity; [exact Hsafe|]. eapply safe_upd; [done|done| |by right]. intros Hh. by right.
      * eapply good_node_upd; [done|done| |done..]. simpl. by eapply good_nodes.
Qed.

Lemma total_ev_unauthenticated p l s :
  okf gen top → here p l top anything s →
  runs total (λ b s', good s' ∧ (b = false → still s s')) (events_unauthenticated gen p (AUTHMGR_PORT_GET l) l) s.
Proof.
  intros Hf Hs. unfold events_unauthenticated. apply runs_bind, runs_node. intros n Hn.
  assert (∀ (m : P bool) s, runs total (λ b s', b = true ∧ good s') m s →
    ∀ s0, runs total (λ b s', good s' ∧ (b = false → still s0 s')) m s) as Hdone.
  { intros m s' Hm s0. eapply runs_mono; [exact Hm|]. by intros b s'' [-> Hs'']. }
  destruct (pr_authSuccess _); [apply Hdone, classify_ends; [intros []; auto|apply Hs]|].
  apply runs_bind. eapply runs_mono; [by apply total_held_expired|].
  intros [] s1 [Hst Hs1]; [by apply runs_ret; split; [apply Hs1|]|].
  apply runs_bind, runs_node. intros n1 Hn1. destruct (pr_authenticate _); [|by apply runs_ret; split; [apply Hs1|]].
  apply Hdone, runs_bind. eapply runs_mono; [by eapply runs_advance|]. intros [] s2 [Hs2 Hadv]; [|by apply runs_ret].
  eapply classify_starts; [intros []; auto|done|]. by apply Hadv.
Qed.

(** The machine is not entered in the states that the client is not in. *)
Lemma in_state_other (Q : bool → authmgrCB_t → Prop) p st body s :
  (∀ n, g_nodes s !! p = Some n → pr_authState (lp_protocol n) ≠ st) → Q false s → runs total Q (in_state p st body false) s.
Proof.
  intros Hne HQ. unfold in_state. apply runs_bind, runs_node. intros n Hn. rewrite bool_decide_eq_false_2 by (by apply Hne).
  by apply runs_ret.
Qed.
Lemma in_state_enter (Q : bool → authmgrCB_t → Prop) p st body s :
  runs total Q body s → Q false s → runs total Q (in_state p st body false) s.
Proof.
  intros Hb HQ. unfold in_state. apply runs_bind, runs_node. intros n _. destruct (_ ==? _); [done|by apply runs_ret].
Qed.

Lemma total_unauthenticated p l s :
  okf gen top → here p l top (in_st AUTHMGR_UNAUTHENTICATED) s → runs total (λ _, good) (generate_events gen l) s.
Proof.
  intros Hf Hs. assert (good s) as Hg by apply Hs. unfold generate_events. apply runs_get; [done|]. intros p' Hlp.
  assert (p' = p) as -> by (by apply Hs). destruct (tree_node s l p (good_wf s Hg) Hlp) as (n & Hn & Hk).
  destruct (wf_tree s (good_wf s Hg) _ _ Hlp) as (_ & Hty%logical_not_zero & _).
  destruct (proj2 (proj2 Hs) n Hn) as [|(_ & _ & Hst)]; [congruence|].
  apply runs_bind, runs_node. intros n' Hn'. simplify_eq. rewrite Hst. simpl.
  apply runs_bind, runs_ret, runs_bind.
  eapply runs_mono; [apply (in_state_enter (λ b s', good s' ∧ (b = false → still s s'))); [apply total_ev_unauthenticated; [done|by apply good_here]|by split]|].
  intros [] s1 [Hs1 Hstill]; [by repeat first [apply runs_bind, runs_ret|apply runs_ret]|].
  assert (∀ st, st ≠ AUTHMGR_INITIALIZE → st ≠ AUTHMGR_UNAUTHENTICATED →
    ∀ m, g_nodes s1 !! p = Some m → pr_authState (lp_protocol m) ≠ st) as Hne.
  { intros st H1 H2 m Hm. destruct (Hstill eq_refl p m Hm) as [->|(m' & Hm' & ->)]; [done|]. simplify_eq. by rewrite Hst. }
  do 3 (apply runs_bind, in_state_other; [by apply Hne|]). by apply runs_ret.
Qed.

(** *** From a failure *)

Lemma total_failing p l r s :
  (∀ r', (r' < r)%nat → okf gen r') → here p l r failing s → runs total (λ _, good) (generate_events gen l) s.
Proof.
  intros Hf Hs. assert (good s) as Hg by apply Hs. unfold generate_events. apply runs_get; [done|]. intros p' Hlp.
  assert (p' = p) as -> by (by apply Hs). destruct (tree_node s l p (good_wf s Hg) Hlp) as (n & Hn & Hk).
  destruct (wf_tree s (good_wf s Hg) _ _ Hlp) as (_ & Hty%logical_not_zero & _).
  destruct (proj2 (proj2 Hs) n Hn) as [|(_ & _ & [Hst _])]; [congruence|].
  apply runs_bind, runs_node. intros n' Hn'. simplify_eq. rewrite Hst. simpl.
  apply runs_bind, runs_ret, runs_bind, in_state_other; [intros n' Hn'; simplify_eq; by rewrite Hst|].
  apply runs_bind. unfold in_state at 1. apply runs_bind, runs_node. intros n' Hn'. simplify_eq.
  rewrite bool_decide_eq_true_2 by done. eapply runs_mono; [by eapply total_ev_authenticating; [|right]|].
  intros b s1 [-> Hs1]. by repeat first [apply runs_bind, runs_ret|apply runs_ret].
Qed.

Lemma total_zero s : good s → runs total (λ _, good) (generate_events gen 0) s.
Proof.
  intros Hs. unfold generate_events. apply runs_get; [done|]. intros p Hp.
  by destruct (wf_tree s (good_wf s Hs) 0 p Hp) as (_ & ? & _).
Qed.

(** *** From any state *)

Context (Hsafe : ∀ l, pspec partial (safe nokey none) (gen l)) (Hf : okf gen top)
  (Hun : ∀ p l s, here p l top (in_st AUTHMGR_UNAUTHENTICATED) s → runs total (λ _, good) (gen l) s).

Lemma total_unauth_action p l s :
  good s → g_tree s !! l = Some p →
  runs total (λ _, here p l top (in_st AUTHMGR_UNAUTHENTICATED)) (authmgrUnauthenticatedAction p) s.
Proof.
  intros Hs Hlp. unfold authmgrUnauthenticatedAction.
  rewrite (proj2 (Z.eqb_neq p NULLPTR)) by (by destruct (wf_tree s (good_wf s Hs) _ _ Hlp)).
  apply runs_bind, runs_node. intros n Hn.
  assert (∀ m : P unit, keeps m → pspec partial (safe nokey none) m → ∀ s1, good s1 → runs total (λ _, good) m s1 ∧
    runs partial (λ _, safe nokey none s1) m s1) as Hboth by (intros m Hm1 Hm2 s1 Hs1; split; [by apply Hm1|apply Hm2]).
  eapply runs_here; [by apply good_here|apply Hboth; [keeps|safe|done]..|]. intros _ s1 _ Hs1.
  apply runs_bind, runs_node. intros n1 Hn1.
  eapply runs_here; [exact Hs1|apply Hboth; [keeps|safe|apply Hs1]..|]. intros _ s2 _ Hs2.
  eapply (here_node_upd _ p l top anything (in_st AUTHMGR_UNAUTHENTICATED)); [exact Hs2|done|]. intros s3 Hs3. by apply runs_ret.
Qed.

Lemma classify_resets ev l s : resets ev → good s → runs total (λ b s', b = true ∧ good s') (classify gen ev l) s.
Proof.
  intros Hev Hs. apply runs_classify; [done|]. intros p Hlp. unfold authmgrStateMachine.
  destruct (p =? NULLPTR); [by apply runs_ret|]. apply runs_bind, runs_node. intros n _.
  destruct (Hev (pr_authState (lp_protocol n))) as [-> | ->]; [|by apply runs_ret].
  apply runs_bind. eapply runs_mono; [by apply total_unauth_action|]. intros rc s1 Hs1.
  apply runs_bind, runs_node. intros n1 Hn1. eapply here_gen; [exact Hs1|done|apply Hf|by apply Hun].
Qed.

Lemma total_ev_held p l s : good s → runs total (λ _, good) (events_held gen p l) s.
Proof.
  intros Hs. unfold events_held. apply runs_bind, runs_node. intros n _. destruct (pr_heldTimerExpired _); [|by apply runs_ret].
  eapply runs_mono; [by apply classify_resets; [intros []; auto|]|]. by intros b s' [_ ?].
Qed.

Lemma total_ev_authenticated p l s :
  here p l top anything s → runs total (λ _, good) (events_authenticated gen p (AUTHMGR_PORT_GET l) l) s.
Proof.
  intros Hs. assert (good s) as Hg by apply Hs. unfold events_authenticated. apply runs_bind, runs_node. intros n Hn.
  destruct (pr_authSuccess _).
  { eapply runs_mono; [by apply classify_ends; [intros []; auto|]|]. by intros b s' [_ ?]. }
  rewrite (good_nodes s Hg p n Hn).
  assert (∀ b : bool, runs total (λ _, here p l top anything)
    (when b (protocol_upd p (λ x, x <| pr_authenticatedRcvdStartAuth := false |> <| pr_reauth := true |>))) s) as Hw.
  { intros []; [|by apply runs_ret]. eapply runs_mono; [|intros a s' Ha; exact Ha].
    apply runs_node_upd. intros n' Hn'.
    eapply (here_upd _ _ top top anything anything (set lp_protocol (λ x, x <| pr_authenticatedRcvdStartAuth := false |>
      <| pr_reauth := true |>))); done. }
  apply runs_bind. eapply runs_mono; [apply Hw|]. intros [] s1 Hs1. apply runs_bind, runs_node. intros n1 _.
  destruct (pr_reauth _); [|apply runs_ret, Hs1]. apply runs_bind. eapply runs_mono; [apply calm_call_|]. intros [] s2 H2.
  eapply runs_mono; [eapply classify_starts; [intros []; auto|exact Hf|]|by intros b s' [_ ?]].
  eapply here_calm; [done|exact H2|exact Hs1].
Qed.

(** One branch of [authmgrGenerateEvents] *)
Lemma total_branch {B} (Q : B → authmgrCB_t → Prop) p l st body b (k : bool → P B) s :
  here p l top anything s → runs total (λ _, good) body s → runs partial (λ _, safe nokey none s) body s →
  (∀ a s', safe nokey none s s' → here p l top anything s' → runs total Q (k a) s') →
  runs total Q (in_state p st body b ≫= k) s.
Proof.
  intros Hs H1 H2 Hk. eapply runs_here; [exact Hs| |by apply safe_in_state|exact Hk].
  destruct b; [apply runs_ret, Hs|]. apply in_state_enter; [done|apply Hs].
Qed.

Lemma total_any l : keeps (generate_events gen l).
Proof.
  intros s Hs. unfold generate_events. apply runs_get; [done|]. intros p Hlp.
  pose proof (λ s', keyed_later p l s s' (good_wf s Hs) Hlp) as Hk.
  destruct (tree_node s l p (good_wf s Hs) Hlp) as (n & Hn & Hkey).
  apply runs_bind, runs_node. intros n' Hn'. simplify_eq. generalize (pr_authState (lp_protocol n) ==? AUTHMGR_INITIALIZE). intros b.
  eapply runs_here; [by apply good_here| | |].
  { destruct b; [|by apply runs_ret]. apply runs_bind, runs_port. intros i _. destruct (pi_portEnabled i); [|by apply runs_ret].
    apply then_keeps; [|intros; keeps]. eapply runs_mono; [by apply classify_resets; [intros []; auto|]|]. by intros ? s' [_ ?]. }
  { match goal with |- runs _ _ ?m _ => enough (pspec partial (safe nokey none) m) as Hm by apply Hm end.
    pose proof (safe_classify gen Hsafe authmgrStartAuthenticate (lp_key n) ltac:(done)). safe. }
  intros _ s1 S1 H1. eapply (total_branch _ p (lp_key n)); [exact H1| |by apply safe_events_unauthenticated; auto|].
  { eapply runs_mono; [by apply total_ev_unauthenticated|]. by intros ? s' [? _]. }
  intros b1 s2 S2 H2. assert (safe nokey none s s2) as S02 by exact (transitivity S1 S2).
  eapply (total_branch _ p (lp_key n)); [exact H2| |by apply safe_events_authenticating; auto|].
  { eapply runs_mono; [eapply total_ev_authenticating; [exact H2|by left]|]. by intros ? s' [_ ?]. }
  intros b2 s3 S3 H3. assert (safe nokey none s s3) as S03 by exact (transitivity S02 S3).
  eapply (total_branch _ p (lp_key n)); [exact H3|apply total_ev_held, H3|by apply safe_events_held|].
  intros b3 s4 S4 H4. assert (safe nokey none s s4) as S04 by exact (transitivity S03 S4).
  eapply (total_branch _ p (lp_key n)); [exact H4|by apply total_ev_authenticated|by apply safe_events_authenticated; auto|].
  intros b4 s5 _ H5. apply runs_ret, H5.
Qed.
End open.

(** ** The depth of the calls *)

Lemma generate_failing f r : (r < f)%nat → okf (generate f) r.
Proof.
  revert r. induction f as [|f IH]; intros r Hr; [lia|]. split; [|intros s Hs; by apply total_zero].
  intros p l s Hs. simpl. eapply total_failing; [|exact Hs]. intros r' Hr'. apply IH. lia.
Qed.

Lemma generate_unauthenticated f p l s :
  (S top < f)%nat → here p l top (in_st AUTHMGR_UNAUTHENTICATED) s → runs total (λ _, good) (generate f l) s.
Proof.
  intros Hf Hs. destruct f as [|f]; [lia|]. simpl. eapply total_unauthenticated; [|exact Hs]. apply generate_failing. lia.
Qed.

Lemma generate_keeps f l : (S (S top) < f)%nat → keeps (generate f l).
Proof.
  intros Hf. destruct f as [|f]; [lia|]. simpl. apply total_any.
  - apply safe_generate.
  - apply generate_failing. lia.
  - intros p l' s. apply generate_unauthenticated. lia.
Qed.

Lemma keeps_gen l : keeps (authmgrGenerateEvents l).
Proof. apply generate_keeps. unfold gen_fuel, top, method_count. lia. Qed.
#[local] Hint Resolve keeps_gen : keeps.

Lemma keeps_event ev l : keeps (authmgrStateMachineEvent ev l).
Proof.
  unfold authmgrStateMachineEvent, authmgrStateMachineClassifier, authmgrStateMachine, authmgrAuthenticatingAction, no_result.
  pose proof calm_trigger. keeps.
Qed.
End machine.
#[export] Hint Resolve keeps_gen keeps_event : keeps.

(** ** The handlers *)

Section handlers.
Context `{!Headers, !HeadersOk}.

Lemma good_insert k s :
  AUTHMGR_TYPE_GET k = AUTHMGR_LOGICAL → default NULLPTR (g_tree s !! k) = NULLPTR → good s →
  runs total (λ _, good) (avlInsertEntry (lport_zero <| lp_key := k |>)) s.
Proof.
  intros Hty Hnone Hs. pose proof (safe_insert (F:=total) allkeys none (lport_zero <| lp_key := k |>) s Hty
    (lport_zero_cold k) I Hnone) as Hi. destruct Hs as [Hwf Hp Hn Hcfg Hdef]. revert Hi.
  unfold avlInsertEntry, runs, mbind, M_bind. simpl. destruct (g_free s) as [|p fr]; simpl; intros Hi; [by split|].
  split; simpl; [by apply Hi|done| |done..]. intros q m [[<- <-]|[_ Hm]]%lookup_insert_Some; [done|eauto].
Qed.

Lemma keeps_alloc i : keeps (authmgrLogicalPortInfoAlloc i).
Proof.
  assert (∀ fuel l, keeps (alloc_loop fuel i l)) as Hloop.
  { induction fuel as [|f IH]; intros l; simpl; [keeps|]. intros s Hs. apply runs_bind.
    unfold authmgrLogicalPortInfoGet. rewrite key_type by done. simpl. apply runs_bind, runs_gets, runs_ret.
    destruct (Z.eqb_spec (default NULLPTR (g_tree s !! AUTHMGR_LPORT_KEY_PACK i l AUTHMGR_LOGICAL 0)) NULLPTR) as [Hnone|];
      [|by apply IH].
    apply then_keeps; [by apply good_insert; [apply key_type|..]|]. intros []; keeps. }
  unfold authmgrLogicalPortInfoAlloc, authmgrDynamicLogicalPortInfoAlloc. simpl. keeps.
Qed.
#[local] Hint Resolve keeps_alloc : keeps.

Lemma keeps_init l : keeps (authmgrLogicalPortInfoInit l).
Proof. unfold authmgrLogicalPortInfoInit. keeps. Qed.
Lemma keeps_add_mac l : keeps (authmgrAddMac l).
Proof. unfold authmgrAddMac. keeps. Qed.
Lemma keeps_timeout l : keeps (authmgrCtlLogicalPortClientTimeout l).
Proof. unfold authmgrCtlLogicalPortClientTimeout. keeps. Qed.
Lemma keeps_cleanup l : keeps (authmgrCtlClientCleanup l).
Proof. unfold authmgrCtlClientCleanup. keeps. Qed.
#[local] Hint Resolve keeps_init keeps_add_mac keeps_timeout keeps_cleanup : keeps.
Lemma keeps_map_pdu i mac : keeps (authmgrCheckMapPdu i mac).
Proof.
  unfold authmgrCheckMapPdu, authmgrDynamicUserPduMapCheck, client_of_mac, mac_move, client_new, client_register. keeps.
Qed.
#[local] Hint Resolve keeps_map_pdu : keeps.
Lemma keeps_unauth_addr i mac v : keeps (authmgrCtlPortUnauthAddrCallbackProcess i mac v).
Proof. unfold authmgrCtlPortUnauthAddrCallbackProcess, client_block, client_admit. keeps. Qed.
#[local] Hint Resolve calm_precedence calm_trigger : pac.
Lemma keeps_new_client l cp : keeps (authmgrNewClientAction l cp).
Proof. unfold authmgrNewClientAction, new_client_authorized. keeps. Qed.
Lemma keeps_comm_fail l cp : keeps (authmgrStatusServerCommFailAction l cp).
Proof. unfold authmgrStatusServerCommFailAction, take_user. keeps. Qed.
Lemma keeps_not_success l cp : keeps (authmgrStatusNotSuccessAction l cp).
Proof. unfold authmgrStatusNotSuccessAction, take_user. keeps. Qed.
Lemma keeps_status_disconnect l cp : keeps (authmgrStatusDisconnectAction l cp).
Proof. unfold authmgrStatusDisconnectAction. keeps. Qed.
Lemma keeps_success l cp : keeps (authmgrStatusSuccessAction l cp).
Proof.
  unfold authmgrStatusSuccessAction, authmgrRadiusAcceptPostProcess, authmgrVlanAttrValidate, success_refused,
    server_class_copy, first_bytes, take_user, result_fail, success_client. keeps.
Qed.
#[local] Hint Resolve keeps_new_client keeps_comm_fail keeps_not_success keeps_status_disconnect keeps_success
  keeps_unauth_addr : keeps.

(** *** The lists of methods *)

Lemma keeps_by_method i m : keeps (authmgrClientsByMethodDelete i m).
Proof. unfold authmgrClientsByMethodDelete. keeps. Qed.
#[local] Hint Resolve keeps_by_method : keeps.
Lemma keeps_list_change n j i old m : keeps (list_change n j i old m).
Proof. revert j. induction n; intros j; simpl; keeps. Qed.
#[local] Hint Resolve keeps_list_change : keeps.

(** The enabled methods are a part of the configured ones. *)
Lemma runs_enabled_list n j i l s :
  runs total (λ out s', calm s s' ∧ sublist out (take n (drop j l))) (enabled_list n j i l) s.
Proof.
  revert j s. induction n as [|n IH]; intros j s; simpl; [by apply runs_ret; split; [|apply sublist_nil_l]|].
  apply runs_bind, runs_option; [done|]. intros m Hm. destruct (_ =? _); [by apply runs_ret; split; [|apply sublist_nil_l]|].
  apply runs_bind. eapply runs_mono.
  { assert (pspec total calm (authmgrOperListEntryPopulate i m)) as Hp; [|apply Hp].
    unfold authmgrOperListEntryPopulate, authmgrRegisteredEntryFnMapGet. pac. }
  intros [b|] s1 H1; [|by apply runs_ret; split; [|apply sublist_nil_l]].
  apply runs_bind. eapply runs_mono; [apply IH|]. intros out s2 [H2 Hout]. apply runs_ret.
  split; [exact (transitivity H1 H2)|]. rewrite (drop_S l m j) by done. simpl. destruct b; [by apply sublist_skip|by apply sublist_cons].
Qed.

Lemma distinct_cons x l : distinct (x :: l) ↔ (x ≠ AUTHMGR_METHOD_NONE → x ∉ l) ∧ distinct l.
Proof.
  split.
  - intros Hd. split.
    + intros Hx (j & Hj)%list_elem_of_lookup. by pose proof (Hd O (S j) x eq_refl Hj Hx).
    + intros a b m Ha Hb Hm. pose proof (Hd (S a) (S b) m Ha Hb Hm). congruence.
  - intros [Hx Hd] [|a] [|b] m Ha Hb Hm; simpl in *; simplify_eq; [done| | |f_equal; eauto].
    + destruct (Hx Hm). by eapply list_elem_of_lookup_2.
    + destruct (Hx Hm). by eapply list_elem_of_lookup_2.
Qed.

Lemma distinct_dec l : NoDup (filter (λ m, m ≠ AUTHMGR_METHOD_NONE) l) → distinct l.
Proof.
  induction l as [|x l IH]; [intros _; apply distinct_nil|]. rewrite filter_cons, distinct_cons. case_decide as Hx.
  - rewrite NoDup_cons. intros [Hn Hd]. split; [|auto]. intros _ Hin. by apply Hn, list_elem_of_filter.
  - intros Hd. split; [|auto]. intros Hx'. by destruct Hx.
Qed.

Lemma distinct_sublist l l' k : sublist l l' → distinct l' → distinct (l ++ replicate k AUTHMGR_METHOD_NONE).
Proof.
  induction 1 as [|x l l' Hs IH|x l l' Hs IH]; simpl.
  - intros _. induction k; simpl; [apply distinct_nil|]. by apply distinct_cons.
  - rewrite !distinct_cons. intros [Hx Hd]. split; [|auto]. intros Hne [Hin|[-> _]%elem_of_replicate]%elem_of_app; [|done].
    destruct (Hx Hne). by eapply sublist_subseteq.
  - rewrite distinct_cons. intros [_ Hd]. auto.
Qed.

Lemma keeps_lists_apply i l1 l2 c1 c2 : distinct l1 → keeps (enabled_lists_apply i l1 l2 c1 c2).
Proof.
  intros Hl. unfold enabled_lists_apply, authmgrEnableListChangeAction. keeps.
  all: apply keeps_port_upd; intros []; done.
Qed.

Lemma runs_config i s :
  runs total (λ r s', calm s s' ∧ ∀ c, r = Some c → g_portCfg s !! i = Some c) (authmgrIntfIsConfigurable i) s.
Proof.
  unfold authmgrIntfIsConfigurable. apply runs_bind, runs_gets. destruct (g_ready s); simpl; [|by apply runs_ret].
  destruct (_ || _); [by apply runs_ret|]. apply runs_bind. eapply runs_mono; [apply calm_call|]. intros r s1 H1.
  destruct (is_SUCCESS _); [|by apply runs_ret]. apply runs_bind, runs_gets, runs_bind, runs_option; [done|].
  intros c Hc. apply runs_ret. split; [done|]. rewrite <- (calm_cfg s s1 H1). destruct (_ =? _); [|done]. congruence.
Qed.

Lemma runs_list_populate i l s :
  distinct (take AUTHMGR_METHOD_MAX l) →
  runs total (λ r s', calm s s' ∧ ∀ out c, r = Some (out, c) → distinct out) (authmgrEnabledListPopulate i l) s.
Proof.
  intros Hl. unfold authmgrEnabledListPopulate. apply runs_bind. eapply runs_mono; [apply calm_valid|]. intros b s1 H1.
  destruct b; simpl; [|by apply runs_ret]. apply runs_bind. eapply runs_mono; [apply runs_enabled_list|].
  intros out s2 [H2 Hout]. case_match; [done|]. apply runs_ret. split; [exact (transitivity H1 H2)|].
  intros out' c [= <- <-]. eapply distinct_sublist; [exact Hout|]. by rewrite drop_0 in *.
Qed.

Lemma keeps_populate i : keeps (authmgrPortEnabledListPopulate i).
Proof.
  intros s Hs. unfold authmgrPortEnabledListPopulate. apply runs_bind. eapply runs_mono; [apply calm_valid|]. intros b s1 H1.
  assert (good s1) as Hs1 by exact (calm_good _ _ H1 Hs). apply runs_bind.
  eapply runs_mono with (Q := λ r s', good s' ∧ ∀ c, r = Some c → distinct (take AUTHMGR_METHOD_MAX (pc_methodList c))).
  { destruct b; [|by apply runs_ret]. eapply runs_mono; [apply runs_config|]. intros r s2 [H2 Hc].
    split; [exact (calm_good _ _ H2 Hs1)|]. intros c Hr. by eapply good_cfg; [exact Hs1|apply Hc]. }
  intros [pCfg|] s2 [Hs2 Hd]; [|by apply runs_ret]. specialize (Hd pCfg eq_refl).
  apply runs_bind. eapply runs_mono; [apply calm_call|]. intros r s3 H3.
  assert (good s3) as Hs3 by exact (calm_good _ _ H3 Hs2). destruct (is_SUCCESS _); simpl; [|by apply runs_ret].
  apply runs_bind. eapply runs_mono; [by apply runs_list_populate|]. intros o s4 [H4 Ho].
  assert (good s4) as Hs4 by exact (calm_good _ _ H4 Hs3). destruct o as [[l c]|]; [|by apply runs_ret].
  match goal with |- runs _ _ ?m _ => enough (keeps m) as Hm by (by apply Hm) end.
  specialize (Ho l c eq_refl). pose proof keeps_lists_apply. apply keeps_bind; [apply keeps_calm, calm_list_populate, _|].
  intros [[l2 c2]|]; [|keeps]. auto.
Qed.
#[local] Hint Resolve keeps_populate : keeps.

Lemma distinct_none : distinct (replicate AUTHMGR_METHOD_LAST 0).
Proof.
  change (distinct ([] ++ replicate AUTHMGR_METHOD_LAST AUTHMGR_METHOD_NONE)). by apply (distinct_sublist [] []), distinct_nil.
Qed.
Lemma keeps_clear_port i f :
  (∀ x, pi_enabledMethods (f x) = replicate AUTHMGR_METHOD_LAST 0) → keeps (port_upd i f).
Proof. intros Hf. apply keeps_port_upd. intros x _. rewrite Hf. apply distinct_none. Qed.
Lemma keeps_order_change i : keeps (authmgrMethodOrderChangeProcess i).
Proof. unfold authmgrMethodOrderChangeProcess. keeps. by apply keeps_clear_port. Qed.
#[local] Hint Resolve keeps_order_change : keeps.
Lemma keeps_modify_methods i : keeps (authmgrMethodModifyAction i).
Proof. unfold authmgrMethodModifyAction. keeps. Qed.
#[local] Hint Resolve keeps_modify_methods : keeps.
Lemma keeps_auth_modify i cp : keeps (authmgrStatusAuthModifyAction i cp).
Proof. unfold authmgrStatusAuthModifyAction. keeps. Qed.
#[local] Hint Resolve keeps_auth_modify : keeps.
#[local] Hint Resolve calm_known calm_ignored : pac.

Lemma keeps_callback i cp : keeps (authmgrClientCallbackEventProcess i cp).
Proof.
  unfold authmgrClientCallbackEventProcess, client_callback, client_event, client_disconnected.
  destruct (rp_status cp); simpl; keeps.
Qed.
Lemma keeps_timer ty k : keeps (authmgrTimerExpiryAction ty k).
Proof.
  unfold authmgrTimerExpiryAction, authmgrQwhileExpiryAction, authmgrReAuthWhenExpiryAction, no_result. destruct ty; simpl; keeps.
Qed.
Lemma keeps_lport_reauth l : keeps (authmgrCtlLogicalPortReauthenticateSet l).
Proof. unfold authmgrCtlLogicalPortReauthenticateSet. keeps. Qed.
#[local] Hint Resolve keeps_callback keeps_timer keeps_lport_reauth : keeps.

(** *** Ports and interfaces *)

Lemma keeps_port_cleanup i : keeps (authmgrPortInfoCleanup i).
Proof. unfold authmgrPortInfoCleanup. keeps. Qed.
Lemma keeps_port_init i : keeps (authmgrPortInfoInitialize i).
Proof.
  assert (∀ c, keeps (port_info_fill i c)); [intros c; unfold port_info_fill|unfold authmgrPortInfoInitialize; keeps].
  apply keeps_bind; [by apply keeps_clear_port|intros _]. keeps.
Qed.
#[local] Hint Resolve keeps_port_cleanup keeps_port_init : keeps.
Lemma keeps_host_mode i m t : keeps (host_mode_apply i m t).
Proof.
  assert (∀ m, keeps (host_mode_set m i)) by (intros; unfold host_mode_set; keeps).
  unfold host_mode_apply. destruct m; simpl; keeps.
Qed.
#[local] Hint Resolve keeps_host_mode : keeps.
Lemma keeps_ctrl_mode i m : keeps (authmgrPortCtrlModeSet i m).
Proof.
  unfold authmgrPortCtrlModeSet. destruct m; unfold control_mode_apply, control_mode_store, authmgrVlanAcquirePort,
    authmgrVlanReleasePort, authmgrPortControlAutoActionSet, authmgrPortControlForceAuthActionSet,
    authmgrPortControlForceUnAuthActionSet, force_port, authmgrTxCannedSuccess, authmgrTxCannedFail; keeps.
Qed.
#[local] Hint Resolve keeps_ctrl_mode : keeps.
Lemma keeps_apply_config i : keeps (authmgrCtlApplyPortConfigData i).
Proof. unfold authmgrCtlApplyPortConfigData. keeps. Qed.
#[local] Hint Resolve keeps_apply_config : keeps.

Lemma keeps_intf_create i : keeps (authmgrIntfCreate i).
Proof.
  assert (∀ r (c : authmgrPortCfg_t), keeps (c' ← authmgrBuildDefaultIntfConfigData (c <| pc_configId := r |>); port_cfg_set i c')) as Hc.
  { intros r c s Hs. unfold authmgrBuildDefaultIntfConfigData, default_list.
    destruct (Nat.ltb_spec (length FD_AUTHMGR_LIST) AUTHMGR_METHOD_MAX); [done|].
    destruct (Nat.ltb_spec (length (pc_methodList (c <| pc_configId := r |>))) AUTHMGR_METHOD_MAX); [done|].
    destruct (Nat.ltb_spec (length (pc_priorityList (c <| pc_configId := r |>))) AUTHMGR_METHOD_MAX); [done|].
    apply keeps_cfg_set; [|done]. simpl. rewrite take_app_length' by (rewrite length_take; lia). apply (good_default s Hs). }
  unfold authmgrIntfCreate, port_cfg, authmgrCtlPortStatsClear, if_admin. keeps.
Qed.
Lemma keeps_intf_start i : keeps (authmgrIntfStart i).
Proof. unfold authmgrIntfStart, intf_restart, authmgrPortReset. keeps. Qed.
#[local] Hint Resolve keeps_intf_create keeps_intf_start : keeps.
Lemma keeps_intf_delete i : keeps (authmgrIntfDelete i).
Proof.
  assert (keeps (pCfg ← port_cfg i; port_cfg_set i (pCfg <| pc_configId := 0 |>);; port_upd i (λ _, port_zero);;
    stats_clear i;; mret SUCCESS)) as Hc.
  { intros s Hs. unfold port_cfg. apply runs_bind, runs_bind, runs_gets, runs_option; [done|]. intros c Hc.
    match goal with |- runs _ _ ?m _ => enough (keeps m) as Hm by (by apply Hm) end.
    apply keeps_bind; [apply keeps_cfg_set; exact (good_cfg s Hs i c Hc)|intros _].
    apply keeps_bind; [by apply keeps_clear_port|intros _]. keeps. }
  unfold authmgrIntfDelete. keeps.
Qed.
#[local] Hint Resolve keeps_intf_delete : keeps.
Lemma keeps_intf_change i ev : keeps (authmgrIhProcessIntfChange i ev).
Proof.
  unfold authmgrIhProcessIntfChange, intf_up, intf_down, intf_attach, authmgrIntfDetach, authmgrPortReset. destruct ev; keeps.
Qed.
Lemma keeps_startup phase : keeps (authmgrIhProcessIntfStartup phase).
Proof. unfold authmgrIhProcessIntfStartup, authmgrIntfActivateStartup, if_valid. destruct phase; keeps. Qed.
Lemma keeps_admin_enable : keeps authmgrCtlAdminModeEnable.
Proof.
  assert (∀ i, keeps (port_enable i)) by (intros i; unfold port_enable; keeps).
  pose proof (keeps_ports_until port_enable). unfold authmgrCtlAdminModeEnable. keeps.
Qed.
Lemma keeps_admin_disable : keeps authmgrCtlAdminModeDisable.
Proof. unfold authmgrCtlAdminModeDisable. keeps. by apply keeps_clear_port. Qed.
#[local] Hint Resolve keeps_intf_change keeps_startup keeps_admin_enable keeps_admin_disable : keeps.

Lemma keeps_dispatch c : keeps (authmgrDispatchCmd c).
Proof.
  apply keeps_bind; [keeps|intros _]. destruct c; unfold authmgrTimerAction, authmgrCtlPortInitializeSet,
    authmgrDot1xPortPaeCapabilitiesGet, authmgrCtlPortReauthenticateSet, authmgrCtlLogicalPortInitializeSet,
    authmgrCtlApplyLogicalPortConfigData, authmgrCtlPortControlModeSet, authmgrPaeCapabilitiesEventProcess,
    authmgrVlanReleasePort, authmgrViolationModeSetAction, authmgrPortCtrlHostModeSet, control_mode_store,
    authmgrCtlPortQuietPeriodSet, authmgrCtlPortReAuthPeriodSet, authmgrCtlPortReAuthEnabledSet, authmgrCtlPortStatsClear,
    authmgrCtlApplyConfigData, authmgrCtlPortMaxUsersSet, authmgrRadiusResponseProcess, authmgrAuthenticationInitiate,
    authmgrCtlPortReset, authmgrIntfOperBuildDefault, if_admin; keeps.
  by apply keeps_clear_port.
Qed.
Lemma keeps_vlan ev : keeps (authmgrVlanDispatchCmd ev).
Proof.
  assert (∀ i v, keeps (vlan_clients_leave i v)) by (intros; unfold vlan_clients_leave, clients_leave; keeps).
  unfold authmgrVlanDispatchCmd, authmgrVlanChangeProcess. destruct ev; unfold authmgrVlanDeleteProcess, authmgrVlanAddProcess,
    authmgrVlanPortDeleteProcess, authmgrVlanPortDeleteLocalUpdate, authmgrVlanPortAddProcess, authmgrVlanPortAddLocalUpdate,
    authmgrVlanPVIDChangeEventProcess, authmgrVlanConfDeleteProcess, authmgrVlanConfPortDeleteProcess, clients_leave; keeps.
Qed.
Lemma keeps_handle msg : keeps (pac_handle msg).
Proof.
  unfold pac_handle. apply keeps_bind; [keeps|intros _].
  destruct msg; simpl; [apply keeps_dispatch|apply keeps_unauth_addr|apply keeps_vlan].
Qed.

Lemma keeps_run msgs : keeps (pac_run msgs).
Proof. induction msgs as [|msg msgs IH]; simpl; [apply keeps_ret|]. apply keeps_bind; [apply keeps_handle|done]. Qed.

(** C10. The manager handles every message to its end.  From a well-formed database, with no
    method twice in the configured, the enabled and the default lists of methods, no sequence of
    messages (all commands, addresses seen and VLAN changes) and no answers of the other
    components make the mutual recursion of [authmgrGenerateEvents] and the state machine, or a
    loop over the clients of a port or over the interfaces, run without end; and the lists stay
    without duplicates. *)
Theorem pac_run_returns (msgs : list pac_msg) (s : authmgrCB_t) :
  good s → pac_run msgs s ≠ Fault OutOfFuel ∧ ∀ s', pac_run msgs s = Ok tt s' → good s'.
Proof.
  intros Hs. pose proof (keeps_run msgs s Hs) as Hr. unfold runs in Hr. destruct (pac_run msgs s) as [[] s'|f].
  - split; [done|]. by intros s'' [= <-].
  - split; [|done]. intros [= ->]. by apply Hr.
Qed.
End handlers.

#[local] Existing Instance Demo.headers.
#[local] Existing Instance Demo.headers_ok.

Lemma start_good : good Demo.start.
Proof.
  split; [exact Demo.start_wf| |by intros q n ->%Demo.start_nodes| |].
  - intros i x Hx. simpl in Hx. apply lookup_singleton_Some in Hx as [_ <-]. by apply distinct_dec, (bool_decide_unpack _).
  - intros i c Hc. simpl in Hc. apply lookup_singleton_Some in Hc as [_ <-]. by apply distinct_dec, (bool_decide_unpack _).
  - by apply distinct_dec, (bool_decide_unpack _).
Qed.

(** The run in which a client is seen and authorized *)
Lemma pac_run_returns_witness :
  pac_run Demo.msgs Demo.start ≠ Fault OutOfFuel ∧ ∀ s', pac_run Demo.msgs Demo.start = Ok tt s' → good s'.
Proof. apply (pac_run_returns Demo.msgs Demo.start). exact start_good. Defined.

(** ** A method twice in the list *)

Module Duplicate.
Import Demo.

(** [authmgrPortAuthMethodSet] accepts a method that is already in the list. *)
Lemma duplicate_accepted :
  match (_ ← authmgrPortAuthMethodSet AUTHMGR_TYPE_ORDER 3 1 AUTHMGR_METHOD_MAB;
         authmgrPortAuthMethodSet AUTHMGR_TYPE_ORDER 3 2 AUTHMGR_METHOD_MAB) start with
  | Ok rc s' => rc = SUCCESS ∧ pc_methodList <$> g_portCfg s' !! 3 = Some [2; 2; 0]
  | Fault _ => False
  end.
Proof. vm_compute. done. Qed.

(** A client of a port with such a list, whose method failed; MAB cannot be started *)
Definition key : Z := 196610.
Definition failed : authmgrLogicalPortInfo_t :=
  mkLogicalPortInfo key timer_zero timer_zero
    (mkProtocolInfo false AUTHMGR_AUTHENTICATING false true false false true false false false false)
    (client_zero <| cl_currentMethod := 2 |> <| cl_suppMacAddr := mac |>).
Definition stuck (n : authmgrLogicalPortInfo_t) (tr : list (pcall * pres)) : authmgrCB_t := start
  <| g_portInfo := {[3 := port3 <| pi_enabledMethods := [2; 2; 0] |> ]} |>
  <| g_callbacks := [mkCallback 0 false false false false; mkCallback 1 false false false false; mkCallback 2 false false false false] |>
  <| g_tree := {[key := 1]} |> <| g_nodes := {[1 := n]} |> <| g_trace := tr |>.
Definition asked : pcall * pres := (nimGetIntfType 3, answers [] (nimGetIntfType 3)).

Lemma stuck_get n tr : authmgrLogicalPortInfoGet key (stuck n tr) = Ok 1 (stuck n tr).
Proof. reflexivity. Qed.
Lemma stuck_node n tr : node 1 (stuck n tr) = Ok n (stuck n tr).
Proof. reflexivity. Qed.
Lemma stuck_upd f n tr : node_upd 1 f (stuck n tr) = Ok tt (stuck (f n) tr).
Proof. vm_compute. reflexivity. Qed.
Lemma stuck_advance tr : advance_method 1 3 (stuck failed tr) = Ok true (stuck failed (asked :: asked :: tr)).
Proof. vm_compute. reflexivity. Qed.
Lemma stuck_trigger tr : let n := failed <| lp_protocol ::= set pr_authFail (λ _, false) |> in
  authmgrAuthenticationTrigger 1 (stuck n tr) = Ok FAILURE (stuck n tr).
Proof. vm_compute. reflexivity. Qed.

(** One call leads to the next one in the same state. *)
Lemma stuck_again (gen : Z → P RC_t) tr :
  gen key (stuck failed (asked :: asked :: tr)) = Fault OutOfFuel →
  generate_events gen key (stuck failed tr) = Fault OutOfFuel.
Proof.
  intros Hgen. unfold generate_events. rewrite (bind_ok _ _ _ _ _ (stuck_get _ _)). simpl (1 =? NULLPTR). cbv iota.
  rewrite (bind_ok _ _ _ _ _ (stuck_node _ _)). erewrite bind_ok by reflexivity.
  rewrite (bind_ok (in_state 1 AUTHMGR_UNAUTHENTICATED _ false) _ _ false (stuck failed tr)) by reflexivity.
  apply bind_fault. unfold in_state. rewrite (bind_ok _ _ _ _ _ (stuck_node _ _)). simpl (_ ==? _). cbv iota.
  unfold events_authenticating. rewrite (bind_ok _ _ _ _ _ (stuck_node _ _)).
  change ((ok ← advance_method 1 3; classify gen (if ok : bool then authmgrNotAuthSuccessNextMethod
    else authmgrNotAuthSuccessNoNextMethod) key) (stuck failed tr) = Fault OutOfFuel).
  rewrite (bind_ok _ _ _ _ _ (stuck_advance _)). apply bind_fault. unfold authmgrStateMachineClassifier.
  rewrite (bind_ok _ _ _ _ _ (stuck_get _ _)). simpl (1 =? NULLPTR). cbv iota. unfold authmgrStateMachine.
  simpl (1 =? NULLPTR). cbv iota. rewrite (bind_ok _ _ _ _ _ (stuck_node _ _)). simpl (authmgrStateTable _ _). cbv iota.
  unfold authmgrAuthenticatingAction. simpl (1 =? NULLPTR). cbv iota. unfold state_set, protocol_upd.
  do 2 rewrite (bind_ok _ _ _ _ _ (stuck_upd _ _ _)). rewrite (bind_ok _ _ _ _ _ (stuck_node _ _)).
  simpl (pr_authenticatedRcvdStartAuth _). cbv iota. rewrite (bind_ok _ _ _ _ _ (stuck_trigger _)). apply bind_fault.
  simpl (when _ _). rewrite (bind_ok _ _ _ _ _ (stuck_upd _ _ _)), (bind_ok _ _ _ _ _ (stuck_node _ _)).
  apply bind_fault. exact Hgen.
Qed.

(** The calls never end. *)
Lemma duplicate_recurses fuel tr : generate fuel key (stuck failed tr) = Fault OutOfFuel.
Proof. revert tr. induction fuel as [|f IH]; intros tr; [done|]. apply stuck_again, IH. Qed.
End Duplicate.
