(* ===== verification/PacSpec.v ===== *)
(** * The authentication manager: keys, the order of the methods, precedence

    Functional descriptions of single operations, by the lists and fields they read: the
    32-bit key of a client, the method that is tried next, the method that may take over a
    client.  The last part evaluates operations where they do not do what the code means. *)

From S2P Require Import Prelude CMem CString PacState PacPort PacClient PacSm PacEvents PacConfig PacFrame PacSafety PacTotal.
#[local] Open Scope Z_scope.

(** ** Keys *)

Lemma unpack_pack x y z :
  0 ≤ x < 2 ^ 16 → 0 ≤ y < 2 ^ 12 → 0 ≤ z < 2 ^ 4 →
  AUTHMGR_LPORT_KEY_UNPACK (AUTHMGR_LPORT_KEY_PACK x y z 0) = (x, y, z).
Proof.
  intros Hx Hy Hz. unfold AUTHMGR_LPORT_KEY_UNPACK. by rewrite key_port, key_lport, key_type.
Qed.

(** C26. The key of a logical port.  Packing a physical port, a logical port and a type into the
    32 bits of a key and unpacking it gives them back, as long as each fits its field (16, 12
    and 4 bits); and every 32-bit number is the key that its own parts are packed into, so two
    clients have the same key only if port and logical port agree. *)
Theorem key_pack_unpack x y z v :
  0 ≤ x < 2 ^ 16 → 0 ≤ y < 2 ^ 12 → 0 ≤ z < 2 ^ 4 → 0 ≤ v < 2 ^ 32 →
  AUTHMGR_LPORT_KEY_UNPACK (AUTHMGR_LPORT_KEY_PACK x y z 0) = (x, y, z) ∧
  let '(physPort, lPort, type) := AUTHMGR_LPORT_KEY_UNPACK v in AUTHMGR_LPORT_KEY_PACK physPort lPort type 0 = v.
Proof.
  intros Hx Hy Hz Hv. split; [by apply unpack_pack|]. simpl. apply Z.bits_inj'. intros n Hn. rewrite pack_bits by done.
  unfold AUTHMGR_PORT_GET, AUTHMGR_LPORT_GET, AUTHMGR_TYPE_GET. change 0xFFFF0000 with (Z.shiftl (Z.ones 16) 16).
  change 0xFFF0 with (Z.shiftl (Z.ones 12) 4). change 0xF with (Z.ones 4).
  destruct (Z.lt_ge_cases n 32).
  2: { rewrite bool_decide_eq_false_2 by lia. rewrite Z.land_spec, (testbit_high v 32) by lia. done. }
  rewrite bool_decide_eq_true_2 by done. rewrite Z.land_spec.
  destruct (Z.lt_ge_cases n 4).
  { rewrite !(Z.testbit_neg_r _ (n - _)), Z.ones_spec_low by lia. btauto. }
  rewrite Z.ones_spec_high by lia. rewrite (Z.shiftr_spec _ 4) by lia. replace (n - 4 + 4) with n by lia.
  rewrite (Z.land_spec v (Z.shiftl (Z.ones 12) 4)), (Z.shiftl_spec _ 4) by lia.
  destruct (Z.lt_ge_cases n 16).
  { rewrite (Z.testbit_neg_r _ (n - 16)), (Z.ones_spec_low 12) by lia. btauto. }
  rewrite (Z.ones_spec_high 12), Z.shiftr_spec by lia. replace (n - 16 + 16) with n by lia.
  rewrite Z.land_spec, Z.shiftl_spec, Z.ones_spec_low by lia. btauto.
Qed.
Lemma key_pack_unpack_witness :
  AUTHMGR_LPORT_KEY_UNPACK (AUTHMGR_LPORT_KEY_PACK 65535 4095 2 0) = (65535, 4095, 2).
Proof. apply (key_pack_unpack 65535 4095 2 0); lia. Defined.

(** ** Places of a list of methods *)

Section lists.
Context `{!Headers}.

Lemma listed_ok n j l m s :
  (j + n ≤ length l)%nat →
  ∃ b, method_listed n j l m s = Ok b s ∧ (b = true ↔ ∃ k, (j ≤ k < j + n)%nat ∧ l !! k = Some m).
Proof.
  revert j. induction n as [|n IH]; intros j Hl; simpl.
  - exists false. split; [done|]. split; [done|]. intros (k & ? & _). lia.
  - destruct (lookup_lt_is_Some_2 l j) as [x Hx]; [lia|]. destruct (IH (S j)) as (b & Hb & Hiff); [lia|].
    rewrite (bind_ok _ _ _ _ _ (method_ok _ _ _ _ Hx)), (bind_ok _ _ _ _ _ Hb). eexists. split; [done|].
    rewrite orb_true_iff, Z.eqb_eq, Hiff. split.
    + intros [->|(k & ? & ?)]; [exists j|exists k]; split; [lia|done|lia|done].
    + intros (k & ? & Hk). destruct (decide (k = j)) as [->|]; [left; congruence|right; exists k; split; [lia|done]].
Qed.

Lemma before_ok n j l m1 m2 s :
  (j + n ≤ length l)%nat →
  ∃ b, method_before n j l m1 m2 s = Ok b s ∧
    (b = true ↔ ∃ k k', (j ≤ k < j + n)%nat ∧ (k' < k)%nat ∧ l !! k = Some m1 ∧ l !! k' = Some m2).
Proof.
  revert j. induction n as [|n IH]; intros j Hl; simpl.
  - exists false. split; [done|]. split; [done|]. intros (k & k' & ? & _). lia.
  - destruct (lookup_lt_is_Some_2 l j) as [x Hx]; [lia|]. destruct (IH (S j)) as (b & Hb & Hiff); [lia|].
    destruct (listed_ok j 0 l m2 s) as (c & Hc & Hiffc); [lia|].
    rewrite (bind_ok _ _ _ _ _ (method_ok _ _ _ _ Hx)). destruct (Z.eqb_spec x m1) as [->|Hne]; simpl.
    + rewrite (bind_ok _ _ _ _ _ Hc). destruct c; simpl.
      * exists true. split; [done|]. split; [intros _|done]. destruct (proj1 Hiffc eq_refl) as (k' & ? & ?).
        exists j, k'. split_and!; [lia|lia|lia|done|done].
      * rewrite Hb. exists b. split; [done|]. rewrite Hiff. split; intros (k & k' & ? & ? & Hk & Hk').
        -- exists k, k'. split_and!; [lia|lia|lia|done|done].
        -- exists k, k'. destruct (decide (k = j)) as [->|]; [|split_and!; [lia|lia|lia|done|done]].
           assert (false = true) as [=]. apply Hiffc. exists k'. split; [lia|done].
    + rewrite (bind_ok _ _ _ false s) by done. rewrite Hb. exists b. split; [done|]. rewrite Hiff.
      split; intros (k & k' & ? & ? & Hk & Hk').
      * exists k, k'. split_and!; [lia|lia|lia|done|done].
      * exists k, k'. destruct (decide (k = j)) as [->|]; [congruence|split_and!; [lia|lia|lia|done|done]].
Qed.

(** [m] is one of the methods of the list. *)
Definition listed (l : list Z) (m : Z) : Prop := ∃ k : nat, (AUTHMGR_METHOD_MIN ≤ k < AUTHMGR_METHOD_MAX)%nat ∧ l !! k = Some m.
(** [m2] comes before [m1]. *)
Definition precedes (l : list Z) (m2 m1 : Z) : Prop := ∃ k k' : nat,
  (AUTHMGR_METHOD_MIN ≤ k < AUTHMGR_METHOD_MAX)%nat ∧ (k' < k)%nat ∧ l !! k = Some m1 ∧ l !! k' = Some m2.
(** The interface manager says that the interface is a physical one. *)
Definition physical (a : pres) : bool := is_SUCCESS (r_rc a) && r_flag a.

(** C18. Which method may take over a client.  [authmgrPriorityPrecedenceValidate] always returns,
    without touching the clients, and it returns [SUCCESS] exactly when the interface is
    physical, the new method is enabled on the port, and it stands before the old one in the
    priorities of the port. *)
Theorem precedence_decides (i m1 m2 : Z) (s : authmgrCB_t) (x : authmgrPortInfo_t) :
  g_portInfo s !! i = Some x → (AUTHMGR_METHOD_MIN ≤ AUTHMGR_METHOD_MAX)%nat →
  (AUTHMGR_METHOD_MAX ≤ length (pi_enabledMethods x))%nat → (AUTHMGR_METHOD_MAX ≤ length (pi_enabledPriority x))%nat →
  ∃ rc s', authmgrPriorityPrecedenceValidate i m1 m2 s = Ok rc s' ∧ g_nodes s' = g_nodes s ∧
    (rc = SUCCESS ↔ physical (g_env s (g_trace s) (nimGetIntfType i)) = true ∧
      (m1 ≠ AUTHMGR_METHOD_NONE ∨ m2 ≠ AUTHMGR_METHOD_NONE) ∧
      listed (pi_enabledMethods x) m2 ∧ precedes (pi_enabledPriority x) m2 m1).
Proof.
  intros Hx Hmin Hl1 Hl2. set (a := g_env s (g_trace s) (nimGetIntfType i)).
  set (s' := s <| g_trace ::= cons (nimGetIntfType i, a) |>).
  assert (∀ b1 b2 : bool, (b1 = true ↔ listed (pi_enabledMethods x) m2) → (b2 = true ↔ precedes (pi_enabledPriority x) m2 m1) →
    ∀ rc, (rc = SUCCESS ↔ physical a = true ∧ ((m1 =? AUTHMGR_METHOD_NONE) && (m2 =? AUTHMGR_METHOD_NONE)) = false ∧ b1 = true ∧ b2 = true) →
    rc = SUCCESS ↔ physical a = true ∧ (m1 ≠ AUTHMGR_METHOD_NONE ∨ m2 ≠ AUTHMGR_METHOD_NONE) ∧
      listed (pi_enabledMethods x) m2 ∧ precedes (pi_enabledPriority x) m2 m1) as Hiff.
  { intros b1 b2 E1 E2 rc E. rewrite E, <- E1, <- E2, andb_false_iff, !Z.eqb_neq. done. }
  destruct (listed_ok method_count AUTHMGR_METHOD_MIN (pi_enabledMethods x) m2 s') as (b1 & H1 & I1); [unfold method_count; lia|].
  destruct (before_ok method_count AUTHMGR_METHOD_MIN (pi_enabledPriority x) m1 m2 s') as (b2 & H2 & I2); [unfold method_count; lia|].
  replace (AUTHMGR_METHOD_MIN + method_count)%nat with AUTHMGR_METHOD_MAX in * by (unfold method_count; lia).
  specialize (Hiff b1 b2 I1 I2). unfold authmgrPriorityPrecedenceValidate, authmgrIsValidIntf, port, mbind, M_bind. simpl.
  fold a s'. change (is_SUCCESS (r_rc a) && r_flag a) with (physical a). destruct (physical a); simpl.
  2: { exists FAILURE, s'. split_and!; [done..|]. apply Hiff. naive_solver. }
  destruct (_ && _); simpl; [exists FAILURE, s'; split_and!; [done..|]; apply Hiff; naive_solver|].
  rewrite Hx. simpl. rewrite H1. destruct b1; simpl.
  2: { exists FAILURE, s'. split_and!; [done..|]. apply Hiff. naive_solver. }
  rewrite H2. eexists _, s'. split_and!; [done..|]. apply Hiff. destruct b2; naive_solver.
Qed.

(** ** The methods in turn *)

Lemma next_ok n j k l cur s :
  l !! (j + k)%nat = Some cur → cur ≠ AUTHMGR_METHOD_NONE → (k < n)%nat → (j + n)%nat = AUTHMGR_METHOD_MAX →
  (AUTHMGR_METHOD_MAX ≤ length l)%nat →
  (∀ a, (a < k)%nat → ∃ m, l !! (j + a)%nat = Some m ∧ m ≠ AUTHMGR_METHOD_NONE ∧ m ≠ cur) →
  next_method n j l cur s = Ok (if (S (j + k) <? AUTHMGR_METHOD_MAX)%nat
    then l !! S (j + k) ≫= λ m, if m =? AUTHMGR_METHOD_NONE then None else Some m else None) s.
Proof.
  revert j k. induction n as [|n IH]; intros j k Hk Hcur Hn Hj Hl Ha; [lia|]. simpl. destruct k as [|k].
  - rewrite Nat.add_0_r in *. rewrite (bind_ok _ _ _ _ _ (method_ok _ _ _ _ Hk)).
    rewrite (proj2 (Z.eqb_neq _ _)) by done. rewrite Z.eqb_refl. simpl.
    destruct (Nat.ltb_spec (S j) AUTHMGR_METHOD_MAX).
    + destruct (lookup_lt_is_Some_2 l (S j)) as [m Hm]; [lia|].
      rewrite (bind_ok _ _ _ _ _ (method_ok _ _ _ _ Hm)), Hm. simpl. by destruct (m =? _).
    + by assert (n = O) as -> by lia.
  - destruct (Ha O) as (m & Hm & Hm0 & Hne); [lia|]. rewrite Nat.add_0_r in Hm.
    rewrite (bind_ok _ _ _ _ _ (method_ok _ _ _ _ Hm)), (proj2 (Z.eqb_neq _ _)) by done.
    rewrite (proj2 (Z.eqb_neq cur m)) by congruence. simpl. rewrite Nat.add_succ_r in *.
    rewrite (IH (S j) k); [done|done|done|lia|lia|done|]. intros a Hlt.
    destruct (Ha (S a)) as (m' & Hm' & ?); [lia|]. exists m'. by rewrite Nat.add_succ_r in Hm'.
Qed.

Lemma next_in_order l ms z k cur s :
  (AUTHMGR_METHOD_MIN < AUTHMGR_METHOD_MAX ≤ length l)%nat →
  drop AUTHMGR_METHOD_MIN l = ms ++ replicate z AUTHMGR_METHOD_NONE →
  NoDup ms → AUTHMGR_METHOD_NONE ∉ ms → (length ms ≤ method_count)%nat → ms !! k = Some cur →
  next_method method_count AUTHMGR_METHOD_MIN l cur s = Ok (ms !! S k) s.
Proof.
  unfold method_count. intros Hmm Hd Hnd Hz Hlen Hk. pose proof (lookup_lt_Some _ _ _ Hk) as Hlt.
  assert (∀ a, l !! (AUTHMGR_METHOD_MIN + a)%nat = (ms ++ replicate z AUTHMGR_METHOD_NONE) !! a) as Hl
    by (intros a; by rewrite <- lookup_drop, Hd).
  assert (∀ a m, ms !! a = Some m → m ≠ AUTHMGR_METHOD_NONE) as Hnz by (intros a m Ha ->; by eapply Hz, list_elem_of_lookup_2).
  rewrite (next_ok _ AUTHMGR_METHOD_MIN k).
  - f_equal. rewrite <- Nat.add_succ_r, Hl. destruct (decide (S k < length ms)%nat) as [Hlt'|Hge].
    + rewrite lookup_app_l by done. destruct (lookup_lt_is_Some_2 ms (S k)) as [m Hm]; [done|]. rewrite Hm. simpl.
      rewrite (proj2 (Z.eqb_neq m _)) by eauto. rewrite (proj2 (Nat.ltb_lt _ _)) by lia. done.
    + rewrite (lookup_ge_None_2 ms (S k)) by lia. case_match; [|done]. rewrite lookup_app_r by lia.
      destruct (replicate z AUTHMGR_METHOD_NONE !! (S k - length ms)%nat) as [m|] eqn:Hm; [|done]. simpl.
      apply lookup_replicate in Hm as [-> _]. done.
  - by rewrite Hl, lookup_app_l.
  - eauto.
  - lia.
  - lia.
  - lia.
  - intros a Ha. destruct (lookup_lt_is_Some_2 ms a) as [m Hm]; [lia|]. exists m. rewrite Hl, lookup_app_l by lia.
    split_and!; [done|eauto|]. intros ->. pose proof (NoDup_lookup ms a k cur Hnd Hm Hk). lia.
Qed.

Lemma valid_ok i s :
  authmgrIsValidIntf i s = Ok (physical (g_env s (g_trace s) (nimGetIntfType i)))
    (s <| g_trace ::= cons (nimGetIntfType i, g_env s (g_trace s) (nimGetIntfType i)) |>).
Proof. done. Qed.

Lemma with_methods_ok i k s x m :
  g_portInfo s !! i = Some x → pi_enabledMethods x !! O = Some m →
  physical (g_env s (g_trace s) (nimGetIntfType i)) = true →
  with_methods pi_enabledMethods i k s =
    (if m =? AUTHMGR_METHOD_NONE then mret None else k (pi_enabledMethods x))
      (s <| g_trace ::= cons (nimGetIntfType i, g_env s (g_trace s) (nimGetIntfType i)) |>).
Proof.
  intros Hx Hm Hp. unfold with_methods. rewrite (bind_ok _ _ _ _ _ (valid_ok i s)), Hp. simpl.
  rewrite (bind_ok _ _ _ x (s <| g_trace ::= cons (nimGetIntfType i, g_env s (g_trace s) (nimGetIntfType i)) |>)).
  - by rewrite (bind_ok _ _ _ _ _ (method_ok _ _ _ _ Hm)).
  - unfold port. erewrite bind_ok by done. simpl. by rewrite Hx.
Qed.

(** C17. The methods of a port are tried in their order.  On a physical interface whose table
    of enabled methods holds, from [AUTHMGR_METHOD_MIN] on, the methods [ms] and then none,
    where no method occurs twice in [ms] and the entry [0] that the code tests is empty only if
    [ms] is, [authmgrEnabledMethodNextGet] gives the first one to a client without a method, to
    a client of any other the one that follows, and no method after the last one. *)
Theorem methods_in_order (i : Z) (s : authmgrCB_t) (x : authmgrPortInfo_t) (ms : list Z) (m0 : Z) (z k : nat) :
  (AUTHMGR_METHOD_MIN < AUTHMGR_METHOD_MAX ≤ length (pi_enabledMethods x))%nat →
  g_portInfo s !! i = Some x →
  drop AUTHMGR_METHOD_MIN (pi_enabledMethods x) = ms ++ replicate z AUTHMGR_METHOD_NONE →
  pi_enabledMethods x !! O = Some m0 → (m0 = AUTHMGR_METHOD_NONE ↔ ms = []) →
  NoDup ms → AUTHMGR_METHOD_NONE ∉ ms → (length ms ≤ method_count)%nat →
  (∀ tr, physical (g_env s tr (nimGetIntfType i)) = true) → (k ≤ length ms)%nat →
  ∃ s', authmgrEnabledMethodNextGet i (nth k (AUTHMGR_METHOD_NONE :: ms) 0) s = Ok (ms !! k) s' ∧ g_nodes s' = g_nodes s.
Proof.
  intros Hmm Hx Hl Hm0 Hfirst Hnd Hz Hlen Hp Hk. unfold authmgrEnabledMethodNextGet.
  rewrite (with_methods_ok i _ s x m0) by auto. set (s1 := s <| g_trace ::= _ |>). destruct ms as [|m ms'].
  { assert (m0 = AUTHMGR_METHOD_NONE) as -> by (by apply Hfirst). assert (k = O) as -> by (simpl in Hk; lia).
    exists s1. split; reflexivity. }
  assert (m0 ≠ AUTHMGR_METHOD_NONE) as Hm by (intros E; by apply Hfirst in E).
  assert (m ≠ AUTHMGR_METHOD_NONE) as Hm' by (intros ->; apply Hz; left).
  rewrite (proj2 (Z.eqb_neq m0 _)) by done. destruct k as [|k].
  - simpl nth. change (_ =? AUTHMGR_METHOD_NONE) with true. cbv iota. unfold authmgrFirstMethodGet.
    rewrite (with_methods_ok i _ s1 x m0) by (try done; apply Hp). rewrite (proj2 (Z.eqb_neq m0 _)) by done.
    set (s2 := s1 <| g_trace ::= _ |>). exists s2. split; [|done].
    assert (pi_enabledMethods x !! AUTHMGR_METHOD_MIN = Some m) as Hat
      by (by rewrite <- (Nat.add_0_r AUTHMGR_METHOD_MIN), <- lookup_drop, Hl).
    unfold method_count. destruct (AUTHMGR_METHOD_MAX - AUTHMGR_METHOD_MIN)%nat eqn:E; [lia|]. simpl.
    rewrite (bind_ok _ _ _ _ _ (method_ok _ _ _ _ Hat)). by rewrite (proj2 (Z.eqb_neq m _)) by done.
  - change (nth (S k) _ _) with (nth k (m :: ms') 0). destruct (lookup_lt_is_Some_2 (m :: ms') k) as [cur Hcur]; [simpl in *; lia|].
    rewrite (nth_lookup_Some _ _ _ _ Hcur).
    assert (cur ≠ AUTHMGR_METHOD_NONE) as Hc0 by (intros ->; by apply Hz, list_elem_of_lookup_2 with k).
    rewrite (proj2 (Z.eqb_neq cur _)) by done. unfold authmgrNextMethodGet.
    rewrite (with_methods_ok i _ s1 x m0) by (try done; apply Hp). rewrite (proj2 (Z.eqb_neq m0 _)) by done.
    set (s2 := s1 <| g_trace ::= _ |>). exists s2. split; [|done]. by apply next_in_order with z.
Qed.
End lists.

#[local] Existing Instance Demo.headers.

(** The second method of the port of the concrete manager follows the first one. *)
Lemma methods_in_order_witness :
  ∃ s', authmgrEnabledMethodNextGet 3 (nth 1 [0; 1; 2] 0) Demo.start = Ok ([1; 2] !! 1%nat) s' ∧ g_nodes s' = g_nodes Demo.start.
Proof.
  apply (methods_in_order 3 Demo.start Demo.port3 [1; 2] 1 1 1); try reflexivity.
  - simpl. lia.
  - split; discriminate.
  - by apply (bool_decide_unpack _).
  - by apply (bool_decide_unpack _).
  - simpl. lia.
Defined.

(** 802.1X takes over a client of MAB, since it stands before it. *)
Lemma precedence_decides_witness :
  ∃ rc s', authmgrPriorityPrecedenceValidate 3 2 1 Demo.start = Ok rc s' ∧ g_nodes s' = g_nodes Demo.start ∧
    (rc = SUCCESS ↔ physical (g_env Demo.start (g_trace Demo.start) (nimGetIntfType 3)) = true ∧
      (2 ≠ AUTHMGR_METHOD_NONE ∨ 1 ≠ AUTHMGR_METHOD_NONE) ∧
      listed (pi_enabledMethods Demo.port3) 1 ∧ precedes (pi_enabledPriority Demo.port3) 1 2).
Proof. apply (precedence_decides 3 2 1 Demo.start Demo.port3); simpl; first [reflexivity|lia]. Defined.

(** ** Where the code does not do what it means to *)

(** The timer that waits for an answer of a method has no handler: it is never started. *)
Lemma no_response_timer : authmgrTimerHandlerInfoGet AUTHMGR_METHOD_NO_RESP_TMR = None.
Proof. reflexivity. Qed.

(** The entry of an authorized client is reported as added whether the driver took it or not. *)
Lemma entry_add_succeeds i mac v b s : ∃ s', authmgrAuthenticatedClientAdd i mac v b s = Ok SUCCESS s'.
Proof.
  unfold authmgrAuthenticatedClientAdd, when, call_, call, mbind, M_bind, mret, M_ret.
  destruct (is_SUCCESS _); simpl; [|by eexists]. destruct (r_flag _); simpl; [|by eexists]. destruct (_ && _); by eexists.
Qed.

(** A port whose only untagged VLAN is the last one has no default VLAN. *)
Lemma last_vlan_missed :
  match authmgrPortDefaultVlanGet 3 (Demo.start <| g_portVlans := {[3 := ({[4094]}, ∅)]} |> <| g_vlanMask := {[4094]} |>) with
  | Ok r _ => r = (FAILURE, 0)
  | Fault _ => False
  end.
Proof. vm_compute. reflexivity. Qed.

(** A method that stays enabled but is no longer the first one loses its clients. *)
Lemma order_change_purges :
  let s := Demo.after Demo.msgs Demo.start <| g_portCfg := {[3 := Demo.cfg3 <| pc_methodList := [2; 1; 0] |> <| pc_priorityList := [2; 1; 0] |> ]} |> in
  let s' := Demo.after [PacCmd (authmgrMethodOrderModify 3)] s in
  pi_enabledMethods <$> g_portInfo s' !! 3 = Some [2; 1; 0] ∧
  size (g_tree s) = 1%nat ∧ size (g_tree s') = 0%nat.
Proof. vm_compute. done. Qed.

