(* ===== verification/PacCount.v ===== *)
(** * The authentication manager: the count of authorized clients

    [authCount] of a port decides when the port is opened and closed: it is opened
    for the first authorized client and closed after the last one.  It is the number
    of authorized clients of the port, whatever the manager is told about clients and
    VLANs.  The commands that set a port up again are the exception: they start the
    count at zero while clients may be there ([count_lost]), and the command that
    initializes a client forgets one that is counted ([client_lost]). *)

From S2P Require Import Prelude CMem CString PacState PacPort PacClient PacSm PacEvents PacConfig PacFrame PacSafety.
#[local] Open Scope Z_scope.

Definition authorized_on (i : Z) (n : authmgrLogicalPortInfo_t) : bool :=
  (cl_logicalPortStatus (lp_client n) ==? AUTHMGR_PORT_STATUS_AUTHORIZED) && (AUTHMGR_PORT_GET (lp_key n) =? i).
(** The authorized clients of a port *)
Definition authorized_count (m : gmap Z authmgrLogicalPortInfo_t) (i : Z) : nat :=
  size (filter (λ qn, authorized_on i qn.2 = true) m).

Lemma count_upd m p n n' i : m !! p = Some n →
  (authorized_count (<[p := n']> m) i + Nat.b2n (authorized_on i n) = authorized_count m i + Nat.b2n (authorized_on i n'))%nat.
Proof.
  intros Hn. unfold authorized_count. rewrite map_filter_insert, map_filter_delete.
  set (F := filter (λ qn : Z * authmgrLogicalPortInfo_t, authorized_on i qn.2 = true) m).
  assert (F !! p = if authorized_on i n then Some n else None) as HF.
  { destruct (authorized_on i n) eqn:Ha; [by apply map_lookup_filter_Some|]. apply map_lookup_filter_None. right.
    intros x Hx. simpl. rewrite Hn in Hx. injection Hx as <-. by rewrite Ha. }
  assert (authorized_on i n = true → (0 < size F)%nat) as Hpos.
  { intros Ha. rewrite Ha in HF. apply Nat.neq_0_lt_0. intros Hz. apply map_size_empty_inv in Hz. by rewrite Hz in HF. }
  simpl. case_decide as Ha'; [rewrite Ha'|rewrite (not_true_is_false _ Ha')]; destruct (authorized_on i n); simpl.
  - rewrite map_size_insert_Some by (rewrite HF; eauto). lia.
  - rewrite map_size_insert_None by done. lia.
  - rewrite map_size_delete_Some by (rewrite HF; eauto). specialize (Hpos eq_refl). lia.
  - rewrite map_size_delete_None by done. lia.
Qed.

Lemma count_same m p n n' i : m !! p = Some n → authorized_on i n' = authorized_on i n →
  authorized_count (<[p := n']> m) i = authorized_count m i.
Proof. intros Hn Ha. pose proof (count_upd m p n n' i Hn) as Hc. rewrite Ha in Hc. lia. Qed.

Lemma count_le m i : (authorized_count m i ≤ size m)%nat.
Proof. apply map_subseteq_size, map_filter_subseteq. Qed.

(** ** The invariant *)

Record counted (s : authmgrCB_t) : Prop := {
  co_wf : wf s;
  (** Interfaces are numbered from 1. *)
  co_count i x : i ≠ 0 → g_portInfo s !! i = Some x → pi_portControlMode x = AUTHMGR_PORT_AUTO →
    pi_authCount x = Z.of_nat (authorized_count (g_nodes s) i);
  co_pool : Z.of_nat (size (g_nodes s)) < 2 ^ 32;
  (** The interface manager gives the same identity for an interface each time. *)
  co_env i tr : g_env s tr (nimConfigIdGet i) = g_env s [] (nimConfigIdGet i)
}.

Definition tally {A} (m : P A) : Prop := ∀ s, counted s → runs partial (λ _, counted) m s.

Lemma calm_authorized n n' i : calm_node n n' → authorized_on i n' = authorized_on i n.
Proof. intros [Hk _ _ _ Hs _]. unfold authorized_on. by rewrite Hk, Hs. Qed.

Lemma calm_count s s' i : calm s s' → authorized_count (g_nodes s') i = authorized_count (g_nodes s) i.
Proof.
  intros Hc. unfold authorized_count. rewrite <- !size_dom. f_equal. apply set_eq. intros q.
  rewrite !elem_of_dom. unfold is_Some. setoid_rewrite map_lookup_filter_Some. simpl.
  pose proof (calm_nodes s s' Hc q) as Hq. split; intros (n & Hn & Ha); rewrite Hn in Hq; inversion Hq as [m m' Hm E1 E2|]; subst.
  - exists m. split; [done|]. by rewrite <- (calm_authorized m n i).
  - exists m'. split; [done|]. by rewrite (calm_authorized n m' i).
Qed.
Lemma calm_size s s' : calm s s' → size (g_nodes s') = size (g_nodes s).
Proof.
  intros Hc. rewrite <- !size_dom. f_equal. apply set_eq. intros q. rewrite !elem_of_dom.
  pose proof (calm_nodes s s' Hc q) as Hq. destruct (g_nodes s !! q), (g_nodes s' !! q); inversion Hq; split; eauto.
Qed.

Lemma calm_counted s s' : calm s s' → counted s → counted s'.
Proof.
  intros Hc [Hwf Hcount Hpool Henv]. split.
  - by apply (calm_safe nokey none s s' Hc).
  - intros i x' Hi0 Hx' Hm. rewrite (calm_count s s') by done. pose proof (calm_ports s s' Hc i) as Hi. rewrite Hx' in Hi.
    inversion Hi as [x ? Hp Hx|]; subst. pose proof (f_equal pi_portControlMode Hp : pi_portControlMode x' = _) as E1.
    pose proof (f_equal pi_authCount Hp : pi_authCount x' = _) as E2. rewrite E2. apply (Hcount i x); [done|done|]. simpl in E1. congruence.
  - by rewrite (calm_size s s').
  - intros i tr. by rewrite (calm_env s s' Hc).
Qed.

Lemma tally_ret {A} (a : A) : tally (mret a).
Proof. by intros s Hs. Qed.
Lemma tally_bind {A B} (m : P A) (k : A → P B) : tally m → (∀ a, tally (k a)) → tally (m ≫= k).
Proof. intros Hm Hk s Hs. apply runs_bind. eapply runs_mono; [by apply Hm|]. intros a s' Hs'. by apply Hk. Qed.
Lemma tally_calm {A} (m : P A) : pspec partial calm m → tally m.
Proof. intros Hm s Hs. eapply runs_mono; [apply Hm|]. intros a s' Hc. exact (calm_counted s s' Hc Hs). Qed.
Lemma tally_when b (m : P unit) : tally m → tally (when b m).
Proof. intros Hm. destruct b; [done|apply tally_ret]. Qed.
Lemma tally_for_each `{!Headers, !HeadersOk} {X} i (body : Z → Z → X → P (X * bool)) x :
  (∀ k p y, tally (body k p y)) → tally (for_each_lport i body x).
Proof. intros Hb s Hs. apply (runs_for_each (λ _, counted)); [|done]. intros l p y s' _ Hs' _. by apply Hb. Qed.

(** An update that keeps the key and what is counted *)
Lemma counted_upd s p n n' :
  g_nodes s !! p = Some n → lp_key n' = lp_key n →
  (∀ x, AUTHMGR_PORT_GET (lp_key n) ≠ 0 → g_portInfo s !! AUTHMGR_PORT_GET (lp_key n) = Some x →
    pi_portControlMode x = AUTHMGR_PORT_AUTO →
    authorized_on (AUTHMGR_PORT_GET (lp_key n)) n' = authorized_on (AUTHMGR_PORT_GET (lp_key n)) n) →
  counted s → counted (s <| g_nodes ::= <[p := n']> |>).
Proof.
  intros Hn Hk Ha [Hwf Hcount Hpool Henv]. split; simpl; [by eapply wf_upd| |by rewrite map_size_insert_Some by eauto|done].
  intros i x Hi0 Hx Hm. erewrite count_same; [by apply Hcount|done|]. destruct (decide (i = AUTHMGR_PORT_GET (lp_key n))) as [->|Hne].
  - by eapply Ha.
  - unfold authorized_on. rewrite Hk, (proj2 (Z.eqb_neq _ i)) by congruence. by rewrite !andb_false_r.
Qed.
Lemma tally_node_upd p f :
  (∀ n, lp_key (f n) = lp_key n ∧ cl_logicalPortStatus (lp_client (f n)) = cl_logicalPortStatus (lp_client n)) → tally (node_upd p f).
Proof.
  intros Hf s Hs. apply runs_node_upd. intros n Hn. destruct (Hf n) as [Hk Hst].
  eapply counted_upd; [done|done| |done]. intros x _ _ _. unfold authorized_on. by rewrite Hk, Hst.
Qed.
Lemma tally_port_upd i f :
  (∀ x, pi_authCount (f x) = pi_authCount x ∧ pi_portControlMode (f x) = pi_portControlMode x) → tally (port_upd i f).
Proof.
  intros Hf s [Hwf Hcount Hpool Henv]. apply runs_port_upd. intros x Hx. destruct (Hf x) as [H1 H2].
  split; simpl; [by apply (safe_same nokey none s)| |done|done].
  intros j y Hj0 [[<- <-]|[_ Hy]]%lookup_insert_Some Hm; [rewrite H1; apply Hcount; [done|done|congruence]|by apply Hcount].
Qed.
Lemma tally_modify f :
  (∀ s, g_tree (f s) = g_tree s) → (∀ s, g_free (f s) = g_free s) → (∀ s, g_nodes (f s) = g_nodes s) →
  (∀ s, g_portInfo (f s) = g_portInfo s) → (∀ s, g_env (f s) = g_env s) → tally (modify f).
Proof.
  intros H1 H2 H3 H4 H5 s [Hwf Hcount Hpool Henv]. apply runs_modify. split; rewrite ?H3, ?H4, ?H5; [|done..].
  by apply (safe_same nokey none s).
Qed.

Lemma tally_each_port `{!Headers} body : (∀ i, tally (body i)) → tally (each_port body).
Proof. intros Hb s Hs. apply (runs_each_port counted); [apply calm_counted|intros i; apply Hb|done]. Qed.
Lemma tally_each_interface `{!Headers} body : (∀ i, tally (body i)) → tally (each_interface body).
Proof. intros Hb s Hs. apply (runs_each_interface counted); [apply calm_counted|intros i; apply Hb|done]. Qed.
Lemma tally_mforeach {A} (l : list A) (f : A → P unit) : (∀ x, tally (f x)) → tally (mforeach l f).
Proof. intros Hf. induction l as [|x l IH]; [apply tally_ret|]. by apply tally_bind. Qed.

Create HintDb tally.
#[export] Hint Resolve tally_ret : tally.
Ltac tally_update := intros []; simpl; first [naive_solver|repeat case_match; simpl; naive_solver].
Ltac tally1 :=
  lazymatch goal with
  | |- tally (_ ≫= _) => apply tally_bind; [|intros]
  | |- tally (when _ _) => apply tally_when
  | |- tally (for_each_lport _ _ _) => apply tally_for_each; intros
  | |- tally (each_port _) => apply tally_each_port; intros
  | |- tally (each_interface _) => apply tally_each_interface; intros
  | |- tally (mforeach _ _) => apply tally_mforeach; intros
  | |- tally (from_option_or _ _) => apply tally_calm, pspec_option; [apply _|done]
  | |- tally (node_upd _ _) => apply tally_node_upd; tally_update
  | |- tally (client_upd _ _) => apply tally_node_upd; tally_update
  | |- tally (protocol_upd _ _) => apply tally_node_upd; tally_update
  | |- tally (state_set _ _) => apply tally_node_upd; tally_update
  | |- tally (port_upd _ _) => apply tally_port_upd; by intros []
  | |- tally (modify _) => by apply tally_modify
  | |- tally (fail _) => apply tally_calm, pspec_fail; done
  | |- tally (match ?x with _ => _ end) => destruct x
  end.
Ltac tally := repeat (first [solve [eauto 2 with tally] | solve [apply tally_calm; eauto 2 with pac] | tally1]).

(** ** Authorization *)

Section clients.
Context `{!Headers, !HeadersOk}.

(** The client at [p] is not authorized, at least not on a port that is controlled. *)
Definition closed (p : Z) (s : authmgrCB_t) : Prop := ∀ n x,
  g_nodes s !! p = Some n → g_portInfo s !! AUTHMGR_PORT_GET (lp_key n) = Some x →
  pi_portControlMode x = AUTHMGR_PORT_AUTO → cl_logicalPortStatus (lp_client n) ≠ AUTHMGR_PORT_STATUS_AUTHORIZED.

Lemma closed_calm p s s' : calm s s' → closed p s → closed p s'.
Proof.
  intros Hc Hcl n' x' Hn' Hx' Hm. pose proof (calm_nodes s s' Hc p) as Hq. rewrite Hn' in Hq.
  inversion Hq as [n ? Hcn Hn|]; subst. rewrite (cn_status n n' Hcn). rewrite (cn_key n n' Hcn) in Hx'.
  pose proof (calm_ports s s' Hc (AUTHMGR_PORT_GET (lp_key n))) as Hi. rewrite Hx' in Hi.
  inversion Hi as [x ? Hp Hx|]; subst. apply (Hcl n x); [done|done|].
  pose proof (f_equal pi_portControlMode Hp : pi_portControlMode x' = _) as E1. simpl in E1. congruence.
Qed.

(** A change of one client and of the count of its port *)
Lemma counted_move s p n n' x x' :
  g_nodes s !! p = Some n → lp_key n' = lp_key n → g_portInfo s !! AUTHMGR_PORT_GET (lp_key n) = Some x →
  pi_portControlMode x' = pi_portControlMode x →
  (AUTHMGR_PORT_GET (lp_key n) ≠ 0 → pi_authCount x = Z.of_nat (authorized_count (g_nodes s) (AUTHMGR_PORT_GET (lp_key n))) →
   pi_authCount x' = Z.of_nat (authorized_count (<[p := n']> (g_nodes s)) (AUTHMGR_PORT_GET (lp_key n)))) →
  counted s → counted (s <| g_nodes ::= <[p := n']> |> <| g_portInfo ::= <[AUTHMGR_PORT_GET (lp_key n) := x']> |>).
Proof.
  intros Hn Hk Hx Hm Hc [Hwf Hcount Hpool Henv].
  split; simpl; [|intros i y Hi0|by rewrite map_size_insert_Some by eauto|done].
  - eapply (safe_same nokey none (s <| g_nodes ::= <[p := n']> |>)); [done..|]. by eapply wf_upd.
  - intros [[<- <-]|[Hne Hy]]%lookup_insert_Some Hauto.
    + apply Hc; [done|]. apply Hcount; congruence.
    + erewrite count_same; [by apply Hcount|done|]. unfold authorized_on. rewrite Hk.
      rewrite (proj2 (Z.eqb_neq _ i)) by done. by rewrite !andb_false_r.
Qed.

Definition with_status (st : AUTHMGR_PORT_STATUS_t) (n : authmgrLogicalPortInfo_t) : authmgrLogicalPortInfo_t :=
  n <| lp_client ::= set cl_logicalPortStatus (λ _, st) |>.

Lemma on_own n : authorized_on (AUTHMGR_PORT_GET (lp_key n)) n = (cl_logicalPortStatus (lp_client n) ==? AUTHMGR_PORT_STATUS_AUTHORIZED).
Proof. unfold authorized_on. by rewrite Z.eqb_refl, andb_true_r. Qed.

(** Calm steps keep both. *)
Lemma calm_both {A} p (m : P A) s :
  pspec partial calm m → counted s → closed p s → runs partial (λ _ s', counted s' ∧ closed p s') m s.
Proof.
  intros Hm Hs Hcl. eapply runs_mono; [apply Hm|]. intros a s' Hc. split; [exact (calm_counted s s' Hc Hs)|exact (closed_calm p s s' Hc Hcl)].
Qed.

Lemma closed_now p n s : g_nodes s !! p = Some (with_status AUTHMGR_PORT_STATUS_UNAUTHORIZED n) → closed p s.
Proof. intros Hn m z Hm _ _. rewrite Hn in Hm. by injection Hm as <-. Qed.

(** The count after a client lost its authorization *)
Lemma runs_count_down p n x s :
  counted s → g_nodes s !! p = Some n → g_portInfo s !! AUTHMGR_PORT_GET (lp_key n) = Some x →
  runs partial (λ _ s', counted s' ∧ closed p s')
    (status_count p (AUTHMGR_PORT_GET (lp_key n)) AUTHMGR_PORT_STATUS_UNAUTHORIZED (cl_logicalPortStatus (lp_client n)))
    (s <| g_nodes ::= <[p := with_status AUTHMGR_PORT_STATUS_UNAUTHORIZED n]> |>).
Proof.
  intros Hs Hn Hx. set (n' := with_status AUTHMGR_PORT_STATUS_UNAUTHORIZED n). set (i := AUTHMGR_PORT_GET (lp_key n)) in *.
  set (s1 := s <| g_nodes ::= <[p := n']> |>).
  assert (g_nodes s1 !! p = Some n') as Hn1 by (subst s1; simpl; by rewrite lookup_insert, decide_True).
  assert (authorized_on i n' = false) as Hn'.
  { change i with (AUTHMGR_PORT_GET (lp_key n')). by rewrite on_own. }
  pose proof (on_own n) as Hown. fold i in Hown.
  pose proof (count_upd (g_nodes s) p n n' i Hn) as Hcnt. rewrite Hn', Hown in Hcnt.
  unfold status_count. apply runs_bind, runs_port. intros x' Hx'. simpl in Hx'. rewrite Hx in Hx'. injection Hx' as <-.
  assert (cl_logicalPortStatus (lp_client n) ≠ AUTHMGR_PORT_STATUS_AUTHORIZED ∨ pi_authCount x ≤ 0 → counted s1) as Hsame.
  { intros Hcase. eapply counted_upd; [done|done| |done]. intros y Hi0 Hy Hauto. fold i in Hy. rewrite Hx in Hy. injection Hy as <-.
    fold i. rewrite Hn', Hown. symmetry. apply bool_decide_eq_false. intros Hst. rewrite Hst in Hcnt.
    simpl in Hcnt. pose proof (co_count s Hs i x Hi0 Hx Hauto). destruct Hcase; [done|lia]. }
  destruct (Z.gtb_spec (pi_authCount x) 0) as [Hpos|Hle]; simpl.
  2: { apply runs_ret. split; [auto|by eapply closed_now]. }
  apply runs_bind. eapply runs_mono with (Q := λ _ s', counted s' ∧ closed p s').
  - case_bool_decide as Hst; simpl; [|apply runs_ret; split; [auto|by eapply closed_now]].
    apply runs_port_upd. intros y Hy. simpl in Hy. rewrite Hx in Hy. injection Hy as <-. split.
    + eapply counted_move; [done|done|done|done| |done]. intros Hi0 Hc. simpl. fold i. fold i in Hc. simpl in Hcnt. lia.
    + eapply (closed_now p n). simpl. by rewrite lookup_insert, decide_True.
  - intros [] s2 [Hs2 Hcl]. apply calm_both; [pac|done|done].
Qed.

Lemma runs_unauthorize p s :
  p ≠ NULLPTR → counted s →
  runs partial (λ _ s', counted s' ∧ closed p s') (authmgrClientStatusSet p AUTHMGR_PORT_STATUS_UNAUTHORIZED) s.
Proof.
  intros Hp Hs. unfold authmgrClientStatusSet. rewrite (proj2 (Z.eqb_neq _ _)) by done.
  apply runs_bind, runs_node. intros n Hn. simpl. case_bool_decide as Hst.
  { apply calm_both; [pac|done|]. intros n' x Hn'. congruence. }
  apply runs_bind, runs_port. intros x Hx. destruct (pi_portControlMode x) eqn:Hmode.
  3: { apply runs_ret. split; [done|]. intros n' x' Hn'. simplify_eq. congruence. }
  all: apply runs_bind, runs_node_upd; intros n' Hn'; simplify_eq; apply runs_bind;
    (eapply runs_mono; [by eapply runs_count_down|]); intros [] s2 [Hs2 Hcl]; apply calm_both; [pac|done|done].
Qed.

(** The count after a client got its authorization *)
Lemma runs_count_up p n x s :
  counted s → g_nodes s !! p = Some n → g_portInfo s !! AUTHMGR_PORT_GET (lp_key n) = Some x →
  cl_logicalPortStatus (lp_client n) ≠ AUTHMGR_PORT_STATUS_AUTHORIZED →
  runs partial (λ _, counted)
    (status_count p (AUTHMGR_PORT_GET (lp_key n)) AUTHMGR_PORT_STATUS_AUTHORIZED (cl_logicalPortStatus (lp_client n)))
    (s <| g_nodes ::= <[p := with_status AUTHMGR_PORT_STATUS_AUTHORIZED n]> |>).
Proof.
  intros Hs Hn Hx Hst. unfold status_count. apply runs_bind, runs_port_upd. intros y Hy. simpl in Hy. rewrite Hx in Hy.
  injection Hy as <-.
  match goal with |- runs _ _ ?m _ => enough (tally m) as Hm end.
  - apply Hm. eapply counted_move; [done|done|done|done| |done]. intros Hi0 Hc. simpl.
    pose proof (count_upd (g_nodes s) p n (with_status AUTHMGR_PORT_STATUS_AUTHORIZED n) (AUTHMGR_PORT_GET (lp_key n)) Hn) as Hcnt.
    rewrite on_own, (bool_decide_eq_false_2 _ Hst) in Hcnt.
    assert (authorized_on (AUTHMGR_PORT_GET (lp_key n)) (with_status AUTHMGR_PORT_STATUS_AUTHORIZED n) = true) as Ha.
    { change (AUTHMGR_PORT_GET (lp_key n)) with (AUTHMGR_PORT_GET (lp_key (with_status AUTHMGR_PORT_STATUS_AUTHORIZED n))). by rewrite on_own. }
    rewrite Ha in Hcnt. simpl in Hcnt.
    pose proof (count_le (<[p := with_status AUTHMGR_PORT_STATUS_AUTHORIZED n]> (g_nodes s)) (AUTHMGR_PORT_GET (lp_key n))) as Hle.
    rewrite map_size_insert_Some in Hle by eauto. pose proof (co_pool s Hs). unfold u32. rewrite Z.mod_small; lia.
  - apply tally_calm. pac.
Qed.

Lemma tally_status p st : tally (authmgrClientStatusSet p st).
Proof.
  intros s Hs. destruct (decide (p = NULLPTR)) as [->|Hp]; [by apply runs_ret|].
  destruct st; unfold authmgrClientStatusSet; rewrite (proj2 (Z.eqb_neq _ _)) by done.
  - apply runs_bind, runs_node. intros n _. by apply runs_ret.
  - apply runs_bind, runs_node. intros n Hn. simpl. case_bool_decide as Hst.
    { match goal with |- runs _ _ ?m _ => enough (tally m) as Hm by (by apply Hm) end. tally. }
    apply runs_bind, runs_port. intros x Hx. destruct (pi_portControlMode x); [|by apply runs_ret|..].
    all: apply runs_bind, runs_node_upd; intros n' Hn'; simplify_eq; apply runs_bind;
      (eapply runs_mono; [by eapply runs_count_up|]); intros [] s2 Hs2;
      match goal with |- runs _ _ ?m _ => enough (tally m) as Hm by (by apply Hm) end; tally.
  - eapply runs_mono; [pose proof (runs_unauthorize p s Hp Hs) as Hr; unfold authmgrClientStatusSet in Hr;
      rewrite (proj2 (Z.eqb_neq _ _)) in Hr by done; exact Hr|]. by intros rc s' [? _].
Qed.
End clients.

(** ** The removal of a client *)

Section removal.
Context `{!Headers, !HeadersOk}.

(** [m] keeps the count while the client at [p] is not authorized; [both]: and it is not
    authorized afterwards. *)
Definition tally_closed {A} (p : Z) (m : P A) : Prop := ∀ s, counted s → closed p s → runs partial (λ _, counted) m s.
Definition both {A} (p : Z) (m : P A) : Prop := ∀ s, counted s → closed p s → runs partial (λ _ s', counted s' ∧ closed p s') m s.

Lemma closed_bind {A B} p (m : P A) (k : A → P B) : both p m → (∀ a, tally_closed p (k a)) → tally_closed p (m ≫= k).
Proof.
  intros Hm Hk s Hs Hcl. apply runs_bind. eapply runs_mono; [by apply Hm|]. intros a s' [Hs' Hcl']. by apply Hk.
Qed.
Lemma both_bind {A B} p (m : P A) (k : A → P B) : both p m → (∀ a, both p (k a)) → both p (m ≫= k).
Proof.
  intros Hm Hk s Hs Hcl. apply runs_bind. eapply runs_mono; [by apply Hm|]. intros a s' [Hs' Hcl']. by apply Hk.
Qed.
Lemma both_calm {A} p (m : P A) : pspec partial calm m → both p m.
Proof. intros Hm s Hs Hcl. by apply calm_both. Qed.
Lemma both_modify p f :
  (∀ s, g_nodes (f s) = g_nodes s) → (∀ s, g_portInfo (f s) = g_portInfo s) → tally (modify f) → both p (modify f).
Proof.
  intros H1 H2 Ht s Hs Hcl. apply runs_modify. split; [by apply (Ht s)|]. intros n x. rewrite H1, H2. apply Hcl.
Qed.
Lemma both_port_upd p i f :
  (∀ x, pi_authCount (f x) = pi_authCount x ∧ pi_portControlMode (f x) = pi_portControlMode x) → both p (port_upd i f).
Proof.
  intros Hf s Hs Hcl. pose proof (tally_port_upd i f Hf s Hs) as Ht. revert Ht. unfold runs, port_upd, port, mbind, M_bind. simpl.
  destruct (g_portInfo s !! i) as [x|] eqn:Hx; simpl; [|done]. intros Ht. split; [done|]. intros n y Hn Hy Hm. simpl in Hn, Hy.
  apply lookup_insert_Some in Hy as [[Hi <-]|[_ Hy]]; [|by eapply Hcl]. apply (Hcl n x); [done|congruence|].
  by rewrite <- (proj2 (Hf x)).
Qed.
Lemma both_mac_remove p mac : both p (authmgrMacAddrInfoRemove mac).
Proof.
  unfold authmgrMacAddrInfoRemove. intros s Hs Hcl. case_bool_decide; [by apply runs_ret|]. apply runs_bind, runs_gets.
  destruct (_ !! _); [|by apply runs_ret]. apply runs_bind.
  eapply runs_mono; [apply (both_modify p); [done|done|by apply tally_modify|done|done]|]. intros [] s' ?. by apply runs_ret.
Qed.
Lemma both_user_leaves p i : both p (user_leaves i).
Proof.
  unfold user_leaves. apply both_bind; [apply both_calm; pac|intros x].
  apply both_bind; [destruct (_ >? _); [by apply both_port_upd|apply both_calm; pac]|intros _]. apply both_calm. pac.
Qed.

Lemma delete_count (m : gmap Z authmgrLogicalPortInfo_t) p n i :
  m !! p = Some n → authorized_on i n = false → authorized_count (<[p := lport_zero]> m) i = authorized_count m i.
Proof. intros Hn Ha. eapply count_same; [done|]. by rewrite Ha. Qed.

Lemma closed_dealloc p : tally_closed p (authmgrLogicalPortInfoDeAlloc p).
Proof.
  intros s Hs Hcl. unfold authmgrLogicalPortInfoDeAlloc. destruct (p =? NULLPTR); [by apply runs_ret|].
  apply runs_bind, runs_node. intros n Hn. apply runs_bind.
  destruct (Z.eqb_spec (AUTHMGR_TYPE_GET (lp_key n)) AUTHMGR_LOGICAL) as [Hty|]; [|by apply runs_ret].
  pose proof (safe_delete (F:=partial) nokey none (lp_key n) s) as Hd. destruct Hs as [Hwf Hcount Hpool Henv].
  pose proof (wf_linked s Hwf p n Hn (logical_not_zero _ Hty)) as Hlp. revert Hd.
  unfold runs, avlDeleteEntry, mbind, M_bind. simpl. rewrite Hlp. simpl. intros Hd. split; simpl; [by apply Hd| |by rewrite map_size_insert_Some by eauto|done].
  intros i x Hi0 Hx Hauto. rewrite (delete_count _ _ n); [by apply Hcount|done|]. unfold authorized_on.
  destruct (Z.eqb_spec (AUTHMGR_PORT_GET (lp_key n)) i) as [<-|]; [|by rewrite andb_false_r].
  rewrite bool_decide_eq_false_2; [done|]. by eapply Hcl.
Qed.

Lemma tally_sw_cleanup p : tally (authmgrClientSwInfoCleanup p).
Proof.
  unfold authmgrClientSwInfoCleanup. destruct (Z.eqb_spec p NULLPTR) as [|Hp]; [tally|].
  do 2 (apply tally_bind; [tally|intros ?]). destruct a0; [|tally]. do 5 (apply tally_bind; [tally|intros ?]).
  intros s Hs. apply runs_bind. eapply runs_mono; [by apply runs_unauthorize|]. intros rc1 s1 [Hs1 Hcl].
  enough (tally_closed p (eap_goodbye p;; n ← node p; let mac := cl_suppMacAddr (lp_client n) in
        rc2 ← (if is_zero_mac mac then mret SUCCESS else authmgrMacAddrInfoRemove mac);
        user_leaves (AUTHMGR_PORT_GET (lp_key a));;
        rc3 ← authmgrLogicalPortInfoDeAlloc p;
        mret (if is_SUCCESS a5 && is_SUCCESS rc1 && is_SUCCESS rc2 && is_SUCCESS rc3 then SUCCESS else FAILURE))) as Ht by (by apply Ht).
  apply closed_bind; [apply both_calm; pac|intros _]. apply closed_bind; [apply both_calm; pac|intros n].
  apply closed_bind; [destruct (is_zero_mac _); [apply both_calm; pac|apply both_mac_remove]|intros rc2].
  apply closed_bind; [apply both_user_leaves|intros _]. intros s2 Hs2 Hcl2. apply runs_bind.
  eapply runs_mono; [by apply closed_dealloc|]. intros rc3 s3 Hs3. by apply runs_ret.
Qed.

(** *** An authorized client loses its authorization and stays *)

(** The interface is configurable, whatever the trace. *)
Definition configurable (i : Z) (s : authmgrCB_t) : Prop :=
  g_ready s = true ∧ (i <=? 0) || (i >=? AUTHMGR_INTF_MAX_COUNT) = false ∧
  is_SUCCESS (r_rc (g_env s [] (nimConfigIdGet i))) = true ∧
  ∃ c, g_portCfg s !! i = Some c ∧ r_num (g_env s [] (nimConfigIdGet i)) =? pc_configId c = true.

Lemma configurable_calm i s s' : calm s s' → configurable i s → configurable i s'.
Proof. intros Hc. unfold configurable. by rewrite (calm_ready s s' Hc), (calm_cfg s s' Hc), (calm_env s s' Hc). Qed.

Lemma runs_configurable_intro i s :
  counted s → runs partial (λ r s', calm s s' ∧ (r ≠ None → configurable i s')) (authmgrIntfIsConfigurable i) s.
Proof.
  intros Hs. unfold authmgrIntfIsConfigurable. apply runs_bind, runs_gets. destruct (g_ready s) eqn:Hr; simpl; [|by apply runs_ret].
  destruct (_ || _) eqn:Hi; [by apply runs_ret|]. unfold call. apply runs_bind. unfold runs at 1. simpl.
  set (s1 := s <| g_trace ::= _ |>). assert (calm s s1) as Hc by (by apply calm_same). rewrite (co_env s Hs).
  destruct (is_SUCCESS _) eqn:Hok; [|by apply runs_ret]. apply runs_bind, runs_gets, runs_bind, runs_option; [done|].
  intros c Hcfg. apply runs_ret. split; [done|]. destruct (_ =? _) eqn:Hid; [|done]. intros _. by split_and!; [..|exists c].
Qed.

Lemma runs_configurable_some i s :
  counted s → configurable i s → runs partial (λ r s', calm s s' ∧ r ≠ None) (authmgrIntfIsConfigurable i) s.
Proof.
  intros Hs (Hr & Hi & Hok & c & Hc & Hid). unfold authmgrIntfIsConfigurable. apply runs_bind, runs_gets. rewrite Hr, Hi. simpl.
  unfold call. apply runs_bind. unfold runs at 1. simpl. rewrite (co_env s Hs), Hok. apply runs_bind, runs_gets, runs_bind, runs_option; [done|].
  simpl. intros c' Hc'. rewrite Hc in Hc'. injection Hc' as <-. apply runs_ret. rewrite Hid. split; [by apply calm_same|done].
Qed.

(** An update of the client at [p] to one that is not authorized *)
Lemma both_clear p f :
  (∀ n, lp_key (f n) = lp_key n ∧ cl_logicalPortStatus (lp_client (f n)) ≠ AUTHMGR_PORT_STATUS_AUTHORIZED) → both p (node_upd p f).
Proof.
  intros Hf s Hs Hcl. apply runs_node_upd. intros n Hn. destruct (Hf n) as [Hk Hst]. split.
  - eapply counted_upd; [done|done| |done]. intros x _ Hx Hauto. unfold authorized_on. rewrite Hk.
    rewrite (bool_decide_eq_false_2 _ Hst), bool_decide_eq_false_2; [done|]. by eapply Hcl.
  - intros m x Hm _ _. simpl in Hm. rewrite lookup_insert, decide_True in Hm by done. by injection Hm as <-.
Qed.

Lemma runs_auth_sw p s :
  p ≠ NULLPTR → counted s → (∀ n, g_nodes s !! p = Some n → configurable (AUTHMGR_PORT_GET (lp_key n)) s) →
  runs partial (λ _ s', counted s' ∧ closed p s') (authmgrAuthenticatedClientSwInfoCleanup p) s.
Proof.
  intros Hp Hs Hconf. unfold authmgrAuthenticatedClientSwInfoCleanup. rewrite (proj2 (Z.eqb_neq _ _)) by done.
  apply runs_bind, runs_node. intros n Hn. specialize (Hconf n Hn). apply runs_bind.
  eapply runs_mono; [by apply runs_configurable_some|]. intros [c|] s1 [Hc1 Hne]; [|done].
  pose proof (calm_counted s s1 Hc1 Hs) as Hs1.
  assert (∀ m : P RC_t, (∀ s, counted s → runs partial (λ _ s', counted s' ∧ closed p s') m s) →
    runs partial (λ _ s', counted s' ∧ closed p s') m s1) as Hgo by auto.
  apply runs_bind. eapply runs_mono; [assert (∀ m : P unit, tally m → runs partial (λ _, counted) m s1) as Ht by auto; apply Ht; tally|].
  intros [] s2 Hs2. apply runs_bind, runs_node. intros n2 _. apply runs_bind.
  eapply runs_mono; [assert (∀ m : P unit, tally m → runs partial (λ _, counted) m s2) as Ht by auto; apply Ht; tally|].
  intros [] s3 Hs3. apply runs_bind. eapply runs_mono; [by apply runs_unauthorize|]. intros rc s4 [Hs4 Hcl].
  enough (both p (eap_goodbye p;; node_upd p (λ n, n <| lp_protocol := protocol_zero |>
          <| lp_client := client_zero <| cl_suppMacAddr := cl_suppMacAddr (lp_client n) |> |>);; mret SUCCESS)) as Hb by (by apply Hb).
  apply both_bind; [apply both_calm; pac|intros _]. apply both_bind; [by apply both_clear|intros _]. apply both_calm. pac.
Qed.

Lemma tally_auth_cleanup p : tally (authmgrAuthenticatedClientCleanupAction p).
Proof.
  intros s Hs. unfold authmgrAuthenticatedClientCleanupAction, authmgrAuthenticatedClientCleanup.
  destruct (Z.eqb_spec p NULLPTR) as [|Hp]; [by apply runs_ret|]. apply runs_bind, runs_node. intros n Hn. apply runs_bind.
  eapply runs_mono; [apply calm_call_|]. intros [] s1 Hc1. pose proof (calm_counted s s1 Hc1 Hs) as Hs1.
  apply runs_bind. eapply runs_mono; [by apply runs_configurable_intro|]. intros [c|] s2 [Hc2 Hconf].
  2: { apply runs_ret. exact (calm_counted s1 s2 Hc2 Hs1). }
  specialize (Hconf ltac:(done)). assert (calm s s2) as Hc02 by exact (transitivity Hc1 Hc2).
  destruct (negb _); [apply runs_ret; exact (calm_counted s s2 Hc02 Hs)|].
  apply runs_bind. eapply runs_mono.
  { assert (∀ m : P unit, pspec partial calm m → runs partial (λ _, calm s2) m s2) as Ht by auto. apply Ht. pac. }
  intros [] s3 Hc3. apply runs_bind. eapply runs_mono; [apply calm_hw_cleanup|]. intros rc s4 Hc4.
  assert (calm s2 s4) as Hc24 by exact (transitivity Hc3 Hc4). assert (calm s s4) as Hc04 by exact (transitivity Hc02 Hc24).
  apply runs_bind. eapply runs_mono.
  { apply runs_auth_sw; [done|exact (calm_counted s s4 Hc04 Hs)|]. intros n4 Hn4.
    rewrite (cn_key n n4 (calm_at s s4 p n n4 Hc04 Hn Hn4)). exact (configurable_calm _ s2 s4 Hc24 Hconf). }
  intros rc' s5 [Hs5 Hcl]. apply runs_bind. eapply runs_mono; [by apply both_clear|]. intros [] s6 [Hs6 _]. by apply runs_ret.
Qed.
End removal.
#[export] Hint Resolve tally_status tally_sw_cleanup tally_auth_cleanup : tally.

(** ** The machine and the handlers *)

Section handlers.
Context `{!Headers, !HeadersOk}.

Lemma tally_info_cleanup p : tally (authmgrClientInfoCleanup p).
Proof. unfold authmgrClientInfoCleanup. tally. Qed.
#[local] Hint Resolve tally_info_cleanup : tally.
Lemma tally_disconnect p : tally (authmgrClientDisconnectAction p).
Proof. unfold authmgrClientDisconnectAction. tally. Qed.
#[local] Hint Resolve tally_disconnect : tally.
#[local] Hint Resolve calm_method_next calm_trigger calm_precedence : pac.

Lemma tally_generate fuel l : tally (generate fuel l).
Proof.
  revert l. induction fuel as [|f IH]; intros l; [by intros s|]. simpl.
  unfold generate_events, in_state, events_unauthenticated, held_expired, events_authenticating, events_held, events_authenticated,
    advance_method, classify, authmgrStateMachineClassifier, authmgrStateMachine, authmgrInitializeAction, authmgrAuthenticatingAction,
    authmgrAuthenticatedAction, authmgrHeldAction, authmgrUnauthenticatedAction, authmgrTxCannedFail, authmgrTxCannedSuccess, no_result.
  tally.
Qed.
Lemma tally_gen l : tally (authmgrGenerateEvents l).
Proof. apply tally_generate. Qed.
#[local] Hint Resolve tally_gen : tally.
Lemma tally_event ev l : tally (authmgrStateMachineEvent ev l).
Proof.
  unfold authmgrStateMachineEvent, authmgrStateMachineClassifier, authmgrStateMachine, authmgrInitializeAction,
    authmgrAuthenticatingAction, authmgrAuthenticatedAction, authmgrHeldAction, authmgrUnauthenticatedAction,
    authmgrTxCannedFail, authmgrTxCannedSuccess, no_result. tally.
Qed.
#[local] Hint Resolve tally_event : tally.

(** *** A new client *)

Lemma counted_insert k s :
  AUTHMGR_TYPE_GET k = AUTHMGR_LOGICAL → default NULLPTR (g_tree s !! k) = NULLPTR → counted s →
  runs partial (λ _, counted) (avlInsertEntry (lport_zero <| lp_key := k |>)) s.
Proof.
  intros Hty Hnone Hs. pose proof (safe_insert (F:=partial) allkeys none (lport_zero <| lp_key := k |>) s Hty
    (lport_zero_cold k) I Hnone) as Hi. destruct Hs as [Hwf Hcount Hpool Henv]. pose proof (wf_free s Hwf) as Hfree. revert Hi.
  unfold avlInsertEntry, runs, mbind, M_bind. simpl. destruct (g_free s) as [|p fr]; simpl; intros Hi; [by split|].
  destruct (Hfree p (list_elem_of_here _ _)) as (_ & n & Hn & Hkey).
  split; simpl; [by apply Hi| |by rewrite map_size_insert_Some by eauto|done].
  intros i x Hi0 Hx Hauto. erewrite count_same; [by apply Hcount|done|]. unfold authorized_on. rewrite Hkey.
  rewrite (proj2 (Z.eqb_neq (AUTHMGR_PORT_GET 0) i)) by done. by rewrite andb_false_r.
Qed.

Lemma tally_alloc i : tally (authmgrLogicalPortInfoAlloc i).
Proof.
  assert (∀ fuel l, tally (alloc_loop fuel i l)) as Hloop.
  { induction fuel as [|f IH]; intros l; simpl; [tally|]. intros s Hs. apply runs_bind.
    unfold authmgrLogicalPortInfoGet. rewrite key_type by done. simpl. apply runs_bind, runs_gets, runs_ret.
    destruct (Z.eqb_spec (default NULLPTR (g_tree s !! AUTHMGR_LPORT_KEY_PACK i l AUTHMGR_LOGICAL 0)) NULLPTR) as [Hnone|];
      [|by apply IH].
    apply runs_bind. eapply runs_mono; [by apply counted_insert; [apply key_type|..]|]. intros b s' Hs'.
    match goal with |- runs _ _ ?m _ => enough (tally m) as Hm by (by apply Hm) end. tally. }
  unfold authmgrLogicalPortInfoAlloc, authmgrDynamicLogicalPortInfoAlloc. simpl. tally.
Qed.

(** [authmgrLogicalPortInfoInit] keeps the count if the client is not authorized. *)
Lemma closed_init p l s :
  g_tree s !! l = Some p → counted s → closed p s → runs partial (λ _, counted) (authmgrLogicalPortInfoInit l) s.
Proof.
  intros Hlp Hs Hcl. unfold authmgrLogicalPortInfoInit. apply runs_get; [done|]. intros p' Hp'. simplify_eq.
  apply runs_bind, runs_node. intros n Hn.
  enough (tally_closed p (
    when (cl_logicalPortStatus (lp_client n) ==? AUTHMGR_PORT_STATUS_AUTHORIZED)
      (_ ← authmgrClientHwInfoCleanup p; mret tt);;
    node_upd p (λ n, n <| lp_protocol := protocol_zero |> <| lp_client := client_zero |>);;
    r ← call (nimGetIntfName (AUTHMGR_PORT_GET (lp_key n)));
    vlanId ← (if is_SUCCESS (r_rc r) then r' ← call (pacCfgPortPVIDGet (r_bytes r)); mret (u32 (r_num r'))
              else mret 0);
    client_upd p (λ c, c <| cl_vlanId := vlanId |> <| cl_vlanType := AUTHMGR_VLAN_DEFAULT |>
      <| cl_rcvdEapolVersion := DOT1X_PAE_PORT_PROTOCOL_VERSION_2 |>);;
    _ ← authmgrStateMachineEvent authmgrInitialize (lp_key n);
    mret SUCCESS)) as Ht by (by apply Ht).
  apply closed_bind; [apply both_calm; pac|intros _]. apply closed_bind; [by apply both_clear|intros _].
  intros s' Hs' _. match goal with |- runs _ _ ?m _ => enough (tally m) as Hm by (by apply Hm) end. tally.
Qed.

Lemma tally_add_mac l : tally (authmgrAddMac l).
Proof. unfold authmgrAddMac, authmgrMacAddrInfoAdd. tally. Qed.
#[local] Hint Resolve tally_add_mac : tally.

(** The address of a node whose key is [0] or is not authorized may be dropped. *)
Lemma tally_register i p mac s :
  counted s → cold s p → runs partial (λ _, counted) (client_register i p mac) s.
Proof.
  intros Hs Hcold. unfold client_register. apply runs_bind, runs_node. intros n Hn.
  enough (tally_closed p (client_upd p (set cl_suppMacAddr (λ _, mac));;
    rc ← authmgrAddMac (lp_key n);
    if is_SUCCESS rc then port_upd i (set pi_numUsers (λ x, u32 (x + 1)));; mret (Some (lp_key n))
    else _ ← authmgrLogicalPortInfoDeAlloc p; mret None)) as Ht.
  { apply Ht; [done|]. intros n' x Hn' _ _ Hst. apply (Hcold n' Hn'). by left. }
  apply closed_bind.
  - intros s1 Hs1 Hcl. apply runs_node_upd. intros n1 Hn1. split.
    + eapply counted_upd; done.
    + intros m x Hm Hx Hauto. simpl in Hm. rewrite lookup_insert, decide_True in Hm by done. injection Hm as <-. by eapply (Hcl n1).
  - intros _. apply closed_bind.
    + unfold authmgrAddMac, authmgrMacAddrInfoAdd. apply both_bind; [apply both_calm; pac|intros q]. destruct (q =? NULLPTR); [apply both_calm; pac|].
      apply both_bind; [apply both_calm; pac|intros m]. destruct (_ || _); [apply both_calm; pac|].
      apply both_bind; [apply both_calm; pac|intros db].
      assert (∀ f, both p (modify (set g_macDb f);; mret SUCCESS)) as Hmod.
      { intros f. apply both_bind; [by apply both_modify; [..|apply tally_modify]|intros _]. apply both_calm. pac. }
      destruct (db !! _); [apply Hmod|]. apply both_bind; [apply both_calm; pac|intros r]. destruct (is_SUCCESS _); [apply Hmod|].
      apply both_calm. pac.
    + intros rc. destruct (is_SUCCESS rc).
      * intros s2 Hs2 _. match goal with |- runs _ _ ?m _ => enough (tally m) as Hm by (by apply Hm) end. tally.
      * intros s2 Hs2 Hcl2. apply runs_bind. eapply runs_mono; [by apply closed_dealloc|]. intros r s3 Hs3. by apply runs_ret.
Qed.

Lemma tally_client_new i mac : tally (client_new i mac).
Proof.
  intros s Hs. unfold client_new. apply runs_bind, runs_port. intros x _. destruct (_ >=? _); [by apply runs_ret|]. apply runs_bind.
  pose proof (tally_alloc i s Hs) as Ha. pose proof (runs_alloc (F:=partial) allkeys none i s (λ _, I)) as Hb.
  eapply runs_mono with (Q := λ p s1, counted s1 ∧ (p ≠ NULLPTR → cold s1 p ∧ ∃ n, g_nodes s1 !! p = Some n ∧ g_tree s1 !! lp_key n = Some p)).
  { unfold runs in *. destruct (authmgrLogicalPortInfoAlloc i s) as [p s1|]; [|done]. split; [done|]. intros Hp.
    destruct (proj2 Hb Hp) as (Hcold & n & Hn & Ht & _). split; [done|]. by exists n. }
  intros p s1 [Hs1 Hp]. destruct (Z.eqb_spec p NULLPTR) as [|Hnp]; [by apply runs_ret|].
  destruct (Hp Hnp) as (Hcold & n & Hn & Ht). apply runs_bind, runs_node. intros n' Hn'. simplify_eq. apply runs_bind.
  eapply runs_mono with (Q := λ _ s2, counted s2 ∧ cold s2 p).
  { pose proof (closed_init p (lp_key n) s1 Ht Hs1) as Hi. pose proof (safe_init (lp_key n) s1) as Hsafe. unfold runs in *.
    destruct (authmgrLogicalPortInfoInit (lp_key n) s1) as [rc s2|]; [|done]. split.
    - apply Hi. intros m y Hm _ _ Hst. apply (Hcold m Hm). by left.
    - intros m Hm Hh. destruct (Hsafe (co_wf s1 Hs1)) as (_ & Hhot & _).
      destruct (Hhot p m Hm Hh) as [[]|(m' & Hm' & Hh' & _)]. by apply (Hcold m' Hm'). }
  intros rc s2 [Hs2 Hcold2]. by apply tally_register.
Qed.
#[local] Hint Resolve tally_client_new : tally.

(** *** Results and changes *)

Lemma tally_timeout l : tally (authmgrCtlLogicalPortClientTimeout l).
Proof. unfold authmgrCtlLogicalPortClientTimeout. tally. Qed.
Lemma tally_cleanup l : tally (authmgrCtlClientCleanup l).
Proof. unfold authmgrCtlClientCleanup. tally. Qed.
#[local] Hint Resolve tally_timeout tally_cleanup : tally.
Lemma tally_map_pdu i mac : tally (authmgrCheckMapPdu i mac).
Proof.
  unfold authmgrCheckMapPdu, authmgrDynamicUserPduMapCheck, client_of_mac, mac_move, authmgrMacAddrInfoFind. tally.
Qed.
#[local] Hint Resolve tally_map_pdu : tally.
Lemma tally_unauth_addr i mac v : tally (authmgrCtlPortUnauthAddrCallbackProcess i mac v).
Proof. unfold authmgrCtlPortUnauthAddrCallbackProcess, client_block, client_admit. tally. Qed.
Lemma tally_new_client l cp : tally (authmgrNewClientAction l cp).
Proof. unfold authmgrNewClientAction, new_client_authorized. tally. Qed.
Lemma tally_comm_fail l cp : tally (authmgrStatusServerCommFailAction l cp).
Proof. unfold authmgrStatusServerCommFailAction, take_user. tally. Qed.
Lemma tally_not_success l cp : tally (authmgrStatusNotSuccessAction l cp).
Proof. unfold authmgrStatusNotSuccessAction, take_user. tally. Qed.
Lemma tally_status_disconnect l cp : tally (authmgrStatusDisconnectAction l cp).
Proof. unfold authmgrStatusDisconnectAction. tally. Qed.
Lemma tally_success l cp : tally (authmgrStatusSuccessAction l cp).
Proof.
  unfold authmgrStatusSuccessAction, authmgrRadiusAcceptPostProcess, authmgrVlanAttrValidate, success_refused,
    server_class_copy, first_bytes, take_user, result_fail, success_client. tally.
Qed.
Lemma tally_by_method i m : tally (authmgrClientsByMethodDelete i m).
Proof. unfold authmgrClientsByMethodDelete. tally. Qed.
#[local] Hint Resolve tally_unauth_addr tally_new_client tally_comm_fail tally_not_success tally_status_disconnect
  tally_success tally_by_method : tally.
Lemma tally_list_change n j i old m : tally (list_change n j i old m).
Proof. revert j. induction n; intros j; simpl; tally. Qed.
#[local] Hint Resolve tally_list_change : tally.
#[local] Hint Resolve calm_list_populate calm_known calm_ignored : pac.
Lemma tally_modify_methods i : tally (authmgrMethodModifyAction i).
Proof.
  unfold authmgrMethodModifyAction, authmgrMethodOrderChangeProcess, authmgrPortEnabledListPopulate, enabled_lists_apply,
    authmgrEnableListChangeAction. tally.
Qed.
#[local] Hint Resolve tally_modify_methods : tally.
Lemma tally_auth_modify i cp : tally (authmgrStatusAuthModifyAction i cp).
Proof. unfold authmgrStatusAuthModifyAction. tally. Qed.
#[local] Hint Resolve tally_auth_modify : tally.
Lemma tally_callback i cp : tally (authmgrClientCallbackEventProcess i cp).
Proof.
  unfold authmgrClientCallbackEventProcess, client_callback, client_event, client_disconnected, authmgrMacAddrInfoFind.
  destruct (rp_status cp); simpl; tally.
Qed.
Lemma tally_timer ty k : tally (authmgrTimerExpiryAction ty k).
Proof.
  unfold authmgrTimerExpiryAction, authmgrQwhileExpiryAction, authmgrReAuthWhenExpiryAction, no_result. destruct ty; simpl; tally.
Qed.
Lemma tally_lport_reauth l : tally (authmgrCtlLogicalPortReauthenticateSet l).
Proof. unfold authmgrCtlLogicalPortReauthenticateSet. tally. Qed.
#[local] Hint Resolve tally_callback tally_timer tally_lport_reauth : tally.

(** *** Ports and interfaces *)

Lemma tally_port_cleanup i : tally (authmgrPortInfoCleanup i).
Proof. unfold authmgrPortInfoCleanup. tally. Qed.
#[local] Hint Resolve tally_port_cleanup : tally.
Lemma tally_intf_create i : tally (authmgrIntfCreate i).
Proof.
  unfold authmgrIntfCreate, port_cfg, port_cfg_set, authmgrBuildDefaultIntfConfigData, default_list,
    authmgrCtlPortStatsClear, if_admin. tally.
Qed.
Lemma tally_intf_down i : tally (intf_down i).
Proof. unfold intf_down. tally. Qed.
Lemma tally_admin_disable : tally authmgrCtlAdminModeDisable.
Proof. unfold authmgrCtlAdminModeDisable. tally. Qed.
#[local] Hint Resolve tally_intf_create tally_intf_down tally_admin_disable : tally.
Lemma tally_vlan ev : tally (authmgrVlanDispatchCmd ev).
Proof.
  assert (∀ i v, tally (vlan_clients_leave i v)) by (intros; unfold vlan_clients_leave, clients_leave; tally).
  unfold authmgrVlanDispatchCmd, authmgrVlanChangeProcess. destruct ev; unfold authmgrVlanDeleteProcess, authmgrVlanAddProcess,
    authmgrVlanPortDeleteProcess, authmgrVlanPortDeleteLocalUpdate, authmgrVlanPortAddProcess, authmgrVlanPortAddLocalUpdate,
    authmgrVlanPVIDChangeEventProcess, authmgrVlanConfDeleteProcess, authmgrVlanConfPortDeleteProcess, clients_leave; tally.
Qed.

(** Not a message that sets a port up again (its control mode, host mode, capabilities or
    maximum of users, the application of its configuration, the start of the manager or of an
    interface), nor the command that initializes a client *)
Definition plain (msg : pac_msg) : bool :=
  match msg with
  | PacCmd (authmgrMgmtLogicalPortInitializeSet _) | PacCmd (authmgrMgmtPortInitializeSet _)
  | PacCmd (authmgrMgmtPortControlModeSet _ _) | PacCmd (authmgrMgmtHostControlModeSet _ _)
  | PacCmd (authmgrPaeCapabilitiesEvent _ _) | PacCmd (authmgrMgmtPortMaxUsersSet _ _)
  | PacCmd (authmgrMgmtApplyPortConfigData _) | PacCmd authmgrMgmtApplyConfigData | PacCmd (authmgrCtlPortInfoReset _)
  | PacCmd authmgrMgmtAdminModeEnable | PacCmd (authmgrIntfStartup NIM_INTERFACE_ACTIVATE_STARTUP) => false
  | PacCmd (authmgrIntfChange _ ev) =>
      match ev with INTF_UP | INTF_PORT_ENABLE | INTF_ATTACH | INTF_DETACH | INTF_DELETE => false | _ => true end
  | _ => true
  end.

Lemma tally_dispatch c : plain (PacCmd c) = true → tally (authmgrDispatchCmd c).
Proof.
  intros Hp. apply tally_bind; [tally|intros _]. destruct c; try done; unfold authmgrIhProcessIntfChange,
    authmgrIhProcessIntfStartup, if_valid, authmgrTimerAction, authmgrCtlPortReauthenticateSet, authmgrViolationModeSetAction,
    authmgrCtlPortQuietPeriodSet, authmgrCtlPortReAuthPeriodSet, authmgrCtlPortReAuthEnabledSet, authmgrCtlPortStatsClear,
    authmgrRadiusResponseProcess, authmgrAuthenticationInitiate, if_admin; repeat case_match; try done; tally.
Qed.
Lemma tally_handle msg : plain msg = true → tally (pac_handle msg).
Proof.
  intros Hp. unfold pac_handle. apply tally_bind; [tally|intros _].
  destruct msg; simpl; [by apply tally_dispatch|apply tally_unauth_addr|apply tally_vlan].
Qed.

End handlers.

(** ** The concrete manager *)

#[local] Existing Instance Demo.headers.
#[local] Existing Instance Demo.headers_ok.

Lemma start_counted : counted Demo.start.
Proof.
  split; [exact Demo.start_wf| |vm_compute; reflexivity|done].
  intros i x Hi Hx _. simpl in Hx. apply lookup_singleton_Some in Hx as [<- <-]. vm_compute. reflexivity.
Qed.


(** The command that initializes a client clears an authorized one and leaves the count:
    the port stays open without a client. *)
Lemma client_lost :
  let s' := Demo.after (Demo.msgs ++ [PacCmd (authmgrMgmtLogicalPortInitializeSet (AUTHMGR_LPORT_KEY_PACK 3 0 AUTHMGR_LOGICAL 0))]) Demo.start in
  pi_authCount <$> g_portInfo s' !! 3 = Some 1 ∧ authorized_count (g_nodes s') 3 = 0%nat.
Proof. vm_compute. done. Qed.

(** The command that applies the configuration of a port starts its count at zero, with a
    client that stays authorized. *)
Lemma count_lost :
  let s' := Demo.after (Demo.msgs ++ [PacCmd (authmgrMgmtApplyPortConfigData 3)]) Demo.start in
  pi_portControlMode <$> g_portInfo s' !! 3 = Some AUTHMGR_PORT_AUTO ∧
  pi_authCount <$> g_portInfo s' !! 3 = Some 0 ∧ authorized_count (g_nodes s') 3 = 1%nat.
Proof. vm_compute. done. Qed.
